(* ===== verification/_CoqProject ===== *)
-Q . S2P
Prelude.v
Safe.v
AssetSymbol.v
Asset.v
Chainbase.v
ForkDatabase.v
Authority.v
SignState.v
Utf8.v
Raw.v
FixedString.v
Version.v
OperationTypes.v
ProtocolCodec.v
OperationCodec.v
Operations.v
Transaction.v
Manabar.v
DelayedVotes.v
Account.v
ProxyTree.v
Governance.v
GovernanceBooks.v
GovernanceOps.v
GovernanceVotes.v
GovernanceExpiration.v
GovernanceDelayed.v
GovernanceMain.v
Balances.v
Market.v
MoneyBooks.v
MarketBooks.v
SavingsBooks.v
Matching.v
MoneyOps.v
ResourceDynamics.v
ResourceCost.v
ResourceCount.v
RcDelegations.v
RcBooks.v
RcDelegate.v
RcRemoval.v
RcCharge.v
RcBlock.v
RcMain.v
RcExpired.v
WitnessSchedule.v
WitnessSelection.v
WitnessMedians.v
WitnessVotes.v
WitnessRound.v
WitnessMain.v
WitnessTurns.v
Irreversibility.v
IrreversibleMain.v
BlockSlots.v
SlotsMain.v
