(* ===== verification/Prelude.v ===== *)
(** * Hive node: a verification development of its core

    The program is the C++ node of the Hive blockchain ([src/]).  A block carries transactions,
    a transaction carries operations; the protocol library says what these are, how they are
    serialised, which of them are well formed and whose signatures they need; the chain library
    evaluates them against a state kept in the Chainbase database, whose undo log lets a fork
    be abandoned; the fork database keeps the competing branches of recent blocks.

    This library models the protocol library, Chainbase, the fork database, the parts of [fc]
    they rest on, and of the chain library the mana of accounts, the votes for witnesses with
    their proxies, the schedule of witnesses with the slots of blocks and their irreversibility,
    the balances, savings and orders of accounts, and the resource credits that pay for
    transactions, as executable functions, and proves what makes them correct.

    ** Files

    - [Prelude]: exceptions and the [result] monad ([FC_ASSERT], [throw]), state with
      exceptions, machine integers with their wrap-around, lemmas and tactics for all of them.
    - [Safe]: [fc/safe.hpp], [fc/uint128.hpp]: checked arithmetic, the type [share_type].
    - [AssetSymbol]: [protocol/asset_symbol.hpp], [asset.cpp]: asset symbols, numeric asset
      identifiers with their check digit, their text and binary forms.
    - [Asset]: [protocol/asset.hpp], [asset.cpp]: assets, prices, conversion, comparison.
    - [Chainbase]: [chainbase/chainbase.hpp]: one index with its undo sessions, and the
      database that drives all indices.
    - [ForkDatabase]: [chain/fork_database.cpp]: linking, heads, branches, lookup, synopsis.
    - [Authority]: [protocol/authority.cpp]: account names and weighted authorities.
    - [SignState]: [protocol/sign_state.cpp], [transaction_util.cpp]: whether a set of keys
      satisfies an authority, and all the authorities a transaction needs.
    - [Utf8]: [fc/src/utf8/*], [utf8.cpp]: validation, decoding, encoding, pruning.
    - [Raw]: [fc/io/raw.hpp], [fc/container/flat.hpp]: binary serialisation as a [codec] (a
      writer, a reader and the values of the type) with combinators that follow the C++ types.
    - [FixedString]: [protocol/fixed_string.hpp]: strings of 16 and 32 bytes in place.
    - [Version]: [protocol/version.hpp], [version.cpp]: versions of nodes and hardforks.
    - [OperationTypes]: [protocol/hive_operations.hpp], [dhf_operations.hpp],
      [hive_virtual_operations.hpp], [operations.hpp]: the structs and the variant of them all.
    - [ProtocolCodec], [OperationCodec]: the serialisation of their fields and of themselves.
    - [Operations]: [protocol/hive_operations.cpp], [dhf_operations.cpp], [validation.hpp],
      [operation_util.hpp]: validation and required authorities, through the class
      [base_operation] that the C++ structs implement.
    - [Transaction]: [protocol/transaction.cpp]: digests, validation, recovery of keys and
      verification of authority.
    - [Manabar]: [chain/util/manabar.hpp], [fc/saturation.hpp]: mana and its regeneration.
    - [DelayedVotes]: [chain/util/delayed_voting_processor.hpp]: votes that are not yet mature.
    - [Account]: [chain/account_object.hpp]: an account as far as voting reads it.
    - [Governance]: [chain/database.cpp], [hive_evaluator.cpp], [util/delayed_voting.cpp],
      [util/dhf_helper.hpp], [util/remove_guard.hpp]: votes for witnesses, proxies, expiration
      of both and the maturing of delayed votes, over the state [chain_state].
    - [ProxyTree]: the forest of proxies.  [GovernanceBooks]: the books (what every level of
      proxied votes and every witness must hold) and the primitive changes.  [GovernanceOps],
      [GovernanceVotes], [GovernanceExpiration], [GovernanceDelayed]: the evaluators and the
      per-block work over the books.  [GovernanceMain]: their theorems.
    - [Balances]: [chain/database.cpp], [hive_evaluator.cpp]: changes of balances, savings and
      supply, interest, transfers and withdrawals from savings, over [money_state].
    - [Market]: the same files: limit orders and their matching.
    - [MoneyBooks]: the invariant of [money_state].  [MarketBooks], [SavingsBooks]: the
      primitives over it.  [Matching], [MoneyOps]: the theorems about orders and about all
      operations.
    - [ResourceDynamics]: [chain/util/rd.cpp]: pools of resources with their budget and decay.
    - [ResourceCost]: [chain/rc/rc_curve.cpp], [rc_utility.cpp]: price curves and costs.
    - [ResourceCount]: [chain/rc/resource_count.cpp], [resource_sizes.cpp]: the resources that
      operations and transactions use.
    - [RcDelegations]: [chain/rc/rc_utility.cpp]: delegation of resource credits, overflow and
      delayed removal of delegations, changes of VESTS, over [rc_state].  [RcBooks]: its
      invariant.  [RcDelegate], [RcRemoval]: the operations over it.
    - [RcCharge]: [chain/rc/rc_utility.cpp], [resource_user.cpp]: cost and payment of a
      transaction.  [RcBlock]: the pools at the end of a block.
    - [RcMain], [RcExpired]: the theorems about resource credits.
    - [WitnessSchedule]: [chain/witness_schedule.cpp], [witness_objects.hpp]: the schedule of
      witnesses, the medians of their properties and their votes for hardforks, over
      [schedule_state].  [WitnessSelection], [WitnessMedians], [WitnessVotes], [WitnessRound]:
      its parts.  [WitnessMain], [WitnessTurns]: the theorems.
    - [Irreversibility]: [chain/sync_block_writer.cpp] ([find_new_last_irreversible_block]) and
      [chain/database.cpp]: the last irreversible block, over [lib_state].  [IrreversibleMain]:
      its theorems.
    - [BlockSlots]: [chain/database.cpp]: slots in time, turns, headers, and what a block records
      of filled and missed slots, over [slot_state].  [SlotsMain]: its theorems.

    A C++ function is the definition of the same name; an exception is the value [Throw]; a
    loop is structural recursion on its container, or recursion on fuel where it is not; an
    object that is mutated and then left by an exception is kept in the state of [stM].
    Constants are those of the main network ([IS_TEST_NET] and [HIVE_ENABLE_SMT] undefined).

    ** Theorems

    - Arithmetic and assets (C1, C6, C7): [share_type] is exact or throws; conversion of assets
      is the truncated quotient, its overflow is located, and the loss of converting back is bounded.  The check digit, printing,
      serialisation and pairs of symbols, the order of prices and conversion with a fee are
      [AssetSymbol.nai_check_digit_detects], [AssetSymbol.nai_string_roundtrip],
      [AssetSymbol.symbol_pack_roundtrip], [AssetSymbol.paired_symbol_involutive],
      [Asset.price_total_order] and [Asset.multiply_with_fee_spec].
    - Database (C10, C11, C14): the undo log of an index refines a stack of snapshots, a session
      that is undone leaves the database as it was, both when no object takes a unique key that
      another one gave up in an open session; and the undo that fails when an object did.  The allocation counter is exact ([Chainbase.allocation_counter_exact]) unless a
      modifier throws ([Chainbase.allocation_counter_drifts_on_throw]).
    - Forks (C15, C17, C19): the contract of pushing a block, the invariant of every reachable
      fork database, and the synopsis sent to peers, while the links from the reference block lead
      to the oldest block of the tree ([ForkDatabase.synopsis_broken_links] is a reachable state
      where they do not); lookup on the main branch and where two
      branches part are [ForkDatabase.main_branch_lookup] and
      [ForkDatabase.fetch_branch_from_parts].
    - Authorities (C20, C21, C30): the grammar of names; the signature check against a reference
      definition of satisfied authorities; soundness of verification
      for whole transactions, operation by operation, and for a list of required authorities
      ([SignState.verify_authority_sound]).
    - Encodings (C23, C26, C32): UTF-8 against RFC 3629, variable-length integers, and the
      round trip and injectivity of the serialisation of transactions.  Coding and pruning of
      text, fixed strings and versions are [Utf8.utf8_codec_exact], [Utf8.prune_invalid_utf8_exact],
      [FixedString.fixed_string_16_faithful], [FixedString.fixed_string_32_order] and
      [Version.version_comparison].
    - Validation: the list of beneficiaries of a comment
      ([Operations.validate_beneficiaries_exact]).
    - Mana and delayed votes (C33, C34): regeneration is exact or throws, and spending is
      bounded by what regenerates; the collection of delayed votes stays well formed
      ([DelayedVotes.delayed_votes_collection]).
    - Governance (C36-C38): votes, proxies and expiration keep the books right and succeed
      exactly when their checks pass; the expiration clears every expired account in a bounded
      number of calls; the maturing of delayed votes ends and settles them.
    - Money (C39-C40): transfers, savings and orders conserve HIVE and HBD and the work of a
      block cannot fail; orders are matched by price and age, at prices fair to both sides.  The
      orders sell positive amounts, which is an assumption for [limit_order_create2_operation]
      ([MoneyOps.negative_order_accepted]).
    - Resources (C5, C13, C27-C29): pools are set up in balance and recover to it; the end of a
      block keeps pools, usage window and weights well formed; costs are the exact price rounded
      up; the usage of a transaction is the sum of its parts.
    - Resource credits (C9, C16, C25, C35): delegations, changes of VESTS, removals and payments
      keep the books right; a delegation sets what it names; expired delegations are removed in
      a bounded number of blocks; an accepted transaction is paid in full by a signer.  Nodes that
      are not in control and undelegate during a removal are excepted
      ([RcMain.undelegation_during_removal]).
    - Schedule of witnesses (C8, C12, C18, C24): a round selects fairly and leaves the next one
      possible; every enabled witness gets its turn; the properties of the schedule are medians, and
      hardforks have their majority.
    - Irreversibility and slots (C2-C4, C22, C31): a block becomes irreversible by the votes of
      enough scheduled witnesses, never two on different forks, and the last one only moves
      forward; slots follow the clock, and a block accounts for all slots since the last one, although
      its own is lost from the record after 128 missed ones ([SlotsMain.participation_lost]).

    ** Fuel

    Fuel occurs in [Authority.check_labels] (the length of the name), in the walks of
    [ForkDatabase] (the number of items, which a chain of parents cannot exceed), in [Utf8]
    (the number of octets), in the variable-length integers of [Raw] (ten groups of seven bits
    cover 64 bits, five are the limit of the source), in [SignState] (the recursion limit
    of the source), in [Governance] (five rounds for a chain of proxies, one more than the
    source admits, and one round per delayed entry for the maturing of votes), in
    [RcDelegations.expired_rounds] (one round per queued removal), and in
    [Irreversibility.walk_fork] (the number of the head, which falls with every step).  The
    theorems about these functions show that the fuel does not run out.

    ** Not modelled

    The other evaluators of the chain library (accounts, comments, vesting, conversions,
    escrow, proposals), the rest of block application and rewards, the reports on resource credits,
    plugins, network and API code; the JSON parsers, SHA-256, elliptic curves and Equihash,
    which are parameters (the classes [Operations.Externals], [FixedString.EndianReverse64],
    and function arguments) with the laws that are used of them stated as classes or
    hypotheses. *)

From stdpp Require Export base tactics option list numbers strings.
From stdpp Require Export gmap sets sorting.
From Stdlib Require Export Lia ZArith.

Open Scope Z_scope.

(** ** Exceptions and the [result] monad

    The C++ code reports failure by throwing.  A function that may throw is a
    function into [result]; [Throw] carries the class of the exception and, for
    [FC_ASSERT], its message. *)

Inductive exn : Set :=
| assert_exception (msg : string)
| overflow_exception
| underflow_exception
| divide_by_zero_exception
| parse_error_exception
| bad_cast_exception
| unlinkable_block_exception
| out_of_range_exception
| logic_error_exception
| fc_exception (msg : string)
| undefined_behaviour.

Inductive result (A : Type) : Type :=
| Ok (a : A)
| Throw (e : exn).
Arguments Ok {A} a.
Arguments Throw {A} e.

#[export] Instance exn_eq_dec : EqDecision exn.
Proof. solve_decision. Defined.
#[export] Instance result_eq_dec {A} `{EqDecision A} : EqDecision (result A).
Proof. solve_decision. Defined.

#[export] Instance result_ret : MRet result := λ A a, Ok a.
#[export] Instance result_bind : MBind result := λ A B k m,
  match m with Ok a => k a | Throw e => Throw e end.
#[export] Instance result_fmap : FMap result := λ A B f m,
  match m with Ok a => Ok (f a) | Throw e => Throw e end.

(** [FC_ASSERT( b, msg )]. *)
Definition fc_assert (b : bool) (msg : string) : result unit :=
  if b then Ok tt else Throw (assert_exception msg).

Definition is_ok {A} (r : result A) : bool :=
  match r with Ok _ => true | Throw _ => false end.

Definition from_option_or {A} (e : exn) (o : option A) : result A :=
  match o with Some a => Ok a | None => Throw e end.

(** A loop over a container whose body may throw. *)
Fixpoint foldM {S A} (f : S → A → result S) (s : S) (l : list A) : result S :=
  match l with
  | [] => Ok s
  | x :: l' => s' ← f s x; foldM f s' l'
  end.

Definition forM_ {A} (f : A → result unit) (l : list A) : result unit :=
  foldM (λ _ x, f x) tt l.

Lemma bind_Ok {A B} (m : result A) (k : A → result B) b :
  (m ≫= k) = Ok b ↔ ∃ a, m = Ok a ∧ k a = Ok b.
Proof. destruct m; simpl; naive_solver. Qed.

Lemma bind_is_ok {A B} (m : result A) (k : A → result B) :
  is_ok (m ≫= k) = match m with Ok a => is_ok (k a) | Throw _ => false end.
Proof. by destruct m. Qed.

Lemma is_ok_Ok {A} (r : result A) : is_ok r = true ↔ ∃ a, r = Ok a.
Proof. destruct r; naive_solver. Qed.

Lemma fc_assert_Ok b msg u : fc_assert b msg = Ok u ↔ b = true.
Proof. destruct b, u; naive_solver. Qed.

Lemma fc_assert_is_ok b msg : is_ok (fc_assert b msg) = b.
Proof. by destruct b. Qed.

Lemma from_option_or_Ok {A} e (o : option A) a :
  from_option_or e o = Ok a ↔ o = Some a.
Proof. destruct o; naive_solver. Qed.

Lemma fc_assert_bind_Ok {B} b msg (k : unit → result B) r :
  (fc_assert b msg ≫= k) = Ok r ↔ b = true ∧ k tt = Ok r.
Proof. destruct b; naive_solver. Qed.

Lemma foldM_app {S A} (f : S → A → result S) s l1 l2 :
  foldM f s (l1 ++ l2) = (s' ← foldM f s l1; foldM f s' l2).
Proof.
  revert s; induction l1 as [|x l1 IH]; intros s; [done|].
  simpl. destruct (f s x); simpl; [apply IH|done].
Qed.

(** Rule for an invariant of a throwing loop. *)
Lemma foldM_invariant {S A} (P : S → Prop) (f : S → A → result S) l s s' :
  (∀ s x s', x ∈ l → P s → f s x = Ok s' → P s') →
  P s → foldM f s l = Ok s' → P s'.
Proof.
  revert s; induction l as [|x l IH]; intros s Hstep HP H; simpl in H.
  { by simplify_eq. }
  apply bind_Ok in H as (s1 & H1 & H2).
  apply (IH s1); [|by eapply (Hstep s x); [left| |]|done].
  intros s2 y s3 Hy. apply Hstep. by right.
Qed.

Lemma forM_Ok {A} (f : A → result unit) l u :
  forM_ f l = Ok u ↔ ∀ x, x ∈ l → is_ok (f x) = true.
Proof.
  destruct u. unfold forM_. induction l as [|x l IH]; simpl.
  { split; [set_solver|done]. }
  rewrite bind_Ok. split.
  - intros ([] & Hf & Hl) y [->|Hy]%elem_of_cons; [by rewrite Hf|].
    by apply IH.
  - intros H. assert (is_ok (f x) = true) as Hx by (apply H; set_solver).
    apply is_ok_Ok in Hx as [[] Hx]. exists tt; split; [done|].
    apply IH. intros y Hy. apply H. by right.
Qed.

(** ** State and exceptions

    Code that mutates a shared object and may throw: the state reached at the
    throw is kept, as it is in C++. *)

Definition stM (S A : Type) : Type := S → S * result A.

#[export] Instance stM_ret {S} : MRet (stM S) := λ A a s, (s, Ok a).
#[export] Instance stM_bind {S} : MBind (stM S) := λ A B k m s,
  match m s with
  | (s', Ok a) => k a s'
  | (s', Throw e) => (s', Throw e)
  end.

Definition st_get {S} : stM S S := λ s, (s, Ok s).
Definition st_modify {S} (f : S → S) : stM S unit := λ s, (f s, Ok tt).
Definition st_throw {S A} (e : exn) : stM S A := λ s, (s, Throw e).
Definition st_lift {S A} (r : result A) : stM S A := λ s, (s, r).

(** A loop whose body mutates the state and may throw. *)
Fixpoint st_for {S A} (f : A → stM S unit) (l : list A) : stM S unit :=
  match l with
  | [] => mret tt
  | x :: l' => f x ;; st_for f l'
  end.

Lemma stM_bind_Ok {S A B} (m : stM S A) (k : A → stM S B) s s' a :
  m s = (s', Ok a) → (m ≫= k) s = k a s'.
Proof. intros H. unfold mbind, stM_bind. by rewrite H. Qed.

Lemma stM_bind_Throw {S A B} (m : stM S A) (k : A → stM S B) s s' e :
  m s = (s', Throw e) → (m ≫= k) s = (s', Throw e).
Proof. intros H. unfold mbind, stM_bind. by rewrite H. Qed.

Lemma stM_bind_inv {S A B} (m : stM S A) (k : A → stM S B) s s' b :
  (m ≫= k) s = (s', Ok b) → ∃ s1 a, m s = (s1, Ok a) ∧ k a s1 = (s', Ok b).
Proof.
  unfold mbind, stM_bind. destruct (m s) as [s1 [a|e]]; [|done]. eauto.
Qed.

(** ** Machine integers

    A [w]-bit unsigned (signed) C++ integer is the [Z] it denotes; conversions
    and arithmetic wrap with [wrapu w] ([wraps w]). *)

Definition wrapu (w z : Z) : Z := z mod 2 ^ w.
Definition wraps (w z : Z) : Z := (z + 2 ^ (w - 1)) mod 2 ^ w - 2 ^ (w - 1).

Definition u8 : Z → Z := wrapu 8.
Definition u16 : Z → Z := wrapu 16.
Definition u32 : Z → Z := wrapu 32.
Definition u64 : Z → Z := wrapu 64.
Definition u128 : Z → Z := wrapu 128.
Definition i32 : Z → Z := wraps 32.
Definition i64 : Z → Z := wraps 64.

Definition u8_max : Z := 255.
Definition u16_max : Z := 65535.
Definition u32_max : Z := 4294967295.
Definition u64_max : Z := 18446744073709551615.
Definition u128_max : Z := 340282366920938463463374607431768211455.
Definition i32_max : Z := 2147483647.
Definition i64_max : Z := 9223372036854775807.
Definition i64_min : Z := -9223372036854775808.

Definition in_u8 (z : Z) : bool := (0 <=? z) && (z <=? u8_max).
Definition in_u16 (z : Z) : bool := (0 <=? z) && (z <=? u16_max).
Definition in_u32 (z : Z) : bool := (0 <=? z) && (z <=? u32_max).
Definition in_u64 (z : Z) : bool := (0 <=? z) && (z <=? u64_max).
Definition in_u128 (z : Z) : bool := (0 <=? z) && (z <=? u128_max).
Definition in_i64 (z : Z) : bool := (i64_min <=? z) && (z <=? i64_max).

Create HintDb machine discriminated.
Create Rewrite HintDb machine_rw.

Lemma wrapu_id w z : 0 ≤ z < 2 ^ w → wrapu w z = z.
Proof. apply Z.mod_small. Qed.
Lemma wraps_id w z : 0 < w → - 2 ^ (w - 1) ≤ z < 2 ^ (w - 1) → wraps w z = z.
Proof.
  intros Hw Hz. unfold wraps. rewrite Z.mod_small; [lia|].
  assert (2 ^ w = 2 * 2 ^ (w - 1)) as ->; [|lia].
  rewrite <- Z.pow_succ_r by lia. f_equal; lia.
Qed.
Lemma wrapu_bound w z : 0 ≤ w → 0 ≤ wrapu w z < 2 ^ w.
Proof. intros. apply Z.mod_pos_bound. lia. Qed.
Lemma wraps_bound w z : 0 < w → - 2 ^ (w - 1) ≤ wraps w z < 2 ^ (w - 1).
Proof.
  intros Hw. unfold wraps.
  assert (2 ^ w = 2 * 2 ^ (w - 1)) as ->.
  { rewrite <- Z.pow_succ_r by lia. f_equal; lia. }
  pose proof (Z.mod_pos_bound (z + 2 ^ (w - 1)) (2 * 2 ^ (w - 1))). lia.
Qed.

Lemma u8_id z : 0 ≤ z ≤ u8_max → u8 z = z.
Proof. intros; apply wrapu_id; unfold u8_max in *; lia. Qed.
Lemma u16_id z : 0 ≤ z ≤ u16_max → u16 z = z.
Proof. intros; apply wrapu_id; unfold u16_max in *; lia. Qed.
Lemma u32_id z : 0 ≤ z ≤ u32_max → u32 z = z.
Proof. intros; apply wrapu_id; unfold u32_max in *; lia. Qed.
Lemma u64_id z : 0 ≤ z ≤ u64_max → u64 z = z.
Proof. intros; apply wrapu_id; unfold u64_max in *; lia. Qed.
Lemma u128_id z : 0 ≤ z ≤ u128_max → u128 z = z.
Proof. intros; apply wrapu_id; unfold u128_max in *; lia. Qed.
Lemma i64_id z : i64_min ≤ z ≤ i64_max → i64 z = z.
Proof. intros; apply wraps_id; unfold i64_min, i64_max in *; lia. Qed.
Lemma u32_bound z : 0 ≤ u32 z ≤ u32_max.
Proof. pose proof (wrapu_bound 32 z); unfold u32, u32_max in *; lia. Qed.
Lemma u64_bound z : 0 ≤ u64 z ≤ u64_max.
Proof. pose proof (wrapu_bound 64 z); unfold u64, u64_max in *; lia. Qed.
Lemma u128_bound z : 0 ≤ u128 z ≤ u128_max.
Proof. pose proof (wrapu_bound 128 z); unfold u128, u128_max in *; lia. Qed.
Lemma i64_bound z : i64_min ≤ i64 z ≤ i64_max.
Proof. pose proof (wraps_bound 64 z); unfold i64, i64_min, i64_max in *; lia. Qed.

Lemma in_i64_spec z : in_i64 z = true ↔ i64_min ≤ z ≤ i64_max.
Proof. unfold in_i64. rewrite andb_true_iff, !Z.leb_le. done. Qed.
Lemma in_u64_spec z : in_u64 z = true ↔ 0 ≤ z ≤ u64_max.
Proof. unfold in_u64. rewrite andb_true_iff, !Z.leb_le. done. Qed.
Lemma in_u32_spec z : in_u32 z = true ↔ 0 ≤ z ≤ u32_max.
Proof. unfold in_u32. rewrite andb_true_iff, !Z.leb_le. done. Qed.

#[export] Hint Resolve u32_bound u64_bound u128_bound i64_bound : machine.
#[export] Hint Rewrite in_i64_spec in_u64_spec in_u32_spec : machine_rw.

(** *** Bit fields *)

Lemma testbit_above w z i : 0 ≤ z < 2 ^ w → 0 ≤ w ≤ i → Z.testbit z i = false.
Proof.
  intros Hz Hi. rewrite <- (Z.mod_small z (2 ^ w)) by done.
  by apply Z.mod_pow2_bits_high.
Qed.

(** Fields that do not overlap: [|] is [+]. *)
Lemma lor_shiftl_add a k b : 0 ≤ k → 0 ≤ b < 2 ^ k → Z.lor (Z.shiftl a k) b = a * 2 ^ k + b.
Proof.
  intros Hk Hb. rewrite <- Z.shiftl_mul_pow2 by done.
  assert (Z.land (Z.shiftl a k) b = 0) as H0.
  { apply Z.bits_inj'. intros i Hi. rewrite Z.land_spec, Z.bits_0, Z.shiftl_spec by done.
    destruct (decide (i < k)).
    - by rewrite Z.testbit_neg_r by lia.
    - rewrite (testbit_above k b i) by lia. by rewrite andb_false_r. }
  rewrite <- Z.lxor_lor by done. by rewrite Z.add_nocarry_lxor.
Qed.

Lemma land_mask z k : 0 ≤ k → Z.land z (2 ^ k - 1) = z mod 2 ^ k.
Proof. intros Hk. rewrite Z.sub_1_r, <- Z.ones_equiv. by apply Z.land_ones. Qed.

(** Testing a single bit. *)
Lemma land_bit z k : 0 ≤ k → Z.land z (2 ^ k) = 2 ^ k * (z / 2 ^ k mod 2).
Proof.
  intros Hk. rewrite <- Z.testbit_spec' by done.
  apply Z.bits_inj'. intros i Hi. rewrite Z.land_spec, Z.pow2_bits_eqb by done.
  destruct (Z.eqb_spec k i) as [->|Hne].
  - destruct (Z.testbit z i); simpl; rewrite ?Z.mul_1_r, ?Z.mul_0_r, ?Z.bits_0; [|done].
    by rewrite Z.pow2_bits_true.
  - rewrite andb_false_r.
    destruct (Z.testbit z k); simpl; rewrite ?Z.mul_1_r, ?Z.mul_0_r, ?Z.bits_0; [|done].
    by rewrite Z.pow2_bits_false.
Qed.

(** Toggling a single bit. *)
Lemma lxor_bit z k : 0 ≤ k →
  Z.lxor z (2 ^ k) = if Z.testbit z k then z - 2 ^ k else z + 2 ^ k.
Proof.
  intros Hk. pose proof (land_bit z k Hk) as Hl. rewrite <- Z.testbit_spec' in Hl by done.
  assert (Z.lxor z (2 ^ k) = z + 2 ^ k - 2 * Z.land z (2 ^ k)) as ->.
  { rewrite <- Z.add_lor_land.
    assert (Z.lor z (2 ^ k) = Z.lxor z (2 ^ k) + Z.land z (2 ^ k)); [|lia].
    assert (Z.land (Z.lxor z (2 ^ k)) (Z.land z (2 ^ k)) = 0) as H0.
    { apply Z.bits_inj'. intros i Hi.
      rewrite !Z.land_spec, Z.lxor_spec, Z.bits_0.
      by destruct (Z.testbit z i), (Z.testbit (2 ^ k) i). }
    rewrite Z.add_nocarry_lxor by done.
    apply Z.bits_inj'. intros i Hi.
    rewrite Z.lor_spec, !Z.lxor_spec, Z.land_spec.
    by destruct (Z.testbit z i), (Z.testbit (2 ^ k) i). }
  rewrite Hl. destruct (Z.testbit z k); simpl; lia.
Qed.

(** C++ integer division and remainder truncate towards zero. *)
Definition cdiv (a b : Z) : Z := Z.quot a b.
Definition crem (a b : Z) : Z := Z.rem a b.

(** ** Tactics of the development *)

(** Turn boolean tests into propositions, in every hypothesis and the goal. *)
Ltac bool_to_prop :=
  repeat match goal with
  | H : context [andb _ _ = true] |- _ => rewrite andb_true_iff in H
  | H : context [andb _ _ = false] |- _ => rewrite andb_false_iff in H
  | H : context [orb _ _ = true] |- _ => rewrite orb_true_iff in H
  | H : context [orb _ _ = false] |- _ => rewrite orb_false_iff in H
  | H : context [negb _ = true] |- _ => rewrite negb_true_iff in H
  | H : context [negb _ = false] |- _ => rewrite negb_false_iff in H
  | H : context [Z.eqb _ _ = true] |- _ => rewrite Z.eqb_eq in H
  | H : context [Z.eqb _ _ = false] |- _ => rewrite Z.eqb_neq in H
  | H : context [Z.leb _ _ = true] |- _ => rewrite Z.leb_le in H
  | H : context [Z.leb _ _ = false] |- _ => rewrite Z.leb_gt in H
  | H : context [Z.ltb _ _ = true] |- _ => rewrite Z.ltb_lt in H
  | H : context [Z.ltb _ _ = false] |- _ => rewrite Z.ltb_ge in H
  | H : context [bool_decide _ = true] |- _ => rewrite bool_decide_eq_true in H
  | H : context [bool_decide _ = false] |- _ => rewrite bool_decide_eq_false in H
  | |- context [andb _ _ = true] => rewrite andb_true_iff
  | |- context [orb _ _ = true] => rewrite orb_true_iff
  | |- context [negb _ = true] => rewrite negb_true_iff
  | |- context [Z.eqb _ _ = true] => rewrite Z.eqb_eq
  | |- context [Z.eqb _ _ = false] => rewrite Z.eqb_neq
  | |- context [Z.leb _ _ = true] => rewrite Z.leb_le
  | |- context [Z.leb _ _ = false] => rewrite Z.leb_gt
  | |- context [Z.ltb _ _ = true] => rewrite Z.ltb_lt
  | |- context [Z.ltb _ _ = false] => rewrite Z.ltb_ge
  | |- context [bool_decide _ = true] => rewrite bool_decide_eq_true
  | |- context [bool_decide _ = false] => rewrite bool_decide_eq_false
  end.

(** Run the glue of a stateful computation. *)
Ltac st_run :=
  cbv [mbind stM_bind mret stM_ret st_get st_modify st_throw st_lift];
  cbn beta iota zeta.

(** Decompose a successful run of a monadic computation. *)
Ltac ok_inv H :=
  lazymatch type of H with
  | (fc_assert _ _ ≫= _) = Ok _ =>
      let Hb := fresh "Hassert" in
      apply fc_assert_bind_Ok in H as [Hb H]; ok_inv H
  | (_ ≫= _) = Ok _ =>
      let a := fresh "a" in let Ha := fresh "Ha" in
      apply bind_Ok in H as (a & Ha & H); ok_inv H
  | fc_assert _ _ = Ok _ => apply fc_assert_Ok in H
  | Ok _ = Ok _ => injection H as H; try subst
  | mret _ = Ok _ => injection H as H; try subst
  | _ => idtac
  end.

(** Euclidean division brackets the dividend. *)
Lemma div_bracket x z : 0 < z → x / z * z ≤ x < x / z * z + z.
Proof.
  intros Hz. pose proof (Z.div_mod x z). pose proof (Z.mod_pos_bound x z). lia.
Qed.

(** ** Ordered containers

    [std::map] and [std::set] are iterated in key order; loops over them in the
    code that touch only the entry of the current key are characterised pointwise
    by [foldl_local]. *)

Definition key_le {V} (p q : Z * V) : Prop := p.1 ≤ q.1.
#[export] Instance key_le_dec {V} : RelDecision (@key_le V).
Proof. intros p q. unfold key_le. apply _. Defined.

Definition items {V} (m : gmap Z V) : list (Z * V) :=
  merge_sort key_le (map_to_list m).

Definition sorted_set (X : gset Z) : list Z := merge_sort Z.le (elements X).

Lemma items_perm {V} (m : gmap Z V) : items m ≡ₚ map_to_list m.
Proof. apply merge_sort_Permutation. Qed.

Lemma items_NoDup {V} (m : gmap Z V) : NoDup (items m).*1.
Proof. rewrite items_perm. apply NoDup_fst_map_to_list. Qed.

Lemma elem_of_items {V} (m : gmap Z V) i x : (i, x) ∈ items m ↔ m !! i = Some x.
Proof. rewrite items_perm. apply elem_of_map_to_list. Qed.

Lemma items_to_map {V} (m : gmap Z V) : list_to_map (items m) = m.
Proof.
  rewrite (list_to_map_proper (items m) (map_to_list m)) by apply items_NoDup || apply items_perm.
  apply list_to_map_to_list.
Qed.

Lemma sorted_set_perm X : sorted_set X ≡ₚ elements X.
Proof. apply merge_sort_Permutation. Qed.

Lemma elem_of_sorted_set i X : i ∈ sorted_set X ↔ i ∈ X.
Proof. rewrite sorted_set_perm. apply elem_of_elements. Qed.

Lemma sorted_set_NoDup X : NoDup (sorted_set X).
Proof. rewrite sorted_set_perm. apply NoDup_elements. Qed.

Lemma foldl_local {S T V} (look : S → Z → T) (f : S → Z * V → S) (g : V → T → T) l s :
  (∀ s k v i, (k, v) ∈ l →
     look (f s (k, v)) i = if decide (i = k) then g v (look s i) else look s i) →
  NoDup l.*1 →
  ∀ i, look (foldl f s l) i =
    match (list_to_map l : gmap Z V) !! i with
    | Some v => g v (look s i)
    | None => look s i
    end.
Proof.
  intros Hf Hnd i. revert s. induction l as [|[k v] l IH]; intros s; simpl.
  { by rewrite lookup_empty. }
  inversion_clear Hnd as [|?? Hk Hl].
  rewrite IH by (done || intros; apply Hf; by right).
  rewrite Hf by left. destruct (decide (i = k)) as [->|Hne].
  - rewrite lookup_insert_eq. by rewrite (not_elem_of_list_to_map_1 l k Hk).
  - by rewrite lookup_insert_ne.
Qed.

Lemma filter_all {A} (P : A → Prop) `{∀ a, Decision (P a)} (l : list A) :
  Forall P l → filter P l = l.
Proof.
  induction 1 as [|a l Ha Hl IH]; [done|]. by rewrite filter_cons_True, IH.
Qed.

Lemma filter_none {A} (P : A → Prop) `{∀ a, Decision (P a)} (l : list A) :
  (∀ a, a ∈ l → ¬ P a) → filter P l = [].
Proof.
  induction l as [|a l IH]; intros Hn; [done|]. rewrite filter_cons_False by (apply Hn; left).
  apply IH. intros b Hb. apply Hn. by right.
Qed.

Lemma filter_length_bound {A} (P : A → Prop) `{∀ a, Decision (P a)} (l : list A) :
  (length (filter P l) ≤ length l)%nat.
Proof. apply sublist_length, sublist_filter. Qed.

(** ** Sums *)

Definition sumZ (l : list Z) : Z := foldr Z.add 0 l.

Lemma sumZ_cons x l : sumZ (x :: l) = x + sumZ l.
Proof. done. Qed.

Lemma sumZ_app l1 l2 : sumZ (l1 ++ l2) = sumZ l1 + sumZ l2.
Proof. unfold sumZ. induction l1 as [|x l1 IH]; simpl; lia. Qed.

Lemma sumZ_nonneg l : Forall (λ z, 0 ≤ z) l → 0 ≤ sumZ l.
Proof. unfold sumZ. induction 1; simpl; lia. Qed.

Lemma sumZ_ext {A} (f g : A → Z) l :
  (∀ x, x ∈ l → f x = g x) → sumZ (f <$> l) = sumZ (g <$> l).
Proof.
  induction l as [|x l IH]; intros H; [done|]. rewrite !fmap_cons, !sumZ_cons.
  rewrite IH by (intros; apply H; by right). rewrite H by left. done.
Qed.

Lemma sumZ_zero {A} (f : A → Z) l : (∀ x, x ∈ l → f x = 0) → sumZ (f <$> l) = 0.
Proof.
  intros H. rewrite (sumZ_ext f (λ _, 0)) by done. clear H.
  induction l as [|x l IH]; [done|]. by rewrite fmap_cons, sumZ_cons, IH.
Qed.

Lemma sumZ_add {A} (f g : A → Z) l :
  sumZ ((λ x, f x + g x) <$> l) = sumZ (f <$> l) + sumZ (g <$> l).
Proof.
  induction l as [|x l IH]; [done|]. rewrite !fmap_cons, !sumZ_cons. lia.
Qed.

Lemma sumZ_scale {A} (f : A → Z) c l : sumZ (f <$> l) * c = sumZ ((λ x, f x * c) <$> l).
Proof.
  induction l as [|x l IH]; [done|]. rewrite !fmap_cons, !sumZ_cons. lia.
Qed.

(** Zeros and at most one one. *)
Lemma sumZ_at_most_one {A} (f : A → Z) l : NoDup l →
  (∀ x, x ∈ l → 0 ≤ f x ≤ 1) → (∀ x y, x ∈ l → y ∈ l → f x ≠ 0 → f y ≠ 0 → x = y) →
  0 ≤ sumZ (f <$> l) ≤ 1.
Proof.
  induction 1 as [|x l Hx Hl IH]; intros H1 Hu; [simpl; lia|].
  rewrite fmap_cons, sumZ_cons. pose proof (H1 x ltac:(by left)).
  destruct (decide (f x = 0)) as [->|Hne].
  - rewrite Z.add_0_l. apply IH; intros; [apply H1|apply Hu]; by (right || done).
  - rewrite sumZ_zero; [lia|]. intros y Hy. destruct (decide (f y = 0)); [done|].
    destruct Hx. rewrite (Hu x y); [done|by left|by right|done|done].
Qed.

(** The sum of [f] over the entries of a map. *)
Definition map_sum `{Countable K} {V} (f : K → V → Z) (m : gmap K V) : Z :=
  map_fold (λ k v n, f k v + n) 0 m.

Section map_sum.
Context `{Countable K} {V : Type} (f : K → V → Z).

Lemma map_sum_empty : map_sum f ∅ = 0.
Proof. apply map_fold_empty. Qed.

Lemma map_sum_delete m k :
  map_sum f (delete k m) = map_sum f m - from_option (f k) 0 (m !! k).
Proof.
  destruct (m !! k) as [v|] eqn:Hk; simpl.
  - unfold map_sum. rewrite (map_fold_delete_L (λ k v n, f k v + n) 0 k v m) by (done || intros; lia).
    lia.
  - rewrite delete_id by done. lia.
Qed.

Lemma map_sum_insert m k v :
  map_sum f (<[k := v]> m) = map_sum f m + f k v - from_option (f k) 0 (m !! k).
Proof.
  rewrite <- insert_delete_eq. unfold map_sum.
  rewrite map_fold_insert_L; [|intros; lia|apply lookup_delete_eq].
  fold (map_sum f (delete k m)) (map_sum f m). rewrite map_sum_delete. lia.
Qed.

Lemma map_sum_nonneg m : (∀ k v, m !! k = Some v → 0 ≤ f k v) → 0 ≤ map_sum f m.
Proof.
  intros Hm. induction m as [|k v m Hk IH] using map_ind; [by rewrite map_sum_empty|].
  rewrite map_sum_insert, Hk. simpl.
  pose proof (Hm k v (lookup_insert_eq _ _ _)).
  assert (0 ≤ map_sum f m); [|lia]. apply IH. intros k' v' Hk'. apply Hm.
  rewrite lookup_insert_ne; [done|]. intros ->. congruence.
Qed.

(** An entry is at most the sum. *)
Lemma map_sum_lookup_le m k v :
  (∀ k v, m !! k = Some v → 0 ≤ f k v) → m !! k = Some v → f k v ≤ map_sum f m.
Proof.
  intros Hm Hk. pose proof (map_sum_delete m k) as Hd. rewrite Hk in Hd. simpl in Hd.
  assert (0 ≤ map_sum f (delete k m)); [|lia].
  apply map_sum_nonneg. intros k' v' [_ Hk']%lookup_delete_Some. by apply Hm.
Qed.

Lemma map_sum_ext g m :
  (∀ k v, m !! k = Some v → f k v = g k v) → map_sum f m = map_sum g m.
Proof.
  intros Hm. induction m as [|k v m Hk IH] using map_ind; [done|].
  unfold map_sum. rewrite !map_fold_insert_L by (done || intros; lia).
  rewrite (Hm k v) by apply lookup_insert_eq. f_equal. apply IH.
  intros k' v' Hk'. apply Hm. rewrite lookup_insert_ne; [done|]. intros ->. congruence.
Qed.

Lemma map_sum_mono g m :
  (∀ k v, m !! k = Some v → f k v ≤ g k v) → map_sum f m ≤ map_sum g m.
Proof.
  intros Hm. induction m as [|k v m Hk IH] using map_ind; [done|].
  unfold map_sum. rewrite !map_fold_insert_L by (done || intros; lia).
  pose proof (Hm k v (lookup_insert_eq _ _ _)). assert (map_sum f m ≤ map_sum g m) as Hle.
  { apply IH. intros k' v' Hk'. apply Hm. rewrite lookup_insert_ne; [done|]. intros ->. congruence. }
  unfold map_sum in Hle. lia.
Qed.

Lemma map_sum_add g m : map_sum (λ k v, f k v + g k v) m = map_sum f m + map_sum g m.
Proof.
  induction m as [|k v m Hk IH] using map_ind; [done|].
  unfold map_sum in *. rewrite !map_fold_insert_L by (done || intros; lia). lia.
Qed.

Lemma map_sum_scale c m : map_sum (λ k v, c * f k v) m = c * map_sum f m.
Proof.
  induction m as [|k v m Hk IH] using map_ind; [unfold map_sum; rewrite !map_fold_empty; lia|].
  unfold map_sum in *. rewrite !map_fold_insert_L by (done || intros; lia). lia.
Qed.

Lemma map_sum_zero m : (∀ k v, m !! k = Some v → f k v = 0) → map_sum f m = 0.
Proof.
  intros Hm. induction m as [|k v m Hk IH] using map_ind; [done|].
  rewrite map_sum_insert, Hk, IH; simpl.
  - rewrite (Hm k v) by apply lookup_insert_eq. lia.
  - intros k' v' Hk'. apply Hm. rewrite lookup_insert_ne; [done|]. intros ->. congruence.
Qed.

(** A sum over one key. *)
Lemma map_sum_single m k0 :
  map_sum (λ k v, if decide (k = k0) then f k v else 0) m = from_option (f k0) 0 (m !! k0).
Proof.
  induction m as [|k v m Hk IH] using map_ind; [by rewrite lookup_empty|].
  unfold map_sum in *. rewrite map_fold_insert_L by (done || intros; lia). rewrite IH.
  destruct (decide (k = k0)) as [->|Hne].
  - rewrite lookup_insert_eq, Hk. simpl. lia.
  - rewrite lookup_insert_ne by done. lia.
Qed.

End map_sum.

(** Summing over a list of terms. *)
Lemma map_sum_list `{Countable K} {V B} (g : B → K → V → Z) (l : list B) (m : gmap K V) :
  map_sum (λ k v, sumZ ((λ b, g b k v) <$> l)) m = sumZ ((λ b, map_sum (g b) m) <$> l).
Proof.
  induction l as [|b l IH].
  - by apply map_sum_zero.
  - rewrite fmap_cons, sumZ_cons, <- IH. exact (map_sum_add (g b) _ m).
Qed.

Lemma map_sum_swap `{Countable K1, Countable K2} {V1 V2} (f : K1 → V1 → K2 → V2 → Z)
    (m1 : gmap K1 V1) (m2 : gmap K2 V2) :
  map_sum (λ k1 v1, map_sum (λ k2 v2, f k1 v1 k2 v2) m2) m1
  = map_sum (λ k2 v2, map_sum (λ k1 v1, f k1 v1 k2 v2) m1) m2.
Proof.
  induction m1 as [|k v m Hk IH] using map_ind.
  { rewrite map_sum_empty. symmetry. apply map_sum_zero. intros. apply map_sum_empty. }
  rewrite map_sum_insert, Hk, IH. simpl.
  rewrite (map_sum_ext (λ k2 v2, map_sum (λ k1 v1, f k1 v1 k2 v2) (<[k := v]> m))
    (λ k2 v2, map_sum (λ k1 v1, f k1 v1 k2 v2) m + f k v k2 v2)).
  { by rewrite map_sum_add, Z.sub_0_r. }
  intros k2 v2 _. rewrite map_sum_insert, Hk. simpl. lia.
Qed.
