(* ===== verification/Safe.v ===== *)
(** * Checked integers

    [fc::safe<T>] (libraries/fc/include/fc/safe.hpp), the overflow-checked
    integer every amount of the chain is made of, and the [fc::uint128_t]
    conversions (libraries/fc/include/fc/uint128.hpp).

    [safe<T>] is a template over a built-in integer type; here its operations
    take the [std::numeric_limits] of [T].  The theorems state that each
    operation returns the exact mathematical result when it is representable
    and throws otherwise, so that no operation of the chain on [share_type]
    can wrap around. *)

From S2P Require Import Prelude.
Open Scope Z_scope.

(** [std::numeric_limits<T>] of the built-in type a [safe] wraps. *)
Record numeric_limits : Set := NumericLimits { lim_min : Z; lim_max : Z }.

Definition in_limits (T : numeric_limits) (z : Z) : Prop :=
  lim_min T ≤ z ≤ lim_max T.

(** What the proofs need of a built-in type: zero is representable, and the
    range of a signed type has one more negative value than positive ones. *)
Class IntegerType (T : numeric_limits) : Prop := {
  lim_zero : lim_min T ≤ 0 ≤ lim_max T;
  lim_shape : lim_min T = 0 ∨ lim_min T = - lim_max T - 1
}.

Definition int64_limits : numeric_limits := NumericLimits i64_min i64_max.
Definition uint64_limits : numeric_limits := NumericLimits 0 u64_max.

#[export] Instance int64_IntegerType : IntegerType int64_limits.
Proof. split; unfold int64_limits, i64_min, i64_max; simpl; lia. Qed.
#[export] Instance uint64_IntegerType : IntegerType uint64_limits.
Proof. split; unfold uint64_limits, u64_max; simpl; lia. Qed.

(** ** The operators of [safe<T>] *)

Definition safe_add (T : numeric_limits) (a b : Z) : result Z :=
  if (0 <? b) && (lim_max T - b <? a) then Throw overflow_exception
  else if (b <? 0) && (a <? lim_min T - b) then Throw underflow_exception
  else Ok (a + b).

Definition safe_sub (T : numeric_limits) (a b : Z) : result Z :=
  if (0 <? b) && (a <? lim_min T + b) then Throw underflow_exception
  else if (b <? 0) && (lim_max T + b <? a) then Throw overflow_exception
  else Ok (a - b).

Definition safe_mul (T : numeric_limits) (a b : Z) : result Z :=
  if 0 <? a then
    if 0 <? b then
      if cdiv (lim_max T) b <? a then Throw overflow_exception else Ok (a * b)
    else
      if b <? cdiv (lim_min T) a then Throw underflow_exception else Ok (a * b)
  else
    if 0 <? b then
      if a <? cdiv (lim_min T) b then Throw underflow_exception else Ok (a * b)
    else
      if negb (a =? 0) && (b <? cdiv (lim_max T) a)
      then Throw overflow_exception else Ok (a * b).

Definition safe_div (T : numeric_limits) (a b : Z) : result Z :=
  if b =? 0 then Throw divide_by_zero_exception
  else if (a =? lim_min T) && (b =? -1) then Throw overflow_exception
  else Ok (cdiv a b).

Definition safe_mod (T : numeric_limits) (a b : Z) : result Z :=
  if b =? 0 then Throw divide_by_zero_exception
  else if (a =? lim_min T) && (b =? -1) then Throw overflow_exception
  else Ok (crem a b).

Definition safe_neg (T : numeric_limits) (a : Z) : result Z :=
  if a =? lim_min T then Throw overflow_exception else Ok (- a).

(** [++x] and [--x] go through [+=] and [-=]. *)
Definition safe_incr (T : numeric_limits) (a : Z) : result Z := safe_add T a 1.
Definition safe_decr (T : numeric_limits) (a : Z) : result Z := safe_sub T a 1.

(** ** [share_type = safe<int64_t>], [ushare_type = safe<uint64_t>] *)

Definition share_add : Z → Z → result Z := safe_add int64_limits.
Definition share_sub : Z → Z → result Z := safe_sub int64_limits.
Definition share_mul : Z → Z → result Z := safe_mul int64_limits.
Definition share_div : Z → Z → result Z := safe_div int64_limits.
Definition share_mod : Z → Z → result Z := safe_mod int64_limits.
Definition share_neg : Z → result Z := safe_neg int64_limits.
Definition ushare_add : Z → Z → result Z := safe_add uint64_limits.
Definition ushare_sub : Z → Z → result Z := safe_sub uint64_limits.

(** ** 128-bit conversions *)

Definition to_uint128 (hi lo : Z) : Z := Z.lor (u128 (Z.shiftl hi 64)) lo.

Definition uint128_to_integer (u : Z) : result Z :=
  fc_assert (u <=? u32_max) "u <= std::numeric_limits<uint32_t>::max()" ;; Ok (u32 u).

Definition uint128_to_uint64 (u : Z) : result Z :=
  fc_assert (u <=? u64_max) "u <= std::numeric_limits<uint64_t>::max()" ;; Ok (u64 u).

Definition uint128_to_int64 (u : Z) : result Z :=
  fc_assert (u <=? i64_max) "u <= static_cast<uint64_t>(std::numeric_limits<int64_t>::max())" ;;
  Ok (i64 u).

(** Unsigned 128-bit division. *)
Definition udiv (a b : Z) : result Z :=
  if b =? 0 then Throw undefined_behaviour else Ok (a / b).

(** Built-in arithmetic on [int64_t]: a result out of range is undefined. *)
Definition signed64 (z : Z) : result Z :=
  if in_i64 z then Ok z else Throw undefined_behaviour.

Definition uint128_low_bits (u : Z) : Z := u64 u.
Definition uint128_high_bits (u : Z) : Z := u64 (Z.shiftr u 64).

(** ** Characterisation of the operators *)

Section safe_spec.
Context (T : numeric_limits) `{!IntegerType T}.
Implicit Types a b c : Z.

Lemma safe_add_Ok a b c :
  in_limits T a → in_limits T b →
  safe_add T a b = Ok c ↔ c = a + b ∧ in_limits T (a + b).
Proof.
  pose proof lim_zero. unfold safe_add, in_limits; intros Ha Hb.
  repeat case_match; bool_to_prop; naive_solver lia.
Qed.

Lemma safe_sub_Ok a b c :
  in_limits T a → in_limits T b →
  safe_sub T a b = Ok c ↔ c = a - b ∧ in_limits T (a - b).
Proof.
  pose proof lim_zero. unfold safe_sub, in_limits; intros Ha Hb.
  repeat case_match; bool_to_prop; naive_solver lia.
Qed.

Lemma quot_lt_mul_pos m b a : 0 ≤ m → 0 < b → cdiv m b < a ↔ m < a * b.
Proof.
  intros Hm Hb. unfold cdiv. rewrite Z.quot_div_nonneg by lia.
  pose proof (Z.div_mod m b ltac:(lia)). pose proof (Z.mod_pos_bound m b Hb).
  nia.
Qed.

Lemma mul_lt_quot_neg m a b : m ≤ 0 → 0 < a → b < cdiv m a ↔ a * b < m.
Proof.
  intros Hm Ha. unfold cdiv.
  replace m with (- (- m)) by lia. rewrite Z.quot_opp_l by lia.
  pose proof (quot_lt_mul_pos (- m) a (- b) ltac:(lia) Ha) as H.
  unfold cdiv in H. nia.
Qed.

Lemma lt_quot_neg_mul m a b : 0 ≤ m → a < 0 → b < cdiv m a ↔ m < a * b.
Proof.
  intros Hm Ha. unfold cdiv.
  replace a with (- (- a)) by lia. rewrite Z.quot_opp_r by lia.
  pose proof (quot_lt_mul_pos m (- a) (- b) Hm ltac:(lia)) as H.
  unfold cdiv in H. nia.
Qed.

Lemma safe_mul_Ok a b c :
  in_limits T a → in_limits T b →
  safe_mul T a b = Ok c ↔ c = a * b ∧ in_limits T (a * b).
Proof.
  destruct (@lim_zero T _) as [Hmin Hmax]. unfold safe_mul, in_limits; intros Ha Hb.
  destruct (Z.ltb_spec 0 a), (Z.ltb_spec 0 b).
  - destruct (Z.ltb_spec (cdiv (lim_max T) b) a) as [Hq|Hq].
    + apply quot_lt_mul_pos in Hq; [|lia..]. naive_solver lia.
    + rewrite Z.le_ngt, quot_lt_mul_pos in Hq by lia. naive_solver nia.
  - destruct (Z.ltb_spec b (cdiv (lim_min T) a)) as [Hq|Hq].
    + apply mul_lt_quot_neg in Hq; [|lia..]. naive_solver lia.
    + rewrite Z.le_ngt, mul_lt_quot_neg in Hq by lia. naive_solver nia.
  - destruct (Z.ltb_spec a (cdiv (lim_min T) b)) as [Hq|Hq].
    + apply mul_lt_quot_neg in Hq; [|lia..]. naive_solver lia.
    + rewrite Z.le_ngt, mul_lt_quot_neg in Hq by lia. naive_solver nia.
  - destruct (Z.eqb_spec a 0) as [->|Hne]; simpl; [naive_solver lia|].
    destruct (Z.ltb_spec b (cdiv (lim_max T) a)) as [Hq|Hq].
    + apply lt_quot_neg_mul in Hq; [|lia..]. naive_solver lia.
    + rewrite Z.le_ngt, lt_quot_neg_mul in Hq by lia. naive_solver nia.
Qed.

Lemma cdiv_bound a b : b ≠ 0 → Z.abs (cdiv a b) ≤ Z.abs a.
Proof.
  intros Hb. unfold cdiv. rewrite <- Z.quot_abs by done.
  rewrite Z.quot_div_nonneg by lia. apply Z.div_le_upper_bound; nia.
Qed.

Lemma safe_div_Ok a b c :
  in_limits T a → in_limits T b →
  safe_div T a b = Ok c ↔ b ≠ 0 ∧ c = cdiv a b ∧ in_limits T (cdiv a b).
Proof.
  intros Ha Hb. destruct (@lim_zero T _), (@lim_shape T _) as [Hs|Hs];
    unfold safe_div, in_limits in *.
  - destruct (Z.eqb_spec b 0) as [->|Hne]; [naive_solver|].
    assert ((a =? lim_min T) && (b =? -1) = false) as -> by (bool_to_prop; lia).
    assert (0 ≤ cdiv a b) by (unfold cdiv; apply Z.quot_pos; lia).
    pose proof (cdiv_bound a b Hne). naive_solver lia.
  - destruct (Z.eqb_spec b 0) as [->|Hne]; [naive_solver|].
    pose proof (cdiv_bound a b Hne).
    destruct (Z.eqb_spec a (lim_min T)) as [->|Ha'], (Z.eqb_spec b (-1)) as [->|Hb'];
      simpl; try naive_solver lia.
    + unfold cdiv. replace (-1) with (-(1)) by lia.
      rewrite Z.quot_opp_r, Z.quot_1_r by lia. naive_solver lia.
    + assert (cdiv (lim_min T) b ≤ lim_max T); [|naive_solver lia].
      destruct (decide (cdiv (lim_min T) b ≤ 0)); [lia|].
      assert (Z.abs (cdiv (lim_min T) b) * 2 ≤ Z.abs (lim_min T)); [|lia].
      unfold cdiv. rewrite <- Z.quot_abs, Z.quot_div_nonneg by lia.
      assert (2 ≤ Z.abs b); [|].
      { destruct (decide (b = 1)) as [->|]; [|lia].
        revert n. unfold cdiv. rewrite Z.quot_1_r. lia. }
      pose proof (Z.mul_div_le (Z.abs (lim_min T)) (Z.abs b)).
      pose proof (Z.div_pos (Z.abs (lim_min T)) (Z.abs b)). nia.
Qed.

Lemma safe_neg_Ok a c :
  in_limits T a → lim_min T = - lim_max T - 1 →
  safe_neg T a = Ok c ↔ c = - a ∧ in_limits T (- a).
Proof.
  unfold safe_neg, in_limits; intros Ha Hs.
  destruct (Z.eqb_spec a (lim_min T)); naive_solver lia.
Qed.

(** The result of every operation is representable, whatever the
    representable arguments. *)
Lemma safe_closed a b c :
  in_limits T a → in_limits T b →
  safe_add T a b = Ok c ∨ safe_sub T a b = Ok c ∨ safe_mul T a b = Ok c
    ∨ safe_div T a b = Ok c →
  in_limits T c.
Proof.
  intros Ha Hb [H|[H|[H|H]]].
  - apply safe_add_Ok in H; naive_solver.
  - apply safe_sub_Ok in H; naive_solver.
  - apply safe_mul_Ok in H; naive_solver.
  - apply safe_div_Ok in H; naive_solver.
Qed.
End safe_spec.

(** Results in range. *)
Lemma share_add_in a b : i64_min ≤ a + b ≤ i64_max → share_add a b = Ok (a + b).
Proof.
  intros H. unfold share_add, safe_add. simpl.
  repeat case_match; bool_to_prop; done || lia.
Qed.

Lemma share_sub_in a b : i64_min ≤ a - b ≤ i64_max → share_sub a b = Ok (a - b).
Proof.
  intros H. unfold share_sub, safe_sub. simpl.
  repeat case_match; bool_to_prop; done || lia.
Qed.

Lemma share_add_eq a b c : share_add a b = Ok c → c = a + b.
Proof. unfold share_add, safe_add. repeat case_match; naive_solver. Qed.

Lemma share_sub_eq a b c : share_sub a b = Ok c → c = a - b.
Proof. unfold share_sub, safe_sub. repeat case_match; naive_solver. Qed.

Lemma signed64_inv a c : signed64 a = Ok c → c = a ∧ i64_min ≤ a ≤ i64_max.
Proof.
  unfold signed64. destruct (in_i64 a) eqn:Ha; [|done]. intros [= <-].
  by apply in_i64_spec in Ha.
Qed.

(** The conversions and checks on values in range. *)
Lemma uint128_to_uint64_Ok u : 0 ≤ u ≤ u64_max → uint128_to_uint64 u = Ok u.
Proof.
  intros Hu. unfold uint128_to_uint64, fc_assert.
  rewrite (proj2 (Z.leb_le _ _)) by lia. cbn. f_equal. apply u64_id. lia.
Qed.

Lemma signed64_Ok z : i64_min ≤ z ≤ i64_max → signed64 z = Ok z.
Proof. intros Hz. unfold signed64. by rewrite (proj2 (in_i64_spec z)). Qed.

Lemma fc_assert_true b msg : b = true → fc_assert b msg = Ok tt.
Proof. by intros ->. Qed.

Lemma udiv_Ok a b : b ≠ 0 → udiv a b = Ok (a / b).
Proof. intros Hb. unfold udiv. by rewrite (proj2 (Z.eqb_neq _ _) Hb). Qed.

(** Unfolding the limits for [lia]. *)
Ltac limits := unfold u8_max, u16_max, u32_max, u64_max, u128_max, i32_max, i64_max, i64_min in *.

Lemma share_neg_in a : i64_min < a → share_neg a = Ok (- a).
Proof.
  intros H. unfold share_neg, safe_neg. simpl. case_match; bool_to_prop; done || lia.
Qed.

(** The mathematical result [z] as a [share_type]: itself when it fits in 64 bits,
    and otherwise the exception that tells on which side of the range it lies. *)
Definition share_exact (z : Z) : result Z :=
  if i64_max <? z then Throw overflow_exception
  else if z <? i64_min then Throw underflow_exception
  else Ok z.

Lemma exact_over z : i64_max < z → share_exact z = Throw overflow_exception.
Proof. intros H. unfold share_exact. by rewrite (proj2 (Z.ltb_lt _ _)). Qed.
Lemma exact_under z : z < i64_min → share_exact z = Throw underflow_exception.
Proof.
  intros H. unfold share_exact. rewrite (proj2 (Z.ltb_ge _ _)) by (limits; lia).
  by rewrite (proj2 (Z.ltb_lt _ _)).
Qed.
Lemma exact_in z : i64_min ≤ z ≤ i64_max → share_exact z = Ok z.
Proof. intros H. unfold share_exact. by rewrite !(proj2 (Z.ltb_ge _ _)) by lia. Qed.

Lemma share_mul_exact a b :
  in_limits int64_limits a → in_limits int64_limits b → share_mul a b = share_exact (a * b).
Proof.
  unfold in_limits, share_mul, safe_mul. unfold int64_limits. cbn [lim_min lim_max]. intros Ha Hb.
  assert (0 ≤ i64_max ∧ i64_min ≤ 0) as [Hmax Hmin] by (limits; lia).
  destruct (Z.ltb_spec 0 a), (Z.ltb_spec 0 b).
  - destruct (Z.ltb_spec (cdiv i64_max b) a) as [Hq|Hq].
    + apply quot_lt_mul_pos in Hq; [|lia..]. rewrite exact_over; [done|lia].
    + rewrite Z.le_ngt, quot_lt_mul_pos in Hq by lia. rewrite exact_in; [done|nia].
  - destruct (Z.ltb_spec b (cdiv i64_min a)) as [Hq|Hq].
    + apply mul_lt_quot_neg in Hq; [|lia..]. rewrite exact_under; [done|lia].
    + rewrite Z.le_ngt, mul_lt_quot_neg in Hq by lia. rewrite exact_in; [done|nia].
  - destruct (Z.ltb_spec a (cdiv i64_min b)) as [Hq|Hq].
    + apply mul_lt_quot_neg in Hq; [|lia..]. rewrite exact_under; [done|lia].
    + rewrite Z.le_ngt, mul_lt_quot_neg in Hq by lia. rewrite exact_in; [done|nia].
  - destruct (Z.eqb_spec a 0) as [->|Hne]; cbn [negb andb]; [by rewrite exact_in by lia|].
    destruct (Z.ltb_spec b (cdiv i64_max a)) as [Hq|Hq].
    + apply lt_quot_neg_mul in Hq; [|lia..]. rewrite exact_over; [done|lia].
    + rewrite Z.le_ngt, lt_quot_neg_mul in Hq by lia. rewrite exact_in; [done|nia].
Qed.

Lemma share_div_exact a b :
  in_limits int64_limits a → in_limits int64_limits b →
  share_div a b = if b =? 0 then Throw divide_by_zero_exception else share_exact (Z.quot a b).
Proof.
  intros Ha Hb. unfold share_div, safe_div. cbn [int64_limits lim_min].
  destruct (Z.eqb_spec b 0) as [|Hne]; [done|].
  destruct ((a =? i64_min) && (b =? -1)) eqn:E.
  - apply andb_prop in E as [->%Z.eqb_eq ->%Z.eqb_eq]. by vm_compute.
  - destruct (safe_div_Ok int64_limits a b (cdiv a b) Ha Hb) as [H _].
    unfold safe_div in H. cbn [int64_limits lim_min] in H. rewrite E, (proj2 (Z.eqb_neq _ _) Hne) in H.
    destruct (H eq_refl) as (_ & _ & Hr). by rewrite exact_in.
Qed.

(** C1. [share_type] arithmetic is exact or throws: on representable operands the
    binary [+], [-], [*] and the unary [-] of [safe<int64_t>] return the
    mathematical result when it fits in 64 bits and throw the overflow or the
    underflow exception when it lies above or below the range; [/] throws the
    division exception for a zero divisor and is the quotient truncated towards
    zero, under the same rule, otherwise; [%] is its remainder, which throws for a
    zero divisor and, although the remainder is zero, for the least value modulo
    -1. *)
Theorem share_type_exact (a b : Z) :
  in_limits int64_limits a → in_limits int64_limits b →
  share_add a b = share_exact (a + b) ∧
  share_sub a b = share_exact (a - b) ∧
  share_mul a b = share_exact (a * b) ∧
  share_neg a = share_exact (- a) ∧
  share_div a b = (if b =? 0 then Throw divide_by_zero_exception else share_exact (Z.quot a b)) ∧
  share_mod a b = (if b =? 0 then Throw divide_by_zero_exception
                   else if (a =? i64_min) && (b =? -1) then Throw overflow_exception
                   else Ok (Z.rem a b)).
Proof.
  intros Ha Hb. split_and!; [| |by apply share_mul_exact| |by apply share_div_exact|done].
  all: unfold share_add, safe_add, share_sub, safe_sub, share_neg, safe_neg, share_exact,
    in_limits in *; unfold int64_limits in *; cbn [lim_min lim_max] in *;
    repeat case_match; bool_to_prop; limits; done || lia.
Qed.

Lemma share_type_exact_witness :
  share_mul 3037000500 3037000499 = Ok 9223372033963249500 ∧
  share_sub i64_min 1 = Throw underflow_exception ∧
  share_mod (-7) 2 = Ok (-1) ∧ share_neg i64_min = Throw overflow_exception.
Proof.
  assert (∀ z, i64_min ≤ z ≤ i64_max → in_limits int64_limits z) as H by done.
  split_and!.
  - by apply (share_type_exact 3037000500 3037000499); apply H.
  - by apply (share_type_exact i64_min 1); apply H.
  - by apply (share_type_exact (-7) 2); apply H.
  - by apply (share_type_exact i64_min 0); apply H.
Defined.
