(* ===== verification/AssetSymbol.v ===== *)
(** * Asset symbols

    [asset_symbol_type] (libraries/protocol/include/hive/protocol/asset_symbol.hpp
    and the first part of libraries/protocol/asset.cpp): the 32-bit [asset_num],
    its numeric asset identifier (NAI) with the Damm check digit, the NAI string,
    the vesting pairing, validation and the two binary serialisations.

    The constants are those of the main network ([IS_TEST_NET] undefined). *)

From Stdlib Require Import Ascii.
From S2P Require Import Prelude Safe.
Open Scope Z_scope.

(** ** Constants *)

Definition HIVE_ASSET_SYMBOL_PRECISION_BITS : Z := 4.
Definition HIVE_ASSET_CONTROL_BITS : Z := 1.
Definition HIVE_NAI_SHIFT : Z :=
  HIVE_ASSET_SYMBOL_PRECISION_BITS + HIVE_ASSET_CONTROL_BITS.
Definition SMT_MAX_NAI : Z := 99999999.
Definition SMT_MIN_NAI : Z := 1.
Definition HIVE_ASSET_SYMBOL_NAI_LENGTH : Z := 10.
Definition HIVE_ASSET_SYMBOL_NAI_STRING_LENGTH : Z := HIVE_ASSET_SYMBOL_NAI_LENGTH + 2.

Definition HIVE_PRECISION_HBD : Z := 3.
Definition HIVE_PRECISION_HIVE : Z := 3.
Definition HIVE_PRECISION_VESTS : Z := 6.

Definition HIVE_NAI_HBD : Z := 1.
Definition HIVE_NAI_HIVE : Z := 2.
Definition HIVE_NAI_VESTS : Z := 3.

Definition HIVE_ASSET_NUM_HBD : Z :=
  u32 (Z.lor (Z.shiftl (SMT_MAX_NAI + HIVE_NAI_HBD) HIVE_NAI_SHIFT) HIVE_PRECISION_HBD).
Definition HIVE_ASSET_NUM_HIVE : Z :=
  u32 (Z.lor (Z.shiftl (SMT_MAX_NAI + HIVE_NAI_HIVE) HIVE_NAI_SHIFT) HIVE_PRECISION_HIVE).
Definition HIVE_ASSET_NUM_VESTS : Z :=
  u32 (Z.lor (Z.shiftl (SMT_MAX_NAI + HIVE_NAI_VESTS) HIVE_NAI_SHIFT) HIVE_PRECISION_VESTS).

Definition HIVE_ASSET_MAX_DECIMALS : Z := 12.
Definition SMT_ASSET_NUM_PRECISION_MASK : Z := 15.
Definition SMT_ASSET_NUM_CONTROL_MASK : Z := 16.
Definition SMT_ASSET_NUM_VESTING_MASK : Z := 32.

(** The bytes of a symbol's name, first character in the lowest byte. *)
Fixpoint symbol_u64 (name : string) : Z :=
  match name with
  | EmptyString => 0
  | String c rest => Z.lor (Z.of_N (Ascii.N_of_ascii c)) (Z.shiftl (symbol_u64 rest) 8)
  end.

Definition VESTS_SYMBOL_U64 : Z := symbol_u64 "VESTS".
Definition OBSOLETE_SYMBOL_U64 : Z := symbol_u64 "STEEM".
Definition HIVE_SYMBOL_U64 : Z := symbol_u64 "HIVE".
Definition OBD_SYMBOL_U64 : Z := symbol_u64 "SBD".
Definition HBD_SYMBOL_U64 : Z := symbol_u64 "HBD".

Definition VESTS_SYMBOL_SER : Z := Z.lor 6 (Z.shiftl VESTS_SYMBOL_U64 8).
Definition OBSOLETE_SYMBOL_SER : Z := Z.lor 3 (Z.shiftl OBSOLETE_SYMBOL_U64 8).
Definition OBD_SYMBOL_SER : Z := Z.lor 3 (Z.shiftl OBD_SYMBOL_U64 8).

(** ** The type *)

Record asset_symbol_type : Set := from_asset_num { asset_num : Z }.

Inductive asset_symbol_space : Set := legacy_space | smt_nai_space.

#[export] Instance asset_symbol_eq_dec : EqDecision asset_symbol_type.
Proof. solve_decision. Defined.

Definition VESTS_SYMBOL : asset_symbol_type := from_asset_num HIVE_ASSET_NUM_VESTS.
Definition HIVE_SYMBOL : asset_symbol_type := from_asset_num HIVE_ASSET_NUM_HIVE.
Definition HBD_SYMBOL : asset_symbol_type := from_asset_num HIVE_ASSET_NUM_HBD.

(** The comparison operators compare [asset_num]. *)
Definition symbol_eqb (a b : asset_symbol_type) : bool := asset_num a =? asset_num b.
Definition symbol_ltb (a b : asset_symbol_type) : bool := asset_num a <? asset_num b.

Definition decimals (s : asset_symbol_type) : Z :=
  u8 (Z.land (asset_num s) SMT_ASSET_NUM_PRECISION_MASK).

Definition get_stripped_precision_smt_num (s : asset_symbol_type) : Z :=
  Z.land (asset_num s) (u32 (Z.lnot SMT_ASSET_NUM_PRECISION_MASK)).

Definition space (s : asset_symbol_type) : asset_symbol_space :=
  if asset_num s =? HIVE_ASSET_NUM_HIVE then legacy_space
  else if asset_num s =? HIVE_ASSET_NUM_HBD then legacy_space
  else if asset_num s =? HIVE_ASSET_NUM_VESTS then legacy_space
  else smt_nai_space.

Definition symbol_validate (s : asset_symbol_type) : result unit :=
  if (asset_num s =? HIVE_ASSET_NUM_HIVE) || (asset_num s =? HIVE_ASSET_NUM_HBD)
     || (asset_num s =? HIVE_ASSET_NUM_VESTS)
  then Ok tt
  else
    let nai_data_digits := Z.shiftr (asset_num s) HIVE_NAI_SHIFT in
    let nai_1bit := Z.land (asset_num s) SMT_ASSET_NUM_CONTROL_MASK in
    let nai_decimal_places := Z.land (asset_num s) SMT_ASSET_NUM_PRECISION_MASK in
    fc_assert ((SMT_MIN_NAI <=? nai_data_digits) && (nai_data_digits <=? SMT_MAX_NAI)
               && (nai_1bit =? SMT_ASSET_NUM_CONTROL_MASK)
               && (nai_decimal_places <=? HIVE_ASSET_MAX_DECIMALS))
      "Cannot determine space for asset".

Definition is_vesting (s : asset_symbol_type) : result bool :=
  match space s with
  | legacy_space =>
      if asset_num s =? HIVE_ASSET_NUM_HIVE then Ok false
      else if asset_num s =? HIVE_ASSET_NUM_HBD then Ok false
      else if asset_num s =? HIVE_ASSET_NUM_VESTS then Ok true
      else Throw (assert_exception "Unknown asset symbol")
  | smt_nai_space => Ok (negb (Z.land (asset_num s) SMT_ASSET_NUM_VESTING_MASK =? 0))
  end.

Definition get_paired_symbol (s : asset_symbol_type) : result asset_symbol_type :=
  match space s with
  | legacy_space =>
      if asset_num s =? HIVE_ASSET_NUM_HIVE then Ok (from_asset_num HIVE_ASSET_NUM_VESTS)
      else if asset_num s =? HIVE_ASSET_NUM_HBD then Ok s
      else if asset_num s =? HIVE_ASSET_NUM_VESTS then Ok (from_asset_num HIVE_ASSET_NUM_HIVE)
      else Throw (assert_exception "Unknown asset symbol")
  | smt_nai_space => Ok (from_asset_num (Z.lxor (asset_num s) SMT_ASSET_NUM_VESTING_MASK))
  end.

(** ** Numeric asset identifiers *)

(** The table of the Damm quasigroup; row [i] holds ten times the products. *)
Definition damm_table : list Z := [
   0; 30; 10; 70; 50; 90; 80; 60; 40; 20;
  70;  0; 90; 20; 10; 50; 40; 80; 60; 30;
  40; 20;  0; 60; 80; 70; 10; 30; 50; 90;
  10; 70; 50;  0; 90; 80; 30; 40; 20; 60;
  60; 10; 20; 30;  0; 40; 50; 90; 70; 80;
  30; 60; 70; 40; 20;  0; 90; 50; 80; 10;
  50; 80; 60; 90; 70; 20;  0; 10; 30; 40;
  80; 90; 40; 50; 30; 60; 20;  0; 10; 70;
  90; 40; 30; 80; 60; 10; 70; 20;  0; 50;
  20; 50; 80; 10; 40; 30; 60; 70; 90;  0].

(** [t[i]]; {!damm_step_range} shows that the index never leaves the table. *)
Definition damm_t (i : Z) : Z := nth (Z.to_nat i) damm_table 0.

Definition damm_checksum_8digit (value : Z) : result Z :=
  fc_assert (value <? 100000000) "value < 100000000" ;;
  let q0 := value / 10 in let d0 := value mod 10 in
  let q1 := q0 / 10 in let d1 := q0 mod 10 in
  let q2 := q1 / 10 in let d2 := q1 mod 10 in
  let q3 := q2 / 10 in let d3 := q2 mod 10 in
  let q4 := q3 / 10 in let d4 := q3 mod 10 in
  let q5 := q4 / 10 in let d5 := q4 mod 10 in
  let d6 := q5 mod 10 in let d7 := q5 / 10 in
  let x := damm_t d7 in
  let x := damm_t (x + d6) in
  let x := damm_t (x + d5) in
  let x := damm_t (x + d4) in
  let x := damm_t (x + d3) in
  let x := damm_t (x + d2) in
  let x := damm_t (x + d1) in
  let x := damm_t (x + d0) in
  Ok (x / 10).

Definition asset_num_from_nai (nai decimal_places : Z) : result Z :=
  let nai_check_digit := nai mod 10 in
  let nai_data_digits := nai / 10 in
  fc_assert ((SMT_MIN_NAI <=? nai_data_digits) && (nai_data_digits <=? SMT_MAX_NAI))
    "NAI out of range" ;;
  checksum ← damm_checksum_8digit nai_data_digits;
  fc_assert (nai_check_digit =? checksum) "Invalid check digit" ;;
  if nai_data_digits =? HIVE_NAI_HIVE then
    fc_assert (decimal_places =? HIVE_PRECISION_HIVE) "decimal_places == HIVE_PRECISION_HIVE" ;;
    Ok HIVE_ASSET_NUM_HIVE
  else if nai_data_digits =? HIVE_NAI_HBD then
    fc_assert (decimal_places =? HIVE_PRECISION_HBD) "decimal_places == HIVE_PRECISION_HBD" ;;
    Ok HIVE_ASSET_NUM_HBD
  else if nai_data_digits =? HIVE_NAI_VESTS then
    fc_assert (decimal_places =? HIVE_PRECISION_VESTS) "decimal_places == HIVE_PRECISION_VESTS" ;;
    Ok HIVE_ASSET_NUM_VESTS
  else
    fc_assert (decimal_places <=? HIVE_ASSET_MAX_DECIMALS) "Invalid decimal_places" ;;
    Ok (Z.lor (Z.lor (u32 (Z.shiftl nai_data_digits HIVE_NAI_SHIFT))
                     SMT_ASSET_NUM_CONTROL_MASK) decimal_places).

Definition from_nai (nai decimal_places : Z) : result asset_symbol_type :=
  from_asset_num <$> asset_num_from_nai nai decimal_places.

Definition to_nai (s : asset_symbol_type) : result Z :=
  nai_data_digits ←
    (if asset_num s =? HIVE_ASSET_NUM_HIVE then Ok HIVE_NAI_HIVE
     else if asset_num s =? HIVE_ASSET_NUM_HBD then Ok HIVE_NAI_HBD
     else if asset_num s =? HIVE_ASSET_NUM_VESTS then Ok HIVE_NAI_VESTS
     else
       fc_assert (match space s with smt_nai_space => true | legacy_space => false end)
         "space() == smt_nai_space" ;;
       Ok (Z.shiftr (asset_num s) HIVE_NAI_SHIFT));
  nai_check_digit ← damm_checksum_8digit nai_data_digits;
  Ok (u32 (nai_data_digits * 10 + nai_check_digit)).

(** *** The NAI string ["@@ddddddddd"] *)

Definition digit_char (d : Z) : Ascii.ascii := Ascii.ascii_of_N (Z.to_N (d + 48)).

(** [buf[2] .. buf[10]]: the nine decimal digits, written from the last one. *)
Fixpoint write_digits (n : nat) (x : Z) (acc : string) : string :=
  match n with
  | O => acc
  | 1%nat => String (digit_char x) acc
  | S n' => write_digits n' (x / 10) (String (digit_char (x mod 10)) acc)
  end.

Definition to_nai_string (s : asset_symbol_type) : result string :=
  x ← to_nai s;
  Ok ("@@" +:+ write_digits 9 x "").

(** [std::strlen]: the characters before the first NUL. *)
Fixpoint strlen (s : string) : Z :=
  match s with
  | EmptyString => 0
  | String c rest => if bool_decide (c = Ascii.zero) then 0 else 1 + strlen rest
  end.

Section nai_string.
(** [boost::lexical_cast<uint32_t>] on a C string. *)
Context (lexical_cast_u32 : string → result Z).

(** [p = None] is the null pointer. *)
Definition from_nai_string (p : option string) (decimal_places : Z)
    : result asset_symbol_type :=
  match p with
  | None => Throw (assert_exception "NAI string cannot be a null")
  | Some p =>
      fc_assert (strlen p =? HIVE_ASSET_SYMBOL_NAI_STRING_LENGTH - 1)
        "Incorrect NAI string length" ;;
      match p with
      | String c0 (String c1 digits) =>
          fc_assert (bool_decide (c0 = "@"%char) && bool_decide (c1 = "@"%char))
            "Invalid NAI string prefix" ;;
          nai ← lexical_cast_u32 digits;
          from_nai nai decimal_places
      | _ => Throw (assert_exception "Invalid NAI string prefix")
      end
  end.
End nai_string.

(** ** Binary serialisation *)

(** [serialization_mode_controller::get_current_pack()]. *)
Inductive pack_type : Set := pack_legacy | pack_hf26.

(** The [n] low bytes of an integer, little endian: how [fc::raw] writes a
    built-in integer. *)
Fixpoint le_bytes (n : nat) (z : Z) : list Z :=
  match n with
  | O => []
  | S n' => u8 z :: le_bytes n' (Z.shiftr z 8)
  end.

Fixpoint of_le_bytes (l : list Z) : Z :=
  match l with
  | [] => 0
  | b :: l' => b + 2 ^ 8 * of_le_bytes l'
  end.

(** [s.read( buf, n )]: fails at the end of the stream. *)
Definition stream_read (n : nat) (s : list Z) : result (list Z * list Z) :=
  if (n <=? length s)%nat then Ok (take n s, drop n s)
  else Throw out_of_range_exception.

Definition pack_symbol (mode : pack_type) (sym : asset_symbol_type) : result (list Z) :=
  match space sym, mode with
  | legacy_space, pack_legacy =>
      ser ← (if asset_num sym =? HIVE_ASSET_NUM_HIVE then Ok OBSOLETE_SYMBOL_SER
             else if asset_num sym =? HIVE_ASSET_NUM_HBD then Ok OBD_SYMBOL_SER
             else if asset_num sym =? HIVE_ASSET_NUM_VESTS then Ok VESTS_SYMBOL_SER
             else Throw (assert_exception "Cannot serialize unknown asset symbol"));
      Ok (le_bytes 8 ser)
  | legacy_space, pack_hf26 | smt_nai_space, _ => Ok (le_bytes 4 (asset_num sym))
  end.

(** One legacy case of [unpack]: the four remaining bytes must complete [ser]. *)
Definition unpack_legacy (low : list Z) (s : list Z) (ser num : Z)
    : result (Z * list Z) :=
  '(high, s') ← stream_read 4 s;
  fc_assert (of_le_bytes (low ++ high) =? ser) "invalid asset bits" ;;
  Ok (num, s').

Definition unpack_symbol (s : list Z) : result (asset_symbol_type * list Z) :=
  '(low, s') ← stream_read 4 s;
  let ser := of_le_bytes low in
  '(num, s'') ←
    (if ser =? Z.land OBSOLETE_SYMBOL_SER 4294967295 then
       unpack_legacy low s' OBSOLETE_SYMBOL_SER HIVE_ASSET_NUM_HIVE
     else if ser =? Z.land OBD_SYMBOL_SER 4294967295 then
       unpack_legacy low s' OBD_SYMBOL_SER HIVE_ASSET_NUM_HBD
     else if ser =? Z.land VESTS_SYMBOL_SER 4294967295 then
       unpack_legacy low s' VESTS_SYMBOL_SER HIVE_ASSET_NUM_VESTS
     else Ok (u32 ser, s'));
  symbol_validate (from_asset_num num) ;;
  Ok (from_asset_num num, s'').

(** ** Constants, evaluated *)

Lemma asset_nums :
  HIVE_ASSET_NUM_HBD = 3200000003 ∧ HIVE_ASSET_NUM_HIVE = 3200000035
  ∧ HIVE_ASSET_NUM_VESTS = 3200000070.
Proof. by vm_compute. Qed.

Lemma symbol_eqb_spec a b : symbol_eqb a b = true ↔ a = b.
Proof.
  destruct a as [x], b as [y]. unfold symbol_eqb; simpl. rewrite Z.eqb_eq.
  split; congruence.
Qed.

(** The symbols of the legacy space are the three named ones. *)
Lemma space_legacy s :
  space s = legacy_space ↔ s = HIVE_SYMBOL ∨ s = HBD_SYMBOL ∨ s = VESTS_SYMBOL.
Proof.
  destruct s as [n]. unfold space, HIVE_SYMBOL, HBD_SYMBOL, VESTS_SYMBOL; simpl.
  split.
  - repeat case_match; bool_to_prop; intros; subst; naive_solver.
  - intros [ [= ->] | [ [= ->] | [= ->] ] ]; by vm_compute.
Qed.

(** What [validate] accepts in the SMT space, in arithmetic: the NAI in the high
    bits, the control bit, the precision in the low bits. *)
Lemma symbol_validate_smt s :
  space s = smt_nai_space → 0 ≤ asset_num s →
  symbol_validate s = Ok tt ↔
  ∃ nai dec, asset_num s = nai * 32 + 16 + dec ∧ SMT_MIN_NAI ≤ nai ≤ SMT_MAX_NAI
             ∧ 0 ≤ dec ≤ HIVE_ASSET_MAX_DECIMALS.
Proof.
  destruct s as [n]. unfold space, symbol_validate; simpl.
  destruct (n =? HIVE_ASSET_NUM_HIVE), (n =? HIVE_ASSET_NUM_HBD), (n =? HIVE_ASSET_NUM_VESTS);
    simpl; try done; intros _ Hn.
  rewrite fc_assert_Ok. bool_to_prop.
  unfold HIVE_NAI_SHIFT, HIVE_ASSET_SYMBOL_PRECISION_BITS, HIVE_ASSET_CONTROL_BITS,
    SMT_ASSET_NUM_CONTROL_MASK, SMT_ASSET_NUM_PRECISION_MASK, SMT_MIN_NAI, SMT_MAX_NAI,
    HIVE_ASSET_MAX_DECIMALS.
  rewrite Z.shiftr_div_pow2 by lia. change (4 + 1) with 5.
  change 15 with (2 ^ 4 - 1). rewrite land_mask by lia.
  change (Z.land n 16) with (Z.land n (2 ^ 4)). rewrite land_bit by lia.
  change (2 ^ 4) with 16. change (2 ^ 5) with 32.
  split.
  - intros [[[H1 H2] H3] H4]. exists (n / 32), (n mod 16).
    split; [|split; [lia|pose proof (Z.mod_pos_bound n 16); lia]].
    pose proof (Z.div_mod n 16 ltac:(lia)). pose proof (Z.div_mod (n / 16) 2 ltac:(lia)).
    rewrite Z.div_div in * by lia. change (16 * 2) with 32 in *. lia.
  - intros (nai & dec & -> & Hnai & Hdec).
    assert ((nai * 32 + 16 + dec) / 32 = nai) as ->.
    { symmetry; apply (Z.div_unique _ _ _ (16 + dec)); lia. }
    assert ((nai * 32 + 16 + dec) mod 16 = dec) as ->.
    { symmetry; apply (Z.mod_unique _ _ (nai * 2 + 1)); lia. }
    assert ((nai * 32 + 16 + dec) / 16 = nai * 2 + 1) as ->.
    { symmetry; apply (Z.div_unique _ _ _ dec); lia. }
    assert ((nai * 2 + 1) mod 2 = 1) as ->.
    { symmetry; apply (Z.mod_unique _ _ nai); lia. }
    lia.
Qed.

Lemma decimals_smt nai dec :
  0 ≤ dec ≤ HIVE_ASSET_MAX_DECIMALS → decimals (from_asset_num (nai * 32 + 16 + dec)) = dec.
Proof.
  unfold HIVE_ASSET_MAX_DECIMALS. intros Hdec.
  unfold decimals, SMT_ASSET_NUM_PRECISION_MASK; simpl.
  change 15 with (2 ^ 4 - 1). rewrite land_mask by lia. change (2 ^ 4) with 16.
  assert ((nai * 32 + 16 + dec) mod 16 = dec) as ->.
  { symmetry; apply (Z.mod_unique _ _ (nai * 2 + 1)); lia. }
  apply u8_id. unfold u8_max. lia.
Qed.

Lemma space_smt_small n : 0 ≤ n < HIVE_ASSET_NUM_HBD → space (from_asset_num n) = smt_nai_space.
Proof.
  destruct asset_nums as (H1 & H2 & H3). unfold space; simpl. rewrite H1, H2, H3.
  intros Hn. repeat case_match; bool_to_prop; lia || done.
Qed.

Lemma symbol_validate_bound s :
  symbol_validate s = Ok tt → 0 ≤ asset_num s → asset_num s ≤ HIVE_ASSET_NUM_VESTS.
Proof.
  intros Hv Hn. destruct asset_nums as (H1 & H2 & H3).
  destruct (space s) eqn:Hs.
  - apply space_legacy in Hs as [->|[->| ->] ]; simpl; lia.
  - apply symbol_validate_smt in Hv as (nai & dec & -> & Hnai & Hdec); [|done..].
    unfold SMT_MAX_NAI, HIVE_ASSET_MAX_DECIMALS in *. lia.
Qed.

(** ** The Damm check digit *)

Definition digits_ok (l : list Z) : Prop := Forall (λ d, 0 ≤ d ≤ 9) l.

(** The number a list of decimal digits denotes, most significant first. *)
Definition nai_of_digits (l : list Z) : Z := fold_left (λ n d, 10 * n + d) l 0.

(** The reference definition: iterate the quasigroup over the digits. *)
Definition damm_fold (x : Z) (l : list Z) : Z := fold_left (λ x d, damm_t (x + d)) l x.

(** The states of the iteration: multiples of ten below one hundred. *)
Definition damm_state (x : Z) : Prop := ∃ r, 0 ≤ r ≤ 9 ∧ x = 10 * r.

Definition digit_list : list Z := [0; 1; 2; 3; 4; 5; 6; 7; 8; 9].

Lemma digit_list_spec d : 0 ≤ d ≤ 9 ↔ d ∈ digit_list.
Proof.
  unfold digit_list. split.
  - intros Hd. assert (d = 0 ∨ d = 1 ∨ d = 2 ∨ d = 3 ∨ d = 4 ∨ d = 5 ∨ d = 6 ∨ d = 7
      ∨ d = 8 ∨ d = 9) by lia. set_solver.
  - intros Hd. repeat (apply elem_of_cons in Hd as [->|Hd]; [lia|]). by apply elem_of_nil in Hd.
Qed.

(** A property of table entries is checked on all of them. *)
Lemma damm_forall2 (P : Z → Z → bool) :
  forallb (λ r, forallb (P r) digit_list) digit_list = true →
  ∀ r d, 0 ≤ r ≤ 9 → 0 ≤ d ≤ 9 → P r d = true.
Proof.
  intros H r d Hr%digit_list_spec Hd%digit_list_spec.
  rewrite forallb_forall in H. specialize (H r). rewrite <- list_elem_of_In in H.
  specialize (H Hr). rewrite forallb_forall in H. apply H. by apply list_elem_of_In.
Qed.

Lemma damm_forall3 (P : Z → Z → Z → bool) :
  forallb (λ r, forallb (λ a, forallb (P r a) digit_list) digit_list) digit_list = true →
  ∀ r a b, 0 ≤ r ≤ 9 → 0 ≤ a ≤ 9 → 0 ≤ b ≤ 9 → P r a b = true.
Proof.
  intros H r a b Hr Ha Hb.
  refine (damm_forall2 (P r) _ a b Ha Hb).
  rewrite forallb_forall in H. apply H, list_elem_of_In. by apply digit_list_spec.
Qed.

Lemma damm_step_range x d : damm_state x → 0 ≤ d ≤ 9 → damm_state (damm_t (x + d)).
Proof.
  intros (r & Hr & ->) Hd. exists (damm_t (10 * r + d) / 10).
  assert ((0 <=? damm_t (10 * r + d) / 10) && (damm_t (10 * r + d) / 10 <=? 9)
    && (damm_t (10 * r + d) =? 10 * (damm_t (10 * r + d) / 10)) = true) as H.
  { apply (damm_forall2 (λ r d, (0 <=? damm_t (10 * r + d) / 10)
      && (damm_t (10 * r + d) / 10 <=? 9)
      && (damm_t (10 * r + d) =? 10 * (damm_t (10 * r + d) / 10)))); [by vm_compute|done..]. }
  bool_to_prop. lia.
Qed.

(** Rows and columns of the table are permutations. *)
Lemma damm_row_inj x d d' :
  damm_state x → 0 ≤ d ≤ 9 → 0 ≤ d' ≤ 9 → damm_t (x + d) = damm_t (x + d') → d = d'.
Proof.
  intros (r & Hr & ->) Hd Hd' Heq.
  assert (negb (damm_t (10 * r + d) =? damm_t (10 * r + d')) || (d =? d') = true) as H.
  { apply (damm_forall3 (λ r d d', negb (damm_t (10 * r + d) =? damm_t (10 * r + d'))
      || (d =? d'))); [by vm_compute|done..]. }
  bool_to_prop. lia.
Qed.

Lemma damm_col_inj x x' d :
  damm_state x → damm_state x' → 0 ≤ d ≤ 9 → damm_t (x + d) = damm_t (x' + d) → x = x'.
Proof.
  intros (r & Hr & ->) (r' & Hr' & ->) Hd Heq.
  assert (negb (damm_t (10 * r + d) =? damm_t (10 * r' + d)) || (r =? r') = true) as H.
  { apply (damm_forall3 (λ r r' d, negb (damm_t (10 * r + d) =? damm_t (10 * r' + d))
      || (r =? r'))); [by vm_compute|done..]. }
  bool_to_prop. lia.
Qed.

(** The quasigroup is weakly totally anti-symmetric. *)
Lemma damm_antisym x a b :
  damm_state x → 0 ≤ a ≤ 9 → 0 ≤ b ≤ 9 →
  damm_t (damm_t (x + a) + b) = damm_t (damm_t (x + b) + a) → a = b.
Proof.
  intros (r & Hr & ->) Ha Hb Heq.
  assert (negb (damm_t (damm_t (10 * r + a) + b) =? damm_t (damm_t (10 * r + b) + a))
    || (a =? b) = true) as H.
  { apply (damm_forall3 (λ r a b, negb (damm_t (damm_t (10 * r + a) + b)
      =? damm_t (damm_t (10 * r + b) + a)) || (a =? b))); [by vm_compute|done..]. }
  bool_to_prop. lia.
Qed.

(** Appending the check digit closes the iteration at zero, and only it does. *)
Lemma damm_close x c :
  damm_state x → 0 ≤ c ≤ 9 → damm_t (x + c) = 0 ↔ x / 10 = c.
Proof.
  intros (r & Hr & ->) Hc.
  assert (Bool.eqb (damm_t (10 * r + c) =? 0) (10 * r / 10 =? c) = true) as H.
  { apply (damm_forall2 (λ r c, Bool.eqb (damm_t (10 * r + c) =? 0) (10 * r / 10 =? c)));
      [by vm_compute|done..]. }
  apply Bool.eqb_prop in H. rewrite <- Z.eqb_eq, H. by rewrite Z.eqb_eq.
Qed.

Lemma damm_fold_range x l : damm_state x → digits_ok l → damm_state (damm_fold x l).
Proof.
  intros Hx Hl. revert x Hx. induction Hl as [|d l Hd Hl IH]; intros x Hx; [done|].
  simpl. by apply IH, damm_step_range.
Qed.

Lemma damm_fold_inj x x' l :
  damm_state x → damm_state x' → digits_ok l → damm_fold x l = damm_fold x' l → x = x'.
Proof.
  intros Hx Hx' Hl. revert x x' Hx Hx'.
  induction Hl as [|d l Hd Hl IH]; intros x x' Hx Hx' H; [done|]; simpl in H.
  eapply damm_col_inj; [done..|]. by apply IH; [apply damm_step_range..|].
Qed.

Lemma damm_state_0 : damm_state 0.
Proof. exists 0; lia. Qed.

(** One wrong digit is detected. *)
Lemma damm_single l1 d d' l2 :
  digits_ok (l1 ++ d :: l2) → 0 ≤ d' ≤ 9 → d ≠ d' →
  damm_fold 0 (l1 ++ d :: l2) ≠ damm_fold 0 (l1 ++ d' :: l2).
Proof.
  intros [Hl1 [Hd Hl2]%Forall_cons_1]%Forall_app Hd' Hne Heq. apply Hne.
  unfold damm_fold in Heq. rewrite !fold_left_app in Heq. simpl in Heq.
  apply damm_fold_inj in Heq; [|apply damm_step_range; [|done]; apply damm_fold_range;
    [apply damm_state_0|done]..|done].
  eapply damm_row_inj; [apply (damm_fold_range 0 l1); [apply damm_state_0|done]|done..].
Qed.

(** Two adjacent digits swapped are detected. *)
Lemma damm_transposition l1 a b l2 :
  digits_ok (l1 ++ a :: b :: l2) → a ≠ b →
  damm_fold 0 (l1 ++ a :: b :: l2) ≠ damm_fold 0 (l1 ++ b :: a :: l2).
Proof.
  intros [Hl1 [Ha [Hb Hl2]%Forall_cons_1]%Forall_cons_1]%Forall_app Hne Heq. apply Hne.
  assert (damm_state (damm_fold 0 l1)) as Hs
    by (apply damm_fold_range; [apply damm_state_0|done]).
  unfold damm_fold in Heq. rewrite !fold_left_app in Heq. simpl in Heq.
  apply damm_fold_inj in Heq; [|by repeat apply damm_step_range..|done].
  by eapply damm_antisym.
Qed.

(** *** The implementation against the reference *)

Lemma div10 n d : 0 ≤ d ≤ 9 → (10 * n + d) / 10 = n.
Proof. intros. symmetry. apply (Z.div_unique _ _ _ d); lia. Qed.
Lemma mod10 n d : 0 ≤ d ≤ 9 → (10 * n + d) mod 10 = d.
Proof. intros. symmetry. apply (Z.mod_unique _ _ n); lia. Qed.

Lemma nai_of_digits_snoc l d : nai_of_digits (l ++ [d]) = 10 * nai_of_digits l + d.
Proof. unfold nai_of_digits. by rewrite fold_left_app. Qed.

Lemma nai_of_digits_bound l :
  digits_ok l → 0 ≤ nai_of_digits l < 10 ^ Z.of_nat (length l).
Proof.
  induction l as [|d l IH] using rev_ind; [done|].
  intros [Hl [Hd _]%Forall_cons_1]%Forall_app.
  rewrite nai_of_digits_snoc, length_app; simpl. specialize (IH Hl).
  replace (Z.of_nat (length l + 1)) with (Z.succ (Z.of_nat (length l))) by lia.
  rewrite Z.pow_succ_r by lia. lia.
Qed.

(** Every number with [n] digits is denoted by a list of [n] digits. *)
Lemma nai_digits_exist n v :
  0 ≤ v < 10 ^ Z.of_nat n →
  ∃ l, length l = n ∧ digits_ok l ∧ nai_of_digits l = v.
Proof.
  revert v; induction n as [|n IH]; intros v Hv.
  { exists []. split; [done|]. split; [constructor|]. change (10 ^ Z.of_nat 0) with 1 in Hv.
    unfold nai_of_digits; simpl; lia. }
  rewrite Nat2Z.inj_succ, Z.pow_succ_r in Hv by lia.
  destruct (IH (v / 10)) as (l & Hlen & Hl & Hv').
  { split; [apply Z.div_pos; lia|apply Z.div_lt_upper_bound; lia]. }
  pose proof (Z.mod_pos_bound v 10 ltac:(lia)).
  exists (l ++ [v mod 10]). split; [by rewrite length_app, Hlen; simpl; lia|]. split.
  - apply Forall_app; split; [done|]. repeat constructor; lia.
  - rewrite nai_of_digits_snoc, Hv'. pose proof (Z.div_mod v 10). lia.
Qed.

(** The unrolled routine computes the reference. *)
Lemma damm_checksum_fold l :
  length l = 8%nat → digits_ok l →
  damm_checksum_8digit (nai_of_digits l) = Ok (damm_fold 0 l / 10).
Proof.
  intros Hlen Hl. pose proof (nai_of_digits_bound l Hl) as Hb. rewrite Hlen in Hb.
  destruct l as [|d7 [|d6 [|d5 [|d4 [|d3 [|d2 [|d1 [|d0 [|]]]]]]]]]; try done.
  unfold digits_ok in Hl. repeat (apply Forall_cons_1 in Hl as [? Hl]).
  unfold damm_checksum_8digit. cbv zeta.
  replace (nai_of_digits [d7; d6; d5; d4; d3; d2; d1; d0] <? 100000000) with true
    by (symmetry; bool_to_prop; lia).
  cbn [fc_assert mbind result_bind nai_of_digits fold_left].
  replace (10 * 0 + d7) with d7 by lia.
  repeat (rewrite div10 by done). repeat (rewrite mod10 by done).
  unfold damm_fold; cbn [fold_left]. by rewrite Z.add_0_l.
Qed.

(** A NAI [asset_num_from_nai] accepts closes the Damm iteration at zero. *)
Lemma asset_num_from_nai_damm l dp n :
  length l = 9%nat → digits_ok l →
  asset_num_from_nai (nai_of_digits l) dp = Ok n → damm_fold 0 l = 0.
Proof.
  intros Hlen Hl H.
  destruct l as [|c l' _] using rev_ind; [done|].
  apply Forall_app in Hl as [Hl' [Hc _]%Forall_cons_1].
  rewrite length_app in Hlen; simpl in Hlen.
  unfold asset_num_from_nai in H. rewrite nai_of_digits_snoc, div10, mod10 in H by done.
  rewrite damm_checksum_fold in H by (done || lia).
  ok_inv H. injection Ha as <-. bool_to_prop.
  unfold damm_fold. rewrite fold_left_app. cbn [fold_left].
  apply damm_close; [|done|by symmetry].
  apply damm_fold_range; [apply damm_state_0|done].
Qed.

(** The check digit protects NAI strings: if [asset_num_from_nai] accepts the
    nine digits [l1 ++ d :: l2] (eight data digits and the check digit) then it
    rejects, for every precision, the digits with one of them replaced and the
    digits with two different adjacent ones swapped. *)
Theorem nai_check_digit_detects (l1 l2 : list Z) (d : Z) (dp n : Z) :
  length (l1 ++ d :: l2) = 9%nat → digits_ok (l1 ++ d :: l2) →
  asset_num_from_nai (nai_of_digits (l1 ++ d :: l2)) dp = Ok n →
  (∀ d' dp', 0 ≤ d' ≤ 9 → d' ≠ d →
     is_ok (asset_num_from_nai (nai_of_digits (l1 ++ d' :: l2)) dp') = false) ∧
  (∀ e l3 dp', l2 = e :: l3 → e ≠ d →
     is_ok (asset_num_from_nai (nai_of_digits (l1 ++ e :: d :: l3)) dp') = false).
Proof.
  intros Hlen Hl H. apply asset_num_from_nai_damm in H; [|done..]. split.
  - intros d' dp' Hd' Hne.
    destruct (asset_num_from_nai _ dp') as [n'|] eqn:H'; [|done]. exfalso.
    apply asset_num_from_nai_damm in H'.
    + by apply (damm_single l1 d d' l2); [..|congruence].
    + rewrite length_app in *; done.
    + apply Forall_app in Hl as [? Hl]. apply Forall_cons_1 in Hl as [? ?].
      apply Forall_app; split; [done|by constructor].
  - intros e l3 dp' -> Hne.
    destruct (asset_num_from_nai _ dp') as [n'|] eqn:H'; [|done]. exfalso.
    apply asset_num_from_nai_damm in H'.
    + apply (damm_transposition l1 d e l3); congruence.
    + rewrite length_app in *; done.
    + apply Forall_app in Hl as [? Hl]. apply Forall_cons_1 in Hl as [? Hl].
      apply Forall_cons_1 in Hl as [? ?].
      apply Forall_app; split; [done|by constructor; [|constructor]].
Qed.

(** "@@000000021" is HIVE; "@@000000012" and "@@000000031" are not assets. *)
Lemma nai_check_digit_detects_witness :
  asset_num_from_nai 21 3 = Ok HIVE_ASSET_NUM_HIVE ∧
  is_ok (asset_num_from_nai 31 3) = false ∧ is_ok (asset_num_from_nai 12 3) = false.
Proof.
  destruct (nai_check_digit_detects [0; 0; 0; 0; 0; 0; 0] [1] 2 3 HIVE_ASSET_NUM_HIVE)
    as [H1 H2].
  - reflexivity.
  - repeat constructor; lia.
  - by vm_compute.
  - split; [by vm_compute|]. split.
    + apply (H1 3 3); lia.
    + apply (H2 1 [] 3); [reflexivity|lia].
Defined.

(** ** Round trips *)

(** Symbols in their NAI form: the three legacy ones and the valid SMT ones whose
    NAI is not one of those reserved for the legacy ones. *)
Definition canonical_symbol (s : asset_symbol_type) : Prop :=
  0 ≤ asset_num s ∧ symbol_validate s = Ok tt ∧
  (space s = smt_nai_space → HIVE_NAI_VESTS < Z.shiftr (asset_num s) HIVE_NAI_SHIFT).

(** The shape of canonical symbols. *)
Lemma canonical_symbol_cases s :
  canonical_symbol s ↔
  s = HIVE_SYMBOL ∨ s = HBD_SYMBOL ∨ s = VESTS_SYMBOL ∨
  ∃ nai dec, s = from_asset_num (nai * 32 + 16 + dec) ∧
    HIVE_NAI_VESTS < nai ≤ SMT_MAX_NAI ∧ 0 ≤ dec ≤ HIVE_ASSET_MAX_DECIMALS.
Proof.
  destruct asset_nums as (HBD & HIVE & VESTS). split.
  - intros (H0 & Hv & Hc). destruct (space s) eqn:Hs.
    { apply space_legacy in Hs. naive_solver. }
    right; right; right. apply symbol_validate_smt in Hv as (nai & dec & Hn & Hnai & Hdec);
      [|done..].
    exists nai, dec. specialize (Hc eq_refl). rewrite Hn in Hc.
    rewrite Z.shiftr_div_pow2 in Hc by (by vm_compute).
    change (2 ^ HIVE_NAI_SHIFT) with 32 in Hc.
    replace ((nai * 32 + 16 + dec) / 32) with nai in Hc.
    2:{ apply (Z.div_unique _ _ _ (16 + dec)); unfold HIVE_ASSET_MAX_DECIMALS in *; lia. }
    destruct s as [n]; simpl in Hn; subst n. split_and!; [done|lia..].
  - intros [->|[->|[->|(nai & dec & -> & Hnai & Hdec)]]].
    1-3: by vm_compute.
    unfold HIVE_NAI_VESTS, SMT_MAX_NAI, HIVE_ASSET_MAX_DECIMALS in *.
    assert (space (from_asset_num (nai * 32 + 16 + dec)) = smt_nai_space) as Hs.
    { apply space_smt_small. lia. }
    split; [simpl; lia|]. split.
    + apply symbol_validate_smt; [done|simpl; lia|].
      exists nai, dec. unfold SMT_MIN_NAI, SMT_MAX_NAI, HIVE_ASSET_MAX_DECIMALS.
      split_and!; [done|lia..].
    + intros _. rewrite Z.shiftr_div_pow2 by (by vm_compute).
      change (2 ^ HIVE_NAI_SHIFT) with 32. simpl.
      replace ((nai * 32 + 16 + dec) / 32) with nai; [unfold HIVE_NAI_VESTS; lia|].
      apply (Z.div_unique _ _ _ (16 + dec)); lia.
Qed.

Lemma damm_checksum_range v :
  0 ≤ v < 100000000 → ∃ c, damm_checksum_8digit v = Ok c ∧ 0 ≤ c ≤ 9.
Proof.
  intros Hv. destruct (nai_digits_exist 8 v) as (l & Hlen & Hl & <-); [done|].
  exists (damm_fold 0 l / 10). split; [by apply damm_checksum_fold|].
  destruct (damm_fold_range 0 l damm_state_0 Hl) as (r & Hr & ->).
  rewrite Z.mul_comm, Z.div_mul by lia. done.
Qed.

Lemma from_nai_smt nai dec c :
  HIVE_NAI_VESTS < nai ≤ SMT_MAX_NAI → 0 ≤ dec ≤ HIVE_ASSET_MAX_DECIMALS →
  damm_checksum_8digit nai = Ok c → 0 ≤ c ≤ 9 →
  from_nai (10 * nai + c) dec = Ok (from_asset_num (nai * 32 + 16 + dec)).
Proof.
  unfold HIVE_NAI_VESTS, SMT_MAX_NAI, HIVE_ASSET_MAX_DECIMALS; intros Hnai Hdec Hd Hc.
  unfold from_nai, asset_num_from_nai. rewrite div10, mod10 by done.
  rewrite Hd. unfold SMT_MIN_NAI, SMT_MAX_NAI, HIVE_ASSET_MAX_DECIMALS, HIVE_NAI_HIVE,
    HIVE_NAI_HBD, HIVE_NAI_VESTS.
  replace (1 <=? nai) with true by (symmetry; bool_to_prop; lia).
  replace (nai <=? 99999999) with true by (symmetry; bool_to_prop; lia).
  cbn -[Z.lor Z.shiftl u32 Z.eqb Z.leb Z.add Z.mul].
  rewrite Z.eqb_refl.
  cbn -[Z.lor Z.shiftl u32 Z.eqb Z.leb Z.add Z.mul].
  replace (nai =? 2) with false by (symmetry; bool_to_prop; lia).
  replace (nai =? 1) with false by (symmetry; bool_to_prop; lia).
  replace (nai =? 3) with false by (symmetry; bool_to_prop; lia).
  replace (dec <=? 12) with true by (symmetry; bool_to_prop; lia).
  cbn -[Z.lor Z.shiftl u32 Z.eqb Z.leb Z.add Z.mul].
  do 2 f_equal. change HIVE_NAI_SHIFT with 5. unfold SMT_ASSET_NUM_CONTROL_MASK.
  rewrite u32_id by (rewrite Z.shiftl_mul_pow2 by lia; unfold u32_max; lia).
  rewrite <- Z.lor_assoc.
  replace (Z.lor 16 dec) with (16 + dec).
  2:{ change 16 with (Z.shiftl 1 4) at 2. rewrite lor_shiftl_add; lia. }
  rewrite lor_shiftl_add; lia.
Qed.

(** Encoding a canonical symbol as a NAI and decoding it gives it back. *)
Lemma nai_roundtrip s :
  canonical_symbol s →
  ∃ n, to_nai s = Ok n ∧ 0 ≤ n < 1000000000 ∧ from_nai n (decimals s) = Ok s.
Proof.
  rewrite canonical_symbol_cases. intros [->|[->|[->|(nai & dec & -> & Hnai & Hdec)]]].
  1: by exists 21. 1: by exists 13. 1: by exists 37.
  unfold HIVE_NAI_VESTS, SMT_MAX_NAI, HIVE_ASSET_MAX_DECIMALS in *.
  destruct (damm_checksum_range nai) as (c & Hd & Hc); [lia|].
  exists (10 * nai + c).
  rewrite decimals_smt by (unfold HIVE_ASSET_MAX_DECIMALS; lia).
  split; [|split; [lia|by apply from_nai_smt]].
  unfold to_nai. cbn [asset_num].
  destruct asset_nums as (HBD & HIVE & VESTS).
  rewrite (space_smt_small (nai * 32 + 16 + dec)) by lia.
  rewrite HBD, HIVE, VESTS.
  replace (nai * 32 + 16 + dec =? 3200000035) with false by (symmetry; bool_to_prop; lia).
  replace (nai * 32 + 16 + dec =? 3200000003) with false by (symmetry; bool_to_prop; lia).
  replace (nai * 32 + 16 + dec =? 3200000070) with false by (symmetry; bool_to_prop; lia).
  rewrite Z.shiftr_div_pow2 by (by vm_compute). change (2 ^ HIVE_NAI_SHIFT) with 32.
  replace ((nai * 32 + 16 + dec) / 32) with nai
    by (apply (Z.div_unique _ _ _ (16 + dec)); lia).
  cbn [mbind result_bind fc_assert]. rewrite Hd. cbn [mbind result_bind].
  f_equal. rewrite Z.mul_comm. apply u32_id. unfold u32_max. lia.
Qed.

(** *** NAI strings *)

Fixpoint string_of_digits (l : list Z) : string :=
  match l with [] => "" | d :: l' => String (digit_char d) (string_of_digits l') end.

(** What [from_nai_string] relies on of [boost::lexical_cast<uint32_t>]: a string of
    decimal digits is converted to the number it denotes, if that fits. *)
Class LexicalCastU32 (lexical_cast_u32 : string → result Z) : Prop :=
  lexical_cast_digits l :
    l ≠ [] → digits_ok l → nai_of_digits l ≤ u32_max →
    lexical_cast_u32 (string_of_digits l) = Ok (nai_of_digits l).

Lemma string_of_digits_app l1 l2 :
  string_of_digits (l1 ++ l2) = string_of_digits l1 +:+ string_of_digits l2.
Proof. induction l1 as [|d l1 IH]; [done|]. exact (f_equal (String (digit_char d)) IH). Qed.

Lemma string_app_assoc (s1 s2 s3 : string) : (s1 +:+ s2) +:+ s3 = s1 +:+ (s2 +:+ s3).
Proof. induction s1 as [|c s1 IH]; [done|]. exact (f_equal (String c) IH). Qed.

Lemma string_app_nil_r (s : string) : s +:+ "" = s.
Proof. induction s as [|c s IH]; [done|]. exact (f_equal (String c) IH). Qed.

Lemma write_digits_spec n l acc :
  length l = S n → digits_ok l →
  write_digits (S n) (nai_of_digits l) acc = string_of_digits l +:+ acc.
Proof.
  revert l acc; induction n as [|n IH]; intros l acc Hlen Hl.
  { destruct l as [|d []]; [done| |done]. unfold nai_of_digits; simpl.
    by replace (10 * 0 + d) with d by lia. }
  destruct l as [|c l' _] using rev_ind; [done|].
  apply Forall_app in Hl as [Hl' [Hc _]%Forall_cons_1].
  rewrite length_app in Hlen; simpl in Hlen.
  rewrite nai_of_digits_snoc. cbn [write_digits]. rewrite div10, mod10 by done.
  rewrite string_of_digits_app, string_app_assoc. apply IH; [lia|done].
Qed.

Lemma digit_char_nonzero d : 0 ≤ d ≤ 9 → digit_char d ≠ Ascii.zero.
Proof.
  intros Hd%digit_list_spec. revert d Hd. apply Forall_forall.
  unfold digit_list. repeat constructor; by vm_compute.
Qed.

Lemma strlen_digits l : digits_ok l → strlen (string_of_digits l) = Z.of_nat (length l).
Proof.
  induction 1 as [|d l Hd Hl IH]; [done|]. cbn [strlen string_of_digits length].
  rewrite bool_decide_eq_false_2 by (by apply digit_char_nonzero). rewrite IH. lia.
Qed.

(** The NAI string of an asset symbol identifies it: every canonical symbol
    (HIVE, HBD, VESTS, and every validated SMT symbol whose NAI is not reserved)
    has a NAI string, and [from_nai_string] with the symbol's precision gives the
    symbol back, whatever implementation of [boost::lexical_cast] converts digit
    strings correctly. *)
Theorem nai_string_roundtrip (lexical_cast_u32 : string → result Z) (s : asset_symbol_type) :
  LexicalCastU32 lexical_cast_u32 → canonical_symbol s →
  ∃ str, to_nai_string s = Ok str ∧
    from_nai_string lexical_cast_u32 (Some str) (decimals s) = Ok s.
Proof.
  intros Hlc Hs. destruct (nai_roundtrip s Hs) as (n & Hn & Hb & Hf).
  destruct (nai_digits_exist 9 n) as (l & Hlen & Hl & <-); [done|].
  exists ("@@" +:+ string_of_digits l).
  unfold to_nai_string. rewrite Hn. split.
  { cbn [mbind result_bind]. do 2 f_equal. by rewrite write_digits_spec, string_app_nil_r. }
  unfold from_nai_string.
  change (strlen ("@@" +:+ string_of_digits l)) with (1 + (1 + strlen (string_of_digits l))).
  rewrite strlen_digits, Hlen by done.
  change (lexical_cast_u32 (string_of_digits l) ≫= (λ nai, from_nai nai (decimals s)) = Ok s).
  rewrite Hlc; [done|by destruct l|done|unfold u32_max; lia].
Qed.

(** A decimal conversion with the properties of [boost::lexical_cast]. *)
Fixpoint decimal_u32_aux (acc : Z) (s : string) : result Z :=
  match s with
  | EmptyString => if acc <=? u32_max then Ok acc else Throw bad_cast_exception
  | String c s' =>
      let d := Z.of_N (Ascii.N_of_ascii c) - 48 in
      if (0 <=? d) && (d <=? 9) then decimal_u32_aux (10 * acc + d) s'
      else Throw bad_cast_exception
  end.
Definition decimal_u32 (s : string) : result Z :=
  match s with EmptyString => Throw bad_cast_exception | _ => decimal_u32_aux 0 s end.

#[export] Instance decimal_u32_spec : LexicalCastU32 decimal_u32.
Proof.
  intros l Hne Hl Hb.
  assert (∀ acc, decimal_u32_aux acc (string_of_digits l) =
    if fold_left (λ n d, 10 * n + d) l acc <=? u32_max
    then Ok (fold_left (λ n d, 10 * n + d) l acc) else Throw bad_cast_exception) as H.
  { clear Hne Hb. induction Hl as [|d l Hd Hl IH]; intros acc; [done|].
    cbn [string_of_digits decimal_u32_aux fold_left].
    assert (Z.of_N (Ascii.N_of_ascii (digit_char d)) - 48 = d) as ->.
    { unfold digit_char. rewrite Ascii.N_ascii_embedding; lia. }
    replace ((0 <=? d) && (d <=? 9)) with true by (symmetry; bool_to_prop; lia).
    apply IH. }
  unfold decimal_u32. destruct l as [|d l]; [done|]. cbn [string_of_digits].
  change (String (digit_char d) (string_of_digits l)) with (string_of_digits (d :: l)).
  rewrite H. unfold nai_of_digits in *.
  by replace (fold_left _ (d :: l) 0 <=? u32_max) with true by (symmetry; bool_to_prop; lia).
Qed.

Lemma nai_string_roundtrip_witness :
  ∃ str, to_nai_string (from_asset_num (1234567 * 32 + 16 + 5)) = Ok str ∧
    from_nai_string decimal_u32 (Some str) 5 = Ok (from_asset_num (1234567 * 32 + 16 + 5)).
Proof.
  apply (nai_string_roundtrip decimal_u32 (from_asset_num (1234567 * 32 + 16 + 5))).
  - exact decimal_u32_spec.
  - apply canonical_symbol_cases. do 3 right. exists 1234567, 5.
    unfold HIVE_NAI_VESTS, SMT_MAX_NAI, HIVE_ASSET_MAX_DECIMALS. split; [reflexivity|lia].
Defined.

(** [validate] alone does not give uniqueness: it also accepts the SMT-space numbers
    that carry a NAI reserved for a legacy asset, and those share its NAI. *)
Lemma validate_nai_alias :
  let alias := from_asset_num (HIVE_NAI_HBD * 32 + 16 + HIVE_PRECISION_HBD) in
  symbol_validate alias = Ok tt ∧ alias ≠ HBD_SYMBOL ∧
  to_nai alias = to_nai HBD_SYMBOL ∧ decimals alias = decimals HBD_SYMBOL.
Proof. by vm_compute. Qed.

(** *** Binary form *)

Lemma length_le_bytes n z : length (le_bytes n z) = n.
Proof. revert z; induction n as [|n IH]; intros z; simpl; [done|]. by rewrite IH. Qed.

Lemma of_le_bytes_le_bytes n z : of_le_bytes (le_bytes n z) = z mod 2 ^ (8 * Z.of_nat n).
Proof.
  revert z; induction n as [|n IH]; intros z.
  { simpl. by rewrite Z.mod_1_r. }
  cbn [le_bytes of_le_bytes]. rewrite IH, Z.shiftr_div_pow2 by lia.
  unfold u8, wrapu. replace (8 * Z.of_nat (S n)) with (8 + 8 * Z.of_nat n) by lia.
  rewrite Z.pow_add_r by lia. by rewrite Z.rem_mul_r by lia.
Qed.

Lemma le_bytes_app n m z : le_bytes (n + m) z = le_bytes n z ++ le_bytes m (Z.shiftr z (8 * Z.of_nat n)).
Proof.
  revert z; induction n as [|n IH]; intros z; [by rewrite Z.shiftr_0_r|].
  cbn [le_bytes Nat.add app]. rewrite IH, Z.shiftr_shiftr by lia.
  do 4 f_equal. lia.
Qed.

Lemma stream_read_app n l s : length l = n → stream_read n (l ++ s) = Ok (l, s).
Proof.
  intros <-. unfold stream_read. rewrite length_app.
  replace (length l <=? length l + length s)%nat with true
    by (symmetry; apply Nat.leb_le; lia).
  by rewrite take_app_length, drop_app_length.
Qed.

(** Reading back a four-byte symbol, when it does not start a legacy one. *)
Lemma unpack_symbol_4 n rest :
  0 ≤ n ≤ u32_max → symbol_validate (from_asset_num n) = Ok tt →
  n ≠ Z.land OBSOLETE_SYMBOL_SER u32_max → n ≠ Z.land OBD_SYMBOL_SER u32_max →
  n ≠ Z.land VESTS_SYMBOL_SER u32_max →
  unpack_symbol (le_bytes 4 n ++ rest) = Ok (from_asset_num n, rest).
Proof.
  intros Hn Hv H1 H2 H3. unfold unpack_symbol. rewrite stream_read_app by done.
  cbn [mbind result_bind].
  assert (of_le_bytes (le_bytes 4 n) = n) as ->.
  { rewrite of_le_bytes_le_bytes. apply Z.mod_small. unfold u32_max in Hn. lia. }
  unfold u32_max in *.
  apply Z.eqb_neq in H1, H2, H3. rewrite H1, H2, H3. cbn [mbind result_bind].
  rewrite u32_id by done. by rewrite Hv.
Qed.

Lemma symbol_bytes (mode : pack_type) (s : asset_symbol_type) (rest : list Z) :
  0 ≤ asset_num s → symbol_validate s = Ok tt →
  ∃ bytes, pack_symbol mode s = Ok bytes ∧ unpack_symbol (bytes ++ rest) = Ok (s, rest).
Proof.
  intros Hn Hv. destruct (space s) eqn:Hs.
  - apply space_legacy in Hs as [->|[->| ->] ]; destruct mode; eexists;
      (split; [by vm_compute|]); by vm_compute.
  - exists (le_bytes 4 (asset_num s)). unfold pack_symbol. rewrite Hs. split; [done|].
    pose proof (symbol_validate_bound s Hv Hn) as Hb.
    destruct asset_nums as (_ & _ & Hvests). rewrite Hvests in Hb.
    pose proof Hv as Hv'. apply symbol_validate_smt in Hv' as (nai & dec & Heq & Hnai & Hdec); [|done..].
    unfold HIVE_ASSET_MAX_DECIMALS in Hdec.
    destruct s as [n]; cbn [asset_num] in *.
    assert ((n mod 32 <? 16) = false) as Hm.
    { bool_to_prop. rewrite <- (Z.mod_unique n 32 nai (16 + dec)); lia. }
    apply unpack_symbol_4; [unfold u32_max; lia|done|..]; intros ->; by vm_compute in Hm.
Qed.

(** Binary round trip of asset symbols: in both serialisation modes, unpacking
    the packed form of a validated symbol followed by any bytes gives the symbol and
    leaves those bytes; the eight-byte legacy encodings are never confused with the
    four-byte ones. *)
Theorem symbol_pack_roundtrip (mode : pack_type) (s : asset_symbol_type) (rest : list Z) :
  0 ≤ asset_num s → symbol_validate s = Ok tt →
  ∃ bytes, pack_symbol mode s = Ok bytes ∧ unpack_symbol (bytes ++ rest) = Ok (s, rest).
Proof. apply symbol_bytes. Qed.

Lemma symbol_pack_roundtrip_witness :
  ∃ bytes, pack_symbol pack_legacy (from_asset_num (1234567 * 32 + 16 + 5)) = Ok bytes ∧
    unpack_symbol (bytes ++ [7]) = Ok (from_asset_num (1234567 * 32 + 16 + 5), [7]).
Proof.
  apply (symbol_pack_roundtrip pack_legacy (from_asset_num (1234567 * 32 + 16 + 5)) [7]).
  - simpl; lia.
  - by vm_compute.
Defined.

(** ** Vesting pairs *)

Lemma lxor_vesting_smt nai dec :
  Z.lxor (nai * 32 + 16 + dec) SMT_ASSET_NUM_VESTING_MASK =
  nai * 32 + 16 + dec + (if Z.odd nai then - 32 else 32) ∨ ¬ 0 ≤ dec ≤ HIVE_ASSET_MAX_DECIMALS.
Proof.
  unfold SMT_ASSET_NUM_VESTING_MASK, HIVE_ASSET_MAX_DECIMALS.
  destruct (decide (0 ≤ dec ≤ 12)) as [Hd|]; [left|by right].
  change (Z.lxor (nai * 32 + 16 + dec) 32) with (Z.lxor (nai * 32 + 16 + dec) (2 ^ 5)).
  rewrite lxor_bit by lia.
  assert (Z.testbit (nai * 32 + 16 + dec) 5 = Z.odd nai) as ->.
  { rewrite Z.testbit_odd, Z.shiftr_div_pow2 by lia. f_equal.
    symmetry; apply (Z.div_unique _ _ _ (16 + dec)); lia. }
  destruct (Z.odd nai); lia.
Qed.

Lemma is_vesting_smt nai dec :
  space (from_asset_num (nai * 32 + 16 + dec)) = smt_nai_space →
  0 ≤ dec ≤ HIVE_ASSET_MAX_DECIMALS →
  is_vesting (from_asset_num (nai * 32 + 16 + dec)) = Ok (Z.odd nai).
Proof.
  unfold HIVE_ASSET_MAX_DECIMALS, is_vesting. intros -> Hd. cbn [asset_num].
  unfold SMT_ASSET_NUM_VESTING_MASK.
  change (Z.land (nai * 32 + 16 + dec) 32) with (Z.land (nai * 32 + 16 + dec) (2 ^ 5)).
  rewrite land_bit by lia.
  replace ((nai * 32 + 16 + dec) / 2 ^ 5) with nai
    by (apply (Z.div_unique _ _ _ (16 + dec)); lia).
  rewrite Zmod_odd. by destruct (Z.odd nai).
Qed.

(** Liquid and vesting symbols come in pairs: for every validated symbol other
    than HBD, [get_paired_symbol] succeeds, applying it twice gives the symbol back,
    and exactly one of the two is vesting; HBD is its own, liquid, pair. *)
Theorem paired_symbol_involutive (s : asset_symbol_type) :
  0 ≤ asset_num s → symbol_validate s = Ok tt →
  ∃ p v, get_paired_symbol s = Ok p ∧ get_paired_symbol p = Ok s ∧
    is_vesting s = Ok v ∧
    is_vesting p = Ok (if symbol_eqb s HBD_SYMBOL then v else negb v).
Proof.
  intros Hn Hv. destruct (space s) eqn:Hs.
  { apply space_legacy in Hs as [->|[->| ->] ]; do 2 eexists;
      (split_and!; [by vm_compute..|by vm_compute]). }
  pose proof Hv as Hv'. apply symbol_validate_smt in Hv' as (nai & dec & Heq & Hnai & Hdec); [|done..].
  destruct s as [n]; cbn [asset_num] in *. subst n.
  set (nai' := if Z.odd nai then nai - 1 else nai + 1).
  assert (Z.lxor (nai * 32 + 16 + dec) SMT_ASSET_NUM_VESTING_MASK = nai' * 32 + 16 + dec) as Hx.
  { destruct (lxor_vesting_smt nai dec) as [->|]; [|done]. unfold nai'. destruct (Z.odd nai); lia. }
  unfold SMT_MIN_NAI, SMT_MAX_NAI in Hnai.
  assert (Z.odd nai' = negb (Z.odd nai)) as Hodd.
  { unfold nai'. destruct (Z.odd nai) eqn:Ho.
    - by rewrite Z.odd_sub, Ho.
    - by rewrite Z.odd_add, Ho. }
  assert (0 ≤ nai' ≤ 99999999) as Hb.
  { unfold nai'. destruct (Z.odd nai) eqn:Ho; [lia|].
    destruct (decide (nai = 99999999)) as [->|]; [done|lia]. }
  assert (space (from_asset_num (nai' * 32 + 16 + dec)) = smt_nai_space) as Hs'.
  { destruct asset_nums as (HB & _ & _). unfold HIVE_ASSET_MAX_DECIMALS in Hdec.
    apply space_smt_small. lia. }
  exists (from_asset_num (nai' * 32 + 16 + dec)), (Z.odd nai). split_and!.
  - unfold get_paired_symbol. rewrite Hs. cbn [asset_num]. by rewrite Hx.
  - unfold get_paired_symbol. rewrite Hs'. cbn [asset_num]. rewrite <- Hx, Z.lxor_assoc.
    by rewrite Z.lxor_nilpotent, Z.lxor_0_r.
  - by apply is_vesting_smt.
  - rewrite is_vesting_smt by done. rewrite Hodd.
    destruct (symbol_eqb _ _) eqn:E; [|done].
    apply symbol_eqb_spec in E. rewrite E in Hs. by vm_compute in Hs.
Qed.

Lemma paired_symbol_involutive_witness :
  ∃ p v, get_paired_symbol HIVE_SYMBOL = Ok p ∧ get_paired_symbol p = Ok HIVE_SYMBOL ∧
    is_vesting HIVE_SYMBOL = Ok v ∧
    is_vesting p = Ok (if symbol_eqb HIVE_SYMBOL HBD_SYMBOL then v else negb v).
Proof.
  apply (paired_symbol_involutive HIVE_SYMBOL).
  - by vm_compute.
  - by vm_compute.
Defined.
