(* ===== verification/Asset.v ===== *)
(** * Assets and prices

    [asset], [price] and their arithmetic (libraries/protocol/include/hive/protocol/asset.hpp
    and libraries/protocol/asset.cpp).

    Amounts are [share_type] ([safe<int64_t>], Safe.v); the multiplication of an
    asset by a price goes through 128-bit unsigned intermediates, whose
    wrap-around and the conversions back to 64 bits are written out.  Division by
    zero and negating the least [int64_t], which C++ leaves undefined, are the
    outcome [undefined_behaviour]. *)

From S2P Require Import Prelude Safe AssetSymbol.
Open Scope Z_scope.

Definition HIVE_MAX_SATOSHIS : Z := 4611686018427387903.
Definition HIVE_100_PERCENT : Z := 10000.

(** ** [asset] *)

Record asset : Set := Asset { amount : Z; symbol : asset_symbol_type }.

#[export] Instance asset_eq_dec : EqDecision asset.
Proof. solve_decision. Defined.

(** The default constructor. *)
Definition default_asset : asset := Asset 0 HIVE_SYMBOL.

Definition same_symbol (a b : asset) : result unit :=
  fc_assert (symbol_eqb (symbol a) (symbol b)) "a.symbol == b.symbol".

(** [+=] and [+], [-=] and [-] and the unary [-]. *)
Definition asset_add (a b : asset) : result asset :=
  same_symbol a b ;;
  x ← share_add (amount a) (amount b);
  Ok (Asset x (symbol a)).

Definition asset_sub (a b : asset) : result asset :=
  same_symbol a b ;;
  x ← share_sub (amount a) (amount b);
  Ok (Asset x (symbol a)).

Definition asset_neg (a : asset) : result asset :=
  x ← share_neg (amount a);
  Ok (Asset x (symbol a)).

(** [==] compares symbols without asserting; the other comparisons assert. *)
Definition asset_eqb (a b : asset) : bool :=
  symbol_eqb (symbol a) (symbol b) && (amount a =? amount b).

Definition asset_neb (a b : asset) : result bool :=
  same_symbol a b ;; Ok (negb (amount a =? amount b)).
Definition asset_ltb (a b : asset) : result bool :=
  same_symbol a b ;; Ok (amount a <? amount b).
Definition asset_leb (a b : asset) : result bool :=
  same_symbol a b ;; Ok (amount a <=? amount b).
Definition asset_gtb (a b : asset) : result bool :=
  same_symbol a b ;; Ok (amount b <? amount a).
Definition asset_geb (a b : asset) : result bool :=
  same_symbol a b ;; Ok (amount b <=? amount a).

(** ** [price] *)

Record price : Set := Price { base : asset; quote : asset }.

#[export] Instance price_eq_dec : EqDecision price.
Proof. solve_decision. Defined.

Definition default_price : price := Price default_asset default_asset.

Definition price_validate (p : price) : result unit :=
  fc_assert (0 <? amount (base p)) "base.amount > share_type(0)" ;;
  fc_assert (0 <? amount (quote p)) "quote.amount > share_type(0)" ;;
  fc_assert (negb (symbol_eqb (symbol (base p)) (symbol (quote p))))
    "base.symbol != quote.symbol".

(** The two-argument constructor validates. *)
Definition make_price (b q : asset) : result price :=
  price_validate (Price b q) ;; Ok (Price b q).

(** [operator~]. *)
Definition price_inverse (p : price) : result price := make_price (quote p) (base p).

Definition price_max (b q : asset_symbol_type) : result price :=
  make_price (Asset HIVE_MAX_SATOSHIS b) (Asset 1 q).
Definition price_min (b q : asset_symbol_type) : result price :=
  make_price (Asset 1 b) (Asset HIVE_MAX_SATOSHIS q).

(** [BQ(a)], compared as [std::tie] compares tuples. *)
Definition BQ (p : price) : Z * Z := (asset_num (symbol (base p)), asset_num (symbol (quote p))).
Definition tie_eqb (x y : Z * Z) : bool := (x.1 =? y.1) && (x.2 =? y.2).
Definition tie_ltb (x y : Z * Z) : bool :=
  (x.1 <? y.1) || (negb (y.1 <? x.1) && (x.2 <? y.2)).

(** [DEFINE_PRICE_COMPARISON_OPERATOR( op )]. *)
Definition price_compare (op_sym : Z * Z → Z * Z → bool) (op : Z → Z → bool)
    (a b : price) : bool :=
  if negb (tie_eqb (BQ a) (BQ b)) then op_sym (BQ a) (BQ b)
  else
    let amult := u128 (u128 (amount (quote b)) * u128 (amount (base a))) in
    let bmult := u128 (u128 (amount (quote a)) * u128 (amount (base b))) in
    op amult bmult.

Definition price_eqb : price → price → bool := price_compare tie_eqb Z.eqb.
Definition price_neb : price → price → bool :=
  price_compare (λ x y, negb (tie_eqb x y)) (λ x y, negb (x =? y)).
Definition price_ltb : price → price → bool := price_compare tie_ltb Z.ltb.
Definition price_leb : price → price → bool :=
  price_compare (λ x y, negb (tie_ltb y x)) Z.leb.
Definition price_gtb : price → price → bool :=
  price_compare (λ x y, tie_ltb y x) (λ x y, y <? x).
Definition price_geb : price → price → bool :=
  price_compare (λ x y, negb (tie_ltb x y)) (λ x y, y <=? x).

Definition is_null (p : price) : bool := price_eqb p default_price.

(** ** Multiplication *)

(** [uint128_t result( is_negative ? -a.amount.value : a.amount.value )]. *)
Definition magnitude (x : Z) : result Z :=
  if x =? i64_min then Throw undefined_behaviour
  else Ok (u128 (if x <? 0 then - x else x)).

(** [share_type( is_negative ? -uint128_to_uint64(r) : uint128_to_uint64(r) )]:
    the conditional has type [uint64_t], and [safe<int64_t>]'s converting
    constructor does not check. *)
Definition signed_result (is_negative : bool) (r : Z) : result Z :=
  v ← uint128_to_uint64 r;
  Ok (i64 (if is_negative then u64 (- v) else v)).

(** [operator * ( asset, price )]. *)
Definition asset_mul_price (a : asset) (b : price) : result asset :=
  let is_negative := amount a <? 0 in
  res ← magnitude (amount a);
  if symbol_eqb (symbol a) (symbol (base b)) then
    res ← udiv (u128 (res * u128 (amount (quote b)))) (u128 (amount (base b)));
    v ← signed_result is_negative res;
    Ok (Asset v (symbol (quote b)))
  else
    fc_assert (symbol_eqb (symbol a) (symbol (quote b))) "invalid ${asset} * ${price}" ;;
    res ← udiv (u128 (res * u128 (amount (base b)))) (u128 (amount (quote b)));
    v ← signed_result is_negative res;
    Ok (Asset v (symbol (base b))).

Definition multiply_with_fee (a : asset) (p : price) (fee : Z)
    (apply_fee_to : asset_symbol_type) : result asset :=
  let is_negative := amount a <? 0 in
  res ← magnitude (amount a);
  '(scale_b, scale_q) ←
    (if symbol_eqb apply_fee_to (symbol (base p)) then
       Ok (u16 (HIVE_100_PERCENT + fee), HIVE_100_PERCENT)
     else
       fc_assert (symbol_eqb apply_fee_to (symbol (quote p)))
         "Invalid fee symbol ${at} for price ${p}" ;;
       Ok (HIVE_100_PERCENT, u16 (HIVE_100_PERCENT + fee)));
  if symbol_eqb (symbol a) (symbol (base p)) then
    res ← udiv (u128 (u128 (res * u128 (amount (quote p))) * scale_q))
               (u128 (u128 (amount (base p)) * scale_b));
    v ← signed_result is_negative res;
    Ok (Asset v (symbol (quote p)))
  else
    fc_assert (symbol_eqb (symbol a) (symbol (quote p))) "invalid ${asset} * ${price}" ;;
    res ← udiv (u128 (u128 (res * u128 (amount (base p))) * scale_b))
               (u128 (u128 (amount (quote p)) * scale_q));
    v ← signed_result is_negative res;
    Ok (Asset v (symbol (base p))).

(** ** [tiny_asset<_SYMBOL>]

    An amount whose symbol is fixed by its type; its arithmetic is that of
    [share_type], and conversions from [asset] check the symbol. *)

Definition tiny_check (sym : asset_symbol_type) (val : asset) : result unit :=
  fc_assert (symbol_eqb (symbol val) sym) "val.symbol.asset_num == _SYMBOL".
Definition tiny_set (sym : asset_symbol_type) (val : asset) : result Z :=
  tiny_check sym val ;; Ok (amount val).
Definition tiny_to_asset (sym : asset_symbol_type) (x : Z) : asset := Asset x sym.
Definition tiny_add_asset (sym : asset_symbol_type) (x : Z) (val : asset) : result Z :=
  tiny_check sym val ;; share_add x (amount val).
Definition tiny_sub_asset (sym : asset_symbol_type) (x : Z) (val : asset) : result Z :=
  tiny_check sym val ;; share_sub x (amount val).

(** ** Properties of prices *)

(** A price whose amounts are representable and that [validate] accepts. *)
Record valid_price (p : price) : Prop := {
  valid_base : 0 < amount (base p) ≤ i64_max;
  valid_quote : 0 < amount (quote p) ≤ i64_max;
  valid_symbols : symbol (base p) ≠ symbol (quote p)
}.

Lemma price_validate_Ok p u :
  amount (base p) ≤ i64_max → amount (quote p) ≤ i64_max →
  price_validate p = Ok u ↔ valid_price p.
Proof.
  intros Hb Hq. unfold price_validate. rewrite !fc_assert_bind_Ok, fc_assert_Ok.
  bool_to_prop. rewrite <- not_true_iff_false, symbol_eqb_spec. split.
  - intros (H1 & H2 & H3). by split.
  - intros [H1 H2 H3]. naive_solver.
Qed.

Lemma make_price_Ok b q p :
  make_price b q = Ok p → p = Price b q ∧ price_validate p = Ok tt.
Proof.
  unfold make_price. intros H. ok_inv H. destruct a. by split.
Qed.

(** Products of two amounts fit in 128 bits. *)
Lemma u128_mul_small x y :
  0 ≤ x ≤ i64_max → 0 ≤ y ≤ i64_max → u128 (u128 x * u128 y) = x * y.
Proof.
  unfold i64_max. intros Hx Hy.
  rewrite (u128_id x), (u128_id y) by (unfold u128_max; lia).
  apply u128_id. unfold u128_max. nia.
Qed.

(** The two directions in which a price converts: [from] is the side that has the
    symbol of the converted asset. *)
Inductive oriented (p : price) : asset → asset → Prop :=
| oriented_base : oriented p (base p) (quote p)
| oriented_quote : oriented p (quote p) (base p).

Lemma oriented_valid p from to :
  valid_price p → oriented p from to →
  0 < amount from ≤ i64_max ∧ 0 < amount to ≤ i64_max ∧ symbol from ≠ symbol to.
Proof. intros [] []; naive_solver. Qed.

Lemma oriented_sym p from to : oriented p from to → oriented p to from.
Proof. destruct 1; constructor. Qed.

Lemma magnitude_Ok x : i64_min < x ≤ i64_max → magnitude x = Ok (Z.abs x).
Proof.
  unfold i64_min, i64_max, magnitude. intros Hx.
  replace (x =? i64_min) with false by (symmetry; bool_to_prop; unfold i64_min; lia).
  f_equal. destruct (Z.ltb_spec x 0).
  - rewrite u128_id; unfold u128_max; lia.
  - rewrite u128_id; unfold u128_max; lia.
Qed.

(** What [operator*] computes before it converts back to 64 bits. *)
Lemma asset_mul_price_eq a p from to :
  valid_price p → oriented p from to → symbol a = symbol from →
  i64_min < amount a ≤ i64_max →
  asset_mul_price a p =
    (v ← signed_result (amount a <? 0) (Z.abs (amount a) * amount to / amount from);
     Ok (Asset v (symbol to))).
Proof.
  intros Hp Ho Hs Ha.
  destruct (oriented_valid p from to Hp Ho) as (Hf & Ht & Hne).
  assert (0 ≤ Z.abs (amount a) ≤ i64_max) by (unfold i64_min, i64_max in *; lia).
  unfold asset_mul_price. rewrite magnitude_Ok by done. cbn [mbind result_bind].
  assert (u128 (Z.abs (amount a) * u128 (amount to)) = Z.abs (amount a) * amount to) as Hm.
  { rewrite <- (u128_mul_small (Z.abs (amount a)) (amount to)) by lia.
    rewrite (u128_id (Z.abs _)); [done|unfold i64_max, u128_max in *; lia]. }
  assert (u128 (amount from) = amount from) as Hfrom.
  { apply u128_id. unfold i64_max, u128_max in *; lia. }
  assert (udiv (u128 (Z.abs (amount a) * u128 (amount to))) (u128 (amount from))
    = Ok (Z.abs (amount a) * amount to / amount from)) as Hd.
  { rewrite Hm, Hfrom. unfold udiv.
    by replace (amount from =? 0) with false by (symmetry; bool_to_prop; lia). }
  destruct Ho; rewrite Hs.
  - replace (symbol_eqb _ _) with true by (symmetry; by apply symbol_eqb_spec).
    by rewrite Hd.
  - replace (symbol_eqb (symbol (quote p)) (symbol (base p))) with false.
    2:{ symmetry. apply not_true_iff_false. rewrite symbol_eqb_spec. done. }
    replace (symbol_eqb (symbol (quote p)) (symbol (quote p))) with true
      by (symmetry; by apply symbol_eqb_spec).
    cbn [fc_assert mbind result_bind]. by rewrite Hd.
Qed.

Lemma abs_quot_div x y z :
  0 < y → 0 < z → Z.abs (Z.quot (x * y) z) = Z.abs x * y / z.
Proof.
  intros Hy Hz. rewrite <- Z.quot_abs by lia.
  rewrite Z.abs_mul, (Z.abs_eq y), (Z.abs_eq z) by lia.
  apply Z.quot_div_nonneg; lia.
Qed.

Lemma signed_result_small neg r :
  0 ≤ r ≤ i64_max → signed_result neg r = Ok (if neg then - r else r).
Proof.
  intros Hr. unfold signed_result, uint128_to_uint64, i64_max in *.
  replace (r <=? u64_max) with true by (symmetry; bool_to_prop; unfold u64_max; lia).
  cbn [fc_assert mbind result_bind]. rewrite (u64_id r) by (unfold u64_max; lia).
  f_equal. destruct neg; [|apply i64_id; unfold i64_min, i64_max; lia].
  destruct (decide (r = 0)) as [->|]; [done|].
  unfold u64, wrapu. rewrite Z.mod_opp_l_nz by (rewrite ?Z.mod_small; lia).
  rewrite (Z.mod_small r) by lia.
  unfold i64, wraps. replace (2 ^ 64 - r + 2 ^ (64 - 1)) with (2 ^ 63 - r + 1 * 2 ^ 64) by lia.
  rewrite Z.mod_add, Z.mod_small by lia. lia.
Qed.

Lemma signed_result_big neg r :
  u64_max < r → is_ok (signed_result neg r) = false.
Proof.
  intros Hr. unfold signed_result, uint128_to_uint64.
  by replace (r <=? u64_max) with false by (symmetry; bool_to_prop; lia).
Qed.

Lemma signed_result_wrap r :
  i64_max < r ≤ u64_max → signed_result false r = Ok (r - 2 ^ 64).
Proof.
  intros Hr. unfold signed_result, uint128_to_uint64, i64_max in *.
  replace (r <=? u64_max) with true by (symmetry; bool_to_prop; lia).
  cbn [fc_assert mbind result_bind]. unfold u64_max in Hr.
  rewrite (u64_id r) by (unfold u64_max; lia). f_equal.
  unfold i64, wraps.
  replace (r + 2 ^ (64 - 1)) with (r - 2 ^ 63 + 1 * 2 ^ 64) by lia.
  rewrite Z.mod_add, Z.mod_small by lia. lia.
Qed.

(** C6. Multiplying an asset by a valid price is exact up to truncation: with [to]
    the side of the price that does not have the asset's symbol and [from] the one
    that does, the result is [amount * to / from] rounded towards zero, in the
    symbol of [to], whenever that fits in 64 bits (the 128-bit intermediate product
    never wraps); it throws when the magnitude exceeds the unsigned 64-bit range;
    between the two, a positive conversion comes back as a negative amount. *)
Theorem asset_mul_price_exact (a : asset) (p : price) (from to : asset) :
  valid_price p → oriented p from to → symbol a = symbol from →
  i64_min < amount a ≤ i64_max →
  let q := Z.quot (amount a * amount to) (amount from) in
  (Z.abs q ≤ i64_max → asset_mul_price a p = Ok (Asset q (symbol to))) ∧
  (u64_max < Z.abs q → is_ok (asset_mul_price a p) = false) ∧
  (i64_max < q ≤ u64_max → asset_mul_price a p = Ok (Asset (q - 2 ^ 64) (symbol to))).
Proof.
  intros Hp Ho Hs Ha q.
  destruct (oriented_valid p from to Hp Ho) as (Hf & Ht & _).
  rewrite (asset_mul_price_eq a p from to) by done.
  rewrite <- abs_quot_div by lia. fold q. split_and!.
  - intros Hq. rewrite signed_result_small by lia. cbn [mbind result_bind].
    do 2 f_equal. unfold q. destruct (Z.ltb_spec (amount a) 0).
    + pose proof (Z.quot_opp_l (- amount a * amount to) (amount from)).
      pose proof (Z.quot_pos (- amount a * amount to) (amount from)).
      replace (- (- amount a * amount to)) with (amount a * amount to) in * by lia. nia.
    + pose proof (Z.quot_pos (amount a * amount to) (amount from)). nia.
  - intros Hq. rewrite bind_is_ok.
    pose proof (signed_result_big (amount a <? 0) (Z.abs q) Hq) as Hb.
    by destruct (signed_result _ _).
  - intros Hq. assert (0 ≤ amount a) as Hpos.
    { destruct (decide (0 ≤ amount a)); [done|exfalso].
      pose proof (Z.quot_opp_l (- amount a * amount to) (amount from)).
      pose proof (Z.quot_pos (- amount a * amount to) (amount from)).
      replace (- (- amount a * amount to)) with (amount a * amount to) in * by lia.
      unfold q, i64_max in *. nia. }
    replace (amount a <? 0) with false by (symmetry; bool_to_prop; lia).
    rewrite Z.abs_eq by (unfold i64_max in *; lia).
    by rewrite signed_result_wrap.
Qed.

Lemma asset_mul_price_exact_witness :
  asset_mul_price (Asset 1000 HBD_SYMBOL) (Price (Asset 3 HBD_SYMBOL) (Asset 10 HIVE_SYMBOL))
    = Ok (Asset 3333 HIVE_SYMBOL) ∧
  asset_mul_price (Asset i64_max HBD_SYMBOL) (Price (Asset 1 HBD_SYMBOL) (Asset 2 HIVE_SYMBOL))
    = Ok (Asset (-2) HIVE_SYMBOL).
Proof.
  split.
  - apply (asset_mul_price_exact (Asset 1000 HBD_SYMBOL)
      (Price (Asset 3 HBD_SYMBOL) (Asset 10 HIVE_SYMBOL)) (Asset 3 HBD_SYMBOL) (Asset 10 HIVE_SYMBOL)).
    + split; cbn; unfold i64_max; [lia|lia|done].
    + exact (oriented_base (Price (Asset 3 HBD_SYMBOL) (Asset 10 HIVE_SYMBOL))).
    + reflexivity.
    + cbn; unfold i64_min, i64_max; lia.
    + by vm_compute.
  - apply (asset_mul_price_exact (Asset i64_max HBD_SYMBOL)
      (Price (Asset 1 HBD_SYMBOL) (Asset 2 HIVE_SYMBOL)) (Asset 1 HBD_SYMBOL) (Asset 2 HIVE_SYMBOL)).
    + split; cbn; unfold i64_max; [lia|lia|done].
    + exact (oriented_base (Price (Asset 1 HBD_SYMBOL) (Asset 2 HIVE_SYMBOL))).
    + reflexivity.
    + cbn; unfold i64_min, i64_max; lia.
    + by vm_compute.
Defined.

(** Conversion of a non-negative amount that does not leave the positive range. *)
Lemma asset_mul_price_nonneg a p from to :
  valid_price p → oriented p from to → symbol a = symbol from →
  0 ≤ amount a ≤ i64_max → amount a * amount to / amount from ≤ i64_max →
  asset_mul_price a p = Ok (Asset (amount a * amount to / amount from) (symbol to)).
Proof.
  intros Hp Ho Hs Ha Hr.
  destruct (oriented_valid p from to Hp Ho) as (Hf & Ht & _).
  rewrite (asset_mul_price_eq a p from to) by (done || unfold i64_min, i64_max in *; lia).
  rewrite Z.abs_eq by lia.
  assert (0 ≤ amount a * amount to / amount from) by (apply Z.div_pos; nia).
  replace (amount a <? 0) with false by (symmetry; bool_to_prop; lia).
  by rewrite signed_result_small.
Qed.

Lemma asset_mul_price_nonneg_inv a b p from to :
  valid_price p → oriented p from to → symbol a = symbol from →
  0 ≤ amount a ≤ i64_max → asset_mul_price a p = Ok b → 0 ≤ amount b →
  amount a * amount to / amount from ≤ i64_max.
Proof.
  intros Hp Ho Hs Ha Hb Hpos.
  rewrite (asset_mul_price_eq a p from to) in Hb
    by (done || unfold i64_min, i64_max in *; lia).
  rewrite Z.abs_eq in Hb by lia.
  replace (amount a <? 0) with false in Hb by (symmetry; bool_to_prop; lia).
  set (r := amount a * amount to / amount from) in *.
  destruct (decide (r ≤ i64_max)) as [|Hbig]; [done|exfalso].
  apply bind_Ok in Hb as (v & Hv & [= <-]). cbn [amount] in Hpos.
  destruct (decide (r ≤ u64_max)) as [Hu|Hu].
  - rewrite signed_result_wrap in Hv by lia. injection Hv as <-.
    unfold u64_max in Hu. lia.
  - pose proof (signed_result_big false r ltac:(lia)) as Hx. by rewrite Hv in Hx.
Qed.

(** Multiplying by [t/f] and then by [f/t], rounding down each time. *)
Lemma div_there_and_back x f t :
  0 ≤ x → 0 < f → 0 < t →
  x * t / f * f / t ≤ x ∧ (x - x * t / f * f / t) * t < f + t.
Proof.
  intros Hx Hf Ht.
  pose proof (div_bracket (x * t) f Hf) as H1.
  pose proof (div_bracket (x * t / f * f) t Ht) as H2.
  set (r := x * t / f) in *. set (c := r * f / t) in *. nia.
Qed.

(** The same loss in units of [x]. *)
Lemma loss_units n f t : 0 < t → n * t < f + t → n ≤ f / t + 1.
Proof. intros Ht Hn. pose proof (div_bracket f t Ht). set (k := f / t) in *. nia. Qed.

(** C7. Converting back and forth never creates value: if a non-negative asset
    converts to [b] at a valid price without leaving the positive 64-bit range,
    converting [b] back at the same price succeeds, gives the original symbol and
    never more than the original amount.  What is lost is worth, at that price, less
    than one unit of the asset in between and one unit of the original asset
    together, so it is at most the value of one unit in between, rounded down, and
    one more unit. *)
Theorem price_conversion_no_gain (a b : asset) (p : price) (from to : asset) :
  valid_price p → oriented p from to → symbol a = symbol from →
  0 ≤ amount a ≤ i64_max →
  asset_mul_price a p = Ok b → 0 ≤ amount b →
  ∃ c, asset_mul_price b p = Ok c ∧ symbol c = symbol a ∧ amount c ≤ amount a ∧
    (amount a - amount c) * amount to < amount from + amount to ∧
    amount a - amount c ≤ amount from / amount to + 1.
Proof.
  intros Hp Ho Hs Ha Hb Hpos.
  destruct (oriented_valid p from to Hp Ho) as (Hf & Ht & _).
  pose proof (asset_mul_price_nonneg_inv a b p from to Hp Ho Hs Ha Hb Hpos) as Hr.
  rewrite (asset_mul_price_nonneg a p from to) in Hb by done. injection Hb as <-.
  cbn [amount] in Hpos. set (r := amount a * amount to / amount from) in *.
  destruct (div_there_and_back (amount a) (amount from) (amount to)) as [Hle Hloss]; [lia..|].
  fold r in Hle, Hloss. exists (Asset (r * amount from / amount to) (symbol from)).
  assert (0 ≤ r * amount from / amount to) by (apply Z.div_pos; nia).
  split; [|cbn [amount]; split_and!; [done..|apply loss_units; lia] ].
  apply (asset_mul_price_nonneg (Asset r (symbol to)) p to from);
    [done|by apply oriented_sym|done|done|cbn [amount]; lia].
Qed.

Lemma price_conversion_no_gain_witness :
  ∃ c, asset_mul_price (Asset 3333 HIVE_SYMBOL)
         (Price (Asset 3 HBD_SYMBOL) (Asset 10 HIVE_SYMBOL)) = Ok c
    ∧ symbol c = HBD_SYMBOL ∧ amount c ≤ 1000 ∧ (1000 - amount c) * 10 < 3 + 10
    ∧ 1000 - amount c ≤ 3 / 10 + 1.
Proof.
  apply (price_conversion_no_gain (Asset 1000 HBD_SYMBOL) (Asset 3333 HIVE_SYMBOL)
    (Price (Asset 3 HBD_SYMBOL) (Asset 10 HIVE_SYMBOL)) (Asset 3 HBD_SYMBOL) (Asset 10 HIVE_SYMBOL)).
  - split; cbn; unfold i64_max; [lia|lia|done].
  - exact (oriented_base (Price (Asset 3 HBD_SYMBOL) (Asset 10 HIVE_SYMBOL))).
  - reflexivity.
  - cbn; unfold i64_max; lia.
  - by vm_compute.
  - cbn; lia.
Defined.

(** *** The order of prices *)

Lemma tie_eqb_spec x y : tie_eqb x y = true ↔ x = y.
Proof.
  destruct x as [x1 x2], y as [y1 y2]. unfold tie_eqb; simpl. bool_to_prop.
  split; [by intros [-> ->]|by intros [= -> ->]].
Qed.

Lemma tie_ltb_spec x y :
  tie_ltb x y = true ↔ x.1 < y.1 ∨ x.1 = y.1 ∧ x.2 < y.2.
Proof. unfold tie_ltb. bool_to_prop. lia. Qed.

(** The cross product that compares two prices of the same market. *)
Definition cross (a b : price) : Z := amount (quote b) * amount (base a).

Lemma price_compare_valid op_sym op a b :
  valid_price a → valid_price b →
  price_compare op_sym op a b =
    if tie_eqb (BQ a) (BQ b) then op (cross a b) (cross b a) else op_sym (BQ a) (BQ b).
Proof.
  intros [Ha1 Ha2 _] [Hb1 Hb2 _]. unfold price_compare, cross.
  rewrite !u128_mul_small by lia. by destruct (tie_eqb _ _).
Qed.

Lemma price_ltb_spec a b :
  valid_price a → valid_price b →
  price_ltb a b = true ↔
  tie_ltb (BQ a) (BQ b) = true ∨ BQ a = BQ b ∧ cross a b < cross b a.
Proof.
  intros Ha Hb. unfold price_ltb. rewrite price_compare_valid by done.
  destruct (tie_eqb (BQ a) (BQ b)) eqn:E.
  - apply tie_eqb_spec in E. rewrite E, tie_ltb_spec. bool_to_prop. naive_solver lia.
  - split; [by left|]. intros [?|[E' _]]; [done|]. apply tie_eqb_spec in E'. congruence.
Qed.

Lemma price_eqb_spec a b :
  valid_price a → valid_price b →
  price_eqb a b = true ↔ BQ a = BQ b ∧ cross a b = cross b a.
Proof.
  intros Ha Hb. unfold price_eqb. rewrite price_compare_valid by done.
  destruct (tie_eqb (BQ a) (BQ b)) eqn:E.
  - apply tie_eqb_spec in E. rewrite Z.eqb_eq. split; [done|by intros [_ ?] ].
  - split; [done|]. intros [E' _]. apply tie_eqb_spec in E'. congruence.
Qed.

Lemma cross_trans a b c :
  valid_price a → valid_price b → valid_price c →
  cross a b < cross b a → cross b c ≤ cross c b → cross a c < cross c a.
Proof. intros [] [] []. unfold cross. nia. Qed.

Lemma cross_trans_le a b c :
  valid_price a → valid_price b → valid_price c →
  cross a b ≤ cross b a → cross b c < cross c b → cross a c < cross c a.
Proof. intros [] [] []. unfold cross. nia. Qed.

Lemma cross_trans_eq a b c :
  valid_price a → valid_price b → valid_price c →
  cross a b = cross b a → cross b c = cross c b → cross a c = cross c a.
Proof. intros [] [] []. unfold cross. nia. Qed.

Lemma tie_eqb_sym x y : tie_eqb x y = tie_eqb y x.
Proof. apply eq_true_iff_eq. rewrite !tie_eqb_spec. naive_solver. Qed.

Lemma price_trichotomy a b :
  valid_price a → valid_price b →
  price_ltb a b = true ∧ price_eqb a b = false ∧ price_ltb b a = false ∨
  price_ltb a b = false ∧ price_eqb a b = true ∧ price_ltb b a = false ∨
  price_ltb a b = false ∧ price_eqb a b = false ∧ price_ltb b a = true.
Proof.
  intros Ha Hb. rewrite <- !not_true_iff_false.
  rewrite price_ltb_spec, price_eqb_spec, price_ltb_spec by done.
  rewrite !tie_ltb_spec. destruct (BQ a) as [x1 x2], (BQ b) as [y1 y2]; simpl.
  destruct (Z.lt_trichotomy x1 y1) as [?|[->|?]]; [naive_solver lia| |naive_solver lia].
  destruct (Z.lt_trichotomy x2 y2) as [?|[->|?]]; [naive_solver lia| |naive_solver lia].
  destruct (Z.lt_trichotomy (cross a b) (cross b a)) as [?|[?|?]]; naive_solver lia.
Qed.

Lemma price_ltb_trans a b c :
  valid_price a → valid_price b → valid_price c →
  price_ltb a b = true → price_ltb b c = true → price_ltb a c = true.
Proof.
  intros Ha Hb Hc. rewrite !price_ltb_spec, !tie_ltb_spec by done.
  intros [Hab|[Hab Hcab]] [Hbc|[Hbc Hcbc]].
  - left. lia.
  - left. by rewrite <- Hbc.
  - left. by rewrite Hab.
  - right. split; [congruence|]. apply (cross_trans a b c); [done..|lia].
Qed.

Lemma price_eqb_ltb a b c :
  valid_price a → valid_price b → valid_price c →
  price_eqb a b = true → price_ltb a c = price_ltb b c.
Proof.
  intros Ha Hb Hc. rewrite price_eqb_spec by done. intros [Hab Hx].
  apply eq_true_iff_eq. rewrite !price_ltb_spec by done. rewrite Hab.
  split; (intros [?|[? Hl]]; [by left|right]; split; [done|]).
  - apply (cross_trans_le b a c); [done..|lia|done].
  - apply (cross_trans_le a b c); [done..|lia|done].
Qed.

Lemma price_derived_ops a b :
  valid_price a → valid_price b →
  price_leb a b = negb (price_ltb b a) ∧ price_gtb a b = price_ltb b a ∧
  price_geb a b = negb (price_ltb a b) ∧ price_neb a b = negb (price_eqb a b).
Proof.
  intros Ha Hb. unfold price_leb, price_gtb, price_geb, price_neb, price_ltb, price_eqb.
  rewrite !price_compare_valid, (tie_eqb_sym (BQ b) (BQ a)) by done.
  destruct (tie_eqb (BQ a) (BQ b)); split_and!; lia || done.
Qed.

(** Valid prices are totally ordered by ratio within a market and by symbols
    across markets, so they can key an ordered index: of [a < b], [a == b] and
    [b < a] exactly one holds, [<] and [==] are transitive, equal prices are
    interchangeable on the left of [<], and the other operators are the usual
    combinations of these two. *)
Theorem price_total_order (a b c : price) :
  valid_price a → valid_price b → valid_price c →
  (price_ltb a b = true ∧ price_eqb a b = false ∧ price_ltb b a = false ∨
   price_ltb a b = false ∧ price_eqb a b = true ∧ price_ltb b a = false ∨
   price_ltb a b = false ∧ price_eqb a b = false ∧ price_ltb b a = true) ∧
  (price_ltb a b = true → price_ltb b c = true → price_ltb a c = true) ∧
  (price_eqb a b = true → price_eqb b c = true → price_eqb a c = true) ∧
  (price_eqb a b = true → price_ltb a c = price_ltb b c) ∧
  price_leb a b = negb (price_ltb b a) ∧ price_gtb a b = price_ltb b a ∧
  price_geb a b = negb (price_ltb a b) ∧ price_neb a b = negb (price_eqb a b).
Proof.
  intros Ha Hb Hc. split; [by apply price_trichotomy|].
  split; [by apply price_ltb_trans|]. split.
  { rewrite !price_eqb_spec by done. intros [Hab Hx] [Hbc Hy].
    split; [congruence|]. by apply (cross_trans_eq a b c). }
  split; [by apply price_eqb_ltb|by apply price_derived_ops].
Qed.

Lemma price_total_order_witness :
  price_ltb (Price (Asset 1 HBD_SYMBOL) (Asset 3 HIVE_SYMBOL))
            (Price (Asset 3 HBD_SYMBOL) (Asset 4 HIVE_SYMBOL)) = true.
Proof.
  apply (price_total_order (Price (Asset 1 HBD_SYMBOL) (Asset 3 HIVE_SYMBOL))
    (Price (Asset 1 HBD_SYMBOL) (Asset 2 HIVE_SYMBOL))
    (Price (Asset 3 HBD_SYMBOL) (Asset 4 HIVE_SYMBOL)));
    [split; cbn; unfold i64_max; [lia|lia|done]..|by vm_compute|by vm_compute].
Defined.

(** *** Conversion with a fee *)

(** The scale a fee puts on one side of the price. *)
Definition fee_scale (fee : Z) (fee_on side : asset_symbol_type) : Z :=
  if symbol_eqb fee_on side then HIVE_100_PERCENT + fee else HIVE_100_PERCENT.

Lemma fee_scale_bound fee fee_on side :
  0 ≤ fee →
  HIVE_100_PERCENT ≤ fee_scale fee fee_on side ≤ HIVE_100_PERCENT + fee.
Proof. unfold fee_scale. destruct (symbol_eqb _ _); lia. Qed.

Lemma symbol_eqb_refl s : symbol_eqb s s = true.
Proof. by apply symbol_eqb_spec. Qed.

Lemma symbol_eqb_ne s t : s ≠ t → symbol_eqb s t = false.
Proof. intros H. apply not_true_iff_false. by rewrite symbol_eqb_spec. Qed.

Lemma multiply_with_fee_nonneg a p from to fee fee_on :
  valid_price p → oriented p from to → symbol a = symbol from →
  0 ≤ amount a ≤ i64_max → 0 ≤ fee → HIVE_100_PERCENT + fee ≤ u16_max →
  amount a * amount to * (HIVE_100_PERCENT + fee) ≤ u128_max →
  fee_on = symbol from ∨ fee_on = symbol to →
  let r := amount a * amount to * fee_scale fee fee_on (symbol to)
           / (amount from * fee_scale fee fee_on (symbol from)) in
  r ≤ i64_max → multiply_with_fee a p fee fee_on = Ok (Asset r (symbol to)).
Proof.
  intros Hp Ho Hs Ha Hfee Hsc Hmul Hon r Hr.
  destruct (oriented_valid p from to Hp Ho) as (Hf & Ht & Hne).
  assert (u16 (HIVE_100_PERCENT + fee) = HIVE_100_PERCENT + fee) as Hu16
    by (apply u16_id; unfold HIVE_100_PERCENT in *; lia).
  pose proof (fee_scale_bound fee fee_on (symbol from) Hfee) as Hsf.
  pose proof (fee_scale_bound fee fee_on (symbol to) Hfee) as Hst.
  assert (0 ≤ r) as Hr0 by (apply Z.div_pos; unfold HIVE_100_PERCENT in *; nia).
  assert (udiv
    (u128 (u128 (amount a * u128 (amount to)) * fee_scale fee fee_on (symbol to)))
    (u128 (u128 (amount from) * fee_scale fee fee_on (symbol from))) = Ok r) as Hd.
  { rewrite (u128_id (amount to)), (u128_id (amount from))
      by (unfold i64_max, u128_max in *; lia).
    assert (0 ≤ amount a * amount to) by nia.
    set (m := amount a * amount to) in *. set (st := fee_scale fee fee_on (symbol to)) in *.
    set (sf := fee_scale fee fee_on (symbol from)) in *.
    assert (0 < amount from * sf ≤ i64_max * u16_max) by (unfold HIVE_100_PERCENT in *; nia).
    rewrite (u128_id m), (u128_id (m * st)), (u128_id (amount from * sf))
      by (unfold i64_max, u16_max, HIVE_100_PERCENT, u128_max in *; nia).
    unfold udiv. by replace (_ =? 0) with false by (symmetry; bool_to_prop; nia). }
  unfold multiply_with_fee. rewrite magnitude_Ok
    by (unfold i64_min, i64_max in *; lia).
  rewrite Z.abs_eq, Hu16 by lia. cbn [mbind result_bind].
  replace (amount a <? 0) with false by (symmetry; bool_to_prop; lia).
  pose proof (signed_result_small false r ltac:(lia)) as Hsr.
  unfold fee_scale in *. destruct Ho.
  all: destruct Hon as [-> | ->]; rewrite ?Hs in *.
  all: rewrite ?symbol_eqb_refl, ?(symbol_eqb_ne _ _ Hne), ?(symbol_eqb_ne _ _ (not_eq_sym Hne)) in *.
  all: cbn [fc_assert mbind result_bind]; by rewrite Hd; cbn [mbind result_bind]; rewrite Hsr.
Qed.

(** Scaling a quotient by a factor that is larger above than below the line. *)
Lemma div_scale_le x y s t :
  0 ≤ x → 0 < y → 0 < s ≤ t → x * s / (y * t) ≤ x / y ≤ x * t / (y * s).
Proof.
  intros Hx Hy Hs. split.
  - rewrite <- (Z.div_mul_cancel_r x y t) by lia. apply Z.div_le_mono; nia.
  - rewrite <- (Z.div_mul_cancel_r x y s) by lia. apply Z.div_le_mono; nia.
Qed.

(** A conversion with a fee: put on the symbol converted to, the fee multiplies
    the result by [(10000 + fee) / 10000]; put on the symbol converted from, it
    divides it by the same ratio. So the first never gives less and the second never
    gives more than the plain conversion, a zero fee is the plain conversion, and a
    fee in a symbol outside the price throws. The hypotheses say that the 16-bit
    scale, the 128-bit product and the 64-bit result do not overflow. *)
Theorem multiply_with_fee_spec (a : asset) (p : price) (from to : asset) (fee : Z) :
  valid_price p → oriented p from to → symbol a = symbol from →
  0 ≤ amount a ≤ i64_max → 0 ≤ fee → HIVE_100_PERCENT + fee ≤ u16_max →
  amount a * amount to * (HIVE_100_PERCENT + fee) ≤ u128_max →
  let m := amount a * amount to in
  let up := m * (HIVE_100_PERCENT + fee) / (amount from * HIVE_100_PERCENT) in
  let down := m * HIVE_100_PERCENT / (amount from * (HIVE_100_PERCENT + fee)) in
  up ≤ i64_max →
  multiply_with_fee a p fee (symbol to) = Ok (Asset up (symbol to)) ∧
  multiply_with_fee a p fee (symbol from) = Ok (Asset down (symbol to)) ∧
  (∃ b, asset_mul_price a p = Ok b ∧ down ≤ amount b ≤ up) ∧
  multiply_with_fee a p 0 (symbol to) = asset_mul_price a p ∧
  (∀ s, s ≠ symbol from → s ≠ symbol to → is_ok (multiply_with_fee a p fee s) = false).
Proof.
  intros Hp Ho Hs Ha Hfee Hsc Hmul m up down Hup.
  destruct (oriented_valid p from to Hp Ho) as (Hf & Ht & Hne).
  assert (0 ≤ m) as Hm by (unfold m; nia).
  destruct (div_scale_le m (amount from) HIVE_100_PERCENT (HIVE_100_PERCENT + fee))
    as [Hdn Hpl]; [done|lia|unfold HIVE_100_PERCENT; lia|].
  fold up down in Hdn, Hpl.
  assert (m / amount from ≤ i64_max) as Hplain by lia.
  rewrite (asset_mul_price_nonneg a p from to) by done. fold m.
  split_and!.
  - rewrite (multiply_with_fee_nonneg a p from to) by
      (auto || by unfold fee_scale; rewrite symbol_eqb_refl, (symbol_eqb_ne (symbol to)) by done).
    unfold fee_scale. by rewrite symbol_eqb_refl, (symbol_eqb_ne (symbol to)) by done.
  - assert (down ≤ i64_max) by lia. rewrite (multiply_with_fee_nonneg a p from to) by
      (auto || by unfold fee_scale; rewrite symbol_eqb_refl, (symbol_eqb_ne (symbol from)) by done).
    unfold fee_scale. by rewrite symbol_eqb_refl, (symbol_eqb_ne (symbol from)) by done.
  - eexists. split; [done|]. cbn [amount]. lia.
  - assert (∀ s t, fee_scale 0 s t = HIVE_100_PERCENT) as Hz
      by (intros; unfold fee_scale; destruct (symbol_eqb _ _); lia).
    assert (m * HIVE_100_PERCENT / (amount from * HIVE_100_PERCENT) = m / amount from) as Hc
      by (apply Z.div_mul_cancel_r; unfold HIVE_100_PERCENT; lia).
    rewrite (multiply_with_fee_nonneg a p from to); rewrite ?Hz; fold m; rewrite ?Hc; auto;
      unfold HIVE_100_PERCENT, u16_max, m in *; nia.
  - intros s Hs1 Hs2. unfold multiply_with_fee.
    rewrite magnitude_Ok by (unfold i64_min, i64_max in *; lia). cbn [mbind result_bind].
    destruct Ho; by rewrite (symbol_eqb_ne _ _ Hs1), (symbol_eqb_ne _ _ Hs2).
Qed.

Lemma multiply_with_fee_spec_witness :
  multiply_with_fee (Asset 1000 HBD_SYMBOL)
    (Price (Asset 3 HBD_SYMBOL) (Asset 10 HIVE_SYMBOL)) 500 HIVE_SYMBOL
  = Ok (Asset 3500 HIVE_SYMBOL).
Proof.
  apply (multiply_with_fee_spec (Asset 1000 HBD_SYMBOL)
    (Price (Asset 3 HBD_SYMBOL) (Asset 10 HIVE_SYMBOL))
    (Asset 3 HBD_SYMBOL) (Asset 10 HIVE_SYMBOL) 500);
    [split; cbn; unfold i64_max; [lia|lia|done]
    |exact (oriented_base (Price (Asset 3 HBD_SYMBOL) (Asset 10 HIVE_SYMBOL)))|done|..];
    by vm_compute.
Defined.
