(* ===== verification/Chainbase.v ===== *)
(** * The object store and its undo log

    [src/libraries/chainbase/include/chainbase/chainbase.hpp]: [undo_state],
    [generic_index] (create, modify and remove objects; start, undo, squash and
    commit a session) and [src/libraries/chainbase/src/chainbase.cpp]: the
    operations of [database] that run over all its indexes.

    The container that holds the objects is a [boost::multi_index_container], a
    template parameter of [generic_index]: it is the interface [MultiIndex] here,
    with its documented behaviour as laws, and an instance on finite maps.

    [snapshot_index] is the promise of the component: a session saves the whole
    state and undo restores it.  [step_simulates] shows that the undo log, which
    saves only what changed, keeps that promise as long as no object takes a unique
    key that another one gave up in an open session. *)

From S2P Require Import Prelude.

(** ** Interfaces *)

(** What [generic_index] uses of its [value_type]: the id, the size of its dynamic
    allocations if the class has any, and [conflict v w], that two objects agree on
    a unique secondary key of the index. *)
Class ChainObject (V : Type) : Type := {
  get_id : V → Z;
  has_dynamic_alloc : bool;
  get_dynamic_alloc : V → Z;
  conflict : V → V → bool;
}.

(** A new value fits beside the others: its id and its unique keys are free. *)
Definition insertable `{ChainObject V} (m : gmap Z V) (v : V) : bool :=
  bool_decide (m !! get_id v = None) &&
  forallb (λ p, negb (conflict v p.2)) (map_to_list m).

(** The operations of the container, and what the documentation of Boost says of
    them: [emplace] does nothing when a key is taken; [modify] erases the element
    when its new value collides with another one. *)
Class MultiIndexOps (V C : Type) : Type := {
  contents : C → gmap Z V;
  mi_find : C → Z → option V;
  mi_emplace : V → C → C * bool;
  mi_modify : Z → V → C → C * bool;
  mi_erase : Z → C → C;
}.

Class MultiIndex (V C : Type) `{ChainObject V} `{!MultiIndexOps V C} : Prop := {
  mi_find_spec c i : mi_find c i = contents c !! i;
  mi_emplace_spec c v :
    contents (mi_emplace v c).1 =
      (if insertable (contents c) v then <[get_id v := v]> (contents c) else contents c) ∧
    (mi_emplace v c).2 = insertable (contents c) v;
  mi_modify_spec c i v w :
    contents c !! i = Some v → get_id w = i →
    contents (mi_modify i w c).1 =
      (if insertable (delete i (contents c)) w
       then <[i := w]> (contents c) else delete i (contents c)) ∧
    (mi_modify i w c).2 = insertable (delete i (contents c)) w;
  mi_erase_spec c i : contents (mi_erase i c) = delete i (contents c);
}.

(** ** The undo log *)

Record undo_state (V : Type) : Type := UndoState {
  old_values : gmap Z V;
  removed_values : gmap Z V;
  new_ids : gset Z;
  old_next_id : Z;
  us_revision : Z;
}.
Arguments UndoState {V} _ _ _ _ _.
Arguments old_values {V} _.
Arguments removed_values {V} _.
Arguments new_ids {V} _.
Arguments old_next_id {V} _.
Arguments us_revision {V} _.

(** [_stack] has the most recent session first. *)
Record generic_index (V C : Type) : Type := GenericIndex {
  _stack : list (undo_state V);
  _revision : Z;
  _item_additional_allocation : Z;
  _next_id : Z;
  _indices : C;
}.
Arguments GenericIndex {V C} _ _ _ _ _.
Arguments _stack {V C} _.
Arguments _revision {V C} _.
Arguments _item_additional_allocation {V C} _.
Arguments _next_id {V C} _.
Arguments _indices {V C} _.

(** [map::emplace] keeps an entry that is already there. *)
Definition map_emplace {V} (k : Z) (v : V) (m : gmap Z V) : gmap Z V :=
  match m !! k with Some _ => m | None => <[k := v]> m end.

Section generic_index.
Context {V C : Type} `{ChainObject V} `{!MultiIndexOps V C}.
Abbreviation idx := (generic_index V C).
Abbreviation idxM := (stM (generic_index V C)).

Definition set_stack (s : list (undo_state V)) (x : idx) : idx :=
  GenericIndex s (_revision x) (_item_additional_allocation x) (_next_id x) (_indices x).
Definition set_revision_field (r : Z) (x : idx) : idx :=
  GenericIndex (_stack x) r (_item_additional_allocation x) (_next_id x) (_indices x).
Definition add_alloc (d : Z) (x : idx) : idx :=
  GenericIndex (_stack x) (_revision x)
    (if has_dynamic_alloc then u64 (_item_additional_allocation x + d)
     else _item_additional_allocation x) (_next_id x) (_indices x).
Definition set_next_id (n : Z) (x : idx) : idx :=
  GenericIndex (_stack x) (_revision x) (_item_additional_allocation x) n (_indices x).
Definition set_indices (c : C) (x : idx) : idx :=
  GenericIndex (_stack x) (_revision x) (_item_additional_allocation x) (_next_id x) c.

Definition enabled (x : idx) : bool :=
  match _stack x with [] => false | _ => true end.

Definition on_modify_state (v : V) (head : undo_state V) : undo_state V :=
  if decide (get_id v ∈ new_ids head) then head
  else match old_values head !! get_id v with
  | Some _ => head
  | None => UndoState (map_emplace (get_id v) v (old_values head)) (removed_values head)
              (new_ids head) (old_next_id head) (us_revision head)
  end.

Definition on_remove_state (v : V) (head : undo_state V) : undo_state V :=
  if decide (get_id v ∈ new_ids head) then
    UndoState (old_values head) (removed_values head) (new_ids head ∖ {[ get_id v ]})
      (old_next_id head) (us_revision head)
  else match old_values head !! get_id v with
  | Some o =>
      UndoState (delete (get_id v) (old_values head))
        (map_emplace (get_id v) o (removed_values head)) (new_ids head)
        (old_next_id head) (us_revision head)
  | None =>
      match removed_values head !! get_id v with
      | Some _ => head
      | None => UndoState (old_values head) (map_emplace (get_id v) v (removed_values head))
                  (new_ids head) (old_next_id head) (us_revision head)
      end
  end.

Definition on_create_state (v : V) (head : undo_state V) : undo_state V :=
  UndoState (old_values head) (removed_values head) ({[ get_id v ]} ∪ new_ids head)
    (old_next_id head) (us_revision head).

(** The three handlers return at once when no session is open. *)
Definition on_head (f : undo_state V → undo_state V) (x : idx) : idx :=
  match _stack x with
  | [] => x
  | head :: rest => set_stack (f head :: rest) x
  end.
Definition on_modify (v : V) : idx → idx := on_head (on_modify_state v).
Definition on_remove (v : V) : idx → idx := on_head (on_remove_state v).
Definition on_create (v : V) : idx → idx := on_head (on_create_state v).

(** [emplace]: [mk] is the constructor of the object, run on the new id. *)
Definition emplace (mk : Z → result V) : idxM V :=
  x ← st_get;
  v ← st_lift (mk (_next_id x));
  let '(c, inserted) := mi_emplace v (_indices x) in
  st_modify (set_indices c) ;;
  if negb inserted then st_throw logic_error_exception else
  st_modify (λ x, set_next_id (u32 (_next_id x + 1)) x) ;;
  st_modify (on_create v) ;;
  st_modify (add_alloc (get_dynamic_alloc v)) ;;
  mret v.

(** [modify]: the modifier leaves the object in some state and may throw; the
    exception is caught, the container is updated, and then it is thrown again.
    A reference to an object that is not in the container is dangling, and so is
    the one read for the new size after the container erased the element. *)
Definition modify (i : Z) (m : V → V * option exn) : idxM unit :=
  x ← st_get;
  match mi_find (_indices x) i with
  | None => st_throw undefined_behaviour
  | Some obj =>
      st_modify (on_modify obj) ;;
      let '(w, thrown) := m obj in
      let '(c, ok) := mi_modify i w (_indices x) in
      st_modify (set_indices c) ;;
      if negb ok && has_dynamic_alloc then st_throw undefined_behaviour else
      match thrown with
      | Some e => st_throw e
      | None =>
          if negb ok then st_throw logic_error_exception else
          st_modify (add_alloc (get_dynamic_alloc w - get_dynamic_alloc obj))
      end
  end.

Definition remove (i : Z) : idxM unit :=
  x ← st_get;
  match mi_find (_indices x) i with
  | None => st_throw undefined_behaviour
  | Some obj =>
      st_modify (on_remove obj) ;;
      st_modify (set_indices (mi_erase i (_indices x))) ;;
      st_modify (add_alloc (- get_dynamic_alloc obj))
  end.

Definition start_undo_session (x : idx) : idx :=
  let r := _revision x + 1 in
  set_stack (UndoState ∅ ∅ ∅ (_next_id x) r :: _stack x) (set_revision_field r x).

(** The three loops of [undo]. *)
Definition undo_old (item : Z * V) : idxM unit :=
  x ← st_get;
  let v := item.2 in
  match mi_find (_indices x) (get_id v) with
  | Some cur =>
      let '(c, ok) := mi_modify (get_id v) v (_indices x) in
      st_modify (set_indices c) ;;
      if negb ok then st_throw logic_error_exception else
      st_modify (add_alloc (get_dynamic_alloc v - get_dynamic_alloc cur))
  | None =>
      let '(c, ok) := mi_emplace v (_indices x) in
      st_modify (set_indices c) ;;
      if negb ok then st_throw logic_error_exception else
      st_modify (add_alloc (get_dynamic_alloc v))
  end.

Definition undo_new (i : Z) : idxM unit :=
  x ← st_get;
  match mi_find (_indices x) i with
  | None => st_throw logic_error_exception
  | Some cur =>
      st_modify (set_indices (mi_erase i (_indices x))) ;;
      st_modify (add_alloc (- get_dynamic_alloc cur))
  end.

Definition undo_removed (item : Z * V) : idxM unit :=
  x ← st_get;
  let '(c, ok) := mi_emplace item.2 (_indices x) in
  st_modify (set_indices c) ;;
  if negb ok then st_throw logic_error_exception else
  st_modify (add_alloc (get_dynamic_alloc item.2)).

Definition undo : idxM unit :=
  x ← st_get;
  match _stack x with
  | [] => mret tt
  | head :: rest =>
      st_for undo_old (items (old_values head)) ;;
      st_for undo_new (sorted_set (new_ids head)) ;;
      st_modify (set_next_id (old_next_id head)) ;;
      st_for undo_removed (items (removed_values head)) ;;
      st_modify (set_stack rest) ;;
      st_modify (λ x, set_revision_field (_revision x - 1) x)
  end.

(** The three loops of [squash]; the [assert]s are compiled out in a release. *)
Definition squash_old (prev : undo_state V) (item : Z * V) : undo_state V :=
  let v := item.2 in
  if decide (get_id v ∈ new_ids prev) then prev
  else match old_values prev !! get_id v with
  | Some _ => prev
  | None => UndoState (map_emplace item.1 v (old_values prev)) (removed_values prev)
              (new_ids prev) (old_next_id prev) (us_revision prev)
  end.

Definition squash_new (prev : undo_state V) (i : Z) : undo_state V :=
  UndoState (old_values prev) (removed_values prev) ({[ i ]} ∪ new_ids prev)
    (old_next_id prev) (us_revision prev).

Definition squash_removed (prev : undo_state V) (item : Z * V) : undo_state V :=
  let i := get_id item.2 in
  if decide (i ∈ new_ids prev) then
    UndoState (old_values prev) (removed_values prev) (new_ids prev ∖ {[ i ]})
      (old_next_id prev) (us_revision prev)
  else match old_values prev !! i with
  | Some o => UndoState (delete i (old_values prev)) (map_emplace i o (removed_values prev))
                (new_ids prev) (old_next_id prev) (us_revision prev)
  | None => UndoState (old_values prev) (map_emplace item.1 item.2 (removed_values prev))
              (new_ids prev) (old_next_id prev) (us_revision prev)
  end.

Definition squash_states (state prev : undo_state V) : undo_state V :=
  let prev := foldl squash_old prev (items (old_values state)) in
  let prev := foldl squash_new prev (sorted_set (new_ids state)) in
  foldl squash_removed prev (items (removed_values state)).

Definition squash (x : idx) : idx :=
  match _stack x with
  | [] => x
  | [_] => set_stack [] x
  | state :: prev :: rest =>
      set_revision_field (_revision x - 1) (set_stack (squash_states state prev :: rest) x)
  end.

(** The oldest session is the front of the deque, the end of the list. *)
Fixpoint pop_front_while (revision : Z) (l : list (undo_state V)) : list (undo_state V) :=
  match l with
  | [] => []
  | u :: l' => if us_revision u <=? revision then pop_front_while revision l' else l
  end.

Definition commit (revision : Z) (x : idx) : idx :=
  set_stack (reverse (pop_front_while revision (reverse (_stack x)))) x.

(** [while( enabled() ) undo();], with as many rounds as there are sessions. *)
Fixpoint undo_rounds (n : nat) : idxM unit :=
  match n with
  | O => mret tt
  | S n => x ← st_get; if enabled x then undo ;; undo_rounds n else mret tt
  end.
Definition undo_all : idxM unit := x ← st_get; undo_rounds (length (_stack x)).

Definition set_revision (revision : Z) : idxM unit :=
  x ← st_get;
  if bool_decide (_stack x = []) then st_modify (set_revision_field revision)
  else st_throw logic_error_exception.

End generic_index.

(** ** The abstract index: whole snapshots *)

Record snapshot (V : Type) : Type := Snapshot {
  snap_objects : gmap Z V;
  snap_next_id : Z;
  snap_revision : Z;
}.
Arguments Snapshot {V} _ _ _.
Arguments snap_objects {V} _.
Arguments snap_next_id {V} _.
Arguments snap_revision {V} _.

Record snapshot_index (V : Type) : Type := SnapshotIndex {
  s_objects : gmap Z V;
  s_next_id : Z;
  s_revision : Z;
  s_stack : list (snapshot V);
}.
Arguments SnapshotIndex {V} _ _ _ _.
Arguments s_objects {V} _.
Arguments s_next_id {V} _.
Arguments s_revision {V} _.
Arguments s_stack {V} _.

(** The calls a client makes. *)
Inductive index_op (V : Type) : Type :=
| op_emplace (mk : Z → result V)
| op_modify (i : Z) (m : V → V * option exn)
| op_remove (i : Z)
| op_start_undo_session
| op_undo
| op_squash
| op_commit (revision : Z)
| op_undo_all
| op_set_revision (revision : Z).
Arguments op_emplace {V} _.
Arguments op_modify {V} _ _.
Arguments op_remove {V} _.
Arguments op_start_undo_session {V}.
Arguments op_undo {V}.
Arguments op_squash {V}.
Arguments op_commit {V} _.
Arguments op_undo_all {V}.
Arguments op_set_revision {V} _.

Section snapshots.
Context {V : Type} `{ChainObject V}.

Fixpoint drop_committed (revision : Z) (l : list (snapshot V)) : list (snapshot V) :=
  match l with
  | [] => []
  | s :: l' => if snap_revision s <=? revision then drop_committed revision l' else l
  end.

Definition spec_step (o : index_op V) (s : snapshot_index V) : snapshot_index V * result unit :=
  let objs := s_objects s in
  match o with
  | op_emplace mk =>
      match mk (s_next_id s) with
      | Throw e => (s, Throw e)
      | Ok v =>
          if insertable objs v then
            (SnapshotIndex (<[s_next_id s := v]> objs) (s_next_id s + 1) (s_revision s) (s_stack s),
             Ok tt)
          else (s, Throw logic_error_exception)
      end
  | op_modify i m =>
      match objs !! i with
      | None => (s, Throw undefined_behaviour)
      | Some v =>
          (SnapshotIndex (<[i := (m v).1]> objs) (s_next_id s) (s_revision s) (s_stack s),
           match (m v).2 with Some e => Throw e | None => Ok tt end)
      end
  | op_remove i =>
      match objs !! i with
      | None => (s, Throw undefined_behaviour)
      | Some _ =>
          (SnapshotIndex (delete i objs) (s_next_id s) (s_revision s) (s_stack s), Ok tt)
      end
  | op_start_undo_session =>
      (SnapshotIndex objs (s_next_id s) (s_revision s + 1)
         (Snapshot objs (s_next_id s) (s_revision s + 1) :: s_stack s), Ok tt)
  | op_undo =>
      (match s_stack s with
       | [] => s
       | t :: rest =>
           SnapshotIndex (snap_objects t) (snap_next_id t) (s_revision s - 1) rest
       end, Ok tt)
  | op_squash =>
      (match s_stack s with
       | [] => s
       | [_] => SnapshotIndex objs (s_next_id s) (s_revision s) []
       | _ :: rest => SnapshotIndex objs (s_next_id s) (s_revision s - 1) rest
       end, Ok tt)
  | op_commit r =>
      (SnapshotIndex objs (s_next_id s) (s_revision s)
         (reverse (drop_committed r (reverse (s_stack s)))), Ok tt)
  | op_undo_all =>
      (match last (s_stack s) with
       | None => s
       | Some t => SnapshotIndex (snap_objects t) (snap_next_id t)
                     (s_revision s - Z.of_nat (length (s_stack s))) []
       end, Ok tt)
  | op_set_revision r =>
      match s_stack s with
      | [] => (SnapshotIndex objs (s_next_id s) r [], Ok tt)
      | _ => (s, Throw logic_error_exception)
      end
  end.

(** The unique keys of the value [v], for the object [i], are not those that
    another object still in the index had when an open session started. *)
Definition unclaimed (i : Z) (v : V) (s : snapshot_index V) : Prop :=
  ∀ t j w, t ∈ s_stack s → j ≠ i → snap_objects t !! j = Some w →
    is_Some (s_objects s !! j) → conflict v w = false.

(** What the client must respect: the 32-bit id counter does not overflow,
    constructors use the id they are given, modifiers keep the id and move the
    object to unique keys that are free, and a value that is created or modified
    takes no key that another object gave up in an open session. *)
Definition op_allowed (o : index_op V) (s : snapshot_index V) : Prop :=
  match o with
  | op_emplace mk =>
      s_next_id s < u32_max ∧
      ∀ v, mk (s_next_id s) = Ok v → get_id v = s_next_id s ∧
        (insertable (s_objects s) v = true → unclaimed (s_next_id s) v s)
  | op_modify i m =>
      ∀ v, s_objects s !! i = Some v → get_id (m v).1 = i ∧
        insertable (delete i (s_objects s)) (m v).1 = true ∧ unclaimed i (m v).1 s
  | _ => True
  end.

End snapshots.

Section concrete_steps.
Context {V C : Type} `{ChainObject V} `{!MultiIndexOps V C}.

Definition step (o : index_op V) : stM (generic_index V C) unit :=
  match o with
  | op_emplace mk => emplace mk ;; mret tt
  | op_modify i m => modify i m
  | op_remove i => remove i
  | op_start_undo_session => st_modify start_undo_session
  | op_undo => undo
  | op_squash => st_modify squash
  | op_commit r => st_modify (commit r)
  | op_undo_all => undo_all
  | op_set_revision r => set_revision r
  end.

End concrete_steps.

(** ** The simulation relation *)

Section refinement.
Context {V C : Type} `{MultiIndex V C}.
Context (conflict_sym : ∀ v w : V, conflict v w = conflict w v).
Abbreviation idx := (generic_index V C).

(** Ids are below the counter, objects sit under their own id, and no two objects
    share a unique key. *)
Record wf_map (m : gmap Z V) (n : Z) : Prop := {
  wf_next : 0 ≤ n;
  wf_id i v : m !! i = Some v → get_id v = i ∧ 0 ≤ i < n;
  wf_unique i j v w : i ≠ j → m !! i = Some v → m !! j = Some w → conflict v w = false;
}.

(** What a session has recorded of one id, from the object now and before: the
    rows and columns of the table in [squash]. *)
Inductive entry : option V → option V → bool → option V → option V → Prop :=
| entry_nop x : entry None None false x x
| entry_new y : entry None None true (Some y) None
| entry_upd x y : entry (Some x) None false (Some y) (Some x)
| entry_del x : entry None (Some x) false None (Some x).

Definition state_entry (u : undo_state V) (cur old : gmap Z V) (i : Z) : Prop :=
  entry (old_values u !! i) (removed_values u !! i) (bool_decide (i ∈ new_ids u))
    (cur !! i) (old !! i).

Record layer_ok (u : undo_state V) (cur : gmap Z V) (n : Z) (old : gmap Z V) (on : Z) : Prop := {
  layer_entry i : state_entry u cur old i;
  layer_next : on ≤ n;
  layer_new i : i ∈ new_ids u → on ≤ i;
}.

(** No object of [cur] has a unique key that another one had in [old] and could
    be asked to take back. *)
Definition separate (cur old : gmap Z V) : Prop :=
  ∀ j k w u, j ≠ k → old !! j = Some w → is_Some (cur !! j) → cur !! k = Some u →
    conflict u w = false.

Definition separate_all (cur : gmap Z V) (ss : list (snapshot V)) : Prop :=
  ∀ t, t ∈ ss → separate cur (snap_objects t).

Inductive layers : gmap Z V → Z → list (undo_state V) → list (snapshot V) → Prop :=
| layers_nil cur n : layers cur n [] []
| layers_cons u cur n old us ss :
    layer_ok u cur n old (old_next_id u) → wf_map old (old_next_id u) →
    separate_all cur (Snapshot old (old_next_id u) (us_revision u) :: ss) →
    layers old (old_next_id u) us ss →
    layers cur n (u :: us) (Snapshot old (old_next_id u) (us_revision u) :: ss).

Record refines (x : idx) (s : snapshot_index V) : Prop := {
  ref_objects : contents (_indices x) = s_objects s;
  ref_next : _next_id x = s_next_id s;
  ref_revision : _revision x = s_revision s;
  ref_wf : wf_map (s_objects s) (s_next_id s);
  ref_layers : layers (s_objects s) (s_next_id s) (_stack x) (s_stack s);
}.

Lemma insertable_spec (m : gmap Z V) v :
  insertable m v = true ↔
  m !! get_id v = None ∧ ∀ j u, m !! j = Some u → conflict v u = false.
Proof.
  unfold insertable. rewrite andb_true_iff, bool_decide_eq_true, forallb_forall.
  apply and_iff_compat_l. split.
  - intros Hall j u Hj. apply negb_true_iff. apply (Hall (j, u)).
    by apply list_elem_of_In, elem_of_map_to_list.
  - intros Hall [j u] Hj%list_elem_of_In%elem_of_map_to_list. apply negb_true_iff.
    by apply (Hall j).
Qed.

(** Replacing an object by one with the same id and free unique keys. *)
Lemma wf_map_update m n i v w :
  wf_map m n → m !! i = Some v → get_id w = i → insertable (delete i m) w = true →
  wf_map (<[i := w]> m) n.
Proof.
  intros [Hn Hid Hu] Hi Hw [_ Hc]%insertable_spec. split; [done|..].
  - intros j u [[<- <-]|[Hj Hju]]%lookup_insert_Some; [|by apply Hid].
    split; [done|by apply (Hid i v)].
  - intros j k a b Hjk [[<- <-]|[Hj Ha]]%lookup_insert_Some [[<- <-]|[Hk' Hb]]%lookup_insert_Some.
    + done.
    + apply (Hc k). by rewrite lookup_delete_ne.
    + rewrite conflict_sym. apply (Hc j). by rewrite lookup_delete_ne.
    + by apply (Hu j k).
Qed.

Lemma wf_map_delete m n i : wf_map m n → wf_map (delete i m) n.
Proof.
  intros [Hn Hid Hu]. split; [done|..].
  - intros j u [_ Hj]%lookup_delete_Some. by apply Hid.
  - intros j k a b Hjk [_ Ha]%lookup_delete_Some [_ Hb]%lookup_delete_Some. by apply (Hu j k).
Qed.

Lemma wf_map_insert m n v :
  wf_map m n → get_id v = n → insertable m v = true → wf_map (<[n := v]> m) (n + 1).
Proof.
  intros [Hn Hid Hu] Hv [Hfree Hc]%insertable_spec. split; [lia|..].
  - intros j u [[<- <-]|[Hj Hju]]%lookup_insert_Some; [split; [done|lia]|].
    destruct (Hid j u Hju). split; [done|lia].
  - intros j k a b Hjk [[<- <-]|[Hj Ha]]%lookup_insert_Some [[<- <-]|[Hk' Hb]]%lookup_insert_Some.
    + done.
    + by apply (Hc k).
    + rewrite conflict_sym. by apply (Hc j).
    + by apply (Hu j k).
Qed.

Lemma wf_free m n : wf_map m n → m !! n = None.
Proof.
  intros Hm. destruct (m !! n) as [v|] eqn:E; [|done].
  apply (wf_id _ _ Hm) in E. lia.
Qed.

(** *** Keys that the open sessions hold *)

Lemma separate_same m n : wf_map m n → separate m m.
Proof. intros [_ _ Hu] j k w u Hjk Hj _ Hk. by apply (Hu k j). Qed.

Lemma separate_insert cur old i v :
  separate cur old → (is_Some (cur !! i) ∨ old !! i = None) →
  (∀ j w, j ≠ i → old !! j = Some w → is_Some (cur !! j) → conflict v w = false) →
  separate (<[i := v]> cur) old.
Proof.
  intros Hs Hi Hv j k w u Hjk Hj Hcj [[<- <-]|[Hk Hku]]%lookup_insert_Some.
  - apply (Hv j); [done|done|]. by rewrite lookup_insert_ne in Hcj.
  - apply (Hs j k); [done|done| |done]. destruct (decide (j = i)) as [->|Hne].
    + destruct Hi; [done|congruence].
    + by rewrite lookup_insert_ne in Hcj.
Qed.

Lemma separate_delete cur old i : separate cur old → separate (delete i cur) old.
Proof.
  intros Hs j k w u Hjk Hj [x [_ Hx]%lookup_delete_Some] [_ Hk]%lookup_delete_Some.
  by apply (Hs j k).
Qed.

(** Every object of an older snapshot has an id below the counter. *)
Lemma layers_below cur n us ss t i v :
  layers cur n us ss → t ∈ ss → snap_objects t !! i = Some v → i < n.
Proof.
  induction 1 as [|u cur n old us ss Hok Hwf Hsep Hl IH]; intros Ht Hi; [by apply not_elem_of_nil in Ht|].
  pose proof (layer_next _ _ _ _ _ Hok). apply elem_of_cons in Ht as [->|Ht].
  - apply (wf_id _ _ Hwf) in Hi. lia.
  - specialize (IH Ht Hi). lia.
Qed.

Lemma layers_separate cur n us ss : layers cur n us ss → separate_all cur ss.
Proof. destruct 1; [|done]. by intros t Ht%not_elem_of_nil. Qed.

(** *** Recording a change in the open session *)

Lemma map_emplace_lookup (k : Z) (v : V) m i :
  map_emplace k v m !! i =
    if decide (i = k) then (match m !! k with Some o => Some o | None => Some v end) else m !! i.
Proof.
  unfold map_emplace. destruct (decide (i = k)) as [->|Hne].
  - destruct (m !! k) eqn:E; [done|by rewrite lookup_insert_eq].
  - destruct (m !! k); [done|by rewrite lookup_insert_ne].
Qed.

(** One step of a state that touches one id changes the entries at that id only. *)
Lemma layer_ok_local u u' cur cur' n n' old i :
  layer_ok u cur n old (old_next_id u) →
  old_next_id u' = old_next_id u → n ≤ n' →
  (∀ j, j ≠ i → old_values u' !! j = old_values u !! j ∧
     removed_values u' !! j = removed_values u !! j ∧
     (j ∈ new_ids u' ↔ j ∈ new_ids u) ∧ cur' !! j = cur !! j) →
  state_entry u' cur' old i → (i ∈ new_ids u' → old_next_id u ≤ i) →
  layer_ok u' cur' n' old (old_next_id u').
Proof.
  intros [He Hn Hnew] Hon Hle Hloc Hi Hni. rewrite Hon. split; [|lia|].
  - intros j. destruct (decide (j = i)) as [->|Hne]; [done|].
    destruct (Hloc j Hne) as (E1 & E2 & E3 & E4). pose proof (He j) as Hj.
    unfold state_entry in *. rewrite E1, E2, E4.
    by rewrite (bool_decide_ext _ _ E3).
  - intros j Hj. destruct (decide (j = i)) as [->|Hne]; [by apply Hni|].
    apply Hnew. by apply (Hloc j Hne).
Qed.

(** The four cases by their equations. *)
Lemma state_entry_cases u cur old i :
  state_entry u cur old i ↔
  (old_values u !! i = None ∧ removed_values u !! i = None ∧ (i ∉ new_ids u) ∧ cur !! i = old !! i) ∨
  (∃ y, old_values u !! i = None ∧ removed_values u !! i = None ∧ i ∈ new_ids u ∧
     cur !! i = Some y ∧ old !! i = None) ∨
  (∃ x y, old_values u !! i = Some x ∧ removed_values u !! i = None ∧ (i ∉ new_ids u) ∧
     cur !! i = Some y ∧ old !! i = Some x) ∨
  (∃ x, old_values u !! i = None ∧ removed_values u !! i = Some x ∧ (i ∉ new_ids u) ∧
     cur !! i = None ∧ old !! i = Some x).
Proof.
  unfold state_entry. split.
  - destruct (decide (i ∈ new_ids u)) as [Hin|Hin].
    + rewrite bool_decide_eq_true_2 by done. inversion 1; naive_solver.
    + rewrite bool_decide_eq_false_2 by done. inversion 1; naive_solver.
  - intros [(->&->&Hn&->)|[(y&->&->&Hn&->&->)|[(x&y&->&->&Hn&->&->)|(x&->&->&Hn&->&->)]]];
      ((rewrite bool_decide_eq_true_2 by done) || (rewrite bool_decide_eq_false_2 by done));
      by constructor.
Qed.

Ltac entry_cases He :=
  apply state_entry_cases in He
    as [(Eov & Erv & Enew & Ecur)
       |[(vnew & Eov & Erv & Enew & Ecur & Eold)
       |[(vold & vnew & Eov & Erv & Enew & Ecur & Eold)
       |(vold & Eov & Erv & Enew & Ecur & Eold)]]].

(** A change of the open session that only touches the id [i]. *)
Lemma layers_head_local (f : undo_state V → undo_state V) cur cur' n n' us ss i :
  layers cur n us ss → n ≤ n' →
  (∀ j, j ≠ i → cur' !! j = cur !! j) →
  (∀ u, old_next_id (f u) = old_next_id u ∧ us_revision (f u) = us_revision u) →
  (∀ u j, j ≠ i → old_values (f u) !! j = old_values u !! j ∧
     removed_values (f u) !! j = removed_values u !! j ∧
     (j ∈ new_ids (f u) ↔ j ∈ new_ids u)) →
  (∀ u old, layer_ok u cur n old (old_next_id u) → wf_map old (old_next_id u) →
     state_entry (f u) cur' old i ∧ (i ∈ new_ids (f u) → old_next_id u ≤ i)) →
  separate_all cur' ss →
  layers cur' n' (match us with [] => [] | u :: us' => f u :: us' end) ss.
Proof.
  intros Hl Hn Hcur Hf Hloc Hi Hsep'.
  destruct Hl as [|u cur n old us ss Hok Hwf Hsep Hl]; [constructor|].
  destruct (Hf u) as [Ho Hr], (Hi u old Hok Hwf) as [He Hnew].
  rewrite <- Hr, <- Ho. constructor; [|by rewrite ?Ho, ?Hr..].
  apply (layer_ok_local u _ cur _ n _ old i); [done|done|done| |done|done].
  intros j Hj. destruct (Hloc u j Hj) as (?&?&?). by rewrite Hcur.
Qed.

Lemma on_modify_layers cur n us ss i v w :
  layers cur n us ss → cur !! i = Some v → get_id v = i →
  separate_all (<[i := w]> cur) ss →
  layers (<[i := w]> cur) n
    (match us with [] => [] | u :: us' => on_modify_state v u :: us' end) ss.
Proof.
  intros Hl Hi Hv Hsep. unfold on_modify_state. rewrite Hv.
  apply (layers_head_local (λ u, _) cur _ n n us ss i); [done|lia|..|done].
  - intros j Hj. by rewrite lookup_insert_ne.
  - intros u. by repeat case_match.
  - intros u j Hj. repeat case_match; simpl; rewrite ?map_emplace_lookup, ?decide_False by done; done.
  - intros u old Hok Hwf. pose proof (layer_entry _ _ _ _ _ Hok i) as He.
    pose proof (layer_new _ _ _ _ _ Hok i). split; [|by repeat case_match].
    apply state_entry_cases. rewrite lookup_insert_eq. entry_cases He.
    + rewrite decide_False, Eov by done. simpl.
      rewrite map_emplace_lookup, decide_True, Eov by done. right; right; left.
      exists v, w. naive_solver congruence.
    + rewrite decide_True by done. naive_solver.
    + rewrite decide_False, Eov by done. right; right; left. by exists vold, w.
    + congruence.
Qed.

Lemma on_remove_layers cur n us ss i v :
  layers cur n us ss → cur !! i = Some v → get_id v = i →
  layers (delete i cur) n
    (match us with [] => [] | u :: us' => on_remove_state v u :: us' end) ss.
Proof.
  intros Hl Hi Hv. unfold on_remove_state. rewrite Hv.
  apply (layers_head_local (λ u, _) cur _ n n us ss i); [done|lia|..].
  5: { intros t Ht. apply separate_delete. by apply (layers_separate _ _ _ _ Hl). }
  - intros j Hj. by rewrite lookup_delete_ne.
  - intros u. by repeat case_match.
  - intros u j Hj. repeat case_match; simpl;
      rewrite ?map_emplace_lookup, ?decide_False, ?lookup_delete_ne by done; set_solver.
  - intros u old Hok Hwf. pose proof (layer_entry _ _ _ _ _ Hok i) as He.
    pose proof (layer_new _ _ _ _ _ Hok i). split; [|repeat case_match; set_solver].
    apply state_entry_cases. rewrite lookup_delete_eq. entry_cases He.
    + rewrite decide_False, Eov, Erv by done. simpl.
      rewrite map_emplace_lookup, decide_True, Erv by done. right; right; right.
      exists v. naive_solver congruence.
    + rewrite decide_True by done. left. simpl. set_solver.
    + rewrite decide_False, Eov by done. simpl.
      rewrite map_emplace_lookup, decide_True, Erv, lookup_delete_eq by done. naive_solver.
    + congruence.
Qed.

Lemma on_create_layers cur n us ss v :
  layers cur n us ss → wf_map cur n → get_id v = n →
  separate_all (<[n := v]> cur) ss →
  layers (<[n := v]> cur) (n + 1)
    (match us with [] => [] | u :: us' => on_create_state v u :: us' end) ss.
Proof.
  intros Hl Hcur Hv Hsep. unfold on_create_state. rewrite Hv.
  apply (layers_head_local (λ u, _) cur _ n _ us ss n); [done|lia|..|done].
  - intros j Hj. by rewrite lookup_insert_ne.
  - done.
  - intros u j Hj; simpl. set_solver.
  - intros u old Hok Hwf. pose proof (layer_entry _ _ _ _ _ Hok n) as He.
    pose proof (layer_next _ _ _ _ _ Hok). split; [|done]. pose proof (wf_free _ _ Hcur).
    apply state_entry_cases. rewrite lookup_insert_eq. right; left. exists v. simpl.
    entry_cases He; try congruence.
    + split_and!; try done; [set_solver|congruence].
    + apply (wf_id _ _ Hwf) in Eold. lia.
Qed.

(** *** Create, modify and remove *)

Lemma unclaimed_separate s us i v :
  layers (s_objects s) (s_next_id s) us (s_stack s) →
  (is_Some (s_objects s !! i) ∨ s_next_id s ≤ i) → unclaimed i v s →
  separate_all (<[i := v]> (s_objects s)) (s_stack s).
Proof.
  intros Hl Hi Hv t Ht. apply separate_insert; [by apply (layers_separate _ _ _ _ Hl)| |].
  - destruct Hi as [Hi|Hi]; [by left|right].
    destruct (snap_objects t !! i) as [w|] eqn:E; [|done].
    pose proof (layers_below _ _ _ _ _ _ _ Hl Ht E). lia.
  - intros j w Hj Hw Hc. by apply (Hv t j).
Qed.

Lemma on_head_stack f (x : idx) :
  _stack (on_head f x) = match _stack x with [] => [] | u :: us => f u :: us end.
Proof. unfold on_head. by destruct (_stack x) eqn:E. Qed.
Lemma on_head_indices f (x : idx) : _indices (on_head f x) = _indices x.
Proof. unfold on_head. by destruct (_stack x). Qed.
Lemma on_head_next f (x : idx) : _next_id (on_head f x) = _next_id x.
Proof. unfold on_head. by destruct (_stack x). Qed.
Lemma on_head_revision f (x : idx) : _revision (on_head f x) = _revision x.
Proof. unfold on_head. by destruct (_stack x). Qed.

Lemma emplace_refines x s mk :
  refines x s → op_allowed (op_emplace mk) s →
  refines (step (op_emplace mk) x).1 (spec_step (op_emplace mk) s).1 ∧
  (step (op_emplace mk) x).2 = (spec_step (op_emplace mk) s).2.
Proof.
  intros [Hobj Hnext Hrev Hwf Hlay] [Hlt Hmk]. simpl. unfold emplace. st_run.
  rewrite Hnext. destruct (mk (s_next_id s)) as [v|e] eqn:Ev; [|by split].
  destruct (Hmk v eq_refl) as [Hid Hcl]. clear Hmk. rename Hid into Hmk.
  destruct (mi_emplace_spec (_indices x) v) as [Hc Hok].
  destruct (mi_emplace v (_indices x)) as [c ok]. simpl in Hc, Hok. rewrite Hobj in *.
  subst ok. destruct (insertable (s_objects s) v) eqn:Hins; simpl.
  - split; [|done]. rewrite Hmk in Hc.
    pose proof (wf_next _ _ Hwf).
    assert (u32 (s_next_id s + 1) = s_next_id s + 1) as Hu by (apply u32_id; lia).
    unfold on_create. split; simpl.
    + by rewrite on_head_indices.
    + rewrite on_head_next. simpl. by rewrite Hnext.
    + by rewrite on_head_revision.
    + by apply wf_map_insert.
    + rewrite on_head_stack. simpl. apply on_create_layers; [done..|].
      apply (unclaimed_separate s (_stack x)); [done|right; lia|by apply Hcl].
  - split; [|done]. by split; simpl.
Qed.

Lemma modify_refines x s i m :
  refines x s → op_allowed (op_modify i m) s →
  refines (step (op_modify i m) x).1 (spec_step (op_modify i m) s).1 ∧
  (step (op_modify i m) x).2 = (spec_step (op_modify i m) s).2.
Proof.
  intros [Hobj Hnext Hrev Hwf Hlay] Hm. simpl. unfold modify. st_run.
  rewrite mi_find_spec, Hobj. destruct (s_objects s !! i) as [v|] eqn:Ei; [|by split].
  destruct (wf_id _ _ Hwf i v Ei) as [Hv _]. specialize (Hm v Ei). revert Hm.
  destruct (m v) as [w thrown]; cbn [fst snd]. intros (Hw & Hk & Hcl).
  assert (contents (_indices x) !! i = Some v) as Ei' by by rewrite Hobj.
  destruct (mi_modify_spec (_indices x) i v w Ei' Hw) as [Hc Hok].
  destruct (mi_modify i w (_indices x)) as [c ok]. simpl in Hc, Hok.
  rewrite Hobj, Hk in *. subst ok. simpl.
  assert (refines (set_indices c (on_modify v x))
    (SnapshotIndex (<[i:=w]> (s_objects s)) (s_next_id s) (s_revision s) (s_stack s))) as HR.
  { unfold on_modify. split; simpl; rewrite ?on_head_next, ?on_head_revision; [done..| |].
    - by apply (wf_map_update _ _ i v).
    - rewrite on_head_stack. apply on_modify_layers; [done..|].
      by apply (unclaimed_separate s (_stack x)); [|left|]. }
  destruct thrown as [e|]; [by split|]. split; [|done]. destruct HR. by split.
Qed.

Lemma remove_refines x s i :
  refines x s →
  refines (step (op_remove i) x).1 (spec_step (op_remove i) s).1 ∧
  (step (op_remove i) x).2 = (spec_step (op_remove i) s).2.
Proof.
  intros [Hobj Hnext Hrev Hwf Hlay]. simpl. unfold remove. st_run.
  rewrite mi_find_spec, Hobj. destruct (s_objects s !! i) as [v|] eqn:Ei; [|by split].
  destruct (wf_id _ _ Hwf i v Ei) as [Hv _]. split; [|done].
  unfold on_remove. split; simpl; rewrite ?on_head_next, ?on_head_revision;
    [by rewrite mi_erase_spec, Hobj|done..| |].
  - by apply wf_map_delete.
  - rewrite on_head_stack. by apply on_remove_layers.
Qed.

(** *** Undo *)

(** The size of the dynamic allocations of all objects, and that the counter of
    the index agrees with it. *)
Definition alloc_sum (m : gmap Z V) : Z := map_fold (λ _ v n, get_dynamic_alloc v + n) 0 m.

Definition alloc_ok (x : idx) : Prop :=
  has_dynamic_alloc = true →
  _item_additional_allocation x = u64 (alloc_sum (contents (_indices x))).

Lemma alloc_sum_insert m i v :
  m !! i = None → alloc_sum (<[i := v]> m) = get_dynamic_alloc v + alloc_sum m.
Proof.
  intros Hi. unfold alloc_sum. rewrite map_fold_insert_L; [done|intros; lia|done].
Qed.

Lemma alloc_sum_delete m i v :
  m !! i = Some v → alloc_sum m = get_dynamic_alloc v + alloc_sum (delete i m).
Proof.
  intros Hi. rewrite <- (insert_delete_id m i v Hi) at 1.
  apply alloc_sum_insert, lookup_delete_eq.
Qed.

Lemma alloc_sum_update m i v w :
  m !! i = Some v →
  alloc_sum (<[i := w]> m) = alloc_sum m + (get_dynamic_alloc w - get_dynamic_alloc v).
Proof.
  intros Hi. rewrite (alloc_sum_delete m i v Hi), <- insert_delete_eq.
  rewrite alloc_sum_insert by apply lookup_delete_eq. lia.
Qed.

(** Correcting the counter by the change of the sum. *)
Lemma alloc_ok_add x y d :
  alloc_ok x → _item_additional_allocation y = _item_additional_allocation x →
  alloc_sum (contents (_indices y)) = alloc_sum (contents (_indices x)) + d →
  alloc_ok (add_alloc d y).
Proof.
  intros Hx Hy Hs Hd. unfold add_alloc; simpl. rewrite Hd, Hy, (Hx Hd), Hs.
  unfold u64, wrapu. by rewrite Zplus_mod_idemp_l.
Qed.

(** The loops of [undo] leave the log and the counters alone, and keep the
    allocation counter right. *)
Definition same_log (x y : idx) : Prop :=
  _stack y = _stack x ∧ _next_id y = _next_id x ∧ _revision y = _revision x ∧
  (alloc_ok x → alloc_ok y).

Lemma same_log_refl x : same_log x x.
Proof. done. Qed.

Lemma same_log_trans x y z : same_log x y → same_log y z → same_log x z.
Proof. unfold same_log. naive_solver congruence. Qed.

Lemma undo_old_step x k v y :
  get_id v = k → contents (_indices x) !! k = Some y →
  insertable (delete k (contents (_indices x))) v = true →
  ∃ x', undo_old (k, v) x = (x', Ok tt) ∧ same_log x x' ∧
    contents (_indices x') = <[k := v]> (contents (_indices x)).
Proof.
  intros Hv Hy Hk. unfold undo_old. st_run. cbn [fst snd].
  rewrite mi_find_spec, Hv, Hy.
  destruct (mi_modify_spec (_indices x) k y v Hy Hv) as [Hc Hok].
  destruct (mi_modify k v (_indices x)) as [c ok]. simpl in Hc, Hok.
  rewrite Hk in *. subst ok. simpl.
  eexists. split; [done|]. split; [|by simpl]. split_and!; [done..|].
  intros Hx. apply (alloc_ok_add x); [done..|]. simpl. rewrite Hc. by apply alloc_sum_update.
Qed.

(** An object can go back to its old value among the values of now. *)
Lemma separate_insertable cur old n k v :
  wf_map old n → separate cur old → old !! k = Some v → is_Some (cur !! k) →
  insertable (delete k cur) v = true.
Proof.
  intros Hwf Hs Hk Hc. destruct (wf_id _ _ Hwf k v Hk) as [Hid _].
  apply insertable_spec. rewrite Hid. split; [apply lookup_delete_eq|].
  intros j u [Hj Hju]%lookup_delete_Some. rewrite conflict_sym. by apply (Hs k j).
Qed.

Lemma undo_old_loop l x old n :
  wf_map old n → separate (contents (_indices x)) old → NoDup l.*1 →
  (∀ k v, (k, v) ∈ l → old !! k = Some v ∧ is_Some (contents (_indices x) !! k)) →
  ∃ x', st_for undo_old l x = (x', Ok tt) ∧ same_log x x' ∧
    contents (_indices x') = list_to_map l ∪ contents (_indices x).
Proof.
  intros Hwf. revert x. induction l as [|[k v] l IH]; intros x Hsep Hnd Hl.
  { exists x. split_and!; [done..|]. simpl. by rewrite (left_id_L ∅ (∪)). }
  inversion_clear Hnd as [|?? Hk Hnd'].
  destruct (Hl k v) as [Hv [y Hy]]; [left|].
  destruct (undo_old_step x k v y) as (x1 & Hrun & Hlog & Hc);
    [by apply (wf_id _ _ Hwf)|done|by apply (separate_insertable _ old n)|].
  destruct (IH x1) as (x2 & Hrun2 & Hlog2 & Hc2); [|done|..].
  - rewrite Hc. apply separate_insert; [done|by left|].
    intros j w Hj Hw _. by apply (wf_unique _ _ Hwf k j).
  - intros k' v' Hin. destruct (Hl k' v') as [Hv' Hy']; [by right|]. split; [done|].
    rewrite Hc, lookup_insert_ne; [done|]. intros <-. apply Hk.
    by apply (list_elem_of_fmap_2 fst _ (k, v')).
  - exists x2. split_and!.
    + simpl. by rewrite (stM_bind_Ok _ _ _ _ _ Hrun).
    + by apply (same_log_trans _ x1).
    + rewrite Hc2, Hc. simpl. rewrite <- insert_union_r, insert_union_l; [done|].
      by apply not_elem_of_list_to_map_1.
Qed.

Lemma undo_new_loop l x :
  NoDup l → (∀ i, i ∈ l → is_Some (contents (_indices x) !! i)) →
  ∃ x', st_for undo_new l x = (x', Ok tt) ∧ same_log x x' ∧
    ∀ i, contents (_indices x') !! i =
      if decide (i ∈ l) then None else contents (_indices x) !! i.
Proof.
  revert x. induction l as [|k l IH]; intros x Hnd Hl.
  { exists x. split_and!; [done..|]. intros i. by rewrite decide_False by set_solver. }
  inversion_clear Hnd as [|?? Hk Hnd'].
  destruct (Hl k) as [y Hy]; [left|].
  set (x1 := add_alloc (- get_dynamic_alloc y) (set_indices (mi_erase k (_indices x)) x)).
  assert (undo_new k x = (x1, Ok tt)) as Hrun.
  { unfold undo_new. st_run. by rewrite mi_find_spec, Hy. }
  assert (same_log x x1) as Hlog.
  { split_and!; [done..|]. intros Hx. apply (alloc_ok_add x); [done..|]. simpl.
    rewrite mi_erase_spec, (alloc_sum_delete _ _ _ Hy). lia. }
  destruct (IH x1) as (x2 & Hrun2 & Hlog2 & Hc2); [done|..].
  - intros i Hi. simpl. rewrite mi_erase_spec, lookup_delete_ne by set_solver.
    apply Hl. by right.
  - exists x2. split_and!.
    + simpl. by rewrite (stM_bind_Ok _ _ _ _ _ Hrun).
    + by apply (same_log_trans _ x1).
    + intros i. rewrite Hc2. simpl. rewrite mi_erase_spec.
      destruct (decide (i = k)) as [->|Hne].
      * rewrite (decide_True (P := k ∈ k :: l)) by left. rewrite lookup_delete_eq.
        by destruct (decide _).
      * rewrite lookup_delete_ne by done.
        by rewrite (decide_ext (i ∈ l) (i ∈ k :: l)) by set_solver.
Qed.

Lemma undo_removed_loop l x old n :
  wf_map old n → NoDup l.*1 → contents (_indices x) ⊆ old →
  (∀ k v, (k, v) ∈ l → old !! k = Some v ∧ contents (_indices x) !! k = None) →
  ∃ x', st_for undo_removed l x = (x', Ok tt) ∧ same_log x x' ∧
    contents (_indices x') = list_to_map l ∪ contents (_indices x).
Proof.
  intros Hwf. revert x. induction l as [|[k v] l IH]; intros x Hnd Hsub Hl.
  { exists x. split_and!; [done..|]. simpl. by rewrite (left_id_L ∅ (∪)). }
  inversion_clear Hnd as [|?? Hk Hnd']. destruct (Hl k v) as [Hv Hfree]; [left|].
  destruct (wf_id _ _ Hwf k v Hv) as [Hid _].
  assert (insertable (contents (_indices x)) v = true) as Hins.
  { apply insertable_spec. rewrite Hid. split; [done|]. intros j u Hj.
    apply (wf_unique _ _ Hwf k j); [congruence|done|]. by eapply lookup_weaken. }
  destruct (mi_emplace_spec (_indices x) v) as [Hc Hok]. rewrite Hins, Hid in *.
  destruct (mi_emplace v (_indices x)) as [c ok] eqn:Ec. simpl in Hc, Hok. subst ok.
  set (x1 := add_alloc (get_dynamic_alloc v) (set_indices c x)).
  assert (undo_removed (k, v) x = (x1, Ok tt)) as Hrun.
  { unfold undo_removed. st_run. cbn [fst snd]. by rewrite Ec. }
  assert (same_log x x1) as Hlog.
  { split_and!; [done..|]. intros Hx. apply (alloc_ok_add x); [done..|]. simpl.
    rewrite Hc, alloc_sum_insert by done. lia. }
  destruct (IH x1) as (x2 & Hrun2 & Hlog2 & Hc2); [done|..].
  - simpl. rewrite Hc. by apply insert_subseteq_l.
  - intros k' v' Hin. destruct (Hl k' v') as [Hv' Hf']; [by right|]. split; [done|].
    simpl. rewrite Hc, lookup_insert_ne; [done|]. intros <-. apply Hk.
    by apply (list_elem_of_fmap_2 fst _ (k, v')).
  - exists x2. split_and!.
    + simpl. by rewrite (stM_bind_Ok _ _ _ _ _ Hrun).
    + by apply (same_log_trans _ x1).
    + rewrite Hc2. simpl. rewrite Hc. rewrite <- insert_union_r, insert_union_l; [done|].
      by apply not_elem_of_list_to_map_1.
Qed.

(** Undoing the last session puts the objects back. *)
Lemma undo_layer x u us old :
  _stack x = u :: us →
  wf_map old (old_next_id u) → separate (contents (_indices x)) old →
  layer_ok u (contents (_indices x)) (_next_id x) old (old_next_id u) →
  ∃ x', undo x = (x', Ok tt) ∧ contents (_indices x') = old ∧
    _stack x' = us ∧ _next_id x' = old_next_id u ∧ _revision x' = _revision x - 1 ∧
    (alloc_ok x → alloc_ok x').
Proof.
  intros Hst Hold Hsep [He Hn Hnew].
  destruct (undo_old_loop (items (old_values u)) x old (old_next_id u)) as (x1 & R1 & L1 & C1);
    [done|done|apply items_NoDup|..].
  { intros k v Hkv%elem_of_items. specialize (He k). entry_cases He; try congruence.
    rewrite Eov in Hkv. injection Hkv as <-. rewrite Ecur. by split. }
  rewrite items_to_map in C1.
  destruct (undo_new_loop (sorted_set (new_ids u)) x1) as (x2 & R2 & L2 & C2);
    [apply sorted_set_NoDup|..].
  { intros i Hi%elem_of_sorted_set. rewrite C1. specialize (He i).
    entry_cases He; try done. rewrite lookup_union_r, Ecur by done. done. }
  set (x3 := set_next_id (old_next_id u) x2).
  assert (∀ i, contents (_indices x3) !! i =
    if decide (i ∈ new_ids u) then None else (old_values u ∪ contents (_indices x)) !! i) as C3.
  { intros i. simpl. rewrite C2, C1.
    apply decide_ext, elem_of_sorted_set. }
  destruct (undo_removed_loop (items (removed_values u)) x3 old (old_next_id u))
    as (x4 & R4 & L4 & C4); [done|apply items_NoDup|..].
  { apply map_subseteq_spec. intros i v. rewrite C3. specialize (He i).
    entry_cases He; (rewrite decide_True by done) || (rewrite decide_False by done);
      rewrite ?lookup_union, ?Eov, ?Ecur, ?Eold; by destruct (old !! i). }
  { intros k v Hkv%elem_of_items. rewrite C3. specialize (He k). entry_cases He; try congruence.
    split; [congruence|].
    rewrite decide_False, lookup_union, Eov, Ecur by done. done. }
  rewrite items_to_map in C4.
  exists (set_revision_field (_revision x - 1) (set_stack us x4)).
  unfold same_log in *. destruct L1 as (?&?&?&?), L2 as (?&?&?&?), L4 as (?&?&?&?); simpl in *.
  split_and!; simpl; [|..|congruence|done|auto].
  - unfold undo. unfold st_get. rewrite (stM_bind_Ok _ _ x x x) by done. rewrite Hst.
    rewrite (stM_bind_Ok _ _ _ _ _ R1), (stM_bind_Ok _ _ _ _ _ R2).
    rewrite (stM_bind_Ok _ _ x2 x3 tt), (stM_bind_Ok _ _ _ _ _ R4) by done.
    st_run. simpl. do 3 f_equal. congruence.
  - apply map_eq. intros i. rewrite C4, lookup_union, C3, lookup_union.
    specialize (He i). entry_cases He;
      (rewrite decide_True by done) || (rewrite decide_False by done);
      rewrite ?Eov, ?Erv, ?Ecur, ?Eold; by destruct (old !! i).
  - done.
Qed.

Lemma undo_refines x s :
  refines x s →
  refines (step op_undo x).1 (spec_step op_undo s).1 ∧
  (step op_undo x).2 = (spec_step op_undo s).2.
Proof.
  destruct s as [obj nx rv ss]. intros [Hobj Hnext Hrev Hwf Hlay]. simpl in *.
  remember (_stack x) as st eqn:Hst. symmetry in Hst.
  destruct Hlay as [|u cur n old us ss Hok Hold Hsep Hl].
  - unfold undo, st_get. rewrite (stM_bind_Ok _ _ x x x), Hst by done.
    split; [|done]. split; simpl; rewrite ?Hst; done || constructor.
  - subst. destruct (undo_layer x u us old) as (x' & Hrun & Hc & Hs & Hn & Hr & _);
      [done|done|apply (Hsep _ (list_elem_of_here _ _))|done|].
    rewrite Hrun. split; [|done]. split; simpl; [done|done|lia|done|by rewrite Hs].
Qed.

(** *** Squash *)

Definition view (u : undo_state V) (i : Z) : option V * option V * bool :=
  (old_values u !! i, removed_values u !! i, bool_decide (i ∈ new_ids u)).

Definition view_old (v : V) (t : option V * option V * bool) : option V * option V * bool :=
  let '(ov, rv, nw) := t in
  if nw then t else match ov with Some _ => t | None => (Some v, rv, nw) end.

Definition view_removed (v : V) (t : option V * option V * bool) : option V * option V * bool :=
  let '(ov, rv, nw) := t in
  if nw then (ov, rv, false)
  else match ov with
  | Some o => (None, Some (default o rv), nw)
  | None => (None, Some (default v rv), nw)
  end.

Lemma state_entry_view u cur old i :
  state_entry u cur old i ↔
  entry (view u i).1.1 (view u i).1.2 (view u i).2 (cur !! i) (old !! i).
Proof. done. Qed.

Lemma squash_old_view u k v i :
  get_id v = k →
  view (squash_old u (k, v)) i = if decide (i = k) then view_old v (view u i) else view u i.
Proof.
  intros Hv. unfold squash_old, view; cbn [fst snd]. rewrite Hv. unfold view_old.
  destruct (decide (k ∈ new_ids u)) as [Hin|Hin].
  - destruct (decide (i = k)) as [->|]; [by rewrite bool_decide_eq_true_2|done].
  - destruct (old_values u !! k) as [o|] eqn:Eo; simpl; rewrite ?map_emplace_lookup;
      destruct (decide (i = k)) as [->|]; rewrite ?Eo; simpl; try done.
    + by destruct (bool_decide _).
    + by rewrite bool_decide_eq_false_2.
Qed.

Lemma squash_removed_view u k v i :
  get_id v = k →
  view (squash_removed u (k, v)) i =
    if decide (i = k) then view_removed v (view u i) else view u i.
Proof.
  intros Hv. unfold squash_removed, view; cbn [fst snd]. rewrite Hv. unfold view_removed.
  destruct (decide (k ∈ new_ids u)) as [Hin|Hin]; simpl.
  - destruct (decide (i = k)) as [->|Hne].
    + rewrite (bool_decide_eq_true_2 (k ∈ new_ids u)) by done.
      by rewrite bool_decide_eq_false_2 by set_solver.
    + f_equal. apply bool_decide_ext. set_solver.
  - destruct (old_values u !! k) as [o|] eqn:Eo; simpl; rewrite ?map_emplace_lookup;
      destruct (decide (i = k)) as [->|]; rewrite ?Eo, ?lookup_delete_eq, ?lookup_delete_ne by done;
      try done; rewrite (bool_decide_eq_false_2 (k ∈ new_ids u)) by done;
      by destruct (removed_values u !! k).
Qed.

Lemma squash_new_fold l (u : undo_state V) :
  let u' := foldl squash_new u l in
  old_values u' = old_values u ∧ removed_values u' = removed_values u ∧
  (∀ i, i ∈ new_ids u' ↔ i ∈ l ∨ i ∈ new_ids u) ∧
  old_next_id u' = old_next_id u ∧ us_revision u' = us_revision u.
Proof.
  revert u. induction l as [|k l IH]; intros u; simpl; [set_solver|].
  destruct (IH (squash_new u k)) as (-> & -> & Hn & -> & ->). simpl in *. set_solver.
Qed.

Lemma foldl_kept {A B} (get : undo_state V → B) (f : undo_state V → A → undo_state V) l u :
  (∀ u a, get (f u a) = get u) → get (foldl f u l) = get u.
Proof.
  intros Hf. revert u. induction l as [|a l IH]; intros u; [done|]. simpl. by rewrite IH, Hf.
Qed.

(** Squashing, one id at a time. *)
Lemma squash_view B A i :
  (∀ k v, old_values B !! k = Some v ∨ removed_values B !! k = Some v → get_id v = k) →
  let t1 := match old_values B !! i with Some v => view_old v (view A i) | None => view A i end in
  let t2 := (t1.1, t1.2 || bool_decide (i ∈ new_ids B)) in
  view (squash_states B A) i =
    match removed_values B !! i with Some v => view_removed v t2 | None => t2 end.
Proof.
  intros Hid t1 t2. unfold squash_states.
  set (A1 := foldl squash_old A (items (old_values B))).
  assert (view A1 i = t1) as H1.
  { unfold A1. rewrite (foldl_local view squash_old view_old) by
      (apply items_NoDup || (intros ???? ?%elem_of_items; apply squash_old_view; auto)).
    by rewrite items_to_map. }
  set (A2 := foldl squash_new A1 (sorted_set (new_ids B))).
  assert (view A2 i = t2) as H2.
  { destruct (squash_new_fold (sorted_set (new_ids B)) A1) as (E1 & E2 & E3 & _).
    unfold t2. rewrite <- H1. unfold view. fold A2 in E1, E2, E3. rewrite E1, E2. simpl. f_equal.
    apply eq_true_iff_eq. rewrite orb_true_iff, !bool_decide_eq_true, E3, elem_of_sorted_set.
    tauto. }
  rewrite (foldl_local view squash_removed view_removed) by
    (apply items_NoDup || (intros ???? ?%elem_of_items; apply squash_removed_view; auto)).
  by rewrite items_to_map, H2.
Qed.

Lemma squash_states_kept B A :
  old_next_id (squash_states B A) = old_next_id A ∧
  us_revision (squash_states B A) = us_revision A.
Proof.
  unfold squash_states. split.
  - rewrite !foldl_kept; [done|..]; intros u a; unfold squash_old, squash_new, squash_removed;
      by repeat case_match.
  - rewrite !foldl_kept; [done|..]; intros u a; unfold squash_old, squash_new, squash_removed;
      by repeat case_match.
Qed.

(** The table in the comment of [squash]: composing two recorded changes. *)
Lemma entry_compose ovA rvA nA ovB rvB nB cur mid old :
  entry ovB rvB nB cur mid → entry ovA rvA nA mid old → (nB = true → rvA = None) →
  let t1 := match ovB with Some v => view_old v (ovA, rvA, nA) | None => (ovA, rvA, nA) end in
  let t2 := (t1.1, t1.2 || nB) in
  let t := match rvB with Some v => view_removed v t2 | None => t2 end in
  entry t.1.1 t.1.2 t.2 cur old.
Proof.
  intros HB HA Hna. destruct HB as [x|y|x y|x]; inversion HA; subst; simpl;
    try (by constructor); by discriminate Hna.
Qed.

Lemma squash_layer B A cur n mid old :
  layer_ok B cur n mid (old_next_id B) → wf_map mid (old_next_id B) →
  layer_ok A mid (old_next_id B) old (old_next_id A) → wf_map old (old_next_id A) →
  layer_ok (squash_states B A) cur n old (old_next_id A).
Proof.
  intros [HeB HnB HnewB] Hmid [HeA HnA HnewA] Hold.
  assert (∀ k v, old_values B !! k = Some v ∨ removed_values B !! k = Some v → get_id v = k)
    as Hid.
  { intros k v Hkv. specialize (HeB k). apply (wf_id _ _ Hmid k v).
    entry_cases HeB; destruct Hkv; congruence. }
  split; [|lia|].
  - intros i. apply state_entry_view. rewrite (squash_view B A i Hid).
    pose proof (HeB i) as HB. pose proof (HeA i) as HA.
    apply state_entry_view in HB, HA.
    apply (entry_compose _ _ _ _ _ _ _ _ _ HB HA). simpl.
    intros Hnew%bool_decide_eq_true. specialize (HeA i). apply HnewB in Hnew.
    entry_cases HeA; try done. apply (wf_id _ _ Hold) in Eold. lia.
  - intros i Hi. destruct (decide (i ∈ new_ids A)) as [?|HniA]; [by apply HnewA|].
    destruct (decide (i ∈ new_ids B)) as [HiB|HniB]; [apply HnewB in HiB; lia|].
    exfalso. pose proof (squash_view B A i Hid) as Hv.
    apply (f_equal snd) in Hv. unfold view in Hv. simpl in Hv.
    rewrite !bool_decide_eq_true_2 in Hv by done.
    rewrite (bool_decide_eq_false_2 _ HniA), (bool_decide_eq_false_2 _ HniB) in Hv.
    unfold view_old, view_removed in Hv. simpl in Hv.
    by repeat case_match; simpl in *; simplify_eq.
Qed.

Lemma squash_refines x s :
  refines x s →
  refines (step op_squash x).1 (spec_step op_squash s).1 ∧
  (step op_squash x).2 = (spec_step op_squash s).2.
Proof.
  destruct s as [obj nx rv ss]. intros [Hobj Hnext Hrev Hwf Hlay]. simpl in *.
  split; [|done]. unfold squash. destruct (_stack x) as [|B st] eqn:Hst.
  { inversion Hlay; subst. split; simpl; rewrite ?Hst; done || constructor. }
  inversion Hlay as [|? ? ? mid us ss' HB Hmid Hsep Hl']; subst.
  inversion Hl' as [|A ? ? old us' ss'' HA Hold Hsep' Hl'']; subst.
  - split; simpl; done || constructor.
  - destruct (squash_states_kept B A) as [Eo Er].
    split; simpl; [done..|]. rewrite <- Eo, <- Er.
    constructor; rewrite ?Eo, ?Er; [by eapply squash_layer|done| |done].
    intros t Ht. apply Hsep. by right.
Qed.

(** *** The other calls *)

Lemma start_refines x s :
  refines x s →
  refines (step op_start_undo_session x).1 (spec_step op_start_undo_session s).1 ∧
  (step op_start_undo_session x).2 = (spec_step op_start_undo_session s).2.
Proof.
  intros [Hobj Hnext Hrev Hwf Hlay]. split; [|done]. split; simpl; [done|done|by rewrite Hrev|done|].
  rewrite Hrev, Hnext.
  apply (layers_cons (UndoState ∅ ∅ ∅ (s_next_id s) (s_revision s + 1))); [|done| |done].
  2: { intros t [->|Ht]%elem_of_cons; [by apply (separate_same _ (s_next_id s))|].
       by apply (layers_separate _ _ _ _ Hlay). }
  split; simpl; [|lia|set_solver]. intros i. apply state_entry_cases. left. simpl. set_solver.
Qed.

Lemma layers_revisions cur n us ss :
  layers cur n us ss → us_revision <$> us = snap_revision <$> ss.
Proof. induction 1 as [|u cur n old us ss Hok Hwf Hsep Hl IH]; [done|]. by rewrite !fmap_cons, IH. Qed.

(** Dropping the oldest sessions. *)
Lemma layers_take cur n us ss k :
  layers cur n us ss → layers cur n (take k us) (take k ss).
Proof.
  intros Hl. revert k. induction Hl as [|u cur n old us ss Hok Hwf Hsep Hl IH]; intros [|k]; simpl.
  1-3: constructor. constructor; [done|done| |apply IH].
  intros t [->|Ht]%elem_of_cons; apply Hsep; [left|right].
  by apply (subseteq_take k ss).
Qed.

Fixpoint committed_count (r : Z) (revs : list Z) : nat :=
  match revs with
  | [] => 0
  | z :: revs' => if z <=? r then S (committed_count r revs') else 0
  end.

Lemma pop_front_while_drop r (l : list (undo_state V)) :
  pop_front_while r l = drop (committed_count r (us_revision <$> l)) l.
Proof. induction l as [|u l IH]; [done|]. simpl. by destruct (_ <=? _). Qed.

Lemma drop_committed_drop r (l : list (snapshot V)) :
  drop_committed r l = drop (committed_count r (snap_revision <$> l)) l.
Proof. induction l as [|u l IH]; [done|]. simpl. by destruct (_ <=? _). Qed.

Lemma commit_refines x s r :
  refines x s →
  refines (step (op_commit r) x).1 (spec_step (op_commit r) s).1 ∧
  (step (op_commit r) x).2 = (spec_step (op_commit r) s).2.
Proof.
  intros [Hobj Hnext Hrev Hwf Hlay]. split; [|done]. split; simpl; [done..|].
  pose proof (layers_revisions _ _ _ _ Hlay) as Hr.
  pose proof (f_equal length Hr) as Hlen. rewrite !length_fmap in Hlen.
  rewrite pop_front_while_drop, drop_committed_drop, !fmap_reverse, Hr, !reverse_drop,
    !reverse_involutive, !length_reverse, Hlen.
  by apply layers_take.
Qed.

Lemma set_revision_refines x s r :
  refines x s →
  refines (step (op_set_revision r) x).1 (spec_step (op_set_revision r) s).1 ∧
  (step (op_set_revision r) x).2 = (spec_step (op_set_revision r) s).2.
Proof.
  destruct s as [obj nx rv ss]. intros [Hobj Hnext Hrev Hwf Hlay]. simpl in *.
  unfold set_revision. st_run. remember (_stack x) as st eqn:Hst.
  destruct Hlay as [|u cur n old us ss Hok Hwf' Hsep Hl].
  - split; [|done]. split; simpl; rewrite <- ?Hst; done || constructor.
  - split; [|done]. split; simpl; rewrite <- ?Hst; [done..|by constructor].
Qed.

Lemma layers_length cur n us ss : layers cur n us ss → length us = length ss.
Proof. induction 1; simpl; congruence. Qed.

Lemma undo_rounds_refines k x s :
  refines x s → length (_stack x) = k →
  ∃ x', undo_rounds k x = (x', Ok tt) ∧ refines x' (spec_step op_undo_all s).1.
Proof.
  revert x s. induction k as [|k IH]; intros x s HR Hk.
  - exists x. split; [done|]. apply nil_length_inv in Hk. pose proof (ref_layers _ _ HR) as Hl.
    rewrite Hk in Hl. simpl. by inversion Hl as [? ? E1 E2 E3|].
  - pose proof (layers_length _ _ _ _ (ref_layers _ _ HR)) as Hlen. rewrite Hk in Hlen.
    destruct (undo_refines x s HR) as [HR' Hok]. simpl in HR', Hok.
    destruct (undo x) as [x1 r] eqn:Hu. simpl in Hok, HR'. subst r.
    destruct (s_stack s) as [|t rest] eqn:Hs; [done|]. simpl in Hlen.
    destruct (IH x1 _ HR') as (x2 & Hrun & HR2).
    { pose proof (layers_length _ _ _ _ (ref_layers _ _ HR')) as Hlen1. simpl in Hlen1. lia. }
    exists x2. split.
    + simpl. unfold st_get. rewrite (stM_bind_Ok _ _ x x x) by done. unfold enabled.
      destruct (_stack x); [done|]. by rewrite (stM_bind_Ok _ _ _ _ _ Hu).
    + cbn [spec_step fst] in HR2 |- *. rewrite Hs. cbn [s_stack s_revision] in HR2.
      destruct rest as [|t' rest]; [exact HR2|].
      rewrite last_cons_cons. destruct (last (t' :: rest)) as [t''|] eqn:El.
      * replace (s_revision s - Z.of_nat (length (t :: t' :: rest)))
          with (s_revision s - 1 - Z.of_nat (length (t' :: rest))) by (simpl; lia). done.
      * by apply last_None in El.
Qed.

Lemma undo_all_refines x s :
  refines x s →
  refines (step op_undo_all x).1 (spec_step op_undo_all s).1 ∧
  (step op_undo_all x).2 = (spec_step op_undo_all s).2.
Proof.
  intros HR. destruct (undo_rounds_refines _ x s HR eq_refl) as (x' & Hrun & HR').
  simpl. unfold undo_all, st_get. rewrite (stM_bind_Ok _ _ x x x), Hrun by done. by split.
Qed.

(** Every call keeps the relation and has the outcome of the abstract call. *)
Lemma step_simulates o x s :
  refines x s → op_allowed o s →
  refines (step o x).1 (spec_step o s).1 ∧ (step o x).2 = (spec_step o s).2.
Proof.
  destruct o; intros HR Ho; auto using emplace_refines, modify_refines, remove_refines,
    start_refines, undo_refines, squash_refines, commit_refines, undo_all_refines,
    set_revision_refines.
Qed.

(** *** The allocation counter *)

Definition modifier_returns (o : index_op V) : Prop :=
  match o with op_modify i m => ∀ v, (m v).2 = None | _ => True end.

Lemma undo_alloc x s : refines x s → alloc_ok x → alloc_ok (undo x).1.
Proof.
  destruct s as [obj nx rv ss]. intros [Hobj Hnext Hrev Hwf Hlay] Hx. simpl in *.
  remember (_stack x) as st eqn:Hst. symmetry in Hst.
  destruct Hlay as [|u cur n old us ss Hok Hold Hsep Hl].
  - unfold undo, st_get. by rewrite (stM_bind_Ok _ _ x x x), Hst by done.
  - subst. destruct (undo_layer x u us old) as (x' & Hrun & _ & _ & _ & _ & Ha);
      [done|done|apply (Hsep _ (list_elem_of_here _ _))|done|].
    rewrite Hrun. by apply Ha.
Qed.

Lemma undo_rounds_alloc k x s : refines x s → alloc_ok x → alloc_ok (undo_rounds k x).1.
Proof.
  revert x s. induction k as [|k IH]; intros x s HR Hx; [done|]. simpl. unfold st_get.
  rewrite (stM_bind_Ok _ _ x x x) by done. destruct (enabled x); [|done].
  pose proof (undo_alloc x s HR Hx) as Hx1. destruct (undo_refines x s HR) as [HR1 Hok].
  simpl in HR1, Hok. destruct (undo x) as [x1 r] eqn:Hu. simpl in *. subst r.
  rewrite (stM_bind_Ok _ _ _ _ _ Hu). by apply (IH x1 _ HR1).
Qed.

Lemma on_head_alloc f (x : idx) :
  _item_additional_allocation (on_head f x) = _item_additional_allocation x.
Proof. unfold on_head. by destruct (_stack x). Qed.

Lemma step_alloc o x s :
  refines x s → op_allowed o s → modifier_returns o → alloc_ok x → alloc_ok (step o x).1.
Proof.
  intros HR Ho Hm Hx. pose proof HR as [Hobj Hnext Hrev Hwf Hlay].
  destruct o as [mk|i m|i| | | | | |]; simpl; try done.
  - destruct Ho as [Hlt Hmk]. unfold emplace. st_run. rewrite Hnext.
    destruct (mk (s_next_id s)) as [v|e] eqn:Ev; [|done].
    destruct (mi_emplace_spec (_indices x) v) as [Hc Hok].
    destruct (mi_emplace v (_indices x)) as [c ok]. simpl in Hc, Hok. subst ok.
    destruct (insertable (contents (_indices x)) v) eqn:Hins; simpl.
    + apply (alloc_ok_add x); [done|unfold on_create; by rewrite on_head_alloc|].
      apply insertable_spec in Hins as [Hfree _].
      unfold on_create. rewrite on_head_indices. simpl. rewrite Hc, alloc_sum_insert by done. lia.
    + unfold alloc_ok. simpl. by rewrite Hc.
  - unfold modify. st_run. rewrite mi_find_spec.
    destruct (contents (_indices x) !! i) as [v|] eqn:Ei; [|done].
    destruct (wf_id _ _ Hwf i v ltac:(by rewrite <- Hobj)) as [Hv _].
    specialize (Ho v ltac:(by rewrite <- Hobj)). specialize (Hm v). revert Ho Hm.
    destruct (m v) as [w thrown]; cbn [fst snd]. intros (Hw & Hk & _) ->. rewrite <- Hobj in Hk.
    destruct (mi_modify_spec (_indices x) i v w Ei Hw) as [Hc Hok].
    destruct (mi_modify i w (_indices x)) as [c ok]. simpl in Hc, Hok.
    rewrite Hk in *. subst ok. simpl. apply (alloc_ok_add x); [done|simpl; apply on_head_alloc|].
    simpl. rewrite Hc. by apply alloc_sum_update.
  - unfold remove. st_run. rewrite mi_find_spec.
    destruct (contents (_indices x) !! i) as [v|] eqn:Ei; [|done]. simpl.
    apply (alloc_ok_add x); [done|simpl; apply on_head_alloc|].
    simpl. rewrite mi_erase_spec, (alloc_sum_delete _ _ _ Ei). lia.
  - by apply (undo_alloc x s).
  - unfold squash. by repeat case_match.
  - unfold undo_all, st_get. rewrite (stM_bind_Ok _ _ x x x) by done.
    by apply (undo_rounds_alloc _ x s).
  - unfold set_revision. st_run. by destruct (bool_decide _).
Qed.

End refinement.

(** ** [database]: all indexes together

    [database] holds one [generic_index] per object class; [V] is the sum of the
    classes here, and [_index_list] a list of indexes over it. *)

(** [generic_index::session] and [session_impl], which moves it into place: the
    move constructor does not take the revision along. *)
Record index_session : Set := IndexSession { sess_apply : bool; sess_revision : Z }.

Definition new_session (revision : Z) : index_session :=
  IndexSession (negb (revision =? -1)) revision.
Definition move_session (mv : index_session) : index_session :=
  IndexSession (sess_apply mv) 0.

Record db_session : Set := DbSession { _index_sessions : list index_session; db_sess_revision : Z }.

Section database.
Context {V C : Type} `{ChainObject V} `{!MultiIndexOps V C}.

(** [for( auto& item : _index_list ) item->...]. *)
Fixpoint db_for (f : stM (generic_index V C) unit) (db : list (generic_index V C))
    : list (generic_index V C) * result unit :=
  match db with
  | [] => ([], Ok tt)
  | x :: rest =>
      match f x with
      | (x', Ok _) => let '(rest', r) := db_for f rest in (x' :: rest', r)
      | (x', Throw e) => (x' :: rest, Throw e)
      end
  end.

Definition db_undo : stM (list (generic_index V C)) unit := db_for undo.
Definition db_squash : stM (list (generic_index V C)) unit := db_for (st_modify squash).
Definition db_commit (r : Z) : stM (list (generic_index V C)) unit := db_for (st_modify (commit r)).
Definition db_undo_all : stM (list (generic_index V C)) unit := db_for undo_all.

Definition db_start_undo_session (db : list (generic_index V C))
    : list (generic_index V C) * db_session :=
  let db' := start_undo_session <$> db in
  let sessions := (λ x, move_session (new_session (_revision x))) <$> db' in
  (db', DbSession sessions (match sessions with s :: _ => sess_revision s | [] => -1 end)).

Definition db_revision (db : list (generic_index V C)) : Z :=
  match db with [] => -1 | x :: _ => _revision x end.

(** [database::session]: [push], [squash] and [undo] on the sub-sessions, which
    are cleared afterwards so that the destructor does nothing more. *)
Fixpoint db_session_for (f : stM (generic_index V C) unit)
    (ss : list index_session) (db : list (generic_index V C))
    : list (generic_index V C) * result unit :=
  match ss, db with
  | s :: ss', x :: rest =>
      match (if sess_apply s then f else mret tt) x with
      | (x', Ok _) => let '(rest', r) := db_session_for f ss' rest in (x' :: rest', r)
      | (x', Throw e) => (x' :: rest, Throw e)
      end
  | _, _ => (db, Ok tt)
  end.

Definition db_session_undo (s : db_session) : list (generic_index V C) → _ :=
  db_session_for undo (_index_sessions s).
Definition db_session_squash (s : db_session) : list (generic_index V C) → _ :=
  db_session_for (st_modify squash) (_index_sessions s).
Definition db_session_push (s : db_session) (db : list (generic_index V C)) :=
  (db, DbSession [] (db_sess_revision s)).

(** Creating, modifying or removing an object of the class [k]. *)
Definition db_mutate (ko : nat * index_op V) (db : list (generic_index V C))
    : list (generic_index V C) * result unit :=
  match db !! ko.1 with
  | None => (db, Throw undefined_behaviour)
  | Some x => (<[ko.1 := (step ko.2 x).1]> db, (step ko.2 x).2)
  end.

(** A client carries on after an exception it catches. *)
Fixpoint run (ops : list (index_op V)) (x : generic_index V C)
    : generic_index V C * list (result unit) :=
  match ops with
  | [] => (x, [])
  | o :: ops' => let '(x', r) := step o x in let '(x'', rs) := run ops' x' in (x'', r :: rs)
  end.

Definition db_mutate_all (kos : list (nat * index_op V)) (db : list (generic_index V C)) :=
  foldl (λ db ko, (db_mutate ko db).1) db kos.

Definition empty_index (c : C) : generic_index V C := GenericIndex [] 0 0 0 c.

(** The unique keys of the value [v], for the object [i], are not those of a value
    that an open session saved of another object still in the index. *)
Definition unsaved (i : Z) (v : V) (x : generic_index V C) : Prop :=
  ∀ u j w, u ∈ _stack x → j ≠ i → old_values u !! j = Some w →
    is_Some (contents (_indices x) !! j) → conflict v w = false.

(** The changes that a client may make inside a session. *)
Definition is_mutation (o : index_op V) (x : generic_index V C) : Prop :=
  match o with
  | op_emplace mk =>
      ∀ v, mk (_next_id x) = Ok v → get_id v = _next_id x ∧
        (insertable (contents (_indices x)) v = true → unsaved (_next_id x) v x)
  | op_modify i m =>
      ∀ v, contents (_indices x) !! i = Some v → get_id (m v).1 = i ∧
        insertable (delete i (contents (_indices x))) (m v).1 = true ∧ unsaved i (m v).1 x
  | op_remove i => True
  | _ => False
  end.

Fixpoint db_mutations (kos : list (nat * index_op V)) (db : list (generic_index V C)) : Prop :=
  match kos with
  | [] => True
  | ko :: kos' =>
      (∀ x, db !! ko.1 = Some x → is_mutation ko.2 x) ∧ db_mutations kos' (db_mutate ko db).1
  end.

End database.

Section database_spec.
Context {V : Type} `{ChainObject V}.

Fixpoint spec_run (ops : list (index_op V)) (s : snapshot_index V)
    : snapshot_index V * list (result unit) :=
  match ops with
  | [] => (s, [])
  | o :: ops' =>
      let '(s', r) := spec_step o s in let '(s'', rs) := spec_run ops' s' in (s'', r :: rs)
  end.

Fixpoint ops_allowed (ops : list (index_op V)) (s : snapshot_index V) : Prop :=
  match ops with
  | [] => True
  | o :: ops' => op_allowed o s ∧ ops_allowed ops' (spec_step o s).1
  end.

Definition spec_empty : snapshot_index V := SnapshotIndex ∅ 0 0 [].

End database_spec.

Section runs.
Context {V C : Type} `{MultiIndex V C}.
Context (conflict_sym : ∀ v w : V, conflict v w = conflict w v).

Lemma empty_refines (c : C) : contents c = ∅ → refines (empty_index c) spec_empty.
Proof.
  intros Hc. split; simpl; [done..| |constructor].
  split; [lia|..]; intros *; by rewrite lookup_empty.
Qed.

Lemma run_simulates ops (x : generic_index V C) s :
  refines x s → ops_allowed ops s →
  refines (run ops x).1 (spec_run ops s).1 ∧ (run ops x).2 = (spec_run ops s).2.
Proof.
  revert x s. induction ops as [|o ops IH]; intros x s HR Ho; [done|].
  destruct Ho as [Ho Hops]. destruct (step_simulates conflict_sym o x s HR Ho) as [HR' Hr].
  simpl. destruct (step o x) as [x' r], (spec_step o s) as [s' r']. simpl in *. subst r'.
  destruct (IH x' s' HR' Hops) as [HR'' Hrs].
  destruct (run ops x') as [x'' rs], (spec_run ops s') as [s'' rs']. simpl in *.
  split; [done|by rewrite Hrs].
Qed.

(** An index that some sequence of calls leads to. *)
Definition reachable (x : generic_index V C) : Prop :=
  ∃ c ops, contents c = ∅ ∧ ops_allowed ops spec_empty ∧ x = (run ops (empty_index c)).1.

Lemma reachable_refines x : reachable x → ∃ s, refines x s.
Proof.
  intros (c & ops & Hc & Ho & ->). eexists.
  by apply (run_simulates ops), Ho; apply empty_refines.
Qed.

(** The state that [undo] must bring back. *)
Definition same_index (x y : generic_index V C) : Prop :=
  contents (_indices y) = contents (_indices x) ∧ _next_id y = _next_id x ∧
  _revision y = _revision x ∧ _stack y = _stack x.

(** [y] is [x] in the middle of a session on top of it, after [k] changes. *)
Definition in_session (k : Z) (x y : generic_index V C) : Prop :=
  ∃ s u, refines y s ∧
    head (s_stack s) = Some (Snapshot (contents (_indices x)) (_next_id x) (_revision x + 1)) ∧
    _stack y = u :: _stack x ∧ _revision y = _revision x + 1 ∧ _next_id y ≤ _next_id x + k.

(** A value that an open session started with is still there or was saved. *)
Lemma layers_saved cur n us ss t j w :
  layers cur n us ss → t ∈ ss → snap_objects t !! j = Some w → is_Some (cur !! j) →
  cur !! j = Some w ∨ ∃ u, u ∈ us ∧ old_values u !! j = Some w.
Proof.
  induction 1 as [|u cur n old us ss Hok Hwf Hsep Hl IH]; intros Ht Hj Hc;
    [by apply not_elem_of_nil in Ht|].
  assert (is_Some (old !! j) ∧ (old !! j = Some w ∨ ∃ u, u ∈ us ∧ old_values u !! j = Some w))
    as [[v Hv] Hold].
  { apply elem_of_cons in Ht as [->|Ht]; [by eauto|].
    assert (is_Some (old !! j)) as Ho; [|by auto].
    pose proof (layers_below _ _ _ _ _ _ _ Hl Ht Hj) as Hlt.
    destruct (proj1 (state_entry_cases _ _ _ _) (layer_entry _ _ _ _ _ Hok j))
      as [(_&_&_&<-)|[(y&_&_&Hn&_)|[(y&z&_&_&_&_&->)|(y&_&_&_&Hx&_)]]]; [done| |by eexists|].
    - apply (layer_new _ _ _ _ _ Hok) in Hn. lia.
    - rewrite Hx in Hc. by destruct Hc. }
  destruct (proj1 (state_entry_cases _ _ _ _) (layer_entry _ _ _ _ _ Hok j))
    as [(_&_&_&E)|[(y&_&_&_&_&E)|[(y&z&Eo&_&_&_&E)|(y&_&_&_&Hx&_)]]].
  - rewrite E. destruct Hold as [?|(u' & Hu & ?)]; [by left|right]. exists u'. split; [by right|done].
  - congruence.
  - right. destruct Hold as [Ho|(u' & Hu & ?)].
    + exists u. split; [left|congruence].
    + exists u'. split; [by right|done].
  - rewrite Hx in Hc. by destruct Hc.
Qed.

Lemma unsaved_unclaimed x s i v :
  refines x s → unsaved i v x →
  (∀ j u, j ≠ i → contents (_indices x) !! j = Some u → conflict v u = false) → unclaimed i v s.
Proof.
  intros HR Hs Hc t j w Ht Hj Hw Hcur. rewrite <- (ref_objects _ _ HR) in Hcur.
  pose proof (ref_layers _ _ HR) as Hl. rewrite <- (ref_objects _ _ HR) in Hl.
  destruct (layers_saved _ _ _ _ _ _ _ Hl Ht Hw Hcur) as [E|(u & Hu & E)].
  - by apply (Hc j).
  - by apply (Hs u j).
Qed.

Lemma mutation_spec o (x : generic_index V C) s :
  is_mutation o x →
  s_stack (spec_step o s).1 = s_stack s ∧ s_revision (spec_step o s).1 = s_revision s ∧
  s_next_id (spec_step o s).1 ≤ s_next_id s + 1.
Proof. destruct o; intros Ho; simpl; repeat case_match; simpl; done || (split_and!; lia || done). Qed.

Lemma mutation_allowed o x s :
  refines x s → is_mutation o x → s_next_id s < u32_max → op_allowed o s.
Proof.
  intros HR Ho Hlt. pose proof HR as [Hobj Hnext _ Hwf _]. destruct o as [mk|i m|i| | | | | |]; try done.
  - simpl in Ho |- *. rewrite Hobj, Hnext in Ho. split; [done|]. intros v Hv.
    destruct (Ho v Hv) as [Hid Hs]. split; [done|]. intros Hins. specialize (Hs Hins).
    apply (unsaved_unclaimed x); [done|done|]. rewrite Hobj.
    apply insertable_spec in Hins as [_ Hc]. intros j u _. apply Hc.
  - simpl in Ho |- *. rewrite Hobj in Ho. intros v Hv. destruct (Ho v Hv) as (Hid & Hins & Hs).
    split_and!; [done|done|]. apply (unsaved_unclaimed x); [done|done|]. rewrite Hobj.
    apply insertable_spec in Hins as [_ Hc]. intros j u Hj Hu. apply (Hc j).
    by rewrite lookup_delete_ne.
Qed.

Lemma mutation_stack o x u us :
  is_mutation o x → _stack x = u :: us → ∃ u', _stack (step o x).1 = u' :: us.
Proof.
  intros Ho Hs. destruct o; try done; simpl.
  - unfold emplace. st_run. destruct (mk _) as [v|]; [|by exists u].
    destruct (mi_emplace v _) as [c ok]. destruct ok; simpl; [|by exists u].
    unfold on_create. rewrite on_head_stack. simpl. rewrite Hs. by eexists.
  - unfold modify. st_run. destruct (mi_find _ _) as [v|]; [|by exists u].
    destruct (m v) as [w t], (mi_modify i w _) as [c ok].
    exists (on_modify_state v u).
    repeat case_match; simpl; unfold on_modify; by rewrite on_head_stack, Hs.
  - unfold remove. st_run. destruct (mi_find _ _) as [v|]; [|by exists u]. simpl.
    unfold on_remove. rewrite on_head_stack, Hs. by eexists.
Qed.

Lemma in_session_start x s : refines x s → in_session 0 x (start_undo_session x).
Proof.
  intros HR. destruct (start_refines conflict_sym x s HR) as [HR' _]. simpl in HR'.
  destruct HR as [Hobj Hnext Hrev _ _].
  eexists _, _. split; [exact HR'|]. simpl. rewrite Hobj, Hnext, Hrev. split_and!; try done. lia.
Qed.

Lemma in_session_step k x y o :
  in_session k x y → is_mutation o y → _next_id x + k < u32_max →
  in_session (k + 1) x (step o y).1.
Proof.
  intros (s & u & HR & Hhd & Hst & Hrev & Hnext) Ho Hlt.
  pose proof (ref_next _ _ HR) as En. pose proof (ref_revision _ _ HR) as Er.
  destruct (step_simulates conflict_sym o y s HR) as [HR' _]; [by apply (mutation_allowed o y); [..|lia]|].
  destruct (mutation_spec o y s Ho) as (Hs' & Hr' & Hn').
  destruct (mutation_stack o y u _ Ho Hst) as [u' Hst'].
  exists (spec_step o s).1, u'. split_and!; [done|by rewrite Hs'|done|..].
  - by rewrite (ref_revision _ _ HR'), Hr', <- Er.
  - rewrite (ref_next _ _ HR'). lia.
Qed.

Lemma in_session_weaken k k' x y : in_session k x y → k ≤ k' → in_session k' x y.
Proof.
  intros (s & u & HR & Hhd & Hst & Hrev & Hnext) Hk. exists s, u. split_and!; try done. lia.
Qed.

Lemma in_session_undo k x y :
  in_session k x y → ∃ z, undo y = (z, Ok tt) ∧ same_index x z.
Proof.
  intros (s & u & [Hobj Hnext' Hrev' Hwf Hlay] & Hhd & Hst & Hrev & Hnext).
  rewrite Hst in Hlay. inversion Hlay as [|? ? ? old us ss Hok Hold Hsep Hl E1 E2 E3 E4].
  subst us. rewrite <- E4 in Hhd. simpl in Hhd. injection Hhd as E5 E6 E7.
  destruct (undo_layer conflict_sym y u (_stack x) old) as (z & Hrun & Hc & Hs & Hn & Hr & _);
    [done|done|rewrite Hobj; apply (Hsep _ (list_elem_of_here _ _))|by rewrite Hobj, Hnext'|].
  exists z. split; [done|]. unfold same_index. split_and!; [congruence|congruence|lia|done].
Qed.

Lemma db_mutate_in_session k db db' ko :
  Forall2 (in_session k) db db' → (∀ y, db' !! ko.1 = Some y → is_mutation ko.2 y) →
  Forall (λ x, _next_id x + k < u32_max) db →
  Forall2 (in_session (k + 1)) db (db_mutate ko db').1.
Proof.
  intros HF Ho Hlt. unfold db_mutate.
  assert (Forall2 (in_session (k + 1)) db db') as HF'.
  { apply (Forall2_impl _ _ _ _ HF). intros x y Hxy. apply (in_session_weaken k); [done|lia]. }
  destruct (db' !! ko.1) as [y|] eqn:Ey; [|done]. simpl.
  destruct (Forall2_lookup_r _ _ _ _ _ HF Ey) as (x & Ex & Hxy).
  rewrite <- (list_insert_id db ko.1 x Ex). apply Forall2_insert; [done|].
  apply in_session_step; [done|by apply Ho|].
  by apply (Forall_lookup_1 _ _ _ _ Hlt Ex).
Qed.

Lemma db_mutate_all_in_session kos k db db' :
  Forall2 (in_session k) db db' → db_mutations kos db' →
  Forall (λ x, _next_id x + k + Z.of_nat (length kos) < u32_max) db →
  Forall2 (in_session (k + Z.of_nat (length kos))) db (db_mutate_all kos db').
Proof.
  revert k db'. induction kos as [|ko kos IH]; intros k db' HF Ho Hlt; simpl.
  { by replace (k + Z.of_nat 0) with k by lia. }
  destruct Ho as [Ho Hos].
  replace (k + Z.of_nat (S (length kos))) with (k + 1 + Z.of_nat (length kos)) by lia.
  apply IH; [|done|].
  - apply db_mutate_in_session; [done|done|].
    apply (Forall_impl _ _ _ Hlt). intros x Hx. lia.
  - apply (Forall_impl _ _ _ Hlt). intros x Hx. simpl length in Hx. lia.
Qed.

Lemma db_session_for_restores k ss db db' :
  Forall2 (in_session k) db db' → length ss = length db →
  Forall (λ s, sess_apply s = true) ss →
  ∃ db'', db_session_for undo ss db' = (db'', Ok tt) ∧ Forall2 same_index db db''.
Proof.
  intros HF. revert ss. induction HF as [|x y db db' Hxy HF IH]; intros [|s ss] Hlen Hs; try done.
  { by eexists. }
  apply Forall_cons_1 in Hs as [Hs1 Hss].
  destruct (IH ss ltac:(by injection Hlen) Hss) as (db'' & Hrun & HF').
  destruct (in_session_undo k x y Hxy) as (z & Hz & Hsame).
  simpl. rewrite Hs1, Hz, Hrun. eexists. split; [done|]. by constructor.
Qed.

Lemma db_session_undo_restores k db db' :
  Forall2 (in_session k) db db' → Forall (λ x, 0 ≤ _revision x) db →
  ∃ db'', db_session_undo (db_start_undo_session db).2 db' = (db'', Ok tt) ∧
    Forall2 same_index db db''.
Proof.
  intros HF Hrev. apply (db_session_for_restores k); [done|simpl; by rewrite !length_fmap|].
  simpl. rewrite !Forall_fmap. apply (Forall_impl _ _ _ Hrev). intros x Hx. simpl.
  bool_to_prop. lia.
Qed.
End runs.

(** A modifier that keeps the id and the unique keys of its object is always
    allowed. *)
Lemma kept_keys_allowed {V C : Type} `{MultiIndex V C}
    (conflict_sym : ∀ v w : V, conflict v w = conflict w v) (x : generic_index V C) s i m :
  refines x s →
  (∀ v, get_id (m v).1 = get_id v ∧ ∀ u, conflict (m v).1 u = conflict v u) →
  op_allowed (op_modify i m) s.
Proof.
  intros [_ _ _ Hwf Hl] Hm v Hi. destruct (Hm v) as [Hid Hk], (wf_id _ _ Hwf i v Hi) as [Hv _].
  split_and!; [congruence|..].
  - apply insertable_spec. rewrite Hid, Hv. split; [apply lookup_delete_eq|].
    intros j u [Hj Hju]%lookup_delete_Some. rewrite Hk. by apply (wf_unique _ _ Hwf i j).
  - intros t j w Ht Hj Hw Hc. rewrite Hk. by apply (layers_separate _ _ _ _ Hl t Ht j i).
Qed.

(** ** The conditions on the calls, evaluated *)

Section checks.
Context {V C : Type} `{ChainObject V} `{!MultiIndexOps V C}.

Definition free_of (i : Z) (v : V) (cur saved : gmap Z V) : bool :=
  forallb (λ p, (p.1 =? i) || bool_decide (cur !! p.1 = None) || negb (conflict v p.2))
    (map_to_list saved).

Lemma free_of_spec i v cur saved j w :
  free_of i v cur saved = true → j ≠ i → saved !! j = Some w → is_Some (cur !! j) →
  conflict v w = false.
Proof.
  intros Hf Hj Hw [u Hu]. unfold free_of in Hf. rewrite forallb_forall in Hf.
  specialize (Hf (j, w)). simpl in Hf. rewrite Hu in Hf.
  assert (In (j, w) (map_to_list saved)) as Hin by by apply list_elem_of_In, elem_of_map_to_list.
  specialize (Hf Hin). rewrite bool_decide_eq_false_2 in Hf by done.
  apply Z.eqb_neq in Hj. rewrite Hj in Hf. by apply negb_true_iff.
Qed.

Definition unclaimed_check (i : Z) (v : V) (s : snapshot_index V) : bool :=
  forallb (λ t, free_of i v (s_objects s) (snap_objects t)) (s_stack s).

Definition allowed_check (o : index_op V) (s : snapshot_index V) : bool :=
  match o with
  | op_emplace mk =>
      (s_next_id s <? u32_max) &&
      match mk (s_next_id s) with
      | Ok v => (get_id v =? s_next_id s) && unclaimed_check (s_next_id s) v s
      | Throw _ => true
      end
  | op_modify i m =>
      match s_objects s !! i with
      | Some v => (get_id (m v).1 =? i) && insertable (delete i (s_objects s)) (m v).1 &&
                  unclaimed_check i (m v).1 s
      | None => true
      end
  | _ => true
  end.

Lemma unclaimed_check_spec i v s : unclaimed_check i v s = true → unclaimed i v s.
Proof.
  unfold unclaimed_check. rewrite forallb_forall. intros Hall t j w Ht%list_elem_of_In.
  by apply free_of_spec, Hall.
Qed.

Lemma allowed_check_spec o s : allowed_check o s = true → op_allowed o s.
Proof.
  destruct o as [mk|i m|i| | | | | |]; simpl; try done.
  - rewrite andb_true_iff, Z.ltb_lt. intros [Hlt Hc]. split; [done|]. intros v Hv.
    rewrite Hv, andb_true_iff, Z.eqb_eq in Hc. destruct Hc as [Hid Hc].
    split; [done|intros _; by apply unclaimed_check_spec].
  - intros Hc v Hv. rewrite Hv, !andb_true_iff, Z.eqb_eq in Hc. destruct Hc as [[Hid Hins] Hc].
    split_and!; [done|done|by apply unclaimed_check_spec].
Qed.

Fixpoint ops_check (ops : list (index_op V)) (s : snapshot_index V) : bool :=
  match ops with
  | [] => true
  | o :: ops' => allowed_check o s && ops_check ops' (spec_step o s).1
  end.

Lemma ops_check_spec ops s : ops_check ops s = true → ops_allowed ops s.
Proof.
  revert s. induction ops as [|o ops IH]; intros s; [done|]. simpl. rewrite andb_true_iff.
  intros [Ho Hops]. split; [by apply allowed_check_spec|by apply IH].
Qed.

Definition mutation_check (o : index_op V) (x : generic_index V C) : bool :=
  let objs := contents (_indices x) in
  let unsaved_check i v := forallb (λ u, free_of i v objs (old_values u)) (_stack x) in
  match o with
  | op_emplace mk =>
      match mk (_next_id x) with
      | Ok v => (get_id v =? _next_id x) && unsaved_check (_next_id x) v
      | Throw _ => true
      end
  | op_modify i m =>
      match objs !! i with
      | Some v => (get_id (m v).1 =? i) && insertable (delete i objs) (m v).1 &&
                  unsaved_check i (m v).1
      | None => true
      end
  | op_remove i => true
  | _ => false
  end.

Lemma unsaved_check_spec i v (x : generic_index V C) :
  forallb (λ u, free_of i v (contents (_indices x)) (old_values u)) (_stack x) = true →
  unsaved i v x.
Proof.
  rewrite forallb_forall. intros Hall u j w Hu%list_elem_of_In. by apply free_of_spec, Hall.
Qed.

Lemma mutation_check_spec o (x : generic_index V C) :
  mutation_check o x = true → is_mutation o x.
Proof.
  destruct o as [mk|i m|i| | | | | |]; simpl; try done.
  - intros Hc v Hv. rewrite Hv, andb_true_iff, Z.eqb_eq in Hc. destruct Hc as [Hid Hc].
    split; [done|intros _; by apply unsaved_check_spec].
  - intros Hc v Hv. rewrite Hv, !andb_true_iff, Z.eqb_eq in Hc. destruct Hc as [[Hid Hins] Hc].
    split_and!; [done|done|by apply unsaved_check_spec].
Qed.

Fixpoint db_mutations_check (kos : list (nat * index_op V)) (db : list (generic_index V C)) : bool :=
  match kos with
  | [] => true
  | ko :: kos' =>
      match db !! ko.1 with Some x => mutation_check ko.2 x | None => true end &&
      db_mutations_check kos' (db_mutate ko db).1
  end.

Lemma db_mutations_check_spec kos db : db_mutations_check kos db = true → db_mutations kos db.
Proof.
  revert db. induction kos as [|ko kos IH]; intros db; [done|]. simpl. rewrite andb_true_iff.
  intros [Ho Hk]. split; [|by apply IH]. intros x Hx. rewrite Hx in Ho.
  by apply mutation_check_spec.
Qed.

End checks.

(** ** An instance of the container: finite maps *)

#[export] Instance gmap_index_ops `{ChainObject V} : MultiIndexOps V (gmap Z V) := {
  contents c := c;
  mi_find c i := c !! i;
  mi_emplace v c := if insertable c v then (<[get_id v := v]> c, true) else (c, false);
  mi_modify i w c :=
    if insertable (delete i c) w then (<[i := w]> c, true) else (delete i c, false);
  mi_erase i c := delete i c;
}.

#[export] Instance gmap_index `{ChainObject V} : MultiIndex V (gmap Z V).
Proof.
  split.
  - done.
  - intros c v. simpl. by destruct (insertable c v).
  - intros c i v w _ _. simpl. by destruct (insertable (delete i c) w).
  - done.
Qed.

(** A class of objects with a unique name and a dynamically allocated member. *)
Record sample_object : Set := SampleObject { so_id : Z; so_name : Z; so_size : Z }.

#[export] Instance sample_object_chain : ChainObject sample_object := {
  get_id := so_id;
  has_dynamic_alloc := true;
  get_dynamic_alloc := so_size;
  conflict v w := so_name v =? so_name w;
}.

Lemma sample_conflict_sym (v w : sample_object) : conflict v w = conflict w v.
Proof. apply Z.eqb_sym. Qed.

(** ** Properties *)

(** C10. The undo log implements the snapshot store: for every sequence of calls
    from an empty index (sessions nested, undone, squashed and committed, calls
    that throw included) that respects [op_allowed], the objects, the id counter,
    the revision, the number of open sessions and every outcome are those of the
    index that saves a full copy of the state for each session.  [op_allowed] asks
    that the 32-bit id counter does not overflow, that constructors and modifiers
    leave the id they are given, that a modifier moves its object only to unique
    keys that are free, and that a created or modified object takes no unique key
    which another object of the index gave up in a session that is still open. *)
Theorem undo_log_refines_snapshots {V C : Type} `{MultiIndex V C}
    (conflict_sym : ∀ v w : V, conflict v w = conflict w v)
    (c : C) (ops : list (index_op V)) :
  contents c = ∅ → ops_allowed ops spec_empty →
  let x := (run ops (empty_index c)).1 in
  let s := (spec_run ops spec_empty).1 in
  contents (_indices x) = s_objects s ∧ _next_id x = s_next_id s ∧
  _revision x = s_revision s ∧ length (_stack x) = length (s_stack s) ∧
  (run ops (empty_index c)).2 = (spec_run ops spec_empty).2.
Proof.
  intros Hc Ho x s.
  destruct (run_simulates conflict_sym ops (empty_index c) spec_empty) as [HR Hr];
    [by apply empty_refines|done|].
  split_and!; try apply HR; [|done]. apply (layers_length _ _ _ _ (ref_layers _ _ HR)).
Qed.

Definition sample_mk (name size : Z) (n : Z) : result sample_object :=
  Ok (SampleObject n name size).
Definition sample_grow (d : Z) (v : sample_object) : sample_object * option exn :=
  (SampleObject (so_id v) (so_name v) (so_size v + d), None).
Definition sample_rename (name : Z) (v : sample_object) : sample_object * option exn :=
  (SampleObject (so_id v) name (so_size v), None).

Lemma undo_log_refines_snapshots_witness :
  let ops := [op_emplace (sample_mk 7 10); op_start_undo_session; op_modify 0 (sample_grow 5);
              op_modify 0 (sample_rename 8); op_start_undo_session; op_remove 0;
              op_emplace (sample_mk 7 1); op_squash; op_undo] in
  _indices (run ops (empty_index (∅ : gmap Z sample_object))).1 = {[ 0 := SampleObject 0 7 10 ]}.
Proof.
  intros ops.
  destruct (undo_log_refines_snapshots sample_conflict_sym (∅ : gmap Z sample_object) ops)
    as (Hc & _); [reflexivity|..].
  - apply ops_check_spec. by vm_compute.
  - exact Hc.
Defined.

(** C11. Undoing a session of the database restores it: after starting a session
    and making changes to any of the indexes, with exceptions thrown by
    constructors, modifiers or the container caught or not, undoing the session
    succeeds and every index has its objects, its id counter, its revision and its
    older undo log as they were.  The changes respect [is_mutation]: constructors
    and modifiers leave the id they are given, modifiers move an object only to
    free unique keys, and no created or modified object takes a unique key of a
    value that an open session saved of another object still in the index. *)
Theorem database_undo_restores {V C : Type} `{MultiIndex V C}
    (conflict_sym : ∀ v w : V, conflict v w = conflict w v)
    (db : list (generic_index V C)) (kos : list (nat * index_op V)) :
  Forall reachable db →
  Forall (λ x, 0 ≤ _revision x ∧ _next_id x + Z.of_nat (length kos) < u32_max) db →
  let '(db1, session) := db_start_undo_session db in
  db_mutations kos db1 →
  ∃ db3, db_session_undo session (db_mutate_all kos db1) = (db3, Ok tt) ∧
    Forall2 same_index db db3.
Proof.
  intros Hreach Hb. unfold db_start_undo_session at 1. intros Hmut.
  apply (db_session_undo_restores conflict_sym (0 + Z.of_nat (length kos))).
  - apply db_mutate_all_in_session; [done| |done|].
    + apply Forall2_fmap_r, Forall_Forall2_diag.
      apply (Forall_impl _ _ _ Hreach). intros x Hx.
      destruct (reachable_refines conflict_sym x Hx) as [s HR].
      by apply (in_session_start conflict_sym x s).
    + apply (Forall_impl _ _ _ Hb). intros x [_ Hx]. lia.
  - apply (Forall_impl _ _ _ Hb). by intros x [].
Qed.

Lemma database_undo_restores_witness :
  let db := [(run [op_emplace (sample_mk 7 10)] (empty_index (∅ : gmap Z sample_object))).1;
             empty_index ∅] in
  let kos := [(0%nat, op_modify 0 (sample_rename 8)); (1%nat, op_emplace (sample_mk 7 1));
              (0%nat, op_remove 0); (0%nat, op_emplace (sample_mk 7 4))] in
  ∃ db3, db_session_undo (db_start_undo_session db).2
           (db_mutate_all kos (db_start_undo_session db).1) = (db3, Ok tt) ∧
    Forall2 same_index db db3.
Proof.
  intros db kos. apply (database_undo_restores sample_conflict_sym db kos).
  - repeat apply Forall_cons_2; [..|apply Forall_nil_2].
    + exists ∅, [op_emplace (sample_mk 7 10)]. split; [reflexivity|]. split; [|reflexivity].
      apply ops_check_spec. by vm_compute.
    + exists ∅, []. split; [reflexivity|]. by split.
  - repeat apply Forall_cons_2; try apply Forall_nil_2; split; by vm_compute.
  - apply db_mutations_check_spec. by vm_compute.
Defined.

Lemma run_alloc {V C : Type} `{MultiIndex V C}
    (conflict_sym : ∀ v w : V, conflict v w = conflict w v) ops (x : generic_index V C) s :
  refines x s → ops_allowed ops s → Forall modifier_returns ops →
  alloc_ok x → alloc_ok (run ops x).1.
Proof.
  revert x s. induction ops as [|o ops IH]; intros x s HR Ho Hm Hx; [done|].
  destruct Ho as [Ho Hops]. apply Forall_cons_1 in Hm as [Hm Hms].
  destruct (step_simulates conflict_sym o x s HR Ho) as [HR' _].
  pose proof (step_alloc conflict_sym o x s HR Ho Hm Hx) as Hx'.
  simpl. destruct (step o x) as [x' r]. simpl in *.
  specialize (IH x' _ HR' Hops Hms Hx'). by destruct (run ops x').
Qed.

(** The allocation statistics are exact: as long as no modifier throws, the
    counter that the index maintains by differences in every call, undo included,
    is the total of the dynamic allocations of its objects (modulo the width of
    [size_t]). *)
Theorem allocation_counter_exact {V C : Type} `{MultiIndex V C}
    (conflict_sym : ∀ v w : V, conflict v w = conflict w v)
    (c : C) (ops : list (index_op V)) :
  contents c = ∅ → ops_allowed ops spec_empty → Forall modifier_returns ops →
  has_dynamic_alloc (V := V) = true →
  let x := (run ops (empty_index c)).1 in
  _item_additional_allocation x = u64 (alloc_sum (contents (_indices x))).
Proof.
  intros Hc Ho Hm Hd x.
  apply (run_alloc conflict_sym ops (empty_index c) spec_empty); [by apply empty_refines|done..| |done].
  intros _. simpl. by rewrite Hc.
Qed.

Lemma allocation_counter_exact_witness :
  let ops := [op_emplace (sample_mk 7 10); op_start_undo_session; op_modify 0 (sample_grow 5);
              op_emplace (sample_mk 8 3); op_undo] in
  _item_additional_allocation (run ops (empty_index (∅ : gmap Z sample_object))).1 = 10.
Proof.
  intros ops.
  rewrite (allocation_counter_exact sample_conflict_sym (∅ : gmap Z sample_object) ops).
  - by vm_compute.
  - reflexivity.
  - apply ops_check_spec. by vm_compute.
  - unfold ops. repeat constructor.
  - reflexivity.
Defined.

(** A modifier that grows the object and then fails an assertion. *)
Definition sample_grow_then_throw (d : Z) (v : sample_object) : sample_object * option exn :=
  ((sample_grow d v).1, Some (assert_exception "")).

(** When a modifier throws after it changed the size of the object, [modify]
    leaves before it corrects the counter, and undoing the session, which corrects
    by the real sizes, does not repair it: an object of 10 bytes that a failed
    modifier grew by 25 leaves the counter 25 below the real total, which wraps
    around to almost [2^64]. *)
Theorem allocation_counter_drifts_on_throw :
  let ops := [op_emplace (sample_mk 7 10); op_start_undo_session;
              op_modify 0 (sample_grow_then_throw 25); op_undo] in
  let x := (run ops (empty_index (∅ : gmap Z sample_object))).1 in
  _indices x = {[ 0 := SampleObject 0 7 10 ]} ∧ _item_additional_allocation x = 2 ^ 64 - 15.
Proof. by vm_compute. Qed.

(** One object cannot be put back while another has its unique key. *)
Lemma taken_not_insertable `{ChainObject V} (m : gmap Z V) j k v c :
  k ≠ j → m !! k = Some c → conflict v c = true → insertable (delete j m) v = false.
Proof.
  intros Hk Hc Hv. apply not_true_iff_false. rewrite insertable_spec. intros [_ Hall].
  rewrite (Hall k c) in Hv; [done|]. by rewrite lookup_delete_ne.
Qed.

Lemma undo_old_taken {V C : Type} `{MultiIndex V C} (x : generic_index V C) j k w c :
  get_id w = j → k ≠ j → contents (_indices x) !! k = Some c → conflict w c = true →
  (undo_old (j, w) x).2 = Throw logic_error_exception.
Proof.
  intros Hid Hk Hc Hw. unfold undo_old. st_run. cbn [fst snd]. rewrite mi_find_spec, Hid.
  pose proof (taken_not_insertable _ j k w c Hk Hc Hw) as Hni.
  destruct (contents (_indices x) !! j) as [v|] eqn:Ej.
  - destruct (mi_modify_spec (_indices x) j v w Ej Hid) as [_ Hok].
    destruct (mi_modify j w (_indices x)) as [c' ok]. simpl in Hok. rewrite Hni in Hok. by subst ok.
  - destruct (mi_emplace_spec (_indices x) w) as [_ Hok].
    destruct (mi_emplace w (_indices x)) as [c' ok]. simpl in Hok.
    rewrite (delete_id _ _ Ej) in Hni. rewrite Hni in Hok. by subst ok.
Qed.

(** Restoring one object fails with [logic_error] or leaves the others alone. *)
Lemma undo_old_outcome {V C : Type} `{MultiIndex V C} (x : generic_index V C) i a :
  get_id a = i →
  (undo_old (i, a) x).2 = Throw logic_error_exception ∨
  ((undo_old (i, a) x).2 = Ok tt ∧
   ∀ k, k ≠ i → contents (_indices (undo_old (i, a) x).1) !! k = contents (_indices x) !! k).
Proof.
  intros Hid. unfold undo_old. st_run. cbn [fst snd]. rewrite mi_find_spec, Hid.
  destruct (contents (_indices x) !! i) as [v|] eqn:Ei.
  - destruct (mi_modify_spec (_indices x) i v a Ei Hid) as [Hc Hok].
    destruct (mi_modify i a (_indices x)) as [c ok]. simpl in Hok, Hc.
    destruct ok; [right|by left]. rewrite <- Hok in Hc. simpl. split; [done|].
    intros k Hk. by rewrite Hc, lookup_insert_ne.
  - destruct (mi_emplace_spec (_indices x) a) as [Hc Hok].
    destruct (mi_emplace a (_indices x)) as [c ok]. simpl in Hok, Hc.
    destruct ok; [right|by left]. rewrite <- Hok, Hid in Hc. simpl. split; [done|].
    intros k Hk. by rewrite Hc, lookup_insert_ne.
Qed.

Lemma undo_old_loop_taken {V C : Type} `{MultiIndex V C} l1 l2 (x : generic_index V C) j k w c :
  Forall (λ p, get_id p.2 = p.1 ∧ p.1 ≠ k) l1 → get_id w = j → k ≠ j →
  contents (_indices x) !! k = Some c → conflict w c = true →
  (st_for undo_old (l1 ++ (j, w) :: l2) x).2 = Throw logic_error_exception.
Proof.
  intros Hl. revert x. induction Hl as [|[i a] l1 [Hid Hi] Hl IH]; intros x Hj Hk Hc Hw; simpl in *.
  - pose proof (undo_old_taken x j k w c Hj Hk Hc Hw) as Ht.
    destruct (undo_old (j, w) x) as [x' r] eqn:E. simpl in Ht. subst r.
    by rewrite (stM_bind_Throw _ _ _ _ _ E).
  - pose proof (undo_old_outcome x i a Hid) as Ho.
    destruct (undo_old (i, a) x) as [x' r] eqn:E. simpl in Ho. destruct Ho as [->|[-> Ho]].
    + by rewrite (stM_bind_Throw _ _ _ _ _ E).
    + rewrite (stM_bind_Ok _ _ _ _ _ E). apply IH; [done|done| |done]. by rewrite Ho.
Qed.

(** The items before [j] in the order of a [std::map] have smaller keys. *)
Lemma items_split {V} (m : gmap Z V) j w :
  m !! j = Some w →
  ∃ l1 l2, items m = l1 ++ (j, w) :: l2 ∧ Forall (λ p, p.1 < j ∧ m !! p.1 = Some p.2) l1.
Proof.
  intros Hj. apply elem_of_items, list_elem_of_split in Hj as (l1 & l2 & E).
  exists l1, l2. split; [done|]. apply Forall_forall. intros [i a] Hi.
  assert ((i, a) ∈ items m) as Hin by (rewrite E; set_solver).
  split; [|by apply elem_of_items]. simpl.
  assert (StronglySorted key_le (items m)) as Hs.
  { apply StronglySorted_merge_sort; [intros p q r ??; unfold key_le in *; lia|].
    intros p q. unfold key_le. lia. }
  pose proof (items_NoDup m) as Hnd. rewrite E in Hs, Hnd.
  assert (i ≤ j) by (apply (StronglySorted_app_1_elem_of _ _ _ (i, a) (j, w) Hs); set_solver).
  assert (i ≠ j); [|lia]. intros ->. rewrite fmap_app in Hnd.
  apply NoDup_app in Hnd as (_ & Hnd & _). apply (Hnd j); [|left].
  by apply (list_elem_of_fmap_2 fst _ (j, a)).
Qed.

(** C14. The condition on the keys of C10 and C11 is needed: whatever index and
    whatever open session, which saved every value under its own id, as all sessions
    do: if the session saved a value [w] of an object [j], and
    another object [k] that [undo] does not restore before [j] has a unique key of
    [w] now, then [undo] meets the key still taken and throws [logic_error]. *)
Theorem undo_fails_on_taken_key {V C : Type} `{MultiIndex V C}
    (x : generic_index V C) u us j k w c :
  _stack x = u :: us → (∀ i a, old_values u !! i = Some a → get_id a = i) →
  old_values u !! j = Some w → contents (_indices x) !! k = Some c →
  k ≠ j → (old_values u !! k = None ∨ j < k) → conflict w c = true →
  (undo x).2 = Throw logic_error_exception.
Proof.
  intros Hst Hids Hj Hc Hkj Hk Hw. destruct (items_split _ _ _ Hj) as (l1 & l2 & E & Hl1).
  assert ((st_for undo_old (items (old_values u)) x).2 = Throw logic_error_exception) as Hf.
  { rewrite E. apply (undo_old_loop_taken _ _ x j k w c); [|by apply Hids|done..].
    apply (Forall_impl _ _ _ Hl1). intros [i a] [Hi Ha]. simpl in *. split; [by apply Hids|].
    intros ->. destruct Hk; [congruence|lia]. }
  unfold undo, st_get. rewrite (stM_bind_Ok _ _ x x x), Hst by done.
  destruct (st_for undo_old _ x) as [x' r] eqn:Er. simpl in Hf. subst r.
  by rewrite (stM_bind_Throw _ _ _ _ _ Er).
Qed.

(** Two objects swap their names in a session, by way of a third name: every call
    succeeds, and the session cannot be undone. *)
Lemma undo_fails_on_taken_key_witness :
  let ops := [op_emplace (sample_mk 1 0); op_emplace (sample_mk 2 0); op_start_undo_session;
              op_modify 0 (sample_rename 3); op_modify 1 (sample_rename 1);
              op_modify 0 (sample_rename 2)] in
  let x := (run ops (empty_index (∅ : gmap Z sample_object))).1 in
  Forall (λ r, r = Ok tt) (run ops (empty_index (∅ : gmap Z sample_object))).2 ∧
  (undo x).2 = Throw logic_error_exception.
Proof.
  intros ops x. split; [repeat constructor|].
  apply (undo_fails_on_taken_key x
    (UndoState {[ 0 := SampleObject 0 1 0; 1 := SampleObject 1 2 0 ]} ∅ ∅ 2 1) []
    0 1 (SampleObject 0 1 0) (SampleObject 1 1 0)).
  - by vm_compute.
  - intros i a. simpl. rewrite lookup_insert_Some, lookup_singleton_Some.
    by intros [[<- <-]|[_ [<- <-]]].
  - reflexivity.
  - by vm_compute.
  - done.
  - right. lia.
  - reflexivity.
Defined.

(** The revision that a database session reports is always 0, because the move
    constructor of the index session drops it. *)
Lemma db_session_revision_zero {V C : Type} (x : generic_index V C) db :
  db_sess_revision (db_start_undo_session (x :: db)).2 = 0.
Proof. done. Qed.

(** Squashing the only session closes it without lowering the revision. *)
Lemma squash_single_keeps_revision {V C : Type} `{ChainObject V} (x : generic_index V C) :
  _stack x = [] → _revision (squash (start_undo_session x)) = _revision x + 1.
Proof. intros Hs. unfold squash, start_undo_session. simpl. by rewrite Hs. Qed.
