(* ===== verification/ForkDatabase.v ===== *)
(** * The fork database

    [src/libraries/chain/fork_database.cpp] and [fork_database.hpp]: the tree of
    recent blocks, from which the node picks the longest fork; with the numbering
    of blocks of [src/libraries/protocol/block.cpp], [block_header.hpp] and
    [full_block_type::construct_block_id].

    Items are shared objects: [_heap] holds them by address, the two containers and
    the head hold addresses, and a [weak_ptr] to an item that none of them holds any
    more has expired.  (Callers are assumed not to keep an item alive on their own.)
    The locks around the operations are not modelled: each operation is atomic. *)

From S2P Require Import Prelude.

(** ** Block ids *)

(** [fc::endian_reverse_u32]. *)
Definition endian_reverse_u32 (x : Z) : Z :=
  Z.lor (Z.lor (Z.lor
    (Z.land (Z.shiftr x 24) 255)
    (Z.shiftl (Z.land (Z.shiftr x 16) 255) 8))
    (Z.shiftl (Z.land (Z.shiftr x 8) 255) 16))
    (Z.shiftl (Z.land x 255) 24).

(** A 160-bit id: its first word, and the other four as one number. *)
Record block_id_type : Set := BlockId { id_word0 : Z; id_rest : Z }.

#[export] Instance block_id_eq_dec : EqDecision block_id_type.
Proof. solve_decision. Defined.

Definition null_block_id : block_id_type := BlockId 0 0.

Definition num_from_id (id : block_id_type) : Z := endian_reverse_u32 (id_word0 id).

(** The fields of the header that are used here; [digest] is what remains of the
    SHA-224 hash of the serialised header after its first word and its last eight
    bytes are dropped. *)
Record signed_block_header : Set := BlockHeader {
  previous : block_id_type;
  timestamp : Z;
  witness : string;
  digest : Z;
}.

#[export] Instance signed_block_header_eq_dec : EqDecision signed_block_header.
Proof. solve_decision. Defined.
#[export] Instance signed_block_header_inhabited : Inhabited signed_block_header :=
  populate (BlockHeader null_block_id 0 EmptyString 0).

Definition block_num (h : signed_block_header) : Z := u32 (num_from_id (previous h) + 1).

Definition construct_block_id (rest : Z) (num : Z) : block_id_type :=
  BlockId (endian_reverse_u32 num) rest.

(** [full_block_type::get_block_id] and [get_block_num]. *)
Definition get_block_id (h : signed_block_header) : block_id_type :=
  construct_block_id (digest h) (block_num h).
Definition get_block_num (h : signed_block_header) : Z := num_from_id (get_block_id h).

(** ** State *)

Record fork_item : Set := ForkItem {
  full_block : signed_block_header;
  prev : option Z;
  invalid : bool;
}.
#[export] Instance fork_item_inhabited : Inhabited fork_item :=
  populate (ForkItem inhabitant None false).

Record fork_database : Set := ForkDatabase {
  _heap : gmap Z fork_item;
  _next_ptr : Z;
  _unlinked_index : list Z;
  _index : list Z;
  _head : option Z;
  _max_size : Z;
}.

Definition empty_fork_database : fork_database := ForkDatabase ∅ 0 [] [] None 1024.

Definition item_id (x : fork_database) (p : Z) : block_id_type :=
  get_block_id (full_block (_heap x !!! p)).
Definition item_previous (x : fork_database) (p : Z) : block_id_type :=
  previous (full_block (_heap x !!! p)).
Definition item_num (x : fork_database) (p : Z) : Z :=
  get_block_num (full_block (_heap x !!! p)).

(** Something still owns the item. *)
Definition alive (x : fork_database) (p : Z) : bool :=
  bool_decide (p ∈ _index x) || bool_decide (p ∈ _unlinked_index x) ||
  bool_decide (_head x = Some p).

(** [item->prev.lock()]. *)
Definition lock_prev (x : fork_database) (p : Z) : option Z :=
  match prev (_heap x !!! p) with
  | Some q => if alive x q then Some q else None
  | None => None
  end.

Definition set_index (l : list Z) (x : fork_database) : fork_database :=
  ForkDatabase (_heap x) (_next_ptr x) (_unlinked_index x) l (_head x) (_max_size x).
Definition set_unlinked (l : list Z) (x : fork_database) : fork_database :=
  ForkDatabase (_heap x) (_next_ptr x) l (_index x) (_head x) (_max_size x).
Definition set_head_field (h : option Z) (x : fork_database) : fork_database :=
  ForkDatabase (_heap x) (_next_ptr x) (_unlinked_index x) (_index x) h (_max_size x).
Definition set_max_size_field (s : Z) (x : fork_database) : fork_database :=
  ForkDatabase (_heap x) (_next_ptr x) (_unlinked_index x) (_index x) (_head x) s.
Definition set_item (p : Z) (it : fork_item) (x : fork_database) : fork_database :=
  ForkDatabase (<[p := it]> (_heap x)) (_next_ptr x) (_unlinked_index x) (_index x)
    (_head x) (_max_size x).

(** [std::make_shared<fork_item>]. *)
Definition make_item (b : signed_block_header) (x : fork_database) : fork_database :=
  ForkDatabase (<[_next_ptr x := ForkItem b None false]> (_heap x)) (_next_ptr x + 1)
    (_unlinked_index x) (_index x) (_head x) (_max_size x).

(** [index.get<block_id>().find( id )]. *)
Definition find_id (x : fork_database) (l : list Z) (id : block_id_type) : option Z :=
  List.find (λ p, bool_decide (item_id x p = id)) l.

(** [insert] into a container whose ids are unique. *)
Definition insert_item (x : fork_database) (l : list Z) (p : Z) : list Z :=
  match find_id x l (item_id x p) with Some _ => l | None => l ++ [p] end.

(** [std::max( int64_t(0), int64_t( head ) - _max_size )]. *)
Definition oldest_allowed (x : fork_database) (h : Z) : Z :=
  Z.max 0 (item_num x h - _max_size x).

(** [*block_num_idx.begin()]: an item with the least number. *)
Definition num_le (x : fork_database) (p q : Z) : Prop := item_num x p ≤ item_num x q.
#[export] Instance num_le_dec x : RelDecision (num_le x).
Proof. intros p q. unfold num_le. apply _. Defined.
Definition by_num (x : fork_database) (l : list Z) : list Z := merge_sort (num_le x) l.

(** ** Operations *)

Definition reset (x : fork_database) : fork_database := set_index [] (set_head_field None x).

Definition pop_block : stM fork_database unit :=
  x ← st_get;
  match _head x with
  | None => st_throw (assert_exception "cannot pop an empty fork database")
  | Some h =>
      match lock_prev x h with
      | None => st_throw (assert_exception "popping head block would leave fork DB empty")
      | Some q => st_modify (set_head_field (Some q))
      end
  end.

Definition start_block (b : signed_block_header) (x : fork_database) : fork_database :=
  let p := _next_ptr x in
  let x := make_item b x in
  set_head_field (Some p) (set_index (insert_item x (_index x) p) x).

Section push.

(** [prev_idx.find( id )] in a hashed non-unique index: one of the items whose
    [previous] is [id]; which one is up to the container. *)
Context (pick : list Z → option Z).

Definition find_by_previous (x : fork_database) (l : list Z) (id : block_id_type) : option Z :=
  pick (filter (λ p, item_previous x p = id) l).

(** The part of [_push_block] before the item goes into the index. *)
Definition link_item (p : Z) : stM fork_database unit :=
  x ← st_get;
  match _head x with
  | None => mret tt
  | Some h =>
      if negb (oldest_allowed x h <? item_num x p) then
        st_throw (assert_exception "attempting to push a block that is too old")
      else if bool_decide (item_previous x p = null_block_id) then mret tt
      else match find_id x (_index x) (item_previous x p) with
      | None => st_throw unlinkable_block_exception
      | Some q =>
          if invalid (_heap x !!! q) then st_throw (assert_exception "!(*itr)->invalid")
          else st_modify (set_item p (ForkItem (full_block (_heap x !!! p)) (Some q)
                                        (invalid (_heap x !!! p))))
      end
  end.

Definition insert_and_raise_head (p : Z) (x : fork_database) : fork_database :=
  let x := set_index (insert_item x (_index x) p) x in
  match _head x with
  | None => set_head_field (Some p) x
  | Some h => if item_num x h <? item_num x p then set_head_field (Some p) x else x
  end.

(** [try { m } catch( const fc::assert_exception& ) {}]. *)
Definition swallow_assert (m : stM fork_database unit) : stM fork_database unit := λ x,
  match m x with
  | (x', Throw (assert_exception _)) => (x', Ok tt)
  | r => r
  end.

(** [_push_block] and [_push_next] call each other; each round takes an item out of
    the unlinked index, so twice its size and two is enough [fuel]. *)
Fixpoint _push_block (fuel : nat) (p : Z) : stM fork_database unit :=
  match fuel with
  | O => st_throw undefined_behaviour
  | S fuel =>
      link_item p ;;
      st_modify (insert_and_raise_head p) ;;
      _push_next fuel p
  end
with _push_next (fuel : nat) (p : Z) : stM fork_database unit :=
  match fuel with
  | O => st_throw undefined_behaviour
  | S fuel =>
      x ← st_get;
      match find_by_previous x (_unlinked_index x) (item_id x p) with
      | None => mret tt
      | Some t =>
          st_modify (set_unlinked (filter (λ q, q ≠ t) (_unlinked_index x))) ;;
          swallow_assert (_push_block fuel t) ;;
          _push_next fuel p
      end
  end.

Definition push_fuel (x : fork_database) : nat := 2 * length (_unlinked_index x) + 2.

Definition push_block (b : signed_block_header) : stM fork_database (option Z) := λ x,
  let p := _next_ptr x in
  let x := make_item b x in
  match _push_block (push_fuel x) p x with
  | (x', Throw unlinkable_block_exception) =>
      (set_unlinked (insert_item x' (_unlinked_index x') p) x', Throw unlinkable_block_exception)
  | (x', Throw e) => (x', Throw e)
  | (x', Ok _) => (x', Ok (_head x'))
  end.

End push.

(** [get_oldest_block_num_unlocked] and [get_last_irreversible_block_num]; the first
    element of an empty container is not there to read. *)
Definition get_oldest_block_num (x : fork_database) : result Z :=
  match by_num x (_index x) with
  | [] => Throw undefined_behaviour
  | p :: _ => Ok (item_num x p)
  end.

(** [while( begin != end && begin->num <= limit ) erase( begin )]. *)
Fixpoint erase_old (fuel : nat) (x : fork_database) (limit : Z) (l : list Z) : list Z :=
  match fuel with
  | O => l
  | S fuel =>
      match by_num x l with
      | [] => l
      | p :: _ =>
          if item_num x p <=? limit then erase_old fuel x limit (filter (λ q, q ≠ p) l) else l
      end
  end.

Definition set_max_size (s : Z) (x : fork_database) : fork_database :=
  let x := set_max_size_field s x in
  match _head x with
  | None => x
  | Some h =>
      let limit := oldest_allowed x h in
      let x1 := set_index (erase_old (length (_index x)) x limit (_index x)) x in
      set_unlinked (erase_old (length (_unlinked_index x)) x limit (_unlinked_index x)) x1
  end.

Definition is_known_block (x : fork_database) (id : block_id_type) : bool :=
  match find_id x (_index x) id with
  | Some _ => true
  | None => match find_id x (_unlinked_index x) id with Some _ => true | None => false end
  end.

Definition fetch_block (x : fork_database) (id : block_id_type)
    (search_linked_blocks_only : bool) : option Z :=
  match find_id x (_index x) id with
  | Some p => Some p
  | None => if negb search_linked_blocks_only then find_id x (_unlinked_index x) id else None
  end.

Definition fetch_block_by_number (x : fork_database) (num : Z) : list Z :=
  filter (λ p, item_num x p = num) (by_num x (_index x)).

Definition fetch_heads (x : fork_database) : list Z :=
  filter (λ p, Forall (λ q, item_previous x q ≠ item_id x p) (_index x)) (_index x).

Definition get_last_block_generated_by_each_witness (x : fork_database)
    : gmap string block_id_type :=
  foldl (λ m p, <[witness (full_block (_heap x !!! p)) := item_id x p]> m) ∅
    (by_num x (_index x)).

Definition head_block_time (x : fork_database) : Z :=
  match _head x with Some h => timestamp (full_block (_heap x !!! h)) | None => 0 end.
Definition head_block_num (x : fork_database) : Z :=
  match _head x with Some h => item_num x h | None => 0 end.
Definition head_block_id (x : fork_database) : block_id_type :=
  match _head x with Some h => item_id x h | None => null_block_id end.

(** The first two loops of [fetch_branch_from]: climb down to a height.  The number
    of a block is one more than that of its predecessor, so the number of the block
    the walk starts at bounds its rounds. *)
Fixpoint climb_down (fuel : nat) (x : fork_database) (p target : Z) (branch : list Z)
    : result (list Z * Z) :=
  if target <? item_num x p then
    match fuel with
    | O => Throw undefined_behaviour
    | S fuel =>
        match lock_prev x p with
        | None => Throw (assert_exception "first_branch")
        | Some q => climb_down fuel x q target (branch ++ [p])
        end
    end
  else Ok (branch, p).

(** The third loop: climb down both branches until they have a common parent. *)
Fixpoint climb_both (fuel : nat) (x : fork_database) (p q : Z) (l1 l2 : list Z)
    : result (list Z * list Z * Z * Z) :=
  if bool_decide (item_previous x p = item_previous x q) then Ok (l1, l2, p, q)
  else match fuel with
  | O => Throw undefined_behaviour
  | S fuel =>
      match lock_prev x p with
      | None => Throw (assert_exception "first_branch")
      | Some p' =>
          match lock_prev x q with
          | None => Throw (assert_exception "second_branch")
          | Some q' => climb_both fuel x p' q' (l1 ++ [p]) (l2 ++ [q])
          end
      end
  end.

Definition climb_fuel (x : fork_database) (p : Z) : nat := Z.to_nat (item_num x p).

(** The last items belong to the branches unless they are the same block. *)
Definition push_siblings (x : fork_database) (l1 l2 : list Z) (p q : Z) : list Z * list Z :=
  if bool_decide (item_id x p ≠ item_id x q) then (l1 ++ [p], l2 ++ [q]) else (l1, l2).

Definition fetch_branch_from (x : fork_database) (first second : block_id_type)
    : result (list Z * list Z) :=
  first_branch ← from_option_or (assert_exception "first_branch_itr")
    (find_id x (_index x) first);
  second_branch ← from_option_or (assert_exception "second_branch_itr")
    (find_id x (_index x) second);
  '(l1, first_branch) ←
    climb_down (climb_fuel x first_branch) x first_branch (item_num x second_branch) [];
  '(l2, second_branch) ←
    climb_down (climb_fuel x second_branch) x second_branch (item_num x first_branch) [];
  '(l1, l2, first_branch, second_branch) ←
    climb_both (climb_fuel x first_branch) x first_branch second_branch l1 l2;
  Ok (push_siblings x l1 l2 first_branch second_branch).

(** [while( next && next->num > block_num ) next = next->prev.lock()]. *)
Fixpoint walk_to_num (fuel : nat) (x : fork_database) (next : option Z) (num : Z) : option Z :=
  match next with
  | None => None
  | Some p =>
      if num <? item_num x p then
        match fuel with
        | O => None
        | S fuel => walk_to_num fuel x (lock_prev x p) num
        end
      else Some p
  end.

(** A null [_head] is dereferenced. *)
Definition walk_main_branch_to_num (x : fork_database) (num : Z) : result (option Z) :=
  match _head x with
  | None => Throw undefined_behaviour
  | Some h =>
      if item_num x h <? num then Ok None
      else Ok (walk_to_num (climb_fuel x h) x (Some h) num)
  end.

Definition fetch_block_on_main_branch_by_number (x : fork_database) (num : Z)
    : result (option Z) :=
  match _head x with
  | None => Ok None
  | Some h =>
      if item_num x h <? num then Ok None
      else match fetch_block_by_number x num with
      | [p] => Ok (Some p)
      | [] => Ok None
      | _ => walk_main_branch_to_num x num
      end
  end.

(** [for( ; item && item->num >= first; item = item->prev.lock() )]. *)
Fixpoint collect_down (fuel : nat) (x : fork_database) (item : option Z) (first : Z) : list Z :=
  match item with
  | None => []
  | Some p =>
      if first <=? item_num x p then
        match fuel with
        | O => [p]
        | S fuel => p :: collect_down fuel x (lock_prev x p) first
        end
      else []
  end.

Definition fetch_block_range_on_main_branch_by_number (x : fork_database) (first count : Z)
    : result (list Z) :=
  match _head x with
  | None => Ok []
  | Some h =>
      if item_num x h <? first then Ok []
      else
        let last := Z.min (u32 (first + count - 1)) (item_num x h) in
        item ← match fetch_block_by_number x last with
               | [] => Ok None
               | [p] => Ok (Some p)
               | _ => walk_main_branch_to_num x last
               end;
        Ok (reverse (collect_down (Z.to_nat last) x item first))
  end.

Definition set_head (h : option Z) (x : fork_database) : fork_database := set_head_field h x.

Definition remove (id : block_id_type) (x : fork_database) : fork_database :=
  let x := match _head x with
           | Some h => if bool_decide (item_id x h = id) then set_head_field (lock_prev x h) x else x
           | None => x
           end in
  set_index (filter (λ p, item_id x p ≠ id) (_index x)) x.

(** The ids from an item down to the oldest one its links reach. *)
Fixpoint ids_down (fuel : nat) (x : fork_database) (next : option Z) : list block_id_type :=
  match next with
  | None => []
  | Some p =>
      item_id x p ::
      match fuel with O => [] | S fuel => ids_down fuel x (lock_prev x p) end
  end.

(** The loop that picks the blocks, on 32-bit numbers; the subscript is computed
    in [size_t]. *)
Fixpoint synopsis_loop (fuel : nat) (ids : list block_id_type) (low lib ref high : Z)
    (synopsis : list block_id_type) : result (list block_id_type) :=
  id ← from_option_or undefined_behaviour
    (ids !! Z.to_nat (u64 (Z.of_nat (length ids) - u32 (low - lib) - 1)));
  let synopsis := synopsis ++ [id] in
  let low := u32 (low + u32 (high - low + 2) / 2) in
  if low <=? ref then
    match fuel with
    | O => Throw undefined_behaviour
    | S fuel => synopsis_loop fuel ids low lib ref high synopsis
    end
  else Ok synopsis.

(** The synopsis, and the number of the block needed from the block log, if any. *)
Definition get_blockchain_synopsis (x : fork_database) (reference_point : block_id_type)
    (number_of_blocks_after_reference_point : Z) : result (list block_id_type * option Z) :=
  match _head x with
  | None => Ok ([], None)
  | Some h =>
      lib ← get_oldest_block_num x;
      let reference_point :=
        if bool_decide (reference_point = null_block_id) then item_id x h else reference_point in
      let ref := num_from_id reference_point in
      if ref <? lib then Ok ([], Some ref)
      else
        let low := if lib =? 0 then 1 else lib in
        p ← from_option_or
          (fc_exception "Unable to construct a useful synopsis because we can't find the reference block in the fork database")
          (find_id x (_index x) reference_point);
        let ids := ids_down (climb_fuel x p) x (Some p) in
        let high := u32 (ref + number_of_blocks_after_reference_point) in
        synopsis ← synopsis_loop (Z.to_nat (ref - lib)) ids low lib ref high [];
        Ok (synopsis, None)
  end.

(** ** Properties *)

(** *** Block numbers *)

Lemma endian_reverse_bytes x :
  0 ≤ x →
  endian_reverse_u32 x =
    x / 2 ^ 24 mod 2 ^ 8 + x / 2 ^ 16 mod 2 ^ 8 * 2 ^ 8 + x / 2 ^ 8 mod 2 ^ 8 * 2 ^ 16
    + x mod 2 ^ 8 * 2 ^ 24.
Proof.
  intros Hx. unfold endian_reverse_u32.
  change 255 with (2 ^ 8 - 1). rewrite !land_mask, !Z.shiftr_div_pow2 by lia.
  pose proof (Z.mod_pos_bound (x / 2 ^ 24) (2 ^ 8)).
  pose proof (Z.mod_pos_bound (x / 2 ^ 16) (2 ^ 8)).
  pose proof (Z.mod_pos_bound (x / 2 ^ 8) (2 ^ 8)).
  rewrite (Z.lor_comm (x / 2 ^ 24 mod _)), lor_shiftl_add by lia.
  rewrite (Z.lor_comm _ (Z.shiftl _ 16)), lor_shiftl_add by lia.
  rewrite (Z.lor_comm _ (Z.shiftl _ 24)), lor_shiftl_add by lia.
  lia.
Qed.

Lemma endian_reverse_range x : 0 ≤ x → 0 ≤ endian_reverse_u32 x ≤ u32_max.
Proof.
  intros Hx. rewrite endian_reverse_bytes by done. unfold u32_max.
  pose proof (Z.mod_pos_bound (x / 2 ^ 24) (2 ^ 8)).
  pose proof (Z.mod_pos_bound (x / 2 ^ 16) (2 ^ 8)).
  pose proof (Z.mod_pos_bound (x / 2 ^ 8) (2 ^ 8)).
  pose proof (Z.mod_pos_bound x (2 ^ 8)). lia.
Qed.

Lemma endian_reverse_involutive x :
  0 ≤ x ≤ u32_max → endian_reverse_u32 (endian_reverse_u32 x) = x.
Proof.
  intros Hx. unfold u32_max in Hx.
  rewrite (endian_reverse_bytes (endian_reverse_u32 x)) by (apply endian_reverse_range; lia).
  rewrite endian_reverse_bytes by lia.
  set (b0 := x mod 2 ^ 8). set (b1 := x / 2 ^ 8 mod 2 ^ 8).
  set (b2 := x / 2 ^ 16 mod 2 ^ 8). set (b3 := x / 2 ^ 24 mod 2 ^ 8).
  assert (0 ≤ b0 < 2 ^ 8 ∧ 0 ≤ b1 < 2 ^ 8 ∧ 0 ≤ b2 < 2 ^ 8 ∧ 0 ≤ b3 < 2 ^ 8) as (?&?&?&?).
  { unfold b0, b1, b2, b3. split_and!; apply Z.mod_pos_bound; lia. }
  assert (x = b0 + b1 * 2 ^ 8 + b2 * 2 ^ 16 + b3 * 2 ^ 24) as Hsum.
  { unfold b0, b1, b2, b3. Z.div_mod_to_equations. lia. }
  rewrite Hsum at 1.
  clearbody b0 b1 b2 b3. Z.div_mod_to_equations. lia.
Qed.

Lemma get_block_num_eq h : get_block_num h = block_num h.
Proof.
  unfold get_block_num, get_block_id, num_from_id, construct_block_id; simpl.
  apply endian_reverse_involutive. apply u32_bound.
Qed.

Lemma item_num_eq x p : item_num x p = u32 (num_from_id (item_previous x p) + 1).
Proof. apply get_block_num_eq. Qed.

Lemma item_num_id x p : item_num x p = num_from_id (item_id x p).
Proof. done. Qed.

Lemma item_num_range x p : 0 ≤ item_num x p ≤ u32_max.
Proof. rewrite item_num_eq. apply u32_bound. Qed.

Lemma u32_succ_pos n : 0 ≤ n ≤ u32_max → 0 < u32 (n + 1) → u32 (n + 1) = n + 1.
Proof.
  intros Hn Hpos. unfold u32_max in Hn. destruct (decide (n = 2 ^ 32 - 1)) as [->|Hne].
  - exfalso. change (u32 (2 ^ 32 - 1 + 1)) with 0 in Hpos. lia.
  - apply u32_id. unfold u32_max. lia.
Qed.

(** The number of a block is one more than that of its parent, unless the 32-bit
    counter wraps to 0. *)
Lemma child_num x p q :
  item_previous x p = item_id x q → 0 < item_num x p → item_num x p = item_num x q + 1.
Proof.
  intros Hpq. rewrite (item_num_eq x p), Hpq, <- item_num_id.
  apply u32_succ_pos, item_num_range.
Qed.

Opaque endian_reverse_u32 get_block_num get_block_id.

(** *** The invariant *)

Definition owned (x : fork_database) (p : Z) : Prop :=
  p ∈ _index x ∨ p ∈ _unlinked_index x ∨ _head x = Some p.

(** No unlinked block has its parent in the tree, except those whose parent is in
    [pending], the ids that [_push_next] is working on. *)
Record fork_inv (pending : list block_id_type) (x : fork_database) : Prop := {
  inv_owned p : owned x p → p < _next_ptr x;
  inv_unique : NoDup (item_id x <$> _index x);
  inv_prev p q : prev (_heap x !!! p) = Some q →
    item_previous x p = item_id x q ∧ item_num x p = item_num x q + 1 ∧ q < _next_ptr x;
  inv_complete t p : t ∈ _unlinked_index x → p ∈ _index x →
    item_previous x t = item_id x p → item_id x p ∈ pending;
}.

(** The head is a longest fork. *)
Definition head_longest (x : fork_database) : Prop :=
  match _head x with
  | Some h => ∀ p, p ∈ _index x → item_num x p ≤ item_num x h
  | None => _index x = []
  end.

Definition head_num_le (x x' : fork_database) : Prop :=
  match _head x, _head x' with
  | Some h, Some h' => item_num x h ≤ item_num x' h'
  | Some _, None => False
  | None, _ => True
  end.

(** The item has the link to its parent, which is in the tree. *)
Definition linked (x : fork_database) (t : Z) : Prop :=
  ∃ q, prev (_heap x !!! t) = Some q ∧ q ∈ _index x ∧ item_id x q = item_previous x t.

(** An item that goes into the tree is linked, unless the tree was empty or the
    block has no parent. *)
Definition linked_or_root (x x' : fork_database) (t : Z) : Prop :=
  _head x = None ∨ item_previous x' t = null_block_id ∨ linked x' t.

(** What pushing does: it links what it adds, and does not change a block, forget or
    unlink an old one or lower the head. *)
Record grows (x x' : fork_database) : Prop := {
  grows_block p : full_block (_heap x' !!! p) = full_block (_heap x !!! p);
  grows_next : _next_ptr x' = _next_ptr x;
  grows_max : _max_size x' = _max_size x;
  grows_index : _index x ⊆ _index x';
  grows_unlinked : _unlinked_index x' ⊆ _unlinked_index x;
  grows_length : (length (_unlinked_index x') ≤ length (_unlinked_index x))%nat;
  grows_head : head_num_le x x';
  grows_longest : head_longest x → head_longest x';
  grows_kept t : linked x t → linked x' t;
  grows_linked t : t ∈ _index x' → t ∉ _index x → linked_or_root x x' t;
}.

Lemma grows_id x x' p : grows x x' → item_id x' p = item_id x p.
Proof. intros G. unfold item_id. by rewrite (grows_block _ _ G). Qed.
Lemma grows_num x x' p : grows x x' → item_num x' p = item_num x p.
Proof. intros G. unfold item_num. by rewrite (grows_block _ _ G). Qed.
Lemma grows_previous x x' p : grows x x' → item_previous x' p = item_previous x p.
Proof. intros G. unfold item_previous. by rewrite (grows_block _ _ G). Qed.

Lemma grows_refl x : grows x x.
Proof. split; try done. unfold head_num_le. by destruct (_head x). Qed.

Lemma grows_root x y z t : grows x y → grows y z → linked_or_root x y t → linked_or_root x z t.
Proof.
  intros G1 G2 [H|[H|H]]; [by left|right; left|right; right; by apply (grows_kept _ _ G2)].
  by rewrite (grows_previous _ _ _ G2).
Qed.

Lemma grows_trans x y z : grows x y → grows y z → grows x z.
Proof.
  intros G1 G2. split.
  - intros p. by rewrite (grows_block _ _ G2), (grows_block _ _ G1).
  - by rewrite (grows_next _ _ G2), (grows_next _ _ G1).
  - by rewrite (grows_max _ _ G2), (grows_max _ _ G1).
  - transitivity (_index y); [apply G1|apply G2].
  - transitivity (_unlinked_index y); [apply G2|apply G1].
  - pose proof (grows_length _ _ G1). pose proof (grows_length _ _ G2). lia.
  - pose proof (grows_head _ _ G1) as H1. pose proof (grows_head _ _ G2) as H2.
    unfold head_num_le in *. destruct (_head x), (_head y), (_head z); try done. lia.
  - intros Hx. by apply (grows_longest _ _ G2), (grows_longest _ _ G1).
  - intros t Ht. by apply (grows_kept _ _ G2), (grows_kept _ _ G1).
  - intros t Ht Hno. destruct (decide (t ∈ _index y)) as [Hy|Hy].
    + by apply (grows_root x y z), (grows_linked _ _ G1).
    + destruct (grows_linked _ _ G2 t Ht Hy) as [H|H]; [|by right]. left.
      pose proof (grows_head _ _ G1) as Hh. unfold head_num_le in Hh. rewrite H in Hh.
      by destruct (_head x).
Qed.

Lemma find_id_Some x l id p : find_id x l id = Some p → p ∈ l ∧ item_id x p = id.
Proof.
  intros [Hin Hid]%find_some. split; [by apply list_elem_of_In|].
  by apply bool_decide_eq_true in Hid.
Qed.

Lemma find_id_None x l id : find_id x l id = None ↔ id ∉ item_id x <$> l.
Proof.
  unfold find_id. split.
  - intros Hn (p & -> & Hp)%list_elem_of_fmap.
    pose proof (find_none _ _ Hn p) as Hf. cbn beta in Hf.
    rewrite bool_decide_eq_false in Hf. apply Hf; [by apply list_elem_of_In|done].
  - intros Hn. destruct (List.find _ l) as [p|] eqn:E; [|done].
    apply (find_id_Some x l id) in E as [Hp Hid]. destruct Hn. subst id.
    by apply list_elem_of_fmap_2.
Qed.

Lemma insert_item_spec x l p :
  NoDup (item_id x <$> l) →
  NoDup (item_id x <$> insert_item x l p) ∧ l ⊆ insert_item x l p ∧
  (∀ q, q ∈ insert_item x l p → q ∈ l ∨ q = p) ∧
  item_id x p ∈ item_id x <$> insert_item x l p.
Proof.
  intros Hnd. unfold insert_item. destruct (find_id x l (item_id x p)) as [q|] eqn:E.
  - apply find_id_Some in E as [Hq Hid]. split_and!; [done|done|by left|].
    rewrite <- Hid. by apply list_elem_of_fmap_2.
  - apply find_id_None in E. split_and!.
    + rewrite fmap_app. apply NoDup_app. split_and!; [done| |].
      * intros id Hid. simpl. rewrite list_elem_of_singleton. by intros ->.
      * apply NoDup_singleton.
    + intros q Hq. apply elem_of_app. by left.
    + intros q [?|?%list_elem_of_singleton]%elem_of_app; auto.
    + apply list_elem_of_fmap_2, elem_of_app. right. by left.
Qed.

(** *** Pushing a block *)

(** What [_push_block] checks before it accepts a block. *)
Inductive link_outcome (x : fork_database) (p : Z) : fork_database → result unit → Prop :=
| link_ok x1 :
    _index x1 = _index x → _unlinked_index x1 = _unlinked_index x → _head x1 = _head x →
    grows x x1 → linked_or_root x x1 p →
    (∀ h, _head x = Some h → oldest_allowed x h < item_num x p ∧
       (item_previous x p = null_block_id ∨
        ∃ q, q ∈ _index x ∧ item_id x q = item_previous x p ∧ invalid (_heap x !!! q) = false)) →
    link_outcome x p x1 (Ok tt)
| link_refused msg h :
    _head x = Some h →
    (item_num x p ≤ oldest_allowed x h ∨ item_previous x p ≠ null_block_id ∧
       ∃ q, q ∈ _index x ∧ item_id x q = item_previous x p ∧ invalid (_heap x !!! q) = true) →
    link_outcome x p x (Throw (assert_exception msg))
| link_unlinkable :
    _head x ≠ None → item_previous x p ≠ null_block_id →
    item_previous x p ∉ item_id x <$> _index x →
    link_outcome x p x (Throw unlinkable_block_exception).

Lemma set_item_same_block x p it :
  full_block it = full_block (_heap x !!! p) →
  ∀ q, full_block (_heap (set_item p it x) !!! q) = full_block (_heap x !!! q).
Proof.
  intros Hit q. simpl. destruct (decide (q = p)) as [->|].
  - by rewrite lookup_total_insert_eq.
  - by rewrite lookup_total_insert_ne.
Qed.

(** Changing links only. *)
Lemma grows_same_blocks x x1 :
  (∀ p, full_block (_heap x1 !!! p) = full_block (_heap x !!! p)) →
  _next_ptr x1 = _next_ptr x → _max_size x1 = _max_size x →
  _index x1 = _index x → _unlinked_index x1 = _unlinked_index x → _head x1 = _head x →
  (∀ t, linked x t → linked x1 t) →
  grows x x1.
Proof.
  intros Hb Hn Hm Hi Hu Hh Hk.
  assert (∀ p, item_num x1 p = item_num x p) as Hnum by (intros p; unfold item_num; by rewrite Hb).
  split; try done; rewrite ?Hi, ?Hu; try done.
  - unfold head_num_le. rewrite Hh. destruct (_head x); [by rewrite Hnum|done].
  - unfold head_longest. rewrite Hh, Hi. destruct (_head x); [|done].
    intros Hl p Hp. rewrite !Hnum. by apply Hl.
Qed.

Lemma link_item_spec pending x p :
  fork_inv pending x → p < _next_ptr x →
  let '(x1, r) := link_item p x in
  link_outcome x p x1 r ∧ fork_inv pending x1.
Proof.
  intros Hinv Hp. unfold link_item. st_run.
  destruct (_head x) as [h|] eqn:Hh.
  2:{ split; [|done]. constructor; try done; [apply grows_refl|by left|]. by rewrite Hh. }
  destruct (oldest_allowed x h <? item_num x p) eqn:Hold; cbn [negb].
  2:{ split; [|done]. apply (link_refused _ _ _ h); [done|]. left. by apply Z.ltb_ge. }
  apply Z.ltb_lt in Hold. assert (0 < item_num x p) as Hpos by (unfold oldest_allowed in *; lia).
  destruct (bool_decide_reflect (item_previous x p = null_block_id)) as [Hnull|Hnull].
  { split; [|done]. constructor; try done; [apply grows_refl|by right; left|].
    rewrite Hh. intros ? [= <-]. auto. }
  destruct (find_id x (_index x) (item_previous x p)) as [q|] eqn:Hq.
  2:{ split; [|done]. constructor; [by rewrite Hh|done|by apply find_id_None]. }
  apply find_id_Some in Hq as [Hqi Hqid].
  destruct (invalid (_heap x !!! q)) eqn:Hval.
  { split; [|done]. apply (link_refused _ _ _ h); [done|]. right. split; [done|]. by exists q. }
  set (it := ForkItem (full_block (_heap x !!! p)) (Some q) (invalid (_heap x !!! p))).
  pose proof (set_item_same_block x p it eq_refl) as Hb.
  assert (linked (set_item p it x) p) as Hlp.
  { exists q. simpl. rewrite lookup_total_insert_eq. split; [done|]. split; [done|].
    unfold item_id, item_previous. rewrite !Hb. done. }
  assert (grows x (set_item p it x)) as G.
  { apply grows_same_blocks; try done. intros t (q' & Ht & Hq' & Eq').
    destruct (decide (t = p)) as [->|Hne]; [done|]. exists q'. simpl.
    rewrite lookup_total_insert_ne by done. split; [done|]. split; [done|].
    unfold item_id, item_previous. rewrite !Hb. done. }
  split.
  - constructor; try done; [by right; right|]. rewrite Hh. intros ? [= <-]. split; [done|right].
    exists q. by rewrite Hqid.
  - destruct Hinv as [Ho Hu Hpr Hc]. split; simpl.
    + done.
    + rewrite (list_fmap_ext _ (item_id x)) by (intros; by apply grows_id). done.
    + intros p' q'. rewrite !(grows_previous _ _ _ G), !(grows_id _ _ _ G), !(grows_num _ _ _ G).
      destruct (decide (p' = p)) as [->|].
      * rewrite lookup_total_insert_eq. simpl. intros [= <-]. split_and!; [done| |].
        -- apply child_num; done.
        -- apply Ho. by left.
      * rewrite lookup_total_insert_ne by done. apply Hpr.
    + intros t p' Ht Hp'. rewrite !(grows_previous _ _ _ G), !(grows_id _ _ _ G). by apply Hc.
Qed.

Lemma insert_and_raise_head_spec pending x p :
  fork_inv pending x → p < _next_ptr x → linked_or_root x x p →
  let x1 := insert_and_raise_head p x in
  fork_inv (item_id x p :: pending) x1 ∧ grows x x1 ∧ _unlinked_index x1 = _unlinked_index x ∧
  item_id x p ∈ item_id x1 <$> _index x1 ∧
  ∃ h, _head x1 = Some h ∧ item_num x p ≤ item_num x1 h.
Proof.
  intros [Ho Hu Hpr Hc] Hp Hroot x1.
  destruct (insert_item_spec x (_index x) p Hu) as (Hu' & Hsub & Hin & Hid).
  assert (_heap x1 = _heap x ∧ _next_ptr x1 = _next_ptr x ∧ _max_size x1 = _max_size x ∧
    _unlinked_index x1 = _unlinked_index x ∧ _index x1 = insert_item x (_index x) p ∧
    ∃ h, _head x1 = Some h ∧ item_num x p ≤ item_num x h ∧
      (h = p ∨ _head x = Some h) ∧ (∀ h0, _head x = Some h0 → item_num x h0 ≤ item_num x h))
    as (E1 & E2 & E3 & E4 & E5 & h & Hh & Hph & Horig & Hmono).
  { unfold x1, insert_and_raise_head. cbn [_head set_index].
    destruct (_head x) as [h0|] eqn:Hh0.
    - change (item_num (set_index (insert_item x (_index x) p) x)) with (item_num x).
      destruct (Z.ltb_spec (item_num x h0) (item_num x p)); simpl; split_and!; try done.
      + exists p. split_and!; [done|lia|by left|]. intros ? [= <-]. lia.
      + exists h0. rewrite Hh0. split_and!; [done|lia|by right|]. intros ? [= <-]. lia.
    - simpl. split_and!; try done. exists p. split_and!; [done|lia|by left|done]. }
  assert (∀ q, item_id x1 q = item_id x q) as Eid by (intros q; unfold item_id; by rewrite E1).
  assert (∀ q, item_num x1 q = item_num x q) as Enum by (intros q; unfold item_num; by rewrite E1).
  assert (∀ q, item_previous x1 q = item_previous x q) as Eprev
    by (intros q; unfold item_previous; by rewrite E1).
  split_and!.
  - split.
    + intros q [Hq|[Hq|Hq]]; rewrite ?E2, ?E4, ?E5, ?Hh in *.
      * destruct (Hin q Hq) as [?| ->]; [|done]. apply Ho. by left.
      * apply Ho. by right; left.
      * injection Hq as <-. destruct Horig as [->|Hh0]; [done|]. apply Ho. by right; right.
    + rewrite E5, (list_fmap_ext _ (item_id x)) by (intros; apply Eid). done.
    + intros p' q'. rewrite E1, Eprev, Eid, !Enum, E2. apply Hpr.
    + intros t q Ht Hq. rewrite Eprev, Eid. rewrite E4 in Ht. rewrite E5 in Hq. intros Htq.
      destruct (Hin q Hq) as [Hq'| ->]; [|by left]. right. by apply (Hc t q).
  - assert (∀ t, linked x t → linked x1 t) as Hk.
    { intros t (q & Ht & Hq & Eq). exists q. rewrite E1, E5, Eid, Eprev. auto. }
    split; rewrite ?E1, ?E2, ?E3, ?E4, ?E5; try done.
    + unfold head_num_le. rewrite Hh. destruct (_head x); [|done]. rewrite Enum. by apply Hmono.
    + unfold head_longest. rewrite Hh, E5. intros Hl q Hq. rewrite !Enum.
      destruct (Hin q Hq) as [Hq'| ->]; [|done].
      destruct (_head x) as [h0|] eqn:Hh0; [|rewrite Hl in Hq'; by apply elem_of_nil in Hq'].
      pose proof (Hl q Hq'). pose proof (Hmono h0 eq_refl). lia.
    + intros t Ht Hno. destruct (Hin t Ht) as [?| ->]; [done|].
      destruct Hroot as [?|[?|?]]; [by left|right; left; by rewrite Eprev|right; right; by apply Hk].
  - done.
  - rewrite E5, (list_fmap_ext _ (item_id x)) by (intros; apply Eid). done.
  - exists h. by rewrite Enum.
Qed.

Section push_spec.
Context (pick : list Z → option Z).
Context (pick_some : ∀ l p, pick l = Some p → p ∈ l).
Context (pick_none : ∀ l, pick l = None → l = []).

Definition push_spec (n : nat) : Prop := ∀ pending x p,
  fork_inv pending x → p < _next_ptr x → (2 * length (_unlinked_index x) + 2 ≤ n)%nat →
  (∃ x', _push_block pick n p x = (x', Ok tt) ∧ fork_inv pending x' ∧ grows x x' ∧
     item_id x p ∈ item_id x' <$> _index x' ∧
     (∃ h, _head x' = Some h ∧ item_num x p ≤ item_num x' h) ∧
     ∃ x1, link_outcome x p x1 (Ok tt)) ∨
  (∃ r, r ≠ Ok tt ∧ _push_block pick n p x = (x, r) ∧ link_outcome x p x r).

Definition next_spec (n : nat) : Prop := ∀ pending x p,
  fork_inv (item_id x p :: pending) x → p < _next_ptr x → _head x ≠ None →
  item_id x p ∈ item_id x <$> _index x → (2 * length (_unlinked_index x) + 1 ≤ n)%nat →
  ∃ x', _push_next pick n p x = (x', Ok tt) ∧ fork_inv pending x' ∧ grows x x'.

(** Taking one item out of the unlinked index. *)
Lemma unlink_spec pending x t :
  fork_inv pending x → t ∈ _unlinked_index x →
  let x1 := set_unlinked (filter (λ q, q ≠ t) (_unlinked_index x)) x in
  fork_inv pending x1 ∧ grows x x1 ∧
  (length (_unlinked_index x1) < length (_unlinked_index x))%nat.
Proof.
  intros [Ho Hu Hpr Hc] Ht x1.
  assert (filter (λ q, q ≠ t) (_unlinked_index x) ⊆ _unlinked_index x) as Hsub.
  { by intros q [_ Hq]%list_elem_of_filter. }
  assert (length (_unlinked_index x1) < length (_unlinked_index x))%nat as Hlt.
  { simpl. apply (length_filter_lt _ _ t Ht). naive_solver. }
  split_and!; [| |done].
  - split; simpl; [|done|done|].
    + intros p [Hp|[Hp|Hp]]; apply Ho; [by left|by right; left; apply Hsub|by right; right].
    + intros t' p Ht' Hp. apply Hc; [by apply Hsub|done].
  - simpl in Hlt. split; simpl; try done; [lia|unfold head_num_le; simpl; by destruct (_head x)].
Qed.

Lemma push_next_step n : push_spec n → next_spec n → next_spec (S n).
Proof.
  intros IHp IHn pending x p Hinv Hp Hh Hid Hn. simpl. unfold st_get.
  rewrite (stM_bind_Ok _ _ x x x) by done.
  destruct (find_by_previous pick x (_unlinked_index x) (item_id x p)) as [t|] eqn:Ht.
  - apply pick_some, list_elem_of_filter in Ht as [Htp Htu].
    destruct (unlink_spec _ x t Hinv Htu) as (Hinv1 & G1 & Hlt).
    set (x1 := set_unlinked (filter (λ q, q ≠ t) (_unlinked_index x)) x) in *.
    rewrite (stM_bind_Ok _ _ x x1 tt) by done.
    assert (t < _next_ptr x1) as Htn by (apply (inv_owned _ _ Hinv); by right; left).
    assert (∃ x2, swallow_assert (_push_block pick n t) x1 = (x2, Ok tt) ∧
      fork_inv (item_id x p :: pending) x2 ∧ grows x1 x2) as (x2 & Hrun & Hinv2 & G2).
    { unfold swallow_assert.
      destruct (IHp _ x1 t Hinv1 Htn ltac:(lia)) as [(x2 & -> & Hinv2 & G2 & _)|(r & Hr & -> & Hout)].
      { by exists x2. }
      exists x1. inversion Hout; subst; [done|split_and!; [done|done|apply grows_refl]|].
      exfalso. rewrite (grows_previous _ _ _ G1), Htp in *.
      match goal with Hx : _ ∉ _ |- _ => apply Hx end.
      by rewrite (list_fmap_ext _ (item_id x)). }
    rewrite (stM_bind_Ok _ _ _ _ _ Hrun).
    assert (grows x x2) as G by (by apply (grows_trans _ x1)).
    destruct (IHn pending x2 p) as (x3 & Hrun3 & Hinv3 & G3).
    + by rewrite (grows_id _ _ _ G).
    + by rewrite (grows_next _ _ G).
    + pose proof (grows_head _ _ G) as Hhd. unfold head_num_le in Hhd.
      destruct (_head x); [|done]. by destruct (_head x2).
    + rewrite (grows_id _ _ _ G), (list_fmap_ext _ (item_id x)) by (intros; by apply grows_id).
      apply list_elem_of_fmap in Hid as (q & -> & Hq). apply list_elem_of_fmap_2.
      by apply (grows_index _ _ G).
    + pose proof (grows_length _ _ G2). lia.
    + exists x3. split_and!; [done|done|by apply (grows_trans _ x2)].
  - exists x. split_and!; [done| |apply grows_refl].
    apply pick_none in Ht. destruct Hinv as [Ho Hu Hpr Hc]. split; try done.
    intros t q Htu Hq Htq. pose proof (Hc t q Htu Hq Htq) as [E|?]%elem_of_cons; [|done].
    exfalso. assert (t ∈ filter (λ p0, item_previous x p0 = item_id x p) (_unlinked_index x)) as Hin.
    { apply list_elem_of_filter. by rewrite Htq. }
    rewrite Ht in Hin. by apply elem_of_nil in Hin.
Qed.

Lemma push_block_step n : next_spec n → push_spec (S n).
Proof.
  intros IHn pending x p Hinv Hp Hn. simpl.
  pose proof (link_item_spec pending x p Hinv Hp) as Hlink.
  destruct (link_item p x) as [x1 r] eqn:Hl. destruct Hlink as [Hout Hinv1].
  destruct r as [[]|e].
  2:{ right. exists (Throw e). split; [done|]. inversion Hout; subst;
      (split; [by apply (stM_bind_Throw _ _ _ _ _ Hl)|done]). }
  left. pose proof Hout as Hout'. inversion Hout' as [? Ei Eu Eh G Hroot Hok| |]; subst.
  rewrite (stM_bind_Ok _ _ _ _ _ Hl).
  destruct (insert_and_raise_head_spec pending x1 p) as (Hinv2 & G2 & Eu2 & Hid & h & Hh & Hph);
    [done|by rewrite (grows_next _ _ G)|by unfold linked_or_root in *; rewrite Eh|].
  set (x2 := insert_and_raise_head p x1) in *.
  rewrite (stM_bind_Ok _ _ x1 x2 tt) by done.
  assert (grows x x2) as G' by (by apply (grows_trans _ x1)).
  destruct (IHn pending x2 p) as (x3 & Hrun & Hinv3 & G3).
  - by rewrite (grows_id _ _ _ G2).
  - by rewrite (grows_next _ _ G').
  - by rewrite Hh.
  - by rewrite (grows_id _ _ _ G2).
  - rewrite Eu2, Eu. lia.
  - exists x3. split_and!; [done|done|by apply (grows_trans _ x2)| | |by exists x1].
    + rewrite (grows_id _ _ _ G) in Hid. apply list_elem_of_fmap in Hid as (q & -> & Hq).
      rewrite <- (grows_id _ _ q G3). apply list_elem_of_fmap_2. by apply (grows_index _ _ G3).
    + pose proof (grows_head _ _ G3) as Hhd. unfold head_num_le in Hhd. rewrite Hh in Hhd.
      destruct (_head x3) as [h3|]; [|done]. exists h3. split; [done|].
      rewrite (grows_num _ _ _ G) in Hph. lia.
Qed.

Lemma push_specs n : push_spec n ∧ next_spec n.
Proof.
  induction n as [|n [IHp IHn]].
  - split; intros pending x p; intros; lia.
  - split; [by apply push_block_step|by apply push_next_step].
Qed.

End push_spec.

(** *** The contract of [push_block] *)

(** When the block is taken into the tree: it is recent enough and its parent is a
    valid block of the tree (or it has none, or the tree is empty). *)
Definition accepts (x : fork_database) (b : signed_block_header) : Prop :=
  match _head x with
  | None => True
  | Some h =>
      oldest_allowed x h < get_block_num b ∧
      (previous b = null_block_id ∨
       ∃ q, q ∈ _index x ∧ item_id x q = previous b ∧ invalid (_heap x !!! q) = false)
  end.

Lemma unique_id x p q :
  NoDup (item_id x <$> _index x) → p ∈ _index x → q ∈ _index x → item_id x p = item_id x q → p = q.
Proof.
  intros Hnd [i Hi]%list_elem_of_lookup [j Hj]%list_elem_of_lookup E.
  assert (i = j) as ->; [|congruence].
  apply (NoDup_lookup _ i j (item_id x p) Hnd).
  - by rewrite list_lookup_fmap, Hi.
  - by rewrite list_lookup_fmap, Hj, E.
Qed.

(** A fresh item changes nothing for the others. *)
Lemma make_item_block b x p :
  p < _next_ptr x → _heap (make_item b x) !!! p = _heap x !!! p.
Proof. intros Hp. simpl. rewrite lookup_total_insert_ne by lia. done. Qed.

Lemma make_item_id b x p : p < _next_ptr x → item_id (make_item b x) p = item_id x p.
Proof. intros Hp. unfold item_id. by rewrite make_item_block. Qed.
Lemma make_item_num b x p : p < _next_ptr x → item_num (make_item b x) p = item_num x p.
Proof. intros Hp. unfold item_num. by rewrite make_item_block. Qed.

Lemma make_item_ids pending b x :
  fork_inv pending x → item_id (make_item b x) <$> _index x = item_id x <$> _index x.
Proof.
  intros Hinv. apply Forall_fmap_ext_1, Forall_forall. intros p Hp. apply make_item_id.
  apply (inv_owned _ _ Hinv). by left.
Qed.

Lemma make_item_new b x :
  item_id (make_item b x) (_next_ptr x) = get_block_id b ∧
  item_num (make_item b x) (_next_ptr x) = get_block_num b ∧
  item_previous (make_item b x) (_next_ptr x) = previous b.
Proof.
  unfold item_id, item_num, item_previous. simpl. by rewrite lookup_total_insert_eq.
Qed.

Lemma make_item_inv pending b x : fork_inv pending x → fork_inv pending (make_item b x).
Proof.
  intros Hinv. pose proof Hinv as [Ho Hu Hpr Hc]. split.
  - intros p Hp. simpl. pose proof (Ho p Hp). lia.
  - simpl. by rewrite (make_item_ids pending).
  - intros p q. simpl. destruct (decide (p = _next_ptr x)) as [->|Hne].
    { by rewrite lookup_total_insert_eq. }
    unfold item_previous, item_num at 1. simpl. rewrite lookup_total_insert_ne by done.
    intros Hpq. destruct (Hpr p q Hpq) as (H1 & H2 & H3).
    rewrite make_item_id, make_item_num by done. split_and!; [done|done|lia].
  - intros t p Ht Hp. assert (t < _next_ptr x) as Htn by (apply Ho; by right; left).
    assert (p < _next_ptr x) as Hpn by (apply Ho; by left).
    rewrite make_item_id by done. unfold item_previous. rewrite make_item_block by done.
    by apply Hc.
Qed.

Lemma make_item_accepts pending b x :
  fork_inv pending x →
  accepts x b ↔ accepts (make_item b x) b.
Proof.
  intros Hinv. unfold accepts. simpl. destruct (_head x) as [h|] eqn:Hh; [|done].
  assert (∀ p, owned x p → p < _next_ptr x) as Ho by apply Hinv.
  assert (oldest_allowed (make_item b x) h = oldest_allowed x h) as ->.
  { unfold oldest_allowed. rewrite make_item_num; [done|]. apply Ho. by right; right. }
  assert (∀ q, q ∈ _index x → item_id (make_item b x) q = item_id x q ∧
    <[_next_ptr x:=ForkItem b None false]> (_heap x) !!! q = _heap x !!! q) as E.
  { intros q Hq. assert (q < _next_ptr x) by (apply Ho; by left).
    by rewrite make_item_id, lookup_total_insert_ne by lia. }
  apply and_iff_compat_l, or_iff_compat_l.
  split; intros (q & Hq & Hid & Hv); exists q; destruct (E q Hq) as [E1 E2];
    rewrite ?E1, ?E2 in *; done.
Qed.

Lemma link_outcome_accepts pending x p x1 r :
  fork_inv pending x → link_outcome x p x1 r →
  (r = Ok tt ↔ accepts x (full_block (_heap x !!! p))).
Proof.
  intros Hinv Hout. unfold accepts. fold (item_num x p) (item_previous x p).
  destruct Hout as [x1 Ei Eu Eh G Hroot Hok|msg h Hh Hbad|Hh Hnull Hno].
  - split; [|done]. intros _. destruct (_head x); [|done]. by apply Hok.
  - rewrite Hh. split; [done|]. intros [Hold Hpar].
    destruct Hbad as [Hbad|(Hnull & q & Hq & Hid & Hinvalid)]; [lia|].
    destruct Hpar as [?|(q' & Hq' & Hid' & Hval)]; [done|].
    assert (q = q') as -> by (apply (unique_id x); [apply Hinv|done|done|congruence]).
    congruence.
  - split; [done|]. destruct (_head x); [|done].
    intros [_ [?|(q & Hq & Hid & _)]]; [done|]. destruct Hno. rewrite <- Hid.
    by apply list_elem_of_fmap_2.
Qed.

(** Caching a block that does not link. *)
Lemma cache_unlinked_inv x p :
  fork_inv [] x → p < _next_ptr x → item_previous x p ∉ item_id x <$> _index x →
  fork_inv [] (set_unlinked (insert_item x (_unlinked_index x) p) x).
Proof.
  intros [Ho Hu Hpr Hc] Hp Hno.
  assert (∀ q, q ∈ insert_item x (_unlinked_index x) p → q ∈ _unlinked_index x ∨ q = p) as Hin.
  { unfold insert_item. intros q. destruct (find_id _ _ _); [by left|].
    rewrite elem_of_app, list_elem_of_singleton. auto. }
  split; simpl; [|done|done|].
  - intros q [Hq|[Hq|Hq]]; [apply Ho; by left| |apply Ho; by right; right].
    destruct (Hin q Hq) as [?| ->]; [apply Ho; by right; left|done].
  - intros t q Ht Hq Htq. destruct (Hin t Ht) as [Ht'| ->]; [by apply (Hc t q)|].
    destruct Hno. change (item_previous x p = item_id x q) in Htq. rewrite Htq.
    by apply list_elem_of_fmap_2.
Qed.

Lemma make_item_head pending b x :
  fork_inv pending x →
  (head_longest x → head_longest (make_item b x)) ∧
  head_block_num (make_item b x) = head_block_num x.
Proof.
  intros Hinv. assert (∀ q, owned x q → item_num (make_item b x) q = item_num x q) as E
    by (intros q Hq; apply make_item_num, (inv_owned _ _ Hinv), Hq).
  unfold head_longest, head_block_num. simpl. destruct (_head x) as [h|] eqn:Hh; [|done].
  split; [|apply E; unfold owned; auto]. intros Hl q Hq.
  rewrite (E q), (E h) by (unfold owned; auto). by apply Hl.
Qed.

Lemma cached_known x p :
  is_known_block (set_unlinked (insert_item x (_unlinked_index x) p) x) (item_id x p) = true.
Proof.
  unfold is_known_block. destruct (find_id _ (_index _) _); [done|].
  destruct (find_id _ (_unlinked_index _) _) eqn:E; [done|].
  apply find_id_None in E. destruct E.
  unfold insert_item. destruct (find_id x (_unlinked_index x) (item_id x p)) as [q|] eqn:Eq.
  - apply find_id_Some in Eq as [Hq Hid]. rewrite <- Hid. by apply list_elem_of_fmap_2.
  - apply list_elem_of_fmap_2, elem_of_app. right. by left.
Qed.

Lemma linked_lock x t : linked x t →
  ∃ q, lock_prev x t = Some q ∧ q ∈ _index x ∧ item_id x q = item_previous x t.
Proof.
  intros (q & Ht & Hq & E). exists q. unfold lock_prev, alive. rewrite Ht.
  by rewrite (bool_decide_eq_true_2 (q ∈ _index x)).
Qed.

(** C15. Pushing a block: the block is taken into the tree exactly when it is recent
    enough and its parent is a valid block of the tree; then every block that was
    added to a tree that has a head and whose header names a previous block is linked
    to that block, which is in the tree, the head is at least
    as high as both the block and the old head, and if the head was a longest fork
    it still is.  A block whose parent is unknown is cached, any other is refused,
    and both leave the tree as it is.  In every case ids stay unique, every link
    leads to the parent, one block lower, and no cached block is left whose parent
    is in the tree: pushing a block also links all the blocks that were waiting for
    it, for whatever order the hashed container yields them in, and terminates. *)
Theorem push_block_contract (pick : list Z → option Z)
    (pick_some : ∀ l p, pick l = Some p → p ∈ l) (pick_none : ∀ l, pick l = None → l = [])
    (b : signed_block_header) (x : fork_database) :
  fork_inv [] x →
  let '(x', r) := push_block pick b x in
  fork_inv [] x' ∧ (head_longest x → head_longest x') ∧
  (is_ok r = true ↔ accepts x b) ∧
  match r with
  | Ok h =>
      h = _head x' ∧ get_block_id b ∈ item_id x' <$> _index x' ∧ _index x ⊆ _index x' ∧
      (∀ t, _head x ≠ None → t ∈ _index x' → t ∉ _index x → item_previous x' t ≠ null_block_id →
         ∃ q, lock_prev x' t = Some q ∧ q ∈ _index x' ∧ item_id x' q = item_previous x' t) ∧
      get_block_num b ≤ head_block_num x' ∧ head_block_num x ≤ head_block_num x'
  | Throw unlinkable_block_exception =>
      _index x' = _index x ∧ _head x' = _head x ∧ is_known_block x' (get_block_id b) = true
  | Throw (assert_exception _) =>
      _index x' = _index x ∧ _unlinked_index x' = _unlinked_index x ∧ _head x' = _head x
  | _ => False
  end.
Proof.
  intros Hinv. unfold push_block.
  set (p := _next_ptr x). set (x0 := make_item b x).
  pose proof (make_item_inv [] b x Hinv) as Hinv0. fold x0 in Hinv0.
  destruct (make_item_new b x) as (Eid & Enum & Eprev). fold x0 p in Eid, Enum, Eprev.
  destruct (make_item_head [] b x Hinv) as [Hl0 Ehead]. fold x0 in Hl0, Ehead.
  pose proof (make_item_accepts [] b x Hinv) as Hacc0. fold x0 in Hacc0.
  destruct (push_specs pick pick_some pick_none (push_fuel x0)) as [Hpush _].
  destruct (Hpush [] x0 p Hinv0) as [(x' & -> & Hinv' & G & Hin & (h & Hh & Hnum) & x1 & Hout)
    |(r & Hr & -> & Hout)]; [simpl; lia|done|..].
  all: pose proof (link_outcome_accepts [] x0 p _ _ Hinv0 Hout) as Hacc.
  all: replace (full_block (_heap x0 !!! p)) with b in Hacc
    by (unfold x0, p; simpl; by rewrite lookup_total_insert_eq).
  all: rewrite <- Hacc0 in Hacc.
  - split_and!; [done| |by rewrite <- Hacc|done|by rewrite <- Eid| | | |].
    + intros Hl. by apply (grows_longest _ _ G), Hl0.
    + apply (grows_index _ _ G).
    + intros t Hhd Ht Hno Hnull. apply linked_lock.
      by destruct (grows_linked _ _ G t Ht Hno) as [?|[?|?]].
    + unfold head_block_num. rewrite Hh. by rewrite <- Enum.
    + rewrite <- Ehead. pose proof (grows_head _ _ G) as Hhd. unfold head_num_le in Hhd.
      unfold head_block_num. rewrite Hh in *. destruct (_head x0); [done|].
      pose proof (item_num_range x' h). lia.
  - inversion Hout as [|msg h0 Hh0 Hbad|Hh0 Hnull Hno]; subst; [done|..].
    + split_and!; try done. by rewrite <- Hacc.
    + split_and!; try done.
      * apply cache_unlinked_inv; [done|simpl; lia|done].
      * by rewrite <- Hacc.
      * rewrite <- Eid. apply cached_known.
Qed.

(** An empty database with a first block. *)
Lemma start_block_inv b : fork_inv [] (start_block b empty_fork_database) ∧
  head_longest (start_block b empty_fork_database).
Proof.
  split; [split|].
  - intros p [Hp|[Hp|Hp]]; simpl in *; [|by apply elem_of_nil in Hp|injection Hp as <-; lia].
    apply list_elem_of_singleton in Hp as ->. lia.
  - simpl. apply NoDup_singleton.
  - intros p q. simpl. destruct (decide (p = 0)) as [->|].
    + by rewrite lookup_total_insert_eq.
    + by rewrite lookup_total_insert_ne, lookup_total_empty by done.
  - intros t p Ht. by apply elem_of_nil in Ht.
  - unfold head_longest. simpl. by intros p ->%list_elem_of_singleton.
Qed.

(** A chain of three blocks. *)
Definition sample_block (d : Z) (parent : signed_block_header) : signed_block_header :=
  BlockHeader (get_block_id parent) 0 "initminer" d.
Definition sample_b1 : signed_block_header := BlockHeader null_block_id 0 "initminer" 11.
Definition sample_b2 : signed_block_header := sample_block 12 sample_b1.
Definition sample_b3 : signed_block_header := sample_block 13 sample_b2.

(** Block 3 arrives before block 2 and is cached; block 2 then links both. *)
Lemma push_block_contract_witness :
  let x1 := start_block sample_b1 empty_fork_database in
  let '(x2, r2) := push_block head sample_b3 x1 in
  let '(x3, r3) := push_block head sample_b2 x2 in
  r2 = Throw unlinkable_block_exception ∧ is_ok r3 = true ∧ head_block_num x3 = 3 ∧
  fork_inv [] x3 ∧ head_longest x3.
Proof.
  assert (∀ (l : list Z) p, head l = Some p → p ∈ l) as Hsome
    by (intros [|y l] p [= ->]; left).
  assert (∀ l : list Z, head l = None → l = []) as Hnone by (by intros [|]).
  destruct (start_block_inv sample_b1) as [Hinv1 Hl1].
  pose proof (push_block_contract head Hsome Hnone sample_b3 _ Hinv1) as H2.
  destruct (push_block head sample_b3 _) as [x2 r2] eqn:E2.
  pose proof (push_block_contract head Hsome Hnone sample_b2 x2) as H3.
  destruct H2 as (Hinv2 & Hl2 & _).
  assert (x2 = (push_block head sample_b3 (start_block sample_b1 empty_fork_database)).1) as Ex2
    by (by rewrite E2).
  assert (r2 = (push_block head sample_b3 (start_block sample_b1 empty_fork_database)).2) as Er2
    by (by rewrite E2).
  specialize (H3 Hinv2). simpl. rewrite E2. destruct (push_block head sample_b2 x2) as [x3 r3] eqn:E3.
  destruct H3 as (Hinv3 & Hl3 & _).
  split_and!; [by rewrite Er2| | |done|by apply Hl3, Hl2].
  - replace r3 with (push_block head sample_b2 x2).2 by (by rewrite E3). by rewrite Ex2.
  - replace x3 with (push_block head sample_b2 x2).1 by (by rewrite E3). by rewrite Ex2.
Defined.

(** *** Branches *)

(** Following live links from [p] to [a]: the items passed, [p] included and [a]
    not. *)
Inductive path (x : fork_database) : Z → list Z → Z → Prop :=
| path_nil p : path x p [] p
| path_cons p q l a : lock_prev x p = Some q → path x q l a → path x p (p :: l) a.

Lemma lock_prev_inv pending x p q :
  fork_inv pending x → lock_prev x p = Some q →
  item_previous x p = item_id x q ∧ item_num x p = item_num x q + 1.
Proof.
  intros Hinv. unfold lock_prev. destruct (prev _) as [q'|] eqn:E; [|done].
  destruct (alive x q'); [|done]. intros [= ->].
  by destruct (inv_prev _ _ Hinv p q E) as (?&?&?).
Qed.

Lemma path_num pending x p l a :
  fork_inv pending x → path x p l a → item_num x p = item_num x a + Z.of_nat (length l).
Proof.
  intros Hinv. induction 1 as [p|p q l a Hpq Hl IH]; simpl; [lia|].
  destruct (lock_prev_inv _ _ _ _ Hinv Hpq). lia.
Qed.

(** Climbing down along a path stops at the height asked for. *)
Lemma climb_down_path pending x p l a t n acc :
  fork_inv pending x → path x p l a → item_num x a ≤ t → item_num x p - t ≤ Z.of_nat n →
  ∃ l' l'' r, l = l' ++ l'' ∧ climb_down n x p t acc = Ok (acc ++ l', r) ∧ path x r l'' a ∧
    item_num x r = Z.min (item_num x p) t.
Proof.
  intros Hinv Hp. revert n acc. induction Hp as [p|p q l a Hpq Hl IH]; intros n acc Ha Hn.
  - exists [], [], p. split_and!; [done| |constructor|lia]. rewrite app_nil_r.
    destruct n; simpl; by replace (t <? item_num x p) with false by (symmetry; bool_to_prop; lia).
  - destruct (lock_prev_inv _ _ _ _ Hinv Hpq) as [_ Hnum].
    destruct (Z.ltb_spec t (item_num x p)) as [Hlt|Hge].
    + destruct n as [|n]; [lia|]. destruct (IH n (acc ++ [p]) Ha) as (l' & l'' & r & -> & Hrun & Hr & Hrn);
        [lia|]. exists (p :: l'), l'', r. split_and!; [done| |done|lia].
      simpl. replace (t <? item_num x p) with true by (symmetry; bool_to_prop; lia).
      by rewrite Hpq, Hrun, <- app_assoc.
    + exists [], (p :: l), p. split_and!; [done| |by apply (path_cons _ _ q)|lia].
      rewrite app_nil_r. destruct n; simpl;
        by replace (t <? item_num x p) with false by (symmetry; bool_to_prop; lia).
Qed.

Lemma path_nil_inv x p a : path x p [] a → p = a.
Proof. by inversion 1. Qed.

Lemma path_head x p l a : path x p l a → p ∈ l ++ [a].
Proof. destruct 1; simpl; [by left|by left]. Qed.

Lemma climb_both_path pending x p q l1 l2 u v n acc1 acc2 :
  fork_inv pending x → path x p l1 u → path x q l2 v → length l1 = length l2 →
  item_previous x u = item_previous x v → (length l1 ≤ n)%nat →
  (∀ s t, s ∈ l1 ++ [u] → t ∈ l2 ++ [v] → item_id x s ≠ item_id x t) →
  climb_both n x p q acc1 acc2 = Ok (acc1 ++ l1, acc2 ++ l2, u, v).
Proof.
  intros Hinv Hp. revert q l2 n acc1 acc2. induction Hp as [p|p p' l a Hpp Hl IH];
    intros q l2 n acc1 acc2 Hq Hlen Huv Hn Hdis.
  - destruct Hq; [|done]. rewrite !app_nil_r.
    destruct n; simpl; by rewrite bool_decide_eq_true_2.
  - destruct Hq as [|q q' l2 v Hqq Hl2]; [done|]. destruct n as [|n]; simpl in Hn; [lia|].
    destruct (lock_prev_inv _ _ _ _ Hinv Hpp) as [Ep _].
    destruct (lock_prev_inv _ _ _ _ Hinv Hqq) as [Eq _].
    simpl. rewrite bool_decide_eq_false_2.
    2:{ rewrite Ep, Eq. apply Hdis; simpl; right; by eapply path_head. }
    rewrite Hpp, Hqq, (IH q' l2 n) by (done || (simpl in *; lia) || (intros; apply Hdis; by right)).
    by rewrite <- !app_assoc.
Qed.

Lemma find_id_index pending x p :
  fork_inv pending x → p ∈ _index x → find_id x (_index x) (item_id x p) = Some p.
Proof.
  intros Hinv Hp. destruct (find_id x (_index x) (item_id x p)) as [q|] eqn:E.
  - apply find_id_Some in E as [Hq Hid]. f_equal. by apply (unique_id x); [apply Hinv|..].
  - apply find_id_None in E. destruct E. by apply list_elem_of_fmap_2.
Qed.

(** Both branches cut to the height of the lower one. *)
Lemma climb_level pending x p q l1 l2 u v :
  fork_inv pending x → path x p l1 u → path x q l2 v → item_num x u = item_num x v →
  ∃ k1 k2 m1 m2 p' q', l1 = k1 ++ m1 ∧ l2 = k2 ++ m2 ∧ path x p' m1 u ∧ path x q' m2 v ∧
    climb_down (climb_fuel x p) x p (item_num x q) [] = Ok (k1, p') ∧
    climb_down (climb_fuel x q) x q (item_num x p') [] = Ok (k2, q') ∧
    length m1 = length m2.
Proof.
  intros Hinv Hp Hq Huv.
  pose proof (path_num _ _ _ _ _ Hinv Hp) as Np. pose proof (path_num _ _ _ _ _ Hinv Hq) as Nq.
  pose proof (item_num_range x p). pose proof (item_num_range x q). unfold climb_fuel.
  destruct (climb_down_path pending x p l1 u (item_num x q) (Z.to_nat (item_num x p)) [])
    as (k1 & m1 & p' & -> & R1 & P1 & N1); [done..|lia|lia|].
  pose proof (path_num _ _ _ _ _ Hinv P1) as Np'.
  destruct (climb_down_path pending x q l2 v (item_num x p') (Z.to_nat (item_num x q)) [])
    as (k2 & m2 & q' & -> & R2 & P2 & N2); [done..|lia|lia|].
  pose proof (path_num _ _ _ _ _ Hinv P2) as Nq'.
  exists k1, k2, m1, m2, p', q'. split_and!; try done. lia.
Qed.

Lemma climb_fuel_path pending x p l u :
  fork_inv pending x → path x p l u → (length l ≤ climb_fuel x p)%nat.
Proof.
  intros Hinv Hp. pose proof (path_num _ _ _ _ _ Hinv Hp). pose proof (item_num_range x u).
  unfold climb_fuel. lia.
Qed.

Lemma climb_both_same n x p l1 l2 : climb_both n x p p l1 l2 = Ok (l1, l2, p, p).
Proof. destruct n; simpl; by rewrite bool_decide_eq_true_2. Qed.

Lemma same_previous_num x u v :
  item_previous x u = item_previous x v → item_num x u = item_num x v.
Proof. intros E. by rewrite !item_num_eq, E. Qed.

Lemma fetch_branch_from_run x first second p q k1 k2 p' q' l1 l2 u v :
  find_id x (_index x) first = Some p → find_id x (_index x) second = Some q →
  climb_down (climb_fuel x p) x p (item_num x q) [] = Ok (k1, p') →
  climb_down (climb_fuel x q) x q (item_num x p') [] = Ok (k2, q') →
  climb_both (climb_fuel x p') x p' q' k1 k2 = Ok (l1, l2, u, v) →
  fetch_branch_from x first second = Ok (push_siblings x l1 l2 u v).
Proof.
  intros Hp Hq H1 H2 H3. unfold fetch_branch_from.
  apply bind_Ok. exists p. split; [by apply from_option_or_Ok|].
  apply bind_Ok. exists q. split; [by apply from_option_or_Ok|].
  apply bind_Ok. exists (k1, p'). split; [exact H1|].
  apply bind_Ok. exists (k2, q'). split; [exact H2|].
  apply bind_Ok. exists (l1, l2, u, v). by split.
Qed.

Lemma fetch_branch_from_unknown x id id' :
  id ∉ item_id x <$> _index x →
  is_ok (fetch_branch_from x id id') = false ∧ is_ok (fetch_branch_from x id' id) = false.
Proof.
  intros Hid%find_id_None. unfold fetch_branch_from. rewrite Hid. split; [done|].
  by destruct (find_id x (_index x) id').
Qed.

(** [fetch_branch_from] finds where two branches part: if two blocks of the tree
    have ancestors [u] and [v], different blocks with the same parent, and the
    branches above them share no block, the result is the two branches down to [u]
    and [v]; if one block descends from the other (or is the other), the result is
    the branch between them and an empty branch.  An unknown block is an error. *)
Theorem fetch_branch_from_parts pending (x : fork_database) (p q u v : Z) (l1 l2 : list Z) :
  fork_inv pending x → p ∈ _index x → q ∈ _index x →
  path x p l1 u → path x q l2 v →
  (item_previous x u = item_previous x v →
   (∀ s t, s ∈ l1 ++ [u] → t ∈ l2 ++ [v] → item_id x s ≠ item_id x t) →
   fetch_branch_from x (item_id x p) (item_id x q) = Ok (l1 ++ [u], l2 ++ [v])) ∧
  (u = q → fetch_branch_from x (item_id x p) (item_id x q) = Ok (l1, [])) ∧
  (v = p → fetch_branch_from x (item_id x p) (item_id x q) = Ok ([], l2)) ∧
  (∀ id, id ∉ item_id x <$> _index x →
   is_ok (fetch_branch_from x id (item_id x q)) = false ∧
   is_ok (fetch_branch_from x (item_id x p) id) = false).
Proof.
  intros Hinv Hpi Hqi Hp Hq.
  pose proof (find_id_index pending x p Hinv Hpi) as Fp.
  pose proof (find_id_index pending x q Hinv Hqi) as Fq.
  split_and!.
  - intros Huv Hdis.
    destruct (climb_level pending x p q l1 l2 u v) as
      (k1 & k2 & m1 & m2 & p' & q' & -> & -> & P1 & P2 & R1 & R2 & Hlen);
      [done..|by apply same_previous_num|].
    rewrite (fetch_branch_from_run x _ _ p q k1 k2 p' q' (k1 ++ m1) (k2 ++ m2) u v Fp Fq R1 R2).
    + unfold push_siblings. rewrite bool_decide_eq_true_2; [done|]. apply Hdis; apply elem_of_app; right; by left.
    + apply (climb_both_path pending); [done..|by apply (climb_fuel_path pending x p' m1 u)|].
      intros s t Hs Ht. apply Hdis; rewrite <- app_assoc; apply elem_of_app; by right.
  - intros ->.
    destruct (climb_level pending x p q l1 [] q q) as
      (k1 & k2 & m1 & m2 & p' & q' & -> & E & P1 & P2 & R1 & R2 & Hlen); [done..|constructor|done|].
    symmetry in E. apply app_nil in E as [-> ->]. apply nil_length_inv in Hlen as ->.
    apply path_nil_inv in P1 as ->. apply path_nil_inv in P2 as ->. rewrite app_nil_r.
    rewrite (fetch_branch_from_run _ _ _ _ _ _ _ _ _ _ _ _ _ Fp Fq R1 R2 (climb_both_same _ _ _ _ _)).
    unfold push_siblings. by rewrite bool_decide_eq_false_2 by auto.
  - intros ->.
    destruct (climb_level pending x p q [] l2 p p) as
      (k1 & k2 & m1 & m2 & p' & q' & E & -> & P1 & P2 & R1 & R2 & Hlen); [done|constructor|done..|].
    symmetry in E. apply app_nil in E as [-> ->]. symmetry in Hlen. apply nil_length_inv in Hlen as ->.
    apply path_nil_inv in P1 as ->. apply path_nil_inv in P2 as ->. rewrite app_nil_r.
    rewrite (fetch_branch_from_run _ _ _ _ _ _ _ _ _ _ _ _ _ Fp Fq R1 R2 (climb_both_same _ _ _ _ _)).
    unfold push_siblings. by rewrite bool_decide_eq_false_2 by auto.
  - intros id Hid. split; [by apply (fetch_branch_from_unknown x id (item_id x q))
                         |by apply (fetch_branch_from_unknown x id (item_id x p))].
Qed.

(** *** The invariant on every run *)

Lemma push_block_inv pick b x :
  (∀ l p, pick l = Some p → p ∈ l) → (∀ l, pick l = None → l = []) →
  fork_inv [] x → fork_inv [] (push_block pick b x).1.
Proof.
  intros Hsome Hnone Hinv. unfold push_block.
  pose proof (make_item_inv [] b x Hinv) as Hinv0. set (x0 := make_item b x) in *.
  destruct (push_specs pick Hsome Hnone (push_fuel x0)) as [Hpush _].
  assert (_next_ptr x < _next_ptr x0) as Hp by (simpl; lia).
  destruct (Hpush [] x0 _ Hinv0 Hp) as [(x' & -> & Hinv' & _)|(r & Hr & -> & Hout)]; [done|done|].
  inversion Hout as [|msg h0 Hh0 Hbad|Hh0 Hnull Hno]; subst; [done|done|].
  by apply cache_unlinked_inv.
Qed.

(** Dropping items and moving the head to an item that is still owned. *)
Lemma fork_inv_shrink x x' :
  fork_inv [] x → _heap x' = _heap x → _next_ptr x' = _next_ptr x →
  sublist (_index x') (_index x) → _unlinked_index x' ⊆ _unlinked_index x →
  (∀ h, _head x' = Some h → h < _next_ptr x) → fork_inv [] x'.
Proof.
  intros [Ho Hu Hpr Hc] Eh En Hi Hun Hhead.
  assert (∀ p, item_id x' p = item_id x p) as Eid by (intros p; unfold item_id; by rewrite Eh).
  assert (∀ p, item_num x' p = item_num x p) as Enum by (intros p; unfold item_num; by rewrite Eh).
  assert (∀ p, item_previous x' p = item_previous x p) as Eprev
    by (intros p; unfold item_previous; by rewrite Eh).
  assert (_index x' ⊆ _index x) as Hsub by (intros p Hp; by eapply elem_of_sublist).
  split.
  - rewrite En. intros p [Hp|[Hp|Hp]]; [apply Ho; left; by apply Hsub| |by apply Hhead].
    apply Ho; right; left. by apply Hun.
  - rewrite (list_fmap_ext _ (item_id x)) by (intros; apply Eid).
    apply (sublist_NoDup _ (item_id x <$> _index x)); [done|by apply fmap_sublist].
  - intros p q. rewrite Eh, Eprev, Eid, !Enum, En. apply Hpr.
  - intros t p Ht Hp. rewrite Eprev, Eid. by apply Hc; [apply Hun|apply Hsub].
Qed.

#[export] Instance num_le_total x : Total (num_le x).
Proof. intros p q. unfold num_le. lia. Qed.
#[export] Instance num_le_trans x : Transitive (num_le x).
Proof. intros p q r. unfold num_le. lia. Qed.

Lemma by_num_perm x l : by_num x l ≡ₚ l.
Proof. apply merge_sort_Permutation. Qed.

Lemma by_num_least x l p rest q : by_num x l = p :: rest → q ∈ l → item_num x p ≤ item_num x q.
Proof.
  intros E Hq. pose proof (StronglySorted_merge_sort (num_le x) l) as Hs.
  fold (by_num x l) in Hs. rewrite E in Hs. apply StronglySorted_inv in Hs as [_ Hall].
  rewrite <- (by_num_perm x l), E in Hq. apply elem_of_cons in Hq as [->|Hq]; [lia|].
  by apply (Forall_forall (num_le x p) rest) in Hq.
Qed.

(** Erasing from the lowest number upwards removes exactly the old blocks. *)
Lemma erase_old_filter n x limit l :
  (length l ≤ n)%nat → erase_old n x limit l = filter (λ q, limit < item_num x q) l.
Proof.
  revert l. induction n as [|n IH]; intros l Hn; simpl.
  { by rewrite (nil_length_inv l) by lia. }
  destruct (by_num x l) as [|p rest] eqn:E.
  { pose proof (by_num_perm x l) as Hp. rewrite E in Hp.
    by apply Permutation_nil in Hp as ->. }
  assert (p ∈ l) as Hp by (rewrite <- (by_num_perm x l), E; by left).
  destruct (Z.leb_spec (item_num x p) limit) as [Hle|Hgt].
  - pose proof (length_filter_lt (λ q, q ≠ p) l p Hp ltac:(naive_solver)).
    rewrite IH by lia. rewrite list_filter_filter. apply list_filter_iff. intros q.
    split; [by intros []|]. intros Hq. split; [done|]. intros ->. lia.
  - symmetry. apply filter_all, Forall_forall. intros q Hq.
    pose proof (by_num_least x l p rest q E Hq). lia.
Qed.

Lemma lock_prev_owned x p q : lock_prev x p = Some q → owned x q.
Proof.
  unfold lock_prev, alive. destruct (prev _) as [q'|]; [|done].
  destruct (bool_decide (q' ∈ _index x)) eqn:E1; [|destruct (bool_decide (q' ∈ _unlinked_index x)) eqn:E2;
    [|destruct (bool_decide (_head x = Some q')) eqn:E3]]; simpl; intros [= <-];
    bool_to_prop; unfold owned; auto.
Qed.

Lemma pop_block_inv x : fork_inv [] x → fork_inv [] (pop_block x).1.
Proof.
  intros Hinv. unfold pop_block. st_run. destruct (_head x) as [h|]; [|done].
  destruct (lock_prev x h) as [q|] eqn:Hq; [|done].
  apply (fork_inv_shrink x); simpl; try done.
  intros h' [= <-]. by eapply (inv_owned _ _ Hinv), lock_prev_owned.
Qed.

Lemma set_max_size_inv s x : fork_inv [] x → fork_inv [] (set_max_size s x).
Proof.
  intros Hinv. unfold set_max_size. cbn [_head set_max_size_field].
  destruct (_head x) as [h|] eqn:Hh.
  - apply (fork_inv_shrink x); simpl; rewrite ?erase_old_filter by done; try done.
    + apply sublist_filter.
    + by intros q [_ Hq]%list_elem_of_filter.
    + intros h' Hh'. apply (inv_owned _ _ Hinv). right; right. congruence.
  - apply (fork_inv_shrink x); simpl; try done. by rewrite Hh.
Qed.

Lemma remove_inv id x : fork_inv [] x → fork_inv [] (remove id x).
Proof.
  intros Hinv. unfold remove.
  set (x1 := match _head x with Some h => _ | None => x end).
  assert (_heap x1 = _heap x ∧ _next_ptr x1 = _next_ptr x ∧ _index x1 = _index x ∧
    _unlinked_index x1 = _unlinked_index x ∧ ∀ h, _head x1 = Some h → owned x h)
    as (E1 & E2 & E3 & E4 & E5).
  { unfold x1. destruct (_head x) as [h|] eqn:Hh; [destruct (bool_decide _)|]; split_and!; try done.
    - simpl. intros h'. apply lock_prev_owned.
    - intros h' Hh'. right; right. congruence.
    - intros h' Hh'. right; right. congruence. }
  apply (fork_inv_shrink x); simpl; try done.
  - rewrite E3. apply sublist_filter.
  - by rewrite E4.
  - intros h Hh. by apply (inv_owned _ _ Hinv), E5.
Qed.

(** The calls that a running node makes. *)
Inductive fork_step (pick : list Z → option Z) (x : fork_database) : fork_database → Prop :=
| step_push b : fork_step pick x (push_block pick b x).1
| step_pop : fork_step pick x (pop_block x).1
| step_max_size s : fork_step pick x (set_max_size s x)
| step_remove id : fork_step pick x (remove id x)
| step_set_head h : owned x h → fork_step pick x (set_head (Some h) x).

Inductive fork_reachable (pick : list Z → option Z) : fork_database → Prop :=
| reach_start b : fork_reachable pick (start_block b empty_fork_database)
| reach_step x x' : fork_reachable pick x → fork_step pick x x' → fork_reachable pick x'.

(** C17. Whatever sequence of pushes, pops, removals, prunings and head changes a node
    makes after its first block, the fork database stays well formed: the ids of its
    blocks are unique, every link of an item leads to the block that its header names
    as the previous one, which is exactly one lower, and no block is left waiting in
    the cache although its parent is in the tree. *)
Theorem fork_database_well_formed (pick : list Z → option Z)
    (pick_some : ∀ l p, pick l = Some p → p ∈ l) (pick_none : ∀ l, pick l = None → l = [])
    (x : fork_database) :
  fork_reachable pick x →
  NoDup (item_id x <$> _index x) ∧
  (∀ p q, lock_prev x p = Some q →
     item_id x q = item_previous x p ∧ item_num x q = item_num x p - 1) ∧
  (∀ t p, t ∈ _unlinked_index x → p ∈ _index x → item_previous x t ≠ item_id x p).
Proof.
  intros Hr. assert (fork_inv [] x) as Hinv.
  { induction Hr as [b|x x' Hr IH Hs]; [apply start_block_inv|].
    destruct Hs as [b| |s|id|h Hh].
    - by apply push_block_inv.
    - by apply pop_block_inv.
    - by apply set_max_size_inv.
    - by apply remove_inv.
    - apply (fork_inv_shrink x); simpl; try done. intros ? [= <-]. by apply IH. }
  split_and!.
  - apply Hinv.
  - intros p q Hpq. destruct (lock_prev_inv _ _ _ _ Hinv Hpq). split; [done|lia].
  - intros t p Ht Hp E. by apply (inv_complete _ _ Hinv t p Ht Hp), elem_of_nil in E.
Qed.

Lemma head_some (l : list Z) p : head l = Some p → p ∈ l.
Proof. destruct l; intros [= ->]. left. Qed.
Lemma head_none (l : list Z) : head l = None → l = [].
Proof. by destruct l. Qed.

(** Two branches: block 1, then 2 and 3 on one side and 2' on the other. *)
Definition sample_b2' : signed_block_header := sample_block 22 sample_b1.
Definition sample_forks : fork_database :=
  (push_block head sample_b2' (push_block head sample_b3 (push_block head sample_b2
     (start_block sample_b1 empty_fork_database)).1).1).1.

Lemma sample_forks_reachable : fork_reachable head sample_forks.
Proof.
  unfold sample_forks. do 3 (eapply reach_step; [|apply step_push]). constructor.
Qed.

Lemma fork_database_well_formed_witness :
  (∀ p q, lock_prev sample_forks p = Some q →
     item_id sample_forks q = item_previous sample_forks p ∧
     item_num sample_forks q = item_num sample_forks p - 1) ∧
  lock_prev sample_forks 2 = Some 1.
Proof.
  split; [|by vm_compute].
  apply (fork_database_well_formed head head_some head_none sample_forks sample_forks_reachable).
Defined.

Lemma sample_forks_inv : fork_inv [] sample_forks.
Proof.
  unfold sample_forks. do 3 (apply push_block_inv; [apply head_some|apply head_none|]).
  apply start_block_inv.
Qed.

Lemma sample_forks_index : _index sample_forks = [0; 1; 2; 3].
Proof. by vm_compute. Qed.

(** From block 3 and block 2' the branches part above block 1. *)
Lemma fetch_branch_from_parts_witness :
  fetch_branch_from sample_forks (get_block_id sample_b3) (get_block_id sample_b2')
    = Ok ([2; 1], [3]).
Proof.
  apply (fetch_branch_from_parts [] sample_forks 2 3 1 3 [2] []).
  - exact sample_forks_inv.
  - rewrite sample_forks_index. right; right; left.
  - rewrite sample_forks_index. right; right; right; left.
  - apply (path_cons _ 2 1); [by vm_compute|constructor].
  - constructor.
  - by vm_compute.
  - intros s t Hs Ht. apply list_elem_of_singleton in Ht as ->.
    apply elem_of_cons in Hs as [->|Hs]; [by vm_compute|].
    apply list_elem_of_singleton in Hs as ->. by vm_compute.
Defined.

(** *** The main branch *)

Lemma walk_to_num_path pending x p l a n :
  fork_inv pending x → path x p l a → (length l ≤ n)%nat →
  walk_to_num n x (Some p) (item_num x a) = Some a.
Proof.
  intros Hinv Hp. revert n. induction Hp as [p|p q l a Hpq Hl IH]; intros n Hn.
  - destruct n; simpl; by rewrite Z.ltb_irrefl.
  - pose proof (path_num _ _ _ _ _ Hinv (path_cons _ _ _ _ _ Hpq Hl)) as Hnum. simpl in Hnum, Hn.
    destruct n as [|n]; [lia|]. cbn [walk_to_num].
    replace (item_num x a <? item_num x p) with true by (symmetry; bool_to_prop; lia).
    rewrite Hpq. apply IH. lia.
Qed.

Lemma walk_main_branch_path pending x h l a :
  fork_inv pending x → _head x = Some h → path x h l a →
  walk_main_branch_to_num x (item_num x a) = Ok (Some a).
Proof.
  intros Hinv Hh Hp. unfold walk_main_branch_to_num. rewrite Hh.
  pose proof (path_num _ _ _ _ _ Hinv Hp).
  replace (item_num x h <? item_num x a) with false by (symmetry; bool_to_prop; lia).
  by rewrite (walk_to_num_path pending x h l a) by (done || by eapply climb_fuel_path).
Qed.

Lemma elem_of_fetch_by_number x n p :
  p ∈ fetch_block_by_number x n ↔ p ∈ _index x ∧ item_num x p = n.
Proof.
  unfold fetch_block_by_number. rewrite list_elem_of_filter, by_num_perm. tauto.
Qed.

(** The shortcut for a number that only one block has gives the block that the walk
    from the head would find. *)
Lemma shortcut_path pending x h l a :
  fork_inv pending x → _head x = Some h → path x h l a → a ∈ _index x →
  match fetch_block_by_number x (item_num x a) with
  | [] => Ok None
  | [p] => Ok (Some p)
  | _ => walk_main_branch_to_num x (item_num x a)
  end = Ok (Some a).
Proof.
  intros Hinv Hh Hp Ha. assert (a ∈ fetch_block_by_number x (item_num x a)) as Hin
    by by apply elem_of_fetch_by_number.
  destruct (fetch_block_by_number _ _) as [|p [|q rest]].
  - by apply elem_of_nil in Hin.
  - by apply list_elem_of_singleton in Hin as ->.
  - by apply (walk_main_branch_path pending x h l).
Qed.

Lemma path_app x p l1 l2 a :
  path x p (l1 ++ l2) a → ∃ r, path x p l1 r ∧ path x r l2 a.
Proof.
  revert p. induction l1 as [|s l1 IH]; intros p Hp; simpl in Hp.
  - exists p. split; [constructor|done].
  - inversion Hp as [|? q ? ? Hq Hl]; subst. destruct (IH q Hl) as (r & H1 & H2).
    exists r. split; [by apply (path_cons _ _ q)|done].
Qed.

Lemma collect_down_path pending x p l a n :
  fork_inv pending x → path x p l a → (length l ≤ n)%nat →
  collect_down n x (Some p) (item_num x a) = l ++ [a].
Proof.
  intros Hinv Hp. revert n. induction Hp as [p|p q l a Hpq Hl IH]; intros n Hn.
  - destruct n as [|n]; simpl; rewrite Z.leb_refl; [done|]. f_equal.
    destruct (lock_prev x p) as [q|] eqn:Hq; [|by destruct n].
    destruct (lock_prev_inv _ _ _ _ Hinv Hq) as [_ E].
    destruct n; simpl; by replace (item_num x p <=? item_num x q) with false
      by (symmetry; bool_to_prop; lia).
  - pose proof (path_num _ _ _ _ _ Hinv (path_cons _ _ _ _ _ Hpq Hl)) as Hnum. simpl in Hnum, Hn.
    destruct n as [|n]; [lia|]. cbn [collect_down].
    replace (item_num x a <=? item_num x p) with true by (symmetry; bool_to_prop; lia).
    simpl. f_equal. rewrite Hpq. apply IH. lia.
Qed.

(** Looking up blocks of the main branch: if the links from the head lead to [a]
    through blocks of the tree, then both the walk along the links and the lookup by
    number, which takes a shortcut when the number is unique, find [a]; and asking
    for a range of [count] blocks from the number of [a] gives the first [count]
    blocks of the main branch from [a] upwards, in ascending order, or all of them
    if there are fewer. *)
Theorem main_branch_lookup pending (x : fork_database) (h a : Z) (l : list Z) (count : Z) :
  fork_inv pending x → _head x = Some h → path x h l a → Forall (λ p, p ∈ _index x) (l ++ [a]) →
  1 ≤ count → item_num x a + count - 1 ≤ u32_max →
  walk_main_branch_to_num x (item_num x a) = Ok (Some a) ∧
  fetch_block_on_main_branch_by_number x (item_num x a) = Ok (Some a) ∧
  fetch_block_range_on_main_branch_by_number x (item_num x a) count
    = Ok (take (Z.to_nat count) (a :: reverse l)).
Proof.
  intros Hinv Hh Hp Hall Hc Hmax. pose proof (path_num _ _ _ _ _ Hinv Hp) as Nh.
  pose proof (item_num_range x a) as Ra.
  assert ((item_num x h <? item_num x a) = false) as Hge by (bool_to_prop; lia).
  split_and!.
  - by apply (walk_main_branch_path pending x h l).
  - unfold fetch_block_on_main_branch_by_number. rewrite Hh, Hge.
    apply Forall_app in Hall as [_ Ha]. apply Forall_cons_1 in Ha as [Ha _].
    etrans; [|by apply (shortcut_path pending x h l a)].
    by destruct (fetch_block_by_number _ _) as [|? [|]].
  - unfold fetch_block_range_on_main_branch_by_number. rewrite Hh, Hge.
    rewrite u32_id by lia.
    set (k := Z.to_nat (Z.min (count - 1) (Z.of_nat (length l)))).
    rewrite <- (take_drop (length l - k) l) in Hp.
    destruct (path_app _ _ _ _ _ Hp) as (r & P1 & P2).
    pose proof (path_num _ _ _ _ _ Hinv P2) as Nr. rewrite length_drop in Nr.
    replace (Z.min (item_num x a + count - 1) (item_num x h)) with (item_num x r)
      by (unfold k in *; lia).
    assert (r ∈ _index x) as Hr.
    { apply path_head in P2. apply (proj1 (Forall_forall _ _) Hall).
      apply elem_of_app in P2 as [Hd|?]; apply elem_of_app; [left|by right].
      rewrite <- (take_drop (length l - k) l). apply elem_of_app. by right. }
    rewrite (shortcut_path pending x h (take (length l - k) l) r) by done.
    cbn [mbind result_bind].
    rewrite (collect_down_path pending x r (drop (length l - k) l) a)
      by (done || rewrite length_drop; lia).
    rewrite reverse_app, reverse_drop. simpl. f_equal.
    replace (Z.to_nat count) with (S (Z.to_nat (count - 1))) by lia. simpl. f_equal.
    destruct (decide (count - 1 ≤ Z.of_nat (length l))).
    + f_equal. unfold k. lia.
    + rewrite !take_ge; rewrite ?length_reverse; unfold k; done || lia.
Qed.

Lemma main_branch_lookup_witness :
  fetch_block_range_on_main_branch_by_number sample_forks 1 2 = Ok [0; 1].
Proof.
  apply (main_branch_lookup [] sample_forks 2 0 [2; 1] 2).
  - exact sample_forks_inv.
  - by vm_compute.
  - apply (path_cons _ 2 1); [by vm_compute|].
    apply (path_cons _ 1 0); [by vm_compute|constructor].
  - rewrite sample_forks_index. repeat constructor; set_solver.
  - lia.
  - by vm_compute.
Defined.

(** *** The synopsis *)

(** Blocks of a branch, with their numbers. *)
Definition picks (x : fork_database) (branch : list Z) (ids : list block_id_type) (nums : list Z)
    : Prop :=
  Forall2 (λ id m, ∃ r, r ∈ branch ∧ item_id x r = id ∧ item_num x r = m) ids nums.

Lemma synopsis_step low high : 1 ≤ low ≤ high → high < u32_max →
  u32 (low + u32 (high - low + 2) / 2) = low + (high - low + 2) / 2 ∧
  1 ≤ (high - low + 2) / 2 ≤ high - low + 1.
Proof.
  intros Hl Hh. rewrite (u32_id (high - low + 2)) by lia.
  assert (1 ≤ (high - low + 2) / 2 ≤ high - low + 1) as Hs by (Z.div_mod_to_equations; lia).
  split; [apply u32_id; lia|done].
Qed.

Lemma synopsis_loop_spec n ids low lib ref high acc :
  Z.of_nat (length ids) = ref - lib + 1 → 1 ≤ lib ≤ low → low ≤ ref ≤ high → high < u32_max →
  ref - low ≤ Z.of_nat n →
  ∃ syn nums, synopsis_loop n ids low lib ref high acc = Ok (acc ++ syn) ∧
    Forall2 (λ id m, m ≤ ref ∧ ids !! Z.to_nat (ref - m) = Some id) syn nums ∧
    StronglySorted Z.lt nums ∧ head nums = Some low ∧ Forall (λ m, low ≤ m ≤ ref) nums ∧
    (high = ref → last nums = Some ref).
Proof.
  intros Hlen Hlib. revert low acc Hlib.
  induction n as [|n IH]; intros low acc Hlib Hlow Hhigh Hn.
  all: assert (Z.to_nat (u64 (Z.of_nat (length ids) - u32 (low - lib) - 1)) = Z.to_nat (ref - low)) as Eix
    by (rewrite u32_id, u64_id by (unfold u32_max, u64_max in *; lia); lia).
  all: destruct (lookup_lt_is_Some_2 ids (Z.to_nat (ref - low))) as [id Hid]; [lia|].
  all: destruct (synopsis_step low high) as [Estep Hstep]; [lia|done|].
  all: cbn [synopsis_loop]; rewrite Eix, Hid; cbn [from_option_or mbind result_bind]; rewrite Estep.
  all: set (low' := low + (high - low + 2) / 2) in *.
  - replace (low' <=? ref) with false by (symmetry; bool_to_prop; lia).
    exists [id], [low]. split_and!; [done|constructor; [split; [lia|done]|constructor]|repeat constructor|done| |].
    + repeat constructor; lia.
    + intros ->. simpl. f_equal. lia.
  - destruct (Z.leb_spec low' ref) as [Hle|Hgt].
    + destruct (IH low' (acc ++ [id])) as (syn & nums & Hrun & Hf & Hs & Hhd & Hall & Hlast);
        [lia|lia|done|lia|].
      exists (id :: syn), (low :: nums). split_and!.
      * by rewrite Hrun, <- app_assoc.
      * constructor; [split; [lia|done]|done].
      * constructor; [done|]. apply (Forall_impl _ _ _ Hall). intros m Hm. lia.
      * done.
      * constructor; [lia|]. apply (Forall_impl _ _ _ Hall). intros m Hm. lia.
      * intros E. specialize (Hlast E). destruct nums; [done|]. by rewrite last_cons_cons.
    + exists [id], [low]. split_and!; [done|constructor; [split; [lia|done]|constructor]|repeat constructor|done| |].
      * repeat constructor; lia.
      * intros E. simpl. f_equal. unfold low' in Hgt. Z.div_mod_to_equations. lia.
Qed.

Lemma ids_down_path pending x p l a n :
  fork_inv pending x → path x p l a → lock_prev x a = None → (length l ≤ n)%nat →
  ids_down n x (Some p) = item_id x <$> l ++ [a].
Proof.
  intros Hinv Hp Ha. revert n. induction Hp as [p|p q l a Hpq Hl IH]; intros n Hn; simpl in Hn.
  - destruct n as [|n]; simpl; [done|]. rewrite Ha. by destruct n.
  - destruct n as [|n]; [lia|]. simpl. f_equal. rewrite Hpq. apply IH; [done|lia].
Qed.

(** The item at a height of a path. *)
Lemma path_lookup pending x p l a i r :
  fork_inv pending x → path x p l a → (l ++ [a]) !! i = Some r →
  item_num x r = item_num x p - Z.of_nat i.
Proof.
  intros Hinv Hp. revert i. induction Hp as [p|p q l a Hpq Hl IH]; intros [|i]; simpl.
  - intros [= <-]. lia.
  - by destruct i.
  - intros [= <-]. lia.
  - intros Hr. rewrite (IH i Hr). destruct (lock_prev_inv _ _ _ _ Hinv Hpq). lia.
Qed.

Lemma synopsis_run x h p lib after syn :
  _head x = Some h → get_oldest_block_num x = Ok lib → item_id x p ≠ null_block_id →
  1 ≤ lib ≤ item_num x p → find_id x (_index x) (item_id x p) = Some p →
  synopsis_loop (Z.to_nat (item_num x p - lib)) (ids_down (climb_fuel x p) x (Some p))
    lib lib (item_num x p) (u32 (item_num x p + after)) [] = Ok syn →
  get_blockchain_synopsis x (item_id x p) after = Ok (syn, None).
Proof.
  intros Hh Hold Hnn Hlib Hf Hrun. unfold get_blockchain_synopsis. rewrite Hh.
  apply bind_Ok. exists lib. split; [done|].
  rewrite (bool_decide_eq_false_2 (item_id x p = null_block_id) Hnn), <- item_num_id.
  rewrite (proj2 (Z.ltb_ge (item_num x p) lib)), (proj2 (Z.eqb_neq lib 0)) by lia.
  apply bind_Ok. exists p. split; [by apply from_option_or_Ok|].
  apply bind_Ok. exists syn. by split.
Qed.

(** C19. The synopsis that a node sends to a peer: when the reference block [p] is in
    the tree, the links from it lead to the oldest block [a] of the tree and end
    there, [a] has a positive number, and the number of [p] and of the blocks to be
    appended after it stay below [2^32 - 1], then the subscripts stay in range, the
    loop ends, and the result is a list of ids of blocks between [a] and [p] in strictly ascending
    order, which starts with [a] and, if nothing is to be appended after the
    reference block, ends with [p]. *)
Theorem synopsis_correct pending (x : fork_database) (h p a : Z) (l : list Z) (after : Z) :
  fork_inv pending x → _head x = Some h → p ∈ _index x → item_id x p ≠ null_block_id →
  path x p l a → lock_prev x a = None → get_oldest_block_num x = Ok (item_num x a) →
  1 ≤ item_num x a → 0 ≤ after → item_num x p + after < u32_max →
  ∃ synopsis nums,
    get_blockchain_synopsis x (item_id x p) after = Ok (synopsis, None) ∧
    picks x (l ++ [a]) synopsis nums ∧ StronglySorted Z.lt nums ∧
    head nums = Some (item_num x a) ∧ (after = 0 → last nums = Some (item_num x p)).
Proof.
  intros Hinv Hh Hp Hnn Hpath Ha Hold Hlib Haft Hmax.
  pose proof (path_num _ _ _ _ _ Hinv Hpath) as Np. pose proof (item_num_range x p).
  assert (length (item_id x <$> l ++ [a]) = S (length l)) as Hlen
    by (rewrite length_fmap, length_app; simpl; lia).
  destruct (synopsis_loop_spec (Z.to_nat (item_num x p - item_num x a)) (item_id x <$> l ++ [a])
    (item_num x a) (item_num x a) (item_num x p) (item_num x p + after) [])
    as (syn & nums & Hrun & Hf & Hs & Hhd & _ & Hlast); [lia..|].
  exists syn, nums. split_and!; [|..|done|done|].
  - apply (synopsis_run x h p (item_num x a)); try done.
    + lia.
    + by apply (find_id_index pending).
    + rewrite (ids_down_path pending x p l a) by (done || by eapply climb_fuel_path).
      rewrite (u32_id (item_num x p + after)) by lia. exact Hrun.
  - apply (Forall2_impl _ _ _ _ Hf). intros id m [Hle Hm].
    rewrite list_lookup_fmap in Hm. apply fmap_Some in Hm as (r & Hr & ->).
    pose proof (path_lookup _ _ _ _ _ _ _ Hinv Hpath Hr) as Nr.
    apply list_elem_of_lookup_2 in Hr. exists r. split_and!; [done|done|].
    rewrite Nr. lia.
  - intros ->. apply Hlast. lia.
Qed.

Lemma synopsis_correct_witness :
  ∃ synopsis nums,
    get_blockchain_synopsis sample_forks (get_block_id sample_b3) 0 = Ok (synopsis, None) ∧
    picks sample_forks [2; 1; 0] synopsis nums ∧ StronglySorted Z.lt nums ∧
    head nums = Some 1 ∧ (0 = 0 → last nums = Some 3).
Proof.
  apply (synopsis_correct [] sample_forks 2 2 0 [2; 1] 0).
  - exact sample_forks_inv.
  - by vm_compute.
  - rewrite sample_forks_index. right; right; left.
  - by vm_compute.
  - apply (path_cons _ 2 1); [by vm_compute|].
    apply (path_cons _ 1 0); [by vm_compute|constructor].
  - by vm_compute.
  - by vm_compute.
  - by vm_compute.
  - by vm_compute.
  - by vm_compute.
Defined.

(** The loop reads beyond the end of a list of ids that is too short. *)
Lemma synopsis_short_ids n ids low lib ref high acc :
  lib ≤ low ≤ u32_max → 0 ≤ lib → Z.of_nat (length ids) ≤ low - lib →
  synopsis_loop n ids low lib ref high acc = Throw undefined_behaviour.
Proof.
  intros Hlow Hlib Hlen.
  assert (ids !! Z.to_nat (u64 (Z.of_nat (length ids) - u32 (low - lib) - 1)) = None) as E.
  { apply lookup_ge_None. rewrite u32_id by lia. unfold u64, wrapu.
    rewrite <- (Z.mod_add _ 1) by lia. rewrite Z.mod_small by (unfold u32_max in *; lia).
    unfold u32_max in *. lia. }
  by destruct n; cbn [synopsis_loop]; rewrite E.
Qed.

(** The condition on the links is needed: with block 2 removed, the links from block 3 do
    not reach block 1, and the subscript wraps around. *)
Lemma synopsis_broken_links :
  let x := remove (get_block_id sample_b2) sample_forks in
  fork_reachable head x ∧ get_oldest_block_num x = Ok 1 ∧
  get_blockchain_synopsis x (get_block_id sample_b3) 0 = Throw undefined_behaviour.
Proof.
  intros x. split; [eapply reach_step; [apply sample_forks_reachable|apply step_remove]|].
  split; [by vm_compute|].
  assert (get_blockchain_synopsis x (get_block_id sample_b3) 0
    = synopsis ← synopsis_loop 1 [get_block_id sample_b3] 3 1 3 3 [get_block_id sample_b3];
      Ok (synopsis, None)) as ->; [|by rewrite synopsis_short_ids by (done || (cbn; lia))].
  assert (ids_down (climb_fuel x 2) x (Some 2) = [get_block_id sample_b3]) as E1 by by vm_compute.
  assert (find_id x (_index x) (get_block_id sample_b3) = Some 2) as E2 by by vm_compute.
  unfold get_blockchain_synopsis. replace (_head x) with (Some 2) by by vm_compute.
  replace (get_oldest_block_num x) with (Ok 1) by by vm_compute. cbn [mbind result_bind].
  rewrite bool_decide_eq_false_2 by by vm_compute.
  replace (num_from_id (get_block_id sample_b3)) with 3 by by vm_compute. cbn [Z.ltb Z.compare Pos.compare Pos.compare_cont].
  rewrite E2. cbn [from_option_or mbind result_bind]. by rewrite E1.
Qed.
