(* ===== verification/Authority.v ===== *)
(** * Account names and authorities

    [src/libraries/protocol/authority.cpp] and [authority.hpp]: the syntax of account
    names and the weighted authorities of accounts. *)

From Stdlib Require Import Ascii.
From S2P Require Import Prelude.

Definition HIVE_MIN_ACCOUNT_NAME_LENGTH : Z := 3.
Definition HIVE_MAX_ACCOUNT_NAME_LENGTH : Z := 16.

(** ** Account names *)

Inductive account_name_validity : Set := valid | too_short | too_long | invalid_sequence.

#[export] Instance account_name_validity_eq_dec : EqDecision account_name_validity.
Proof. solve_decision. Defined.

(** A name as the sequence of its characters. *)
Definition chars (name : string) : list ascii := String.list_ascii_of_string name.

Definition in_range (lo hi c : ascii) : bool :=
  (N_of_ascii lo <=? N_of_ascii c)%N && (N_of_ascii c <=? N_of_ascii hi)%N.

(** The cases of the three [switch]es. *)
Definition is_letter (c : ascii) : bool := in_range "a" "z" c.
Definition is_digit (c : ascii) : bool := in_range "0" "9" c.
Definition is_let_dig (c : ascii) : bool := is_letter c || is_digit c.
Definition is_let_dig_hyp (c : ascii) : bool := is_let_dig c || Ascii.eqb c "-".

(** [name.find_first_of( '.', begin )], with [npos] replaced by the length. *)
Fixpoint find_dot (l : list ascii) (i : nat) : nat :=
  match l with
  | [] => i
  | c :: l' => if Ascii.eqb c "." then i else find_dot l' (S i)
  end.

Definition char_at (l : list ascii) (i : nat) : ascii := nth i l Ascii.zero.

(** [for( i = begin+1; i < end-1; i++ )]. *)
Definition inner_ok (l : list ascii) (b e : nat) : bool :=
  forallb (λ i, is_let_dig_hyp (char_at l i)) (seq (S b) (e - 1 - S b)).

(** The loop over the labels; every round moves [begin] forward. *)
Fixpoint check_labels (fuel : nat) (l : list ascii) (b : nat) : account_name_validity :=
  match fuel with
  | O => invalid_sequence
  | S fuel =>
      let e := find_dot (drop b l) b in
      if (e - b <? 3)%nat then invalid_sequence
      else if negb (is_letter (char_at l b)) then invalid_sequence
      else if negb (is_let_dig (char_at l (e - 1))) then invalid_sequence
      else if negb (inner_ok l b e) then invalid_sequence
      else if (e =? length l)%nat then valid
      else check_labels fuel l (S e)
  end.

Definition check_account_name (name : string) : account_name_validity :=
  let l := chars name in
  let len := Z.of_nat (length l) in
  if len <? HIVE_MIN_ACCOUNT_NAME_LENGTH then too_short
  else if HIVE_MAX_ACCOUNT_NAME_LENGTH <? len then too_long
  else check_labels (S (length l)) l 0.

Definition is_valid_account_name (name : string) : bool :=
  bool_decide (check_account_name name = valid).

(** ** Authorities *)

(** [flat_map]: an association list in the order of its keys. *)
Definition flat_map_set {K} `{EqDecision K} (ltb : K → K → bool) (k : K) (w : Z)
    : list (K * Z) → list (K * Z) :=
  fix go l :=
    match l with
    | [] => [(k, w)]
    | (k', w') :: l' =>
        if decide (k = k') then (k, w) :: l'
        else if ltb k k' then (k, w) :: l
        else (k', w') :: go l'
    end.

(** A public key is the number its bytes denote. *)
Record authority : Set := Authority {
  weight_threshold : Z;
  account_auths : list (string * Z);
  key_auths : list (Z * Z);
}.

#[export] Instance authority_eq_dec : EqDecision authority.
Proof. solve_decision. Defined.

Definition empty_authority : authority := Authority 0 [] [].

Inductive classification : Set := owner | active | posting.

Definition add_key_authority (k w : Z) (a : authority) : authority :=
  Authority (weight_threshold a) (account_auths a) (flat_map_set Z.ltb k w (key_auths a)).
Definition add_account_authority (n : string) (w : Z) (a : authority) : authority :=
  Authority (weight_threshold a) (flat_map_set String.ltb n w (account_auths a)) (key_auths a).

Definition get_keys (a : authority) : list Z := (key_auths a).*1.
Definition get_accounts (a : authority) : list string := (account_auths a).*1.

Definition is_impossible (a : authority) : bool :=
  let auth_weights := foldl (λ s item, u64 (s + item.2)) 0 (account_auths a) in
  let auth_weights := foldl (λ s item, u64 (s + item.2)) auth_weights (key_auths a) in
  auth_weights <? weight_threshold a.

Definition num_auths (a : authority) : Z :=
  u32 (Z.of_nat (length (account_auths a)) + Z.of_nat (length (key_auths a))).

Definition clear (a : authority) : authority := Authority (weight_threshold a) [] [].

Definition authority_validate (a : authority) : result unit :=
  forM_ (λ item, fc_assert (is_valid_account_name item.1) "is_valid_account_name( item.first )")
    (account_auths a).

Definition authority_eqb (a b : authority) : bool :=
  (weight_threshold a =? weight_threshold b) &&
  bool_decide (account_auths a = account_auths b) && bool_decide (key_auths a = key_auths b).

(** ** The grammar of names *)

(** A label: at least three characters, a letter first, a letter or digit last,
    letters, digits and hyphens between. *)
Inductive label : list ascii → Prop :=
| label_intro first mid last :
    is_letter first = true → Forall (λ c, is_let_dig_hyp c = true) mid →
    is_let_dig last = true → mid ≠ [] → label (first :: mid ++ [last]).

(** Labels separated by dots. *)
Inductive domain : list ascii → Prop :=
| domain_one l : label l → domain l
| domain_more l rest : label l → domain rest → domain (l ++ "."%char :: rest).

(** *** The checker against the grammar *)

Definition no_dot (l : list ascii) : Prop := Forall (λ c, Ascii.eqb c "." = false) l.

Lemma let_dig_hyp_no_dot c : is_let_dig_hyp c = true → Ascii.eqb c "." = false.
Proof. intros H. destruct (Ascii.eqb_spec c "."); [by subst|done]. Qed.

Lemma letter_let_dig_hyp c : is_let_dig c = true → is_let_dig_hyp c = true.
Proof. intros H. unfold is_let_dig_hyp. by rewrite H. Qed.

Lemma label_no_dot l : label l → no_dot l.
Proof.
  intros [f m e Hf Hm He _]. apply Forall_cons_2, Forall_app_2.
  - apply let_dig_hyp_no_dot, letter_let_dig_hyp. unfold is_let_dig. by rewrite Hf.
  - apply (Forall_impl _ _ _ Hm), let_dig_hyp_no_dot.
  - apply Forall_singleton. by apply let_dig_hyp_no_dot, letter_let_dig_hyp.
Qed.

(** The first dot splits a name into the first label and the rest. *)
Lemma find_dot_split l i :
  ∃ seg rest, l = seg ++ rest ∧ no_dot seg ∧ find_dot l i = (i + length seg)%nat ∧
    (rest = [] ∨ ∃ r, rest = "."%char :: r).
Proof.
  revert i. induction l as [|c l IH]; intros i; simpl.
  - exists [], []. split_and!; [done|constructor|simpl; lia|by left].
  - destruct (Ascii.eqb c ".") eqn:E.
    + apply Ascii.eqb_eq in E as ->. exists [], ("."%char :: l).
      split_and!; [done|constructor|simpl; lia|right; by exists l].
    + destruct (IH (S i)) as (seg & rest & -> & Hn & Hf & Hr).
      exists (c :: seg), rest. split_and!; [done|by constructor|simpl; lia|done].
Qed.

Lemma domain_split seg rest :
  no_dot seg → (rest = [] ∨ ∃ r, rest = "."%char :: r) →
  domain (seg ++ rest) ↔ label seg ∧ (rest = [] ∨ ∃ r, rest = "."%char :: r ∧ domain r).
Proof.
  intros Hn Hr. split.
  - intros Hd. inversion Hd as [l Hl E|l r Hl Hd' E]; subst.
    + destruct Hr as [->|[r ->]]; [rewrite app_nil_r in Hl; auto|].
      exfalso. apply label_no_dot, Forall_app in Hl as [_ Hl].
      by apply Forall_cons_1 in Hl as [? _].
    + destruct Hr as [->|[r' ->]].
      { exfalso. rewrite app_nil_r in E. subst seg. apply Forall_app in Hn as [_ Hn].
        by apply Forall_cons_1 in Hn as [? _]. }
      assert (l = seg ∧ r = r') as [-> ->]; [|split; [done|right; by exists r']].
      apply label_no_dot in Hl. clear Hd Hd'. revert seg Hn E.
      induction l as [|c l IH]; intros [|d seg] Hn E; simpl in E; simplify_eq.
      * done.
      * by apply Forall_cons_1 in Hn as [? _].
      * by apply Forall_cons_1 in Hl as [? _].
      * apply Forall_cons_1 in Hl as [_ Hl], Hn as [_ Hn].
        by destruct (IH Hl seg Hn) as [-> ->].
  - intros [Hl [->|(r & -> & Hd)]]; [rewrite app_nil_r; by constructor|by constructor].
Qed.

(** The tests of one round, on the label alone. *)
Definition label_ok (s : list ascii) : bool :=
  negb (length s <? 3)%nat && is_letter (char_at s 0) && is_let_dig (char_at s (length s - 1)) &&
  forallb (λ i, is_let_dig_hyp (char_at s i)) (seq 1 (length s - 1 - 1)).

Lemma label_ok_spec s : label_ok s = true ↔ label s.
Proof.
  unfold label_ok. rewrite !andb_true_iff, negb_true_iff, Nat.ltb_ge. split.
  - intros [[[Hlen Hf] He] Hm]. destruct s as [|f s]; [simpl in Hlen; lia|].
    destruct s as [|e m _] using rev_ind; [simpl in Hlen; lia|].
    rewrite length_cons, length_app in *. simpl length in *. constructor; [done| | |].
    + apply Forall_lookup. intros i c Hi. rewrite forallb_forall in Hm.
      pose proof (lookup_lt_Some _ _ _ Hi).
      specialize (Hm (S i)). unfold char_at in Hm. simpl in Hm.
      rewrite app_nth1 in Hm by lia. rewrite (nth_lookup_Some _ _ _ _ Hi) in Hm.
      apply Hm. apply in_seq. lia.
    + unfold char_at in He. replace (S (length m + 1) - 1)%nat with (S (length m)) in He by lia.
      simpl in He. by rewrite app_nth2, Nat.sub_diag in He by lia.
    + intros ->. simpl in Hlen. lia.
  - intros [f m e Hf Hm He Hne]. rewrite length_cons, length_app. simpl length.
    assert (length m ≠ 0%nat) by (by destruct m). split_and!; [lia|done| |].
    + unfold char_at. replace (S (length m + 1) - 1)%nat with (S (length m)) by lia.
      simpl. by rewrite app_nth2, Nat.sub_diag by lia.
    + apply forallb_forall. intros i [H1 H2]%in_seq. unfold char_at.
      destruct i as [|i]; [lia|]. simpl. rewrite app_nth1 by lia.
      destruct (lookup_lt_is_Some_2 m i) as [c Hc]; [lia|].
      rewrite (nth_lookup_Some _ _ _ _ Hc). by apply (proj1 (Forall_lookup _ _) Hm i).
Qed.

Lemma char_at_app pre s rest i :
  (i < length s)%nat → char_at (pre ++ s ++ rest) (length pre + i) = char_at s i.
Proof.
  intros Hi. unfold char_at. rewrite app_nth2 by lia.
  replace (length pre + i - length pre)%nat with i by lia. by rewrite app_nth1.
Qed.

Lemma check_labels_unfold n l pre seg rest :
  l = pre ++ seg ++ rest → no_dot seg → (rest = [] ∨ ∃ r, rest = "."%char :: r) →
  find_dot (seg ++ rest) (length pre) = (length pre + length seg)%nat →
  check_labels (S n) l (length pre) =
    if label_ok seg then
      if (length pre + length seg =? length l)%nat then valid
      else check_labels n l (S (length pre + length seg))
    else invalid_sequence.
Proof.
  intros -> Hn Hr Hf. cbn [check_labels]. rewrite drop_app_length, Hf. unfold label_ok.
  replace (length pre + length seg - length pre)%nat with (length seg) by lia.
  destruct (Nat.ltb_spec (length seg) 3) as [|Hlen]; [done|]. cbn [negb andb].
  replace (char_at (pre ++ seg ++ rest) (length pre)) with (char_at seg 0)
    by (rewrite <- (char_at_app pre seg rest 0) by lia; f_equal; lia).
  replace (char_at (pre ++ seg ++ rest) (length pre + length seg - 1))
    with (char_at seg (length seg - 1))
    by (rewrite <- (char_at_app pre seg rest) by lia; f_equal; lia).
  replace (inner_ok (pre ++ seg ++ rest) (length pre) (length pre + length seg))
    with (forallb (λ i, is_let_dig_hyp (char_at seg i)) (seq 1 (length seg - 1 - 1))).
  2:{ unfold inner_ok. replace (length pre + length seg - 1 - S (length pre))%nat
        with (length seg - 1 - 1)%nat by lia.
      replace (S (length pre)) with (length pre + 1)%nat by lia.
      apply eq_true_iff_eq. rewrite !forallb_forall. split; intros H i Hi.
      - apply in_seq in Hi. specialize (H (i - length pre)%nat).
        rewrite <- (char_at_app pre seg rest) in H by lia.
        replace (length pre + (i - length pre))%nat with i in H by lia.
        apply H, in_seq. lia.
      - apply in_seq in Hi. rewrite <- (char_at_app pre seg rest) by lia.
        apply H, in_seq. lia. }
  by destruct (is_letter _), (is_let_dig _), (forallb _ _).
Qed.

Lemma check_labels_domain n l pre s :
  l = pre ++ s → (length s < n)%nat →
  (check_labels n l (length pre) = valid ↔ domain s) ∧
  (check_labels n l (length pre) = valid ∨ check_labels n l (length pre) = invalid_sequence).
Proof.
  revert pre s. induction n as [|n IH]; intros pre s Hl Hn; [lia|].
  destruct (find_dot_split s (length pre)) as (seg & rest & -> & Hnd & Hf & Hr).
  rewrite (check_labels_unfold n l pre seg rest) by done. rewrite domain_split by done.
  rewrite <- label_ok_spec. destruct (label_ok seg) eqn:Hok; [|naive_solver].
  subst l. rewrite !length_app.
  destruct Hr as [->|[r ->]]; simpl length.
  - replace (length pre + length seg =? length pre + (length seg + 0))%nat with true
      by (symmetry; apply Nat.eqb_eq; lia). naive_solver.
  - replace (length pre + length seg =? length pre + (length seg + S (length r)))%nat with false
      by (symmetry; apply Nat.eqb_neq; lia).
    rewrite length_app in Hn. simpl in Hn.
    destruct (IH (pre ++ seg ++ ["."%char]) r) as [H1 H2]; [by rewrite <- !app_assoc|lia|].
    rewrite !length_app in H1, H2. simpl in H1, H2.
    replace (length pre + (length seg + 1))%nat with (S (length pre + length seg)) in H1, H2 by lia.
    split; [|done]. rewrite H1. naive_solver.
Qed.

(** C20. The name checker decides the grammar: a name shorter than 3 or longer than
    16 characters is reported as such; any other is valid exactly when it is a
    sequence of labels separated by single dots, where a label has at least three
    characters, starts with a lowercase letter, ends with a letter or digit and has
    only letters, digits and hyphens between; everything else is reported as an
    invalid sequence. *)
Theorem check_account_name_grammar (name : string) :
  let len := Z.of_nat (length (chars name)) in
  (check_account_name name = too_short ↔ len < 3) ∧
  (check_account_name name = too_long ↔ 16 < len) ∧
  (check_account_name name = valid ↔ 3 ≤ len ≤ 16 ∧ domain (chars name)) ∧
  (check_account_name name = invalid_sequence ↔ 3 ≤ len ≤ 16 ∧ ¬ domain (chars name)).
Proof.
  intros len. unfold check_account_name. fold len.
  unfold HIVE_MIN_ACCOUNT_NAME_LENGTH, HIVE_MAX_ACCOUNT_NAME_LENGTH.
  destruct (Z.ltb_spec len 3); [split_and!; split; naive_solver lia|].
  destruct (Z.ltb_spec 16 len); [split_and!; split; naive_solver lia|].
  destruct (check_labels_domain (S (length (chars name))) (chars name) [] (chars name))
    as [H1 H2]; [done|lia|]. simpl length in H1, H2.
  rewrite <- H1. destruct H2 as [-> | ->]; split_and!; split; naive_solver lia.
Qed.
