(* ===== verification/SignState.v ===== *)
(** * Verification of signatures

    [src/libraries/protocol/sign_state.cpp], [sign_state.hpp] and
    [transaction_util.cpp]: whether the keys that signed a transaction satisfy the
    authorities that its operations require.  [holds] is the reference: the weights
    of the keys that signed and of the accounts that approve, each by its own
    authority in turn, reach the threshold.

    The getters of the authorities of accounts read the state of the chain and throw
    for an unknown account: they are parameters. *)

From S2P Require Import Prelude Authority.

Record sign_limits : Set := SignLimits {
  allow_strict_and_mixed_authorities : bool;
  recursion : Z;
  membership : Z;
  limit_account_auths : Z;
}.

Record sign_state : Set := SignState {
  account_auth_count : Z;
  approved_by : gset string;
  provided_signatures : gmap Z bool;
}.

Definition set_count (n : Z) (s : sign_state) : sign_state :=
  SignState n (approved_by s) (provided_signatures s).
Definition set_approved (x : gset string) (s : sign_state) : sign_state :=
  SignState (account_auth_count s) x (provided_signatures s).
Definition set_signatures (m : gmap Z bool) (s : sign_state) : sign_state :=
  SignState (account_auth_count s) (approved_by s) m.

Definition extend_provided_signatures (keys : gset Z) (s : sign_state) : sign_state :=
  set_signatures (set_fold (λ k m, <[k := false]> m) (provided_signatures s) keys) s.

(** The constructor. *)
Definition new_sign_state (sigs : gset Z) : sign_state :=
  extend_provided_signatures sigs (SignState 0 ∅ ∅).

Definition signed_by (k : Z) (s : sign_state) : sign_state * bool :=
  match provided_signatures s !! k with
  | None => (s, false)
  | Some _ => (set_signatures (<[k := true]> (provided_signatures s)) s, true)
  end.

Definition clear_approved (s : sign_state) : sign_state := set_approved ∅ s.
Definition add_approved (approvals : gset string) (s : sign_state) : sign_state :=
  set_approved (approved_by s ∪ approvals) s.

(** Whether anything was removed. *)
Definition remove_unused_signatures (s : sign_state) : sign_state * bool :=
  let kept := filter (λ p, p.2 = true) (provided_signatures s) in
  (set_signatures kept s, negb (bool_decide (size kept = size (provided_signatures s)))).

Section check_authority.
Context (limits : sign_limits) (get_current_authority : string → result authority).

(** [_increase_membership], and whether to go on. *)
Definition increase_membership (m : Z) : Z * bool :=
  let m := m + 1 in
  (m, negb ((0 <? membership limits) && (membership limits <=? m))).

(** A loop that returns from the function ([inl]) or falls through with the total
    weight and the number of members seen ([inr]). *)
Fixpoint check_keys (threshold : Z) (l : list (Z * Z)) (total m : Z) (s : sign_state)
    : sign_state * (bool + Z * Z) :=
  match l with
  | [] => (s, inr (total, m))
  | (k, w) :: l' =>
      let '(s, signed) := signed_by k s in
      let total := if signed then u32 (total + w) else total in
      if signed && (threshold <=? total) then (s, inl true)
      else
        let '(m, more) := increase_membership m in
        if more then check_keys threshold l' total m s else (s, inl false)
  end.

(** [check] is the recursive call, absent at the depth limit. *)
Fixpoint check_accounts (check : option (authority → stM sign_state bool)) (threshold : Z)
    (l : list (string * Z)) (total m : Z) : stM sign_state (bool + Z * Z) :=
  match l with
  | [] => mret (inr (total, m))
  | (a, w) :: l' =>
      s ← st_get;
      let go total :=
        let '(m, more) := increase_membership m in
        if more then check_accounts check threshold l' total m else mret (inl false) in
      let count :=
        let total := u32 (total + w) in
        if threshold <=? total then mret (inl true) else go total in
      if decide (a ∈ approved_by s) then count
      else match check with
      | None => check_accounts check threshold l' total m
      | Some check_impl =>
          if (0 <? limit_account_auths limits) &&
             (limit_account_auths limits <=? account_auth_count s) then mret (inl false)
          else
            st_modify (λ s, set_count (u64 (account_auth_count s + 1)) s) ;;
            auth ← st_lift (get_current_authority a);
            approved ← check_impl auth;
            if (approved : bool) then
              st_modify (λ s, set_approved ({[ a ]} ∪ approved_by s) s) ;; count
            else go total
      end
  end.

(** [check_authority_impl( auth, depth )] with [n = limits.recursion - depth]. *)
Fixpoint check_authority_impl (n : nat) (auth : authority) : stM sign_state bool := λ s,
  match check_keys (weight_threshold auth) (key_auths auth) 0 0 s with
  | (s, inl b) => (s, Ok b)
  | (s, inr (total, m)) =>
      (r ← check_accounts
             (match n with O => None | S n' => Some (check_authority_impl n') end)
             (weight_threshold auth) (account_auths auth) total m;
       match r with
       | inl b => mret b
       | inr (total, _) => mret (weight_threshold auth <=? total)
       end) s
  end.

Definition check_authority_account (id : string) : stM sign_state bool :=
  s ← st_get;
  if decide (id ∈ approved_by s) then mret true
  else
    st_modify (λ s, set_count
      (if allow_strict_and_mixed_authorities limits then u64 (account_auth_count s + 1) else 1) s) ;;
    auth ← st_lift (get_current_authority id);
    check_authority_impl (Z.to_nat (recursion limits)) auth.

Definition check_authority (auth : authority) : stM sign_state bool :=
  st_modify (λ s, if negb (allow_strict_and_mixed_authorities limits) then set_count 0 s else s) ;;
  check_authority_impl (Z.to_nat (recursion limits)) auth.

End check_authority.

(** ** [verify_authority] *)

Record required_authorities_type : Set := RequiredAuthorities {
  required_active : list string;
  required_owner : list string;
  required_posting : list string;
  required_witness : list string;
  other : list authority;
}.

Inductive verify_authority_problem : Set :=
| mixed_with_posting
| missing_posting (id : string)
| missing_active (id : string)
| missing_owner (id : string)
| missing_witness (id : string)
| missing_witness_key (id : string)
| missing_other (auth : authority)
| unused_signature.

Section verify_authority.
Context (get_active get_owner get_posting : string → result authority).
Context (get_witness_key : string → result Z).
Context (limits : sign_limits) (allow_redundant_signatures : bool).
Context (active_approvals owner_approvals posting_approvals : gset string).

(** [VERIFY_AUTHORITY_CHECK]: on failure report the problem and return. *)
Definition verify_check (test : stM sign_state bool) (p : verify_authority_problem)
    : stM sign_state (option verify_authority_problem) :=
  b ← test; mret (if (b : bool) then None else Some p).

Fixpoint verify_all {A} (f : A → stM sign_state (option verify_authority_problem)) (l : list A)
    : stM sign_state (option verify_authority_problem) :=
  match l with
  | [] => mret None
  | a :: l' => r ← f a; match r with Some p => mret (Some p) | None => verify_all f l' end
  end.

(** [a || b], evaluating [b] only if needed. *)
Definition or_else (a b : stM sign_state bool) : stM sign_state bool :=
  r ← a; if (r : bool) then mret true else b.

(** [a ;; b] where [a] may have reported a problem. *)
Definition and_then (a b : stM sign_state (option verify_authority_problem))
    : stM sign_state (option verify_authority_problem) :=
  r ← a; match r with Some p => mret (Some p) | None => b end.

Definition strict : bool := allow_strict_and_mixed_authorities limits.

Definition verify_signatures_used : stM sign_state (option verify_authority_problem) :=
  if negb allow_redundant_signatures then
    verify_check (λ s, let '(s, removed) := remove_unused_signatures s in (s, Ok (negb removed)))
      unused_signature
  else mret None.

Definition verify_posting (id : string) : stM sign_state (option verify_authority_problem) :=
  let check_id := check_authority_account limits get_posting id in
  let check_of (get : string → result authority) :=
    auth ← st_lift (get id); check_authority limits get_posting auth in
  verify_check
    (if strict then check_id else or_else check_id (or_else (check_of get_active) (check_of get_owner)))
    (missing_posting id).

Definition verify_active (id : string) : stM sign_state (option verify_authority_problem) :=
  let check_id := check_authority_account limits get_active id in
  let check_owner := auth ← st_lift (get_owner id); check_authority limits get_active auth in
  verify_check (if strict then check_id else or_else check_id check_owner) (missing_active id).

Definition verify_owner (id : string) : stM sign_state (option verify_authority_problem) :=
  verify_check
    (if decide (id ∈ owner_approvals) then mret true
     else auth ← st_lift (get_owner id); check_authority limits get_active auth)
    (missing_owner id).

Definition verify_other (auth : authority) : stM sign_state (option verify_authority_problem) :=
  verify_check (check_authority limits get_active auth) (missing_other auth).

Definition verify_witness (id : string) : stM sign_state (option verify_authority_problem) :=
  match get_witness_key id with
  | Throw _ => mret (Some (missing_witness_key id))
  | Ok signing_key =>
      verify_check (λ s, let '(s, b) := signed_by signing_key s in (s, Ok b)) (missing_witness id)
  end.

Definition verify_rest (r : required_authorities_type)
    : stM sign_state (option verify_authority_problem) :=
  st_modify (λ s, add_approved owner_approvals (add_approved active_approvals (clear_approved s))) ;;
  and_then (verify_all verify_other (other r))
  (and_then (verify_all verify_active (required_active r))
  (and_then (verify_all verify_owner (required_owner r))
  (and_then (verify_all verify_witness (required_witness r))
   verify_signatures_used))).

Definition is_mixed (r : required_authorities_type) : bool :=
  negb (bool_decide (required_active r = []) && bool_decide (required_owner r = []) &&
        bool_decide (required_witness r = []) && bool_decide (other r = [])).

Definition verify_authority_impl (r : required_authorities_type) (sigs : gset Z)
    : result (option verify_authority_problem) :=
  snd ((if bool_decide (required_posting r = []) then verify_rest r
        else if negb strict && is_mixed r then mret (Some mixed_with_posting)
        else
          st_modify (add_approved posting_approvals) ;;
          and_then (verify_all verify_posting (required_posting r))
            (if negb strict then verify_signatures_used else verify_rest r))
       (new_sign_state sigs)).

End verify_authority.

(** ** The reference semantics *)

Definition sum_weights {K} (P : K → bool) (l : list (K * Z)) : Z :=
  foldr (λ p n, (if P p.1 then p.2 else 0) + n) 0 l.

Section reference.
Context (get : string → result authority) (sigs : gset Z) (base : gset string).

(** The authority is satisfied by the keys [sigs] and the accounts [base], with
    accounts that approve through at most [n] levels of their own authorities. *)
Fixpoint holds (n : nat) (auth : authority) : bool :=
  weight_threshold auth <=?
    sum_weights (λ k, bool_decide (k ∈ sigs)) (key_auths auth) +
    sum_weights (λ a, bool_decide (a ∈ base) ||
      match n with
      | O => false
      | S n' => match get a with Ok au => holds n' au | Throw _ => false end
      end) (account_auths auth).

Definition approves (n : nat) (a : string) : bool :=
  bool_decide (a ∈ base) ||
  match n with
  | O => false
  | S n' => match get a with Ok au => holds n' au | Throw _ => false end
  end.

Lemma holds_eq n auth :
  holds n auth = (weight_threshold auth <=?
    sum_weights (λ k, bool_decide (k ∈ sigs)) (key_auths auth) +
    sum_weights (approves n) (account_auths auth)).
Proof. by destruct n. Qed.

Definition authorized (auth : authority) : Prop := ∃ n, holds n auth = true.

(** Weights are unsigned. *)
Definition auth_ok (auth : authority) : Prop :=
  Forall (λ p, 0 ≤ p.2) (key_auths auth) ∧ Forall (λ p, 0 ≤ p.2) (account_auths auth).

Lemma sum_weights_nonneg {K} (P : K → bool) l : Forall (λ p, 0 ≤ p.2) l → 0 ≤ sum_weights P l.
Proof. induction 1 as [|p l Hp Hl IH]; simpl; [lia|]. destruct (P p.1); lia. Qed.

Lemma sum_weights_mono {K} (P Q : K → bool) l :
  Forall (λ p, 0 ≤ p.2) l → (∀ k, P k = true → Q k = true) → sum_weights P l ≤ sum_weights Q l.
Proof.
  intros Hl HPQ. induction Hl as [|p l Hp Hl IH]; simpl; [lia|].
  pose proof (HPQ p.1). destruct (P p.1), (Q p.1); naive_solver lia.
Qed.

Context (get_ok : ∀ a au, get a = Ok au → auth_ok au).

Lemma approves_mono_step n : (∀ auth, auth_ok auth → holds n auth = true → holds (S n) auth = true) →
  ∀ a, approves (S n) a = true → approves (S (S n)) a = true.
Proof.
  intros IH a. unfold approves. rewrite !orb_true_iff. intros [?|Ha]; [by left|right].
  destruct (get a) as [au|] eqn:E; [|done]. apply IH; [by apply (get_ok a)|done].
Qed.

Lemma holds_mono_step n auth : auth_ok auth → holds n auth = true → holds (S n) auth = true.
Proof.
  revert auth. induction n as [|n IH]; intros auth [Hk Ha]; rewrite !holds_eq, !Z.leb_le; intros H.
  - pose proof (sum_weights_mono (approves 0) (approves 1) _ Ha) as Hm.
    unfold approves in Hm at 1. setoid_rewrite orb_false_r in Hm.
    assert (∀ k, bool_decide (k ∈ base) = true → approves 1 k = true) as Hb
      by (intros k Hk'; unfold approves; by rewrite Hk').
    specialize (Hm Hb). lia.
  - pose proof (sum_weights_mono (approves (S n)) (approves (S (S n))) _ Ha
      (approves_mono_step n IH)). lia.
Qed.

Lemma approves_mono n m a : (n ≤ m)%nat → approves n a = true → approves m a = true.
Proof.
  induction 1 as [|m Hm IH]; [done|]. intros Ha. specialize (IH Ha).
  unfold approves in IH |- *. apply orb_true_iff in IH as [IH|IH]; [by rewrite IH|].
  destruct m as [|m]; [done|]. destruct (get a) as [au|] eqn:E; [|done].
  apply orb_true_iff. right. apply holds_mono_step; [by apply (get_ok a)|done].
Qed.

Lemma holds_mono n m auth : (n ≤ m)%nat → auth_ok auth → holds n auth = true → holds m auth = true.
Proof.
  intros Hnm [Hk Ha]. rewrite !holds_eq, !Z.leb_le. intros H.
  pose proof (sum_weights_mono (approves n) (approves m) _ Ha (λ a, approves_mono n m a Hnm)). lia.
Qed.

(** ** Soundness *)

(** Accounts recorded as approving do approve. *)
Record sound_state (s : sign_state) : Prop := {
  sound_approved a : a ∈ approved_by s → ∃ n, approves n a = true;
  sound_sigs : dom (provided_signatures s) = sigs;
}.

Lemma signed_by_spec k s s' b :
  dom (provided_signatures s) = sigs → signed_by k s = (s', b) →
  b = bool_decide (k ∈ sigs) ∧ approved_by s' = approved_by s ∧
  account_auth_count s' = account_auth_count s ∧ dom (provided_signatures s') = sigs.
Proof.
  intros Hd. unfold signed_by. destruct (provided_signatures s !! k) eqn:E; intros [= <- <-].
  - assert (k ∈ sigs) by (rewrite <- Hd; by apply elem_of_dom).
    rewrite bool_decide_eq_true_2 by done. split_and!; try done. simpl.
    rewrite dom_insert_L, Hd. by apply subseteq_union_1_L, singleton_subseteq_l.
  - assert (k ∉ sigs) by (rewrite <- Hd; by apply not_elem_of_dom).
    by rewrite bool_decide_eq_false_2.
Qed.

Lemma u32_le z : 0 ≤ z → 0 ≤ u32 z ≤ z.
Proof. intros Hz. unfold u32, wrapu. split; [by apply Z.mod_pos_bound|by apply Z.mod_le]. Qed.

(** What a loop may return, given an upper bound of the weight it can count. *)
Definition outcome_below (threshold bound : Z) (r : bool + Z * Z) : Prop :=
  match r with
  | inl true => threshold ≤ bound
  | inl false => True
  | inr (total, _) => 0 ≤ total ≤ bound
  end.

Lemma outcome_below_weaken t b b' r : b ≤ b' → outcome_below t b r → outcome_below t b' r.
Proof. destruct r as [[]|[]]; simpl; lia. Qed.

Lemma check_keys_sound limits threshold l total m s s' r :
  Forall (λ p, 0 ≤ p.2) l → 0 ≤ total → sound_state s →
  check_keys limits threshold l total m s = (s', r) →
  sound_state s' ∧
  outcome_below threshold (total + sum_weights (λ k, bool_decide (k ∈ sigs)) l) r.
Proof.
  intros Hl. revert total m s. induction Hl as [|[k w] l Hw Hl IH]; intros total m s Ht Hs; simpl.
  { intros [= <- <-]. simpl. split; [done|lia]. }
  destruct (signed_by k s) as [s1 b] eqn:Eb.
  destruct (signed_by_spec k s s1 b (sound_sigs _ Hs) Eb) as (-> & Happ & _ & Hdom).
  assert (sound_state s1) as Hs1 by (split; [by rewrite Happ; apply Hs|done]).
  pose proof (sum_weights_nonneg (λ k, bool_decide (k ∈ sigs)) l Hl) as Hnn. simpl in Hw.
  destruct (bool_decide (k ∈ sigs)) eqn:Ek; cbn [andb].
  - pose proof (u32_le (total + w) ltac:(lia)).
    destruct (Z.leb_spec threshold (u32 (total + w))); [intros [= <- <-]; simpl; split; [done|lia]|].
    destruct (negb _); [|by intros [= <- <-]].
    intros [Hs' Hr]%IH; [|lia|done]. split; [done|]. eapply outcome_below_weaken; [|done]. lia.
  - destruct (negb _); [|by intros [= <- <-]].
    intros [Hs' Hr]%IH; [|lia|done]. split; [done|]. eapply outcome_below_weaken; [|done]. lia.
Qed.


Definition check_sound (check : authority → stM sign_state bool) : Prop :=
  ∀ auth s s' b, auth_ok auth → sound_state s → check auth s = (s', Ok b) →
    sound_state s' ∧ (b = true → authorized auth).

(** Counting an account that approves and going on with the others. *)
Lemma outcome_count threshold total w a l n M r :
  0 ≤ w → Forall (λ p, 0 ≤ p.2) l → approves n a = true →
  outcome_below threshold (u32 (total + w) + sum_weights (approves M) l) r → 0 ≤ total →
  outcome_below threshold (total + sum_weights (approves (max n M)) ((a, w) :: l)) r.
Proof.
  intros Hw Hl Ha Hr Ht. eapply outcome_below_weaken; [|done]. simpl.
  rewrite (approves_mono n (max n M) a) by (done || lia).
  pose proof (u32_le (total + w) ltac:(lia)).
  pose proof (sum_weights_mono (approves M) (approves (max n M)) l Hl
    (λ a, approves_mono M (max n M) a ltac:(lia))). lia.
Qed.

Lemma outcome_skip threshold total w a l M r :
  0 ≤ w → outcome_below threshold (total + sum_weights (approves M) l) r →
  outcome_below threshold (total + sum_weights (approves M) ((a, w) :: l)) r.
Proof.
  intros Hw. apply outcome_below_weaken. simpl. destruct (approves M a); lia.
Qed.

Lemma check_accounts_sound limits check threshold l total m s s' r :
  (∀ f, check = Some f → check_sound f) → Forall (λ p, 0 ≤ p.2) l → 0 ≤ total → sound_state s →
  check_accounts limits get check threshold l total m s = (s', Ok r) →
  ∃ M, sound_state s' ∧ outcome_below threshold (total + sum_weights (approves M) l) r.
Proof.
  intros Hcheck Hl. revert total m s.
  induction Hl as [|[a w] l Hw Hl IH]; intros total m s Ht Hs; cbn [check_accounts].
  { intros [= <- <-]. exists 0%nat. simpl. split; [done|lia]. }
  simpl in Hw.
  (* after the account was found to approve *)
  assert (∀ s1 n, sound_state s1 → approves n a = true →
    (if threshold <=? u32 (total + w) then mret (inl true)
     else let '(m', more) := increase_membership limits m in
       if more then check_accounts limits get check threshold l (u32 (total + w)) m'
       else mret (inl false)) s1 = (s', Ok r) →
    ∃ M, sound_state s' ∧ outcome_below threshold (total + sum_weights (approves M) ((a, w) :: l)) r)
    as Hcount.
  { intros s1 n Hs1 Ha. pose proof (u32_le (total + w) ltac:(lia)).
    destruct (Z.leb_spec threshold (u32 (total + w))).
    - intros [= <- <-]. exists n. split; [done|]. simpl. rewrite Ha.
      pose proof (sum_weights_nonneg (approves n) l Hl). lia.
    - destruct (increase_membership limits m) as [m' [|]]; [|by intros [= <- <-]; exists 0%nat].
      intros (M & Hs' & Hr)%IH; [|lia|done]. exists (max n M). split; [done|].
      by apply outcome_count. }
  (* after it was found not to *)
  assert (∀ s1, sound_state s1 →
    (let '(m', more) := increase_membership limits m in
       if more then check_accounts limits get check threshold l total m'
       else mret (inl false)) s1 = (s', Ok r) →
    ∃ M, sound_state s' ∧ outcome_below threshold (total + sum_weights (approves M) ((a, w) :: l)) r)
    as Hskip.
  { intros s1 Hs1. destruct (increase_membership limits m) as [m' [|]];
      [|by intros [= <- <-]; exists 0%nat].
    intros (M & Hs' & Hr)%IH; [|lia|done]. exists M. split; [done|]. by apply outcome_skip. }
  unfold st_get. rewrite (stM_bind_Ok _ _ s s s) by done.
  destruct (decide (a ∈ approved_by s)) as [Hin|Hnin].
  { destruct (sound_approved _ Hs a Hin) as [n Hn]. by apply (Hcount s n). }
  destruct check as [f|].
  2:{ intros (M & Hs' & Hr)%IH; [|lia|done]. exists M. split; [done|]. by apply outcome_skip. }
  destruct (_ && _); [by intros [= <- <-]; exists 0%nat|].
  rewrite (stM_bind_Ok _ _ s (set_count (u64 (account_auth_count s + 1)) s) tt) by done.
  assert (sound_state (set_count (u64 (account_auth_count s + 1)) s)) as Hs1 by (by destruct Hs).
  intros (s2 & au & Hget & H)%stM_bind_inv. injection Hget as <- Hget.
  apply stM_bind_inv in H as (s3 & b & Hrun & H).
  destruct (Hcheck f eq_refl au _ s3 b (get_ok a au Hget) Hs1 Hrun) as [Hs3 Hb].
  destruct b; [|by apply (Hskip s3)]. destruct (Hb eq_refl) as [n Hn].
  assert (approves (S n) a = true) as Ha
    by (unfold approves; rewrite Hget; apply orb_true_iff; by right).
  rewrite (stM_bind_Ok _ _ s3 (set_approved ({[a]} ∪ approved_by s3) s3) tt) in H by done.
  revert H. apply (Hcount _ (S n)); [|done]. split; [|apply Hs3].
  simpl. intros a' [->%elem_of_singleton|Ha']%elem_of_union; [by exists (S n)|by apply Hs3].
Qed.

Lemma check_authority_impl_sound limits n : check_sound (check_authority_impl limits get n).
Proof.
  induction n as [|n IH]; intros auth s s' b [Hk Ha] Hs; cbn [check_authority_impl].
  all: destruct (check_keys limits _ _ 0 0 s) as [s1 r1] eqn:Ek.
  all: destruct (check_keys_sound limits _ _ _ _ _ _ _ Hk (Z.le_refl 0) Hs Ek) as [Hs1 Hr1].
  all: pose proof (sum_weights_nonneg (approves 0) _ Ha) as Hnn.
  all: destruct r1 as [b1|[total m]];
    [intros [= <- <-]; split; [done|]; intros ->; simpl in Hr1; exists 0%nat;
     rewrite holds_eq; apply Z.leb_le; lia|].
  all: intros (s2 & r2 & Hrun & Hret)%stM_bind_inv.
  all: apply check_accounts_sound in Hrun as (M & Hs2 & Hr2);
    [|by intros f [= <-]|done|simpl in Hr1; lia|done].
  all: destruct r2 as [b2|[total2 m2]]; injection Hret as <- <-; (split; [done|]).
  all: intros Hb; exists M; rewrite holds_eq; apply Z.leb_le; simpl in Hr1, Hr2.
  all: try (subst b2; lia); apply Z.leb_le in Hb; lia.
Qed.


(** ** Completeness *)

Definition all_weights {K} (l : list (K * Z)) : Z := sum_weights (λ _, true) l.

(** The total of the weights fits in 32 bits. *)
Definition auth_small (auth : authority) : Prop :=
  all_weights (key_auths auth) + all_weights (account_auths auth) ≤ u32_max.

(** Fewer members than the limit, if there is one. *)
Definition few_members (limits : sign_limits) (auth : authority) : Prop :=
  membership limits ≤ 0 ∨
  Z.of_nat (length (key_auths auth)) + Z.of_nat (length (account_auths auth)) < membership limits.

(** The authority and those of the accounts in it, down to the depth [n], exist, have
    small weights and few members. *)
Fixpoint checkable (limits : sign_limits) (n : nat) (auth : authority) : Prop :=
  auth_small auth ∧ few_members limits auth ∧
  match n with
  | O => True
  | S n' => ∀ a, a ∈ (account_auths auth).*1 → ∃ au, get a = Ok au ∧ checkable limits n' au
  end.

Lemma checkable_eq limits n auth :
  checkable limits n auth ↔ auth_small auth ∧ few_members limits auth ∧
    match n with
    | O => True
    | S n' => ∀ a, a ∈ (account_auths auth).*1 → ∃ au, get a = Ok au ∧ checkable limits n' au
    end.
Proof. by destruct n. Qed.

(** How many accounts are looked up at most, down to the depth [n]. *)
Fixpoint lookups (n : nat) (auth : authority) : Z :=
  match n with
  | O => 0
  | S n' =>
      foldr (λ p k, 1 + match get p.1 with Ok au => lookups n' au | Throw _ => 0 end + k) 0
        (account_auths auth)
  end.

Definition lookups_of (n : nat) (l : list (string * Z)) : Z :=
  match n with
  | O => 0
  | S n' =>
      foldr (λ p k, 1 + match get p.1 with Ok au => lookups n' au | Throw _ => 0 end + k) 0 l
  end.

Lemma lookups_nonneg n auth : 0 ≤ lookups n auth.
Proof.
  revert auth. induction n as [|n IH]; intros auth; cbn [lookups]; [lia|].
  induction (account_auths auth) as [|p l IHl]; cbn [foldr]; [lia|].
  destruct (get p.1) as [au|]; [|lia]. pose proof (IH au). lia.
Qed.

(** The limit on accounts is not reached by [k] more. *)
Definition room (limits : sign_limits) (k : Z) (s : sign_state) : Prop :=
  limit_account_auths limits ≤ 0 ∨
  0 ≤ account_auth_count s ∧ account_auth_count s + k ≤ limit_account_auths limits ≤ u32_max.

(** What [k] lookups leave of it. *)
Definition counted (k : Z) (s s' : sign_state) : Prop :=
  0 ≤ account_auth_count s → account_auth_count s + k ≤ u32_max →
  0 ≤ account_auth_count s' ≤ account_auth_count s + k.

Lemma counted_room limits k k' s s' : 0 ≤ k' → room limits (k + k') s → counted k s s' →
  room limits k' s'.
Proof. unfold room, counted. lia. Qed.

Lemma counted_trans k k' s1 s2 s3 : 0 ≤ k' → counted k s1 s2 → counted k' s2 s3 → counted (k + k') s1 s3.
Proof. unfold counted. lia. Qed.

Lemma counted_weaken k k' s s' : k ≤ k' → counted k s s' → counted k' s s'.
Proof. unfold counted. lia. Qed.

(** Every approval in [base] is known, and the signatures are those given. *)
Record complete_state (s : sign_state) : Prop := {
  complete_base : base ⊆ approved_by s;
  complete_sigs : dom (provided_signatures s) = sigs;
}.

(** A loop that does not stop early counts all that approve. *)
Definition outcome_above (lo hi : Z) (r : bool + Z * Z) : Prop :=
  match r with
  | inl b => b = true
  | inr (total, _) => lo ≤ total ≤ hi
  end.

(** [k] more members can be seen after [m]. *)
Definition members_left (limits : sign_limits) (m : Z) (k : nat) : Prop :=
  membership limits ≤ 0 ∨ m + Z.of_nat k < membership limits.

Lemma increase_allowed limits m k :
  members_left limits m (S k) →
  increase_membership limits m = (m + 1, true) ∧ members_left limits (m + 1) k ∧
  members_left limits m k.
Proof.
  intros H. unfold increase_membership, members_left in *. split; [|lia]. f_equal.
  rewrite negb_true_iff, andb_false_iff, Z.ltb_ge, Z.leb_gt. lia.
Qed.

Lemma all_weights_nonneg {K} (l : list (K * Z)) :
  Forall (λ p, 0 ≤ p.2) l → 0 ≤ all_weights l.
Proof. apply sum_weights_nonneg. Qed.

Lemma check_keys_complete limits threshold l total m s :
  ∀ rest, members_left limits m (length l + rest) → Forall (λ p, 0 ≤ p.2) l → 0 ≤ total →
  total + all_weights l ≤ u32_max → complete_state s →
  ∃ s' r, check_keys limits threshold l total m s = (s', r) ∧ complete_state s' ∧
    account_auth_count s' = account_auth_count s ∧
    outcome_above (total + sum_weights (λ k, bool_decide (k ∈ sigs)) l) (total + all_weights l) r ∧
    match r with inl _ => True | inr (_, m') => members_left limits m' rest end.
Proof.
  intros rest Hlim Hl. revert total m s Hlim.
  induction Hl as [|[k w] l Hw Hl IH]; intros total m s Hlim Ht Hmax Hs.
  { eexists _, _. split_and!; [done|done|done| |done]. simpl. unfold all_weights. simpl. lia. }
  simpl in Hw, Hmax. cbn [check_keys]. unfold all_weights, sum_weights in *. cbn [foldr fst snd] in *.
  fold (sum_weights (λ k, bool_decide (k ∈ sigs)) l) (sum_weights (λ _, true) l) in *.
  destruct (signed_by k s) as [s1 b] eqn:Eb.
  destruct (signed_by_spec k s s1 b (complete_sigs _ Hs) Eb) as (-> & Happ & Hcnt & Hdom).
  assert (complete_state s1) as Hs1 by (split; [by rewrite Happ; apply Hs|done]).
  pose proof (all_weights_nonneg l Hl) as Hnn. unfold all_weights in *.
  destruct (increase_allowed limits m _ Hlim) as (-> & Hlim' & _).
  destruct (bool_decide (k ∈ sigs)) eqn:Ek; cbn [andb].
  - rewrite u32_id by lia. destruct (Z.leb_spec threshold (total + w)).
    { eexists _, _. by split_and!. }
    destruct (IH (total + w) (m + 1) s1) as (s' & r & -> & Hs' & Hc & Hr & Hm); [done|lia|lia|done|].
    eexists _, _. split_and!; [done|done|congruence| |done]. destruct r as [|[]]; simpl in *; lia || done.
  - destruct (IH total (m + 1) s1) as (s' & r & -> & Hs' & Hc & Hr & Hm); [done|lia|lia|done|].
    eexists _, _. split_and!; [done|done|congruence| |done]. destruct r as [|[]]; simpl in *; lia || done.
Qed.

Definition check_complete (limits : sign_limits) (n : nat) (check : authority → stM sign_state bool) : Prop :=
  ∀ auth s, auth_ok auth → checkable limits n auth → complete_state s → room limits (lookups n auth) s →
    ∃ s' b, check auth s = (s', Ok b) ∧ complete_state s' ∧ counted (lookups n auth) s s' ∧
      (holds n auth = true → b = true).

(** The recursive call and what it needs of the accounts in the list. *)
Definition callable (limits : sign_limits) (n : nat) (check : option (authority → stM sign_state bool))
    (l : list (string * Z)) : Prop :=
  match check with
  | None => n = 0%nat
  | Some f => ∃ n', n = S n' ∧ check_complete limits n' f ∧
      ∀ a, a ∈ l.*1 → ∃ au, get a = Ok au ∧ checkable limits n' au
  end.

Lemma callable_tail limits n check p l : callable limits n check (p :: l) → callable limits n check l.
Proof.
  unfold callable. destruct check as [f|]; [|done]. intros (n' & -> & Hf & Ha). exists n'.
  split_and!; [done|done|]. intros a Hin. apply Ha. by right.
Qed.

Lemma lookups_of_nonneg n l : 0 ≤ lookups_of n l.
Proof. destruct n; [done|]. exact (lookups_nonneg (S n) (Authority 0 l [])). Qed.

Lemma lookups_of_cons n a w l :
  lookups_of n l ≤ lookups_of n ((a, w) :: l).
Proof.
  destruct n as [|n]; cbn [lookups_of foldr fst]; [lia|].
  destruct (get a) as [au|]; [|lia]. pose proof (lookups_nonneg n au). lia.
Qed.

Section accounts_loop.
Context (limits : sign_limits) (n : nat) (check : option (authority → stM sign_state bool)).
Context (threshold : Z).

(** What the loop promises for the rest of the list. *)
Definition loop_complete (l : list (string * Z)) : Prop := ∀ total m s,
  callable limits n check l → members_left limits m (length l) → room limits (lookups_of n l) s →
  0 ≤ total → total + all_weights l ≤ u32_max → complete_state s →
  ∃ s' r, check_accounts limits get check threshold l total m s = (s', Ok r) ∧ complete_state s' ∧
    counted (lookups_of n l) s s' ∧
    outcome_above (total + sum_weights (approves n) l) (total + all_weights l) r.

(** What it promises for a list from the state [s1] on, after the head was dealt with. *)
Definition step_complete (a : string) (w total : Z) (l : list (string * Z))
    (run : stM sign_state (bool + Z * Z)) (s1 : sign_state) : Prop :=
  ∃ s' r, run s1 = (s', Ok r) ∧ complete_state s' ∧ counted (lookups_of n l) s1 s' ∧
    outcome_above (total + ((if approves n a then w else 0) + sum_weights (approves n) l))
      (total + (w + sum_weights (λ _, true) l)) r.

Context (a : string) (w : Z) (l : list (string * Z)) (Hw : 0 ≤ w) (Hl : Forall (λ p, 0 ≤ p.2) l).
Context (IH : loop_complete l) (Hcall : callable limits n check l).
Context (total m : Z) (Ht : 0 ≤ total) (Hmax : total + (w + all_weights l) ≤ u32_max).
Context (Hm : members_left limits m (S (length l))).

Lemma count_step s1 : complete_state s1 → room limits (lookups_of n l) s1 →
  step_complete a w total l
    (if threshold <=? u32 (total + w) then mret (inl true)
     else let '(m', more) := increase_membership limits m in
       if more then check_accounts limits get check threshold l (u32 (total + w)) m'
       else mret (inl false)) s1.
Proof using Hw Hl IH Hcall Ht Hmax Hm.
  intros Hs1 Hroom. pose proof (all_weights_nonneg l Hl) as Hnn. rewrite u32_id by lia.
  pose proof (lookups_of_nonneg n l). unfold step_complete.
  destruct (Z.leb_spec threshold (total + w)).
  { eexists _, _. split_and!; [done|done| |done]. unfold counted. lia. }
  destruct (increase_allowed limits m _ Hm) as (-> & Hm' & _).
  destruct (IH (total + w) (m + 1) s1) as (s' & r & -> & Hs' & Hc & Hr); [done|done|done|lia|lia|done|].
  eexists _, _. split_and!; [done|done|done|]. unfold all_weights in *.
  destruct r as [|[]]; simpl in *; [done|]. destruct (approves n a); lia.
Qed.

Lemma skip_step s1 m1 : complete_state s1 → room limits (lookups_of n l) s1 →
  members_left limits m1 (length l) → approves n a = false →
  step_complete a w total l (check_accounts limits get check threshold l total m1) s1.
Proof using Hw IH Hcall Ht Hmax.
  intros Hs1 Hroom Hm1 Ha.
  destruct (IH total m1 s1) as (s' & r & Hrun & Hs' & Hc & Hr); [done|done|done|lia|lia|done|].
  eexists _, _. split_and!; [done|done|done|]. rewrite Ha. unfold all_weights in *.
  destruct r as [|[]]; simpl in *; lia || done.
Qed.

(** The lookup of an account that is not approved yet. *)
Lemma lookup_step f n' s : check = Some f → n = S n' → check_complete limits n' f →
  (∃ au, get a = Ok au ∧ checkable limits n' au) → a ∉ base → complete_state s →
  room limits (lookups_of n ((a, w) :: l)) s →
  ∃ s' r,
    (st_modify (λ s, set_count (u64 (account_auth_count s + 1)) s) ;;
     auth ← st_lift (get a);
     approved ← f auth;
     if (approved : bool) then
       st_modify (λ s, set_approved ({[ a ]} ∪ approved_by s) s) ;;
       if threshold <=? u32 (total + w) then mret (inl true)
       else let '(m', more) := increase_membership limits m in
         if more then check_accounts limits get check threshold l (u32 (total + w)) m'
         else mret (inl false)
     else let '(m', more) := increase_membership limits m in
       if more then check_accounts limits get check threshold l total m' else mret (inl false)) s
    = (s', Ok r) ∧ complete_state s' ∧ counted (lookups_of n ((a, w) :: l)) s s' ∧
    outcome_above (total + ((if approves n a then w else 0) + sum_weights (approves n) l))
      (total + (w + sum_weights (λ _, true) l)) r.
Proof using All.
  intros _ En Hf (au & Hget & Hau) Hnb Hs Hroom.
  set (s1 := set_count (u64 (account_auth_count s + 1)) s).
  pose proof (lookups_nonneg n' au) as Hn1. pose proof (lookups_of_nonneg n l) as Hn2.
  assert (lookups_of n ((a, w) :: l) = 1 + lookups n' au + lookups_of n l) as El
    by (rewrite En; cbn [lookups_of foldr fst]; by rewrite Hget).
  rewrite El in *.
  assert (complete_state s1) as Hs1 by (by destruct Hs).
  assert (counted 1 s s1) as Hc1.
  { unfold counted, s1. simpl. intros H0 H1. rewrite u64_id; unfold u32_max, u64_max in *; lia. }
  assert (room limits (lookups n' au + lookups_of n l) s1) as Hr1
    by (apply (counted_room limits 1 (lookups n' au + lookups_of n l) s s1);
        [lia|by rewrite Z.add_assoc|done]).
  rewrite (stM_bind_Ok _ _ s s1 tt) by done.
  rewrite (stM_bind_Ok _ _ s1 s1 au) by (unfold st_lift; by rewrite Hget).
  destruct (Hf au s1 (get_ok a au Hget) Hau Hs1) as (s2 & b & Hrun & Hs2 & Hc2 & Hb).
  { unfold room in *. lia. }
  rewrite (stM_bind_Ok _ _ _ _ _ Hrun).
  assert (counted (1 + lookups n' au) s s2) as Hc12 by by apply (counted_trans _ _ s s1 s2).
  assert (∀ s3 run, account_auth_count s3 = account_auth_count s2 →
    step_complete a w total l run s3 → ∃ s' r, run s3 = (s', Ok r) ∧ complete_state s' ∧
      counted (1 + lookups n' au + lookups_of n l) s s' ∧
      outcome_above (total + ((if approves n a then w else 0) + sum_weights (approves n) l))
        (total + (w + sum_weights (λ _, true) l)) r) as Hfin.
  { intros s3 run E3 (s' & r & Hr & Hs' & Hc & Ho). exists s', r. split_and!; [done|done| |done].
    apply (counted_trans _ _ s s2 s'); [done|done|]. unfold counted in *. by rewrite <- E3. }
  assert (room limits (lookups_of n l) s2) as Hr2
    by by apply (counted_room limits (lookups n' au) _ s1).
  destruct b.
  - rewrite (stM_bind_Ok _ _ s2 (set_approved ({[a]} ∪ approved_by s2) s2) tt) by done.
    apply Hfin; [done|]. apply count_step; [|done].
    split; [|apply Hs2]. simpl. pose proof (complete_base _ Hs2). set_solver.
  - destruct (increase_allowed limits m _ Hm) as (-> & Hm' & _). apply Hfin; [done|].
    apply skip_step; [done|done|done|]. unfold approves. rewrite En.
    rewrite bool_decide_eq_false_2 by done. rewrite Hget. simpl.
    destruct (holds n' au); [by specialize (Hb eq_refl)|done].
Qed.

End accounts_loop.

Lemma check_accounts_complete limits n check threshold l :
  Forall (λ p, 0 ≤ p.2) l → loop_complete limits n check threshold l.
Proof.
  induction 1 as [|[a w] l Hw Hl IH]; intros total m s Hcall Hm Hroom Ht Hmax Hs.
  { eexists _, _. split_and!; [done|done| |simpl; unfold all_weights; simpl; lia].
    unfold counted. pose proof (lookups_of_nonneg n []). lia. }
  simpl in Hw, Hm. pose proof (callable_tail _ _ _ _ _ Hcall) as Hcall'.
  unfold all_weights in *. cbn [check_accounts sum_weights foldr fst snd] in *.
  fold (all_weights l) in Hmax. pose proof (lookups_of_cons n a w l) as Hlc.
  assert (room limits (lookups_of n l) s) as Hroom' by (unfold room in *; lia).
  unfold st_get. rewrite (stM_bind_Ok _ _ s s s) by done.
  assert (∀ run, step_complete n a w total l run s → ∃ s' r, run s = (s', Ok r) ∧ complete_state s' ∧
    counted (lookups_of n ((a, w) :: l)) s s' ∧
    outcome_above (total + ((if approves n a then w else 0) + sum_weights (approves n) l))
      (total + (w + sum_weights (λ _, true) l)) r) as Hfin.
  { intros run (s' & r & Hr & Hs' & Hc & Ho). exists s', r. split_and!; [done|done| |done].
    by apply (counted_weaken (lookups_of n l)). }
  destruct (decide (a ∈ approved_by s)) as [Hin|Hnin].
  { apply Hfin. by apply (count_step limits n check threshold a w l Hw Hl IH Hcall' total m Ht Hmax Hm). }
  assert (a ∉ base) as Hnb by (intros Hb; by apply Hnin, Hs).
  destruct check as [f|].
  2:{ apply Hfin. destruct (increase_allowed limits m _ Hm) as (_ & _ & Hm').
      apply (skip_step limits n None threshold a w l Hw IH Hcall' total Ht Hmax); [done|done|done|].
      simpl in Hcall. subst n. unfold approves. by rewrite bool_decide_eq_false_2. }
  destruct Hcall as (n' & -> & Hf & Hget).
  replace ((0 <? limit_account_auths limits) && (limit_account_auths limits <=? account_auth_count s))
    with false.
  2:{ symmetry. rewrite andb_false_iff, Z.ltb_ge, Z.leb_gt.
      destruct (Hget a ltac:(left)) as (au & Eg & _). cbn [lookups_of foldr fst] in Hroom.
      rewrite Eg in Hroom. pose proof (lookups_nonneg n' au).
      pose proof (lookups_of_nonneg (S n') l) as Hnn. cbn [lookups_of] in Hnn. unfold room in Hroom. lia. }
  by apply (lookup_step limits (S n') (Some f) threshold a w l Hw Hl IH Hcall' total m Ht Hmax Hm f n');
    [..|apply Hget; left| | |].
Qed.

Lemma check_authority_impl_complete limits n :
  check_complete limits n (check_authority_impl limits get n).
Proof.
  induction n as [|n IH]; intros auth s [Hk Ha] (Hsmall & Hfew & Hacc)%checkable_eq Hs Hroom;
    unfold auth_small in Hsmall.
  all: pose proof (all_weights_nonneg _ Hk) as Hnk; pose proof (all_weights_nonneg _ Ha) as Hna.
  all: pose proof (sum_weights_nonneg (λ k, bool_decide (k ∈ sigs)) _ Hk) as Hns.
  all: destruct (check_keys_complete limits (weight_threshold auth) (key_auths auth) 0 0 s
    (length (account_auths auth))) as (s1 & r1 & Ek & Hs1 & Hc1 & Hr1 & Hm1);
    [unfold few_members in Hfew; unfold members_left; lia|done|lia|lia|done|].
  all: cbn [check_authority_impl]; rewrite Ek.
  all: destruct r1 as [b1|[total m]]; simpl in Hr1;
    [subst b1; eexists _, _; split_and!; [done|done| |done]; unfold counted;
     match goal with |- context [lookups ?k ?au] => pose proof (lookups_nonneg k au) end; lia|].
  all: rewrite holds_eq.
  1: destruct (check_accounts_complete limits 0 None (weight_threshold auth) (account_auths auth) Ha
    total m s1) as (s2 & r2 & Hrun & Hs2 & Hc2 & Hr2); [done|done| |lia|lia|done|].
  3: destruct (check_accounts_complete limits (S n) (Some (check_authority_impl limits get n))
    (weight_threshold auth) (account_auths auth) Ha total m s1) as (s2 & r2 & Hrun & Hs2 & Hc2 & Hr2);
    [by exists n|done| |lia|lia|done|].
  1,3: unfold room in *; rewrite Hc1; done.
  all: rewrite (stM_bind_Ok _ _ _ _ _ Hrun).
  all: unfold counted in Hc2; rewrite Hc1 in Hc2.
  all: destruct r2 as [b2|[total2 m2]]; simpl in Hr2; [subst b2; eexists _, _; by split_and!|].
  all: eexists _, _; split_and!; [done|done|done|].
  all: rewrite !Z.leb_le; lia.
Qed.

End reference.

(** ** Properties *)

Lemma new_sign_state_dom sigs : dom (provided_signatures (new_sign_state sigs)) = sigs.
Proof.
  unfold new_sign_state, extend_provided_signatures. simpl.
  apply (set_fold_ind_L (λ m X, dom m = X)); [by rewrite dom_empty_L|].
  intros k X m Hk Hm. by rewrite dom_insert_L, Hm.
Qed.

Lemma base_state_sound get sigs base :
  sound_state get sigs base (add_approved base (new_sign_state sigs)).
Proof.
  split; [|apply new_sign_state_dom]. simpl. intros a Ha.
  exists 0%nat. unfold approves. rewrite bool_decide_eq_true_2; [done|set_solver].
Qed.

(** C21. Checking an authority against signatures: whatever the limits on depth,
    members and accounts, success means that the authority is satisfied, that is, the
    weights of keys that signed and of accounts that approve (given in advance, or by
    their own authority, in finitely many steps) reach the threshold, in spite of the
    32-bit sum and of the cache of approved accounts.  Conversely, an authority that is
    satisfied within the depth limit is found to be so, when it and the authorities of
    the accounts in it down to that depth exist, have weights that add up in 32 bits
    and fewer members than the limit on members, if there is one, and the accounts in
    all of them are no more than the limit on accounts, if there is one. *)
Theorem check_authority_exact (get : string → result authority) (sigs : gset Z)
    (base : gset string) (limits : sign_limits) (auth : authority) :
  (∀ a au, get a = Ok au → auth_ok au) → auth_ok auth →
  let s := add_approved base (new_sign_state sigs) in
  ((check_authority limits get auth s).2 = Ok true → authorized get sigs base auth) ∧
  (checkable get limits (Z.to_nat (recursion limits)) auth →
   limit_account_auths limits ≤ 0 ∨
     lookups get (Z.to_nat (recursion limits)) auth ≤ limit_account_auths limits ≤ u32_max →
   holds get sigs base (Z.to_nat (recursion limits)) auth = true →
   (check_authority limits get auth s).2 = Ok true).
Proof.
  intros Hget Hauth s. unfold check_authority.
  set (s1 := if negb (allow_strict_and_mixed_authorities limits) then set_count 0 s else s).
  rewrite (stM_bind_Ok _ _ s s1 tt) by done.
  assert (approved_by s1 = approved_by s ∧ provided_signatures s1 = provided_signatures s ∧
    account_auth_count s1 = 0) as (E1 & E2 & E3) by (unfold s1; by destruct (negb _)).
  split.
  - intros H. destruct (check_authority_impl _ _ _ _ s1) as [s' r] eqn:E. simpl in H. subst r.
    apply (check_authority_impl_sound get sigs base Hget) in E as [_ Ha]; [by apply Ha|done|].
    destruct (base_state_sound get sigs base). by split; rewrite ?E1, ?E2.
  - intros Hcheck Hlim Hholds.
    destruct (check_authority_impl_complete get sigs base Hget limits
      (Z.to_nat (recursion limits)) auth s1 Hauth Hcheck) as (s' & b & -> & _ & _ & Hb).
    + split; [rewrite E1; simpl; set_solver|rewrite E2; apply new_sign_state_dom].
    + unfold room. rewrite E3. lia.
    + by rewrite (Hb Hholds).
Qed.

(** Alice's authority needs Bob and the key 7; Bob's needs the key 8. *)
Definition sample_get (a : string) : result authority :=
  Ok (if decide (a = "bob"%string) then Authority 1 [] [(8, 1)] else Authority 1 [] []).
Definition sample_alice : authority := Authority 2 [("bob"%string, 1)] [(7, 1)].
Definition sample_limits : sign_limits := SignLimits false 2 0 0.
(** The least limits that do not refuse. *)
Definition tight_limits : sign_limits := SignLimits false 2 3 1.

Lemma check_authority_exact_witness :
  (check_authority tight_limits sample_get sample_alice
     (add_approved ∅ (new_sign_state {[ 7; 8 ]}))).2 = Ok true ∧
  authorized sample_get {[ 7; 8 ]} ∅ sample_alice.
Proof.
  assert (∀ a au, sample_get a = Ok au → auth_ok au) as Hget.
  { intros a au [= <-]. destruct (decide _); split; repeat constructor; simpl; lia. }
  assert (auth_ok sample_alice) as Hal by (split; repeat constructor; simpl; lia).
  destruct (check_authority_exact sample_get {[ 7; 8 ]} ∅ tight_limits sample_alice Hget Hal)
    as [H1 H2].
  assert ((check_authority tight_limits sample_get sample_alice
     (add_approved ∅ (new_sign_state {[ 7; 8 ]}))).2 = Ok true) as Hc.
  { apply H2; [|by right; vm_compute|by vm_compute].
    split; [by vm_compute|]. split; [by right; vm_compute|].
    intros a ->%list_elem_of_singleton. eexists. split; [reflexivity|].
    split; [by vm_compute|]. split; [by right; vm_compute|]. intros a Ha. by apply elem_of_nil in Ha. }
  split; [exact Hc|exact (H1 Hc)].
Defined.

(** *** Transactions *)

(** The account approves in advance or its authority is satisfied. *)
Definition account_authorized (get : string → result authority) (sigs : gset Z)
    (base : gset string) (id : string) : Prop :=
  id ∈ base ∨ ∃ au, get id = Ok au ∧ authorized get sigs base au.

Lemma approves_account get sigs base n a :
  approves get sigs base n a = true → account_authorized get sigs base a.
Proof.
  unfold approves. intros [H|H]%orb_true_iff; [left; by apply bool_decide_eq_true in H|right].
  destruct n as [|n]; [done|]. destruct (get a) as [au|] eqn:E; [|done].
  exists au. split; [done|by exists n].
Qed.

Section verify_spec.
Context (get_active get_owner get_posting : string → result authority).
Context (get_witness_key : string → result Z).
Context (limits : sign_limits) (allow_redundant : bool).
Context (active_approvals owner_approvals posting_approvals : gset string) (sigs : gset Z).
Context (active_ok : ∀ a au, get_active a = Ok au → auth_ok au).
Context (owner_ok : ∀ a au, get_owner a = Ok au → auth_ok au).
Context (posting_ok : ∀ a au, get_posting a = Ok au → auth_ok au).

Lemma check_authority_sound get base auth s s' b :
  (∀ a au, get a = Ok au → auth_ok au) → auth_ok auth → sound_state get sigs base s →
  check_authority limits get auth s = (s', Ok b) →
  sound_state get sigs base s' ∧ (b = true → authorized get sigs base auth).
Proof.
  intros Hget Hauth Hs. unfold check_authority.
  rewrite (stM_bind_Ok _ _ s (if negb (allow_strict_and_mixed_authorities limits)
    then set_count 0 s else s) tt) by done.
  apply check_authority_impl_sound; [done|done|]. destruct (negb _); [|done].
  by destruct Hs.
Qed.

Lemma check_account_sound get base id s s' b :
  (∀ a au, get a = Ok au → auth_ok au) → sound_state get sigs base s →
  check_authority_account limits get id s = (s', Ok b) →
  sound_state get sigs base s' ∧ (b = true → account_authorized get sigs base id).
Proof.
  intros Hget Hs. unfold check_authority_account, st_get.
  rewrite (stM_bind_Ok _ _ s s s) by done. destruct (decide _) as [Hin|_].
  { intros [= <- <-]. split; [done|]. intros _.
    destruct (sound_approved _ _ _ _ Hs id Hin) as [n Hn]. by eapply approves_account. }
  intros (s1 & [] & [= <-] & H)%stM_bind_inv.
  apply stM_bind_inv in H as (s2 & au & [= <- Hau] & Hrun).
  apply (check_authority_impl_sound get sigs base Hget) in Hrun as [Hs' Hb];
    [|by apply (Hget id)|by destruct Hs].
  split; [done|]. intros Ht. right. exists au. split; [done|by apply Hb].
Qed.

(** The authority that one getter gives, checked with another one for the accounts
    in it. *)
Lemma check_of_sound get (get' : string → result authority) base id s s' b :
  (∀ a au, get a = Ok au → auth_ok au) → (∀ a au, get' a = Ok au → auth_ok au) →
  sound_state get sigs base s →
  (auth ← st_lift (get' id); check_authority limits get auth) s = (s', Ok b) →
  sound_state get sigs base s' ∧
  (b = true → ∃ au, get' id = Ok au ∧ authorized get sigs base au).
Proof.
  intros Hget Hget' Hs (s1 & au & [= <- Hau] & Hrun)%stM_bind_inv.
  apply check_authority_sound with (base := base) in Hrun as [Hs' Hb];
    [|done|by apply (Hget' id)|done].
  split; [done|]. intros Ht. exists au. split; [done|by apply Hb].
Qed.

Lemma verify_check_None test p s s' :
  verify_check test p s = (s', Ok None) → test s = (s', Ok true).
Proof.
  unfold verify_check. intros (s1 & b & Hrun & Hret)%stM_bind_inv.
  destruct b; [|done]. by injection Hret as <-.
Qed.

Lemma or_else_true a b s s' :
  or_else a b s = (s', Ok true) →
  a s = (s', Ok true) ∨ ∃ s1, a s = (s1, Ok false) ∧ b s1 = (s', Ok true).
Proof.
  unfold or_else. intros (s1 & r & Hrun & H)%stM_bind_inv. destruct r; [|right; by exists s1].
  injection H as <-. by left.
Qed.

Lemma and_then_None a b s s' :
  and_then a b s = (s', Ok None) → ∃ s1, a s = (s1, Ok None) ∧ b s1 = (s', Ok None).
Proof.
  unfold and_then. intros (s1 & r & Hrun & H)%stM_bind_inv. destruct r; [done|by exists s1].
Qed.

(** A loop of checks that reports no problem. *)
Lemma verify_all_None {A} (I : sign_state → Prop) (Q : A → Prop) f l s s' :
  (∀ a s s', a ∈ l → I s → f a s = (s', Ok None) → I s' ∧ Q a) →
  I s → verify_all f l s = (s', Ok None) → I s' ∧ ∀ a, a ∈ l → Q a.
Proof.
  revert s. induction l as [|a l IH]; intros s Hf Hs; simpl.
  { intros [= <-]. split; [done|]. intros a Ha. by apply elem_of_nil in Ha. }
  intros (s1 & r & Hrun & H)%stM_bind_inv. destruct r; [done|].
  destruct (Hf a s s1 ltac:(by left) Hs Hrun) as [Hs1 Ha].
  destruct (IH s1) as [Hs' Hall]; [|done|done|].
  { intros b t t' Hb. apply Hf. by right. }
  split; [done|]. intros a' [->|Ha']%elem_of_cons; [done|by apply Hall].
Qed.

Abbreviation vposting := (verify_posting get_active get_owner get_posting limits).
Abbreviation base := (active_approvals ∪ owner_approvals).

(** What a posting requirement that passed means: in the strict mode the posting
    authority, else any of the three. *)
Definition posting_granted (id : string) : Prop :=
  account_authorized get_posting sigs posting_approvals id ∨
  strict limits = false ∧
    ((∃ au, get_active id = Ok au ∧ authorized get_posting sigs posting_approvals au) ∨
     (∃ au, get_owner id = Ok au ∧ authorized get_posting sigs posting_approvals au)).

Definition active_granted (id : string) : Prop :=
  account_authorized get_active sigs base id ∨
  strict limits = false ∧ ∃ au, get_owner id = Ok au ∧ authorized get_active sigs base au.

Definition owner_granted (id : string) : Prop :=
  id ∈ owner_approvals ∨ ∃ au, get_owner id = Ok au ∧ authorized get_active sigs base au.

Definition witness_granted (id : string) : Prop := ∃ k, get_witness_key id = Ok k ∧ k ∈ sigs.

Lemma verify_posting_sound id s s' :
  sound_state get_posting sigs posting_approvals s → vposting id s = (s', Ok None) →
  sound_state get_posting sigs posting_approvals s' ∧ posting_granted id.
Proof.
  intros Hs H%verify_check_None. unfold posting_granted. destruct (strict limits).
  { apply (check_account_sound get_posting posting_approvals) in H as [Hs' Hb]; naive_solver. }
  apply or_else_true in H as [H|(s1 & H1 & H)].
  { apply (check_account_sound get_posting posting_approvals) in H as [Hs' Hb]; naive_solver. }
  apply (check_account_sound get_posting posting_approvals) in H1 as [Hs1 _]; [|done..].
  apply or_else_true in H as [H|(s2 & H2 & H)].
  { apply (check_of_sound get_posting get_active posting_approvals) in H as [Hs' Hb]; naive_solver. }
  apply (check_of_sound get_posting get_active posting_approvals) in H2 as [Hs2 _]; [|done..].
  apply (check_of_sound get_posting get_owner posting_approvals) in H as [Hs' Hb]; naive_solver.
Qed.

Lemma verify_active_sound id s s' :
  sound_state get_active sigs base s →
  verify_active get_active get_owner limits id s = (s', Ok None) →
  sound_state get_active sigs base s' ∧ active_granted id.
Proof.
  intros Hs H%verify_check_None. unfold active_granted. destruct (strict limits).
  { apply (check_account_sound get_active base) in H as [Hs' Hb]; naive_solver. }
  apply or_else_true in H as [H|(s1 & H1 & H)].
  { apply (check_account_sound get_active base) in H as [Hs' Hb]; naive_solver. }
  apply (check_account_sound get_active base) in H1 as [Hs1 _]; [|done..].
  apply (check_of_sound get_active get_owner base) in H as [Hs' Hb]; naive_solver.
Qed.

Lemma verify_owner_sound id s s' :
  sound_state get_active sigs base s →
  verify_owner get_active get_owner limits owner_approvals id s = (s', Ok None) →
  sound_state get_active sigs base s' ∧ owner_granted id.
Proof.
  intros Hs H%verify_check_None. unfold owner_granted. destruct (decide _).
  { injection H as <-. auto. }
  apply (check_of_sound get_active get_owner base) in H as [Hs' Hb]; naive_solver.
Qed.

Lemma verify_witness_sound id s s' :
  sound_state get_active sigs base s → verify_witness get_witness_key id s = (s', Ok None) →
  sound_state get_active sigs base s' ∧ witness_granted id.
Proof.
  intros Hs. unfold verify_witness, witness_granted.
  destruct (get_witness_key id) as [k|]; [|done]. intros H%verify_check_None.
  destruct (signed_by k s) as [s1 b] eqn:E. injection H as -> ->.
  destruct (signed_by_spec sigs k s s' true (sound_sigs _ _ _ _ Hs) E) as (Hb & Ha & _ & Hd).
  symmetry in Hb. apply bool_decide_eq_true in Hb. split; [|by exists k].
  split; [rewrite Ha; apply Hs|done].
Qed.

Lemma verify_rest_sound r s s' :
  Forall auth_ok (other r) → dom (provided_signatures s) = sigs →
  verify_rest get_active get_owner get_witness_key limits allow_redundant
    active_approvals owner_approvals r s = (s', Ok None) →
  (∀ auth, auth ∈ other r → authorized get_active sigs base auth) ∧
  (∀ id, id ∈ required_active r → active_granted id) ∧
  (∀ id, id ∈ required_owner r → owner_granted id) ∧
  (∀ id, id ∈ required_witness r → witness_granted id).
Proof.
  intros Hother Hdom. unfold verify_rest. intros (s1 & [] & [= <-] & H)%stM_bind_inv.
  set (s1 := add_approved _ _) in H.
  assert (sound_state get_active sigs base s1) as Hs1.
  { split; [|done]. simpl. intros a Ha. exists 0%nat. unfold approves.
    rewrite bool_decide_eq_true_2; [done|set_solver]. }
  apply and_then_None in H as (s2 & H2 & H).
  apply (verify_all_None (sound_state get_active sigs base)
    (authorized get_active sigs base)) in H2 as [Hs2 Q2]; [| |done].
  2:{ intros auth t t' Hin Ht Hv%verify_check_None.
      apply (check_authority_sound get_active base) in Hv as [Ht' Hv]; [by split; [|apply Hv]|done| |done].
      by apply (proj1 (Forall_forall _ _) Hother). }
  apply and_then_None in H as (s3 & H3 & H).
  apply (verify_all_None (sound_state get_active sigs base) active_granted) in H3 as [Hs3 Q3];
    [|intros ? ? ? _; by apply verify_active_sound|done].
  apply and_then_None in H as (s4 & H4 & H).
  apply (verify_all_None (sound_state get_active sigs base) owner_granted) in H4 as [Hs4 Q4];
    [|intros ? ? ? _; by apply verify_owner_sound|done].
  apply and_then_None in H as (s5 & H5 & H).
  apply (verify_all_None (sound_state get_active sigs base) witness_granted) in H5 as [Hs5 Q5];
    [|intros ? ? ? _; by apply verify_witness_sound|done].
  done.
Qed.
End verify_spec.

(** All that was required is granted. *)
Record requirements_granted
    (get_active get_owner get_posting : string → result authority)
    (get_witness_key : string → result Z) (limits : sign_limits)
    (active_approvals owner_approvals posting_approvals : gset string) (sigs : gset Z)
    (r : required_authorities_type) : Prop := {
  all_posting_granted : ∀ id, id ∈ required_posting r →
    posting_granted get_active get_owner get_posting limits posting_approvals sigs id;
  all_active_granted : ∀ id, id ∈ required_active r →
    active_granted get_active get_owner limits active_approvals owner_approvals sigs id;
  all_owner_granted : ∀ id, id ∈ required_owner r →
    owner_granted get_active get_owner active_approvals owner_approvals sigs id;
  all_witness_granted : ∀ id, id ∈ required_witness r → witness_granted get_witness_key sigs id;
  all_other_granted : ∀ auth, auth ∈ other r →
    authorized get_active sigs (active_approvals ∪ owner_approvals) auth;
  posting_not_mixed : required_posting r ≠ [] → strict limits = false → is_mixed r = false;
}.

Lemma verify_impl_granted
    (get_active get_owner get_posting : string → result authority)
    (get_witness_key : string → result Z) (limits : sign_limits) (allow_redundant : bool)
    (active_approvals owner_approvals posting_approvals : gset string) (sigs : gset Z)
    (r : required_authorities_type) :
  (∀ a au, get_active a = Ok au → auth_ok au) → (∀ a au, get_owner a = Ok au → auth_ok au) →
  (∀ a au, get_posting a = Ok au → auth_ok au) → Forall auth_ok (other r) →
  verify_authority_impl get_active get_owner get_posting get_witness_key limits allow_redundant
    active_approvals owner_approvals posting_approvals r sigs = Ok None →
  requirements_granted get_active get_owner get_posting get_witness_key limits
    active_approvals owner_approvals posting_approvals sigs r.
Proof.
  intros Ha Ho Hp Hother. unfold verify_authority_impl. intros H.
  assert (∀ (x : sign_state * result (option verify_authority_problem)),
    x.2 = Ok None → ∃ s, x = (s, Ok None)) as Hsnd by (intros [s ?] ?; exists s; simpl in *; congruence).
  apply Hsnd in H as [s' H]. clear Hsnd.
  destruct (bool_decide_reflect (required_posting r = [])) as [E|E].
  { apply verify_rest_sound with (sigs := sigs) (get_posting := get_posting) in H as (Q1 & Q2 & Q3 & Q4);
      [|done..|apply new_sign_state_dom]. split; try done. rewrite E. intros id Hid. by apply elem_of_nil in Hid. }
  destruct (negb (strict limits) && is_mixed r) eqn:Emix; [done|].
  apply stM_bind_inv in H as (s1 & [] & [= <-] & H).
  apply and_then_None in H as (s2 & H2 & H).
  apply (verify_all_None (sound_state get_posting sigs posting_approvals)
    (posting_granted get_active get_owner get_posting limits posting_approvals sigs)) in H2 as [Hs2 Q];
    [|intros ? ? ? _; by apply verify_posting_sound|apply base_state_sound].
  destruct (strict limits) eqn:Est; simpl in *.
  - apply verify_rest_sound with (sigs := sigs) (get_posting := get_posting) in H as (Q1 & Q2 & Q3 & Q4);
      [|done..|apply Hs2]. split; auto. by rewrite Est.
  - unfold is_mixed in Emix. apply negb_false_iff in Emix. rewrite !andb_true_iff in Emix.
    destruct Emix as [[[E1 E2] E3] E4]. apply bool_decide_eq_true in E1, E2, E3, E4.
    split; try done; rewrite ?E1, ?E2, ?E3, ?E4; try (intros ? Hin; by apply elem_of_nil in Hin).
    intros _ _. unfold is_mixed. by rewrite E1, E2, E3, E4.
Qed.

(** A transaction whose signatures are accepted is authorised: if verification
    reports no problem, every account whose posting, active or owner authority the
    operations require grants it (through the signatures and the accounts that
    approve by their own authority in turn), every explicit authority is satisfied,
    and every required witness key signed.  In the strict mode a posting or active
    requirement is met by that authority alone, in the other mode a stronger
    authority of the same account will do, but then posting requirements are not
    mixed with others. *)
Theorem verify_authority_sound
    (get_active get_owner get_posting : string → result authority)
    (get_witness_key : string → result Z) (limits : sign_limits) (allow_redundant : bool)
    (active_approvals owner_approvals posting_approvals : gset string) (sigs : gset Z)
    (r : required_authorities_type) :
  (∀ a au, get_active a = Ok au → auth_ok au) → (∀ a au, get_owner a = Ok au → auth_ok au) →
  (∀ a au, get_posting a = Ok au → auth_ok au) → Forall auth_ok (other r) →
  verify_authority_impl get_active get_owner get_posting get_witness_key limits allow_redundant
    active_approvals owner_approvals posting_approvals r sigs = Ok None →
  (∀ id, id ∈ required_posting r →
     posting_granted get_active get_owner get_posting limits posting_approvals sigs id) ∧
  (∀ id, id ∈ required_active r →
     active_granted get_active get_owner limits active_approvals owner_approvals sigs id) ∧
  (∀ id, id ∈ required_owner r →
     owner_granted get_active get_owner active_approvals owner_approvals sigs id) ∧
  (∀ id, id ∈ required_witness r → witness_granted get_witness_key sigs id) ∧
  (∀ auth, auth ∈ other r →
     authorized get_active sigs (active_approvals ∪ owner_approvals) auth) ∧
  (required_posting r ≠ [] → strict limits = false → is_mixed r = false).
Proof.
  intros Ha Ho Hp Hother H.
  destruct (verify_impl_granted _ _ _ _ _ _ _ _ _ _ _ Ha Ho Hp Hother H). by split_and!.
Qed.

Lemma verify_authority_sound_witness :
  active_granted sample_get sample_get sample_limits ∅ ∅ {[ 8 ]} "bob".
Proof.
  assert (∀ a au, sample_get a = Ok au → auth_ok au) as Hget.
  { intros a au [= <-]. destruct (decide _); split; repeat constructor; simpl; lia. }
  apply (verify_authority_sound sample_get sample_get sample_get (λ _, Ok 9) sample_limits false
    ∅ ∅ ∅ {[ 8 ]} (RequiredAuthorities ["bob"%string] [] [] [] []) Hget Hget Hget).
  - constructor.
  - by vm_compute.
  - left.
Defined.
