(* ===== verification/Utf8.v ===== *)
(** * UTF-8

    [src/libraries/fc/src/utf8/core.h] and [checked.h], the validating decoder and the
    encoder behind [fc::is_utf8], [fc::prune_invalid_utf8], [fc::decodeUtf8] and
    [fc::encodeUtf8] of [src/libraries/fc/src/utf8.cpp].  Every text field of an operation
    passes through [is_utf8].  The reference is the table of RFC 3629 ([encodes]). *)

From Stdlib Require Import Ascii.
From S2P Require Import Prelude.

(** ** [core.h] *)

Definition LEAD_SURROGATE_MIN : Z := 55296.
Definition TRAIL_SURROGATE_MAX : Z := 57343.
Definition CODE_POINT_MAX : Z := 1114111.

Definition mask8 (oc : Z) : Z := Z.land 255 oc.
Definition is_trail (oc : Z) : bool := Z.shiftr (mask8 oc) 6 =? 2.
Definition is_surrogate (cp : Z) : bool :=
  (LEAD_SURROGATE_MIN <=? cp) && (cp <=? TRAIL_SURROGATE_MAX).
Definition is_code_point_valid (cp : Z) : bool :=
  (cp <=? CODE_POINT_MAX) && negb (is_surrogate cp).

Definition sequence_length (lead : Z) : Z :=
  let lead := mask8 lead in
  if lead <? 128 then 1
  else if Z.shiftr lead 5 =? 6 then 2
  else if Z.shiftr lead 4 =? 14 then 3
  else if Z.shiftr lead 3 =? 30 then 4
  else 0.

Definition is_overlong_sequence (cp length : Z) : bool :=
  if cp <? 128 then negb (length =? 1)
  else if cp <? 2048 then negb (length =? 2)
  else if cp <? 65536 then negb (length =? 3)
  else false.

Inductive utf_error : Set :=
  UTF8_OK | NOT_ENOUGH_ROOM | INVALID_LEAD | INCOMPLETE_SEQUENCE | OVERLONG_SEQUENCE
| INVALID_CODE_POINT.

#[export] Instance utf_error_eq_dec : EqDecision utf_error.
Proof. solve_decision. Defined.

(** An iterator is the list of the octets from its position to the end. *)
Definition increase_safely (it : list Z) : utf_error + list Z :=
  match tail it with
  | [] => inl NOT_ENOUGH_ROOM
  | oc :: _ => if is_trail oc then inr (tail it) else inl INCOMPLETE_SEQUENCE
  end.

Definition octet (it : list Z) : Z := nth 0 it 0.

(** [UTF8_CPP_INCREASE_AND_RETURN_ON_ERROR], then the rest of the body. *)
Definition increase_then (it : list Z) (k : list Z → utf_error + (list Z * Z))
    : utf_error + (list Z * Z) :=
  match increase_safely it with inl err => inl err | inr it => k it end.

(** The [get_sequence_x] return the iterator at the last octet and the code point. *)
Definition get_sequence_1 (it : list Z) : utf_error + (list Z * Z) :=
  match it with
  | [] => inl NOT_ENOUGH_ROOM
  | oc :: _ => inr (it, mask8 oc)
  end.

Definition get_sequence_2 (it : list Z) : utf_error + (list Z * Z) :=
  match it with
  | [] => inl NOT_ENOUGH_ROOM
  | oc :: _ =>
      let code_point := mask8 oc in
      increase_then it (λ it,
      inr (it, u32 (Z.land (u32 (Z.shiftl code_point 6)) 2047 + Z.land (octet it) 63)))
  end.

Definition get_sequence_3 (it : list Z) : utf_error + (list Z * Z) :=
  match it with
  | [] => inl NOT_ENOUGH_ROOM
  | oc :: _ =>
      let code_point := mask8 oc in
      increase_then it (λ it,
      let code_point :=
        u32 (Z.land (u32 (Z.shiftl code_point 12)) 65535
             + Z.land (Z.shiftl (mask8 (octet it)) 6) 4095) in
      increase_then it (λ it,
      inr (it, u32 (code_point + Z.land (octet it) 63))))
  end.

Definition get_sequence_4 (it : list Z) : utf_error + (list Z * Z) :=
  match it with
  | [] => inl NOT_ENOUGH_ROOM
  | oc :: _ =>
      let code_point := mask8 oc in
      increase_then it (λ it,
      let code_point :=
        u32 (Z.land (u32 (Z.shiftl code_point 18)) 2097151
             + Z.land (Z.shiftl (mask8 (octet it)) 12) 262143) in
      increase_then it (λ it,
      let code_point := u32 (code_point + Z.land (Z.shiftl (mask8 (octet it)) 6) 4095) in
      increase_then it (λ it,
      inr (it, u32 (code_point + Z.land (octet it) 63)))))
  end.

(** The [switch] on the length. *)
Definition get_sequence (length : Z) (it : list Z) : utf_error + (list Z * Z) :=
  if length =? 0 then inl INVALID_LEAD
  else if length =? 1 then get_sequence_1 it
  else if length =? 2 then get_sequence_2 it
  else if length =? 3 then get_sequence_3 it
  else get_sequence_4 it.

(** The error, the iterator and the code point the reference argument ends with. *)
Definition validate_next (it : list Z) (code_point : Z) : utf_error * list Z * Z :=
  let length := sequence_length (octet it) in
  match get_sequence length it with
  | inl err => (err, it, code_point)
  | inr (last, cp) =>
      if is_code_point_valid cp then
        if negb (is_overlong_sequence cp length) then (UTF8_OK, tail last, cp)
        else (OVERLONG_SEQUENCE, it, code_point)
      else (INVALID_CODE_POINT, it, code_point)
  end.

(** A round that goes on moves the iterator, so as many rounds as there are octets do. *)
Fixpoint find_invalid_rounds (fuel : nat) (it : list Z) : list Z :=
  match fuel, it with
  | O, _ | _, [] => it
  | S fuel, _ =>
      match validate_next it 0 with
      | (UTF8_OK, it, _) => find_invalid_rounds fuel it
      | (_, it, _) => it
      end
  end.
Definition find_invalid (it : list Z) : list Z := find_invalid_rounds (length it) it.

Definition is_valid (it : list Z) : bool :=
  match find_invalid it with [] => true | _ => false end.

(** ** [checked.h] *)

Inductive utf8_exception : Set :=
  invalid_code_point (cp : Z) | invalid_utf8 (octet : Z) | not_enough_room.

Definition append (cp : Z) (out : list Z) : utf8_exception + list Z :=
  if negb (is_code_point_valid cp) then inl (invalid_code_point cp)
  else inr (out ++
    if cp <? 128 then [u8 cp]
    else if cp <? 2048 then
      [u8 (Z.lor (Z.shiftr cp 6) 192); u8 (Z.lor (Z.land cp 63) 128)]
    else if cp <? 65536 then
      [u8 (Z.lor (Z.shiftr cp 12) 224); u8 (Z.lor (Z.land (Z.shiftr cp 6) 63) 128);
       u8 (Z.lor (Z.land cp 63) 128)]
    else
      [u8 (Z.lor (Z.shiftr cp 18) 240); u8 (Z.lor (Z.land (Z.shiftr cp 12) 63) 128);
       u8 (Z.lor (Z.land (Z.shiftr cp 6) 63) 128); u8 (Z.lor (Z.land cp 63) 128)]).

Definition next (it : list Z) : utf8_exception + (list Z * Z) :=
  match validate_next it 0 with
  | (UTF8_OK, it, cp) => inr (it, cp)
  | (NOT_ENOUGH_ROOM, _, _) => inl not_enough_room
  | (INVALID_LEAD, it, _) | (INCOMPLETE_SEQUENCE, it, _) | (OVERLONG_SEQUENCE, it, _) =>
      inl (invalid_utf8 (octet it))
  | (INVALID_CODE_POINT, _, cp) => inl (invalid_code_point cp)
  end.

Fixpoint utf32to8 (cps : list Z) (out : list Z) : utf8_exception + list Z :=
  match cps with
  | [] => inr out
  | cp :: cps => match append cp out with inl e => inl e | inr out => utf32to8 cps out end
  end.

Fixpoint utf8to32_rounds (fuel : nat) (it out : list Z) : utf8_exception + list Z :=
  match fuel, it with
  | O, _ | _, [] => inr out
  | S fuel, _ =>
      match next it with
      | inl e => inl e
      | inr (it, cp) => utf8to32_rounds fuel it (out ++ [cp])
      end
  end.
Definition utf8to32 (it out : list Z) : utf8_exception + list Z :=
  utf8to32_rounds (length it) it out.

(** ** [utf8.cpp] *)

Definition octets (s : string) : list Z :=
  (λ c, Z.of_N (N_of_ascii c)) <$> String.list_ascii_of_string s.

Definition is_utf8 (s : string) : bool := is_valid (octets s).

(** The octets from an iterator to a later one. *)
Definition range (start finish : list Z) : list Z :=
  take (length start - length finish) start.

Fixpoint prune_rounds (fuel : nat) (itr result : list Z) : list Z :=
  match fuel, itr with
  | O, _ | _, [] => result
  | S fuel, _ :: start =>
      let itr := find_invalid start in
      prune_rounds fuel itr (result ++ range start itr)
  end.
Definition prune_invalid_utf8 (str : list Z) : list Z :=
  match find_invalid str with
  | [] => str
  | itr => prune_rounds (length itr) itr (range str itr)
  end.

Definition decodeUtf8 (input : list Z) : utf8_exception + list Z := utf8to32 input [].
Definition encodeUtf8 (input : list Z) : utf8_exception + list Z := utf32to8 input [].

(** ** The reference *)

(** The octets of a code point: the table of RFC 3629. *)
Inductive encodes : Z → list Z → Prop :=
| encodes_1 cp : 0 ≤ cp < 128 → encodes cp [cp]
| encodes_2 cp : 128 ≤ cp < 2048 → encodes cp [192 + cp / 64; 128 + cp mod 64]
| encodes_3 cp : 2048 ≤ cp < 65536 → ¬ (55296 ≤ cp ≤ 57343) →
    encodes cp [224 + cp / 4096; 128 + (cp / 64) mod 64; 128 + cp mod 64]
| encodes_4 cp : 65536 ≤ cp ≤ 1114111 →
    encodes cp [240 + cp / 262144; 128 + (cp / 4096) mod 64; 128 + (cp / 64) mod 64;
                128 + cp mod 64].

Inductive encoded : list Z → list Z → Prop :=
| encoded_nil : encoded [] []
| encoded_cons cp seq cps l :
    encodes cp seq → encoded cps l → encoded (cp :: cps) (seq ++ l).

Definition octets_ok (l : list Z) : Prop := Forall (λ oc, 0 ≤ oc < 256) l.

(** ** Octets *)

Lemma octet_forall (P : Z → bool) b :
  forallb P (seqZ 0 256) = true → 0 ≤ b < 256 → P b = true.
Proof.
  intros H Hb. eapply forallb_forall in H; [done|].
  apply list_elem_of_In, elem_of_seqZ. lia.
Qed.

(** Facts of one octet are settled by trying all of them. *)
Ltac by_octets P b :=
  pose proof (octet_forall P b ltac:(vm_compute; reflexivity) ltac:(lia)) as Hoct;
  cbv beta in Hoct; bool_to_prop.

Lemma is_trail_iff b : 0 ≤ b < 256 → is_trail b = true ↔ 128 ≤ b < 192.
Proof.
  intros Hb.
  by_octets (λ b, eqb (is_trail b) ((128 <=? b) && (b <? 192))) b.
  destruct (is_trail b); symmetry in Hoct; split; intros; bool_to_prop; try done; try lia.
Qed.

Definition lead_class (b : Z) : Z :=
  if b <? 128 then 1 else if b <? 192 then 0 else if b <? 224 then 2
  else if b <? 240 then 3 else if b <? 248 then 4 else 0.

Lemma sequence_length_class b : 0 ≤ b < 256 → sequence_length b = lead_class b.
Proof. intros Hb. by_octets (λ b, sequence_length b =? lead_class b) b. lia. Qed.

Lemma mask8_id b : 0 ≤ b < 256 → mask8 b = b.
Proof. intros Hb. by_octets (λ b, mask8 b =? b) b. lia. Qed.
Lemma trail_bits b : 128 ≤ b < 192 → Z.land b 63 = b - 128.
Proof.
  intros Hb. by_octets (λ b, (b <? 128) || (192 <=? b) || (Z.land b 63 =? b - 128)) b. lia.
Qed.
Lemma trail_bits_6 b : 128 ≤ b < 192 → Z.land (Z.shiftl b 6) 4095 = (b - 128) * 64.
Proof.
  intros Hb. by_octets (λ b, (b <? 128) || (192 <=? b) || (Z.land (Z.shiftl b 6) 4095 =? (b - 128) * 64)) b. lia.
Qed.
Lemma trail_bits_12 b : 128 ≤ b < 192 → Z.land (Z.shiftl b 12) 262143 = (b - 128) * 4096.
Proof.
  intros Hb. by_octets (λ b, (b <? 128) || (192 <=? b) || (Z.land (Z.shiftl b 12) 262143 =? (b - 128) * 4096)) b. lia.
Qed.
Lemma lead_bits_2 b : 192 ≤ b < 224 → Z.land (u32 (Z.shiftl b 6)) 2047 = (b - 192) * 64.
Proof.
  intros Hb. by_octets (λ b, (b <? 192) || (224 <=? b) || (Z.land (u32 (Z.shiftl b 6)) 2047 =? (b - 192) * 64)) b. lia.
Qed.
Lemma lead_bits_3 b : 224 ≤ b < 240 → Z.land (u32 (Z.shiftl b 12)) 65535 = (b - 224) * 4096.
Proof.
  intros Hb. by_octets (λ b, (b <? 224) || (240 <=? b) || (Z.land (u32 (Z.shiftl b 12)) 65535 =? (b - 224) * 4096)) b. lia.
Qed.
Lemma lead_bits_4 b : 240 ≤ b < 248 → Z.land (u32 (Z.shiftl b 18)) 2097151 = (b - 240) * 262144.
Proof.
  intros Hb. by_octets (λ b, (b <? 240) || (248 <=? b) || (Z.land (u32 (Z.shiftl b 18)) 2097151 =? (b - 240) * 262144)) b. lia.
Qed.

(** ** One sequence *)

Definition in_lead2 (b : Z) : Prop := 192 ≤ b < 224.
Definition in_lead3 (b : Z) : Prop := 224 ≤ b < 240.
Definition in_lead4 (b : Z) : Prop := 240 ≤ b < 248.
Definition in_trail (b : Z) : Prop := 128 ≤ b < 192.

Lemma increase_then_trail b0 b rest k :
  in_trail b → increase_then (b0 :: b :: rest) k = k (b :: rest).
Proof.
  intros Hb. unfold increase_then, increase_safely. simpl.
  by rewrite (proj2 (is_trail_iff b ltac:(unfold in_trail in *; lia)) Hb).
Qed.

Lemma increase_then_inr b0 it k r :
  octets_ok it → increase_then (b0 :: it) k = inr r →
  ∃ b rest, it = b :: rest ∧ in_trail b ∧ octets_ok (b :: rest) ∧ k (b :: rest) = inr r.
Proof.
  intros Hok H. unfold increase_then, increase_safely in H. simpl in H.
  destruct it as [|b rest]; [done|].
  destruct (is_trail b) eqn:Hb; [|done].
  exists b, rest. split_and!; [done| |done|done].
  apply Forall_cons in Hok as [??]. by apply is_trail_iff.
Qed.

Ltac decode_step :=
  repeat (rewrite increase_then_trail by done; cbn [octet nth]);
  rewrite ?mask8_id by (unfold in_lead2, in_lead3, in_lead4, in_trail in *; lia);
  rewrite ?trail_bits, ?trail_bits_6, ?trail_bits_12, ?lead_bits_2, ?lead_bits_3, ?lead_bits_4
    by (unfold in_lead2, in_lead3, in_lead4, in_trail in *; lia);
  unfold in_lead2, in_lead3, in_lead4, in_trail in *;
  repeat match goal with
  | |- context [u32 ?x] =>
      lazymatch x with
      | context [u32 _] => fail
      | _ => rewrite (u32_id x) by (unfold u32_max; lia)
      end
  end.

Lemma get_sequence_2_run b0 b1 rest :
  in_lead2 b0 → in_trail b1 →
  get_sequence_2 (b0 :: b1 :: rest) = inr (b1 :: rest, (b0 - 192) * 64 + (b1 - 128)).
Proof. intros H0 H1. unfold get_sequence_2. by decode_step. Qed.

Lemma get_sequence_3_run b0 b1 b2 rest :
  in_lead3 b0 → in_trail b1 → in_trail b2 →
  get_sequence_3 (b0 :: b1 :: b2 :: rest)
  = inr (b2 :: rest, (b0 - 224) * 4096 + (b1 - 128) * 64 + (b2 - 128)).
Proof. intros H0 H1 H2. unfold get_sequence_3. by decode_step. Qed.

Lemma get_sequence_4_run b0 b1 b2 b3 rest :
  in_lead4 b0 → in_trail b1 → in_trail b2 → in_trail b3 →
  get_sequence_4 (b0 :: b1 :: b2 :: b3 :: rest)
  = inr (b3 :: rest,
         (b0 - 240) * 262144 + (b1 - 128) * 4096 + (b2 - 128) * 64 + (b3 - 128)).
Proof. intros H0 H1 H2 H3. unfold get_sequence_4. by decode_step. Qed.

(** The sequences a decoder can read, by the class of their lead. *)
Inductive reads : Z → list Z → list Z → Z → Prop :=
| reads_1 b0 rest : 0 ≤ b0 < 128 → reads 1 (b0 :: rest) (b0 :: rest) b0
| reads_2 b0 b1 rest : in_lead2 b0 → in_trail b1 →
    reads 2 (b0 :: b1 :: rest) (b1 :: rest) ((b0 - 192) * 64 + (b1 - 128))
| reads_3 b0 b1 b2 rest : in_lead3 b0 → in_trail b1 → in_trail b2 →
    reads 3 (b0 :: b1 :: b2 :: rest) (b2 :: rest)
      ((b0 - 224) * 4096 + (b1 - 128) * 64 + (b2 - 128))
| reads_4 b0 b1 b2 b3 rest : in_lead4 b0 → in_trail b1 → in_trail b2 → in_trail b3 →
    reads 4 (b0 :: b1 :: b2 :: b3 :: rest) (b3 :: rest)
      ((b0 - 240) * 262144 + (b1 - 128) * 4096 + (b2 - 128) * 64 + (b3 - 128)).

Lemma get_sequence_reads it last cp :
  octets_ok it →
  get_sequence (sequence_length (octet it)) it = inr (last, cp) →
  reads (sequence_length (octet it)) it last cp.
Proof.
  intros Hok. destruct it as [|b0 it]; [done|].
  apply Forall_cons in Hok as [Hb Hok]. cbn [octet nth].
  rewrite sequence_length_class by lia. unfold lead_class, get_sequence.
  destruct (Z.ltb_spec b0 128).
  { cbn. rewrite mask8_id by lia. intros [= <- <-]. constructor. lia. }
  destruct (Z.ltb_spec b0 192); [done|].
  destruct (Z.ltb_spec b0 224); cbn -[get_sequence_2 get_sequence_3 get_sequence_4].
  { intros Hs. pose proof Hs as Hi. apply increase_then_inr in Hi as (b1&rest&->&?&?&_); [|done].
    rewrite get_sequence_2_run in Hs by done. simplify_eq. by constructor. }
  destruct (Z.ltb_spec b0 240); cbn -[get_sequence_2 get_sequence_3 get_sequence_4].
  { intros Hs. pose proof Hs as Hi. apply increase_then_inr in Hi as (b1&rest&->&?&?&Hi); [|done].
    apply increase_then_inr in Hi as (b2&rest2&->&?&?&_); [|by eapply Forall_inv_tail].
    rewrite get_sequence_3_run in Hs by done. simplify_eq. by constructor. }
  destruct (Z.ltb_spec b0 248); cbn -[get_sequence_2 get_sequence_3 get_sequence_4]; [|done].
  intros Hs. pose proof Hs as Hi. apply increase_then_inr in Hi as (b1&rest&->&?&?&Hi); [|done].
  apply increase_then_inr in Hi as (b2&rest2&->&?&?&Hi); [|by eapply Forall_inv_tail].
  apply increase_then_inr in Hi as (b3&rest3&->&?&?&_); [|by eapply Forall_inv_tail].
  rewrite get_sequence_4_run in Hs by done. simplify_eq. by constructor.
Qed.

Lemma reads_get_sequence n it last cp :
  reads n it last cp →
  sequence_length (octet it) = n ∧ get_sequence n it = inr (last, cp).
Proof.
  intros []; cbn [octet nth];
    (split; [rewrite sequence_length_class by (unfold in_lead2, in_lead3, in_lead4 in *; lia);
             unfold lead_class, in_lead2, in_lead3, in_lead4 in *;
             repeat case_match; bool_to_prop; lia|]); unfold get_sequence; cbn [Z.eqb Pos.eqb].
  - cbn. by rewrite mask8_id by lia.
  - by rewrite get_sequence_2_run.
  - by rewrite get_sequence_3_run.
  - by rewrite get_sequence_4_run.
Qed.

(** Six-bit digits. *)
Lemma div64 q r : 0 ≤ r < 64 → (q * 64 + r) / 64 = q.
Proof. intros. rewrite Z.div_add_l, Z.div_small by lia. lia. Qed.
Lemma mod64 q r : 0 ≤ r < 64 → (q * 64 + r) mod 64 = r.
Proof. intros. rewrite Z.add_comm, Z.mod_add, Z.mod_small by lia. lia. Qed.
Lemma div4096 x : x / 4096 = x / 64 / 64.
Proof. by rewrite Z.div_div by lia. Qed.
Lemma div262144 x : x / 262144 = x / 64 / 64 / 64.
Proof. by rewrite !Z.div_div by lia. Qed.

Lemma digits3 a b c :
  0 ≤ b < 64 → 0 ≤ c < 64 → ∀ cp, cp = a * 4096 + b * 64 + c →
  cp / 4096 = a ∧ (cp / 64) mod 64 = b ∧ cp mod 64 = c.
Proof.
  intros Hb Hc cp ->. replace (a * 4096 + b * 64 + c) with ((a * 64 + b) * 64 + c) by lia.
  by rewrite div4096, !div64, !mod64 by done.
Qed.

Lemma digits4 a b c d :
  0 ≤ b < 64 → 0 ≤ c < 64 → 0 ≤ d < 64 →
  ∀ cp, cp = a * 262144 + b * 4096 + c * 64 + d →
  cp / 262144 = a ∧ (cp / 4096) mod 64 = b ∧ (cp / 64) mod 64 = c ∧ cp mod 64 = d.
Proof.
  intros Hb Hc Hd cp ->.
  replace (a * 262144 + b * 4096 + c * 64 + d) with (((a * 64 + b) * 64 + c) * 64 + d) by lia.
  by rewrite div262144, div4096, !div64, !mod64 by done.
Qed.

Ltac seq_lia :=
  unfold is_code_point_valid, is_surrogate, LEAD_SURROGATE_MIN,
    TRAIL_SURROGATE_MAX, CODE_POINT_MAX, in_lead2, in_lead3, in_lead4, in_trail in *;
  bool_to_prop; lia.

Lemma not_overlong cp n :
  is_overlong_sequence cp n = false →
  (n = 2 → 128 ≤ cp) ∧ (n = 3 → 2048 ≤ cp) ∧ (n = 4 → 65536 ≤ cp).
Proof.
  unfold is_overlong_sequence. destruct (Z.ltb_spec cp 128), (Z.ltb_spec cp 2048),
    (Z.ltb_spec cp 65536); intros; bool_to_prop; lia.
Qed.

Lemma code_point_valid cp :
  is_code_point_valid cp = true ↔ cp ≤ 1114111 ∧ ¬ (55296 ≤ cp ≤ 57343).
Proof.
  unfold is_code_point_valid, is_surrogate, CODE_POINT_MAX, LEAD_SURROGATE_MIN,
    TRAIL_SURROGATE_MAX.
  rewrite andb_true_iff, negb_true_iff, andb_false_iff, Z.leb_le, !Z.leb_gt. lia.
Qed.

Lemma encodes_eq cp l l' : encodes cp l → l = l' → encodes cp l'.
Proof. by intros ? <-. Qed.

(** Reading a sequence and checking it is decoding the table. *)
Lemma reads_encodes n it last cp :
  reads n it last cp → is_code_point_valid cp = true → is_overlong_sequence cp n = false →
  ∃ seq, encodes cp seq ∧ it = seq ++ tail last.
Proof.
  intros Hr Hv%code_point_valid Ho%not_overlong.
  destruct Hr as [b0 rest|b0 b1 rest|b0 b1 b2 rest|b0 b1 b2 b3 rest];
    unfold in_lead2, in_lead3, in_lead4, in_trail in *.
  - exists [b0]. split; [by constructor|done].
  - pose proof (div64 (b0 - 192) (b1 - 128) ltac:(lia)) as E1.
    pose proof (mod64 (b0 - 192) (b1 - 128) ltac:(lia)) as E2.
    exists [b0; b1]. split; [|done].
    eapply encodes_eq; [apply encodes_2; lia|]. rewrite E1, E2. repeat f_equal; lia.
  - destruct (digits3 (b0 - 224) (b1 - 128) (b2 - 128) ltac:(lia) ltac:(lia) _ eq_refl)
      as (E1&E2&E3).
    exists [b0; b1; b2]. split; [|done].
    eapply encodes_eq; [apply encodes_3; lia|]. rewrite E1, E2, E3. repeat f_equal; lia.
  - destruct (digits4 (b0 - 240) (b1 - 128) (b2 - 128) (b3 - 128) ltac:(lia) ltac:(lia)
      ltac:(lia) _ eq_refl) as (E1&E2&E3&E4).
    exists [b0; b1; b2; b3]. split; [|done].
    eapply encodes_eq; [apply encodes_4; lia|]. rewrite E1, E2, E3, E4. repeat f_equal; lia.
Qed.

Lemma six_bits x : 0 ≤ x mod 64 < 64.
Proof. apply Z.mod_pos_bound. lia. Qed.

Lemma split64 x : x = x / 64 * 64 + x mod 64.
Proof. pose proof (Z.div_mod x 64 ltac:(lia)). lia. Qed.

Lemma reads_cp n it last cp cp' : reads n it last cp → cp = cp' → reads n it last cp'.
Proof. by intros ? <-. Qed.

Lemma encodes_reads cp seq rest :
  encodes cp seq →
  ∃ n last, reads n (seq ++ rest) last cp ∧ tail last = rest ∧
    is_code_point_valid cp = true ∧ is_overlong_sequence cp n = false.
Proof.
  intros H. pose proof (six_bits cp). pose proof (six_bits (cp / 64)).
  pose proof (six_bits (cp / 4096)).
  pose proof (split64 cp). pose proof (split64 (cp / 64)) as S1.
  pose proof (split64 (cp / 4096)) as S2.
  rewrite <- div4096 in S1. rewrite div4096, <- div262144, <- div4096 in S2.
  destruct H as [cp Hcp|cp Hcp|cp Hcp Hs|cp Hcp].
  - eexists 1, _. split_and!; [by constructor|done| |];
      unfold is_overlong_sequence; repeat case_match; seq_lia.
  - exists 2, (128 + cp mod 64 :: rest). split_and!; [|done|seq_lia|].
    + eapply reads_cp; [constructor; seq_lia|lia].
    + unfold is_overlong_sequence; repeat case_match; seq_lia.
  - exists 3, (128 + cp mod 64 :: rest). split_and!; [|done|seq_lia|].
    + eapply reads_cp; [constructor; seq_lia|lia].
    + unfold is_overlong_sequence; repeat case_match; seq_lia.
  - exists 4, (128 + cp mod 64 :: rest). split_and!; [|done|seq_lia|].
    + eapply reads_cp; [constructor; seq_lia|lia].
    + unfold is_overlong_sequence; repeat case_match; seq_lia.
Qed.

(** ** The decoder *)

Lemma validate_next_encodes cp seq rest c :
  encodes cp seq → validate_next (seq ++ rest) c = (UTF8_OK, rest, cp).
Proof.
  intros (n & last & Hr & Ht & Hv & Ho)%(encodes_reads _ _ rest).
  apply reads_get_sequence in Hr as [Hn Hg].
  unfold validate_next. by rewrite Hn, Hg, Hv, Ho, Ht.
Qed.

Lemma validate_next_ok it c rest cp :
  octets_ok it → validate_next it c = (UTF8_OK, rest, cp) →
  ∃ seq, encodes cp seq ∧ it = seq ++ rest.
Proof.
  intros Hok. unfold validate_next.
  destruct (get_sequence _ it) as [err|[last cp']] eqn:Hg.
  { intros [= -> _ _]. unfold get_sequence, get_sequence_1, get_sequence_2, get_sequence_3,
      get_sequence_4, increase_then, increase_safely in Hg.
    repeat case_match; by simplify_eq. }
  destruct (is_code_point_valid cp') eqn:Hv; [|done].
  destruct (is_overlong_sequence _ _) eqn:Ho; [done|]. intros [= <- <-].
  apply get_sequence_reads in Hg; [|done]. by eapply reads_encodes.
Qed.

Lemma encodes_length cp seq : encodes cp seq → (1 ≤ length seq)%nat.
Proof. intros []; simpl; lia. Qed.

Lemma validate_next_error it c err rest cp :
  validate_next it c = (err, rest, cp) → err ≠ UTF8_OK → rest = it ∧ cp = c.
Proof. unfold validate_next. intros H Hn. repeat case_match; simplify_eq; done. Qed.

Lemma octets_ok_app l k : octets_ok (l ++ k) ↔ octets_ok l ∧ octets_ok k.
Proof. apply Forall_app. Qed.

(** The stopping point: a decoded prefix, and nothing to decode after it. *)
Lemma find_invalid_rounds_spec fuel it :
  octets_ok it → (length it ≤ fuel)%nat →
  ∃ cps seq, encoded cps seq ∧ it = seq ++ find_invalid_rounds fuel it ∧
    (find_invalid_rounds fuel it = [] ∨
     (validate_next (find_invalid_rounds fuel it) 0).1.1 ≠ UTF8_OK).
Proof.
  revert it. induction fuel as [|fuel IH]; intros it Hok Hf.
  { destruct it; [|simpl in Hf; lia]. exists [], []. split_and!; [constructor|done|by left]. }
  destruct it as [|b it]; [exists [], []; split_and!; [constructor|done|by left]|].
  cbn [find_invalid_rounds].
  destruct (validate_next (b :: it) 0) as [[err rest] cp] eqn:Hv.
  destruct (decide (err = UTF8_OK)) as [->|Hne].
  - destruct (validate_next_ok _ _ _ _ Hok Hv) as (seq & He & Hl).
    rewrite Hl in Hok. apply octets_ok_app in Hok as [_ Hok].
    pose proof (encodes_length _ _ He).
    destruct (IH rest Hok) as (cps & l & Hc & Hr & Hd).
    { apply (f_equal length) in Hl. rewrite length_app in Hl. simpl in *. lia. }
    exists (cp :: cps), (seq ++ l). split_and!; [by constructor| |done].
    rewrite <- app_assoc, <- Hr. done.
  - destruct (validate_next_error _ _ _ _ _ Hv Hne) as [-> ->].
    assert (find_invalid_rounds (S fuel) (b :: it) = b :: it) as E.
    { cbn [find_invalid_rounds]. rewrite Hv. by destruct err. }
    cbn [find_invalid_rounds] in E. rewrite Hv in E. rewrite E.
    exists [], []. split_and!; [apply encoded_nil|done|right; by rewrite Hv].
Qed.

Lemma find_invalid_encoded cps l fuel :
  encoded cps l → (length l ≤ fuel)%nat → find_invalid_rounds fuel l = [].
Proof.
  intros H. revert fuel. induction H as [|cp seq cps l He Hl IH]; intros fuel Hf.
  { by destruct fuel. }
  pose proof (encodes_length _ _ He). rewrite length_app in Hf.
  destruct fuel as [|fuel]; [lia|]. cbn [find_invalid_rounds].
  rewrite (validate_next_encodes cp seq l 0 He).
  destruct (seq ++ l) eqn:E; [apply app_nil in E as [-> ->]; simpl in *; lia|].
  apply IH. lia.
Qed.

Lemma is_valid_iff it : octets_ok it → is_valid it = true ↔ ∃ cps, encoded cps it.
Proof.
  intros Hok. unfold is_valid, find_invalid. split.
  - intros H. destruct (find_invalid_rounds_spec (length it) it Hok) as (cps&seq&Hc&Hs&_); [lia|].
    destruct (find_invalid_rounds _ _); [|done]. rewrite app_nil_r in Hs. subst. by exists cps.
  - intros [cps H]. by rewrite (find_invalid_encoded cps it _ H).
Qed.

Lemma octets_octets_ok s : octets_ok (octets s).
Proof.
  unfold octets, octets_ok. apply Forall_fmap, Forall_forall. intros c _. simpl.
  pose proof (N_ascii_bounded c). lia.
Qed.

(** C23. [fc::is_utf8] accepts a string exactly when its octets are the RFC 3629 encodings
    of a sequence of Unicode scalar values, one after the other: no overlong form, no
    surrogate, nothing beyond U+10FFFF, no truncated sequence. *)
Theorem is_utf8_exact s : is_utf8 s = true ↔ ∃ cps, encoded cps (octets s).
Proof. apply is_valid_iff, octets_octets_ok. Qed.

(** ** The encoder *)

Definition cp_ok (cp : Z) : Prop := 0 ≤ cp ≤ u32_max.

Lemma trail_octet x : u8 (Z.lor (Z.land x 63) 128) = 128 + x mod 64.
Proof.
  rewrite (Z.land_ones x 6 ltac:(lia) : Z.land x 63 = x mod 64).
  pose proof (six_bits x) as Hb. set (b := x mod 64) in *.
  by_octets (λ b, (64 <=? b) || (u8 (Z.lor b 128) =? 128 + b)) b. lia.
Qed.

Lemma lead_octet_2 a : 0 ≤ a < 32 → u8 (Z.lor a 192) = 192 + a.
Proof. intros. by_octets (λ b, (32 <=? b) || (u8 (Z.lor b 192) =? 192 + b)) a. lia. Qed.
Lemma lead_octet_3 a : 0 ≤ a < 16 → u8 (Z.lor a 224) = 224 + a.
Proof. intros. by_octets (λ b, (16 <=? b) || (u8 (Z.lor b 224) =? 224 + b)) a. lia. Qed.
Lemma lead_octet_4 a : 0 ≤ a < 8 → u8 (Z.lor a 240) = 240 + a.
Proof. intros. by_octets (λ b, (8 <=? b) || (u8 (Z.lor b 240) =? 240 + b)) a. lia. Qed.

Lemma append_encodes cp out :
  cp_ok cp → is_code_point_valid cp = true → ∃ seq, encodes cp seq ∧ append cp out = inr (out ++ seq).
Proof.
  unfold cp_ok. intros Hcp Hv. unfold append. rewrite Hv. cbn [negb].
  apply code_point_valid in Hv.
  rewrite !trail_octet, !Z.shiftr_div_pow2 by lia.
  change (2 ^ 6) with 64. change (2 ^ 12) with 4096. change (2 ^ 18) with 262144.
  destruct (Z.ltb_spec cp 128).
  { exists [cp]. rewrite u8_id by (unfold u8_max; lia). split; [apply encodes_1; lia|done]. }
  destruct (Z.ltb_spec cp 2048).
  { eexists. split; [apply encodes_2; lia|]. rewrite lead_octet_2; [done|].
    split; [apply Z.div_pos; lia|apply Z.div_lt_upper_bound; lia]. }
  destruct (Z.ltb_spec cp 65536).
  { eexists. split; [apply encodes_3; lia|]. rewrite lead_octet_3; [done|].
    split; [apply Z.div_pos; lia|apply Z.div_lt_upper_bound; lia]. }
  eexists. split; [apply encodes_4; lia|]. rewrite lead_octet_4; [done|].
  split; [apply Z.div_pos; lia|apply Z.div_lt_upper_bound; lia].
Qed.

Lemma encodes_valid cp seq : encodes cp seq → is_code_point_valid cp = true.
Proof. rewrite code_point_valid. intros []; lia. Qed.

Lemma encodes_fun cp seq seq' : encodes cp seq → encodes cp seq' → seq = seq'.
Proof. intros [] He; inversion He; subst; done || lia. Qed.

Lemma encodes_octets_ok cp seq : encodes cp seq → octets_ok seq.
Proof.
  intros H. pose proof (six_bits cp). pose proof (six_bits (cp / 64)).
  pose proof (six_bits (cp / 4096)).
  destruct H; repeat constructor; try lia;
    first [assert (cp / 64 < 32) by (apply Z.div_lt_upper_bound; lia);
           assert (0 ≤ cp / 64) by (apply Z.div_pos; lia); lia
          |assert (cp / 4096 < 16) by (apply Z.div_lt_upper_bound; lia);
           assert (0 ≤ cp / 4096) by (apply Z.div_pos; lia); lia
          |assert (cp / 262144 < 8) by (apply Z.div_lt_upper_bound; lia);
           assert (0 ≤ cp / 262144) by (apply Z.div_pos; lia); lia].
Qed.

Lemma utf32to8_iff cps out l :
  Forall cp_ok cps → utf32to8 cps out = inr l ↔ ∃ m, encoded cps m ∧ l = out ++ m.
Proof.
  intros Hok. revert out l. induction Hok as [|cp cps Hcp _ IH]; intros out l; cbn [utf32to8].
  - split; [intros [= <-]; exists []; split; [constructor|by rewrite app_nil_r]|].
    intros (m & Hm & ->). inversion Hm; subst. by rewrite app_nil_r.
  - destruct (is_code_point_valid cp) eqn:Hv.
    + destruct (append_encodes cp out Hcp Hv) as (seq & He & ->). rewrite IH. split.
      * intros (m & Hm & ->). exists (seq ++ m). split; [by constructor|by rewrite app_assoc].
      * intros (m & Hm & ->). inversion Hm as [|? seq' ? m' He' Hm']; subst.
        rewrite (encodes_fun _ _ _ He' He). exists m'. by rewrite app_assoc.
    + unfold append. rewrite Hv. split; [done|]. intros (m & Hm & _).
      inversion Hm as [|???? He]; subst. apply encodes_valid in He. congruence.
Qed.

Lemma encoded_nil_inv m : encoded m [] → m = [].
Proof.
  intros Hm. inversion Hm as [|cp seq cps l He Hl E E']; [done|].
  apply app_nil in E' as [-> _]. apply encodes_length in He. simpl in He. lia.
Qed.

Lemma utf8to32_iff fuel l out cps :
  octets_ok l → (length l ≤ fuel)%nat →
  utf8to32_rounds fuel l out = inr cps ↔ ∃ m, encoded m l ∧ cps = out ++ m.
Proof.
  revert l out cps. induction fuel as [|fuel IH]; intros [|b l] out cps Hok Hf;
    [..|simpl in Hf; lia| |]; [cbn|cbn|].
  1, 2: split; [intros [= <-]; exists []; split; [constructor|by rewrite app_nil_r]|];
    intros (m & ->%encoded_nil_inv & ->); by rewrite app_nil_r.
  cbn [utf8to32_rounds]. unfold next.
  destruct (validate_next (b :: l) 0) as [[err rest] cp] eqn:Hv.
  destruct (decide (err = UTF8_OK)) as [->|Hne].
  - destruct (validate_next_ok _ _ _ _ Hok Hv) as (seq & He & Hl).
    rewrite Hl in Hok, Hf |- *. apply octets_ok_app in Hok as [_ Hok].
    pose proof (encodes_length _ _ He). rewrite length_app in Hf. rewrite IH by (done || lia).
    split.
    + intros (m & Hm & ->). exists (cp :: m). split; [by constructor|by rewrite <- app_assoc].
    + intros (m & Hm & ->). remember (seq ++ rest) as w eqn:Ew in Hm.
      destruct Hm as [|cp' seq' m' l' He' Hm'].
      { symmetry in Ew. apply app_nil in Ew as [-> _]. simpl in *. lia. }
      pose proof (validate_next_encodes _ _ l' 0 He') as V. rewrite Ew, <- Hl, Hv in V.
      injection V as -> ->. exists m'. by rewrite <- app_assoc.
  - transitivity False; [by destruct err|]. split; [done|]. intros (m & Hm & _).
    remember (b :: l) as w eqn:Ew in Hm. destruct Hm as [|cp' seq' m' l' He' Hm']; [done|].
    pose proof (validate_next_encodes _ _ l' 0 He') as V. rewrite Ew, Hv in V. congruence.
Qed.

(** The encoder and the decoder are exact and inverse to each other:
    [fc::encodeUtf8] turns code points into octets, and [fc::decodeUtf8] octets into code
    points, precisely when they are related by the RFC 3629 table. *)
Theorem utf8_codec_exact cps l :
  Forall cp_ok cps → octets_ok l →
  (encodeUtf8 cps = inr l ↔ encoded cps l) ∧ (decodeUtf8 l = inr cps ↔ encoded cps l).
Proof.
  intros Hc Hl. unfold encodeUtf8, decodeUtf8, utf8to32.
  rewrite utf32to8_iff, utf8to32_iff by (done || lia). cbn [app].
  split; (split; [by intros (m & ? & ->)|by eauto]).
Qed.

Lemma utf8_codec_exact_witness :
  encodeUtf8 [72; 233; 8364; 128512] = inr [72; 195; 169; 226; 130; 172; 240; 159; 152; 128] ∧
  encoded [72; 233; 8364; 128512] [72; 195; 169; 226; 130; 172; 240; 159; 152; 128].
Proof.
  split; [by vm_compute|].
  apply (utf8_codec_exact [72; 233; 8364; 128512]
           [72; 195; 169; 226; 130; 172; 240; 159; 152; 128]).
  - repeat constructor; unfold u32_max; lia.
  - repeat constructor; lia.
  - by vm_compute.
Defined.

(** ** Pruning *)

Lemma range_app l k : range (l ++ k) k = l.
Proof. unfold range. rewrite length_app, Nat.add_sub. apply take_app_length. Qed.

Lemma encoded_app cps l cps' l' :
  encoded cps l → encoded cps' l' → encoded (cps ++ cps') (l ++ l').
Proof.
  induction 1 as [|cp seq cps l He Hl IH]; intros H'; [done|].
  rewrite <- app_assoc. cbn [app]. constructor; auto.
Qed.

(** No encoding starts at the head of the octets. *)
Definition undecodable (l : list Z) : Prop := ∀ cp seq rest, encodes cp seq → l ≠ seq ++ rest.

(** What pruning should keep: whole encodings from left to right, an octet being dropped
    only where no encoding starts. *)
Inductive pruned : list Z → list Z → Prop :=
| pruned_nil : pruned [] []
| pruned_keep cp seq l k : encodes cp seq → pruned l k → pruned (seq ++ l) (seq ++ k)
| pruned_drop b l k : undecodable (b :: l) → pruned l k → pruned (b :: l) k.

Lemma pruned_keep_all cps seq l k :
  encoded cps seq → pruned l k → pruned (seq ++ l) (seq ++ k).
Proof.
  induction 1 as [|cp s cps m He Hm IH]; intros H; [done|].
  rewrite <- !app_assoc. by apply (pruned_keep cp); auto.
Qed.

Lemma pruned_encoded l k : pruned l k → ∃ cps, encoded cps k.
Proof.
  induction 1 as [|cp seq l k He _ [cps IH]|b l k _ _ IH]; [exists []; constructor| |done].
  exists (cp :: cps). by constructor.
Qed.

Lemma pruned_octets_ok l k : octets_ok l → pruned l k → octets_ok k.
Proof.
  intros Hok H. induction H as [|cp seq l k He _ IH|b l k _ _ IH]; [done| |].
  - apply octets_ok_app in Hok as [Hs Hl]. apply octets_ok_app. auto.
  - apply Forall_cons in Hok as [_ Hl]. auto.
Qed.

Lemma find_invalid_split l :
  octets_ok l → ∃ cps seq, encoded cps seq ∧ l = seq ++ find_invalid l ∧
    (find_invalid l = [] ∨ undecodable (find_invalid l)).
Proof.
  intros Hok.
  destruct (find_invalid_rounds_spec (length l) l Hok) as (cps & seq & He & Hs & Hd); [lia|].
  exists cps, seq. split_and!; [done..|]. destruct Hd as [Hd|Hd]; [by left|right].
  intros cp sq rest Hc E. unfold find_invalid in E. rewrite E in Hd.
  by rewrite (validate_next_encodes _ _ _ _ Hc) in Hd.
Qed.

Lemma prune_rounds_spec fuel itr result :
  octets_ok itr → (length itr ≤ fuel)%nat → itr = [] ∨ undecodable itr →
  ∃ k, prune_rounds fuel itr result = result ++ k ∧ pruned itr k.
Proof.
  revert itr result. induction fuel as [|fuel IH]; intros [|b start] result Hok Hf Hu;
    [exists []; (split; [by rewrite app_nil_r|constructor])|simpl in Hf; lia
    |exists []; (split; [by rewrite app_nil_r|constructor])|].
  apply Forall_cons in Hok as [_ Hok]. cbn [prune_rounds].
  destruct Hu as [?|Hu]; [done|].
  destruct (find_invalid_split start Hok) as (cps & seq & He & Hs & Hd).
  remember (find_invalid start) as rest. subst start. rewrite range_app.
  apply octets_ok_app in Hok as [_ Hok].
  destruct (IH rest (result ++ seq) Hok) as (k & -> & Hk); [|done|].
  { simpl in Hf. rewrite length_app in Hf. lia. }
  exists (seq ++ k). split; [by rewrite app_assoc|].
  apply pruned_drop; [done|]. by eapply pruned_keep_all.
Qed.

(** [fc::prune_invalid_utf8] returns valid UTF-8, keeps every encoding it meets from
    left to right and drops an octet only where no encoding starts. *)
Theorem prune_invalid_utf8_exact str :
  octets_ok str →
  pruned str (prune_invalid_utf8 str) ∧ is_valid (prune_invalid_utf8 str) = true.
Proof.
  intros Hok. assert (pruned str (prune_invalid_utf8 str)) as Hp.
  { unfold prune_invalid_utf8. destruct (find_invalid_split str Hok) as (cps & seq & He & Hs & Hd).
    destruct (find_invalid str) as [|b itr] eqn:E.
    - rewrite app_nil_r in Hs. subst str.
      pose proof (pruned_keep_all _ _ [] [] He pruned_nil) as H. by rewrite !app_nil_r in H.
    - rewrite Hs at 1 2. rewrite range_app.
      destruct (prune_rounds_spec (length (b :: itr)) (b :: itr) seq) as (k & -> & Hk);
        [by rewrite Hs in Hok; apply octets_ok_app in Hok as [_ ?]|done..|].
      by eapply pruned_keep_all. }
  split; [done|]. apply is_valid_iff; [by eapply pruned_octets_ok|by eapply pruned_encoded].
Qed.

Lemma prune_invalid_utf8_exact_witness :
  prune_invalid_utf8 [72; 255; 195; 105; 226; 130; 172] = [72; 105; 226; 130; 172] ∧
  is_valid (prune_invalid_utf8 [72; 255; 195; 105; 226; 130; 172]) = true.
Proof.
  split; [by vm_compute|].
  apply (prune_invalid_utf8_exact [72; 255; 195; 105; 226; 130; 172]).
  repeat constructor; lia.
Defined.

(** The code point in the exception of [next] is 0 whatever the octets were: the reference
    argument of [validate_next] is written on success only. *)
Lemma next_reports_zero it cp : next it = inl (invalid_code_point cp) → cp = 0.
Proof.
  unfold next. destruct (validate_next it 0) as [[err rest] c] eqn:Hv.
  destruct err; intros [=]. subst c.
  by destruct (validate_next_error _ _ _ _ _ Hv).
Qed.
