(* ===== verification/Raw.v ===== *)
(** * Binary serialisation

    [src/libraries/fc/include/fc/io/raw.hpp] and [fc/container/flat.hpp]: [fc::raw::pack]
    and [fc::raw::unpack] for integers, variable-length integers, strings, optional values,
    pairs, vectors, ordered sets and maps, tagged unions and reflected structures.  A [codec]
    is a pair of the two functions together with the values of the C++ type, and the class
    [Roundtrip] is the law that clients of serialisation rely on; its instances follow the
    structure of the types, so that the law of a structure is found by instance search.

    The recursion limit [MAX_RECURSION_DEPTH] is not modelled: the depth is reset to 0 by
    every reflected structure and none of the types nests twenty containers. *)

From Stdlib Require Import Ascii.
From S2P Require Import Prelude AssetSymbol Utf8.

Definition MAX_ARRAY_ALLOC_SIZE : Z := 1024 * 1024 * 16.

(** [wf] says which values the C++ type can hold and [unpack] does not refuse. *)
Record codec (A : Type) : Type := Codec {
  pack : A → result (list Z);
  unpack : list Z → result (A * list Z);
  wf : A → Prop;
}.
Arguments Codec {A}. Arguments pack {A}. Arguments unpack {A}. Arguments wf {A}.

Class Roundtrip {A} (c : codec A) : Prop :=
  roundtrip : ∀ a, wf c a →
    ∃ bs, pack c a = Ok bs ∧ ∀ rest, unpack c (bs ++ rest) = Ok (a, rest).

Declare Scope codec_scope.
Delimit Scope codec_scope with codec.

(** ** Integers *)

(** A built-in unsigned integer of [n] bytes. *)
Definition uint_codec (n : nat) : codec Z := {|
  pack z := Ok (le_bytes n z);
  unpack s := '(bs, s) ← stream_read n s; Ok (of_le_bytes bs, s);
  wf z := 0 ≤ z < 2 ^ (8 * Z.of_nat n);
|}.

Definition int_codec (n : nat) : codec Z := {|
  pack z := Ok (le_bytes n z);
  unpack s := '(bs, s) ← stream_read n s; Ok (wraps (8 * Z.of_nat n) (of_le_bytes bs), s);
  wf z := - 2 ^ (8 * Z.of_nat n - 1) ≤ z < 2 ^ (8 * Z.of_nat n - 1);
|}.

Definition bool_codec : codec bool := {|
  pack b := Ok [if (b : bool) then 1 else 0];
  unpack s :=
    '(bs, s) ← stream_read 1 s;
    let b := of_le_bytes bs in
    fc_assert (Z.land b 254 =? 0) "(b & ~1) == 0" ;;
    Ok (negb (b =? 0), s);
  wf _ := True;
|}.

(** *** Variable-length integers *)

(** The loop on a 64-bit value: seven bits a byte. *)
Fixpoint pack_varint_rounds (fuel : nat) (val : Z) : list Z :=
  let b := Z.land (u8 val) 127 in
  let val := Z.shiftr val 7 in
  let b := Z.lor b (Z.shiftl (if 0 <? val then 1 else 0) 7) in
  b :: match fuel with
       | O => []
       | S fuel => if val =? 0 then [] else pack_varint_rounds fuel val
       end.
Definition pack_unsigned_int (v : Z) : list Z := pack_varint_rounds 9 v.

(** At most five bytes are read; what does not fit in 32 bits is dropped. *)
Fixpoint unpack_varint_rounds (fuel : nat) (v shift : Z) (s : list Z) : result (Z * list Z) :=
  match s with
  | [] => Throw out_of_range_exception
  | b :: s =>
      let v := Z.lor v (u32 (Z.shiftl (Z.land b 127) shift)) in
      match fuel with
      | O => Ok (v, s)
      | S fuel =>
          if Z.land b 128 =? 0 then Ok (v, s) else unpack_varint_rounds fuel v (shift + 7) s
      end
  end.
Definition unpack_unsigned_int (s : list Z) : result (Z * list Z) := unpack_varint_rounds 4 0 0 s.

Definition varint_codec : codec Z := {|
  pack v := Ok (pack_unsigned_int v);
  unpack := unpack_unsigned_int;
  wf v := 0 ≤ v ≤ u32_max;
|}.

Definition zigzag (value : Z) : Z := u32 (Z.lxor (Z.shiftl value 1) (Z.shiftr value 31)).
Definition pack_signed_int (value : Z) : list Z := pack_varint_rounds 4 (zigzag value).

Definition unzigzag (v : Z) : Z :=
  let value := i32 (u32 (Z.lxor (Z.shiftr v 1) (Z.shiftr v 31) + Z.land v 1)) in
  let value := if Z.land v 1 =? 0 then i32 (- value) else value in
  i32 (- value).
Definition unpack_signed_int (s : list Z) : result (Z * list Z) :=
  '(v, s) ← unpack_varint_rounds 4 0 0 s; Ok (unzigzag v, s).

(** ** Strings and arrays *)

(** [std::vector<char>] and [fc::string]. *)
Definition bytes_codec : codec (list Z) := {|
  pack l := Ok (pack_unsigned_int (u32 (Z.of_nat (length l))) ++ l);
  unpack s :=
    '(size, s) ← unpack_unsigned_int s;
    fc_assert (size <? MAX_ARRAY_ALLOC_SIZE) "size.value < MAX_ARRAY_ALLOC_SIZE" ;;
    stream_read (Z.to_nat size) s;
  wf l := Z.of_nat (length l) < MAX_ARRAY_ALLOC_SIZE;
|}.

Definition string_of_octets (l : list Z) : string :=
  String.string_of_list_ascii ((λ b, ascii_of_N (Z.to_N b)) <$> l).

(** [fc::array] and the hashes: the bytes as they are, first byte lowest. *)
Definition array_codec (n : nat) : codec Z := uint_codec n.

(** ** Combinators *)

Definition pair_codec {A B} (c : codec A) (d : codec B) : codec (A * B) := {|
  pack p := xs ← pack c p.1; ys ← pack d p.2; Ok (xs ++ ys);
  unpack s := '(a, s) ← unpack c s; '(b, s) ← unpack d s; Ok (a, b, s);
  wf p := wf c p.1 ∧ wf d p.2;
|}.
Infix "⊗" := pair_codec (at level 60, right associativity) : codec_scope.

(** A type written through another one: a structure as the tuple of its reflected fields. *)
Definition iso_codec {A B} (f : A → B) (g : B → A) (c : codec A) : codec B := {|
  pack b := pack c (g b);
  unpack s := '(a, s) ← unpack c s; Ok (f a, s);
  wf b := wf c (g b);
|}.

Definition string_codec : codec string := {|
  pack s := pack bytes_codec (octets s);
  unpack s := '(l, s) ← unpack bytes_codec s; Ok (string_of_octets l, s);
  wf s := wf bytes_codec (octets s);
|}.

Definition optional_codec {A} (c : codec A) : codec (option A) := {|
  pack o :=
    b ← pack bool_codec (bool_decide (is_Some o));
    match o with None => Ok b | Some a => l ← pack c a; Ok (b ++ l) end;
  unpack s :=
    '(b, s) ← unpack bool_codec s;
    if (b : bool) then '(a, s) ← unpack c s; Ok (Some a, s) else Ok (None, s);
  wf o := ∀ a, o = Some a → wf c a;
|}.

Fixpoint pack_many {A} (c : codec A) (l : list A) : result (list Z) :=
  match l with
  | [] => Ok []
  | a :: l => xs ← pack c a; ys ← pack_many c l; Ok (xs ++ ys)
  end.
Fixpoint unpack_many {A} (c : codec A) (n : nat) (s : list Z) : result (list A * list Z) :=
  match n with
  | O => Ok ([], s)
  | S n => '(a, s) ← unpack c s; '(l, s) ← unpack_many c n s; Ok (a :: l, s)
  end.

(** The size prefix shared by the containers; [sizeof] is that of an element. *)
Definition unpack_size (sizeof : Z) (s : list Z) : result (nat * list Z) :=
  '(size, s) ← unpack_unsigned_int s;
  fc_assert (size * sizeof <? MAX_ARRAY_ALLOC_SIZE) "size.value*sizeof(T) < MAX_ARRAY_ALLOC_SIZE" ;;
  Ok (Z.to_nat size, s).
Definition pack_sequence {A} (c : codec A) (l : list A) : result (list Z) :=
  xs ← pack_many c l; Ok (pack_unsigned_int (u32 (Z.of_nat (length l))) ++ xs).
Definition fits (sizeof : Z) (n : nat) : Prop :=
  Z.of_nat n ≤ u32_max ∧ Z.of_nat n * sizeof < MAX_ARRAY_ALLOC_SIZE.

Definition vector_codec {A} (sizeof : Z) (c : codec A) : codec (list A) := {|
  pack := pack_sequence c;
  unpack s := '(n, s) ← unpack_size sizeof s; unpack_many c n s;
  wf l := fits sizeof (length l) ∧ Forall (wf c) l;
|}.

(** [flat_set::insert] and [flat_map::insert]: an element that is present stays. *)
Definition flat_insert {A} (ltb : A → A → bool) (a : A) : list A → list A :=
  fix go l :=
    match l with
    | [] => [a]
    | b :: l' => if ltb a b then a :: l else if ltb b a then b :: go l' else l
    end.
Definition flat_of {A} (ltb : A → A → bool) (l : list A) : list A :=
  foldl (λ acc a, flat_insert ltb a acc) [] l.

Definition increasing {A} (ltb : A → A → bool) (l : list A) : Prop :=
  StronglySorted (λ a b, ltb a b = true ∧ ltb b a = false) l.

Definition flat_codec {A} (ltb : A → A → bool) (sizeof : Z) (c : codec A) : codec (list A) := {|
  pack := pack_sequence c;
  unpack s := '(n, s) ← unpack_size sizeof s; '(l, s) ← unpack_many c n s; Ok (flat_of ltb l, s);
  wf l := fits sizeof (length l) ∧ Forall (wf c) l ∧ increasing ltb l;
|}.

Definition key_ltb {K V} (ltb : K → K → bool) (p q : K * V) : bool := ltb p.1 q.1.

#[global] Typeclasses Opaque uint_codec int_codec bool_codec varint_codec bytes_codec string_codec
  array_codec pair_codec iso_codec optional_codec vector_codec flat_codec.

(** The round trip of a type defined through the combinators. *)
Ltac by_fields :=
  match goal with
  | |- Roundtrip ?c =>
      let rec head t := lazymatch t with ?f _ => head f | _ => t end in
      let h := head c in unfold h; apply _
  end.

(** ** Integers *)

#[export] Instance uint_roundtrip n : Roundtrip (uint_codec n).
Proof.
  intros z Hz. eexists. split; [done|]. intros rest. cbn [unpack uint_codec].
  rewrite stream_read_app by apply length_le_bytes. cbn.
  by rewrite of_le_bytes_le_bytes, Z.mod_small.
Qed.

#[export] Instance array_roundtrip n : Roundtrip (array_codec n) := uint_roundtrip n.

Lemma wraps_mod w z : 0 < w → wraps w (z mod 2 ^ w) = wraps w z.
Proof. intros Hw. unfold wraps. by rewrite Z.add_mod_idemp_l by lia. Qed.

#[export] Instance int_roundtrip n : Roundtrip (int_codec (S n)).
Proof.
  intros z Hz. eexists. split; [done|]. intros rest. cbn [unpack int_codec].
  rewrite stream_read_app by apply length_le_bytes. cbn [mbind result_bind].
  rewrite of_le_bytes_le_bytes, wraps_mod, wraps_id by lia || done. done.
Qed.

#[export] Instance bool_roundtrip : Roundtrip bool_codec.
Proof. intros [] _; eexists; (split; [done|]); by intros. Qed.

(** *** Variable-length integers *)

Definition varint_byte (val : Z) : Z :=
  Z.lor (Z.land (u8 val) 127) (Z.shiftl (if 0 <? Z.shiftr val 7 then 1 else 0) 7).

Lemma u8_low7 val : Z.land (u8 val) 127 = val mod 128.
Proof.
  change 127 with (2 ^ 7 - 1). rewrite land_mask by lia. unfold u8, wrapu.
  rewrite Z.mod_mod_divide; [done|]. by exists 2.
Qed.

Lemma varint_byte_low val : Z.land (varint_byte val) 127 = val mod 128.
Proof.
  unfold varint_byte. rewrite u8_low7.
  pose proof (Z.mod_pos_bound val 128 ltac:(lia)). set (x := val mod 128) in *.
  case_match.
  - by_octets (λ b, (128 <=? b) || (Z.land (Z.lor b 128) 127 =? b)) x. change (1 ≪ 7) with 128. lia.
  - by_octets (λ b, (128 <=? b) || (Z.land (Z.lor b 0) 127 =? b)) x. change (0 ≪ 7) with 0. lia.
Qed.

Lemma varint_byte_high val :
  0 ≤ val → (Z.land (varint_byte val) 128 =? 0) = (Z.shiftr val 7 =? 0).
Proof.
  intros Hv. unfold varint_byte. rewrite u8_low7.
  pose proof (Z.mod_pos_bound val 128 ltac:(lia)). set (x := val mod 128) in *.
  assert (0 ≤ Z.shiftr val 7) by (by apply Z.shiftr_nonneg).
  destruct (Z.ltb_spec 0 (Z.shiftr val 7)).
  - by_octets (λ b, (128 <=? b) || (Z.land (Z.lor b 128) 128 =? 128)) x.
    change (1 ≪ 7) with 128. destruct (Z.eqb_spec (Z.shiftr val 7) 0); [lia|].
    apply Z.eqb_neq. lia.
  - by_octets (λ b, (128 <=? b) || (Z.land (Z.lor b 0) 128 =? 0)) x.
    change (0 ≪ 7) with 0. rewrite (proj2 (Z.eqb_eq (Z.shiftr val 7) 0)) by lia.
    apply Z.eqb_eq. lia.
Qed.

Lemma pack_varint_eq fuel val :
  pack_varint_rounds fuel val =
  varint_byte val ::
  match fuel with
  | O => []
  | S f => if Z.shiftr val 7 =? 0 then [] else pack_varint_rounds f (Z.shiftr val 7)
  end.
Proof. by destruct fuel. Qed.

Lemma unpack_varint_eq fuel v shift b s :
  unpack_varint_rounds fuel v shift (b :: s) =
  let v := Z.lor v (u32 (Z.shiftl (Z.land b 127) shift)) in
  match fuel with
  | O => Ok (v, s)
  | S f => if Z.land b 128 =? 0 then Ok (v, s) else unpack_varint_rounds f v (shift + 7) s
  end.
Proof. by destruct fuel. Qed.

(** Reading back what the loop writes, from any point of the two loops. *)
Lemma varint_rounds fp fu val v shift rest :
  0 ≤ val → 0 ≤ shift → 0 ≤ v < 2 ^ shift → val * 2 ^ shift ≤ u32_max →
  val < 2 ^ (7 * (Z.of_nat fp + 1)) → val < 2 ^ (7 * (Z.of_nat fu + 1)) →
  unpack_varint_rounds fu v shift (pack_varint_rounds fp val ++ rest)
  = Ok (v + val * 2 ^ shift, rest).
Proof.
  revert fu val v shift. induction fp as [|fp IH]; intros fu val v shift Hval Hs Hv Hmax Hfp Hfu.
  all: pose proof (Z.mod_pos_bound val 128 ltac:(lia)) as Hm.
  all: pose proof (Z.div_mod val 128 ltac:(lia)) as Hdm.
  all: assert (0 < 2 ^ shift) by (apply Z.pow_pos_nonneg; lia).
  all: assert (Z.lor v (u32 (Z.shiftl (Z.land (varint_byte val) 127) shift))
    = v + val mod 128 * 2 ^ shift) as Hacc by
    (rewrite varint_byte_low, u32_id;
      [by rewrite Z.lor_comm, lor_shiftl_add, Z.add_comm by lia
      |rewrite Z.shiftl_mul_pow2 by lia; split; [nia|];
       etransitivity; [|exact Hmax]; apply Z.mul_le_mono_nonneg_r; [lia|];
       pose proof (Z.div_pos val 128); nia]).
  all: assert (Z.shiftr val 7 = val / 128) as Hsh by (by rewrite Z.shiftr_div_pow2 by lia).
  all: pose proof (Z.div_pos val 128 Hval ltac:(lia)) as Hd0.
  all: rewrite pack_varint_eq; cbn [app]; rewrite unpack_varint_eq, Hacc, varint_byte_high, Hsh
    by done; cbv zeta.
  - assert (val / 128 = 0) as Hz by (apply Z.div_small; change (2 ^ _) with 128 in Hfp; lia).
    rewrite Hz. cbn. replace (val mod 128) with val by lia. by destruct fu.
  - destruct (Z.eqb_spec (val / 128) 0) as [Hz|Hz].
    + cbn. replace (val mod 128) with val by lia. by destruct fu.
    + destruct fu as [|fu].
      { exfalso. apply Hz. apply Z.div_small. change (2 ^ _) with 128 in Hfu. lia. }
      assert (2 ^ (shift + 7) = 2 ^ shift * 128) as Hp by (rewrite Z.pow_add_r by lia; done).
      rewrite IH; [| |lia| | | |].
      * f_equal. f_equal. rewrite Hp. nia.
      * lia.
      * rewrite Hp. nia.
      * rewrite Hp. etransitivity; [|exact Hmax]. nia.
      * apply Z.div_lt_upper_bound; [lia|].
        replace (7 * (Z.of_nat (S fp) + 1)) with (7 + 7 * (Z.of_nat fp + 1)) in Hfp by lia.
        by rewrite Z.pow_add_r in Hfp by lia.
      * apply Z.div_lt_upper_bound; [lia|].
        replace (7 * (Z.of_nat (S fu) + 1)) with (7 + 7 * (Z.of_nat fu + 1)) in Hfu by lia.
        by rewrite Z.pow_add_r in Hfu by lia.
Qed.

Lemma unpack_pack_unsigned v rest :
  0 ≤ v ≤ u32_max → unpack_unsigned_int (pack_unsigned_int v ++ rest) = Ok (v, rest).
Proof.
  intros Hv. unfold unpack_unsigned_int, pack_unsigned_int.
  rewrite varint_rounds; [by rewrite Z.mul_1_r| |done|done|unfold u32_max in *; lia..]; lia.
Qed.

#[export] Instance varint_roundtrip : Roundtrip varint_codec.
Proof. intros v Hv. eexists. split; [done|]. intros rest. by apply unpack_pack_unsigned. Qed.

(** *** Signed variable-length integers *)

Lemma wraps_congr w y z : 0 < w → y mod 2 ^ w = z mod 2 ^ w → wraps w y = wraps w z.
Proof. intros Hw E. by rewrite <- wraps_mod, E, wraps_mod. Qed.

Lemma mod_wraps w y : 0 < w → wraps w y mod 2 ^ w = y mod 2 ^ w.
Proof.
  intros Hw. unfold wraps. rewrite Zminus_mod_idemp_l. f_equal. lia.
Qed.

Lemma i32_opp_i32 y : i32 (- i32 y) = i32 (- y).
Proof.
  unfold i32. apply wraps_congr; [lia|]. rewrite <- !Z.sub_0_l.
  rewrite <- Zminus_mod_idemp_r, mod_wraps by lia. by rewrite Zminus_mod_idemp_r.
Qed.

Lemma i32_u32 y : i32 (u32 y) = i32 y.
Proof. by apply wraps_mod. Qed.

Lemma i32_id z : - 2 ^ 31 ≤ z < 2 ^ 31 → i32 z = z.
Proof. intros Hz. by apply wraps_id. Qed.

Lemma zigzag_eq value :
  - 2 ^ 31 ≤ value < 2 ^ 31 →
  zigzag value = if 0 <=? value then 2 * value else - 2 * value - 1.
Proof.
  intros Hv. unfold zigzag. rewrite Z.shiftl_mul_pow2, Z.shiftr_div_pow2 by lia.
  destruct (Z.leb_spec 0 value).
  - rewrite Z.div_small, Z.lxor_0_r, u32_id by (unfold u32_max; lia). lia.
  - replace (value / 2 ^ 31) with (-1) by (apply (Z.div_unique _ _ _ (value + 2 ^ 31)); lia).
    rewrite Z.lxor_m1_r. unfold Z.lnot. rewrite u32_id by (unfold u32_max; lia). lia.
Qed.

(** The bit that decoding mixes in: set for numbers of more than 30 bits. *)
Definition stray (n : Z) : Z := Z.lxor n (n / 2 ^ 30).

Lemma stray_low n : 0 ≤ n < 2 ^ 30 → stray n = n.
Proof. intros. unfold stray. by rewrite Z.div_small, Z.lxor_0_r. Qed.

Lemma stray_high n :
  2 ^ 30 ≤ n < 2 ^ 31 → stray n ≠ n ∧ 0 ≤ stray n < 2 ^ 31.
Proof.
  intros Hn. unfold stray.
  replace (n / 2 ^ 30) with 1 by (apply (Z.div_unique _ _ _ (n - 2 ^ 30)); lia).
  change 1 with (2 ^ 0). rewrite lxor_bit, Z.bit0_odd by lia. change (2 ^ 0) with 1.
  pose proof (Zmod_odd n). pose proof (Z.div_mod n 2 ltac:(lia)).
  destruct (Z.odd n); lia.
Qed.

Lemma stray_range n : 0 ≤ n < 2 ^ 31 → 0 ≤ stray n < 2 ^ 31.
Proof.
  intros Hn. destruct (decide (n < 2 ^ 30)); [rewrite stray_low; lia|].
  apply stray_high. lia.
Qed.

Lemma unzigzag_even n : 0 ≤ n < 2 ^ 31 → unzigzag (2 * n) = stray n.
Proof.
  intros Hn. pose proof (stray_range n Hn). unfold unzigzag.
  replace (Z.land (2 * n) 1) with 0
    by (change 1 with (2 ^ 1 - 1); rewrite land_mask, (Z.mul_comm 2 n), Z.mod_mul by lia; done).
  rewrite !Z.shiftr_div_pow2, Z.add_0_r by lia.
  replace (2 * n / 2 ^ 1) with n by (rewrite (Z.mul_comm 2 n); symmetry; by apply Z.div_mul).
  replace (2 * n / 2 ^ 31) with (n / 2 ^ 30)
    by (change (2 ^ 31) with (2 * 2 ^ 30); rewrite Z.div_mul_cancel_l; lia).
  fold (stray n). cbn [Z.eqb].
  rewrite i32_u32, (i32_id (stray n)), i32_opp_i32, Z.opp_involutive by lia. apply i32_id. lia.
Qed.

Lemma unzigzag_odd n : 0 ≤ n < 2 ^ 31 → unzigzag (2 * n + 1) = - (stray n + 1).
Proof.
  intros Hn. pose proof (stray_range n Hn). unfold unzigzag.
  replace (Z.land (2 * n + 1) 1) with 1
    by (change 1 with (2 ^ 1 - 1) at 3; rewrite land_mask by lia; change (2 ^ 1) with 2;
        rewrite Z.add_comm, Z.mul_comm, Z.mod_add by lia; done).
  rewrite !Z.shiftr_div_pow2 by lia.
  replace ((2 * n + 1) / 2 ^ 1) with n by (apply (Z.div_unique _ _ _ 1); lia).
  replace ((2 * n + 1) / 2 ^ 31) with (n / 2 ^ 30).
  2:{ change (2 ^ 31) with (2 * 2 ^ 30). rewrite <- Z.div_div by lia.
      f_equal. apply (Z.div_unique _ _ _ 1); lia. }
  fold (stray n). cbn [Z.eqb]. rewrite i32_u32, i32_opp_i32. apply i32_id. lia.
Qed.

(** C26. Variable-length integers: an unsigned one is read back exactly, whatever follows
    it, and a signed one is read back as written precisely when it has at most 30 bits of
    magnitude; the others come back as a different number. *)
Theorem variable_length_integers value rest :
  (0 ≤ value ≤ u32_max →
   unpack_unsigned_int (pack_unsigned_int value ++ rest) = Ok (value, rest)) ∧
  (- 2 ^ 31 ≤ value < 2 ^ 31 → ∃ value',
   unpack_signed_int (pack_signed_int value ++ rest) = Ok (value', rest) ∧
   (value' = value ↔ - 2 ^ 30 ≤ value < 2 ^ 30)).
Proof.
  split; [apply unpack_pack_unsigned|]. intros Hv.
  exists (unzigzag (zigzag value)). split.
  - unfold unpack_signed_int, pack_signed_int.
    assert (0 ≤ zigzag value ≤ u32_max) by apply u32_bound.
    rewrite varint_rounds; [by rewrite Z.mul_1_r| |done|done|unfold u32_max in *; lia..]; lia.
  - rewrite zigzag_eq by done. destruct (Z.leb_spec 0 value).
    + rewrite unzigzag_even by lia. destruct (decide (value < 2 ^ 30)).
      * rewrite stray_low by lia. lia.
      * pose proof (stray_high value). lia.
    + replace (- 2 * value - 1) with (2 * (- value - 1) + 1) by lia.
      rewrite unzigzag_odd by lia. destruct (decide (- value - 1 < 2 ^ 30)).
      * rewrite stray_low by lia. lia.
      * pose proof (stray_high (- value - 1)). lia.
Qed.

Lemma variable_length_integers_witness :
  unpack_unsigned_int (pack_unsigned_int 300 ++ [7]) = Ok (300, [7]) ∧
  pack_unsigned_int 300 = [172; 2] ∧
  unpack_signed_int (pack_signed_int (2 ^ 30) ++ []) = Ok (2 ^ 30 + 1, []).
Proof.
  split_and!; [|by vm_compute..].
  apply (variable_length_integers 300 [7]). unfold u32_max. lia.
Defined.

(** ** The law of the combinators *)

#[export] Instance bytes_roundtrip : Roundtrip bytes_codec.
Proof.
  intros l Hl. cbn [wf bytes_codec] in Hl. eexists. split; [done|]. intros rest.
  unfold MAX_ARRAY_ALLOC_SIZE in *. cbn [unpack bytes_codec].
  rewrite <- app_assoc, u32_id, unpack_pack_unsigned by (unfold u32_max; lia).
  cbn [mbind result_bind]. rewrite (proj2 (Z.ltb_lt _ _)) by (unfold MAX_ARRAY_ALLOC_SIZE; lia).
  cbn [fc_assert mbind result_bind]. apply stream_read_app. lia.
Qed.

Lemma string_of_octets_octets s : string_of_octets (octets s) = s.
Proof.
  unfold string_of_octets, octets. rewrite <- list_fmap_compose.
  rewrite (list_fmap_ext _ id), list_fmap_id, String.string_of_list_ascii_of_string; [done|].
  intros i c _. cbn. by rewrite N2Z.id, ascii_N_embedding.
Qed.

#[export] Instance string_roundtrip : Roundtrip string_codec.
Proof.
  intros s Hs. destruct (bytes_roundtrip (octets s) Hs) as (bs & Hp & Hu).
  exists bs. split; [done|]. intros rest. cbn [unpack string_codec]. rewrite Hu.
  cbn [mbind result_bind]. by rewrite string_of_octets_octets.
Qed.

#[export] Instance pair_roundtrip {A B} (c : codec A) (d : codec B) :
  Roundtrip c → Roundtrip d → Roundtrip (pair_codec c d).
Proof.
  intros Hc Hd [a b] [Ha Hb]. destruct (Hc a Ha) as (xs & Hx & Hux), (Hd b Hb) as (ys & Hy & Huy).
  exists (xs ++ ys). split; [cbn; rewrite Hx; cbn; by rewrite Hy|]. intros rest.
  cbn. rewrite <- app_assoc, Hux. cbn. by rewrite Huy.
Qed.

#[export] Instance iso_roundtrip {A B} (f : A → B) (g : B → A) (c : codec A) :
  Cancel (=) f g → Roundtrip c → Roundtrip (iso_codec f g c).
Proof.
  intros Hfg Hc b Hb. destruct (Hc (g b) Hb) as (xs & Hx & Hux).
  exists xs. split; [done|]. intros rest. cbn. rewrite Hux. cbn. by rewrite Hfg.
Qed.

#[export] Instance optional_roundtrip {A} (c : codec A) :
  Roundtrip c → Roundtrip (optional_codec c).
Proof.
  intros Hc [a|] Ho.
  - destruct (Hc a (Ho a eq_refl)) as (xs & Hx & Hux).
    exists (1 :: xs). split; [cbn; by rewrite Hx|]. intros rest.
    cbn [unpack optional_codec app].
    assert (∀ s, unpack bool_codec (1 :: s) = Ok (true, s)) as -> by done.
    cbn [mbind result_bind]. by rewrite Hux.
  - exists [0]. by split.
Qed.

Lemma many_roundtrip {A} (c : codec A) `{!Roundtrip c} l :
  Forall (wf c) l → ∃ xs, pack_many c l = Ok xs ∧
    ∀ rest, unpack_many c (length l) (xs ++ rest) = Ok (l, rest).
Proof.
  induction 1 as [|a l Ha Hl (ys & Hy & Huy)]; [by exists []|].
  destruct (roundtrip a Ha) as (xs & Hx & Hux).
  exists (xs ++ ys). split; [cbn; rewrite Hx; cbn; by rewrite Hy|]. intros rest.
  cbn. rewrite <- app_assoc, Hux. cbn. by rewrite Huy.
Qed.

Lemma sequence_roundtrip {A} (c : codec A) `{!Roundtrip c} sizeof l :
  fits sizeof (length l) → Forall (wf c) l →
  ∃ xs, pack_sequence c l = Ok xs ∧ ∀ rest,
    ∃ rest', unpack_size sizeof (xs ++ rest) = Ok (length l, rest') ∧
             unpack_many c (length l) rest' = Ok (l, rest).
Proof.
  intros [Hn Hs] Hl. destruct (many_roundtrip c l Hl) as (ys & Hy & Huy).
  exists (pack_unsigned_int (u32 (Z.of_nat (length l))) ++ ys).
  split; [unfold pack_sequence; by rewrite Hy|]. intros rest. exists (ys ++ rest).
  split; [|apply Huy]. unfold unpack_size.
  rewrite <- app_assoc, u32_id, unpack_pack_unsigned by lia. cbn [mbind result_bind].
  rewrite (proj2 (Z.ltb_lt _ _) Hs). cbn [fc_assert mbind result_bind]. by rewrite Nat2Z.id.
Qed.

#[export] Instance vector_roundtrip {A} sizeof (c : codec A) :
  Roundtrip c → Roundtrip (vector_codec sizeof c).
Proof.
  intros Hc l [Hf Hl]. destruct (sequence_roundtrip c sizeof l Hf Hl) as (xs & Hx & Hux).
  exists xs. split; [done|]. intros rest. destruct (Hux rest) as (rest' & H1 & H2).
  cbn [unpack vector_codec]. rewrite H1. cbn. by rewrite H2.
Qed.

(** *** Ordered containers *)

Lemma flat_insert_last {A} (ltb : A → A → bool) a l :
  Forall (λ b, ltb b a = true ∧ ltb a b = false) l → flat_insert ltb a l = l ++ [a].
Proof.
  induction 1 as [|b l [Hb Ha] _ IH]; [done|]. cbn. rewrite Ha, Hb. f_equal. exact IH.
Qed.

Lemma increasing_app_last {A} (ltb : A → A → bool) l a :
  increasing ltb (l ++ [a]) →
  increasing ltb l ∧ Forall (λ b, ltb b a = true ∧ ltb a b = false) l.
Proof.
  intros H. induction l as [|b l IH]; [split; constructor|].
  cbn in H. inversion H as [|? ? Hl Hb]; subst. destruct (IH Hl) as [Hi Hf].
  apply Forall_app in Hb as [Hb1 Hb2]. split; [by constructor|].
  constructor; [by apply Forall_cons_1 in Hb2 as [? _]|done].
Qed.

Lemma flat_of_increasing {A} (ltb : A → A → bool) l : increasing ltb l → flat_of ltb l = l.
Proof.
  unfold flat_of. induction l as [|a l IH] using rev_ind; intros H; [done|].
  apply increasing_app_last in H as [Hi Hf].
  rewrite foldl_app, IH by done. cbn. by apply flat_insert_last.
Qed.

#[export] Instance flat_roundtrip {A} (ltb : A → A → bool) sizeof (c : codec A) :
  Roundtrip c → Roundtrip (flat_codec ltb sizeof c).
Proof.
  intros Hc l (Hf & Hl & Hi). destruct (sequence_roundtrip c sizeof l Hf Hl) as (xs & Hx & Hux).
  exists xs. split; [done|]. intros rest. destruct (Hux rest) as (rest' & H1 & H2).
  cbn [unpack flat_codec]. rewrite H1. cbn. rewrite H2. cbn. by rewrite flat_of_increasing.
Qed.

(** Whatever was read, a flat container is increasing for a strict total order. *)
Class StrictOrderb {A} (ltb : A → A → bool) : Prop := {
  ltb_irrefl : ∀ a, ltb a a = false;
  ltb_trans : ∀ a b c, ltb a b = true → ltb b c = true → ltb a c = true;
}.

Lemma ltb_asym {A} (ltb : A → A → bool) `{!StrictOrderb ltb} a b :
  ltb a b = true → ltb b a = false.
Proof.
  intros H. destruct (ltb b a) eqn:E; [|done].
  pose proof (ltb_trans _ _ _ H E) as C. by rewrite ltb_irrefl in C.
Qed.

Lemma flat_insert_increasing {A} (ltb : A → A → bool) `{!StrictOrderb ltb} a l :
  increasing ltb l → increasing ltb (flat_insert ltb a l).
Proof.
  intros H. assert (∀ b m, Forall (λ c, ltb b c = true ∧ ltb c b = false) m → ltb b a = true →
    Forall (λ c, ltb b c = true ∧ ltb c b = false) (flat_insert ltb a m)) as Hfa.
  { intros b m Hm Hb. induction Hm as [|c m Hc Hm IH]; cbn.
    - constructor; [split; [done|by apply ltb_asym]|constructor].
    - pose proof (ltb_asym ltb _ _ Hb). destruct (ltb a c); [|destruct (ltb c a)];
        repeat (apply Forall_cons; split); auto. }
  induction H as [|b l Hl IH Hb]; cbn; [repeat constructor|].
  destruct (ltb a b) eqn:Hab.
  - constructor; [by constructor|]. constructor; [split; [done|by apply ltb_asym]|].
    eapply Forall_impl; [exact Hb|]. intros c [Hbc _].
    pose proof (ltb_trans _ _ _ Hab Hbc). split; [done|by apply ltb_asym].
  - destruct (ltb b a) eqn:Hba; [|by constructor]. constructor; [done|by apply Hfa].
Qed.

(** ** Readers that agree *)

(** Two codecs that may write differently but read alike. *)
Class SameReader {A} (c c' : codec A) : Prop := same_reader : ∀ s, unpack c s = unpack c' s.

#[export] Instance same_reader_refl {A} (c : codec A) : SameReader c c | 0.
Proof. done. Qed.
#[export] Instance same_reader_pair {A B} (c c' : codec A) (d d' : codec B) :
  SameReader c c' → SameReader d d' → SameReader (pair_codec c d) (pair_codec c' d') | 5.
Proof.
  intros Hc Hd s. cbn [unpack pair_codec]. rewrite (Hc s).
  destruct (unpack c' s) as [ [a s1]|]; [|done]. cbn [mbind result_bind]. by rewrite (Hd s1).
Qed.
#[export] Instance same_reader_iso {A B} (f : A → B) g (c c' : codec A) :
  SameReader c c' → SameReader (iso_codec f g c) (iso_codec f g c') | 5.
Proof. intros Hc s. cbn [unpack iso_codec]. by rewrite (Hc s). Qed.
#[export] Instance same_reader_vector {A} n (c c' : codec A) :
  SameReader c c' → SameReader (vector_codec n c) (vector_codec n c') | 5.
Proof.
  intros Hc s. assert (∀ k s, unpack_many c k s = unpack_many c' k s) as Hm.
  { induction k as [|k IH]; intros t; [done|]. cbn. rewrite (Hc t).
    destruct (unpack c' t) as [ [a t']|]; [|done]. cbn. by rewrite IH. }
  cbn [unpack vector_codec]. destruct (unpack_size n s) as [ [k s1]|]; [|done].
  cbn [mbind result_bind]. apply Hm.
Qed.

(** A codec determines what was written, whichever of two readers is used. *)
Lemma pack_injective {A} (c c' : codec A) `{!Roundtrip c, !Roundtrip c', !SameReader c c'} a a' bs :
  wf c a → wf c' a' → pack c a = Ok bs → pack c' a' = Ok bs → a = a'.
Proof.
  intros Ha Ha' Hp Hp'.
  destruct (roundtrip (c := c) a Ha) as (xs & Hx & Hux).
  destruct (roundtrip (c := c') a' Ha') as (ys & Hy & Huy).
  assert (xs = ys) as <- by congruence.
  specialize (Hux []). specialize (Huy []). rewrite (same_reader (c := c)) in Hux. congruence.
Qed.
