(* ===== verification/FixedString.v ===== *)
(** * Fixed-length strings

    [src/libraries/protocol/include/hive/protocol/fixed_string.hpp]: the strings stored in
    place as pairs of big-endian integers, [account_name_type] being the one of 16 bytes and
    [custom_id_type] the one of 32.  The other files write an account name as a string;
    [fixed_string_16_faithful] is what allows it. *)

From Stdlib Require Import Ascii.
From S2P Require Import Prelude Safe AssetSymbol Utf8 Raw.

(** [boost::endian::endian_reverse] on [uint64_t], by its documentation. *)
Class EndianReverse64 : Type := endian_reverse64 : Z → Z.
Class EndianReverse64Laws `{EndianReverse64} : Prop :=
  endian_reverse64_bytes : ∀ x, 0 ≤ x ≤ u64_max →
    0 ≤ endian_reverse64 x ≤ u64_max ∧ le_bytes 8 (endian_reverse64 x) = reverse (le_bytes 8 x).

Section fixed_string.
Context `{EndianReverse64}.
(** [truncation_controller::verify]. *)
Context (verify : bool).

(** [memcpy] into a zeroed storage of [size] bytes. *)
Definition assign (size : nat) (l : list Z) : result (list Z) :=
  if verify then
    fc_assert (length l <=? size)%nat "Input too large" ;;
    Ok (l ++ replicate (size - length l) 0)
  else
    if (length l <=? size)%nat then Ok (l ++ replicate (size - length l) 0)
    else Ok (take size l).

Fixpoint strnlen (l : list Z) : nat :=
  match l with
  | [] => 0
  | b :: l => if b =? 0 then 0 else S (strnlen l)
  end.

(** ** [fixed_string<16>]: [erpair< uint64_t, uint64_t >] *)

Definition storage16 : Set := Z * Z.

Definition load16 (l : list Z) : storage16 :=
  (of_le_bytes (take 8 l), of_le_bytes (drop 8 l)).
Definition store16 (d : storage16) : list Z := le_bytes 8 d.1 ++ le_bytes 8 d.2.

(** [endian_reverse( erpair )] on a little-endian machine. *)
Definition big_to_native16 (d : storage16) : storage16 :=
  (endian_reverse64 d.1, endian_reverse64 d.2).
Definition native_to_big16 (d : storage16) : storage16 := big_to_native16 d.

Definition fixed_string_16 (str : string) : result storage16 :=
  d ← assign 16 (octets str); Ok (big_to_native16 (load16 d)).

Definition to_string16 (data : storage16) : string :=
  let d := store16 (native_to_big16 data) in string_of_octets (take (strnlen d) d).

Definition size16 (data : storage16) : Z :=
  Z.of_nat (strnlen (store16 (native_to_big16 data))).

(** [std::tie( first, second )] compared. *)
Definition tie_compare (a b : Z * Z) : comparison :=
  match a.1 ?= b.1 with Eq => a.2 ?= b.2 | c => c end.
Definition fixed_ltb (a b : Z * Z) : bool := match tie_compare a b with Lt => true | _ => false end.
Definition fixed_eqb (a b : Z * Z) : bool := match tie_compare a b with Eq => true | _ => false end.

(** ** [fixed_string<32>]: [erpair< uint128_t, uint128_t >] *)

(** [endian_reverse( uint128 )]: the two halves are reversed in place. *)
Definition endian_reverse128 (u : Z) : Z :=
  to_uint128 (endian_reverse64 (uint128_high_bits u)) (endian_reverse64 (uint128_low_bits u)).

Definition fixed_string_32 (str : string) : result (Z * Z) :=
  d ← assign 32 (octets str);
  Ok (endian_reverse128 (of_le_bytes (take 16 d)), endian_reverse128 (of_le_bytes (drop 16 d))).

Definition to_string32 (data : Z * Z) : string :=
  let d := le_bytes 16 (endian_reverse128 data.1) ++ le_bytes 16 (endian_reverse128 data.2) in
  string_of_octets (take (strnlen d) d).
End fixed_string.

(** ** Bytes *)

Lemma of_le_bytes_bound l : octets_ok l → 0 ≤ of_le_bytes l < 2 ^ (8 * Z.of_nat (length l)).
Proof.
  induction 1 as [|b l Hb _ IH]; [done|]. cbn [of_le_bytes length].
  replace (8 * Z.of_nat (S (length l))) with (8 + 8 * Z.of_nat (length l)) by lia.
  rewrite Z.pow_add_r by lia. change (2 ^ 8) with 256 in *. lia.
Qed.

Lemma le_bytes_of_le_bytes l : octets_ok l → le_bytes (length l) (of_le_bytes l) = l.
Proof.
  induction 1 as [|b l Hb Hl IH]; [done|]. cbn [of_le_bytes length le_bytes].
  pose proof (of_le_bytes_bound l Hl). f_equal.
  - unfold u8, wrapu. rewrite (Z.mul_comm (2 ^ 8)), Z.mod_add, Z.mod_small by lia. done.
  - rewrite Z.shiftr_div_pow2 by lia.
    rewrite (Z.mul_comm (2 ^ 8)), Z.div_add, Z.div_small, Z.add_0_l by lia. done.
Qed.

Lemma octets_ok_reverse l : octets_ok l → octets_ok (reverse l).
Proof. apply Forall_reverse. Qed.

(** The number that a list of bytes writes, most significant byte first. *)
Definition be_value (l : list Z) : Z := of_le_bytes (reverse l).

Lemma of_le_bytes_app l k :
  of_le_bytes (l ++ k) = of_le_bytes l + 2 ^ (8 * Z.of_nat (length l)) * of_le_bytes k.
Proof.
  induction l as [|b l IH]; [cbn [of_le_bytes app length]; change (2 ^ (8 * _)) with 1; lia|].
  cbn [of_le_bytes app length]. rewrite IH.
  replace (8 * Z.of_nat (S (length l))) with (8 + 8 * Z.of_nat (length l)) by lia.
  rewrite (Z.pow_add_r 2 8) by lia. lia.
Qed.

Lemma be_value_cons b l : be_value (b :: l) = be_value l + 2 ^ (8 * Z.of_nat (length l)) * b.
Proof.
  unfold be_value. rewrite reverse_cons, of_le_bytes_app, length_reverse. cbn [of_le_bytes]. lia.
Qed.

Lemma be_value_bound l : octets_ok l → 0 ≤ be_value l < 2 ^ (8 * Z.of_nat (length l)).
Proof.
  intros H. pose proof (of_le_bytes_bound _ (octets_ok_reverse _ H)) as B.
  by rewrite length_reverse in B.
Qed.

(** *** Lexicographic comparison *)

Fixpoint lex_compare (l k : list Z) : comparison :=
  match l, k with
  | [], [] => Eq
  | [], _ :: _ => Lt
  | _ :: _, [] => Gt
  | a :: l, b :: k => match a ?= b with Eq => lex_compare l k | c => c end
  end.

Lemma lex_compare_app l1 k1 l2 k2 :
  length l1 = length k1 →
  lex_compare (l1 ++ l2) (k1 ++ k2)
  = match lex_compare l1 k1 with Eq => lex_compare l2 k2 | c => c end.
Proof.
  revert k1. induction l1 as [|a l1 IH]; intros [|b k1] E; [done..|]. injection E as E.
  cbn. destruct (a ?= b); [by apply IH|done..].
Qed.

Lemma be_compare l k :
  octets_ok l → octets_ok k → length l = length k →
  (be_value l ?= be_value k) = lex_compare l k.
Proof.
  intros Hl. revert k. induction Hl as [|a l Ha Hl IH]; intros [|b k] Hk E; [done..|]. injection E as E.
  apply Forall_cons in Hk as [Hb Hk]. rewrite !be_value_cons, E. cbn [lex_compare].
  pose proof (be_value_bound l Hl) as Bl. rewrite E in Bl. pose proof (be_value_bound k Hk) as Bk.
  set (w := 2 ^ (8 * Z.of_nat (length k))) in *.
  destruct (Z.compare_spec a b) as [->|Hlt|Hgt].
  - rewrite !(Z.add_comm _ (w * b)), Z.add_compare_mono_l. by apply IH.
  - apply Z.compare_lt_iff. nia.
  - apply Z.compare_gt_iff. nia.
Qed.

(** Zero padding does not change the comparison of strings without a zero byte. *)
Definition nul_free (l : list Z) : Prop := Forall (λ b, 0 < b < 256) l.

Definition pad (n : nat) (l : list Z) : list Z := l ++ replicate (n - length l) 0.

Lemma lex_compare_refl l : lex_compare l l = Eq.
Proof. induction l as [|a l IH]; [done|]. cbn. by rewrite Z.compare_refl. Qed.

Lemma lex_compare_pad n l k :
  nul_free l → nul_free k → (length l ≤ n)%nat → (length k ≤ n)%nat →
  lex_compare (pad n l) (pad n k) = lex_compare l k.
Proof.
  intros Hl. revert n k. unfold pad.
  induction Hl as [|a l Ha Hl IH]; intros n [|b k] Hk Hn Hm; cbn [length app] in *.
  - by rewrite lex_compare_refl.
  - apply Forall_cons in Hk as [Hb _]. rewrite Nat.sub_0_r. destruct n as [|n]; [lia|].
    cbn [replicate app lex_compare].
    by rewrite (proj2 (Z.compare_lt_iff 0 b)) by lia.
  - rewrite Nat.sub_0_r. destruct n as [|n]; [lia|].
    cbn [replicate app lex_compare].
    by rewrite (proj2 (Z.compare_gt_iff a 0)) by lia.
  - apply Forall_cons in Hk as [_ Hk]. destruct n as [|n]; [lia|].
    cbn [replicate app lex_compare Nat.sub length].
    destruct (a ?= b); [apply IH; lia || done|done..].
Qed.

Lemma lex_compare_string s t : lex_compare (octets s) (octets t) = String.compare s t.
Proof.
  revert t. induction s as [|c s IH]; intros [|d t]; [done..|].
  cbn. unfold Ascii.compare. rewrite <- N2Z.inj_compare.
  destruct (Z.of_N (N_of_ascii c) ?= Z.of_N (N_of_ascii d)); [apply IH|done..].
Qed.

(** ** [fixed_string<16>] *)

Definition fits_string (n : nat) (s : string) : Prop :=
  (length (octets s) ≤ n)%nat ∧ nul_free (octets s).

Lemma nul_free_octets l : nul_free l → octets_ok l.
Proof. intros H. eapply Forall_impl; [exact H|]. intros b. simpl. lia. Qed.

Lemma octets_ok_pad n l : octets_ok l → octets_ok (pad n l).
Proof. intros H. apply octets_ok_app. split; [done|]. apply Forall_replicate. lia. Qed.

Lemma length_pad n l : (length l ≤ n)%nat → length (pad n l) = n.
Proof. intros H. unfold pad. rewrite length_app, length_replicate. lia. Qed.

Lemma assign_fits verify n l : (length l ≤ n)%nat → assign verify n l = Ok (pad n l).
Proof.
  intros H. unfold assign. rewrite (proj2 (Nat.leb_le _ _) H). by destruct verify.
Qed.

Lemma strnlen_pad n l : nul_free l → strnlen (pad n l) = length l.
Proof.
  unfold pad. intros H. assert (∀ k, strnlen (replicate k 0) = 0%nat) as H0 by (by intros []).
  revert n. induction H as [|b l Hb _ IH]; intros n; [apply H0|]. cbn [app strnlen length].
  destruct (Z.eqb_spec b 0); [lia|]. f_equal. destruct n; [apply (IH 0%nat)|apply IH].
Qed.

Lemma take_pad n l : take (length l) (pad n l) = l.
Proof. apply take_app_length. Qed.

Section reversal.
Context `{EndianReverse64Laws}.

Lemma reverse64_of_bytes l :
  octets_ok l → length l = 8%nat → endian_reverse64 (of_le_bytes l) = be_value l.
Proof.
  intros Hl Hn. pose proof (of_le_bytes_bound l Hl) as Hb. rewrite Hn in Hb.
  destruct (endian_reverse64_bytes (of_le_bytes l)) as [Hr Hbytes];
    [unfold u64_max; change (2 ^ _) with 18446744073709551616 in Hb; lia|].
  pose proof (le_bytes_of_le_bytes l Hl) as E. rewrite Hn in E. rewrite E in Hbytes.
  apply (f_equal of_le_bytes) in Hbytes. rewrite of_le_bytes_le_bytes, Z.mod_small in Hbytes;
    [done|]. unfold u64_max in Hr. change (2 ^ _) with 18446744073709551616. lia.
Qed.

Lemma reverse64_be_value l :
  octets_ok l → length l = 8%nat → le_bytes 8 (endian_reverse64 (be_value l)) = l.
Proof.
  intros Hl Hn. pose proof (be_value_bound l Hl) as Hb. rewrite Hn in Hb.
  destruct (endian_reverse64_bytes (be_value l)) as [Hr ->];
    [unfold u64_max; change (2 ^ _) with 18446744073709551616 in Hb; lia|].
  pose proof (le_bytes_of_le_bytes _ (octets_ok_reverse _ Hl)) as E.
  rewrite length_reverse, Hn in E. unfold be_value. by rewrite E, reverse_involutive.
Qed.

Lemma octets_ok_take_drop n l : octets_ok l → octets_ok (take n l) ∧ octets_ok (drop n l).
Proof. intros Hl. rewrite <- (take_drop n l) in Hl. by apply octets_ok_app in Hl. Qed.

Lemma big_to_native16_load l :
  octets_ok l → length l = 16%nat →
  big_to_native16 (load16 l) = (be_value (take 8 l), be_value (drop 8 l)).
Proof.
  intros Hl Hn. destruct (octets_ok_take_drop 8 l Hl) as [H1 H2].
  unfold big_to_native16, load16. cbn [fst snd].
  rewrite !reverse64_of_bytes; [done|done|rewrite length_drop; lia|done|rewrite length_take; lia].
Qed.

Lemma store16_native l :
  octets_ok l → length l = 16%nat →
  store16 (native_to_big16 (be_value (take 8 l), be_value (drop 8 l))) = l.
Proof.
  intros Hl Hn. destruct (octets_ok_take_drop 8 l Hl) as [H1 H2].
  unfold store16, native_to_big16, big_to_native16. cbn [fst snd].
  rewrite !reverse64_be_value; [apply take_drop|done|rewrite length_drop; lia|done
                               |rewrite length_take; lia].
Qed.

Lemma tie_compare_bytes l k :
  octets_ok l → octets_ok k → length l = 16%nat → length k = 16%nat →
  tie_compare (be_value (take 8 l), be_value (drop 8 l))
    (be_value (take 8 k), be_value (drop 8 k)) = lex_compare l k.
Proof.
  intros Hl Hk Hn Hm.
  destruct (octets_ok_take_drop 8 l Hl) as [L1 L2], (octets_ok_take_drop 8 k Hk) as [K1 K2].
  unfold tie_compare. cbn [fst snd]. rewrite !be_compare by (rewrite ?length_take, ?length_drop; done || lia).
  rewrite <- lex_compare_app, !take_drop by (rewrite !length_take; lia). done.
Qed.

Lemma fixed_string_16_value verify s :
  fits_string 16 s →
  fixed_string_16 verify s
  = Ok (be_value (take 8 (pad 16 (octets s))), be_value (drop 8 (pad 16 (octets s)))).
Proof.
  intros [Hn Hf]. unfold fixed_string_16. rewrite assign_fits by done. cbn [mbind result_bind].
  rewrite big_to_native16_load; [done| |by apply length_pad].
  by apply octets_ok_pad, nul_free_octets.
Qed.

Lemma string16_roundtrip verify s :
  fits_string 16 s → ∃ x, fixed_string_16 verify s = Ok x ∧ to_string16 x = s.
Proof.
  intros Hs. eexists. split; [by apply fixed_string_16_value|]. destruct Hs as [Hn Hf].
  unfold to_string16. rewrite store16_native, strnlen_pad, take_pad, string_of_octets_octets;
    [done..|by apply octets_ok_pad, nul_free_octets|by apply length_pad].
Qed.

(** An account name is its string: for strings of at most 16 bytes without a zero byte
    construction succeeds, conversion back and [size] return the string and its length, and
    the comparison of the two words is the lexicographic comparison of the strings; a longer
    string is refused while truncation is being verified. *)
Theorem fixed_string_16_faithful (verify : bool) (s t : string) :
  fits_string 16 s → fits_string 16 t →
  (∃ x y, fixed_string_16 verify s = Ok x ∧ fixed_string_16 verify t = Ok y ∧
    to_string16 x = s ∧ size16 x = Z.of_nat (length (octets s)) ∧
    fixed_ltb x y = String.ltb s t ∧ fixed_eqb x y = String.eqb s t) ∧
  (∀ u, (16 < length (octets u))%nat →
    fixed_string_16 true u = Throw (assert_exception "Input too large")).
Proof.
  intros Hs Ht. split.
  - eexists _, _. rewrite !fixed_string_16_value by done. do 2 (split; [done|]).
    destruct Hs as [Hn Hf], Ht as [Hm Hg].
    pose proof (length_pad 16 _ Hn). pose proof (length_pad 16 _ Hm).
    pose proof (octets_ok_pad 16 _ (nul_free_octets _ Hf)).
    pose proof (octets_ok_pad 16 _ (nul_free_octets _ Hg)).
    unfold to_string16, size16, fixed_ltb, fixed_eqb.
    rewrite store16_native, strnlen_pad, take_pad, string_of_octets_octets by done.
    rewrite tie_compare_bytes, lex_compare_pad, lex_compare_string by done.
    do 2 (split; [done|]). split; [done|].
    pose proof (String.compare_eq_iff s t) as Hc. destruct (String.eqb_spec s t) as [->|Hne].
    + by rewrite <- lex_compare_string, lex_compare_refl.
    + destruct (String.compare s t); [by specialize (Hc eq_refl)|done..].
  - intros u Hu. unfold fixed_string_16, assign.
    by rewrite (proj2 (Nat.leb_gt _ _) Hu).
Qed.
End reversal.

(** The byte swap of the machine satisfies the documentation of [endian_reverse]. *)
Definition bswap64 (x : Z) : Z := of_le_bytes (reverse (le_bytes 8 x)).

Lemma octets_ok_le_bytes n x : octets_ok (le_bytes n x).
Proof.
  revert x. induction n as [|n IH]; intros x; [constructor|]. cbn [le_bytes].
  constructor; [apply Z.mod_pos_bound; lia|apply IH].
Qed.

Lemma bswap64_laws : @EndianReverse64Laws bswap64.
Proof.
  intros x Hx. unfold endian_reverse64, bswap64.
  pose proof (octets_ok_reverse _ (octets_ok_le_bytes 8 x)) as Ho.
  pose proof (of_le_bytes_bound _ Ho) as B. pose proof (le_bytes_of_le_bytes _ Ho) as E.
  rewrite length_reverse, length_le_bytes in B, E. split; [|done].
  unfold u64_max. change (2 ^ _) with 18446744073709551616 in B. lia.
Qed.

Lemma fixed_string_16_faithful_witness :
  ∃ x y, @fixed_string_16 bswap64 true "alice" = Ok x ∧ @fixed_string_16 bswap64 true "bob" = Ok y ∧
    fixed_ltb x y = true ∧ @to_string16 bswap64 x = "alice"%string.
Proof.
  destruct (@fixed_string_16_faithful bswap64 bswap64_laws true "alice" "bob")
    as [(x & y & Hx & Hy & Hs & _ & Hlt & _) _].
  - split; [vm_compute; lia|repeat constructor].
  - split; [vm_compute; lia|repeat constructor].
  - exists x, y. split_and!; [exact Hx|exact Hy|exact Hlt|exact Hs].
Defined.

(** ** [fixed_string<32>] *)

Section reversal128.
Context `{EndianReverse64Laws}.

(** The value of sixteen bytes: the second half is the more significant one. *)
Definition halves_value (l : list Z) : Z := be_value (drop 8 l) * 2 ^ 64 + be_value (take 8 l).

Lemma to_uint128_value hi lo :
  0 ≤ hi < 2 ^ 64 → 0 ≤ lo < 2 ^ 64 → to_uint128 hi lo = hi * 2 ^ 64 + lo.
Proof.
  intros Hh Hl. unfold to_uint128. rewrite u128_id.
  - by apply lor_shiftl_add.
  - rewrite Z.shiftl_mul_pow2 by lia. unfold u128_max.
    change (2 ^ 64) with 18446744073709551616 in *. lia.
Qed.

Lemma uint128_bits hi lo :
  0 ≤ hi < 2 ^ 64 → 0 ≤ lo < 2 ^ 64 →
  uint128_high_bits (hi * 2 ^ 64 + lo) = hi ∧ uint128_low_bits (hi * 2 ^ 64 + lo) = lo.
Proof.
  intros Hh Hl. unfold uint128_high_bits, uint128_low_bits, u64, wrapu.
  rewrite Z.shiftr_div_pow2, Z.div_add_l, (Z.div_small lo), Z.add_0_r by lia.
  rewrite Z.add_comm, Z.mod_add, !Z.mod_small by lia. done.
Qed.

Lemma halves l :
  octets_ok l → length l = 16%nat →
  octets_ok (take 8 l) ∧ octets_ok (drop 8 l) ∧
  length (take 8 l) = 8%nat ∧ length (drop 8 l) = 8%nat ∧
  of_le_bytes l = of_le_bytes (drop 8 l) * 2 ^ 64 + of_le_bytes (take 8 l).
Proof.
  intros Hl Hn. destruct (octets_ok_take_drop 8 l Hl) as [H1 H2].
  split_and!; [done..|rewrite length_take; lia|rewrite length_drop; lia|].
  rewrite <- (take_drop 8 l) at 1. rewrite of_le_bytes_app, length_take.
  replace (8 `min` length l)%nat with 8%nat by lia. change (2 ^ (8 * Z.of_nat 8)) with (2 ^ 64). lia.
Qed.

Lemma reverse128_of_bytes l :
  octets_ok l → length l = 16%nat → endian_reverse128 (of_le_bytes l) = halves_value l.
Proof.
  intros Hl Hn. destruct (halves l Hl Hn) as (H1 & H2 & L1 & L2 & ->).
  pose proof (of_le_bytes_bound _ H1) as B1. pose proof (of_le_bytes_bound _ H2) as B2.
  pose proof (be_value_bound _ H1) as C1. pose proof (be_value_bound _ H2) as C2.
  rewrite L1 in B1, C1. rewrite L2 in B2, C2. unfold endian_reverse128, halves_value.
  destruct (uint128_bits _ _ B2 B1) as [-> ->].
  rewrite !reverse64_of_bytes by done. by apply to_uint128_value.
Qed.

Lemma le_bytes_reverse128 l :
  octets_ok l → length l = 16%nat → le_bytes 16 (endian_reverse128 (halves_value l)) = l.
Proof.
  intros Hl Hn. destruct (halves l Hl Hn) as (H1 & H2 & L1 & L2 & _).
  pose proof (be_value_bound _ H1) as C1. pose proof (be_value_bound _ H2) as C2.
  rewrite L1 in C1. rewrite L2 in C2. unfold endian_reverse128, halves_value.
  destruct (uint128_bits _ _ C2 C1) as [-> ->].
  assert (∀ k, octets_ok k → length k = 8%nat → 0 ≤ endian_reverse64 (be_value k) < 2 ^ 64) as Hb.
  { intros k Hk Hlk. pose proof (be_value_bound k Hk) as B. rewrite Hlk in B.
    destruct (endian_reverse64_bytes (be_value k)) as [Hr _]; unfold u64_max in *;
      change (2 ^ _) with 18446744073709551616 in *; lia. }
  pose proof (Hb _ H1 L1) as B1. rewrite to_uint128_value by auto.
  rewrite (le_bytes_app 8 8). change (8 * Z.of_nat 8) with 64.
  rewrite Z.shiftr_div_pow2, Z.div_add_l, (Z.div_small (endian_reverse64 (be_value (take 8 l)))) by lia.
  rewrite Z.add_0_r, reverse64_be_value by done.
  assert (∀ a b, 0 ≤ b < 2 ^ 64 → le_bytes 8 (a * 2 ^ 64 + b) = le_bytes 8 b) as ->.
  { intros a b Hab. rewrite <- (le_bytes_of_le_bytes (le_bytes 8 (a * 2 ^ 64 + b)))
      by apply octets_ok_le_bytes.
    rewrite length_le_bytes, of_le_bytes_le_bytes. change (8 * Z.of_nat 8) with 64.
    by rewrite Z.add_comm, Z.mod_add, Z.mod_small by lia. }
  - rewrite reverse64_be_value by done. apply take_drop.
  - done.
Qed.

Lemma fixed_string_32_value verify s :
  fits_string 32 s → fixed_string_32 verify s =
    Ok (halves_value (take 16 (pad 32 (octets s))), halves_value (drop 16 (pad 32 (octets s)))).
Proof.
  intros [Hn Hf]. unfold fixed_string_32. rewrite assign_fits by done. cbn [mbind result_bind].
  destruct (octets_ok_take_drop 16 (pad 32 (octets s))) as [H1 H2];
    [by apply octets_ok_pad, nul_free_octets|].
  pose proof (length_pad 32 _ Hn) as Hp.
  rewrite !reverse128_of_bytes; [done|done|rewrite length_drop; lia|done|rewrite length_take; lia].
Qed.

Lemma string32_roundtrip verify s :
  fits_string 32 s → ∃ x, fixed_string_32 verify s = Ok x ∧ to_string32 x = s.
Proof.
  intros Hs. pose proof Hs as [Hn Hf]. rewrite fixed_string_32_value by done. eexists. split; [done|].
  destruct (octets_ok_take_drop 16 (pad 32 (octets s))) as [H1 H2];
    [by apply octets_ok_pad, nul_free_octets|].
  pose proof (length_pad 32 _ Hn) as Hp. unfold to_string32. cbn [fst snd].
  rewrite !le_bytes_reverse128, take_drop
    by (done || (rewrite ?length_take, ?length_drop; lia)).
  by rewrite strnlen_pad, take_pad, string_of_octets_octets.
Qed.

(** The 32-byte strings also come back as they were, but their comparison is not that
    of the strings: each half is compared by its last eight bytes first, so that
    ["aaaaaaaab"] is not below ["b"]. *)
Theorem fixed_string_32_order (verify : bool) :
  (∀ s, fits_string 32 s → ∃ x, fixed_string_32 verify s = Ok x ∧ to_string32 x = s) ∧
  (∃ x y, fixed_string_32 verify "aaaaaaaab" = Ok x ∧ fixed_string_32 verify "b" = Ok y ∧
    String.ltb "aaaaaaaab" "b" = true ∧ fixed_ltb x y = false ∧ fixed_ltb y x = true).
Proof.
  split; [apply string32_roundtrip|].
  assert (fits_string 32 "aaaaaaaab") by (split; [vm_compute; lia|repeat constructor]).
  assert (fits_string 32 "b") by (split; [vm_compute; lia|repeat constructor]).
  rewrite !fixed_string_32_value by done. eexists _, _. split_and!; [done..| |]; by vm_compute.
Qed.
End reversal128.

Lemma fixed_string_32_order_witness :
  ∃ x, @fixed_string_32 bswap64 true "community" = Ok x ∧ @to_string32 bswap64 x = "community"%string.
Proof.
  apply (@fixed_string_32_order bswap64 bswap64_laws true).
  split; [vm_compute; lia|repeat constructor].
Defined.
