(* ===== verification/Version.v ===== *)
(** * Versions

    [src/libraries/protocol/version.cpp] and [version.hpp]: the version of a node and of a
    hardfork, packed into 32 bits, and the comparison that is meant to ignore the change of
    the major number from 0 to 1. *)

From S2P Require Import Prelude.

(** [v_num]. *)
Definition version : Set := Z.

Definition make_version (m h r : Z) : version :=
  let v_num := u32 (Z.shiftl (Z.lor 0 m) 8) in
  let v_num := u32 (Z.shiftl (Z.lor v_num h) 16) in
  Z.lor v_num r.

Definition major_v (v : version) : Z := Z.shiftr (Z.land v 4278190080) 24.
Definition minor_v (v : version) : Z := Z.shiftr (Z.land v 16711680) 16.
Definition rev_v (v : version) : Z := Z.land v 65535.

Inductive operator_type : Set := equal | not_equal | less | less_equal | greater | greater_equal.

(** The right operand as [_operator] sees it: the major numbers 0 and 1 are adjusted. *)
Definition adjusted (v : version) (val : Z) : Z :=
  let _val := Z.shiftr (Z.land val 4278190080) 24 in
  if (major_v v =? 0) && (_val =? 1) then Z.land val 16777215
  else if (major_v v =? 1) && (_val =? 0) then Z.land val 33554431
  else val.

Definition version_operator (op_type : operator_type) (val_call : Z → Z) (v : version) (val : Z) : bool :=
  let val := adjusted v val in
  match op_type with
  | equal => v =? val_call val
  | not_equal => negb (v =? val_call val)
  | less => v <? val_call val
  | less_equal => v <=? val_call val
  | greater => val_call val <? v
  | greater_equal => val_call val <=? v
  end.

(** The operators of [version], and of [hardfork_version] on two hardfork versions. *)
Definition version_op (op_type : operator_type) (v o : version) : bool :=
  version_operator op_type id v o.

(** [hardfork_version( version )] and its comparison with a [version]. *)
Definition hardfork_mask (val : Z) : Z := Z.land val 4294901760.
Definition hardfork_version (v : version) : version := hardfork_mask v.
Definition hardfork_op (op_type : operator_type) (v o : version) : bool :=
  version_operator op_type hardfork_mask v o.

(** ** The packing *)

Definition packed (m h r : Z) : Z := m * 2 ^ 24 + h * 2 ^ 16 + r.

Definition fields_ok (m h r : Z) : Prop := 0 ≤ m < 2 ^ 8 ∧ 0 ≤ h < 2 ^ 8 ∧ 0 ≤ r < 2 ^ 16.

Lemma make_version_eq m h r : fields_ok m h r → make_version m h r = packed m h r.
Proof.
  intros (Hm & Hh & Hr). unfold make_version, packed.
  rewrite Z.lor_0_l, (Z.shiftl_mul_pow2 m) by lia.
  rewrite (u32_id (m * 2 ^ 8)) by (unfold u32_max; lia).
  rewrite <- (Z.shiftl_mul_pow2 m 8), lor_shiftl_add by lia.
  rewrite (Z.shiftl_mul_pow2 (m * 2 ^ 8 + h)) by lia.
  rewrite u32_id by (unfold u32_max; lia).
  rewrite <- (Z.shiftl_mul_pow2 _ 16), lor_shiftl_add by lia. lia.
Qed.

(** Selecting the bits from [lo] up to [hi]. *)
Lemma bit_field v lo hi :
  0 ≤ lo ≤ hi → Z.shiftr (Z.land v (2 ^ hi - 2 ^ lo)) lo = v / 2 ^ lo mod 2 ^ (hi - lo).
Proof.
  intros H. rewrite Z.shiftr_land.
  replace (Z.shiftr (2 ^ hi - 2 ^ lo) lo) with (2 ^ (hi - lo) - 1).
  - by rewrite land_mask, Z.shiftr_div_pow2 by lia.
  - rewrite Z.shiftr_div_pow2 by lia.
    replace (2 ^ hi - 2 ^ lo) with ((2 ^ (hi - lo) - 1) * 2 ^ lo).
    + symmetry. apply Z.div_mul. lia.
    + rewrite Z.mul_sub_distr_r, <- Z.pow_add_r by lia. f_equal; [f_equal|]; lia.
Qed.

Lemma packed_fields m h r :
  fields_ok m h r →
  packed m h r / 2 ^ 24 = m ∧ packed m h r / 2 ^ 16 mod 2 ^ 8 = h ∧ packed m h r mod 2 ^ 16 = r ∧
  packed m h r mod 2 ^ 24 = packed 0 h r.
Proof.
  intros (Hm & Hh & Hr). unfold packed. split_and!.
  - symmetry. apply (Z.div_unique _ _ _ (h * 2 ^ 16 + r)); lia.
  - replace ((m * 2 ^ 24 + h * 2 ^ 16 + r) / 2 ^ 16) with (m * 2 ^ 8 + h)
      by (apply (Z.div_unique _ _ _ r); lia).
    symmetry. apply (Z.mod_unique _ _ m); lia.
  - symmetry. apply (Z.mod_unique _ _ (m * 2 ^ 8 + h)); lia.
  - symmetry. apply (Z.mod_unique _ _ m); lia.
Qed.

Lemma major_packed m h r : fields_ok m h r → major_v (packed m h r) = m.
Proof.
  intros H. unfold major_v. change 4278190080 with (2 ^ 32 - 2 ^ 24). rewrite bit_field by lia.
  destruct (packed_fields m h r H) as (-> & _). apply Z.mod_small. destruct H. lia.
Qed.

Lemma minor_packed m h r : fields_ok m h r → minor_v (packed m h r) = h.
Proof.
  intros H. unfold minor_v. change 16711680 with (2 ^ 24 - 2 ^ 16). rewrite bit_field by lia.
  change (24 - 16) with 8. by destruct (packed_fields m h r H) as (_ & -> & _).
Qed.

Lemma rev_packed m h r : fields_ok m h r → rev_v (packed m h r) = r.
Proof.
  intros H. unfold rev_v. change 65535 with (2 ^ 16 - 1). rewrite land_mask by lia.
  by destruct (packed_fields m h r H) as (_ & _ & -> & _).
Qed.

Lemma adjusted_packed m h r m' h' r' :
  fields_ok m h r → fields_ok m' h' r' →
  adjusted (packed m h r) (packed m' h' r') =
    if (m =? 0) && (m' =? 1) then packed 0 h' r' else packed m' h' r'.
Proof.
  intros H H'. unfold adjusted. fold (major_v (packed m' h' r')).
  rewrite !major_packed by done.
  destruct ((m =? 0) && (m' =? 1)) eqn:E.
  - change 16777215 with (2 ^ 24 - 1). rewrite land_mask by lia.
    by destruct (packed_fields m' h' r' H') as (_ & _ & _ & ->).
  - destruct ((m =? 1) && (m' =? 0)) eqn:E'; [|done]. bool_to_prop. destruct E' as [-> ->].
    change 33554431 with (2 ^ 25 - 1). rewrite land_mask by lia. apply Z.mod_small.
    destruct H' as (? & ? & ?). unfold packed. lia.
Qed.

(** The order of the hardfork number and the revision. *)
Definition hr_compare (h r h' r' : Z) : comparison :=
  match h ?= h' with Eq => r ?= r' | c => c end.

Definition holds_of (op_type : operator_type) (c : comparison) : bool :=
  match op_type, c with
  | equal, Eq | not_equal, (Lt | Gt) | less, Lt | less_equal, (Lt | Eq) | greater, Gt
  | greater_equal, (Gt | Eq) => true
  | _, _ => false
  end.

Lemma operator_compare op a b :
  match op with
  | equal => a =? b
  | not_equal => negb (a =? b)
  | less => a <? b
  | less_equal => a <=? b
  | greater => b <? a
  | greater_equal => b <=? a
  end = holds_of op (a ?= b).
Proof.
  destruct op; destruct (Z.compare_spec a b); cbn;
    repeat match goal with
    | |- context [?x =? ?y] => destruct (Z.eqb_spec x y)
    | |- context [?x <? ?y] => destruct (Z.ltb_spec x y)
    | |- context [?x <=? ?y] => destruct (Z.leb_spec x y)
    end; cbn; done || lia.
Qed.

Lemma packed_compare m h r h' r' :
  fields_ok m h r → fields_ok m h' r' → (packed m h r ?= packed m h' r') = hr_compare h r h' r'.
Proof.
  intros (? & ? & ?) (? & ? & ?). unfold packed, hr_compare.
  destruct (Z.compare_spec h h') as [->|Hlt|Hgt].
  - destruct (Z.compare_spec r r') as [->|?|?];
      [by rewrite Z.compare_refl|apply Z.compare_lt_iff; lia|apply Z.compare_gt_iff; lia].
  - apply Z.compare_lt_iff. lia.
  - apply Z.compare_gt_iff. lia.
Qed.

(** The fields of a version are read back as they were packed, and each comparison
    operator compares the hardfork number and then the revision when the major numbers are
    equal, and also when the left one is 0 and the right one is 1.  With the operands
    exchanged, 1 on the left and 0 on the right, the left version is the greater one
    whatever the hardfork numbers are, so that equality is not symmetric. *)
Theorem version_comparison (op : operator_type) (m h r h' r' : Z) :
  fields_ok m h r → fields_ok m h' r' →
  let v := make_version m h r in
  (major_v v = m ∧ minor_v v = h ∧ rev_v v = r) ∧
  version_op op v (make_version m h' r') = holds_of op (hr_compare h r h' r') ∧
  version_op op (make_version 0 h r) (make_version 1 h' r') = holds_of op (hr_compare h r h' r') ∧
  version_op op (make_version 1 h r) (make_version 0 h' r') = holds_of op Gt.
Proof.
  intros H H'. assert (∀ k, 0 ≤ k < 2 ^ 8 → fields_ok k h r ∧ fields_ok k h' r') as Hk.
  { intros k ?. destruct H as (_ & ?), H' as (_ & ?). by split. }
  destruct (Hk 0 ltac:(lia)) as [H0 H0'], (Hk 1 ltac:(lia)) as [H1 H1'].
  cbv zeta. rewrite !make_version_eq by done.
  split; [by rewrite major_packed, minor_packed, rev_packed|].
  unfold version_op, version_operator. cbv zeta. unfold id.
  rewrite !adjusted_packed, !operator_compare by done. split_and!.
  - replace ((m =? 0) && (m =? 1)) with false
      by (destruct (Z.eqb_spec m 0), (Z.eqb_spec m 1); done || lia).
    by rewrite packed_compare.
  - change (0 =? 0) with true; change (1 =? 1) with true; change (1 =? 0) with false; change (0 =? 1) with false; cbn [andb]. by rewrite packed_compare.
  - change (0 =? 0) with true; change (1 =? 1) with true; change (1 =? 0) with false; change (0 =? 1) with false; cbn [andb]. rewrite (proj2 (Z.compare_gt_iff _ _)); [done|].
    destruct H0 as (_ & ? & ?), H0' as (_ & ? & ?). unfold packed. lia.
Qed.

Lemma version_comparison_witness :
  version_op equal (make_version 0 24 5) (make_version 1 24 5) = true ∧
  version_op equal (make_version 1 24 5) (make_version 0 24 5) = false.
Proof.
  assert (fields_ok 1 24 5) as H by (unfold fields_ok; lia).
  destruct (version_comparison equal 1 24 5 24 5 H H) as (_ & _ & E1 & E2).
  split; [exact E1|exact E2].
Defined.
