(* ===== verification/OperationTypes.v ===== *)
(** * The types of operations

    The operation structs of [src/libraries/protocol]: [hive_operations.hpp],
    [dhf_operations.hpp] and [hive_virtual_operations.hpp], in the order of the
    [static_variant] of [operations.hpp].  A record has the fields of its struct, with the
    struct's name before each (so [vote_voter] is the field [voter] of [vote_operation]).

    An [account_name_type] is the string its 16 bytes hold (see [FixedString] for the
    representation and its order).  A public key is the number its bytes denote, the first
    byte being the most significant one, so that keys are ordered as their bytes are; in a
    digest and a signature, which are only compared for equality, it is the least
    significant one. *)

From S2P Require Import Prelude AssetSymbol Asset ForkDatabase Authority.

Definition account_name_type : Set := string.
Definition custom_id_type : Set := string.
Definition public_key_type : Set := Z.
Definition digest_type : Set := Z.
Definition signature_type : Set := Z.
Definition time_point_sec : Set := Z.

(** The [tiny_asset]s: amounts whose symbol is fixed by the type. *)
Definition HBD_asset : Set := Z.
Definition HIVE_asset : Set := Z.
Definition VEST_asset : Set := Z.

(** ** Parts of operations *)

Inductive future_extensions : Set := void_t.

Record legacy_hive_asset : Set := LegacyHiveAsset { leg_amount : Z; leg_ser : Z }.

Record beneficiary_route_type : Set := {
  beneficiary_account : account_name_type;
  beneficiary_weight : Z;
}.

Record comment_payout_beneficiaries : Set := {
  payout_beneficiaries : list beneficiary_route_type;
}.

Inductive comment_options_extension : Set :=
| ext_beneficiaries (cpb : comment_payout_beneficiaries).

Record legacy_chain_properties : Set := {
  chain_account_creation_fee : legacy_hive_asset;
  chain_maximum_block_size : Z;
  chain_hbd_interest_rate : Z;
}.

(** [fc::equihash::proof]. *)
Record equihash_proof : Set := {
  proof_n : Z;
  proof_k : Z;
  proof_seed : digest_type;
  proof_inputs : list Z;
}.

Record pow : Set := {
  work_worker : public_key_type;
  work_input : digest_type;
  work_signature : signature_type;
  work_work : digest_type;
}.

Record pow2_input : Set := {
  input_worker_account : account_name_type;
  input_prev_block : block_id_type;
  input_nonce : Z;
}.

Record pow2 : Set := {
  p2_input : pow2_input;
  p2_pow_summary : Z;
}.

Record equihash_pow : Set := {
  eq_input : pow2_input;
  eq_proof : equihash_proof;
  eq_prev_block : block_id_type;
  eq_pow_summary : Z;
}.

Inductive pow2_work : Set :=
| work_pow2 (w : pow2)
| work_equihash (w : equihash_pow).

Record recurrent_transfer_pair_id : Set := {
  rt_pair_id : Z;
}.

Inductive recurrent_transfer_extension : Set :=
| rt_void
| rt_pair (p : recurrent_transfer_pair_id).

Record update_proposal_end_date : Set := {
  up_end_date : time_point_sec;
}.

Inductive update_proposal_extension : Set :=
| up_void
| up_end (e : update_proposal_end_date).

(** ** Regular operations *)

Record vote_operation : Set := {
  vote_voter : account_name_type;
  vote_author : account_name_type;
  vote_permlink : string;
  vote_weight : Z;
}.

Record comment_operation : Set := {
  comment_parent_author : account_name_type;
  comment_parent_permlink : string;
  comment_author : account_name_type;
  comment_permlink : string;
  comment_title : string;
  comment_body : string;
  comment_json_metadata : string;
}.

Record transfer_operation : Set := {
  transfer_from : account_name_type;
  transfer_to : account_name_type;
  transfer_amount : asset;
  transfer_memo : string;
}.

Record transfer_to_vesting_operation : Set := {
  transfer_to_vesting_from : account_name_type;
  transfer_to_vesting_to : account_name_type;
  transfer_to_vesting_amount : asset;
}.

Record withdraw_vesting_operation : Set := {
  withdraw_vesting_account : account_name_type;
  withdraw_vesting_vesting_shares : asset;
}.

Record limit_order_create_operation : Set := {
  limit_order_create_owner : account_name_type;
  limit_order_create_orderid : Z;
  limit_order_create_amount_to_sell : asset;
  limit_order_create_min_to_receive : asset;
  limit_order_create_fill_or_kill : bool;
  limit_order_create_expiration : time_point_sec;
}.

Record limit_order_cancel_operation : Set := {
  limit_order_cancel_owner : account_name_type;
  limit_order_cancel_orderid : Z;
}.

Record feed_publish_operation : Set := {
  feed_publish_publisher : account_name_type;
  feed_publish_exchange_rate : price;
}.

Record convert_operation : Set := {
  convert_owner : account_name_type;
  convert_requestid : Z;
  convert_amount : asset;
}.

Record account_create_operation : Set := {
  account_create_fee : asset;
  account_create_creator : account_name_type;
  account_create_new_account_name : account_name_type;
  account_create_owner : authority;
  account_create_active : authority;
  account_create_posting : authority;
  account_create_memo_key : public_key_type;
  account_create_json_metadata : string;
}.

Record account_update_operation : Set := {
  account_update_account : account_name_type;
  account_update_owner : option authority;
  account_update_active : option authority;
  account_update_posting : option authority;
  account_update_memo_key : public_key_type;
  account_update_json_metadata : string;
}.

Record witness_update_operation : Set := {
  witness_update_owner : account_name_type;
  witness_update_url : string;
  witness_update_block_signing_key : public_key_type;
  witness_update_props : legacy_chain_properties;
  witness_update_fee : asset;
}.

Record account_witness_vote_operation : Set := {
  account_witness_vote_account : account_name_type;
  account_witness_vote_witness : account_name_type;
  account_witness_vote_approve : bool;
}.

Record account_witness_proxy_operation : Set := {
  account_witness_proxy_account : account_name_type;
  account_witness_proxy_proxy : account_name_type;
}.

Record pow_operation : Set := {
  powop_worker_account : account_name_type;
  powop_block_id : block_id_type;
  powop_nonce : Z;
  powop_work : pow;
  powop_props : legacy_chain_properties;
}.

Record custom_operation : Set := {
  custom_required_auths : list account_name_type;
  custom_id : Z;
  custom_data : list Z;
}.

Record witness_block_approve_operation : Set := {
  witness_block_approve_witness : account_name_type;
  witness_block_approve_block_id : block_id_type;
}.

Record delete_comment_operation : Set := {
  delete_comment_author : account_name_type;
  delete_comment_permlink : string;
}.

Record custom_json_operation : Set := {
  custom_json_required_auths : list account_name_type;
  custom_json_required_posting_auths : list account_name_type;
  custom_json_id : custom_id_type;
  custom_json_json : string;
}.

Record comment_options_operation : Set := {
  comment_options_author : account_name_type;
  comment_options_permlink : string;
  comment_options_max_accepted_payout : asset;
  comment_options_percent_hbd : Z;
  comment_options_allow_votes : bool;
  comment_options_allow_curation_rewards : bool;
  comment_options_extensions : list comment_options_extension;
}.

Record set_withdraw_vesting_route_operation : Set := {
  set_withdraw_vesting_route_from_account : account_name_type;
  set_withdraw_vesting_route_to_account : account_name_type;
  set_withdraw_vesting_route_percent : Z;
  set_withdraw_vesting_route_auto_vest : bool;
}.

Record limit_order_create2_operation : Set := {
  limit_order_create2_owner : account_name_type;
  limit_order_create2_orderid : Z;
  limit_order_create2_amount_to_sell : asset;
  limit_order_create2_fill_or_kill : bool;
  limit_order_create2_exchange_rate : price;
  limit_order_create2_expiration : time_point_sec;
}.

Record claim_account_operation : Set := {
  claim_account_creator : account_name_type;
  claim_account_fee : asset;
  claim_account_extensions : list future_extensions;
}.

Record create_claimed_account_operation : Set := {
  create_claimed_account_creator : account_name_type;
  create_claimed_account_new_account_name : account_name_type;
  create_claimed_account_owner : authority;
  create_claimed_account_active : authority;
  create_claimed_account_posting : authority;
  create_claimed_account_memo_key : public_key_type;
  create_claimed_account_json_metadata : string;
  create_claimed_account_extensions : list future_extensions;
}.

Record request_account_recovery_operation : Set := {
  request_account_recovery_recovery_account : account_name_type;
  request_account_recovery_account_to_recover : account_name_type;
  request_account_recovery_new_owner_authority : authority;
  request_account_recovery_extensions : list future_extensions;
}.

Record recover_account_operation : Set := {
  recover_account_account_to_recover : account_name_type;
  recover_account_new_owner_authority : authority;
  recover_account_recent_owner_authority : authority;
  recover_account_extensions : list future_extensions;
}.

Record change_recovery_account_operation : Set := {
  change_recovery_account_account_to_recover : account_name_type;
  change_recovery_account_new_recovery_account : account_name_type;
  change_recovery_account_extensions : list future_extensions;
}.

Record escrow_transfer_operation : Set := {
  escrow_transfer_from : account_name_type;
  escrow_transfer_to : account_name_type;
  escrow_transfer_agent : account_name_type;
  escrow_transfer_escrow_id : Z;
  escrow_transfer_hbd_amount : asset;
  escrow_transfer_hive_amount : asset;
  escrow_transfer_fee : asset;
  escrow_transfer_ratification_deadline : time_point_sec;
  escrow_transfer_escrow_expiration : time_point_sec;
  escrow_transfer_json_meta : string;
}.

Record escrow_dispute_operation : Set := {
  escrow_dispute_from : account_name_type;
  escrow_dispute_to : account_name_type;
  escrow_dispute_agent : account_name_type;
  escrow_dispute_who : account_name_type;
  escrow_dispute_escrow_id : Z;
}.

Record escrow_release_operation : Set := {
  escrow_release_from : account_name_type;
  escrow_release_to : account_name_type;
  escrow_release_agent : account_name_type;
  escrow_release_who : account_name_type;
  escrow_release_receiver : account_name_type;
  escrow_release_escrow_id : Z;
  escrow_release_hbd_amount : asset;
  escrow_release_hive_amount : asset;
}.

Record pow2_operation : Set := {
  pow2op_work : pow2_work;
  pow2op_new_owner_key : option public_key_type;
  pow2op_props : legacy_chain_properties;
}.

Record escrow_approve_operation : Set := {
  escrow_approve_from : account_name_type;
  escrow_approve_to : account_name_type;
  escrow_approve_agent : account_name_type;
  escrow_approve_who : account_name_type;
  escrow_approve_escrow_id : Z;
  escrow_approve_approve : bool;
}.

Record transfer_to_savings_operation : Set := {
  transfer_to_savings_from : account_name_type;
  transfer_to_savings_to : account_name_type;
  transfer_to_savings_amount : asset;
  transfer_to_savings_memo : string;
}.

Record transfer_from_savings_operation : Set := {
  transfer_from_savings_from : account_name_type;
  transfer_from_savings_request_id : Z;
  transfer_from_savings_to : account_name_type;
  transfer_from_savings_amount : asset;
  transfer_from_savings_memo : string;
}.

Record cancel_transfer_from_savings_operation : Set := {
  cancel_transfer_from_savings_from : account_name_type;
  cancel_transfer_from_savings_request_id : Z;
}.

Record custom_binary_operation : Set := {
  custom_binary_required_owner_auths : list account_name_type;
  custom_binary_required_active_auths : list account_name_type;
  custom_binary_required_posting_auths : list account_name_type;
  custom_binary_required_auths : list authority;
  custom_binary_id : custom_id_type;
  custom_binary_data : list Z;
}.

Record decline_voting_rights_operation : Set := {
  decline_voting_rights_account : account_name_type;
  decline_voting_rights_decline : bool;
}.

Record reset_account_operation : Set := {
  reset_account_reset_account : account_name_type;
  reset_account_account_to_reset : account_name_type;
  reset_account_new_owner_authority : authority;
}.

Record set_reset_account_operation : Set := {
  set_reset_account_account : account_name_type;
  set_reset_account_current_reset_account : account_name_type;
  set_reset_account_reset_account : account_name_type;
}.

Record claim_reward_balance_operation : Set := {
  claim_reward_balance_account : account_name_type;
  claim_reward_balance_reward_hive : asset;
  claim_reward_balance_reward_hbd : asset;
  claim_reward_balance_reward_vests : asset;
}.

Record delegate_vesting_shares_operation : Set := {
  delegate_vesting_shares_delegator : account_name_type;
  delegate_vesting_shares_delegatee : account_name_type;
  delegate_vesting_shares_vesting_shares : asset;
}.

Record account_create_with_delegation_operation : Set := {
  account_create_with_delegation_fee : asset;
  account_create_with_delegation_delegation : asset;
  account_create_with_delegation_creator : account_name_type;
  account_create_with_delegation_new_account_name : account_name_type;
  account_create_with_delegation_owner : authority;
  account_create_with_delegation_active : authority;
  account_create_with_delegation_posting : authority;
  account_create_with_delegation_memo_key : public_key_type;
  account_create_with_delegation_json_metadata : string;
  account_create_with_delegation_extensions : list future_extensions;
}.

Record witness_set_properties_operation : Set := {
  witness_set_properties_owner : account_name_type;
  witness_set_properties_props : list (string * list Z);
  witness_set_properties_extensions : list future_extensions;
}.

Record account_update2_operation : Set := {
  account_update2_account : account_name_type;
  account_update2_owner : option authority;
  account_update2_active : option authority;
  account_update2_posting : option authority;
  account_update2_memo_key : option public_key_type;
  account_update2_json_metadata : string;
  account_update2_posting_json_metadata : string;
  account_update2_extensions : list future_extensions;
}.

Record create_proposal_operation : Set := {
  create_proposal_creator : account_name_type;
  create_proposal_receiver : account_name_type;
  create_proposal_start_date : time_point_sec;
  create_proposal_end_date : time_point_sec;
  create_proposal_daily_pay : asset;
  create_proposal_subject : string;
  create_proposal_permlink : string;
  create_proposal_extensions : list future_extensions;
}.

Record update_proposal_votes_operation : Set := {
  update_proposal_votes_voter : account_name_type;
  update_proposal_votes_proposal_ids : list Z;
  update_proposal_votes_approve : bool;
  update_proposal_votes_extensions : list future_extensions;
}.

Record remove_proposal_operation : Set := {
  remove_proposal_proposal_owner : account_name_type;
  remove_proposal_proposal_ids : list Z;
  remove_proposal_extensions : list future_extensions;
}.

Record update_proposal_operation : Set := {
  update_proposal_proposal_id : Z;
  update_proposal_creator : account_name_type;
  update_proposal_daily_pay : asset;
  update_proposal_subject : string;
  update_proposal_permlink : string;
  update_proposal_extensions : list update_proposal_extension;
}.

Record collateralized_convert_operation : Set := {
  collateralized_convert_owner : account_name_type;
  collateralized_convert_requestid : Z;
  collateralized_convert_amount : asset;
}.

Record recurrent_transfer_operation : Set := {
  recurrent_transfer_from : account_name_type;
  recurrent_transfer_to : account_name_type;
  recurrent_transfer_amount : asset;
  recurrent_transfer_memo : string;
  recurrent_transfer_recurrence : Z;
  recurrent_transfer_executions : Z;
  recurrent_transfer_extensions : list recurrent_transfer_extension;
}.

(** ** Virtual operations *)

Record fill_convert_request_operation : Set := {
  fill_convert_request_owner : account_name_type;
  fill_convert_request_requestid : Z;
  fill_convert_request_amount_in : HBD_asset;
  fill_convert_request_amount_out : HIVE_asset;
}.

Record author_reward_operation : Set := {
  author_reward_author : account_name_type;
  author_reward_permlink : string;
  author_reward_hbd_payout : HBD_asset;
  author_reward_hive_payout : HIVE_asset;
  author_reward_vesting_payout : VEST_asset;
  author_reward_curators_vesting_payout : VEST_asset;
  author_reward_payout_must_be_claimed : bool;
}.

Record curation_reward_operation : Set := {
  curation_reward_curator : account_name_type;
  curation_reward_reward : VEST_asset;
  curation_reward_author : account_name_type;
  curation_reward_permlink : string;
  curation_reward_payout_must_be_claimed : bool;
}.

Record comment_reward_operation : Set := {
  comment_reward_author : account_name_type;
  comment_reward_permlink : string;
  comment_reward_payout : HBD_asset;
  comment_reward_author_rewards : Z;
  comment_reward_total_payout_value : HBD_asset;
  comment_reward_curator_payout_value : HBD_asset;
  comment_reward_beneficiary_payout_value : HBD_asset;
}.

Record liquidity_reward_operation : Set := {
  liquidity_reward_owner : account_name_type;
  liquidity_reward_payout : HIVE_asset;
}.

Record interest_operation : Set := {
  interest_owner : account_name_type;
  interest_interest : HBD_asset;
  interest_is_saved_into_hbd_balance : bool;
}.

Record fill_vesting_withdraw_operation : Set := {
  fill_vesting_withdraw_from_account : account_name_type;
  fill_vesting_withdraw_to_account : account_name_type;
  fill_vesting_withdraw_withdrawn : VEST_asset;
  fill_vesting_withdraw_deposited : asset;
}.

Record fill_order_operation : Set := {
  fill_order_current_owner : account_name_type;
  fill_order_current_orderid : Z;
  fill_order_current_pays : asset;
  fill_order_open_owner : account_name_type;
  fill_order_open_orderid : Z;
  fill_order_open_pays : asset;
}.

Record shutdown_witness_operation : Set := {
  shutdown_witness_owner : account_name_type;
}.

Record fill_transfer_from_savings_operation : Set := {
  fill_transfer_from_savings_from : account_name_type;
  fill_transfer_from_savings_to : account_name_type;
  fill_transfer_from_savings_amount : asset;
  fill_transfer_from_savings_request_id : Z;
  fill_transfer_from_savings_memo : string;
}.

Record hardfork_operation : Set := {
  hardfork_hardfork_id : Z;
}.

Record comment_payout_update_operation : Set := {
  comment_payout_update_author : account_name_type;
  comment_payout_update_permlink : string;
}.

Record return_vesting_delegation_operation : Set := {
  return_vesting_delegation_account : account_name_type;
  return_vesting_delegation_vesting_shares : VEST_asset;
}.

Record comment_benefactor_reward_operation : Set := {
  comment_benefactor_reward_benefactor : account_name_type;
  comment_benefactor_reward_author : account_name_type;
  comment_benefactor_reward_permlink : string;
  comment_benefactor_reward_hbd_payout : HBD_asset;
  comment_benefactor_reward_hive_payout : HIVE_asset;
  comment_benefactor_reward_vesting_payout : VEST_asset;
  comment_benefactor_reward_payout_must_be_claimed : bool;
}.

Record producer_reward_operation : Set := {
  producer_reward_producer : account_name_type;
  producer_reward_vesting_shares : asset;
}.

Record clear_null_account_balance_operation : Set := {
  clear_null_account_balance_total_cleared : list asset;
}.

Record proposal_pay_operation : Set := {
  proposal_pay_proposal_id : Z;
  proposal_pay_receiver : account_name_type;
  proposal_pay_payer : account_name_type;
  proposal_pay_payment : HBD_asset;
}.

Record dhf_funding_operation : Set := {
  dhf_funding_treasury : account_name_type;
  dhf_funding_additional_funds : HBD_asset;
}.

Record hardfork_hive_operation : Set := {
  hardfork_hive_account : account_name_type;
  hardfork_hive_treasury : account_name_type;
  hardfork_hive_other_affected_accounts : list account_name_type;
  hardfork_hive_hbd_transferred : HBD_asset;
  hardfork_hive_hive_transferred : HIVE_asset;
  hardfork_hive_vests_converted : VEST_asset;
  hardfork_hive_total_hive_from_vests : HIVE_asset;
}.

Record hardfork_hive_restore_operation : Set := {
  hardfork_hive_restore_account : account_name_type;
  hardfork_hive_restore_treasury : account_name_type;
  hardfork_hive_restore_hbd_transferred : HBD_asset;
  hardfork_hive_restore_hive_transferred : HIVE_asset;
}.

Record delayed_voting_operation : Set := {
  delayed_voting_voter : account_name_type;
  delayed_voting_votes : Z;
}.

Record consolidate_treasury_balance_operation : Set := {
  consolidate_treasury_balance_total_moved : list asset;
}.

Record effective_comment_vote_operation : Set := {
  effective_comment_vote_voter : account_name_type;
  effective_comment_vote_author : account_name_type;
  effective_comment_vote_permlink : string;
  effective_comment_vote_weight : Z;
  effective_comment_vote_rshares : Z;
  effective_comment_vote_total_vote_weight : Z;
  effective_comment_vote_pending_payout : HBD_asset;
}.

Record ineffective_delete_comment_operation : Set := {
  ineffective_delete_comment_author : account_name_type;
  ineffective_delete_comment_permlink : string;
}.

Record dhf_conversion_operation : Set := {
  dhf_conversion_treasury : account_name_type;
  dhf_conversion_hive_amount_in : HIVE_asset;
  dhf_conversion_hbd_amount_out : HBD_asset;
}.

Record expired_account_notification_operation : Set := {
  expired_account_notification_account : account_name_type;
}.

Record changed_recovery_account_operation : Set := {
  changed_recovery_account_account : account_name_type;
  changed_recovery_account_old_recovery_account : account_name_type;
  changed_recovery_account_new_recovery_account : account_name_type;
}.

Record transfer_to_vesting_completed_operation : Set := {
  transfer_to_vesting_completed_from_account : account_name_type;
  transfer_to_vesting_completed_to_account : account_name_type;
  transfer_to_vesting_completed_hive_vested : HIVE_asset;
  transfer_to_vesting_completed_vesting_shares_received : VEST_asset;
}.

Record pow_reward_operation : Set := {
  pow_reward_worker : account_name_type;
  pow_reward_reward : asset;
}.

Record vesting_shares_split_operation : Set := {
  vesting_shares_split_owner : account_name_type;
  vesting_shares_split_vesting_shares_before_split : VEST_asset;
  vesting_shares_split_vesting_shares_after_split : VEST_asset;
}.

Record account_created_operation : Set := {
  account_created_new_account_name : account_name_type;
  account_created_creator : account_name_type;
  account_created_initial_vesting_shares : VEST_asset;
  account_created_initial_delegation : VEST_asset;
}.

Record fill_collateralized_convert_request_operation : Set := {
  fill_collateralized_convert_request_owner : account_name_type;
  fill_collateralized_convert_request_requestid : Z;
  fill_collateralized_convert_request_amount_in : HIVE_asset;
  fill_collateralized_convert_request_amount_out : HBD_asset;
  fill_collateralized_convert_request_excess_collateral : HIVE_asset;
}.

Record system_warning_operation : Set := {
  system_warning_message : string;
}.

Record fill_recurrent_transfer_operation : Set := {
  fill_recurrent_transfer_from : account_name_type;
  fill_recurrent_transfer_to : account_name_type;
  fill_recurrent_transfer_amount : asset;
  fill_recurrent_transfer_memo : string;
  fill_recurrent_transfer_remaining_executions : Z;
}.

Record failed_recurrent_transfer_operation : Set := {
  failed_recurrent_transfer_from : account_name_type;
  failed_recurrent_transfer_to : account_name_type;
  failed_recurrent_transfer_amount : asset;
  failed_recurrent_transfer_memo : string;
  failed_recurrent_transfer_consecutive_failures : Z;
  failed_recurrent_transfer_remaining_executions : Z;
  failed_recurrent_transfer_deleted : bool;
}.

Record limit_order_cancelled_operation : Set := {
  limit_order_cancelled_seller : account_name_type;
  limit_order_cancelled_orderid : Z;
  limit_order_cancelled_amount_back : asset;
}.

Record producer_missed_operation : Set := {
  producer_missed_producer : account_name_type;
}.

Record proposal_fee_operation : Set := {
  proposal_fee_creator : account_name_type;
  proposal_fee_treasury : account_name_type;
  proposal_fee_proposal_id : Z;
  proposal_fee_fee : HBD_asset;
}.

Record collateralized_convert_immediate_conversion_operation : Set := {
  collateralized_convert_immediate_conversion_owner : account_name_type;
  collateralized_convert_immediate_conversion_requestid : Z;
  collateralized_convert_immediate_conversion_hbd_out : HBD_asset;
}.

Record escrow_approved_operation : Set := {
  escrow_approved_from : account_name_type;
  escrow_approved_to : account_name_type;
  escrow_approved_agent : account_name_type;
  escrow_approved_escrow_id : Z;
  escrow_approved_fee : asset;
}.

Record escrow_rejected_operation : Set := {
  escrow_rejected_from : account_name_type;
  escrow_rejected_to : account_name_type;
  escrow_rejected_agent : account_name_type;
  escrow_rejected_escrow_id : Z;
  escrow_rejected_hbd_amount : HBD_asset;
  escrow_rejected_hive_amount : HIVE_asset;
  escrow_rejected_fee : asset;
}.

Record proxy_cleared_operation : Set := {
  proxy_cleared_account : account_name_type;
  proxy_cleared_proxy : account_name_type;
}.

Record declined_voting_rights_operation : Set := {
  declined_voting_rights_account : account_name_type;
}.

(** The constructor of [account_created_operation]. *)
Definition make_account_created (new_account_name creator : account_name_type)
    (initial_vesting delegation : VEST_asset) : result account_created_operation :=
  fc_assert (negb (String.eqb creator "")) "Every account should have a creator";;
  Ok (Build_account_created_operation new_account_name creator initial_vesting delegation).

(** ** The variant *)

Inductive operation : Set :=
| op_vote (o : vote_operation)
| op_comment (o : comment_operation)
| op_transfer (o : transfer_operation)
| op_transfer_to_vesting (o : transfer_to_vesting_operation)
| op_withdraw_vesting (o : withdraw_vesting_operation)
| op_limit_order_create (o : limit_order_create_operation)
| op_limit_order_cancel (o : limit_order_cancel_operation)
| op_feed_publish (o : feed_publish_operation)
| op_convert (o : convert_operation)
| op_account_create (o : account_create_operation)
| op_account_update (o : account_update_operation)
| op_witness_update (o : witness_update_operation)
| op_account_witness_vote (o : account_witness_vote_operation)
| op_account_witness_proxy (o : account_witness_proxy_operation)
| op_pow (o : pow_operation)
| op_custom (o : custom_operation)
| op_witness_block_approve (o : witness_block_approve_operation)
| op_delete_comment (o : delete_comment_operation)
| op_custom_json (o : custom_json_operation)
| op_comment_options (o : comment_options_operation)
| op_set_withdraw_vesting_route (o : set_withdraw_vesting_route_operation)
| op_limit_order_create2 (o : limit_order_create2_operation)
| op_claim_account (o : claim_account_operation)
| op_create_claimed_account (o : create_claimed_account_operation)
| op_request_account_recovery (o : request_account_recovery_operation)
| op_recover_account (o : recover_account_operation)
| op_change_recovery_account (o : change_recovery_account_operation)
| op_escrow_transfer (o : escrow_transfer_operation)
| op_escrow_dispute (o : escrow_dispute_operation)
| op_escrow_release (o : escrow_release_operation)
| op_pow2 (o : pow2_operation)
| op_escrow_approve (o : escrow_approve_operation)
| op_transfer_to_savings (o : transfer_to_savings_operation)
| op_transfer_from_savings (o : transfer_from_savings_operation)
| op_cancel_transfer_from_savings (o : cancel_transfer_from_savings_operation)
| op_custom_binary (o : custom_binary_operation)
| op_decline_voting_rights (o : decline_voting_rights_operation)
| op_reset_account (o : reset_account_operation)
| op_set_reset_account (o : set_reset_account_operation)
| op_claim_reward_balance (o : claim_reward_balance_operation)
| op_delegate_vesting_shares (o : delegate_vesting_shares_operation)
| op_account_create_with_delegation (o : account_create_with_delegation_operation)
| op_witness_set_properties (o : witness_set_properties_operation)
| op_account_update2 (o : account_update2_operation)
| op_create_proposal (o : create_proposal_operation)
| op_update_proposal_votes (o : update_proposal_votes_operation)
| op_remove_proposal (o : remove_proposal_operation)
| op_update_proposal (o : update_proposal_operation)
| op_collateralized_convert (o : collateralized_convert_operation)
| op_recurrent_transfer (o : recurrent_transfer_operation)
| op_fill_convert_request (o : fill_convert_request_operation)
| op_author_reward (o : author_reward_operation)
| op_curation_reward (o : curation_reward_operation)
| op_comment_reward (o : comment_reward_operation)
| op_liquidity_reward (o : liquidity_reward_operation)
| op_interest (o : interest_operation)
| op_fill_vesting_withdraw (o : fill_vesting_withdraw_operation)
| op_fill_order (o : fill_order_operation)
| op_shutdown_witness (o : shutdown_witness_operation)
| op_fill_transfer_from_savings (o : fill_transfer_from_savings_operation)
| op_hardfork (o : hardfork_operation)
| op_comment_payout_update (o : comment_payout_update_operation)
| op_return_vesting_delegation (o : return_vesting_delegation_operation)
| op_comment_benefactor_reward (o : comment_benefactor_reward_operation)
| op_producer_reward (o : producer_reward_operation)
| op_clear_null_account_balance (o : clear_null_account_balance_operation)
| op_proposal_pay (o : proposal_pay_operation)
| op_dhf_funding (o : dhf_funding_operation)
| op_hardfork_hive (o : hardfork_hive_operation)
| op_hardfork_hive_restore (o : hardfork_hive_restore_operation)
| op_delayed_voting (o : delayed_voting_operation)
| op_consolidate_treasury_balance (o : consolidate_treasury_balance_operation)
| op_effective_comment_vote (o : effective_comment_vote_operation)
| op_ineffective_delete_comment (o : ineffective_delete_comment_operation)
| op_dhf_conversion (o : dhf_conversion_operation)
| op_expired_account_notification (o : expired_account_notification_operation)
| op_changed_recovery_account (o : changed_recovery_account_operation)
| op_transfer_to_vesting_completed (o : transfer_to_vesting_completed_operation)
| op_pow_reward (o : pow_reward_operation)
| op_vesting_shares_split (o : vesting_shares_split_operation)
| op_account_created (o : account_created_operation)
| op_fill_collateralized_convert_request (o : fill_collateralized_convert_request_operation)
| op_system_warning (o : system_warning_operation)
| op_fill_recurrent_transfer (o : fill_recurrent_transfer_operation)
| op_failed_recurrent_transfer (o : failed_recurrent_transfer_operation)
| op_limit_order_cancelled (o : limit_order_cancelled_operation)
| op_producer_missed (o : producer_missed_operation)
| op_proposal_fee (o : proposal_fee_operation)
| op_collateralized_convert_immediate_conversion (o : collateralized_convert_immediate_conversion_operation)
| op_escrow_approved (o : escrow_approved_operation)
| op_escrow_rejected (o : escrow_rejected_operation)
| op_proxy_cleared (o : proxy_cleared_operation)
| op_declined_voting_rights (o : declined_voting_rights_operation).

(** [which]. *)
Definition which (op : operation) : Z :=
  match op with
  | op_vote _ => 0
  | op_comment _ => 1
  | op_transfer _ => 2
  | op_transfer_to_vesting _ => 3
  | op_withdraw_vesting _ => 4
  | op_limit_order_create _ => 5
  | op_limit_order_cancel _ => 6
  | op_feed_publish _ => 7
  | op_convert _ => 8
  | op_account_create _ => 9
  | op_account_update _ => 10
  | op_witness_update _ => 11
  | op_account_witness_vote _ => 12
  | op_account_witness_proxy _ => 13
  | op_pow _ => 14
  | op_custom _ => 15
  | op_witness_block_approve _ => 16
  | op_delete_comment _ => 17
  | op_custom_json _ => 18
  | op_comment_options _ => 19
  | op_set_withdraw_vesting_route _ => 20
  | op_limit_order_create2 _ => 21
  | op_claim_account _ => 22
  | op_create_claimed_account _ => 23
  | op_request_account_recovery _ => 24
  | op_recover_account _ => 25
  | op_change_recovery_account _ => 26
  | op_escrow_transfer _ => 27
  | op_escrow_dispute _ => 28
  | op_escrow_release _ => 29
  | op_pow2 _ => 30
  | op_escrow_approve _ => 31
  | op_transfer_to_savings _ => 32
  | op_transfer_from_savings _ => 33
  | op_cancel_transfer_from_savings _ => 34
  | op_custom_binary _ => 35
  | op_decline_voting_rights _ => 36
  | op_reset_account _ => 37
  | op_set_reset_account _ => 38
  | op_claim_reward_balance _ => 39
  | op_delegate_vesting_shares _ => 40
  | op_account_create_with_delegation _ => 41
  | op_witness_set_properties _ => 42
  | op_account_update2 _ => 43
  | op_create_proposal _ => 44
  | op_update_proposal_votes _ => 45
  | op_remove_proposal _ => 46
  | op_update_proposal _ => 47
  | op_collateralized_convert _ => 48
  | op_recurrent_transfer _ => 49
  | op_fill_convert_request _ => 50
  | op_author_reward _ => 51
  | op_curation_reward _ => 52
  | op_comment_reward _ => 53
  | op_liquidity_reward _ => 54
  | op_interest _ => 55
  | op_fill_vesting_withdraw _ => 56
  | op_fill_order _ => 57
  | op_shutdown_witness _ => 58
  | op_fill_transfer_from_savings _ => 59
  | op_hardfork _ => 60
  | op_comment_payout_update _ => 61
  | op_return_vesting_delegation _ => 62
  | op_comment_benefactor_reward _ => 63
  | op_producer_reward _ => 64
  | op_clear_null_account_balance _ => 65
  | op_proposal_pay _ => 66
  | op_dhf_funding _ => 67
  | op_hardfork_hive _ => 68
  | op_hardfork_hive_restore _ => 69
  | op_delayed_voting _ => 70
  | op_consolidate_treasury_balance _ => 71
  | op_effective_comment_vote _ => 72
  | op_ineffective_delete_comment _ => 73
  | op_dhf_conversion _ => 74
  | op_expired_account_notification _ => 75
  | op_changed_recovery_account _ => 76
  | op_transfer_to_vesting_completed _ => 77
  | op_pow_reward _ => 78
  | op_vesting_shares_split _ => 79
  | op_account_created _ => 80
  | op_fill_collateralized_convert_request _ => 81
  | op_system_warning _ => 82
  | op_fill_recurrent_transfer _ => 83
  | op_failed_recurrent_transfer _ => 84
  | op_limit_order_cancelled _ => 85
  | op_producer_missed _ => 86
  | op_proposal_fee _ => 87
  | op_collateralized_convert_immediate_conversion _ => 88
  | op_escrow_approved _ => 89
  | op_escrow_rejected _ => 90
  | op_proxy_cleared _ => 91
  | op_declined_voting_rights _ => 92
  end.
