(* ===== verification/ProtocolCodec.v ===== *)
(** * Serialisation of the protocol's types

    The [fc::raw] codecs of the types that operations are built from: names, keys, block ids,
    assets, prices, authorities, chain properties, proofs of work and extensions.  They are
    assembled from the combinators of [Raw] by the reflected fields ([FC_REFLECT]) of each
    structure, so that their round trips are found by instance search. *)

From S2P Require Import Prelude AssetSymbol Asset Utf8 Raw FixedString ForkDatabase Authority.
From S2P Require Import OperationTypes.
Local Open Scope codec_scope.

(** What the compiler decides: the sizes that bound the length of containers on reading. *)
Class Layout : Type := {
  sizeof_string : Z;
  sizeof_bytes : Z;
  sizeof_authority : Z;
  sizeof_route : Z;
  sizeof_asset : Z;
  sizeof_future_extensions : Z;
  sizeof_comment_options_extension : Z;
  sizeof_recurrent_transfer_extension : Z;
  sizeof_update_proposal_extension : Z;
  sizeof_operation : Z;
  sizeof_signature : Z;
}.

(** ** Tagged unions *)

Definition invalid_tag : exn :=
  assert_exception "Internal error: static_variant tag is invalid.".

(** One alternative: the value is read and put into the union. *)
Definition alt {A B} (c : codec B) (inj : B → A) (s : list Z) : result (A * list Z) :=
  '(b, s) ← unpack c s; Ok (inj b, s).

(** [pack( static_variant )] and [unpack( static_variant )]. *)
Definition variant_codec {A} (which : A → Z) (pack_value : A → result (list Z))
    (unpack_value : Z → list Z → result (A * list Z)) (ok : A → Prop) : codec A := {|
  pack a := xs ← pack_value a; Ok (pack_unsigned_int (which a) ++ xs);
  unpack s := '(w, s) ← unpack_unsigned_int s; unpack_value w s;
  wf := ok;
|}.

(** The comparison of [static_variant]s looks at the tags only. *)
Definition which_ltb {A} (which : A → Z) (a b : A) : bool := which a <? which b.

Definition unit_codec : codec unit := {|
  pack _ := Ok []; unpack s := Ok (tt, s); wf _ := True;
|}.

(** ** Keys, hashes and names *)

(** Bytes as a number whose first byte is the most significant. *)
Definition be_codec (n : nat) : codec Z := {|
  pack z := Ok (reverse (le_bytes n z));
  unpack s := '(bs, s) ← stream_read n s; Ok (of_le_bytes (reverse bs), s);
  wf z := 0 ≤ z < 2 ^ (8 * Z.of_nat n);
|}.

Definition key_codec : codec public_key_type := be_codec 33.

Definition block_id_codec : codec block_id_type :=
  iso_codec (λ p, BlockId p.1 p.2) (λ b, (id_word0 b, id_rest b)) (uint_codec 4 ⊗ array_codec 16).

Section names.
Context `{EndianReverse64} (verify : bool).

Definition name_codec : codec account_name_type := {|
  pack u := pack string_codec u;
  unpack s :=
    '(str, s) ← unpack string_codec s; u ← fixed_string_16 verify str; Ok (to_string16 u, s);
  wf := fits_string 16;
|}.

Definition custom_id_codec : codec custom_id_type := {|
  pack u := pack string_codec u;
  unpack s :=
    '(str, s) ← unpack string_codec s; u ← fixed_string_32 verify str; Ok (to_string32 u, s);
  wf := fits_string 32;
|}.

Definition names_codec : codec (list account_name_type) := flat_codec String.ltb 16 name_codec.

Definition authority_codec : codec authority :=
  iso_codec (λ '(w, (a, k)), Authority w a k) (λ a, (weight_threshold a, (account_auths a, key_auths a)))
    (uint_codec 4 ⊗ flat_codec (key_ltb String.ltb) 18 (name_codec ⊗ uint_codec 2)
                  ⊗ flat_codec (key_ltb Z.ltb) 35 (key_codec ⊗ uint_codec 2)).
End names.

(** ** Assets *)

Definition symbol_codec (mode : pack_type) : codec asset_symbol_type := {|
  pack := pack_symbol mode;
  unpack := unpack_symbol;
  wf s := 0 ≤ asset_num s ∧ symbol_validate s = Ok tt;
|}.

Definition asset_codec (mode : pack_type) : codec asset :=
  iso_codec (λ p, Asset p.1 p.2) (λ a, (amount a, symbol a)) (int_codec 8 ⊗ symbol_codec mode).

Definition price_codec (mode : pack_type) : codec price :=
  iso_codec (λ p, Price p.1 p.2) (λ p, (base p, quote p)) (asset_codec mode ⊗ asset_codec mode).

(** *** The symbols of old account creation fees *)

Definition legacy_ser (precision : Z) : Z := Z.lor precision (Z.shiftl OBSOLETE_SYMBOL_U64 8).
Definition OBSOLETE_SYMBOL_LEGACY_SER_1 : Z := legacy_ser 1.
Definition OBSOLETE_SYMBOL_LEGACY_SER_2 : Z := legacy_ser 2.
Definition OBSOLETE_SYMBOL_LEGACY_SER_3 : Z := legacy_ser 5.
Definition OBSOLETE_SYMBOL_LEGACY_SER_4 : Z := Z.lor 3 (Z.shiftl (symbol_u64 "0.001") 8).
Definition OBSOLETE_SYMBOL_LEGACY_SER_5 : Z := Z.lor 3 (Z.shiftl (symbol_u64 "6.000") 8).

Definition legacy_sers : list Z :=
  [OBSOLETE_SYMBOL_LEGACY_SER_1; OBSOLETE_SYMBOL_LEGACY_SER_2; OBSOLETE_SYMBOL_LEGACY_SER_3;
   OBSOLETE_SYMBOL_LEGACY_SER_4; OBSOLETE_SYMBOL_LEGACY_SER_5].

Definition is_canon (ser : Z) : bool := ser =? OBSOLETE_SYMBOL_SER.

Definition pack_legacy_symbol (mode : pack_type) (ser : Z) : result (list Z) :=
  if bool_decide (ser ∈ legacy_sers) then Ok (le_bytes 8 ser)
  else if ser =? OBSOLETE_SYMBOL_SER then
    match mode with
    | pack_legacy => Ok (le_bytes 8 ser)
    | pack_hf26 => Ok (le_bytes 4 HIVE_ASSET_NUM_HIVE)
    end
  else Throw (assert_exception "Cannot serialize legacy symbol").

Definition unpack_legacy_symbol (s : list Z) : result (Z * list Z) :=
  '(low, s) ← stream_read 4 s;
  if of_le_bytes low =? HIVE_ASSET_NUM_HIVE then Ok (OBSOLETE_SYMBOL_SER, s)
  else
    '(high, s) ← stream_read 4 s;
    let ser := of_le_bytes (low ++ high) in
    if bool_decide (ser ∈ legacy_sers) || (ser =? OBSOLETE_SYMBOL_SER) then Ok (ser, s)
    else Throw (assert_exception "Cannot deserialize legacy symbol").

Definition legacy_symbol_codec (mode : pack_type) : codec Z := {|
  pack := pack_legacy_symbol mode;
  unpack := unpack_legacy_symbol;
  wf ser := ser ∈ OBSOLETE_SYMBOL_SER :: legacy_sers;
|}.

Definition legacy_hive_asset_codec (mode : pack_type) : codec legacy_hive_asset :=
  iso_codec (λ p, LegacyHiveAsset p.1 p.2) (λ a, (leg_amount a, leg_ser a))
    (int_codec 8 ⊗ legacy_symbol_codec mode).

Definition chain_properties_codec (mode : pack_type) : codec legacy_chain_properties :=
  iso_codec (λ '(f, (m, r)), Build_legacy_chain_properties f m r)
    (λ p, (chain_account_creation_fee p, (chain_maximum_block_size p, chain_hbd_interest_rate p)))
    (legacy_hive_asset_codec mode ⊗ uint_codec 4 ⊗ uint_codec 2).

(** [to_asset], [from_amount] and [from_asset] of [legacy_hive_asset]. *)
Definition leg_to_asset (force_canon : bool) (a : legacy_hive_asset) : result asset :=
  (if force_canon then
     fc_assert (is_canon (leg_ser a)) "Must use canonical HIVE symbol serialization"
   else Ok tt) ;;
  Ok (Asset (leg_amount a) HIVE_SYMBOL).
Definition leg_from_amount (amount : Z) : legacy_hive_asset := LegacyHiveAsset amount OBSOLETE_SYMBOL_SER.
Definition leg_from_asset (a : asset) : result legacy_hive_asset :=
  fc_assert (symbol_eqb (symbol a) HIVE_SYMBOL) "a.symbol == HIVE_SYMBOL" ;;
  Ok (leg_from_amount (amount a)).

(** ** Proofs of work *)

Definition pow_codec : codec pow :=
  iso_codec (λ '(w, (i, (s, k))), Build_pow w i s k)
    (λ p, (work_worker p, (work_input p, (work_signature p, work_work p))))
    (key_codec ⊗ array_codec 32 ⊗ array_codec 65 ⊗ array_codec 32).

Definition proof_codec : codec equihash_proof :=
  iso_codec (λ '(n, (k, (s, i))), Build_equihash_proof n k s i)
    (λ p, (proof_n p, (proof_k p, (proof_seed p, proof_inputs p))))
    (uint_codec 4 ⊗ uint_codec 4 ⊗ array_codec 32 ⊗ vector_codec 4 (uint_codec 4)).

Section structures.
Context `{EndianReverse64, Layout} (verify : bool).

Definition pow2_input_codec : codec pow2_input :=
  iso_codec (λ '(w, (b, n)), Build_pow2_input w b n)
    (λ p, (input_worker_account p, (input_prev_block p, input_nonce p)))
    (name_codec verify ⊗ block_id_codec ⊗ uint_codec 8).

Definition pow2_codec : codec pow2 :=
  iso_codec (λ '(i, p), Build_pow2 i p) (λ p, (p2_input p, p2_pow_summary p))
    (pow2_input_codec ⊗ uint_codec 4).

Definition equihash_pow_codec : codec equihash_pow :=
  iso_codec (λ '(i, (p, (b, s))), Build_equihash_pow i p b s)
    (λ e, (eq_input e, (eq_proof e, (eq_prev_block e, eq_pow_summary e))))
    (pow2_input_codec ⊗ proof_codec ⊗ block_id_codec ⊗ uint_codec 4).

Definition pow2_work_which (w : pow2_work) : Z :=
  match w with work_pow2 _ => 0 | work_equihash _ => 1 end.

Definition pow2_work_codec : codec pow2_work :=
  variant_codec pow2_work_which
    (λ w, match w with
          | work_pow2 p => pack pow2_codec p
          | work_equihash e => pack equihash_pow_codec e
          end)
    (λ t s, if t =? 0 then alt pow2_codec work_pow2 s
            else if t =? 1 then alt equihash_pow_codec work_equihash s
            else Throw invalid_tag)
    (λ w, match w with
          | work_pow2 p => wf pow2_codec p
          | work_equihash e => wf equihash_pow_codec e
          end).

(** ** Extensions *)

Definition future_extensions_codec : codec future_extensions :=
  variant_codec (λ _, 0) (λ _, Ok [])
    (λ t s, if t =? 0 then alt unit_codec (λ _, void_t) s else Throw invalid_tag) (λ _, True).
Definition extensions_codec : codec (list future_extensions) :=
  flat_codec (which_ltb (λ _, 0)) sizeof_future_extensions future_extensions_codec.

Definition route_codec : codec beneficiary_route_type :=
  iso_codec (λ '(a, w), Build_beneficiary_route_type a w)
    (λ r, (beneficiary_account r, beneficiary_weight r)) (name_codec verify ⊗ uint_codec 2).
Definition beneficiaries_codec : codec comment_payout_beneficiaries :=
  iso_codec Build_comment_payout_beneficiaries payout_beneficiaries
    (vector_codec sizeof_route route_codec).
Definition comment_options_extension_codec : codec comment_options_extension :=
  variant_codec (λ _, 0)
    (λ e, match e with ext_beneficiaries b => pack beneficiaries_codec b end)
    (λ t s, if t =? 0 then alt beneficiaries_codec ext_beneficiaries s else Throw invalid_tag)
    (λ e, match e with ext_beneficiaries b => wf beneficiaries_codec b end).
Definition comment_options_extensions_codec : codec (list comment_options_extension) :=
  flat_codec (which_ltb (λ _, 0)) sizeof_comment_options_extension comment_options_extension_codec.

Definition pair_id_codec : codec recurrent_transfer_pair_id :=
  iso_codec Build_recurrent_transfer_pair_id rt_pair_id (uint_codec 1).
Definition recurrent_which (e : recurrent_transfer_extension) : Z :=
  match e with rt_void => 0 | rt_pair _ => 1 end.
Definition recurrent_transfer_extension_codec : codec recurrent_transfer_extension :=
  variant_codec recurrent_which
    (λ e, match e with rt_void => Ok [] | rt_pair p => pack pair_id_codec p end)
    (λ t s, if t =? 0 then alt unit_codec (λ _, rt_void) s
            else if t =? 1 then alt pair_id_codec rt_pair s else Throw invalid_tag)
    (λ e, match e with rt_void => True | rt_pair p => wf pair_id_codec p end).
Definition recurrent_transfer_extensions_codec : codec (list recurrent_transfer_extension) :=
  flat_codec (which_ltb recurrent_which) sizeof_recurrent_transfer_extension
    recurrent_transfer_extension_codec.

Definition end_date_codec : codec update_proposal_end_date :=
  iso_codec Build_update_proposal_end_date up_end_date (uint_codec 4).
Definition update_proposal_which (e : update_proposal_extension) : Z :=
  match e with up_void => 0 | up_end _ => 1 end.
Definition update_proposal_extension_codec : codec update_proposal_extension :=
  variant_codec update_proposal_which
    (λ e, match e with up_void => Ok [] | up_end d => pack end_date_codec d end)
    (λ t s, if t =? 0 then alt unit_codec (λ _, up_void) s
            else if t =? 1 then alt end_date_codec up_end s else Throw invalid_tag)
    (λ e, match e with up_void => True | up_end d => wf end_date_codec d end).
Definition update_proposal_extensions_codec : codec (list update_proposal_extension) :=
  flat_codec (which_ltb update_proposal_which) sizeof_update_proposal_extension
    update_proposal_extension_codec.

Definition props_codec : codec (list (string * list Z)) :=
  flat_codec (key_ltb String.ltb) (sizeof_string + sizeof_bytes) (string_codec ⊗ bytes_codec).
End structures.

(** [unpack_from_vector( v, tmp )]: an empty vector leaves [tmp] as it was, and bytes after
    the value are ignored. *)
Definition unpack_from_vector {A} (c : codec A) (v : list Z) (tmp : A) : result A :=
  match v with
  | [] => Ok tmp
  | _ => '(a, _) ← unpack c v; Ok a
  end.

(** ** Round trips *)

#[global] Typeclasses Opaque
  unit_codec be_codec key_codec block_id_codec name_codec custom_id_codec names_codec
  authority_codec symbol_codec asset_codec price_codec legacy_symbol_codec
  legacy_hive_asset_codec chain_properties_codec pow_codec proof_codec pow2_input_codec
  pow2_codec equihash_pow_codec pow2_work_codec future_extensions_codec extensions_codec
  route_codec beneficiaries_codec comment_options_extension_codec
  comment_options_extensions_codec pair_id_codec recurrent_transfer_extension_codec
  recurrent_transfer_extensions_codec end_date_codec update_proposal_extension_codec
  update_proposal_extensions_codec props_codec variant_codec.

#[export] Instance unit_roundtrip : Roundtrip unit_codec.
Proof. intros [] _. by exists []. Qed.

Lemma variant_roundtrip {A} which (pack_value : A → _) unpack_value ok :
  (∀ a, ok a → 0 ≤ which a ≤ u32_max ∧
    ∃ bs, pack_value a = Ok bs ∧ ∀ rest, unpack_value (which a) (bs ++ rest) = Ok (a, rest)) →
  Roundtrip (variant_codec which pack_value unpack_value ok).
Proof.
  intros H a Ha. destruct (H a Ha) as (Hw & bs & Hp & Hu).
  destruct (roundtrip (c := varint_codec) (which a)) as (ts & Ht & Hut); [done|].
  change (Ok (pack_unsigned_int (which a)) = Ok ts) in Ht.
  assert (ts = pack_unsigned_int (which a)) as -> by congruence.
  exists (pack_unsigned_int (which a) ++ bs). cbn [pack unpack variant_codec]. rewrite Hp.
  split; [done|]. intros rest. rewrite <- app_assoc. specialize (Hut (bs ++ rest)).
  change (unpack varint_codec) with unpack_unsigned_int in Hut. rewrite Hut. apply Hu.
Qed.

Lemma alt_roundtrip {A B} (c : codec B) `{!Roundtrip c} (inj : B → A) b :
  wf c b → ∃ bs, pack c b = Ok bs ∧ ∀ rest, alt c inj (bs ++ rest) = Ok (inj b, rest).
Proof.
  intros Hb. destruct (roundtrip b Hb) as (bs & Hp & Hu). exists bs. split; [done|].
  intros rest. unfold alt. by rewrite Hu.
Qed.

#[export] Instance be_roundtrip n : Roundtrip (be_codec n).
Proof.
  intros z Hz. exists (reverse (le_bytes n z)). split; [done|]. intros rest. cbn [unpack be_codec].
  rewrite stream_read_app by (by rewrite length_reverse, length_le_bytes).
  cbn [mbind result_bind]. rewrite reverse_involutive, of_le_bytes_le_bytes. by rewrite Z.mod_small.
Qed.

#[export] Instance key_roundtrip : Roundtrip key_codec.
Proof. apply be_roundtrip. Qed.

(** Tuples of fields and structures. *)
#[export] Hint Extern 0 (Cancel (=) _ _) => (intros []; reflexivity) : typeclass_instances.

#[export] Instance block_id_roundtrip : Roundtrip block_id_codec.
Proof. by_fields. Qed.

#[export] Instance symbol_roundtrip mode : Roundtrip (symbol_codec mode).
Proof.
  intros s [Hn Hv]. destruct (symbol_bytes mode s [] Hn Hv) as (bs & Hp & _).
  exists bs. split; [done|]. intros rest.
  destruct (symbol_bytes mode s rest Hn Hv) as (bs' & Hp' & Hu). cbn. congruence.
Qed.

#[export] Instance asset_roundtrip mode : Roundtrip (asset_codec mode).
Proof. by_fields. Qed.
#[export] Instance price_roundtrip mode : Roundtrip (price_codec mode).
Proof. by_fields. Qed.

#[export] Instance legacy_symbol_roundtrip mode : Roundtrip (legacy_symbol_codec mode).
Proof.
  intros ser Hser. cbn [wf legacy_symbol_codec] in Hser. unfold legacy_sers in Hser.
  destruct mode; repeat (apply elem_of_cons in Hser as [->|Hser]);
    try (by apply elem_of_nil in Hser);
    eexists; (split; [by vm_compute|]); intros rest; by vm_compute.
Qed.

#[export] Instance legacy_hive_asset_roundtrip mode : Roundtrip (legacy_hive_asset_codec mode).
Proof. by_fields. Qed.
#[export] Instance chain_properties_roundtrip mode : Roundtrip (chain_properties_codec mode).
Proof. by_fields. Qed.
#[export] Instance pow_roundtrip : Roundtrip pow_codec.
Proof. by_fields. Qed.
#[export] Instance proof_roundtrip : Roundtrip proof_codec.
Proof. by_fields. Qed.
#[export] Instance future_extensions_roundtrip : Roundtrip future_extensions_codec.
Proof. apply variant_roundtrip. intros [] _. split; [done|]. by exists []. Qed.
#[export] Instance pair_id_roundtrip : Roundtrip pair_id_codec.
Proof. by_fields. Qed.
#[export] Instance end_date_roundtrip : Roundtrip end_date_codec.
Proof. by_fields. Qed.

(** A string that is stored in a fixed-length one and read back. *)
Lemma fixed_roundtrip {D} (n : nat) (c : codec string) (store : string → result D)
    (load : D → string) :
  Z.of_nat n < MAX_ARRAY_ALLOC_SIZE →
  pack c = pack string_codec →
  (∀ s, unpack c s = ('(str, s) ← unpack string_codec s; u ← store str; Ok (load u, s))) →
  wf c = fits_string n →
  (∀ s, fits_string n s → ∃ x, store s = Ok x ∧ load x = s) → Roundtrip c.
Proof.
  intros Hn Hp Hu Hwf Hs s Hfit. rewrite Hwf in Hfit. destruct (Hs s Hfit) as (x & Hx & Hl).
  destruct (roundtrip (c := string_codec) s) as (bs & Hpb & Hub).
  { destruct Hfit as [Hlen _]. cbn. lia. }
  exists bs. rewrite Hp. split; [done|]. intros rest. rewrite Hu, Hub. cbn. rewrite Hx. cbn.
  by rewrite Hl.
Qed.

Section laws.
Context `{EndianReverse64Laws, Layout} (verify : bool).

#[export] Instance name_roundtrip : Roundtrip (name_codec verify).
Proof. by apply (fixed_roundtrip 16 _ (fixed_string_16 verify) to_string16);
  [..|apply string16_roundtrip]. Qed.
#[export] Instance custom_id_roundtrip : Roundtrip (custom_id_codec verify).
Proof. by apply (fixed_roundtrip 32 _ (fixed_string_32 verify) to_string32);
  [..|apply string32_roundtrip]. Qed.
#[export] Instance names_roundtrip : Roundtrip (names_codec verify).
Proof. by_fields. Qed.
#[export] Instance authority_roundtrip : Roundtrip (authority_codec verify).
Proof. by_fields. Qed.
#[export] Instance pow2_input_roundtrip : Roundtrip (pow2_input_codec verify).
Proof. by_fields. Qed.
#[export] Instance pow2_roundtrip : Roundtrip (pow2_codec verify).
Proof. by_fields. Qed.
#[export] Instance equihash_pow_roundtrip : Roundtrip (equihash_pow_codec verify).
Proof. by_fields. Qed.
#[export] Instance pow2_work_roundtrip : Roundtrip (pow2_work_codec verify).
Proof.
  apply variant_roundtrip. intros [p|e] Hw; (split; [done|]); by apply (alt_roundtrip _).
Qed.
#[export] Instance extensions_roundtrip : Roundtrip extensions_codec.
Proof. by_fields. Qed.
#[export] Instance route_roundtrip : Roundtrip (route_codec verify).
Proof. by_fields. Qed.
#[export] Instance beneficiaries_roundtrip : Roundtrip (beneficiaries_codec verify).
Proof. by_fields. Qed.
#[export] Instance comment_options_extension_roundtrip :
  Roundtrip (comment_options_extension_codec verify).
Proof.
  apply variant_roundtrip. intros [b] Hw. split; [done|]. by apply (alt_roundtrip _).
Qed.
#[export] Instance comment_options_extensions_roundtrip :
  Roundtrip (comment_options_extensions_codec verify).
Proof. by_fields. Qed.
#[export] Instance recurrent_transfer_extension_roundtrip :
  Roundtrip recurrent_transfer_extension_codec.
Proof.
  apply variant_roundtrip. intros [|p] Hw; (split; [done|]).
  - by exists [].
  - by apply (alt_roundtrip _).
Qed.
#[export] Instance recurrent_transfer_extensions_roundtrip :
  Roundtrip recurrent_transfer_extensions_codec.
Proof. by_fields. Qed.
#[export] Instance update_proposal_extension_roundtrip : Roundtrip update_proposal_extension_codec.
Proof.
  apply variant_roundtrip. intros [|p] Hw; (split; [done|]).
  - by exists [].
  - by apply (alt_roundtrip _).
Qed.
#[export] Instance update_proposal_extensions_roundtrip :
  Roundtrip update_proposal_extensions_codec.
Proof. by_fields. Qed.
#[export] Instance props_roundtrip : Roundtrip props_codec.
Proof. by_fields. Qed.
End laws.

(** ** Readers do not depend on the mode *)

Ltac by_readers :=
  match goal with
  | |- SameReader ?c _ =>
      let rec head t := lazymatch t with ?f _ => head f | _ => t end in
      let h := head c in unfold h; apply _
  end.

#[export] Instance symbol_reader m m' : SameReader (symbol_codec m) (symbol_codec m') | 3.
Proof. done. Qed.
#[export] Instance asset_reader m m' : SameReader (asset_codec m) (asset_codec m') | 3.
Proof. by_readers. Qed.
#[export] Instance price_reader m m' : SameReader (price_codec m) (price_codec m') | 3.
Proof. by_readers. Qed.
#[export] Instance legacy_symbol_reader m m' :
  SameReader (legacy_symbol_codec m) (legacy_symbol_codec m') | 3.
Proof. done. Qed.
#[export] Instance legacy_hive_asset_reader m m' :
  SameReader (legacy_hive_asset_codec m) (legacy_hive_asset_codec m') | 3.
Proof. by_readers. Qed.
#[export] Instance chain_properties_reader m m' :
  SameReader (chain_properties_codec m) (chain_properties_codec m') | 3.
Proof. by_readers. Qed.

Lemma same_alt {A B} (c c' : codec B) `{!SameReader c c'} (inj : B → A) s :
  alt c inj s = alt c' inj s.
Proof. unfold alt. by rewrite (same_reader (c := c)). Qed.

Lemma same_variant {A} which (p p' : A → result (list Z)) u u' (ok ok' : A → Prop) :
  (∀ tag s, u tag s = u' tag s) → SameReader (variant_codec which p u ok) (variant_codec which p' u' ok').
Proof.
  intros Hu s. cbn [unpack variant_codec].
  destruct (unpack_unsigned_int s) as [ [t s1]|]; cbn [mbind result_bind]; [apply Hu|done].
Qed.
