(* ===== verification/OperationCodec.v ===== *)
(** * Serialisation of operations

    The [fc::raw] codec of every operation, the fields in the order of its [FC_REFLECT], and
    of the variant [operation]: the tag and then the operation. *)

From S2P Require Import Prelude AssetSymbol Asset Raw FixedString ForkDatabase Authority.
From S2P Require Import OperationTypes ProtocolCodec.
Local Open Scope codec_scope.

Section codecs.
Context `{EndianReverse64, Layout} (verify : bool) (mode : pack_type).

Definition vote_operation_codec : codec vote_operation :=
  iso_codec
    (λ '(x0, (x1, (x2, x3))), Build_vote_operation x0 x1 x2 x3)
    (λ o, (vote_voter o, (vote_author o, (vote_permlink o, vote_weight o))))
    (name_codec verify ⊗ name_codec verify ⊗ string_codec ⊗ int_codec 2).

Definition comment_operation_codec : codec comment_operation :=
  iso_codec
    (λ '(x0, (x1, (x2, (x3, (x4, (x5, x6)))))), Build_comment_operation x0 x1 x2 x3 x4 x5 x6)
    (λ o, (comment_parent_author o, (comment_parent_permlink o, (comment_author o,
          (comment_permlink o, (comment_title o, (comment_body o, comment_json_metadata o)))))))
    (name_codec verify ⊗ string_codec ⊗ name_codec verify ⊗ string_codec ⊗ string_codec ⊗
     string_codec ⊗ string_codec).

Definition transfer_operation_codec : codec transfer_operation :=
  iso_codec
    (λ '(x0, (x1, (x2, x3))), Build_transfer_operation x0 x1 x2 x3)
    (λ o, (transfer_from o, (transfer_to o, (transfer_amount o, transfer_memo o))))
    (name_codec verify ⊗ name_codec verify ⊗ asset_codec mode ⊗ string_codec).

Definition transfer_to_vesting_operation_codec : codec transfer_to_vesting_operation :=
  iso_codec
    (λ '(x0, (x1, x2)), Build_transfer_to_vesting_operation x0 x1 x2)
    (λ o, (transfer_to_vesting_from o, (transfer_to_vesting_to o, transfer_to_vesting_amount o)))
    (name_codec verify ⊗ name_codec verify ⊗ asset_codec mode).

Definition withdraw_vesting_operation_codec : codec withdraw_vesting_operation :=
  iso_codec
    (λ '(x0, x1), Build_withdraw_vesting_operation x0 x1)
    (λ o, (withdraw_vesting_account o, withdraw_vesting_vesting_shares o))
    (name_codec verify ⊗ asset_codec mode).

Definition limit_order_create_operation_codec : codec limit_order_create_operation :=
  iso_codec
    (λ '(x0, (x1, (x2, (x3, (x4, x5))))), Build_limit_order_create_operation x0 x1 x2 x3 x4 x5)
    (λ o, (limit_order_create_owner o, (limit_order_create_orderid o,
          (limit_order_create_amount_to_sell o, (limit_order_create_min_to_receive o,
          (limit_order_create_fill_or_kill o, limit_order_create_expiration o))))))
    (name_codec verify ⊗ uint_codec 4 ⊗ asset_codec mode ⊗ asset_codec mode ⊗ bool_codec ⊗
     uint_codec 4).

Definition limit_order_cancel_operation_codec : codec limit_order_cancel_operation :=
  iso_codec
    (λ '(x0, x1), Build_limit_order_cancel_operation x0 x1)
    (λ o, (limit_order_cancel_owner o, limit_order_cancel_orderid o))
    (name_codec verify ⊗ uint_codec 4).

Definition feed_publish_operation_codec : codec feed_publish_operation :=
  iso_codec
    (λ '(x0, x1), Build_feed_publish_operation x0 x1)
    (λ o, (feed_publish_publisher o, feed_publish_exchange_rate o))
    (name_codec verify ⊗ price_codec mode).

Definition convert_operation_codec : codec convert_operation :=
  iso_codec
    (λ '(x0, (x1, x2)), Build_convert_operation x0 x1 x2)
    (λ o, (convert_owner o, (convert_requestid o, convert_amount o)))
    (name_codec verify ⊗ uint_codec 4 ⊗ asset_codec mode).

Definition account_create_operation_codec : codec account_create_operation :=
  iso_codec
    (λ '(x0, (x1, (x2, (x3, (x4, (x5, (x6, x7))))))),
      Build_account_create_operation x0 x1 x2 x3 x4 x5 x6 x7)
    (λ o, (account_create_fee o, (account_create_creator o, (account_create_new_account_name o,
          (account_create_owner o, (account_create_active o, (account_create_posting o,
          (account_create_memo_key o, account_create_json_metadata o))))))))
    (asset_codec mode ⊗ name_codec verify ⊗ name_codec verify ⊗ authority_codec verify ⊗
     authority_codec verify ⊗ authority_codec verify ⊗ key_codec ⊗ string_codec).

Definition account_update_operation_codec : codec account_update_operation :=
  iso_codec
    (λ '(x0, (x1, (x2, (x3, (x4, x5))))), Build_account_update_operation x0 x1 x2 x3 x4 x5)
    (λ o, (account_update_account o, (account_update_owner o, (account_update_active o,
          (account_update_posting o, (account_update_memo_key o, account_update_json_metadata o))))))
    (name_codec verify ⊗ optional_codec (authority_codec verify) ⊗
     optional_codec (authority_codec verify) ⊗ optional_codec (authority_codec verify) ⊗
     key_codec ⊗ string_codec).

Definition witness_update_operation_codec : codec witness_update_operation :=
  iso_codec
    (λ '(x0, (x1, (x2, (x3, x4)))), Build_witness_update_operation x0 x1 x2 x3 x4)
    (λ o, (witness_update_owner o, (witness_update_url o, (witness_update_block_signing_key o,
          (witness_update_props o, witness_update_fee o)))))
    (name_codec verify ⊗ string_codec ⊗ key_codec ⊗ chain_properties_codec mode ⊗ asset_codec mode).

Definition account_witness_vote_operation_codec : codec account_witness_vote_operation :=
  iso_codec
    (λ '(x0, (x1, x2)), Build_account_witness_vote_operation x0 x1 x2)
    (λ o, (account_witness_vote_account o, (account_witness_vote_witness o,
          account_witness_vote_approve o)))
    (name_codec verify ⊗ name_codec verify ⊗ bool_codec).

Definition account_witness_proxy_operation_codec : codec account_witness_proxy_operation :=
  iso_codec
    (λ '(x0, x1), Build_account_witness_proxy_operation x0 x1)
    (λ o, (account_witness_proxy_account o, account_witness_proxy_proxy o))
    (name_codec verify ⊗ name_codec verify).

Definition pow_operation_codec : codec pow_operation :=
  iso_codec
    (λ '(x0, (x1, (x2, (x3, x4)))), Build_pow_operation x0 x1 x2 x3 x4)
    (λ o, (powop_worker_account o, (powop_block_id o, (powop_nonce o, (powop_work o, powop_props o)))))
    (name_codec verify ⊗ block_id_codec ⊗ uint_codec 8 ⊗ pow_codec ⊗ chain_properties_codec mode).

Definition custom_operation_codec : codec custom_operation :=
  iso_codec
    (λ '(x0, (x1, x2)), Build_custom_operation x0 x1 x2)
    (λ o, (custom_required_auths o, (custom_id o, custom_data o)))
    (names_codec verify ⊗ uint_codec 2 ⊗ bytes_codec).

Definition witness_block_approve_operation_codec : codec witness_block_approve_operation :=
  iso_codec
    (λ '(x0, x1), Build_witness_block_approve_operation x0 x1)
    (λ o, (witness_block_approve_witness o, witness_block_approve_block_id o))
    (name_codec verify ⊗ block_id_codec).

Definition delete_comment_operation_codec : codec delete_comment_operation :=
  iso_codec
    (λ '(x0, x1), Build_delete_comment_operation x0 x1)
    (λ o, (delete_comment_author o, delete_comment_permlink o))
    (name_codec verify ⊗ string_codec).

Definition custom_json_operation_codec : codec custom_json_operation :=
  iso_codec
    (λ '(x0, (x1, (x2, x3))), Build_custom_json_operation x0 x1 x2 x3)
    (λ o, (custom_json_required_auths o, (custom_json_required_posting_auths o,
          (custom_json_id o, custom_json_json o))))
    (names_codec verify ⊗ names_codec verify ⊗ custom_id_codec verify ⊗ string_codec).

Definition comment_options_operation_codec : codec comment_options_operation :=
  iso_codec
    (λ '(x0, (x1, (x2, (x3, (x4, (x5, x6)))))),
      Build_comment_options_operation x0 x1 x2 x3 x4 x5 x6)
    (λ o, (comment_options_author o, (comment_options_permlink o,
          (comment_options_max_accepted_payout o, (comment_options_percent_hbd o,
          (comment_options_allow_votes o, (comment_options_allow_curation_rewards o,
          comment_options_extensions o)))))))
    (name_codec verify ⊗ string_codec ⊗ asset_codec mode ⊗ uint_codec 2 ⊗ bool_codec ⊗
     bool_codec ⊗ comment_options_extensions_codec verify).

Definition set_withdraw_vesting_route_operation_codec : codec set_withdraw_vesting_route_operation :=
  iso_codec
    (λ '(x0, (x1, (x2, x3))), Build_set_withdraw_vesting_route_operation x0 x1 x2 x3)
    (λ o, (set_withdraw_vesting_route_from_account o, (set_withdraw_vesting_route_to_account o,
          (set_withdraw_vesting_route_percent o, set_withdraw_vesting_route_auto_vest o))))
    (name_codec verify ⊗ name_codec verify ⊗ uint_codec 2 ⊗ bool_codec).

Definition limit_order_create2_operation_codec : codec limit_order_create2_operation :=
  iso_codec
    (λ '(x0, (x1, (x2, (x3, (x4, x5))))), Build_limit_order_create2_operation x0 x1 x2 x4 x3 x5)
    (λ o, (limit_order_create2_owner o, (limit_order_create2_orderid o,
          (limit_order_create2_amount_to_sell o, (limit_order_create2_exchange_rate o,
          (limit_order_create2_fill_or_kill o, limit_order_create2_expiration o))))))
    (name_codec verify ⊗ uint_codec 4 ⊗ asset_codec mode ⊗ price_codec mode ⊗ bool_codec ⊗
     uint_codec 4).

Definition claim_account_operation_codec : codec claim_account_operation :=
  iso_codec
    (λ '(x0, (x1, x2)), Build_claim_account_operation x0 x1 x2)
    (λ o, (claim_account_creator o, (claim_account_fee o, claim_account_extensions o)))
    (name_codec verify ⊗ asset_codec mode ⊗ extensions_codec).

Definition create_claimed_account_operation_codec : codec create_claimed_account_operation :=
  iso_codec
    (λ '(x0, (x1, (x2, (x3, (x4, (x5, (x6, x7))))))),
      Build_create_claimed_account_operation x0 x1 x2 x3 x4 x5 x6 x7)
    (λ o, (create_claimed_account_creator o, (create_claimed_account_new_account_name o,
          (create_claimed_account_owner o, (create_claimed_account_active o,
          (create_claimed_account_posting o, (create_claimed_account_memo_key o,
          (create_claimed_account_json_metadata o, create_claimed_account_extensions o))))))))
    (name_codec verify ⊗ name_codec verify ⊗ authority_codec verify ⊗ authority_codec verify ⊗
     authority_codec verify ⊗ key_codec ⊗ string_codec ⊗ extensions_codec).

Definition request_account_recovery_operation_codec : codec request_account_recovery_operation :=
  iso_codec
    (λ '(x0, (x1, (x2, x3))), Build_request_account_recovery_operation x0 x1 x2 x3)
    (λ o, (request_account_recovery_recovery_account o,
          (request_account_recovery_account_to_recover o,
          (request_account_recovery_new_owner_authority o, request_account_recovery_extensions o))))
    (name_codec verify ⊗ name_codec verify ⊗ authority_codec verify ⊗ extensions_codec).

Definition recover_account_operation_codec : codec recover_account_operation :=
  iso_codec
    (λ '(x0, (x1, (x2, x3))), Build_recover_account_operation x0 x1 x2 x3)
    (λ o, (recover_account_account_to_recover o, (recover_account_new_owner_authority o,
          (recover_account_recent_owner_authority o, recover_account_extensions o))))
    (name_codec verify ⊗ authority_codec verify ⊗ authority_codec verify ⊗ extensions_codec).

Definition change_recovery_account_operation_codec : codec change_recovery_account_operation :=
  iso_codec
    (λ '(x0, (x1, x2)), Build_change_recovery_account_operation x0 x1 x2)
    (λ o, (change_recovery_account_account_to_recover o,
          (change_recovery_account_new_recovery_account o, change_recovery_account_extensions o)))
    (name_codec verify ⊗ name_codec verify ⊗ extensions_codec).

Definition escrow_transfer_operation_codec : codec escrow_transfer_operation :=
  iso_codec
    (λ '(x0, (x1, (x2, (x3, (x4, (x5, (x6, (x7, (x8, x9))))))))),
      Build_escrow_transfer_operation x0 x1 x5 x4 x2 x3 x6 x8 x9 x7)
    (λ o, (escrow_transfer_from o, (escrow_transfer_to o, (escrow_transfer_hbd_amount o,
          (escrow_transfer_hive_amount o, (escrow_transfer_escrow_id o, (escrow_transfer_agent o,
          (escrow_transfer_fee o, (escrow_transfer_json_meta o,
          (escrow_transfer_ratification_deadline o, escrow_transfer_escrow_expiration o))))))))))
    (name_codec verify ⊗ name_codec verify ⊗ asset_codec mode ⊗ asset_codec mode ⊗ uint_codec 4 ⊗
     name_codec verify ⊗ asset_codec mode ⊗ string_codec ⊗ uint_codec 4 ⊗ uint_codec 4).

Definition escrow_dispute_operation_codec : codec escrow_dispute_operation :=
  iso_codec
    (λ '(x0, (x1, (x2, (x3, x4)))), Build_escrow_dispute_operation x0 x1 x2 x3 x4)
    (λ o, (escrow_dispute_from o, (escrow_dispute_to o, (escrow_dispute_agent o,
          (escrow_dispute_who o, escrow_dispute_escrow_id o)))))
    (name_codec verify ⊗ name_codec verify ⊗ name_codec verify ⊗ name_codec verify ⊗ uint_codec 4).

Definition escrow_release_operation_codec : codec escrow_release_operation :=
  iso_codec
    (λ '(x0, (x1, (x2, (x3, (x4, (x5, (x6, x7))))))),
      Build_escrow_release_operation x0 x1 x2 x3 x4 x5 x6 x7)
    (λ o, (escrow_release_from o, (escrow_release_to o, (escrow_release_agent o,
          (escrow_release_who o, (escrow_release_receiver o, (escrow_release_escrow_id o,
          (escrow_release_hbd_amount o, escrow_release_hive_amount o))))))))
    (name_codec verify ⊗ name_codec verify ⊗ name_codec verify ⊗ name_codec verify ⊗
     name_codec verify ⊗ uint_codec 4 ⊗ asset_codec mode ⊗ asset_codec mode).

Definition pow2_operation_codec : codec pow2_operation :=
  iso_codec
    (λ '(x0, (x1, x2)), Build_pow2_operation x0 x1 x2)
    (λ o, (pow2op_work o, (pow2op_new_owner_key o, pow2op_props o)))
    (pow2_work_codec verify ⊗ optional_codec key_codec ⊗ chain_properties_codec mode).

Definition escrow_approve_operation_codec : codec escrow_approve_operation :=
  iso_codec
    (λ '(x0, (x1, (x2, (x3, (x4, x5))))), Build_escrow_approve_operation x0 x1 x2 x3 x4 x5)
    (λ o, (escrow_approve_from o, (escrow_approve_to o, (escrow_approve_agent o,
          (escrow_approve_who o, (escrow_approve_escrow_id o, escrow_approve_approve o))))))
    (name_codec verify ⊗ name_codec verify ⊗ name_codec verify ⊗ name_codec verify ⊗
     uint_codec 4 ⊗ bool_codec).

Definition transfer_to_savings_operation_codec : codec transfer_to_savings_operation :=
  iso_codec
    (λ '(x0, (x1, (x2, x3))), Build_transfer_to_savings_operation x0 x1 x2 x3)
    (λ o, (transfer_to_savings_from o, (transfer_to_savings_to o, (transfer_to_savings_amount o,
          transfer_to_savings_memo o))))
    (name_codec verify ⊗ name_codec verify ⊗ asset_codec mode ⊗ string_codec).

Definition transfer_from_savings_operation_codec : codec transfer_from_savings_operation :=
  iso_codec
    (λ '(x0, (x1, (x2, (x3, x4)))), Build_transfer_from_savings_operation x0 x1 x2 x3 x4)
    (λ o, (transfer_from_savings_from o, (transfer_from_savings_request_id o,
          (transfer_from_savings_to o, (transfer_from_savings_amount o,
          transfer_from_savings_memo o)))))
    (name_codec verify ⊗ uint_codec 4 ⊗ name_codec verify ⊗ asset_codec mode ⊗ string_codec).

Definition cancel_transfer_from_savings_operation_codec : codec cancel_transfer_from_savings_operation :=
  iso_codec
    (λ '(x0, x1), Build_cancel_transfer_from_savings_operation x0 x1)
    (λ o, (cancel_transfer_from_savings_from o, cancel_transfer_from_savings_request_id o))
    (name_codec verify ⊗ uint_codec 4).

Definition custom_binary_operation_codec : codec custom_binary_operation :=
  iso_codec
    (λ '(x0, (x1, (x2, (x3, (x4, x5))))), Build_custom_binary_operation x0 x1 x2 x3 x4 x5)
    (λ o, (custom_binary_required_owner_auths o, (custom_binary_required_active_auths o,
          (custom_binary_required_posting_auths o, (custom_binary_required_auths o,
          (custom_binary_id o, custom_binary_data o))))))
    (names_codec verify ⊗ names_codec verify ⊗ names_codec verify ⊗
     vector_codec sizeof_authority (authority_codec verify) ⊗ custom_id_codec verify ⊗ bytes_codec).

Definition decline_voting_rights_operation_codec : codec decline_voting_rights_operation :=
  iso_codec
    (λ '(x0, x1), Build_decline_voting_rights_operation x0 x1)
    (λ o, (decline_voting_rights_account o, decline_voting_rights_decline o))
    (name_codec verify ⊗ bool_codec).

Definition reset_account_operation_codec : codec reset_account_operation :=
  iso_codec
    (λ '(x0, (x1, x2)), Build_reset_account_operation x0 x1 x2)
    (λ o, (reset_account_reset_account o, (reset_account_account_to_reset o,
          reset_account_new_owner_authority o)))
    (name_codec verify ⊗ name_codec verify ⊗ authority_codec verify).

Definition set_reset_account_operation_codec : codec set_reset_account_operation :=
  iso_codec
    (λ '(x0, (x1, x2)), Build_set_reset_account_operation x0 x1 x2)
    (λ o, (set_reset_account_account o, (set_reset_account_current_reset_account o,
          set_reset_account_reset_account o)))
    (name_codec verify ⊗ name_codec verify ⊗ name_codec verify).

Definition claim_reward_balance_operation_codec : codec claim_reward_balance_operation :=
  iso_codec
    (λ '(x0, (x1, (x2, x3))), Build_claim_reward_balance_operation x0 x1 x2 x3)
    (λ o, (claim_reward_balance_account o, (claim_reward_balance_reward_hive o,
          (claim_reward_balance_reward_hbd o, claim_reward_balance_reward_vests o))))
    (name_codec verify ⊗ asset_codec mode ⊗ asset_codec mode ⊗ asset_codec mode).

Definition delegate_vesting_shares_operation_codec : codec delegate_vesting_shares_operation :=
  iso_codec
    (λ '(x0, (x1, x2)), Build_delegate_vesting_shares_operation x0 x1 x2)
    (λ o, (delegate_vesting_shares_delegator o, (delegate_vesting_shares_delegatee o,
          delegate_vesting_shares_vesting_shares o)))
    (name_codec verify ⊗ name_codec verify ⊗ asset_codec mode).

Definition account_create_with_delegation_operation_codec : codec account_create_with_delegation_operation :=
  iso_codec
    (λ '(x0, (x1, (x2, (x3, (x4, (x5, (x6, (x7, (x8, x9))))))))),
      Build_account_create_with_delegation_operation x0 x1 x2 x3 x4 x5 x6 x7 x8 x9)
    (λ o, (account_create_with_delegation_fee o, (account_create_with_delegation_delegation o,
          (account_create_with_delegation_creator o,
          (account_create_with_delegation_new_account_name o,
          (account_create_with_delegation_owner o, (account_create_with_delegation_active o,
          (account_create_with_delegation_posting o, (account_create_with_delegation_memo_key o,
          (account_create_with_delegation_json_metadata o,
          account_create_with_delegation_extensions o))))))))))
    (asset_codec mode ⊗ asset_codec mode ⊗ name_codec verify ⊗ name_codec verify ⊗
     authority_codec verify ⊗ authority_codec verify ⊗ authority_codec verify ⊗ key_codec ⊗
     string_codec ⊗ extensions_codec).

Definition witness_set_properties_operation_codec : codec witness_set_properties_operation :=
  iso_codec
    (λ '(x0, (x1, x2)), Build_witness_set_properties_operation x0 x1 x2)
    (λ o, (witness_set_properties_owner o, (witness_set_properties_props o,
          witness_set_properties_extensions o)))
    (name_codec verify ⊗ props_codec ⊗ extensions_codec).

Definition account_update2_operation_codec : codec account_update2_operation :=
  iso_codec
    (λ '(x0, (x1, (x2, (x3, (x4, (x5, (x6, x7))))))),
      Build_account_update2_operation x0 x1 x2 x3 x4 x5 x6 x7)
    (λ o, (account_update2_account o, (account_update2_owner o, (account_update2_active o,
          (account_update2_posting o, (account_update2_memo_key o,
          (account_update2_json_metadata o, (account_update2_posting_json_metadata o,
          account_update2_extensions o))))))))
    (name_codec verify ⊗ optional_codec (authority_codec verify) ⊗
     optional_codec (authority_codec verify) ⊗ optional_codec (authority_codec verify) ⊗
     optional_codec key_codec ⊗ string_codec ⊗ string_codec ⊗ extensions_codec).

Definition create_proposal_operation_codec : codec create_proposal_operation :=
  iso_codec
    (λ '(x0, (x1, (x2, (x3, (x4, (x5, (x6, x7))))))),
      Build_create_proposal_operation x0 x1 x2 x3 x4 x5 x6 x7)
    (λ o, (create_proposal_creator o, (create_proposal_receiver o, (create_proposal_start_date o,
          (create_proposal_end_date o, (create_proposal_daily_pay o, (create_proposal_subject o,
          (create_proposal_permlink o, create_proposal_extensions o))))))))
    (name_codec verify ⊗ name_codec verify ⊗ uint_codec 4 ⊗ uint_codec 4 ⊗ asset_codec mode ⊗
     string_codec ⊗ string_codec ⊗ extensions_codec).

Definition update_proposal_votes_operation_codec : codec update_proposal_votes_operation :=
  iso_codec
    (λ '(x0, (x1, (x2, x3))), Build_update_proposal_votes_operation x0 x1 x2 x3)
    (λ o, (update_proposal_votes_voter o, (update_proposal_votes_proposal_ids o,
          (update_proposal_votes_approve o, update_proposal_votes_extensions o))))
    (name_codec verify ⊗ flat_codec Z.ltb 8 (int_codec 8) ⊗ bool_codec ⊗ extensions_codec).

Definition remove_proposal_operation_codec : codec remove_proposal_operation :=
  iso_codec
    (λ '(x0, (x1, x2)), Build_remove_proposal_operation x0 x1 x2)
    (λ o, (remove_proposal_proposal_owner o, (remove_proposal_proposal_ids o,
          remove_proposal_extensions o)))
    (name_codec verify ⊗ flat_codec Z.ltb 8 (int_codec 8) ⊗ extensions_codec).

Definition update_proposal_operation_codec : codec update_proposal_operation :=
  iso_codec
    (λ '(x0, (x1, (x2, (x3, (x4, x5))))), Build_update_proposal_operation x0 x1 x2 x3 x4 x5)
    (λ o, (update_proposal_proposal_id o, (update_proposal_creator o,
          (update_proposal_daily_pay o, (update_proposal_subject o, (update_proposal_permlink o,
          update_proposal_extensions o))))))
    (int_codec 8 ⊗ name_codec verify ⊗ asset_codec mode ⊗ string_codec ⊗ string_codec ⊗
     update_proposal_extensions_codec).

Definition collateralized_convert_operation_codec : codec collateralized_convert_operation :=
  iso_codec
    (λ '(x0, (x1, x2)), Build_collateralized_convert_operation x0 x1 x2)
    (λ o, (collateralized_convert_owner o, (collateralized_convert_requestid o,
          collateralized_convert_amount o)))
    (name_codec verify ⊗ uint_codec 4 ⊗ asset_codec mode).

Definition recurrent_transfer_operation_codec : codec recurrent_transfer_operation :=
  iso_codec
    (λ '(x0, (x1, (x2, (x3, (x4, (x5, x6)))))),
      Build_recurrent_transfer_operation x0 x1 x2 x3 x4 x5 x6)
    (λ o, (recurrent_transfer_from o, (recurrent_transfer_to o, (recurrent_transfer_amount o,
          (recurrent_transfer_memo o, (recurrent_transfer_recurrence o,
          (recurrent_transfer_executions o, recurrent_transfer_extensions o)))))))
    (name_codec verify ⊗ name_codec verify ⊗ asset_codec mode ⊗ string_codec ⊗ uint_codec 2 ⊗
     uint_codec 2 ⊗ recurrent_transfer_extensions_codec).

Definition fill_convert_request_operation_codec : codec fill_convert_request_operation :=
  iso_codec
    (λ '(x0, (x1, (x2, x3))), Build_fill_convert_request_operation x0 x1 x2 x3)
    (λ o, (fill_convert_request_owner o, (fill_convert_request_requestid o,
          (fill_convert_request_amount_in o, fill_convert_request_amount_out o))))
    (name_codec verify ⊗ uint_codec 4 ⊗ int_codec 8 ⊗ int_codec 8).

Definition author_reward_operation_codec : codec author_reward_operation :=
  iso_codec
    (λ '(x0, (x1, (x2, (x3, (x4, (x5, x6)))))),
      Build_author_reward_operation x0 x1 x2 x3 x4 x5 x6)
    (λ o, (author_reward_author o, (author_reward_permlink o, (author_reward_hbd_payout o,
          (author_reward_hive_payout o, (author_reward_vesting_payout o,
          (author_reward_curators_vesting_payout o, author_reward_payout_must_be_claimed o)))))))
    (name_codec verify ⊗ string_codec ⊗ int_codec 8 ⊗ int_codec 8 ⊗ int_codec 8 ⊗ int_codec 8 ⊗
     bool_codec).

Definition curation_reward_operation_codec : codec curation_reward_operation :=
  iso_codec
    (λ '(x0, (x1, (x2, (x3, x4)))), Build_curation_reward_operation x0 x1 x2 x3 x4)
    (λ o, (curation_reward_curator o, (curation_reward_reward o, (curation_reward_author o,
          (curation_reward_permlink o, curation_reward_payout_must_be_claimed o)))))
    (name_codec verify ⊗ int_codec 8 ⊗ name_codec verify ⊗ string_codec ⊗ bool_codec).

Definition comment_reward_operation_codec : codec comment_reward_operation :=
  iso_codec
    (λ '(x0, (x1, (x2, (x3, (x4, (x5, x6)))))),
      Build_comment_reward_operation x0 x1 x2 x3 x4 x5 x6)
    (λ o, (comment_reward_author o, (comment_reward_permlink o, (comment_reward_payout o,
          (comment_reward_author_rewards o, (comment_reward_total_payout_value o,
          (comment_reward_curator_payout_value o, comment_reward_beneficiary_payout_value o)))))))
    (name_codec verify ⊗ string_codec ⊗ int_codec 8 ⊗ int_codec 8 ⊗ int_codec 8 ⊗ int_codec 8 ⊗
     int_codec 8).

Definition liquidity_reward_operation_codec : codec liquidity_reward_operation :=
  iso_codec
    (λ '(x0, x1), Build_liquidity_reward_operation x0 x1)
    (λ o, (liquidity_reward_owner o, liquidity_reward_payout o))
    (name_codec verify ⊗ int_codec 8).

Definition interest_operation_codec : codec interest_operation :=
  iso_codec
    (λ '(x0, (x1, x2)), Build_interest_operation x0 x1 x2)
    (λ o, (interest_owner o, (interest_interest o, interest_is_saved_into_hbd_balance o)))
    (name_codec verify ⊗ int_codec 8 ⊗ bool_codec).

Definition fill_vesting_withdraw_operation_codec : codec fill_vesting_withdraw_operation :=
  iso_codec
    (λ '(x0, (x1, (x2, x3))), Build_fill_vesting_withdraw_operation x0 x1 x2 x3)
    (λ o, (fill_vesting_withdraw_from_account o, (fill_vesting_withdraw_to_account o,
          (fill_vesting_withdraw_withdrawn o, fill_vesting_withdraw_deposited o))))
    (name_codec verify ⊗ name_codec verify ⊗ int_codec 8 ⊗ asset_codec mode).

Definition fill_order_operation_codec : codec fill_order_operation :=
  iso_codec
    (λ '(x0, (x1, (x2, (x3, (x4, x5))))), Build_fill_order_operation x0 x1 x2 x3 x4 x5)
    (λ o, (fill_order_current_owner o, (fill_order_current_orderid o, (fill_order_current_pays o,
          (fill_order_open_owner o, (fill_order_open_orderid o, fill_order_open_pays o))))))
    (name_codec verify ⊗ uint_codec 4 ⊗ asset_codec mode ⊗ name_codec verify ⊗ uint_codec 4 ⊗
     asset_codec mode).

Definition shutdown_witness_operation_codec : codec shutdown_witness_operation :=
  iso_codec
    (λ x0, Build_shutdown_witness_operation x0)
    (λ o, shutdown_witness_owner o)
    (name_codec verify).

Definition fill_transfer_from_savings_operation_codec : codec fill_transfer_from_savings_operation :=
  iso_codec
    (λ '(x0, (x1, (x2, (x3, x4)))), Build_fill_transfer_from_savings_operation x0 x1 x2 x3 x4)
    (λ o, (fill_transfer_from_savings_from o, (fill_transfer_from_savings_to o,
          (fill_transfer_from_savings_amount o, (fill_transfer_from_savings_request_id o,
          fill_transfer_from_savings_memo o)))))
    (name_codec verify ⊗ name_codec verify ⊗ asset_codec mode ⊗ uint_codec 4 ⊗ string_codec).

Definition hardfork_operation_codec : codec hardfork_operation :=
  iso_codec
    (λ x0, Build_hardfork_operation x0)
    (λ o, hardfork_hardfork_id o)
    (uint_codec 4).

Definition comment_payout_update_operation_codec : codec comment_payout_update_operation :=
  iso_codec
    (λ '(x0, x1), Build_comment_payout_update_operation x0 x1)
    (λ o, (comment_payout_update_author o, comment_payout_update_permlink o))
    (name_codec verify ⊗ string_codec).

Definition return_vesting_delegation_operation_codec : codec return_vesting_delegation_operation :=
  iso_codec
    (λ '(x0, x1), Build_return_vesting_delegation_operation x0 x1)
    (λ o, (return_vesting_delegation_account o, return_vesting_delegation_vesting_shares o))
    (name_codec verify ⊗ int_codec 8).

Definition comment_benefactor_reward_operation_codec : codec comment_benefactor_reward_operation :=
  iso_codec
    (λ '(x0, (x1, (x2, (x3, (x4, (x5, x6)))))),
      Build_comment_benefactor_reward_operation x0 x1 x2 x3 x4 x5 x6)
    (λ o, (comment_benefactor_reward_benefactor o, (comment_benefactor_reward_author o,
          (comment_benefactor_reward_permlink o, (comment_benefactor_reward_hbd_payout o,
          (comment_benefactor_reward_hive_payout o, (comment_benefactor_reward_vesting_payout o,
          comment_benefactor_reward_payout_must_be_claimed o)))))))
    (name_codec verify ⊗ name_codec verify ⊗ string_codec ⊗ int_codec 8 ⊗ int_codec 8 ⊗
     int_codec 8 ⊗ bool_codec).

Definition producer_reward_operation_codec : codec producer_reward_operation :=
  iso_codec
    (λ '(x0, x1), Build_producer_reward_operation x0 x1)
    (λ o, (producer_reward_producer o, producer_reward_vesting_shares o))
    (name_codec verify ⊗ asset_codec mode).

Definition clear_null_account_balance_operation_codec : codec clear_null_account_balance_operation :=
  iso_codec
    (λ x0, Build_clear_null_account_balance_operation x0)
    (λ o, clear_null_account_balance_total_cleared o)
    (vector_codec sizeof_asset (asset_codec mode)).

Definition proposal_pay_operation_codec : codec proposal_pay_operation :=
  iso_codec
    (λ '(x0, (x1, (x2, x3))), Build_proposal_pay_operation x0 x1 x2 x3)
    (λ o, (proposal_pay_proposal_id o, (proposal_pay_receiver o, (proposal_pay_payer o,
          proposal_pay_payment o))))
    (uint_codec 4 ⊗ name_codec verify ⊗ name_codec verify ⊗ int_codec 8).

Definition dhf_funding_operation_codec : codec dhf_funding_operation :=
  iso_codec
    (λ '(x0, x1), Build_dhf_funding_operation x0 x1)
    (λ o, (dhf_funding_treasury o, dhf_funding_additional_funds o))
    (name_codec verify ⊗ int_codec 8).

Definition hardfork_hive_operation_codec : codec hardfork_hive_operation :=
  iso_codec
    (λ '(x0, (x1, (x2, (x3, (x4, (x5, x6)))))),
      Build_hardfork_hive_operation x0 x1 x2 x3 x4 x5 x6)
    (λ o, (hardfork_hive_account o, (hardfork_hive_treasury o,
          (hardfork_hive_other_affected_accounts o, (hardfork_hive_hbd_transferred o,
          (hardfork_hive_hive_transferred o, (hardfork_hive_vests_converted o,
          hardfork_hive_total_hive_from_vests o)))))))
    (name_codec verify ⊗ name_codec verify ⊗ vector_codec 16 (name_codec verify) ⊗ int_codec 8 ⊗
     int_codec 8 ⊗ int_codec 8 ⊗ int_codec 8).

Definition hardfork_hive_restore_operation_codec : codec hardfork_hive_restore_operation :=
  iso_codec
    (λ '(x0, (x1, (x2, x3))), Build_hardfork_hive_restore_operation x0 x1 x2 x3)
    (λ o, (hardfork_hive_restore_account o, (hardfork_hive_restore_treasury o,
          (hardfork_hive_restore_hbd_transferred o, hardfork_hive_restore_hive_transferred o))))
    (name_codec verify ⊗ name_codec verify ⊗ int_codec 8 ⊗ int_codec 8).

Definition delayed_voting_operation_codec : codec delayed_voting_operation :=
  iso_codec
    (λ '(x0, x1), Build_delayed_voting_operation x0 x1)
    (λ o, (delayed_voting_voter o, delayed_voting_votes o))
    (name_codec verify ⊗ uint_codec 8).

Definition consolidate_treasury_balance_operation_codec : codec consolidate_treasury_balance_operation :=
  iso_codec
    (λ x0, Build_consolidate_treasury_balance_operation x0)
    (λ o, consolidate_treasury_balance_total_moved o)
    (vector_codec sizeof_asset (asset_codec mode)).

Definition effective_comment_vote_operation_codec : codec effective_comment_vote_operation :=
  iso_codec
    (λ '(x0, (x1, (x2, (x3, (x4, (x5, x6)))))),
      Build_effective_comment_vote_operation x0 x1 x2 x3 x4 x5 x6)
    (λ o, (effective_comment_vote_voter o, (effective_comment_vote_author o,
          (effective_comment_vote_permlink o, (effective_comment_vote_weight o,
          (effective_comment_vote_rshares o, (effective_comment_vote_total_vote_weight o,
          effective_comment_vote_pending_payout o)))))))
    (name_codec verify ⊗ name_codec verify ⊗ string_codec ⊗ uint_codec 8 ⊗ int_codec 8 ⊗
     uint_codec 8 ⊗ int_codec 8).

Definition ineffective_delete_comment_operation_codec : codec ineffective_delete_comment_operation :=
  iso_codec
    (λ '(x0, x1), Build_ineffective_delete_comment_operation x0 x1)
    (λ o, (ineffective_delete_comment_author o, ineffective_delete_comment_permlink o))
    (name_codec verify ⊗ string_codec).

Definition dhf_conversion_operation_codec : codec dhf_conversion_operation :=
  iso_codec
    (λ '(x0, (x1, x2)), Build_dhf_conversion_operation x0 x1 x2)
    (λ o, (dhf_conversion_treasury o, (dhf_conversion_hive_amount_in o,
          dhf_conversion_hbd_amount_out o)))
    (name_codec verify ⊗ int_codec 8 ⊗ int_codec 8).

Definition expired_account_notification_operation_codec : codec expired_account_notification_operation :=
  iso_codec
    (λ x0, Build_expired_account_notification_operation x0)
    (λ o, expired_account_notification_account o)
    (name_codec verify).

Definition changed_recovery_account_operation_codec : codec changed_recovery_account_operation :=
  iso_codec
    (λ '(x0, (x1, x2)), Build_changed_recovery_account_operation x0 x1 x2)
    (λ o, (changed_recovery_account_account o, (changed_recovery_account_old_recovery_account o,
          changed_recovery_account_new_recovery_account o)))
    (name_codec verify ⊗ name_codec verify ⊗ name_codec verify).

Definition transfer_to_vesting_completed_operation_codec : codec transfer_to_vesting_completed_operation :=
  iso_codec
    (λ '(x0, (x1, (x2, x3))), Build_transfer_to_vesting_completed_operation x0 x1 x2 x3)
    (λ o, (transfer_to_vesting_completed_from_account o,
          (transfer_to_vesting_completed_to_account o,
          (transfer_to_vesting_completed_hive_vested o,
          transfer_to_vesting_completed_vesting_shares_received o))))
    (name_codec verify ⊗ name_codec verify ⊗ int_codec 8 ⊗ int_codec 8).

Definition pow_reward_operation_codec : codec pow_reward_operation :=
  iso_codec
    (λ '(x0, x1), Build_pow_reward_operation x0 x1)
    (λ o, (pow_reward_worker o, pow_reward_reward o))
    (name_codec verify ⊗ asset_codec mode).

Definition vesting_shares_split_operation_codec : codec vesting_shares_split_operation :=
  iso_codec
    (λ '(x0, (x1, x2)), Build_vesting_shares_split_operation x0 x1 x2)
    (λ o, (vesting_shares_split_owner o, (vesting_shares_split_vesting_shares_before_split o,
          vesting_shares_split_vesting_shares_after_split o)))
    (name_codec verify ⊗ int_codec 8 ⊗ int_codec 8).

Definition account_created_operation_codec : codec account_created_operation :=
  iso_codec
    (λ '(x0, (x1, (x2, x3))), Build_account_created_operation x0 x1 x2 x3)
    (λ o, (account_created_new_account_name o, (account_created_creator o,
          (account_created_initial_vesting_shares o, account_created_initial_delegation o))))
    (name_codec verify ⊗ name_codec verify ⊗ int_codec 8 ⊗ int_codec 8).

Definition fill_collateralized_convert_request_operation_codec : codec fill_collateralized_convert_request_operation :=
  iso_codec
    (λ '(x0, (x1, (x2, (x3, x4)))),
      Build_fill_collateralized_convert_request_operation x0 x1 x2 x3 x4)
    (λ o, (fill_collateralized_convert_request_owner o,
          (fill_collateralized_convert_request_requestid o,
          (fill_collateralized_convert_request_amount_in o,
          (fill_collateralized_convert_request_amount_out o,
          fill_collateralized_convert_request_excess_collateral o)))))
    (name_codec verify ⊗ uint_codec 4 ⊗ int_codec 8 ⊗ int_codec 8 ⊗ int_codec 8).

Definition system_warning_operation_codec : codec system_warning_operation :=
  iso_codec
    (λ x0, Build_system_warning_operation x0)
    (λ o, system_warning_message o)
    (string_codec).

Definition fill_recurrent_transfer_operation_codec : codec fill_recurrent_transfer_operation :=
  iso_codec
    (λ '(x0, (x1, (x2, (x3, x4)))), Build_fill_recurrent_transfer_operation x0 x1 x2 x3 x4)
    (λ o, (fill_recurrent_transfer_from o, (fill_recurrent_transfer_to o,
          (fill_recurrent_transfer_amount o, (fill_recurrent_transfer_memo o,
          fill_recurrent_transfer_remaining_executions o)))))
    (name_codec verify ⊗ name_codec verify ⊗ asset_codec mode ⊗ string_codec ⊗ uint_codec 2).

Definition failed_recurrent_transfer_operation_codec : codec failed_recurrent_transfer_operation :=
  iso_codec
    (λ '(x0, (x1, (x2, (x3, (x4, (x5, x6)))))),
      Build_failed_recurrent_transfer_operation x0 x1 x2 x3 x4 x5 x6)
    (λ o, (failed_recurrent_transfer_from o, (failed_recurrent_transfer_to o,
          (failed_recurrent_transfer_amount o, (failed_recurrent_transfer_memo o,
          (failed_recurrent_transfer_consecutive_failures o,
          (failed_recurrent_transfer_remaining_executions o, failed_recurrent_transfer_deleted o)))))))
    (name_codec verify ⊗ name_codec verify ⊗ asset_codec mode ⊗ string_codec ⊗ uint_codec 1 ⊗
     uint_codec 2 ⊗ bool_codec).

Definition limit_order_cancelled_operation_codec : codec limit_order_cancelled_operation :=
  iso_codec
    (λ '(x0, (x1, x2)), Build_limit_order_cancelled_operation x0 x1 x2)
    (λ o, (limit_order_cancelled_seller o, (limit_order_cancelled_orderid o,
          limit_order_cancelled_amount_back o)))
    (name_codec verify ⊗ uint_codec 4 ⊗ asset_codec mode).

Definition producer_missed_operation_codec : codec producer_missed_operation :=
  iso_codec
    (λ x0, Build_producer_missed_operation x0)
    (λ o, producer_missed_producer o)
    (name_codec verify).

Definition proposal_fee_operation_codec : codec proposal_fee_operation :=
  iso_codec
    (λ '(x0, (x1, (x2, x3))), Build_proposal_fee_operation x0 x1 x2 x3)
    (λ o, (proposal_fee_creator o, (proposal_fee_treasury o, (proposal_fee_proposal_id o,
          proposal_fee_fee o))))
    (name_codec verify ⊗ name_codec verify ⊗ uint_codec 4 ⊗ int_codec 8).

Definition collateralized_convert_immediate_conversion_operation_codec : codec collateralized_convert_immediate_conversion_operation :=
  iso_codec
    (λ '(x0, (x1, x2)), Build_collateralized_convert_immediate_conversion_operation x0 x1 x2)
    (λ o, (collateralized_convert_immediate_conversion_owner o,
          (collateralized_convert_immediate_conversion_requestid o,
          collateralized_convert_immediate_conversion_hbd_out o)))
    (name_codec verify ⊗ uint_codec 4 ⊗ int_codec 8).

Definition escrow_approved_operation_codec : codec escrow_approved_operation :=
  iso_codec
    (λ '(x0, (x1, (x2, (x3, x4)))), Build_escrow_approved_operation x0 x1 x2 x3 x4)
    (λ o, (escrow_approved_from o, (escrow_approved_to o, (escrow_approved_agent o,
          (escrow_approved_escrow_id o, escrow_approved_fee o)))))
    (name_codec verify ⊗ name_codec verify ⊗ name_codec verify ⊗ uint_codec 4 ⊗ asset_codec mode).

Definition escrow_rejected_operation_codec : codec escrow_rejected_operation :=
  iso_codec
    (λ '(x0, (x1, (x2, (x3, (x4, (x5, x6)))))),
      Build_escrow_rejected_operation x0 x1 x2 x3 x4 x5 x6)
    (λ o, (escrow_rejected_from o, (escrow_rejected_to o, (escrow_rejected_agent o,
          (escrow_rejected_escrow_id o, (escrow_rejected_hbd_amount o,
          (escrow_rejected_hive_amount o, escrow_rejected_fee o)))))))
    (name_codec verify ⊗ name_codec verify ⊗ name_codec verify ⊗ uint_codec 4 ⊗ int_codec 8 ⊗
     int_codec 8 ⊗ asset_codec mode).

Definition proxy_cleared_operation_codec : codec proxy_cleared_operation :=
  iso_codec
    (λ '(x0, x1), Build_proxy_cleared_operation x0 x1)
    (λ o, (proxy_cleared_account o, proxy_cleared_proxy o))
    (name_codec verify ⊗ name_codec verify).

Definition declined_voting_rights_operation_codec : codec declined_voting_rights_operation :=
  iso_codec
    (λ x0, Build_declined_voting_rights_operation x0)
    (λ o, declined_voting_rights_account o)
    (name_codec verify).

(** ** The variant *)

Definition pack_operation_value (op : operation) : result (list Z) :=
  match op with
  | op_vote o => pack vote_operation_codec o
  | op_comment o => pack comment_operation_codec o
  | op_transfer o => pack transfer_operation_codec o
  | op_transfer_to_vesting o => pack transfer_to_vesting_operation_codec o
  | op_withdraw_vesting o => pack withdraw_vesting_operation_codec o
  | op_limit_order_create o => pack limit_order_create_operation_codec o
  | op_limit_order_cancel o => pack limit_order_cancel_operation_codec o
  | op_feed_publish o => pack feed_publish_operation_codec o
  | op_convert o => pack convert_operation_codec o
  | op_account_create o => pack account_create_operation_codec o
  | op_account_update o => pack account_update_operation_codec o
  | op_witness_update o => pack witness_update_operation_codec o
  | op_account_witness_vote o => pack account_witness_vote_operation_codec o
  | op_account_witness_proxy o => pack account_witness_proxy_operation_codec o
  | op_pow o => pack pow_operation_codec o
  | op_custom o => pack custom_operation_codec o
  | op_witness_block_approve o => pack witness_block_approve_operation_codec o
  | op_delete_comment o => pack delete_comment_operation_codec o
  | op_custom_json o => pack custom_json_operation_codec o
  | op_comment_options o => pack comment_options_operation_codec o
  | op_set_withdraw_vesting_route o => pack set_withdraw_vesting_route_operation_codec o
  | op_limit_order_create2 o => pack limit_order_create2_operation_codec o
  | op_claim_account o => pack claim_account_operation_codec o
  | op_create_claimed_account o => pack create_claimed_account_operation_codec o
  | op_request_account_recovery o => pack request_account_recovery_operation_codec o
  | op_recover_account o => pack recover_account_operation_codec o
  | op_change_recovery_account o => pack change_recovery_account_operation_codec o
  | op_escrow_transfer o => pack escrow_transfer_operation_codec o
  | op_escrow_dispute o => pack escrow_dispute_operation_codec o
  | op_escrow_release o => pack escrow_release_operation_codec o
  | op_pow2 o => pack pow2_operation_codec o
  | op_escrow_approve o => pack escrow_approve_operation_codec o
  | op_transfer_to_savings o => pack transfer_to_savings_operation_codec o
  | op_transfer_from_savings o => pack transfer_from_savings_operation_codec o
  | op_cancel_transfer_from_savings o => pack cancel_transfer_from_savings_operation_codec o
  | op_custom_binary o => pack custom_binary_operation_codec o
  | op_decline_voting_rights o => pack decline_voting_rights_operation_codec o
  | op_reset_account o => pack reset_account_operation_codec o
  | op_set_reset_account o => pack set_reset_account_operation_codec o
  | op_claim_reward_balance o => pack claim_reward_balance_operation_codec o
  | op_delegate_vesting_shares o => pack delegate_vesting_shares_operation_codec o
  | op_account_create_with_delegation o => pack account_create_with_delegation_operation_codec o
  | op_witness_set_properties o => pack witness_set_properties_operation_codec o
  | op_account_update2 o => pack account_update2_operation_codec o
  | op_create_proposal o => pack create_proposal_operation_codec o
  | op_update_proposal_votes o => pack update_proposal_votes_operation_codec o
  | op_remove_proposal o => pack remove_proposal_operation_codec o
  | op_update_proposal o => pack update_proposal_operation_codec o
  | op_collateralized_convert o => pack collateralized_convert_operation_codec o
  | op_recurrent_transfer o => pack recurrent_transfer_operation_codec o
  | op_fill_convert_request o => pack fill_convert_request_operation_codec o
  | op_author_reward o => pack author_reward_operation_codec o
  | op_curation_reward o => pack curation_reward_operation_codec o
  | op_comment_reward o => pack comment_reward_operation_codec o
  | op_liquidity_reward o => pack liquidity_reward_operation_codec o
  | op_interest o => pack interest_operation_codec o
  | op_fill_vesting_withdraw o => pack fill_vesting_withdraw_operation_codec o
  | op_fill_order o => pack fill_order_operation_codec o
  | op_shutdown_witness o => pack shutdown_witness_operation_codec o
  | op_fill_transfer_from_savings o => pack fill_transfer_from_savings_operation_codec o
  | op_hardfork o => pack hardfork_operation_codec o
  | op_comment_payout_update o => pack comment_payout_update_operation_codec o
  | op_return_vesting_delegation o => pack return_vesting_delegation_operation_codec o
  | op_comment_benefactor_reward o => pack comment_benefactor_reward_operation_codec o
  | op_producer_reward o => pack producer_reward_operation_codec o
  | op_clear_null_account_balance o => pack clear_null_account_balance_operation_codec o
  | op_proposal_pay o => pack proposal_pay_operation_codec o
  | op_dhf_funding o => pack dhf_funding_operation_codec o
  | op_hardfork_hive o => pack hardfork_hive_operation_codec o
  | op_hardfork_hive_restore o => pack hardfork_hive_restore_operation_codec o
  | op_delayed_voting o => pack delayed_voting_operation_codec o
  | op_consolidate_treasury_balance o => pack consolidate_treasury_balance_operation_codec o
  | op_effective_comment_vote o => pack effective_comment_vote_operation_codec o
  | op_ineffective_delete_comment o => pack ineffective_delete_comment_operation_codec o
  | op_dhf_conversion o => pack dhf_conversion_operation_codec o
  | op_expired_account_notification o => pack expired_account_notification_operation_codec o
  | op_changed_recovery_account o => pack changed_recovery_account_operation_codec o
  | op_transfer_to_vesting_completed o => pack transfer_to_vesting_completed_operation_codec o
  | op_pow_reward o => pack pow_reward_operation_codec o
  | op_vesting_shares_split o => pack vesting_shares_split_operation_codec o
  | op_account_created o => pack account_created_operation_codec o
  | op_fill_collateralized_convert_request o => pack fill_collateralized_convert_request_operation_codec o
  | op_system_warning o => pack system_warning_operation_codec o
  | op_fill_recurrent_transfer o => pack fill_recurrent_transfer_operation_codec o
  | op_failed_recurrent_transfer o => pack failed_recurrent_transfer_operation_codec o
  | op_limit_order_cancelled o => pack limit_order_cancelled_operation_codec o
  | op_producer_missed o => pack producer_missed_operation_codec o
  | op_proposal_fee o => pack proposal_fee_operation_codec o
  | op_collateralized_convert_immediate_conversion o => pack collateralized_convert_immediate_conversion_operation_codec o
  | op_escrow_approved o => pack escrow_approved_operation_codec o
  | op_escrow_rejected o => pack escrow_rejected_operation_codec o
  | op_proxy_cleared o => pack proxy_cleared_operation_codec o
  | op_declined_voting_rights o => pack declined_voting_rights_operation_codec o
  end.

Definition unpack_operation_value (tag : Z) : list Z → result (operation * list Z) :=
  match tag with
  | 0 => alt vote_operation_codec op_vote
  | 1 => alt comment_operation_codec op_comment
  | 2 => alt transfer_operation_codec op_transfer
  | 3 => alt transfer_to_vesting_operation_codec op_transfer_to_vesting
  | 4 => alt withdraw_vesting_operation_codec op_withdraw_vesting
  | 5 => alt limit_order_create_operation_codec op_limit_order_create
  | 6 => alt limit_order_cancel_operation_codec op_limit_order_cancel
  | 7 => alt feed_publish_operation_codec op_feed_publish
  | 8 => alt convert_operation_codec op_convert
  | 9 => alt account_create_operation_codec op_account_create
  | 10 => alt account_update_operation_codec op_account_update
  | 11 => alt witness_update_operation_codec op_witness_update
  | 12 => alt account_witness_vote_operation_codec op_account_witness_vote
  | 13 => alt account_witness_proxy_operation_codec op_account_witness_proxy
  | 14 => alt pow_operation_codec op_pow
  | 15 => alt custom_operation_codec op_custom
  | 16 => alt witness_block_approve_operation_codec op_witness_block_approve
  | 17 => alt delete_comment_operation_codec op_delete_comment
  | 18 => alt custom_json_operation_codec op_custom_json
  | 19 => alt comment_options_operation_codec op_comment_options
  | 20 => alt set_withdraw_vesting_route_operation_codec op_set_withdraw_vesting_route
  | 21 => alt limit_order_create2_operation_codec op_limit_order_create2
  | 22 => alt claim_account_operation_codec op_claim_account
  | 23 => alt create_claimed_account_operation_codec op_create_claimed_account
  | 24 => alt request_account_recovery_operation_codec op_request_account_recovery
  | 25 => alt recover_account_operation_codec op_recover_account
  | 26 => alt change_recovery_account_operation_codec op_change_recovery_account
  | 27 => alt escrow_transfer_operation_codec op_escrow_transfer
  | 28 => alt escrow_dispute_operation_codec op_escrow_dispute
  | 29 => alt escrow_release_operation_codec op_escrow_release
  | 30 => alt pow2_operation_codec op_pow2
  | 31 => alt escrow_approve_operation_codec op_escrow_approve
  | 32 => alt transfer_to_savings_operation_codec op_transfer_to_savings
  | 33 => alt transfer_from_savings_operation_codec op_transfer_from_savings
  | 34 => alt cancel_transfer_from_savings_operation_codec op_cancel_transfer_from_savings
  | 35 => alt custom_binary_operation_codec op_custom_binary
  | 36 => alt decline_voting_rights_operation_codec op_decline_voting_rights
  | 37 => alt reset_account_operation_codec op_reset_account
  | 38 => alt set_reset_account_operation_codec op_set_reset_account
  | 39 => alt claim_reward_balance_operation_codec op_claim_reward_balance
  | 40 => alt delegate_vesting_shares_operation_codec op_delegate_vesting_shares
  | 41 => alt account_create_with_delegation_operation_codec op_account_create_with_delegation
  | 42 => alt witness_set_properties_operation_codec op_witness_set_properties
  | 43 => alt account_update2_operation_codec op_account_update2
  | 44 => alt create_proposal_operation_codec op_create_proposal
  | 45 => alt update_proposal_votes_operation_codec op_update_proposal_votes
  | 46 => alt remove_proposal_operation_codec op_remove_proposal
  | 47 => alt update_proposal_operation_codec op_update_proposal
  | 48 => alt collateralized_convert_operation_codec op_collateralized_convert
  | 49 => alt recurrent_transfer_operation_codec op_recurrent_transfer
  | 50 => alt fill_convert_request_operation_codec op_fill_convert_request
  | 51 => alt author_reward_operation_codec op_author_reward
  | 52 => alt curation_reward_operation_codec op_curation_reward
  | 53 => alt comment_reward_operation_codec op_comment_reward
  | 54 => alt liquidity_reward_operation_codec op_liquidity_reward
  | 55 => alt interest_operation_codec op_interest
  | 56 => alt fill_vesting_withdraw_operation_codec op_fill_vesting_withdraw
  | 57 => alt fill_order_operation_codec op_fill_order
  | 58 => alt shutdown_witness_operation_codec op_shutdown_witness
  | 59 => alt fill_transfer_from_savings_operation_codec op_fill_transfer_from_savings
  | 60 => alt hardfork_operation_codec op_hardfork
  | 61 => alt comment_payout_update_operation_codec op_comment_payout_update
  | 62 => alt return_vesting_delegation_operation_codec op_return_vesting_delegation
  | 63 => alt comment_benefactor_reward_operation_codec op_comment_benefactor_reward
  | 64 => alt producer_reward_operation_codec op_producer_reward
  | 65 => alt clear_null_account_balance_operation_codec op_clear_null_account_balance
  | 66 => alt proposal_pay_operation_codec op_proposal_pay
  | 67 => alt dhf_funding_operation_codec op_dhf_funding
  | 68 => alt hardfork_hive_operation_codec op_hardfork_hive
  | 69 => alt hardfork_hive_restore_operation_codec op_hardfork_hive_restore
  | 70 => alt delayed_voting_operation_codec op_delayed_voting
  | 71 => alt consolidate_treasury_balance_operation_codec op_consolidate_treasury_balance
  | 72 => alt effective_comment_vote_operation_codec op_effective_comment_vote
  | 73 => alt ineffective_delete_comment_operation_codec op_ineffective_delete_comment
  | 74 => alt dhf_conversion_operation_codec op_dhf_conversion
  | 75 => alt expired_account_notification_operation_codec op_expired_account_notification
  | 76 => alt changed_recovery_account_operation_codec op_changed_recovery_account
  | 77 => alt transfer_to_vesting_completed_operation_codec op_transfer_to_vesting_completed
  | 78 => alt pow_reward_operation_codec op_pow_reward
  | 79 => alt vesting_shares_split_operation_codec op_vesting_shares_split
  | 80 => alt account_created_operation_codec op_account_created
  | 81 => alt fill_collateralized_convert_request_operation_codec op_fill_collateralized_convert_request
  | 82 => alt system_warning_operation_codec op_system_warning
  | 83 => alt fill_recurrent_transfer_operation_codec op_fill_recurrent_transfer
  | 84 => alt failed_recurrent_transfer_operation_codec op_failed_recurrent_transfer
  | 85 => alt limit_order_cancelled_operation_codec op_limit_order_cancelled
  | 86 => alt producer_missed_operation_codec op_producer_missed
  | 87 => alt proposal_fee_operation_codec op_proposal_fee
  | 88 => alt collateralized_convert_immediate_conversion_operation_codec op_collateralized_convert_immediate_conversion
  | 89 => alt escrow_approved_operation_codec op_escrow_approved
  | 90 => alt escrow_rejected_operation_codec op_escrow_rejected
  | 91 => alt proxy_cleared_operation_codec op_proxy_cleared
  | 92 => alt declined_voting_rights_operation_codec op_declined_voting_rights
  | _ => λ _, Throw invalid_tag
  end.

Definition operation_ok (op : operation) : Prop :=
  match op with
  | op_vote o => wf vote_operation_codec o
  | op_comment o => wf comment_operation_codec o
  | op_transfer o => wf transfer_operation_codec o
  | op_transfer_to_vesting o => wf transfer_to_vesting_operation_codec o
  | op_withdraw_vesting o => wf withdraw_vesting_operation_codec o
  | op_limit_order_create o => wf limit_order_create_operation_codec o
  | op_limit_order_cancel o => wf limit_order_cancel_operation_codec o
  | op_feed_publish o => wf feed_publish_operation_codec o
  | op_convert o => wf convert_operation_codec o
  | op_account_create o => wf account_create_operation_codec o
  | op_account_update o => wf account_update_operation_codec o
  | op_witness_update o => wf witness_update_operation_codec o
  | op_account_witness_vote o => wf account_witness_vote_operation_codec o
  | op_account_witness_proxy o => wf account_witness_proxy_operation_codec o
  | op_pow o => wf pow_operation_codec o
  | op_custom o => wf custom_operation_codec o
  | op_witness_block_approve o => wf witness_block_approve_operation_codec o
  | op_delete_comment o => wf delete_comment_operation_codec o
  | op_custom_json o => wf custom_json_operation_codec o
  | op_comment_options o => wf comment_options_operation_codec o
  | op_set_withdraw_vesting_route o => wf set_withdraw_vesting_route_operation_codec o
  | op_limit_order_create2 o => wf limit_order_create2_operation_codec o
  | op_claim_account o => wf claim_account_operation_codec o
  | op_create_claimed_account o => wf create_claimed_account_operation_codec o
  | op_request_account_recovery o => wf request_account_recovery_operation_codec o
  | op_recover_account o => wf recover_account_operation_codec o
  | op_change_recovery_account o => wf change_recovery_account_operation_codec o
  | op_escrow_transfer o => wf escrow_transfer_operation_codec o
  | op_escrow_dispute o => wf escrow_dispute_operation_codec o
  | op_escrow_release o => wf escrow_release_operation_codec o
  | op_pow2 o => wf pow2_operation_codec o
  | op_escrow_approve o => wf escrow_approve_operation_codec o
  | op_transfer_to_savings o => wf transfer_to_savings_operation_codec o
  | op_transfer_from_savings o => wf transfer_from_savings_operation_codec o
  | op_cancel_transfer_from_savings o => wf cancel_transfer_from_savings_operation_codec o
  | op_custom_binary o => wf custom_binary_operation_codec o
  | op_decline_voting_rights o => wf decline_voting_rights_operation_codec o
  | op_reset_account o => wf reset_account_operation_codec o
  | op_set_reset_account o => wf set_reset_account_operation_codec o
  | op_claim_reward_balance o => wf claim_reward_balance_operation_codec o
  | op_delegate_vesting_shares o => wf delegate_vesting_shares_operation_codec o
  | op_account_create_with_delegation o => wf account_create_with_delegation_operation_codec o
  | op_witness_set_properties o => wf witness_set_properties_operation_codec o
  | op_account_update2 o => wf account_update2_operation_codec o
  | op_create_proposal o => wf create_proposal_operation_codec o
  | op_update_proposal_votes o => wf update_proposal_votes_operation_codec o
  | op_remove_proposal o => wf remove_proposal_operation_codec o
  | op_update_proposal o => wf update_proposal_operation_codec o
  | op_collateralized_convert o => wf collateralized_convert_operation_codec o
  | op_recurrent_transfer o => wf recurrent_transfer_operation_codec o
  | op_fill_convert_request o => wf fill_convert_request_operation_codec o
  | op_author_reward o => wf author_reward_operation_codec o
  | op_curation_reward o => wf curation_reward_operation_codec o
  | op_comment_reward o => wf comment_reward_operation_codec o
  | op_liquidity_reward o => wf liquidity_reward_operation_codec o
  | op_interest o => wf interest_operation_codec o
  | op_fill_vesting_withdraw o => wf fill_vesting_withdraw_operation_codec o
  | op_fill_order o => wf fill_order_operation_codec o
  | op_shutdown_witness o => wf shutdown_witness_operation_codec o
  | op_fill_transfer_from_savings o => wf fill_transfer_from_savings_operation_codec o
  | op_hardfork o => wf hardfork_operation_codec o
  | op_comment_payout_update o => wf comment_payout_update_operation_codec o
  | op_return_vesting_delegation o => wf return_vesting_delegation_operation_codec o
  | op_comment_benefactor_reward o => wf comment_benefactor_reward_operation_codec o
  | op_producer_reward o => wf producer_reward_operation_codec o
  | op_clear_null_account_balance o => wf clear_null_account_balance_operation_codec o
  | op_proposal_pay o => wf proposal_pay_operation_codec o
  | op_dhf_funding o => wf dhf_funding_operation_codec o
  | op_hardfork_hive o => wf hardfork_hive_operation_codec o
  | op_hardfork_hive_restore o => wf hardfork_hive_restore_operation_codec o
  | op_delayed_voting o => wf delayed_voting_operation_codec o
  | op_consolidate_treasury_balance o => wf consolidate_treasury_balance_operation_codec o
  | op_effective_comment_vote o => wf effective_comment_vote_operation_codec o
  | op_ineffective_delete_comment o => wf ineffective_delete_comment_operation_codec o
  | op_dhf_conversion o => wf dhf_conversion_operation_codec o
  | op_expired_account_notification o => wf expired_account_notification_operation_codec o
  | op_changed_recovery_account o => wf changed_recovery_account_operation_codec o
  | op_transfer_to_vesting_completed o => wf transfer_to_vesting_completed_operation_codec o
  | op_pow_reward o => wf pow_reward_operation_codec o
  | op_vesting_shares_split o => wf vesting_shares_split_operation_codec o
  | op_account_created o => wf account_created_operation_codec o
  | op_fill_collateralized_convert_request o => wf fill_collateralized_convert_request_operation_codec o
  | op_system_warning o => wf system_warning_operation_codec o
  | op_fill_recurrent_transfer o => wf fill_recurrent_transfer_operation_codec o
  | op_failed_recurrent_transfer o => wf failed_recurrent_transfer_operation_codec o
  | op_limit_order_cancelled o => wf limit_order_cancelled_operation_codec o
  | op_producer_missed o => wf producer_missed_operation_codec o
  | op_proposal_fee o => wf proposal_fee_operation_codec o
  | op_collateralized_convert_immediate_conversion o => wf collateralized_convert_immediate_conversion_operation_codec o
  | op_escrow_approved o => wf escrow_approved_operation_codec o
  | op_escrow_rejected o => wf escrow_rejected_operation_codec o
  | op_proxy_cleared o => wf proxy_cleared_operation_codec o
  | op_declined_voting_rights o => wf declined_voting_rights_operation_codec o
  end.

Definition operation_codec : codec operation :=
  variant_codec which pack_operation_value unpack_operation_value operation_ok.
End codecs.

(** ** The round trip *)

Section laws.
Context `{EndianReverse64Laws, Layout} (verify : bool) (mode : pack_type).

#[export] Instance op_vote_roundtrip : Roundtrip (vote_operation_codec verify).
Proof. by_fields. Qed.
#[export] Instance op_comment_roundtrip : Roundtrip (comment_operation_codec verify).
Proof. by_fields. Qed.
#[export] Instance op_transfer_roundtrip : Roundtrip (transfer_operation_codec verify mode).
Proof. by_fields. Qed.
#[export] Instance op_transfer_to_vesting_roundtrip :
  Roundtrip (transfer_to_vesting_operation_codec verify mode).
Proof. by_fields. Qed.
#[export] Instance op_withdraw_vesting_roundtrip :
  Roundtrip (withdraw_vesting_operation_codec verify mode).
Proof. by_fields. Qed.
#[export] Instance op_limit_order_create_roundtrip :
  Roundtrip (limit_order_create_operation_codec verify mode).
Proof. by_fields. Qed.
#[export] Instance op_limit_order_cancel_roundtrip :
  Roundtrip (limit_order_cancel_operation_codec verify).
Proof. by_fields. Qed.
#[export] Instance op_feed_publish_roundtrip :
  Roundtrip (feed_publish_operation_codec verify mode).
Proof. by_fields. Qed.
#[export] Instance op_convert_roundtrip : Roundtrip (convert_operation_codec verify mode).
Proof. by_fields. Qed.
#[export] Instance op_account_create_roundtrip :
  Roundtrip (account_create_operation_codec verify mode).
Proof. by_fields. Qed.
#[export] Instance op_account_update_roundtrip :
  Roundtrip (account_update_operation_codec verify).
Proof. by_fields. Qed.
#[export] Instance op_witness_update_roundtrip :
  Roundtrip (witness_update_operation_codec verify mode).
Proof. by_fields. Qed.
#[export] Instance op_account_witness_vote_roundtrip :
  Roundtrip (account_witness_vote_operation_codec verify).
Proof. by_fields. Qed.
#[export] Instance op_account_witness_proxy_roundtrip :
  Roundtrip (account_witness_proxy_operation_codec verify).
Proof. by_fields. Qed.
#[export] Instance op_pow_roundtrip : Roundtrip (pow_operation_codec verify mode).
Proof. by_fields. Qed.
#[export] Instance op_custom_roundtrip : Roundtrip (custom_operation_codec verify).
Proof. by_fields. Qed.
#[export] Instance op_witness_block_approve_roundtrip :
  Roundtrip (witness_block_approve_operation_codec verify).
Proof. by_fields. Qed.
#[export] Instance op_delete_comment_roundtrip :
  Roundtrip (delete_comment_operation_codec verify).
Proof. by_fields. Qed.
#[export] Instance op_custom_json_roundtrip : Roundtrip (custom_json_operation_codec verify).
Proof. by_fields. Qed.
#[export] Instance op_comment_options_roundtrip :
  Roundtrip (comment_options_operation_codec verify mode).
Proof. by_fields. Qed.
#[export] Instance op_set_withdraw_vesting_route_roundtrip :
  Roundtrip (set_withdraw_vesting_route_operation_codec verify).
Proof. by_fields. Qed.
#[export] Instance op_limit_order_create2_roundtrip :
  Roundtrip (limit_order_create2_operation_codec verify mode).
Proof. by_fields. Qed.
#[export] Instance op_claim_account_roundtrip :
  Roundtrip (claim_account_operation_codec verify mode).
Proof. by_fields. Qed.
#[export] Instance op_create_claimed_account_roundtrip :
  Roundtrip (create_claimed_account_operation_codec verify).
Proof. by_fields. Qed.
#[export] Instance op_request_account_recovery_roundtrip :
  Roundtrip (request_account_recovery_operation_codec verify).
Proof. by_fields. Qed.
#[export] Instance op_recover_account_roundtrip :
  Roundtrip (recover_account_operation_codec verify).
Proof. by_fields. Qed.
#[export] Instance op_change_recovery_account_roundtrip :
  Roundtrip (change_recovery_account_operation_codec verify).
Proof. by_fields. Qed.
#[export] Instance op_escrow_transfer_roundtrip :
  Roundtrip (escrow_transfer_operation_codec verify mode).
Proof. by_fields. Qed.
#[export] Instance op_escrow_dispute_roundtrip :
  Roundtrip (escrow_dispute_operation_codec verify).
Proof. by_fields. Qed.
#[export] Instance op_escrow_release_roundtrip :
  Roundtrip (escrow_release_operation_codec verify mode).
Proof. by_fields. Qed.
#[export] Instance op_pow2_roundtrip : Roundtrip (pow2_operation_codec verify mode).
Proof. by_fields. Qed.
#[export] Instance op_escrow_approve_roundtrip :
  Roundtrip (escrow_approve_operation_codec verify).
Proof. by_fields. Qed.
#[export] Instance op_transfer_to_savings_roundtrip :
  Roundtrip (transfer_to_savings_operation_codec verify mode).
Proof. by_fields. Qed.
#[export] Instance op_transfer_from_savings_roundtrip :
  Roundtrip (transfer_from_savings_operation_codec verify mode).
Proof. by_fields. Qed.
#[export] Instance op_cancel_transfer_from_savings_roundtrip :
  Roundtrip (cancel_transfer_from_savings_operation_codec verify).
Proof. by_fields. Qed.
#[export] Instance op_custom_binary_roundtrip : Roundtrip (custom_binary_operation_codec verify).
Proof. by_fields. Qed.
#[export] Instance op_decline_voting_rights_roundtrip :
  Roundtrip (decline_voting_rights_operation_codec verify).
Proof. by_fields. Qed.
#[export] Instance op_reset_account_roundtrip : Roundtrip (reset_account_operation_codec verify).
Proof. by_fields. Qed.
#[export] Instance op_set_reset_account_roundtrip :
  Roundtrip (set_reset_account_operation_codec verify).
Proof. by_fields. Qed.
#[export] Instance op_claim_reward_balance_roundtrip :
  Roundtrip (claim_reward_balance_operation_codec verify mode).
Proof. by_fields. Qed.
#[export] Instance op_delegate_vesting_shares_roundtrip :
  Roundtrip (delegate_vesting_shares_operation_codec verify mode).
Proof. by_fields. Qed.
#[export] Instance op_account_create_with_delegation_roundtrip :
  Roundtrip (account_create_with_delegation_operation_codec verify mode).
Proof. by_fields. Qed.
#[export] Instance op_witness_set_properties_roundtrip :
  Roundtrip (witness_set_properties_operation_codec verify).
Proof. by_fields. Qed.
#[export] Instance op_account_update2_roundtrip :
  Roundtrip (account_update2_operation_codec verify).
Proof. by_fields. Qed.
#[export] Instance op_create_proposal_roundtrip :
  Roundtrip (create_proposal_operation_codec verify mode).
Proof. by_fields. Qed.
#[export] Instance op_update_proposal_votes_roundtrip :
  Roundtrip (update_proposal_votes_operation_codec verify).
Proof. by_fields. Qed.
#[export] Instance op_remove_proposal_roundtrip :
  Roundtrip (remove_proposal_operation_codec verify).
Proof. by_fields. Qed.
#[export] Instance op_update_proposal_roundtrip :
  Roundtrip (update_proposal_operation_codec verify mode).
Proof. by_fields. Qed.
#[export] Instance op_collateralized_convert_roundtrip :
  Roundtrip (collateralized_convert_operation_codec verify mode).
Proof. by_fields. Qed.
#[export] Instance op_recurrent_transfer_roundtrip :
  Roundtrip (recurrent_transfer_operation_codec verify mode).
Proof. by_fields. Qed.
#[export] Instance op_fill_convert_request_roundtrip :
  Roundtrip (fill_convert_request_operation_codec verify).
Proof. by_fields. Qed.
#[export] Instance op_author_reward_roundtrip : Roundtrip (author_reward_operation_codec verify).
Proof. by_fields. Qed.
#[export] Instance op_curation_reward_roundtrip :
  Roundtrip (curation_reward_operation_codec verify).
Proof. by_fields. Qed.
#[export] Instance op_comment_reward_roundtrip :
  Roundtrip (comment_reward_operation_codec verify).
Proof. by_fields. Qed.
#[export] Instance op_liquidity_reward_roundtrip :
  Roundtrip (liquidity_reward_operation_codec verify).
Proof. by_fields. Qed.
#[export] Instance op_interest_roundtrip : Roundtrip (interest_operation_codec verify).
Proof. by_fields. Qed.
#[export] Instance op_fill_vesting_withdraw_roundtrip :
  Roundtrip (fill_vesting_withdraw_operation_codec verify mode).
Proof. by_fields. Qed.
#[export] Instance op_fill_order_roundtrip : Roundtrip (fill_order_operation_codec verify mode).
Proof. by_fields. Qed.
#[export] Instance op_shutdown_witness_roundtrip :
  Roundtrip (shutdown_witness_operation_codec verify).
Proof. by_fields. Qed.
#[export] Instance op_fill_transfer_from_savings_roundtrip :
  Roundtrip (fill_transfer_from_savings_operation_codec verify mode).
Proof. by_fields. Qed.
#[export] Instance op_hardfork_roundtrip : Roundtrip hardfork_operation_codec.
Proof. by_fields. Qed.
#[export] Instance op_comment_payout_update_roundtrip :
  Roundtrip (comment_payout_update_operation_codec verify).
Proof. by_fields. Qed.
#[export] Instance op_return_vesting_delegation_roundtrip :
  Roundtrip (return_vesting_delegation_operation_codec verify).
Proof. by_fields. Qed.
#[export] Instance op_comment_benefactor_reward_roundtrip :
  Roundtrip (comment_benefactor_reward_operation_codec verify).
Proof. by_fields. Qed.
#[export] Instance op_producer_reward_roundtrip :
  Roundtrip (producer_reward_operation_codec verify mode).
Proof. by_fields. Qed.
#[export] Instance op_clear_null_account_balance_roundtrip :
  Roundtrip (clear_null_account_balance_operation_codec mode).
Proof. by_fields. Qed.
#[export] Instance op_proposal_pay_roundtrip : Roundtrip (proposal_pay_operation_codec verify).
Proof. by_fields. Qed.
#[export] Instance op_dhf_funding_roundtrip : Roundtrip (dhf_funding_operation_codec verify).
Proof. by_fields. Qed.
#[export] Instance op_hardfork_hive_roundtrip : Roundtrip (hardfork_hive_operation_codec verify).
Proof. by_fields. Qed.
#[export] Instance op_hardfork_hive_restore_roundtrip :
  Roundtrip (hardfork_hive_restore_operation_codec verify).
Proof. by_fields. Qed.
#[export] Instance op_delayed_voting_roundtrip :
  Roundtrip (delayed_voting_operation_codec verify).
Proof. by_fields. Qed.
#[export] Instance op_consolidate_treasury_balance_roundtrip :
  Roundtrip (consolidate_treasury_balance_operation_codec mode).
Proof. by_fields. Qed.
#[export] Instance op_effective_comment_vote_roundtrip :
  Roundtrip (effective_comment_vote_operation_codec verify).
Proof. by_fields. Qed.
#[export] Instance op_ineffective_delete_comment_roundtrip :
  Roundtrip (ineffective_delete_comment_operation_codec verify).
Proof. by_fields. Qed.
#[export] Instance op_dhf_conversion_roundtrip :
  Roundtrip (dhf_conversion_operation_codec verify).
Proof. by_fields. Qed.
#[export] Instance op_expired_account_notification_roundtrip :
  Roundtrip (expired_account_notification_operation_codec verify).
Proof. by_fields. Qed.
#[export] Instance op_changed_recovery_account_roundtrip :
  Roundtrip (changed_recovery_account_operation_codec verify).
Proof. by_fields. Qed.
#[export] Instance op_transfer_to_vesting_completed_roundtrip :
  Roundtrip (transfer_to_vesting_completed_operation_codec verify).
Proof. by_fields. Qed.
#[export] Instance op_pow_reward_roundtrip : Roundtrip (pow_reward_operation_codec verify mode).
Proof. by_fields. Qed.
#[export] Instance op_vesting_shares_split_roundtrip :
  Roundtrip (vesting_shares_split_operation_codec verify).
Proof. by_fields. Qed.
#[export] Instance op_account_created_roundtrip :
  Roundtrip (account_created_operation_codec verify).
Proof. by_fields. Qed.
#[export] Instance op_fill_collateralized_convert_request_roundtrip :
  Roundtrip (fill_collateralized_convert_request_operation_codec verify).
Proof. by_fields. Qed.
#[export] Instance op_system_warning_roundtrip : Roundtrip system_warning_operation_codec.
Proof. by_fields. Qed.
#[export] Instance op_fill_recurrent_transfer_roundtrip :
  Roundtrip (fill_recurrent_transfer_operation_codec verify mode).
Proof. by_fields. Qed.
#[export] Instance op_failed_recurrent_transfer_roundtrip :
  Roundtrip (failed_recurrent_transfer_operation_codec verify mode).
Proof. by_fields. Qed.
#[export] Instance op_limit_order_cancelled_roundtrip :
  Roundtrip (limit_order_cancelled_operation_codec verify mode).
Proof. by_fields. Qed.
#[export] Instance op_producer_missed_roundtrip :
  Roundtrip (producer_missed_operation_codec verify).
Proof. by_fields. Qed.
#[export] Instance op_proposal_fee_roundtrip : Roundtrip (proposal_fee_operation_codec verify).
Proof. by_fields. Qed.
#[export] Instance op_collateralized_convert_immediate_conversion_roundtrip :
  Roundtrip (collateralized_convert_immediate_conversion_operation_codec verify).
Proof. by_fields. Qed.
#[export] Instance op_escrow_approved_roundtrip :
  Roundtrip (escrow_approved_operation_codec verify mode).
Proof. by_fields. Qed.
#[export] Instance op_escrow_rejected_roundtrip :
  Roundtrip (escrow_rejected_operation_codec verify mode).
Proof. by_fields. Qed.
#[export] Instance op_proxy_cleared_roundtrip : Roundtrip (proxy_cleared_operation_codec verify).
Proof. by_fields. Qed.
#[export] Instance op_declined_voting_rights_roundtrip :
  Roundtrip (declined_voting_rights_operation_codec verify).
Proof. by_fields. Qed.

#[export] Instance operation_roundtrip : Roundtrip (operation_codec verify mode).
Proof.
  apply variant_roundtrip. intros op Hw.
  split; [destruct op; done|].
  destruct op; cbn [operation_ok] in Hw; cbn [which pack_operation_value unpack_operation_value];
    (apply (alt_roundtrip _); exact Hw).
Qed.
End laws.

(** ** Readers do not depend on the mode *)

Section readers.
Context `{EndianReverse64, Layout} (verify : bool).

#[export] Instance op_transfer_reader m m' :
  SameReader (transfer_operation_codec verify m) (transfer_operation_codec verify m') | 3.
Proof. by_readers. Qed.
#[export] Instance op_transfer_to_vesting_reader m m' :
  SameReader (transfer_to_vesting_operation_codec verify m) (transfer_to_vesting_operation_codec verify m') | 3.
Proof. by_readers. Qed.
#[export] Instance op_withdraw_vesting_reader m m' :
  SameReader (withdraw_vesting_operation_codec verify m) (withdraw_vesting_operation_codec verify m') | 3.
Proof. by_readers. Qed.
#[export] Instance op_limit_order_create_reader m m' :
  SameReader (limit_order_create_operation_codec verify m) (limit_order_create_operation_codec verify m') | 3.
Proof. by_readers. Qed.
#[export] Instance op_feed_publish_reader m m' :
  SameReader (feed_publish_operation_codec verify m) (feed_publish_operation_codec verify m') | 3.
Proof. by_readers. Qed.
#[export] Instance op_convert_reader m m' :
  SameReader (convert_operation_codec verify m) (convert_operation_codec verify m') | 3.
Proof. by_readers. Qed.
#[export] Instance op_account_create_reader m m' :
  SameReader (account_create_operation_codec verify m) (account_create_operation_codec verify m') | 3.
Proof. by_readers. Qed.
#[export] Instance op_witness_update_reader m m' :
  SameReader (witness_update_operation_codec verify m) (witness_update_operation_codec verify m') | 3.
Proof. by_readers. Qed.
#[export] Instance op_pow_reader m m' :
  SameReader (pow_operation_codec verify m) (pow_operation_codec verify m') | 3.
Proof. by_readers. Qed.
#[export] Instance op_comment_options_reader m m' :
  SameReader (comment_options_operation_codec verify m) (comment_options_operation_codec verify m') | 3.
Proof. by_readers. Qed.
#[export] Instance op_limit_order_create2_reader m m' :
  SameReader (limit_order_create2_operation_codec verify m) (limit_order_create2_operation_codec verify m') | 3.
Proof. by_readers. Qed.
#[export] Instance op_claim_account_reader m m' :
  SameReader (claim_account_operation_codec verify m) (claim_account_operation_codec verify m') | 3.
Proof. by_readers. Qed.
#[export] Instance op_escrow_transfer_reader m m' :
  SameReader (escrow_transfer_operation_codec verify m) (escrow_transfer_operation_codec verify m') | 3.
Proof. by_readers. Qed.
#[export] Instance op_escrow_release_reader m m' :
  SameReader (escrow_release_operation_codec verify m) (escrow_release_operation_codec verify m') | 3.
Proof. by_readers. Qed.
#[export] Instance op_pow2_reader m m' :
  SameReader (pow2_operation_codec verify m) (pow2_operation_codec verify m') | 3.
Proof. by_readers. Qed.
#[export] Instance op_transfer_to_savings_reader m m' :
  SameReader (transfer_to_savings_operation_codec verify m) (transfer_to_savings_operation_codec verify m') | 3.
Proof. by_readers. Qed.
#[export] Instance op_transfer_from_savings_reader m m' :
  SameReader (transfer_from_savings_operation_codec verify m) (transfer_from_savings_operation_codec verify m') | 3.
Proof. by_readers. Qed.
#[export] Instance op_claim_reward_balance_reader m m' :
  SameReader (claim_reward_balance_operation_codec verify m) (claim_reward_balance_operation_codec verify m') | 3.
Proof. by_readers. Qed.
#[export] Instance op_delegate_vesting_shares_reader m m' :
  SameReader (delegate_vesting_shares_operation_codec verify m) (delegate_vesting_shares_operation_codec verify m') | 3.
Proof. by_readers. Qed.
#[export] Instance op_account_create_with_delegation_reader m m' :
  SameReader (account_create_with_delegation_operation_codec verify m) (account_create_with_delegation_operation_codec verify m') | 3.
Proof. by_readers. Qed.
#[export] Instance op_create_proposal_reader m m' :
  SameReader (create_proposal_operation_codec verify m) (create_proposal_operation_codec verify m') | 3.
Proof. by_readers. Qed.
#[export] Instance op_update_proposal_reader m m' :
  SameReader (update_proposal_operation_codec verify m) (update_proposal_operation_codec verify m') | 3.
Proof. by_readers. Qed.
#[export] Instance op_collateralized_convert_reader m m' :
  SameReader (collateralized_convert_operation_codec verify m) (collateralized_convert_operation_codec verify m') | 3.
Proof. by_readers. Qed.
#[export] Instance op_recurrent_transfer_reader m m' :
  SameReader (recurrent_transfer_operation_codec verify m) (recurrent_transfer_operation_codec verify m') | 3.
Proof. by_readers. Qed.
#[export] Instance op_fill_vesting_withdraw_reader m m' :
  SameReader (fill_vesting_withdraw_operation_codec verify m) (fill_vesting_withdraw_operation_codec verify m') | 3.
Proof. by_readers. Qed.
#[export] Instance op_fill_order_reader m m' :
  SameReader (fill_order_operation_codec verify m) (fill_order_operation_codec verify m') | 3.
Proof. by_readers. Qed.
#[export] Instance op_fill_transfer_from_savings_reader m m' :
  SameReader (fill_transfer_from_savings_operation_codec verify m) (fill_transfer_from_savings_operation_codec verify m') | 3.
Proof. by_readers. Qed.
#[export] Instance op_producer_reward_reader m m' :
  SameReader (producer_reward_operation_codec verify m) (producer_reward_operation_codec verify m') | 3.
Proof. by_readers. Qed.
#[export] Instance op_clear_null_account_balance_reader m m' :
  SameReader (clear_null_account_balance_operation_codec m) (clear_null_account_balance_operation_codec m') | 3.
Proof. by_readers. Qed.
#[export] Instance op_consolidate_treasury_balance_reader m m' :
  SameReader (consolidate_treasury_balance_operation_codec m) (consolidate_treasury_balance_operation_codec m') | 3.
Proof. by_readers. Qed.
#[export] Instance op_pow_reward_reader m m' :
  SameReader (pow_reward_operation_codec verify m) (pow_reward_operation_codec verify m') | 3.
Proof. by_readers. Qed.
#[export] Instance op_fill_recurrent_transfer_reader m m' :
  SameReader (fill_recurrent_transfer_operation_codec verify m) (fill_recurrent_transfer_operation_codec verify m') | 3.
Proof. by_readers. Qed.
#[export] Instance op_failed_recurrent_transfer_reader m m' :
  SameReader (failed_recurrent_transfer_operation_codec verify m) (failed_recurrent_transfer_operation_codec verify m') | 3.
Proof. by_readers. Qed.
#[export] Instance op_limit_order_cancelled_reader m m' :
  SameReader (limit_order_cancelled_operation_codec verify m) (limit_order_cancelled_operation_codec verify m') | 3.
Proof. by_readers. Qed.
#[export] Instance op_escrow_approved_reader m m' :
  SameReader (escrow_approved_operation_codec verify m) (escrow_approved_operation_codec verify m') | 3.
Proof. by_readers. Qed.
#[export] Instance op_escrow_rejected_reader m m' :
  SameReader (escrow_rejected_operation_codec verify m) (escrow_rejected_operation_codec verify m') | 3.
Proof. by_readers. Qed.

Lemma same_operation_value m m' tag s :
  unpack_operation_value verify m tag s = unpack_operation_value verify m' tag s.
Proof.
  unfold unpack_operation_value.
  repeat match goal with
    | |- match ?t with _ => _ end _ = _ => destruct t
    end;
    lazymatch goal with
    | |- alt _ _ _ = _ => apply same_alt; apply _
    | |- _ => reflexivity
    end.
Qed.

#[export] Instance operation_reader m m' :
  SameReader (operation_codec verify m) (operation_codec verify m') | 3.
Proof. apply same_variant, same_operation_value. Qed.
End readers.
