(* ===== verification/Operations.v ===== *)
(** * Validation and authorities of operations

    [src/libraries/protocol/hive_operations.cpp], [dhf_operations.cpp], [validation.hpp],
    [base.hpp] and [operation_util.hpp]: the stateless checks every operation passes before
    it is evaluated, and the accounts whose signatures it needs.  [base_operation] is a class
    whose instances are the operation structs; what a struct inherits from its base is the
    default of the class.

    Not modelled here: the JSON parsers ([fc::json]), SHA-256 and the Equihash checker, which
    are the fields of [Externals]. *)

From S2P Require Import Prelude Safe AssetSymbol Asset Utf8 Raw FixedString ForkDatabase Authority.
From S2P Require Import SignState OperationTypes ProtocolCodec.

Class Externals : Type := {
  (** [fc::json::fast_is_valid] and [fc::json::is_valid( _, relaxed )]. *)
  json_fast_is_valid : string → bool;
  json_is_valid : string → bool;
  (** [fc::sha256::hash] on the packed bytes. *)
  sha256_hash : list Z → digest_type;
  (** [fc::equihash::proof::is_valid]. *)
  equihash_is_valid : equihash_proof → bool;
}.

(** ** Configuration *)

Definition HIVE_MAX_MEMO_SIZE : Z := 2048.
Definition HIVE_MAX_PERMLINK_LENGTH : Z := 256.
Definition HIVE_MAX_WITNESS_URL_LENGTH : Z := 2048.
Definition HIVE_MAX_TRANSACTION_SIZE : Z := 1024 * 64.
Definition HIVE_MIN_BLOCK_SIZE_LIMIT : Z := HIVE_MAX_TRANSACTION_SIZE.
Definition HIVE_MIN_ACCOUNT_CREATION_FEE : Z := 1.
Definition HIVE_MAX_ACCOUNT_CREATION_FEE : Z := 1000000000.
Definition HIVE_MIN_RECURRENT_TRANSFERS_RECURRENCE : Z := 24.
Definition HIVE_MAX_AUTHORITY_MEMBERSHIP : Z := 40.
Definition HIVE_CUSTOM_OP_ID_MAX_LENGTH : Z := 32.
Definition HIVE_BENEFICIARY_LIMIT : Z := 128.
Definition HIVE_COMMENT_TITLE_LIMIT : Z := 256.
Definition HIVE_PROPOSAL_SUBJECT_MAX_LENGTH : Z := 80.
Definition HIVE_PROPOSAL_MAX_IDS_NUMBER : Z := 5.
Definition HIVE_NULL_ACCOUNT : string := "null".
Definition HIVE_PROXY_TO_SELF_ACCOUNT : string := "".
Definition HIVE_EQUIHASH_N : Z := 140.
Definition HIVE_EQUIHASH_K : Z := 6.
Definition HIVE_RD_MIN_DECAY_BITS : Z := 6.
Definition HIVE_RD_DECAY_DENOM_SHIFT : Z := 36.
Definition HIVE_RD_MAX_POOL_BITS : Z := 64.
Definition HIVE_RD_MAX_BUDGET_1 : Z :=
  2 ^ (HIVE_RD_MAX_POOL_BITS + HIVE_RD_MIN_DECAY_BITS - HIVE_RD_DECAY_DENOM_SHIFT) - 1.
Definition HIVE_RD_MAX_BUDGET_2 : Z := 2 ^ (64 - HIVE_RD_DECAY_DENOM_SHIFT) - 1.
Definition HIVE_RD_MAX_BUDGET_3 : Z := i32_max.
Definition HIVE_RD_MAX_BUDGET : Z :=
  Z.min HIVE_RD_MAX_BUDGET_1 (Z.min HIVE_RD_MAX_BUDGET_2 HIVE_RD_MAX_BUDGET_3).
Definition HIVE_RD_MIN_DECAY : Z := Z.shiftl 1 HIVE_RD_MIN_DECAY_BITS.
Definition HIVE_RD_MIN_BUDGET : Z := 1.
Definition HIVE_RD_MAX_DECAY : Z := 4294967295.

(** ** Common checks *)

Definition str_size (s : string) : Z := Z.of_nat (String.length s).
Definition count {A} (l : list A) : Z := Z.of_nat (length l).

Definition is_asset_type (a : asset) (s : asset_symbol_type) : bool := symbol_eqb (symbol a) s.

Definition validate_account_name (name : string) : result unit :=
  match check_account_name name with
  | valid => Ok tt
  | too_short => fc_assert false "Account name is too short."
  | too_long => fc_assert false "Account name is too long."
  | invalid_sequence => fc_assert false "Account name is not valid."
  end.

Definition validate_permlink (permlink : string) : result unit :=
  fc_assert (str_size permlink <? HIVE_MAX_PERMLINK_LENGTH) "permlink is too long" ;;
  fc_assert (is_utf8 permlink) "permlink not formatted in UTF8".

Definition validate_auth_size (a : authority) : result unit :=
  let size := count (account_auths a) + count (key_auths a) in
  fc_assert (size <=? HIVE_MAX_AUTHORITY_MEMBERSHIP) "Authority membership exceeded.".

(** [FC_ASSERT] on a comparison of assets, which throws itself when the symbols differ. *)
Definition fc_assert_m (b : result bool) (msg : string) : result unit := c ← b; fc_assert c msg.

(** ** The interface of operations *)

Class base_operation (T : Type) : Type := BaseOperation {
  validate : T → result unit;
  get_required_active_authorities : T → list string → list string;
  get_required_owner_authorities : T → list string → list string;
  get_required_posting_authorities : T → list string → list string;
  get_required_witness_signatures : T → list string → list string;
  get_required_authorities : T → list authority → result (list authority);
  is_virtual : T → bool;
}.

(** What [base_operation] and [virtual_operation] provide. *)
Definition no_accounts {T} (_ : T) (a : list string) : list string := a.
Definition no_authorities {T} (_ : T) (a : list authority) : result (list authority) := Ok a.
Definition insert_name (n : string) (a : list string) : list string := flat_insert String.ltb n a.
Definition insert_names (l : list string) (a : list string) : list string :=
  foldl (λ a n, insert_name n a) a l.

Definition virtual_operation {T} : base_operation T :=
  BaseOperation _ (λ _, fc_assert false "This is a virtual operation") no_accounts no_accounts
    no_accounts no_accounts no_authorities (λ _, true).

(** A struct that overrides one of the account sets. *)
Definition needs_active {T} (v : T → result unit) (f : T → list string → list string) :=
  BaseOperation T v f no_accounts no_accounts no_accounts no_authorities (λ _, false).
Definition needs_posting {T} (v : T → result unit) (f : T → list string → list string) :=
  BaseOperation T v no_accounts no_accounts f no_accounts no_authorities (λ _, false).
Definition needs_owner {T} (v : T → result unit) (f : T → list string → list string) :=
  BaseOperation T v no_accounts f no_accounts no_accounts no_authorities (λ _, false).

Section operations.
Context `{Externals}.

Definition validate_json_with_fallback (json : string) : result unit :=
  if negb (json_fast_is_valid json) then
    fc_assert (is_utf8 json) "JSON not formatted in UTF8" ;;
    fc_assert (json_is_valid json) "JSON is not valid JSON"
  else Ok tt.

Definition validate_metadata (json : string) : result unit :=
  if negb (String.eqb json "") then validate_json_with_fallback json else Ok tt.

(** ** Accounts *)

Definition validate_account_create (o : account_create_operation) : result unit :=
  validate_account_name (account_create_new_account_name o) ;;
  fc_assert (is_asset_type (account_create_fee o) HIVE_SYMBOL) "Account creation fee must be HIVE" ;;
  authority_validate (account_create_owner o) ;;
  authority_validate (account_create_active o) ;;
  validate_metadata (account_create_json_metadata o) ;;
  fc_assert_m (asset_geb (account_create_fee o) (Asset 0 HIVE_SYMBOL))
    "Account creation fee cannot be negative".

#[export] Instance account_create_op : base_operation account_create_operation :=
  needs_active validate_account_create (λ o, insert_name (account_create_creator o)).

Definition validate_account_create_with_delegation (o : account_create_with_delegation_operation)
    : result unit :=
  validate_account_name (account_create_with_delegation_new_account_name o) ;;
  validate_account_name (account_create_with_delegation_creator o) ;;
  fc_assert (is_asset_type (account_create_with_delegation_fee o) HIVE_SYMBOL)
    "Account creation fee must be HIVE" ;;
  fc_assert (is_asset_type (account_create_with_delegation_delegation o) VESTS_SYMBOL)
    "Delegation must be VESTS" ;;
  authority_validate (account_create_with_delegation_owner o) ;;
  authority_validate (account_create_with_delegation_active o) ;;
  authority_validate (account_create_with_delegation_posting o) ;;
  validate_metadata (account_create_with_delegation_json_metadata o) ;;
  fc_assert_m (asset_geb (account_create_with_delegation_fee o) (Asset 0 HIVE_SYMBOL))
    "Account creation fee cannot be negative" ;;
  fc_assert_m (asset_geb (account_create_with_delegation_delegation o) (Asset 0 VESTS_SYMBOL))
    "Delegation cannot be negative".

#[export] Instance account_create_with_delegation_op
    : base_operation account_create_with_delegation_operation :=
  needs_active validate_account_create_with_delegation
    (λ o, insert_name (account_create_with_delegation_creator o)).

Definition validate_account_update (o : account_update_operation) : result unit :=
  validate_account_name (account_update_account o) ;;
  validate_metadata (account_update_json_metadata o).

#[export] Instance account_update_op : base_operation account_update_operation :=
  BaseOperation _ validate_account_update
    (λ o a, if bool_decide (account_update_owner o = None)
            then insert_name (account_update_account o) a else a)
    (λ o a, if bool_decide (is_Some (account_update_owner o))
            then insert_name (account_update_account o) a else a)
    no_accounts no_accounts no_authorities (λ _, false).

Definition validate_account_update2 (o : account_update2_operation) : result unit :=
  validate_account_name (account_update2_account o) ;;
  validate_metadata (account_update2_json_metadata o) ;;
  validate_metadata (account_update2_posting_json_metadata o).

(** [active || posting || memo_key || json_metadata.size() > 0]. *)
Definition account_update2_active_part (o : account_update2_operation) : bool :=
  bool_decide (is_Some (account_update2_active o)) ||
  bool_decide (is_Some (account_update2_posting o)) ||
  bool_decide (is_Some (account_update2_memo_key o)) ||
  (0 <? str_size (account_update2_json_metadata o)).

#[export] Instance account_update2_op : base_operation account_update2_operation :=
  BaseOperation _ validate_account_update2
    (λ o a, if negb (bool_decide (is_Some (account_update2_owner o))) &&
               account_update2_active_part o
            then insert_name (account_update2_account o) a else a)
    (λ o a, if bool_decide (is_Some (account_update2_owner o))
            then insert_name (account_update2_account o) a else a)
    (λ o a, if negb (bool_decide (is_Some (account_update2_owner o)) ||
                     account_update2_active_part o)
            then insert_name (account_update2_account o) a else a)
    no_accounts no_authorities (λ _, false).

Definition validate_claim_account (o : claim_account_operation) : result unit :=
  validate_account_name (claim_account_creator o) ;;
  fc_assert (is_asset_type (claim_account_fee o) HIVE_SYMBOL) "Account creation fee must be HIVE" ;;
  fc_assert_m (asset_geb (claim_account_fee o) (Asset 0 HIVE_SYMBOL))
    "Account creation fee cannot be negative" ;;
  fc_assert_m (asset_leb (claim_account_fee o) (Asset HIVE_MAX_ACCOUNT_CREATION_FEE HIVE_SYMBOL))
    "Account creation fee cannot be too large" ;;
  fc_assert (count (claim_account_extensions o) =? 0)
    "There are no extensions for claim_account_operation.".

#[export] Instance claim_account_op : base_operation claim_account_operation :=
  needs_active validate_claim_account (λ o, insert_name (claim_account_creator o)).

Definition validate_create_claimed_account (o : create_claimed_account_operation) : result unit :=
  validate_account_name (create_claimed_account_creator o) ;;
  validate_account_name (create_claimed_account_new_account_name o) ;;
  authority_validate (create_claimed_account_owner o) ;;
  authority_validate (create_claimed_account_active o) ;;
  authority_validate (create_claimed_account_posting o) ;;
  validate_auth_size (create_claimed_account_owner o) ;;
  validate_auth_size (create_claimed_account_active o) ;;
  validate_auth_size (create_claimed_account_posting o) ;;
  validate_metadata (create_claimed_account_json_metadata o) ;;
  fc_assert (count (create_claimed_account_extensions o) =? 0)
    "There are no extensions for create_claimed_account_operation.".

#[export] Instance create_claimed_account_op : base_operation create_claimed_account_operation :=
  needs_active validate_create_claimed_account
    (λ o, insert_name (create_claimed_account_creator o)).

(** *** Recovery *)

Definition validate_request_account_recovery (o : request_account_recovery_operation)
    : result unit :=
  validate_account_name (request_account_recovery_recovery_account o) ;;
  validate_account_name (request_account_recovery_account_to_recover o) ;;
  authority_validate (request_account_recovery_new_owner_authority o).

#[export] Instance request_account_recovery_op : base_operation request_account_recovery_operation :=
  needs_active validate_request_account_recovery
    (λ o, insert_name (request_account_recovery_recovery_account o)).

Definition validate_recover_account (o : recover_account_operation) : result unit :=
  validate_account_name (recover_account_account_to_recover o) ;;
  fc_assert (negb (authority_eqb (recover_account_new_owner_authority o)
                                 (recover_account_recent_owner_authority o)))
    "Cannot set new owner authority to the recent owner authority" ;;
  fc_assert (negb (is_impossible (recover_account_new_owner_authority o)))
    "new owner authority cannot be impossible" ;;
  fc_assert (negb (is_impossible (recover_account_recent_owner_authority o)))
    "recent owner authority cannot be impossible" ;;
  fc_assert (negb (weight_threshold (recover_account_new_owner_authority o) =? 0))
    "new owner authority cannot be trivial" ;;
  authority_validate (recover_account_new_owner_authority o) ;;
  authority_validate (recover_account_recent_owner_authority o).

#[export] Instance recover_account_op : base_operation recover_account_operation :=
  BaseOperation _ validate_recover_account no_accounts no_accounts no_accounts no_accounts
    (λ o a, Ok (a ++ [recover_account_new_owner_authority o;
                      recover_account_recent_owner_authority o]))
    (λ _, false).

Definition validate_reset_account (o : reset_account_operation) : result unit :=
  validate_account_name (reset_account_reset_account o) ;;
  validate_account_name (reset_account_account_to_reset o) ;;
  fc_assert (negb (is_impossible (reset_account_new_owner_authority o)))
    "new owner authority cannot be impossible" ;;
  fc_assert (negb (weight_threshold (reset_account_new_owner_authority o) =? 0))
    "new owner authority cannot be trivial" ;;
  authority_validate (reset_account_new_owner_authority o).

#[export] Instance reset_account_op : base_operation reset_account_operation :=
  needs_active validate_reset_account (λ o, insert_name (reset_account_reset_account o)).

Definition validate_set_reset_account (o : set_reset_account_operation) : result unit :=
  validate_account_name (set_reset_account_account o) ;;
  (if negb (str_size (set_reset_account_current_reset_account o) =? 0)
   then validate_account_name (set_reset_account_current_reset_account o) else Ok tt) ;;
  validate_account_name (set_reset_account_reset_account o) ;;
  fc_assert (negb (String.eqb (set_reset_account_current_reset_account o)
                              (set_reset_account_reset_account o)))
    "new reset account cannot be current reset account".

#[export] Instance set_reset_account_op : base_operation set_reset_account_operation :=
  BaseOperation _ validate_set_reset_account no_accounts
    (λ o a, if negb (str_size (set_reset_account_current_reset_account o) =? 0)
            then insert_name (set_reset_account_account o) a else a)
    (λ o a, if str_size (set_reset_account_current_reset_account o) =? 0
            then insert_name (set_reset_account_account o) a else a)
    no_accounts no_authorities (λ _, false).

Definition validate_change_recovery_account (o : change_recovery_account_operation) : result unit :=
  validate_account_name (change_recovery_account_account_to_recover o) ;;
  validate_account_name (change_recovery_account_new_recovery_account o).

#[export] Instance change_recovery_account_op : base_operation change_recovery_account_operation :=
  needs_owner validate_change_recovery_account
    (λ o, insert_name (change_recovery_account_account_to_recover o)).

Definition validate_decline_voting_rights (o : decline_voting_rights_operation) : result unit :=
  validate_account_name (decline_voting_rights_account o).

#[export] Instance decline_voting_rights_op : base_operation decline_voting_rights_operation :=
  needs_owner validate_decline_voting_rights (λ o, insert_name (decline_voting_rights_account o)).

(** ** Content *)

Definition validate_comment (o : comment_operation) : result unit :=
  fc_assert (str_size (comment_title o) <? HIVE_COMMENT_TITLE_LIMIT) "Title size limit exceeded." ;;
  fc_assert (is_utf8 (comment_title o)) "Title not formatted in UTF8" ;;
  fc_assert (0 <? str_size (comment_body o)) "Body is empty" ;;
  fc_assert (is_utf8 (comment_body o)) "Body not formatted in UTF8" ;;
  (if negb (str_size (comment_parent_author o) =? 0)
   then validate_account_name (comment_parent_author o) else Ok tt) ;;
  validate_account_name (comment_author o) ;;
  validate_permlink (comment_parent_permlink o) ;;
  validate_permlink (comment_permlink o) ;;
  validate_metadata (comment_json_metadata o).

#[export] Instance comment_op : base_operation comment_operation :=
  needs_posting validate_comment (λ o, insert_name (comment_author o)).

(** The checks on one beneficiary; the result is the new [sum]. *)
Definition validate_beneficiary (sum : Z) (b : beneficiary_route_type) : result Z :=
  validate_account_name (beneficiary_account b) ;;
  fc_assert (beneficiary_weight b <=? HIVE_100_PERCENT)
    "Cannot allocate more than 100% of rewards to one account" ;;
  let sum := u32 (sum + beneficiary_weight b) in
  fc_assert (sum <=? HIVE_100_PERCENT) "Cannot allocate more than 100% of rewards to a comment" ;;
  Ok sum.

(** [operator <] of routes. *)
Definition route_ltb (a b : beneficiary_route_type) : bool :=
  String.ltb (beneficiary_account a) (beneficiary_account b).

(** [for( i = 1; ... )], [prev] being [beneficiaries[i - 1]]. *)
Fixpoint validate_beneficiaries_from (prev : beneficiary_route_type) (sum : Z)
    (l : list beneficiary_route_type) : result unit :=
  match l with
  | [] => Ok tt
  | b :: l =>
      sum ← validate_beneficiary sum b;
      fc_assert (route_ltb prev b)
        "Beneficiaries must be specified in sorted order (account ascending)" ;;
      validate_beneficiaries_from b sum l
  end.

Definition validate_beneficiaries (c : comment_payout_beneficiaries) : result unit :=
  let beneficiaries := payout_beneficiaries c in
  fc_assert (negb (count beneficiaries =? 0)) "Must specify at least one beneficiary" ;;
  fc_assert (count beneficiaries <? HIVE_BENEFICIARY_LIMIT)
    "Cannot specify more than 127 beneficiaries." ;;
  match beneficiaries with
  | [] => Throw undefined_behaviour
  | b :: l => sum ← validate_beneficiary 0 b; validate_beneficiaries_from b sum l
  end.

Definition validate_comment_options_extension (e : comment_options_extension) : result unit :=
  match e with ext_beneficiaries cpb => validate_beneficiaries cpb end.

Definition validate_comment_options (o : comment_options_operation) : result unit :=
  validate_account_name (comment_options_author o) ;;
  fc_assert (comment_options_percent_hbd o <=? HIVE_100_PERCENT) "Percent cannot exceed 100%" ;;
  fc_assert (symbol_eqb (symbol (comment_options_max_accepted_payout o)) HBD_SYMBOL)
    "Max accepted payout must be in HBD" ;;
  fc_assert (0 <=? amount (comment_options_max_accepted_payout o))
    "Cannot accept less than 0 payout" ;;
  validate_permlink (comment_options_permlink o) ;;
  forM_ validate_comment_options_extension (comment_options_extensions o).

#[export] Instance comment_options_op : base_operation comment_options_operation :=
  needs_posting validate_comment_options (λ o, insert_name (comment_options_author o)).

Definition validate_delete_comment (o : delete_comment_operation) : result unit :=
  validate_permlink (delete_comment_permlink o) ;;
  validate_account_name (delete_comment_author o).

#[export] Instance delete_comment_op : base_operation delete_comment_operation :=
  needs_posting validate_delete_comment (λ o, insert_name (delete_comment_author o)).

Definition validate_vote (o : vote_operation) : result unit :=
  validate_account_name (vote_voter o) ;;
  validate_account_name (vote_author o) ;;
  fc_assert (Z.abs (vote_weight o) <=? HIVE_100_PERCENT) "Weight is not a HIVE percentage" ;;
  validate_permlink (vote_permlink o).

#[export] Instance vote_op : base_operation vote_operation :=
  needs_posting validate_vote (λ o, insert_name (vote_voter o)).

Definition validate_claim_reward_balance (o : claim_reward_balance_operation) : result unit :=
  validate_account_name (claim_reward_balance_account o) ;;
  fc_assert (is_asset_type (claim_reward_balance_reward_hive o) HIVE_SYMBOL)
    "Reward HIVE must be expressed in HIVE" ;;
  fc_assert (is_asset_type (claim_reward_balance_reward_hbd o) HBD_SYMBOL)
    "Reward HBD must be expressed in HBD" ;;
  fc_assert (is_asset_type (claim_reward_balance_reward_vests o) VESTS_SYMBOL)
    "Reward VESTS must be expressed in VESTS" ;;
  fc_assert (0 <=? amount (claim_reward_balance_reward_hbd o)) "Cannot claim a negative amount" ;;
  fc_assert (0 <=? amount (claim_reward_balance_reward_hive o)) "Cannot claim a negative amount" ;;
  fc_assert (0 <=? amount (claim_reward_balance_reward_vests o)) "Cannot claim a negative amount" ;;
  fc_assert ((0 <? amount (claim_reward_balance_reward_hive o)) ||
             (0 <? amount (claim_reward_balance_reward_hbd o)) ||
             (0 <? amount (claim_reward_balance_reward_vests o))) "Must claim something.".

#[export] Instance claim_reward_balance_op : base_operation claim_reward_balance_operation :=
  needs_posting validate_claim_reward_balance (λ o, insert_name (claim_reward_balance_account o)).

(** ** Transfers *)

Definition validate_memo (memo : string) : result unit :=
  fc_assert (str_size memo <? HIVE_MAX_MEMO_SIZE) "Memo is too large" ;;
  fc_assert (is_utf8 memo) "Memo is not UTF8".

Definition validate_transfer (o : transfer_operation) : result unit :=
  validate_account_name (transfer_from o) ;;
  validate_account_name (transfer_to o) ;;
  v ← is_vesting (symbol (transfer_amount o));
  fc_assert (negb v) "Transfer of vesting is not allowed." ;;
  fc_assert (0 <? amount (transfer_amount o))
    "Cannot transfer a negative amount (aka: stealing)" ;;
  validate_memo (transfer_memo o).

#[export] Instance transfer_op : base_operation transfer_operation :=
  needs_active validate_transfer (λ o, insert_name (transfer_from o)).

Definition validate_recurrent_transfer (o : recurrent_transfer_operation) : result unit :=
  validate_account_name (recurrent_transfer_from o) ;;
  validate_account_name (recurrent_transfer_to o) ;;
  v ← is_vesting (symbol (recurrent_transfer_amount o));
  fc_assert (negb v) "Transfer of vesting is not allowed." ;;
  fc_assert (0 <=? amount (recurrent_transfer_amount o))
    "Cannot transfer a negative amount (aka: stealing)" ;;
  fc_assert (HIVE_MIN_RECURRENT_TRANSFERS_RECURRENCE <=? recurrent_transfer_recurrence o)
    "Cannot set a transfer recurrence that is less than 24 hours" ;;
  validate_memo (recurrent_transfer_memo o) ;;
  fc_assert (negb (String.eqb (recurrent_transfer_from o) (recurrent_transfer_to o)))
    "Cannot set a transfer to yourself" ;;
  fc_assert (2 <=? recurrent_transfer_executions o) "Executions must be at least 2".

#[export] Instance recurrent_transfer_op : base_operation recurrent_transfer_operation :=
  needs_active validate_recurrent_transfer (λ o, insert_name (recurrent_transfer_from o)).

Definition is_smt (s : asset_symbol_type) : bool :=
  match space s with smt_nai_space => true | legacy_space => false end.

(** [HIVE] or the liquid asset of an SMT. *)
Definition is_vestable (s : asset_symbol_type) : result bool :=
  if symbol_eqb s HIVE_SYMBOL then Ok true
  else if is_smt s then v ← is_vesting s; Ok (negb v)
  else Ok false.

Definition validate_transfer_to_vesting (o : transfer_to_vesting_operation) : result unit :=
  validate_account_name (transfer_to_vesting_from o) ;;
  fc_assert_m (is_vestable (symbol (transfer_to_vesting_amount o)))
    "Amount must be HIVE or SMT liquid" ;;
  (if negb (String.eqb (transfer_to_vesting_to o) "")
   then validate_account_name (transfer_to_vesting_to o) else Ok tt) ;;
  fc_assert (0 <? amount (transfer_to_vesting_amount o)) "Must transfer a nonzero amount".

#[export] Instance transfer_to_vesting_op : base_operation transfer_to_vesting_operation :=
  needs_active validate_transfer_to_vesting (λ o, insert_name (transfer_to_vesting_from o)).

Definition validate_withdraw_vesting (o : withdraw_vesting_operation) : result unit :=
  validate_account_name (withdraw_vesting_account o) ;;
  fc_assert (is_asset_type (withdraw_vesting_vesting_shares o) VESTS_SYMBOL) "Amount must be VESTS".

#[export] Instance withdraw_vesting_op : base_operation withdraw_vesting_operation :=
  needs_active validate_withdraw_vesting (λ o, insert_name (withdraw_vesting_account o)).

Definition validate_set_withdraw_vesting_route (o : set_withdraw_vesting_route_operation)
    : result unit :=
  validate_account_name (set_withdraw_vesting_route_from_account o) ;;
  validate_account_name (set_withdraw_vesting_route_to_account o) ;;
  fc_assert ((0 <=? set_withdraw_vesting_route_percent o) &&
             (set_withdraw_vesting_route_percent o <=? HIVE_100_PERCENT))
    "Percent must be valid HIVE percent".

#[export] Instance set_withdraw_vesting_route_op
    : base_operation set_withdraw_vesting_route_operation :=
  needs_active validate_set_withdraw_vesting_route
    (λ o, insert_name (set_withdraw_vesting_route_from_account o)).

Definition validate_delegate_vesting_shares (o : delegate_vesting_shares_operation) : result unit :=
  validate_account_name (delegate_vesting_shares_delegator o) ;;
  validate_account_name (delegate_vesting_shares_delegatee o) ;;
  fc_assert (negb (String.eqb (delegate_vesting_shares_delegator o)
                              (delegate_vesting_shares_delegatee o)))
    "You cannot delegate VESTS to yourself" ;;
  fc_assert (is_asset_type (delegate_vesting_shares_vesting_shares o) VESTS_SYMBOL)
    "Delegation must be VESTS" ;;
  fc_assert_m (asset_geb (delegate_vesting_shares_vesting_shares o) (Asset 0 VESTS_SYMBOL))
    "Delegation cannot be negative".

#[export] Instance delegate_vesting_shares_op : base_operation delegate_vesting_shares_operation :=
  needs_active validate_delegate_vesting_shares
    (λ o, insert_name (delegate_vesting_shares_delegator o)).

(** *** Savings *)

Definition validate_savings (from to : string) (a : asset) (memo : string) : result unit :=
  validate_account_name from ;;
  validate_account_name to ;;
  fc_assert (0 <? amount a) "amount.amount > 0" ;;
  fc_assert (symbol_eqb (symbol a) HIVE_SYMBOL || symbol_eqb (symbol a) HBD_SYMBOL)
    "amount.symbol == HIVE_SYMBOL || amount.symbol == HBD_SYMBOL" ;;
  validate_memo memo.

Definition validate_transfer_to_savings (o : transfer_to_savings_operation) : result unit :=
  validate_savings (transfer_to_savings_from o) (transfer_to_savings_to o)
    (transfer_to_savings_amount o) (transfer_to_savings_memo o).

#[export] Instance transfer_to_savings_op : base_operation transfer_to_savings_operation :=
  needs_active validate_transfer_to_savings (λ o, insert_name (transfer_to_savings_from o)).

Definition validate_transfer_from_savings (o : transfer_from_savings_operation) : result unit :=
  validate_savings (transfer_from_savings_from o) (transfer_from_savings_to o)
    (transfer_from_savings_amount o) (transfer_from_savings_memo o).

#[export] Instance transfer_from_savings_op : base_operation transfer_from_savings_operation :=
  needs_active validate_transfer_from_savings (λ o, insert_name (transfer_from_savings_from o)).

Definition validate_cancel_transfer_from_savings (o : cancel_transfer_from_savings_operation)
    : result unit :=
  validate_account_name (cancel_transfer_from_savings_from o).

#[export] Instance cancel_transfer_from_savings_op
    : base_operation cancel_transfer_from_savings_operation :=
  needs_active validate_cancel_transfer_from_savings
    (λ o, insert_name (cancel_transfer_from_savings_from o)).

(** ** Markets and conversions *)

Definition validate_feed_publish (o : feed_publish_operation) : result unit :=
  let r := feed_publish_exchange_rate o in
  validate_account_name (feed_publish_publisher o) ;;
  fc_assert ((is_asset_type (base r) HIVE_SYMBOL && is_asset_type (quote r) HBD_SYMBOL) ||
             (is_asset_type (base r) HBD_SYMBOL && is_asset_type (quote r) HIVE_SYMBOL))
    "Price feed must be a HIVE/HBD price" ;;
  price_validate r.

#[export] Instance feed_publish_op : base_operation feed_publish_operation :=
  needs_active validate_feed_publish (λ o, insert_name (feed_publish_publisher o)).

(** The markets an order may be placed on. *)
Definition is_market (sell receive : asset) : bool :=
  (is_asset_type sell HIVE_SYMBOL && is_asset_type receive HBD_SYMBOL) ||
  (is_asset_type sell HBD_SYMBOL && is_asset_type receive HIVE_SYMBOL) ||
  (is_smt (symbol sell) && is_asset_type receive HIVE_SYMBOL) ||
  (is_asset_type sell HIVE_SYMBOL && is_smt (symbol receive)).

Definition validate_limit_order_create (o : limit_order_create_operation) : result unit :=
  validate_account_name (limit_order_create_owner o) ;;
  fc_assert (is_market (limit_order_create_amount_to_sell o) (limit_order_create_min_to_receive o))
    "Limit order must be for the HIVE:HBD or SMT:(HIVE/HBD) market" ;;
  p ← make_price (limit_order_create_amount_to_sell o) (limit_order_create_min_to_receive o);
  price_validate p.

#[export] Instance limit_order_create_op : base_operation limit_order_create_operation :=
  needs_active validate_limit_order_create (λ o, insert_name (limit_order_create_owner o)).

Definition validate_limit_order_create2 (o : limit_order_create2_operation) : result unit :=
  validate_account_name (limit_order_create2_owner o) ;;
  fc_assert (symbol_eqb (symbol (limit_order_create2_amount_to_sell o))
                        (symbol (base (limit_order_create2_exchange_rate o))))
    "Sell asset must be the base of the price" ;;
  price_validate (limit_order_create2_exchange_rate o) ;;
  fc_assert (is_market (limit_order_create2_amount_to_sell o)
                       (quote (limit_order_create2_exchange_rate o)))
    "Limit order must be for the HIVE:HBD or SMT:(HIVE/HBD) market" ;;
  traded ← asset_mul_price (limit_order_create2_amount_to_sell o) (limit_order_create2_exchange_rate o);
  fc_assert (0 <? amount traded) "Amount to sell cannot round to 0 when traded".

#[export] Instance limit_order_create2_op : base_operation limit_order_create2_operation :=
  needs_active validate_limit_order_create2 (λ o, insert_name (limit_order_create2_owner o)).

Definition validate_limit_order_cancel (o : limit_order_cancel_operation) : result unit :=
  validate_account_name (limit_order_cancel_owner o).

#[export] Instance limit_order_cancel_op : base_operation limit_order_cancel_operation :=
  needs_active validate_limit_order_cancel (λ o, insert_name (limit_order_cancel_owner o)).

(** [get_price] and [get_market] of the two orders. *)
Definition get_price (o : limit_order_create_operation) : result price :=
  make_price (limit_order_create_amount_to_sell o) (limit_order_create_min_to_receive o).
Definition market_of (a b : asset_symbol_type) : asset_symbol_type * asset_symbol_type :=
  if symbol_ltb a b then (a, b) else (b, a).
Definition get_market (o : limit_order_create_operation) : asset_symbol_type * asset_symbol_type :=
  market_of (symbol (limit_order_create_amount_to_sell o)) (symbol (limit_order_create_min_to_receive o)).
Definition get_market2 (o : limit_order_create2_operation) : asset_symbol_type * asset_symbol_type :=
  market_of (symbol (base (limit_order_create2_exchange_rate o)))
            (symbol (quote (limit_order_create2_exchange_rate o))).

Definition validate_convert (o : convert_operation) : result unit :=
  validate_account_name (convert_owner o) ;;
  fc_assert (is_asset_type (convert_amount o) HBD_SYMBOL) "Can only convert HBD to HIVE" ;;
  fc_assert (0 <? amount (convert_amount o)) "Must convert some HBD".

#[export] Instance convert_op : base_operation convert_operation :=
  needs_active validate_convert (λ o, insert_name (convert_owner o)).

Definition validate_collateralized_convert (o : collateralized_convert_operation) : result unit :=
  validate_account_name (collateralized_convert_owner o) ;;
  fc_assert (is_asset_type (collateralized_convert_amount o) HIVE_SYMBOL)
    "Can only convert HIVE to HBD" ;;
  fc_assert (0 <? amount (collateralized_convert_amount o)) "Must convert some HIVE".

#[export] Instance collateralized_convert_op : base_operation collateralized_convert_operation :=
  needs_active validate_collateralized_convert (λ o, insert_name (collateralized_convert_owner o)).

(** ** Escrow *)

Definition validate_escrow_transfer (o : escrow_transfer_operation) : result unit :=
  validate_account_name (escrow_transfer_from o) ;;
  validate_account_name (escrow_transfer_to o) ;;
  validate_account_name (escrow_transfer_agent o) ;;
  fc_assert (0 <=? amount (escrow_transfer_fee o)) "fee cannot be negative" ;;
  fc_assert (0 <=? amount (escrow_transfer_hbd_amount o)) "HBD amount cannot be negative" ;;
  fc_assert (0 <=? amount (escrow_transfer_hive_amount o)) "HIVE amount cannot be negative" ;;
  fc_assert ((0 <? amount (escrow_transfer_hbd_amount o)) ||
             (0 <? amount (escrow_transfer_hive_amount o)))
    "escrow must transfer a non-zero amount" ;;
  fc_assert (negb (String.eqb (escrow_transfer_from o) (escrow_transfer_agent o)) &&
             negb (String.eqb (escrow_transfer_to o) (escrow_transfer_agent o)))
    "agent must be a third party" ;;
  fc_assert (symbol_eqb (symbol (escrow_transfer_fee o)) HIVE_SYMBOL ||
             symbol_eqb (symbol (escrow_transfer_fee o)) HBD_SYMBOL) "fee must be HIVE or HBD" ;;
  fc_assert (symbol_eqb (symbol (escrow_transfer_hbd_amount o)) HBD_SYMBOL)
    "HBD amount must contain HBD asset" ;;
  fc_assert (symbol_eqb (symbol (escrow_transfer_hive_amount o)) HIVE_SYMBOL)
    "HIVE amount must contain HIVE asset" ;;
  fc_assert (escrow_transfer_ratification_deadline o <? escrow_transfer_escrow_expiration o)
    "ratification deadline must be before escrow expiration" ;;
  validate_metadata (escrow_transfer_json_meta o).

#[export] Instance escrow_transfer_op : base_operation escrow_transfer_operation :=
  needs_active validate_escrow_transfer (λ o, insert_name (escrow_transfer_from o)).

Definition validate_escrow_approve (o : escrow_approve_operation) : result unit :=
  validate_account_name (escrow_approve_from o) ;;
  validate_account_name (escrow_approve_to o) ;;
  validate_account_name (escrow_approve_agent o) ;;
  validate_account_name (escrow_approve_who o) ;;
  fc_assert (String.eqb (escrow_approve_who o) (escrow_approve_to o) ||
             String.eqb (escrow_approve_who o) (escrow_approve_agent o))
    "to or agent must approve escrow".

#[export] Instance escrow_approve_op : base_operation escrow_approve_operation :=
  needs_active validate_escrow_approve (λ o, insert_name (escrow_approve_who o)).

Definition validate_escrow_dispute (o : escrow_dispute_operation) : result unit :=
  validate_account_name (escrow_dispute_from o) ;;
  validate_account_name (escrow_dispute_to o) ;;
  validate_account_name (escrow_dispute_agent o) ;;
  validate_account_name (escrow_dispute_who o) ;;
  fc_assert (String.eqb (escrow_dispute_who o) (escrow_dispute_from o) ||
             String.eqb (escrow_dispute_who o) (escrow_dispute_to o)) "who must be from or to".

#[export] Instance escrow_dispute_op : base_operation escrow_dispute_operation :=
  needs_active validate_escrow_dispute (λ o, insert_name (escrow_dispute_who o)).

Definition validate_escrow_release (o : escrow_release_operation) : result unit :=
  validate_account_name (escrow_release_from o) ;;
  validate_account_name (escrow_release_to o) ;;
  validate_account_name (escrow_release_agent o) ;;
  validate_account_name (escrow_release_who o) ;;
  validate_account_name (escrow_release_receiver o) ;;
  fc_assert (String.eqb (escrow_release_who o) (escrow_release_from o) ||
             String.eqb (escrow_release_who o) (escrow_release_to o) ||
             String.eqb (escrow_release_who o) (escrow_release_agent o))
    "who must be from or to or agent" ;;
  fc_assert (String.eqb (escrow_release_receiver o) (escrow_release_from o) ||
             String.eqb (escrow_release_receiver o) (escrow_release_to o))
    "receiver must be from or to" ;;
  fc_assert (0 <=? amount (escrow_release_hbd_amount o)) "HBD amount cannot be negative" ;;
  fc_assert (0 <=? amount (escrow_release_hive_amount o)) "HIVE amount cannot be negative" ;;
  fc_assert ((0 <? amount (escrow_release_hbd_amount o)) ||
             (0 <? amount (escrow_release_hive_amount o)))
    "escrow must release a non-zero amount" ;;
  fc_assert (symbol_eqb (symbol (escrow_release_hbd_amount o)) HBD_SYMBOL)
    "HBD amount must contain HBD asset" ;;
  fc_assert (symbol_eqb (symbol (escrow_release_hive_amount o)) HIVE_SYMBOL)
    "HIVE amount must contain HIVE asset".

#[export] Instance escrow_release_op : base_operation escrow_release_operation :=
  needs_active validate_escrow_release (λ o, insert_name (escrow_release_who o)).

(** ** Proposals *)

(** The checks that creation and update of a proposal share. *)
Definition validate_proposal_text (daily_pay : asset) (subject permlink : string) : result unit :=
  fc_assert (0 <=? amount daily_pay) "Daily pay can't be negative value" ;;
  fc_assert (asset_num (symbol daily_pay) =? HIVE_ASSET_NUM_HBD)
    "Daily pay should be expressed in HBD" ;;
  fc_assert (negb (String.eqb subject "")) "subject is required" ;;
  fc_assert (str_size subject <=? HIVE_PROPOSAL_SUBJECT_MAX_LENGTH) "Subject is too long" ;;
  fc_assert (is_utf8 subject) "Subject is not valid UTF8" ;;
  fc_assert (negb (String.eqb permlink "")) "permlink is required" ;;
  validate_permlink permlink.

Definition validate_create_proposal (o : create_proposal_operation) : result unit :=
  validate_account_name (create_proposal_creator o) ;;
  validate_account_name (create_proposal_receiver o) ;;
  fc_assert (create_proposal_start_date o <? create_proposal_end_date o)
    "end date must be greater than start date" ;;
  validate_proposal_text (create_proposal_daily_pay o) (create_proposal_subject o)
    (create_proposal_permlink o).

#[export] Instance create_proposal_op : base_operation create_proposal_operation :=
  needs_active validate_create_proposal (λ o, insert_name (create_proposal_creator o)).

Definition validate_update_proposal (o : update_proposal_operation) : result unit :=
  validate_account_name (update_proposal_creator o) ;;
  fc_assert (0 <=? update_proposal_proposal_id o) "The proposal id can't be negative" ;;
  validate_proposal_text (update_proposal_daily_pay o) (update_proposal_subject o)
    (update_proposal_permlink o).

#[export] Instance update_proposal_op : base_operation update_proposal_operation :=
  needs_active validate_update_proposal (λ o, insert_name (update_proposal_creator o)).

Definition validate_proposal_ids (ids : list Z) : result unit :=
  fc_assert (negb (count ids =? 0)) "proposal_ids.empty() == false" ;;
  fc_assert (count ids <=? HIVE_PROPOSAL_MAX_IDS_NUMBER)
    "proposal_ids.size() <= HIVE_PROPOSAL_MAX_IDS_NUMBER".

Definition validate_update_proposal_votes (o : update_proposal_votes_operation) : result unit :=
  validate_account_name (update_proposal_votes_voter o) ;;
  validate_proposal_ids (update_proposal_votes_proposal_ids o).

#[export] Instance update_proposal_votes_op : base_operation update_proposal_votes_operation :=
  needs_active validate_update_proposal_votes (λ o, insert_name (update_proposal_votes_voter o)).

Definition validate_remove_proposal (o : remove_proposal_operation) : result unit :=
  validate_account_name (remove_proposal_proposal_owner o) ;;
  validate_proposal_ids (remove_proposal_proposal_ids o).

#[export] Instance remove_proposal_op : base_operation remove_proposal_operation :=
  needs_active validate_remove_proposal (λ o, insert_name (remove_proposal_proposal_owner o)).

(** ** Custom operations *)

Definition validate_custom (o : custom_operation) : result unit :=
  fc_assert (0 <? count (custom_required_auths o)) "at least one account must be specified".

#[export] Instance custom_op : base_operation custom_operation :=
  needs_active validate_custom (λ o, insert_names (custom_required_auths o)).

Definition validate_custom_json (o : custom_json_operation) : result unit :=
  fc_assert (0 <? count (custom_json_required_auths o) + count (custom_json_required_posting_auths o))
    "at least one account must be specified" ;;
  fc_assert (str_size (custom_json_id o) <=? HIVE_CUSTOM_OP_ID_MAX_LENGTH)
    "Operation ID length exceeded." ;;
  validate_json_with_fallback (custom_json_json o).

#[export] Instance custom_json_op : base_operation custom_json_operation :=
  BaseOperation _ validate_custom_json
    (λ o, insert_names (custom_json_required_auths o)) no_accounts
    (λ o, insert_names (custom_json_required_posting_auths o)) no_accounts
    no_authorities (λ _, false).

Definition validate_custom_binary (o : custom_binary_operation) : result unit :=
  fc_assert (0 <? count (custom_binary_required_owner_auths o) +
                  count (custom_binary_required_active_auths o) +
                  count (custom_binary_required_posting_auths o))
    "at least one account must be specified" ;;
  fc_assert (str_size (custom_binary_id o) <=? HIVE_CUSTOM_OP_ID_MAX_LENGTH)
    "Operation ID length exceeded." ;;
  forM_ authority_validate (custom_binary_required_auths o).

#[export] Instance custom_binary_op : base_operation custom_binary_operation :=
  BaseOperation _ validate_custom_binary
    (λ o, insert_names (custom_binary_required_active_auths o))
    (λ o, insert_names (custom_binary_required_owner_auths o))
    (λ o, insert_names (custom_binary_required_posting_auths o)) no_accounts
    (λ o a, Ok (a ++ custom_binary_required_auths o)) (λ _, false).

(** ** Witnesses *)

Definition validate_chain_properties (force_canon : bool) (p : legacy_chain_properties)
    : result unit :=
  (if force_canon then
     fc_assert (is_canon (leg_ser (chain_account_creation_fee p)))
       "account_creation_fee.symbol.is_canon()"
   else Ok tt) ;;
  fc_assert (HIVE_MIN_ACCOUNT_CREATION_FEE <=? leg_amount (chain_account_creation_fee p))
    "account_creation_fee.amount >= HIVE_MIN_ACCOUNT_CREATION_FEE" ;;
  fc_assert (HIVE_MIN_BLOCK_SIZE_LIMIT <=? chain_maximum_block_size p)
    "maximum_block_size >= HIVE_MIN_BLOCK_SIZE_LIMIT" ;;
  fc_assert (0 <=? chain_hbd_interest_rate p) "hbd_interest_rate >= 0" ;;
  fc_assert (chain_hbd_interest_rate p <=? HIVE_100_PERCENT) "hbd_interest_rate <= HIVE_100_PERCENT".

Definition validate_url (url : string) : result unit :=
  fc_assert (str_size url <=? HIVE_MAX_WITNESS_URL_LENGTH) "URL is too long" ;;
  fc_assert (0 <? str_size url) "URL size must be greater than 0" ;;
  fc_assert (is_utf8 url) "URL is not valid UTF8".

Definition validate_witness_update (o : witness_update_operation) : result unit :=
  validate_account_name (witness_update_owner o) ;;
  validate_url (witness_update_url o) ;;
  fc_assert_m (asset_geb (witness_update_fee o) (Asset 0 HIVE_SYMBOL)) "Fee cannot be negative" ;;
  validate_chain_properties false (witness_update_props o).

#[export] Instance witness_update_op : base_operation witness_update_operation :=
  needs_active validate_witness_update (λ o, insert_name (witness_update_owner o)).

(** [props.find( k )]. *)
Fixpoint find_prop (k : string) (props : list (string * list Z)) : option (list Z) :=
  match props with
  | [] => None
  | (k', v) :: props => if String.eqb k k' then Some v else find_prop k props
  end.

(** [if( itr != props.end() )]: the value is unpacked over [tmp] and checked. *)
Definition check_prop {A} (itr : option (list Z)) (c : codec A) (tmp : A)
    (check : A → result unit) : result unit :=
  match itr with None => Ok tt | Some v => a ← unpack_from_vector c v tmp; check a end.

Definition find_either (k k' : string) (props : list (string * list Z)) : option (list Z) :=
  match find_prop k props with None => find_prop k' props | itr => itr end.

Definition check_account_creation_fee (fee : asset) : result unit :=
  fc_assert (symbol_eqb (symbol fee) HIVE_SYMBOL) "account_creation_fee must be in HIVE" ;;
  fc_assert (HIVE_MIN_ACCOUNT_CREATION_FEE <=? amount fee)
    "account_creation_fee smaller than minimum account creation fee".
Definition check_maximum_block_size (n : Z) : result unit :=
  fc_assert (HIVE_MIN_BLOCK_SIZE_LIMIT <=? n)
    "maximum_block_size smaller than minimum max block size".
Definition check_hbd_interest_rate (r : Z) : result unit :=
  fc_assert (0 <=? r) "hbd_interest_rate must be positive" ;;
  fc_assert (r <=? HIVE_100_PERCENT) "hbd_interest_rate must not exceed 100%".
Definition check_hbd_exchange_rate (p : price) : result unit :=
  fc_assert (is_asset_type (base p) HBD_SYMBOL && is_asset_type (quote p) HIVE_SYMBOL)
    "Price feed must be a HIVE/HBD price" ;;
  price_validate p.
Definition check_subsidy_budget (b : Z) : result unit :=
  fc_assert (HIVE_RD_MIN_BUDGET <=? b) "Budget must be at least 1" ;;
  fc_assert (b <=? HIVE_RD_MAX_BUDGET) "Budget must be at most 268435455".
Definition check_subsidy_decay (d : Z) : result unit :=
  fc_assert (HIVE_RD_MIN_DECAY <=? d) "Decay must be at least 64" ;;
  fc_assert (d <=? HIVE_RD_MAX_DECAY) "Decay must be at most 4294967295".

(** Reading does not depend on the mode of writing. *)
Definition validate_witness_set_properties (o : witness_set_properties_operation) : result unit :=
  let props := witness_set_properties_props o in
  validate_account_name (witness_set_properties_owner o) ;;
  fc_assert (bool_decide (is_Some (find_prop "key" props))) "No signing key provided" ;;
  check_prop (find_prop "account_creation_fee" props) (asset_codec pack_hf26) default_asset
    check_account_creation_fee ;;
  check_prop (find_prop "maximum_block_size" props) (uint_codec 4) 0 check_maximum_block_size ;;
  check_prop (find_either "sbd_interest_rate" "hbd_interest_rate" props) (uint_codec 2) 0
    check_hbd_interest_rate ;;
  check_prop (find_prop "new_signing_key" props) key_codec 0 (λ _, Ok tt) ;;
  check_prop (find_either "sbd_exchange_rate" "hbd_exchange_rate" props) (price_codec pack_hf26)
    default_price check_hbd_exchange_rate ;;
  check_prop (find_prop "url" props) string_codec "" validate_url ;;
  check_prop (find_prop "account_subsidy_budget" props) (int_codec 4) 0 check_subsidy_budget ;;
  check_prop (find_prop "account_subsidy_decay" props) (uint_codec 4) 0 check_subsidy_decay.

(** [authority( 1, key, 1 )] and [authority( 1, account, 1 )]. *)
Definition single_key (k : Z) : authority := add_key_authority k 1 (Authority 1 [] []).
Definition single_account (n : string) : authority := add_account_authority n 1 (Authority 1 [] []).

#[export] Instance witness_set_properties_op : base_operation witness_set_properties_operation :=
  BaseOperation _ validate_witness_set_properties no_accounts no_accounts no_accounts no_accounts
    (λ o a,
      match find_prop "key" (witness_set_properties_props o) with
      | Some v => k ← unpack_from_vector key_codec v 0; Ok (a ++ [single_key k])
      | None => Ok (a ++ [single_account HIVE_NULL_ACCOUNT])
      end)
    (λ _, false).

Definition validate_account_witness_vote (o : account_witness_vote_operation) : result unit :=
  validate_account_name (account_witness_vote_account o) ;;
  validate_account_name (account_witness_vote_witness o).

#[export] Instance account_witness_vote_op : base_operation account_witness_vote_operation :=
  needs_active validate_account_witness_vote (λ o, insert_name (account_witness_vote_account o)).

Definition is_clearing_proxy (o : account_witness_proxy_operation) : bool :=
  String.eqb (account_witness_proxy_proxy o) HIVE_PROXY_TO_SELF_ACCOUNT.

Definition validate_account_witness_proxy (o : account_witness_proxy_operation) : result unit :=
  validate_account_name (account_witness_proxy_account o) ;;
  (if negb (is_clearing_proxy o) then validate_account_name (account_witness_proxy_proxy o)
   else Ok tt) ;;
  fc_assert (negb (String.eqb (account_witness_proxy_proxy o) (account_witness_proxy_account o)))
    "Cannot proxy to self".

#[export] Instance account_witness_proxy_op : base_operation account_witness_proxy_operation :=
  needs_active validate_account_witness_proxy (λ o, insert_name (account_witness_proxy_account o)).

Definition validate_witness_block_approve (o : witness_block_approve_operation) : result unit :=
  validate_account_name (witness_block_approve_witness o).

#[export] Instance witness_block_approve_op : base_operation witness_block_approve_operation :=
  BaseOperation _ validate_witness_block_approve no_accounts no_accounts no_accounts
    (λ o, insert_name (witness_block_approve_witness o)) no_authorities (λ _, false).

(** ** Proofs of work *)

(** [hash._hash[0] = nonce]: the first 64-bit word of a digest. *)
Definition set_first_word (h nonce : Z) : Z := Z.lor (Z.shiftl (Z.shiftr h 64) 64) nonce.

Definition work_input_of (o : pow_operation) : digest_type :=
  let hash := sha256_hash (le_bytes 4 (id_word0 (powop_block_id o)) ++
                           le_bytes 16 (id_rest (powop_block_id o))) in
  sha256_hash (le_bytes 32 (set_first_word hash (powop_nonce o))).

Definition validate_pow_work (w : pow) : result unit :=
  fc_assert (negb (work_work w =? 0)) "work != fc::sha256()".

Definition validate_pow (o : pow_operation) : result unit :=
  validate_chain_properties true (powop_props o) ;;
  validate_account_name (powop_worker_account o) ;;
  fc_assert (work_input_of o =? work_input (powop_work o))
    "Determninistic input does not match recorded input" ;;
  validate_pow_work (powop_work o).

#[export] Instance pow_op : base_operation pow_operation :=
  needs_active validate_pow no_accounts.

(** [clz]: the zero bits before the first one bit, byte after byte. *)
Fixpoint clz (bytes : list Z) (lzbits : Z) : Z :=
  match bytes with
  | [] => 256
  | c :: bytes => if c =? 0 then clz bytes (lzbits + 8) else lzbits + (7 - Z.log2 c)
  end.

Definition approx_log_32 (h : digest_type) : Z :=
  let bytes := le_bytes 32 h in
  let lzbits := clz bytes 0 in
  if 256 <=? lzbits then 0
  else
    let nzbits := u8 (255 - lzbits) in
    let offset := Z.to_nat (Z.shiftr lzbits 3) in
    let b i := nth (offset + i) bytes 0 in
    let y := Z.lor (Z.lor (Z.lor (Z.shiftl (b 0%nat) 24) (Z.shiftl (b 1%nat) 16))
                          (Z.shiftl (b 2%nat) 8)) (b 3%nat) in
    let y := Z.shiftr y (Z.land nzbits 7) in
    let y := Z.lxor y (Z.shiftl 1 24) in
    Z.lor y (Z.shiftl nzbits 24).

(** Packing writes the string of a name and does not depend on how it is stored. *)
Definition hash_pow2_input (i : pow2_input) : result digest_type :=
  bs ← pack (@pow2_input_codec bswap64 true) i; Ok (sha256_hash bs).

Definition validate_pow2_work (w : pow2_work) : result unit :=
  match w with
  | work_pow2 p => validate_account_name (input_worker_account (p2_input p))
  | work_equihash e =>
      validate_account_name (input_worker_account (eq_input e)) ;;
      seed ← hash_pow2_input (eq_input e);
      fc_assert (proof_n (eq_proof e) =? HIVE_EQUIHASH_N) "proof of work 'n' value is incorrect" ;;
      fc_assert (proof_k (eq_proof e) =? HIVE_EQUIHASH_K) "proof of work 'k' value is incorrect" ;;
      fc_assert (proof_seed (eq_proof e) =? seed)
        "proof of work seed does not match expected seed" ;;
      fc_assert (equihash_is_valid (eq_proof e)) "proof of work is not a solution" ;;
      bs ← pack (vector_codec 4 (uint_codec 4)) (proof_inputs (eq_proof e));
      fc_assert (eq_pow_summary e =? approx_log_32 (sha256_hash bs))
        "pow_summary == fc::sha256::hash( proof.inputs ).approx_log_32()"
  end.

Definition validate_pow2 (o : pow2_operation) : result unit :=
  validate_chain_properties true (pow2op_props o) ;;
  validate_pow2_work (pow2op_work o).

Definition pow2_worker (w : pow2_work) : string :=
  match w with
  | work_pow2 p => input_worker_account (p2_input p)
  | work_equihash e => input_worker_account (eq_input e)
  end.

#[export] Instance pow2_op : base_operation pow2_operation :=
  BaseOperation _ validate_pow2
    (λ o a, if bool_decide (is_Some (pow2op_new_owner_key o)) then a
            else insert_name (pow2_worker (pow2op_work o)) a)
    no_accounts no_accounts no_accounts
    (λ o a, match pow2op_new_owner_key o with
            | Some k => Ok (a ++ [single_key k])
            | None => Ok a
            end)
    (λ _, false).

(** ** Visiting an operation *)

Definition visit {A} (v : ∀ T, base_operation T → T → A) (op : operation) : A :=
  match op with
  | op_vote o => v _ vote_op o
  | op_comment o => v _ comment_op o
  | op_transfer o => v _ transfer_op o
  | op_transfer_to_vesting o => v _ transfer_to_vesting_op o
  | op_withdraw_vesting o => v _ withdraw_vesting_op o
  | op_limit_order_create o => v _ limit_order_create_op o
  | op_limit_order_cancel o => v _ limit_order_cancel_op o
  | op_feed_publish o => v _ feed_publish_op o
  | op_convert o => v _ convert_op o
  | op_account_create o => v _ account_create_op o
  | op_account_update o => v _ account_update_op o
  | op_witness_update o => v _ witness_update_op o
  | op_account_witness_vote o => v _ account_witness_vote_op o
  | op_account_witness_proxy o => v _ account_witness_proxy_op o
  | op_pow o => v _ pow_op o
  | op_custom o => v _ custom_op o
  | op_witness_block_approve o => v _ witness_block_approve_op o
  | op_delete_comment o => v _ delete_comment_op o
  | op_custom_json o => v _ custom_json_op o
  | op_comment_options o => v _ comment_options_op o
  | op_set_withdraw_vesting_route o => v _ set_withdraw_vesting_route_op o
  | op_limit_order_create2 o => v _ limit_order_create2_op o
  | op_claim_account o => v _ claim_account_op o
  | op_create_claimed_account o => v _ create_claimed_account_op o
  | op_request_account_recovery o => v _ request_account_recovery_op o
  | op_recover_account o => v _ recover_account_op o
  | op_change_recovery_account o => v _ change_recovery_account_op o
  | op_escrow_transfer o => v _ escrow_transfer_op o
  | op_escrow_dispute o => v _ escrow_dispute_op o
  | op_escrow_release o => v _ escrow_release_op o
  | op_pow2 o => v _ pow2_op o
  | op_escrow_approve o => v _ escrow_approve_op o
  | op_transfer_to_savings o => v _ transfer_to_savings_op o
  | op_transfer_from_savings o => v _ transfer_from_savings_op o
  | op_cancel_transfer_from_savings o => v _ cancel_transfer_from_savings_op o
  | op_custom_binary o => v _ custom_binary_op o
  | op_decline_voting_rights o => v _ decline_voting_rights_op o
  | op_reset_account o => v _ reset_account_op o
  | op_set_reset_account o => v _ set_reset_account_op o
  | op_claim_reward_balance o => v _ claim_reward_balance_op o
  | op_delegate_vesting_shares o => v _ delegate_vesting_shares_op o
  | op_account_create_with_delegation o => v _ account_create_with_delegation_op o
  | op_witness_set_properties o => v _ witness_set_properties_op o
  | op_account_update2 o => v _ account_update2_op o
  | op_create_proposal o => v _ create_proposal_op o
  | op_update_proposal_votes o => v _ update_proposal_votes_op o
  | op_remove_proposal o => v _ remove_proposal_op o
  | op_update_proposal o => v _ update_proposal_op o
  | op_collateralized_convert o => v _ collateralized_convert_op o
  | op_recurrent_transfer o => v _ recurrent_transfer_op o
  | op_fill_convert_request o => v _ virtual_operation o
  | op_author_reward o => v _ virtual_operation o
  | op_curation_reward o => v _ virtual_operation o
  | op_comment_reward o => v _ virtual_operation o
  | op_liquidity_reward o => v _ virtual_operation o
  | op_interest o => v _ virtual_operation o
  | op_fill_vesting_withdraw o => v _ virtual_operation o
  | op_fill_order o => v _ virtual_operation o
  | op_shutdown_witness o => v _ virtual_operation o
  | op_fill_transfer_from_savings o => v _ virtual_operation o
  | op_hardfork o => v _ virtual_operation o
  | op_comment_payout_update o => v _ virtual_operation o
  | op_return_vesting_delegation o => v _ virtual_operation o
  | op_comment_benefactor_reward o => v _ virtual_operation o
  | op_producer_reward o => v _ virtual_operation o
  | op_clear_null_account_balance o => v _ virtual_operation o
  | op_proposal_pay o => v _ virtual_operation o
  | op_dhf_funding o => v _ virtual_operation o
  | op_hardfork_hive o => v _ virtual_operation o
  | op_hardfork_hive_restore o => v _ virtual_operation o
  | op_delayed_voting o => v _ virtual_operation o
  | op_consolidate_treasury_balance o => v _ virtual_operation o
  | op_effective_comment_vote o => v _ virtual_operation o
  | op_ineffective_delete_comment o => v _ virtual_operation o
  | op_dhf_conversion o => v _ virtual_operation o
  | op_expired_account_notification o => v _ virtual_operation o
  | op_changed_recovery_account o => v _ virtual_operation o
  | op_transfer_to_vesting_completed o => v _ virtual_operation o
  | op_pow_reward o => v _ virtual_operation o
  | op_vesting_shares_split o => v _ virtual_operation o
  | op_account_created o => v _ virtual_operation o
  | op_fill_collateralized_convert_request o => v _ virtual_operation o
  | op_system_warning o => v _ virtual_operation o
  | op_fill_recurrent_transfer o => v _ virtual_operation o
  | op_failed_recurrent_transfer o => v _ virtual_operation o
  | op_limit_order_cancelled o => v _ virtual_operation o
  | op_producer_missed o => v _ virtual_operation o
  | op_proposal_fee o => v _ virtual_operation o
  | op_collateralized_convert_immediate_conversion o => v _ virtual_operation o
  | op_escrow_approved o => v _ virtual_operation o
  | op_escrow_rejected o => v _ virtual_operation o
  | op_proxy_cleared o => v _ virtual_operation o
  | op_declined_voting_rights o => v _ virtual_operation o
  end.

Definition operation_validate (op : operation) : result unit := visit (λ _ _ o, validate o) op.

(** [get_required_auth_visitor]: the five collections are extended one after the other. *)
Definition required_auth_visitor (r : required_authorities_type) (T : Type) (_ : base_operation T)
    (o : T) : result required_authorities_type :=
  let active := get_required_active_authorities o (required_active r) in
  let owner := get_required_owner_authorities o (required_owner r) in
  let posting := get_required_posting_authorities o (required_posting r) in
  let witness := get_required_witness_signatures o (required_witness r) in
  other ← get_required_authorities o (other r);
  Ok (RequiredAuthorities active owner posting witness other).

Definition operation_get_required_authorities (op : operation) (r : required_authorities_type)
    : result required_authorities_type :=
  visit (required_auth_visitor r) op.

Definition is_market_operation (op : operation) : bool :=
  match op with
  | op_limit_order_create _ | op_limit_order_cancel _ | op_transfer _ | op_transfer_to_vesting _ =>
      true
  | _ => false
  end.

Definition is_virtual_operation (op : operation) : bool := visit (λ _ _ o, is_virtual o) op.

Definition is_empty_implied_route (o : fill_vesting_withdraw_operation) : bool :=
  fill_vesting_withdraw_withdrawn o =? 0.

Definition is_effective_operation (op : operation) : bool :=
  match op with
  | op_fill_vesting_withdraw o => negb (is_empty_implied_route o)
  | _ => true
  end.
End operations.

(** ** Theorems *)

(** *** Sets of names *)

Lemma string_ltb_total s t : String.ltb s t = false → String.ltb t s = false → s = t.
Proof.
  unfold String.ltb. rewrite (String.compare_antisym t s).
  destruct (String.compare s t) eqn:E; [|done..]. intros _ _. by apply String.compare_eq_iff.
Qed.

Lemma elem_of_insert_name x n a : x ∈ insert_name n a ↔ x = n ∨ x ∈ a.
Proof.
  unfold insert_name. induction a as [|b a IH]; cbn; [set_solver|].
  destruct (String.ltb n b) eqn:E1; [set_solver|].
  destruct (String.ltb b n) eqn:E2; [set_solver|].
  apply (string_ltb_total _ _ E1) in E2 as ->. set_solver.
Qed.

Lemma elem_of_insert_names x l a : x ∈ insert_names l a ↔ x ∈ l ∨ x ∈ a.
Proof.
  unfold insert_names. revert a. induction l as [|n l IH]; intros a; cbn; [set_solver|].
  rewrite IH, elem_of_insert_name. set_solver.
Qed.

Lemma validate_account_name_ok n u : validate_account_name n = Ok u ↔ is_valid_account_name n = true.
Proof.
  unfold validate_account_name, is_valid_account_name. rewrite bool_decide_eq_true.
  destruct u, (check_account_name n); naive_solver.
Qed.

(** *** The accounts an operation must be signed by *)

(** The accounts in the four collections of names. *)
Definition signer (r : required_authorities_type) (n : string) : Prop :=
  n ∈ required_active r ∨ n ∈ required_owner r ∨ n ∈ required_posting r ∨ n ∈ required_witness r.

Definition no_requirement : required_authorities_type := RequiredAuthorities [] [] [] [] [].

(** [r'] holds what [r] and [q] hold. *)
Record joins (q r r' : required_authorities_type) : Prop := {
  joins_active : ∀ n, n ∈ required_active r' ↔ n ∈ required_active q ∨ n ∈ required_active r;
  joins_owner : ∀ n, n ∈ required_owner r' ↔ n ∈ required_owner q ∨ n ∈ required_owner r;
  joins_posting : ∀ n, n ∈ required_posting r' ↔ n ∈ required_posting q ∨ n ∈ required_posting r;
  joins_witness : ∀ n, n ∈ required_witness r' ↔ n ∈ required_witness q ∨ n ∈ required_witness r;
  joins_other : ∀ a, a ∈ other r' ↔ a ∈ other q ∨ a ∈ other r;
}.

(** The operations whose signer's name is not checked by [validate]. *)
Definition unchecked_signer (op : operation) : bool :=
  match op with
  | op_account_create _ | op_custom _ | op_custom_json _ | op_custom_binary _ => true
  | _ => false
  end.

Definition is_pow (op : operation) : bool := match op with op_pow _ => true | _ => false end.

Section authorities.
Context `{Externals}.

(** What is to be shown of an operation that passed validation: its own requirement [q] is
    joined to what was collected before, is not empty, and names valid accounts. *)
Definition authorities_ok {T} (B : base_operation T) (free unchecked : bool) (o : T) : Prop :=
  ∀ r r', validate o = Ok tt → required_auth_visitor r T B o = Ok r' →
    ∃ q, required_auth_visitor no_requirement T B o = Ok q ∧ joins q r r' ∧
      (free = true ∨ (∃ n, signer q n) ∨ other q ≠ []) ∧
      (unchecked = true ∨ ∀ n, signer q n → is_valid_account_name n = true).

(** A method that inserts the names [l] into the collection it is given. *)
Definition adds (f : list string → list string) (l : list string) : Prop :=
  ∀ x a, x ∈ f a ↔ x ∈ l ∨ x ∈ a.

Lemma adds_none {T} (o : T) : adds (no_accounts o) [].
Proof. intros x a. unfold no_accounts. set_solver. Qed.
Lemma adds_id : adds (λ a, a) [].
Proof. intros x a. set_solver. Qed.
Lemma adds_name n : adds (insert_name n) [n].
Proof. intros x a. rewrite elem_of_insert_name. set_solver. Qed.
Lemma adds_names l : adds (insert_names l) l.
Proof. intros x a. apply elem_of_insert_names. Qed.

(** A method that appends the authorities [l]. *)
Definition appends (f : list authority → result (list authority)) (l : result (list authority))
    : Prop :=
  ∀ a, f a = (x ← l; Ok (a ++ x)).

Lemma appends_none {T} (o : T) : appends (no_authorities o) (Ok []).
Proof. intros a. unfold no_authorities. cbn. by rewrite app_nil_r. Qed.

Lemma visitor_ok {T} (B : base_operation T) free unchecked o la lo lp lw lx :
  adds (get_required_active_authorities o) la → adds (get_required_owner_authorities o) lo →
  adds (get_required_posting_authorities o) lp → adds (get_required_witness_signatures o) lw →
  appends (get_required_authorities o) lx →
  (validate o = Ok tt →
    (free = true ∨ la ++ lo ++ lp ++ lw ≠ [] ∨ lx ≠ Ok []) ∧
    (unchecked = true ∨ Forall (λ n, is_valid_account_name n = true) (la ++ lo ++ lp ++ lw))) →
  authorities_ok B free unchecked o.
Proof.
  intros Ha Ho Hp Hw Hx Hv r r' Hok Hr. unfold required_auth_visitor in *. rewrite Hx in *.
  destruct lx as [l|]; [|done]. cbn in Hr |- *. simplify_eq.
  destruct (Hv Hok) as [Hsome Hvalid]. eexists. split; [done|].
  assert (∀ n, signer (RequiredAuthorities (get_required_active_authorities o [])
    (get_required_owner_authorities o []) (get_required_posting_authorities o [])
    (get_required_witness_signatures o []) l) n ↔ n ∈ la ++ lo ++ lp ++ lw) as Hsig.
  { intros n. unfold signer; cbn. rewrite !elem_of_app, (Ha n), (Ho n), (Hp n), (Hw n).
    rewrite elem_of_nil. tauto. }
  split; [|split].
  - split; cbn; intros n; rewrite ?elem_of_app;
      [rewrite !(Ha n)|rewrite !(Ho n)|rewrite !(Hp n)|rewrite !(Hw n)|];
      rewrite ?elem_of_nil; tauto.
  - destruct Hsome as [Hs|[Hs|Hs] ]; [by left| |right; right; naive_solver].
    right; left. destruct (la ++ lo ++ lp ++ lw) as [|n k]; [done|].
    exists n. apply Hsig. apply list_elem_of_here.
  - destruct Hvalid as [Hu|Hall]; [by left|]. right. intros n Hn%Hsig.
    by eapply (proj1 (Forall_forall _ _)) in Hall.
Qed.

(** The name is one of those that [validate] checked. *)
Ltac name_checked :=
  intros Hv;
  let rec head t := lazymatch t with ?f _ => head f | _ => t end in
  try match type of Hv with ?t = _ => let f := head t in unfold f in Hv end;
  unfold validate_savings in *;
  repeat match goal with
    | H : (_ ≫= _) = Ok _ |- _ => apply bind_Ok in H as (? & ? & H)
    end;
  eapply validate_account_name_ok; eassumption.

(** The operations with one signer. *)
Lemma needs_active_ok {T} (v : T → result unit) (f : T → string) o :
  (v o = Ok tt → is_valid_account_name (f o) = true) →
  authorities_ok (needs_active v (λ o, insert_name (f o))) false false o.
Proof.
  intros Hn. eapply (visitor_ok _ _ _ _ [f o] [] [] []);
    [apply adds_name|apply adds_none..|apply appends_none|].
  intros Hv. split; [by right; left|]. right. repeat constructor. by apply Hn.
Qed.
Lemma needs_owner_ok {T} (v : T → result unit) (f : T → string) o :
  (v o = Ok tt → is_valid_account_name (f o) = true) →
  authorities_ok (needs_owner v (λ o, insert_name (f o))) false false o.
Proof.
  intros Hn. eapply (visitor_ok _ _ _ _ [] [f o] [] []);
    [apply adds_none|apply adds_name|apply adds_none..|apply appends_none|].
  intros Hv. split; [by right; left|]. right. repeat constructor. by apply Hn.
Qed.
Lemma needs_posting_ok {T} (v : T → result unit) (f : T → string) o :
  (v o = Ok tt → is_valid_account_name (f o) = true) →
  authorities_ok (needs_posting v (λ o, insert_name (f o))) false false o.
Proof.
  intros Hn. eapply (visitor_ok _ _ _ _ [] [] [f o] []);
    [apply adds_none..|apply adds_name|apply adds_none|apply appends_none|].
  intros Hv. split; [by right; left|]. right. repeat constructor. by apply Hn.
Qed.

(** The operations with none, several, or a choice of them. *)
Lemma account_create_ok o : authorities_ok account_create_op false true o.
Proof.
  eapply (visitor_ok _ _ _ _ [account_create_creator o] [] [] []);
    [apply adds_name|apply adds_none..|apply appends_none|].
  intros _. split; [by right; left|by left].
Qed.

Lemma one_signer (n : string) free (P : Prop) :
  is_valid_account_name n = true →
  (free = true ∨ [n] ≠ [] ∨ P) ∧
  (false = true ∨ Forall (λ n, is_valid_account_name n = true) [n]).
Proof. intros Hn. split; [by right; left|]. right. by repeat constructor. Qed.

Ltac methods :=
  first [apply adds_name|apply adds_names|apply adds_id|apply adds_none|apply appends_none].

Lemma account_update_ok o : authorities_ok account_update_op false false o.
Proof.
  destruct (account_update_owner o) eqn:E;
    [eapply (visitor_ok _ _ _ _ [] [account_update_account o] [] [])
    |eapply (visitor_ok _ _ _ _ [account_update_account o] [] [] [])];
    cbn; rewrite ?E; cbn; try methods; intros Hv; apply one_signer; revert Hv; name_checked.
Qed.

Lemma account_update2_ok o : authorities_ok account_update2_op false false o.
Proof.
  destruct (account_update2_owner o) eqn:E, (account_update2_active_part o) eqn:E';
    [eapply (visitor_ok _ _ _ _ [] [account_update2_account o] [] [])
    |eapply (visitor_ok _ _ _ _ [] [account_update2_account o] [] [])
    |eapply (visitor_ok _ _ _ _ [account_update2_account o] [] [] [])
    |eapply (visitor_ok _ _ _ _ [] [] [account_update2_account o] [])];
    cbn; rewrite ?E, ?E'; cbn; try methods; intros Hv; apply one_signer; revert Hv; name_checked.
Qed.

Lemma set_reset_account_ok o : authorities_ok set_reset_account_op false false o.
Proof.
  destruct (str_size (set_reset_account_current_reset_account o) =? 0) eqn:E;
    [eapply (visitor_ok _ _ _ _ [] [] [set_reset_account_account o] [])
    |eapply (visitor_ok _ _ _ _ [] [set_reset_account_account o] [] [])];
    cbn; rewrite ?E; cbn; try methods; intros Hv; apply one_signer; revert Hv; name_checked.
Qed.

Lemma witness_block_approve_ok o : authorities_ok witness_block_approve_op false false o.
Proof.
  eapply (visitor_ok _ _ _ _ [] [] [] [witness_block_approve_witness o]); cbn; try methods.
  intros Hv; apply one_signer; revert Hv; name_checked.
Qed.

Lemma pow_ok o : authorities_ok pow_op true false o.
Proof.
  eapply (visitor_ok _ _ _ _ [] [] [] []); cbn; try methods. intros _. by split; [left|right].
Qed.

(** Authorities that are not those of an account. *)
Lemma appends_app l : appends (λ a, Ok (a ++ l)) (Ok l).
Proof. done. Qed.

Lemma pow2_ok o : authorities_ok pow2_op false false o.
Proof.
  destruct (pow2op_new_owner_key o) eqn:E;
    [eapply (visitor_ok _ _ _ _ [] [] [] [])
    |eapply (visitor_ok _ _ _ _ [pow2_worker (pow2op_work o)] [] [] [] (Ok []))];
    cbn; rewrite ?E; cbn; try methods.
  - apply appends_app.
  - intros _. split; [by right; right|by right].
  - intros a. cbn. by rewrite app_nil_r.
  - intros Hv. apply one_signer. apply bind_Ok in Hv as (? & _ & Hv).
    destruct (pow2op_work o); revert Hv; name_checked.
Qed.

Lemma recover_account_ok o : authorities_ok recover_account_op false false o.
Proof.
  eapply (visitor_ok _ _ _ _ [] [] [] []); cbn; try methods; [apply appends_app|].
  intros _. split; [by right; right|by right].
Qed.

Lemma witness_set_properties_ok o : authorities_ok witness_set_properties_op false false o.
Proof.
  eapply (visitor_ok _ _ _ _ [] [] [] []
    (match find_prop "key" (witness_set_properties_props o) with
     | Some v => k ← unpack_from_vector key_codec v 0; Ok [single_key k]
     | None => Ok [single_account HIVE_NULL_ACCOUNT]
     end)); cbn; try methods.
  - intros a. destruct (find_prop _ _); [|done]. by destruct (unpack_from_vector _ _ _).
  - intros _. split; [|by right]. right; right. destruct (find_prop _ _); [|done].
    by destruct (unpack_from_vector _ _ _).
Qed.

Lemma count_pos {A} (l : list A) : 0 < count l → l ≠ [].
Proof. by destruct l. Qed.

Lemma custom_ok o : authorities_ok custom_op false true o.
Proof.
  eapply (visitor_ok _ _ _ _ (custom_required_auths o) [] [] []); cbn; try methods.
  intros Hv%fc_assert_Ok. bool_to_prop. split; [|by left]. right; left.
  rewrite app_nil_r. by apply count_pos.
Qed.

Lemma custom_json_ok o : authorities_ok custom_json_op false true o.
Proof.
  eapply (visitor_ok _ _ _ _ (custom_json_required_auths o) []
    (custom_json_required_posting_auths o) []); cbn; try methods.
  intros (u & Hv%fc_assert_Ok & _)%bind_Ok. bool_to_prop. split; [|by left]. right; left.
  apply count_pos. unfold count, account_name_type in *. rewrite !length_app. cbn. lia.
Qed.

Lemma custom_binary_ok o : authorities_ok custom_binary_op false true o.
Proof.
  eapply (visitor_ok _ _ _ _ (custom_binary_required_active_auths o)
    (custom_binary_required_owner_auths o) (custom_binary_required_posting_auths o) []);
    cbn; try methods; [apply appends_app|].
  intros (u & Hv%fc_assert_Ok & _)%bind_Ok. bool_to_prop. split; [|by left]. right; left.
  apply count_pos. unfold count, account_name_type in *. rewrite !length_app. cbn. lia.
Qed.

Lemma operation_authorities_ok op :
  is_virtual_operation op = true ∨
  visit (λ T B o, authorities_ok B (is_pow op) (unchecked_signer op) o) op.
Proof.
  destruct op; try (left; reflexivity); right; cbn [visit is_pow unchecked_signer];
    first [apply account_create_ok|apply account_update_ok|apply account_update2_ok
          |apply set_reset_account_ok|apply witness_block_approve_ok|apply pow_ok|apply pow2_ok
          |apply recover_account_ok|apply witness_set_properties_ok|apply custom_ok
          |apply custom_json_ok|apply custom_binary_ok
          |apply needs_active_ok; name_checked|apply needs_owner_ok; name_checked
          |apply needs_posting_ok; name_checked].
Qed.

Lemma virtual_not_valid op :
  is_virtual_operation op = true →
  operation_validate op = Throw (assert_exception "This is a virtual operation").
Proof. destruct op; cbn [is_virtual_operation visit]; (reflexivity || discriminate). Qed.
End authorities.

(** *** Beneficiaries *)

Fixpoint total_weight (l : list beneficiary_route_type) : Z :=
  match l with [] => 0 | b :: l => beneficiary_weight b + total_weight l end.

Definition route_ok (b : beneficiary_route_type) : Prop := 0 ≤ beneficiary_weight b ≤ u16_max.

Lemma total_weight_nonneg l : Forall route_ok l → 0 ≤ total_weight l.
Proof. induction 1 as [|b l Hb Hl IH]; cbn; [done|]. unfold route_ok in Hb. lia. Qed.

Lemma validate_beneficiary_Ok sum b sum' :
  0 ≤ sum ≤ HIVE_100_PERCENT → route_ok b →
  validate_beneficiary sum b = Ok sum' ↔
  is_valid_account_name (beneficiary_account b) = true ∧ sum' = sum + beneficiary_weight b ∧
  sum' ≤ HIVE_100_PERCENT.
Proof.
  unfold route_ok, u16_max. intros Hs Hb. unfold validate_beneficiary.
  unfold HIVE_100_PERCENT in *. rewrite u32_id by (unfold u32_max; lia).
  rewrite bind_Ok. split.
  - intros (u & Hv & H1). apply validate_account_name_ok in Hv.
    apply fc_assert_bind_Ok in H1 as [_ H1]. apply fc_assert_bind_Ok in H1 as [Hle [= <-] ].
    bool_to_prop. done.
  - intros (Hv & -> & Hle). exists tt. rewrite validate_account_name_ok, !fc_assert_bind_Ok.
    rewrite !Z.leb_le. split_and!; [done|lia|lia|done].
Qed.

Lemma validate_beneficiaries_from_Ok prev sum l :
  0 ≤ sum ≤ HIVE_100_PERCENT → Forall route_ok l →
  validate_beneficiaries_from prev sum l = Ok tt ↔
  Forall (λ b, is_valid_account_name (beneficiary_account b) = true) l ∧
  sum + total_weight l ≤ HIVE_100_PERCENT ∧ Sorted (λ a b, route_ltb a b = true) (prev :: l).
Proof.
  intros Hs Hl. revert prev sum Hs. induction Hl as [|b l Hb Hl IH]; intros prev sum Hs; cbn.
  { split; [|done]. intros _. split_and!; [constructor|lia|by repeat constructor]. }
  rewrite bind_Ok. pose proof (total_weight_nonneg l Hl). pose proof Hb as [Hb0 _]. split.
  - intros (sum' & H1 & H2). apply fc_assert_bind_Ok in H2 as [Hlt H2].
    apply validate_beneficiary_Ok in H1 as (Hv & -> & Hle); [|done..].
    apply IH in H2 as (Hf & Ht & Hsort); [|lia]. split_and!; [by constructor|lia|].
    constructor; [done|by constructor].
  - intros (Hf & Ht & Hsort). apply Forall_cons in Hf as [Hv Hf].
    apply Sorted_inv in Hsort as [Hsort Hhd]. apply HdRel_inv in Hhd.
    exists (sum + beneficiary_weight b). rewrite validate_beneficiary_Ok by done.
    split; [split_and!; [done|done|lia]|]. rewrite fc_assert_bind_Ok. split; [done|].
    apply IH; [lia|]. split_and!; [done|lia|done].
Qed.

(** A list of beneficiaries is accepted exactly when it has between 1 and 127 routes,
    every account name is valid, the weights (16-bit numbers) sum to at most 100 per cent,
    and the accounts are in strictly increasing order; the running 32-bit sum does not wrap
    around. *)
Theorem validate_beneficiaries_exact (c : comment_payout_beneficiaries) :
  Forall route_ok (payout_beneficiaries c) →
  validate_beneficiaries c = Ok tt ↔
  1 ≤ count (payout_beneficiaries c) ≤ 127 ∧
  Forall (λ b, is_valid_account_name (beneficiary_account b) = true) (payout_beneficiaries c) ∧
  total_weight (payout_beneficiaries c) ≤ HIVE_100_PERCENT ∧
  Sorted (λ a b, route_ltb a b = true) (payout_beneficiaries c).
Proof.
  destruct c as [l]. unfold validate_beneficiaries. cbn [payout_beneficiaries]. intros Hl.
  rewrite !fc_assert_bind_Ok, negb_true_iff, Z.eqb_neq, Z.ltb_lt. unfold HIVE_BENEFICIARY_LIMIT.
  destruct Hl as [|b l Hb Hl]; [unfold count; cbn; split; [intros (? & _)|intros (? & _)]; lia|].
  assert (1 ≤ count (b :: l)) as Hc by (unfold count; cbn; lia).
  pose proof (total_weight_nonneg l Hl). pose proof Hb as [Hb0 _].
  rewrite bind_Ok. cbn [total_weight]. rewrite Forall_cons. split.
  - intros (_ & Hlt & sum & H1 & H2).
    apply validate_beneficiary_Ok in H1 as (Hv & -> & Hle); [|unfold HIVE_100_PERCENT; lia|done].
    apply validate_beneficiaries_from_Ok in H2 as (Hf & Ht & Hsort); [|lia|done].
    split_and!; [lia|lia|done|done|lia|done].
  - intros (Hn & (Hv & Hf) & Ht & Hsort). split_and!; [lia|lia|].
    exists (beneficiary_weight b). rewrite validate_beneficiary_Ok by (done || (unfold HIVE_100_PERCENT; lia)).
    split; [split_and!; [done|lia|lia]|].
    apply validate_beneficiaries_from_Ok; [lia|done|]. split_and!; [done|lia|done].
Qed.

Lemma validate_beneficiaries_exact_witness :
  validate_beneficiaries (Build_comment_payout_beneficiaries
    [Build_beneficiary_route_type "alice" 4000; Build_beneficiary_route_type "bob" 6000]) = Ok tt.
Proof.
  apply validate_beneficiaries_exact.
  - repeat constructor; vm_compute; done.
  - split_and!; [vm_compute; done..|repeat constructor|vm_compute; done|repeat constructor].
Defined.
