(* ===== verification/Transaction.v ===== *)
(** * Transactions

    [src/libraries/protocol/transaction.cpp] and [transaction_util.cpp]: a transaction and its
    serialisation, digests, validation, the authorities it requires, the recovery of the keys
    that signed it and the verification of its authority.

    Parameters: [recover] is [fc::ecc::public_key( sig, digest )], SHA-256 is in [Externals].
    [minimize_required_signatures] and the key collectors of wallets are not modelled. *)

From S2P Require Import Prelude AssetSymbol Asset Raw FixedString ForkDatabase Authority SignState.
From S2P Require Import OperationTypes ProtocolCodec OperationCodec Operations.
Local Open Scope codec_scope.

Record transaction : Set := Transaction {
  ref_block_num : Z;
  ref_block_prefix : Z;
  expiration : time_point_sec;
  operations : list operation;
  extensions : list future_extensions;
}.

Record signed_transaction : Set := SignedTransaction {
  trx : transaction;
  signatures : list signature_type;
}.

Definition HIVE_MAX_SIG_CHECK_DEPTH : Z := 2.
Definition HIVE_MAX_SIG_CHECK_ACCOUNTS : Z := 125.

Section transactions.
Context `{EndianReverse64, Layout, Externals} (verify : bool).

(** ** Serialisation *)

Definition transaction_codec (mode : pack_type) : codec transaction :=
  iso_codec
    (λ '(x0, (x1, (x2, (x3, x4)))), Transaction x0 x1 x2 x3 x4)
    (λ t, (ref_block_num t, (ref_block_prefix t, (expiration t, (operations t, extensions t)))))
    (uint_codec 2 ⊗ uint_codec 4 ⊗ uint_codec 4 ⊗
     vector_codec sizeof_operation (operation_codec verify mode) ⊗ extensions_codec).

Definition signed_transaction_codec (mode : pack_type) : codec signed_transaction :=
  iso_codec (λ p, SignedTransaction p.1 p.2) (λ t, (trx t, signatures t))
    (transaction_codec mode ⊗ vector_codec sizeof_signature (array_codec 65)).

Definition merkle_digest (mode : pack_type) (t : signed_transaction) : result digest_type :=
  bs ← pack (signed_transaction_codec mode) t; Ok (sha256_hash bs).

Definition digest (mode : pack_type) (t : transaction) : result digest_type :=
  bs ← pack (transaction_codec mode) t; Ok (sha256_hash bs).

Definition sig_digest (chain_id : digest_type) (mode : pack_type) (t : transaction)
    : result digest_type :=
  bs ← pack (transaction_codec mode) t; Ok (sha256_hash (le_bytes 32 chain_id ++ bs)).

(** The first 20 bytes of the digest. *)
Definition transaction_id (mode : pack_type) (t : transaction) : result block_id_type :=
  h ← digest mode t; Ok (BlockId (u32 h) (u128 (Z.shiftr h 32))).

(** ** Validation and authorities *)

Definition transaction_validate (t : transaction) : result unit :=
  fc_assert (0 <? count (operations t)) "A transaction must have at least one operation" ;;
  forM_ operation_validate (operations t).

(** The overload that calls [notify( op, post )] around the validation of each operation. *)
Definition transaction_validate_notify {S} (notify : operation → bool → stM S unit) (t : transaction)
    : stM S unit :=
  st_lift (fc_assert (0 <? count (operations t)) "A transaction must have at least one operation") ;;
  st_for (λ op, notify op false ;; st_lift (operation_validate op) ;; notify op true) (operations t).

Definition transaction_get_required_authorities (t : transaction) (r : required_authorities_type)
    : result required_authorities_type :=
  foldM (λ r op, operation_get_required_authorities op r) r (operations t).

Definition set_expiration (e : time_point_sec) (t : transaction) : transaction :=
  Transaction (ref_block_num t) (ref_block_prefix t) e (operations t) (extensions t).

Definition set_reference_block (b : block_id_type) (t : transaction) : transaction :=
  Transaction (u16 (num_from_id b)) (u32 (id_rest b)) (expiration t) (operations t) (extensions t).

(** ** Signatures *)

Context (recover : signature_type → digest_type → result Z).

Definition tx_duplicate_sig : exn := fc_exception "tx_duplicate_sig".

Definition get_signature_keys (chain_id : digest_type) (mode : pack_type) (t : signed_transaction)
    : result (gset Z) :=
  d ← sig_digest chain_id mode (trx t);
  foldM (λ keys sig,
      k ← recover sig d;
      if decide (k ∈ keys) then Throw tx_duplicate_sig else Ok ({[ k ]} ∪ keys)) ∅ (signatures t).

(** ** [verify_authority] *)

Context (get_active get_owner get_posting : string → result authority).
Context (get_witness_key : string → result Z).

(** The exception thrown for a problem; building its message reads the authorities again. *)
Definition throw_problem (p : verify_authority_problem) : result unit :=
  match p with
  | mixed_with_posting => Throw (fc_exception "tx_combined_auths_with_posting")
  | missing_posting id =>
      get_posting id ;; get_active id ;; get_owner id ;; Throw (fc_exception "tx_missing_posting_auth")
  | missing_active id =>
      get_active id ;; get_owner id ;; Throw (fc_exception "tx_missing_active_auth")
  | missing_owner id => get_owner id ;; Throw (fc_exception "tx_missing_owner_auth")
  | missing_witness id => get_witness_key id ;; Throw (fc_exception "tx_missing_witness_auth")
  | missing_witness_key _ => Throw (fc_exception "tx_missing_witness_auth")
  | missing_other _ => Throw (fc_exception "tx_missing_other_auth")
  | unused_signature => Throw (fc_exception "tx_irrelevant_sig")
  end.

Definition verify_authority (limits : sign_limits) (allow_redundant : bool)
    (r : required_authorities_type) (sigs : gset Z)
    (active_approvals owner_approvals posting_approvals : gset string) : result unit :=
  p ← verify_authority_impl get_active get_owner get_posting get_witness_key limits allow_redundant
        active_approvals owner_approvals posting_approvals r sigs;
  match p with None => Ok tt | Some p => throw_problem p end.

Definition has_authorization (strict allow_redundant : bool) (r : required_authorities_type)
    (sigs : gset Z) : result bool :=
  p ← verify_authority_impl get_active get_owner get_posting get_witness_key
        (SignLimits strict HIVE_MAX_SIG_CHECK_DEPTH HIVE_MAX_AUTHORITY_MEMBERSHIP
           HIVE_MAX_SIG_CHECK_ACCOUNTS) allow_redundant ∅ ∅ ∅ r sigs;
  Ok (bool_decide (p = None)).

(** The arguments of the call are evaluated before it. *)
Definition signed_verify_authority (limits : sign_limits) (allow_redundant : bool)
    (chain_id : digest_type) (mode : pack_type) (t : signed_transaction) : result unit :=
  keys ← get_signature_keys chain_id mode t;
  r ← transaction_get_required_authorities (trx t) no_requirement;
  verify_authority limits allow_redundant r keys ∅ ∅ ∅.

(** [get_required_signatures]: the available keys among the signatures that count. *)
Definition check_each {A} (f : A → stM sign_state bool) (l : list A) : stM sign_state unit :=
  st_for (λ a, f a ;; mret tt) l.

Definition find_keys (available : gset Z) : stM sign_state (gset Z) :=
  s ← st_get; mret (dom (provided_signatures s) ∩ available).

Definition drop_unused : stM sign_state unit := st_modify (λ s, (remove_unused_signatures s).1).

Definition required_signatures_rest (limits : sign_limits) (r : required_authorities_type)
    (available : gset Z) : stM sign_state (gset Z) :=
  st_modify clear_approved ;;
  check_each (check_authority limits get_active) (other r) ;;
  check_each (λ id, auth ← st_lift (get_owner id); check_authority limits get_active auth)
    (required_owner r) ;;
  check_each (check_authority_account limits get_active) (required_active r) ;;
  drop_unused ;;
  find_keys available.

Definition get_required_signatures (limits : sign_limits) (chain_id : digest_type)
    (mode : pack_type) (available : gset Z) (t : signed_transaction) : result (gset Z) :=
  r ← transaction_get_required_authorities (trx t) no_requirement;
  keys ← get_signature_keys chain_id mode t;
  let strict := allow_strict_and_mixed_authorities limits in
  snd ((st_modify (extend_provided_signatures available) ;;
        if bool_decide (required_posting r = []) then required_signatures_rest limits r available
        else
          (if negb strict then
             st_lift (fc_assert (bool_decide (required_owner r = [])) "!required_owner.size()" ;;
                      fc_assert (bool_decide (required_active r = [])) "!required_active.size()")
           else mret tt) ;;
          check_each (check_authority_account limits get_posting) (required_posting r) ;;
          if negb strict then drop_unused ;; find_keys available
          else required_signatures_rest limits r available)
       (new_sign_state keys)).
End transactions.

(** ** Accepted transactions are authorised *)

Record part_of (q r : required_authorities_type) : Prop := {
  part_active : required_active q ⊆ required_active r;
  part_owner : required_owner q ⊆ required_owner r;
  part_posting : required_posting q ⊆ required_posting r;
  part_witness : required_witness q ⊆ required_witness r;
  part_other : other q ⊆ other r;
}.

#[export] Instance part_of_preorder : PreOrder part_of.
Proof. split; [split; set_solver|]. intros p q r [] []. split; set_solver. Qed.

Lemma joins_parts q r r' : joins q r r' → part_of q r' ∧ part_of r r'.
Proof. intros []. split; split; set_solver. Qed.

Lemma sub_nil {A} (l k : list A) : l ⊆ k → k = [] → l = [].
Proof. intros H ->. destruct l; [done|]. set_solver. Qed.

Lemma part_not_mixed q r : part_of q r → is_mixed r = false → is_mixed q = false.
Proof.
  unfold is_mixed. intros [] H%negb_false_iff. apply negb_false_iff.
  rewrite !andb_true_iff, !bool_decide_eq_true in *. destruct H as [[[? ?] ?] ?].
  split_and!; by eapply sub_nil.
Qed.

Lemma granted_part ga go gp gw limits aa oa pa sigs q r :
  part_of q r → requirements_granted ga go gp gw limits aa oa pa sigs r →
  requirements_granted ga go gp gw limits aa oa pa sigs q.
Proof.
  intros Hp []. pose proof Hp as []. split; auto. intros Hne Hs. apply (part_not_mixed q r Hp).
  apply posting_not_mixed; [|done]. intros E. by apply Hne, (sub_nil _ _ part_posting0).
Qed.

Section accepted.
Context `{HE : EndianReverse64, HL : Layout, HX : Externals}.

(** What an operation requires on its own. *)
Definition own_requirement (op : operation) (q : required_authorities_type) : Prop :=
  operation_get_required_authorities op no_requirement = Ok q.

Lemma operation_requirement op r r' :
  operation_validate op = Ok tt → operation_get_required_authorities op r = Ok r' →
  ∃ q, own_requirement op q ∧ joins q r r' ∧
    (is_pow op = true ∨ (∃ n, signer q n) ∨ other q ≠ []) ∧
    (unchecked_signer op = true ∨ ∀ n, signer q n → is_valid_account_name n = true).
Proof.
  intros Hv Hr. unfold own_requirement, operation_get_required_authorities, operation_validate in *.
  destruct (operation_authorities_ok op) as [Hvop|Hok].
  { apply virtual_not_valid in Hvop. unfold operation_validate in Hvop. congruence. }
  destruct op; cbn [visit] in *; exact (Hok r r' Hv Hr).
Qed.

Lemma collected ops r r' :
  (∀ op, op ∈ ops → operation_validate op = Ok tt) →
  foldM (λ r op, operation_get_required_authorities op r) r ops = Ok r' →
  part_of r r' ∧
  (∀ a, a ∈ other r' → a ∈ other r ∨ ∃ op q, op ∈ ops ∧ own_requirement op q ∧ a ∈ other q) ∧
  ∀ op, op ∈ ops → ∃ q, own_requirement op q ∧ part_of q r' ∧
    (is_pow op = true ∨ (∃ n, signer q n) ∨ other q ≠ []) ∧
    (unchecked_signer op = true ∨ ∀ n, signer q n → is_valid_account_name n = true).
Proof.
  revert r. induction ops as [|op ops IH]; intros r Hv Hf; cbn [foldM] in Hf.
  { simplify_eq. split; [done|]. split; [by left|]. intros op Hop. by apply elem_of_nil in Hop. }
  apply bind_Ok in Hf as (r1 & H1 & H2).
  destruct (operation_requirement op r r1) as (q & Hq & Hj & Hsome & Hvalid);
    [apply Hv; set_solver|done|]. destruct (joins_parts _ _ _ Hj) as [Hqr Hrr].
  apply IH in H2 as (Hp & Ho & Hall); [|intros o Hin; apply Hv; set_solver].
  split; [by etrans|]. split.
  - intros a [Ha|(o & q' & ? & ? & ?)]%Ho; [|right; exists o, q'; set_solver].
    apply (joins_other _ _ _ Hj) in Ha as [Ha|Ha]; [right; exists op, q; set_solver|by left].
  - intros o [->|Hin]%elem_of_cons; [|by apply Hall].
    exists q. split_and!; [done|by etrans|done|done].
Qed.

Lemma recovered_keys (recover : signature_type → result Z) sigs (ks keys : gset Z) :
  foldM (λ keys sig,
      k ← recover sig;
      if decide (k ∈ keys) then Throw tx_duplicate_sig else Ok ({[ k ]} ∪ keys)) ks sigs = Ok keys →
  size keys = (size ks + length sigs)%nat.
Proof.
  revert ks. induction sigs as [|sig sigs IH]; intros ks Hf; cbn [foldM] in Hf.
  { simplify_eq. cbn. lia. }
  apply bind_Ok in Hf as (ks1 & Hk & Hf). apply bind_Ok in Hk as (k & _ & Hk).
  destruct (decide (k ∈ ks)) as [|Hn]; [done|]. simplify_eq. apply IH in Hf. rewrite Hf.
  rewrite size_union by set_solver. rewrite size_singleton. cbn. lia.
Qed.

(** C30. A transaction that passes validation and the verification of its authority is
    authorised operation by operation: each operation that it contains requires at least one
    account or explicit authority (except the old proof-of-work operation), the required
    accounts have valid names (except where the operation does not check them), and all that
    the operation requires on its own is granted by the keys recovered from the signatures,
    which are pairwise different. *)
Theorem accepted_transaction_authorised (verify : bool)
    (recover : signature_type → digest_type → result Z)
    (get_active get_owner get_posting : string → result authority)
    (get_witness_key : string → result Z) (limits : sign_limits) (allow_redundant : bool)
    (chain_id : digest_type) (mode : pack_type) (t : signed_transaction) :
  (∀ a au, get_active a = Ok au → auth_ok au) → (∀ a au, get_owner a = Ok au → auth_ok au) →
  (∀ a au, get_posting a = Ok au → auth_ok au) →
  (∀ op q, op ∈ operations (trx t) → own_requirement op q → Forall auth_ok (other q)) →
  transaction_validate (trx t) = Ok tt →
  signed_verify_authority verify recover get_active get_owner get_posting get_witness_key
    limits allow_redundant chain_id mode t = Ok tt →
  operations (trx t) ≠ [] ∧
  ∃ keys, get_signature_keys verify recover chain_id mode t = Ok keys ∧
  size keys = length (signatures t) ∧
  ∀ op, op ∈ operations (trx t) → ∃ q, own_requirement op q ∧
    (is_pow op = true ∨ (∃ n, signer q n) ∨ other q ≠ []) ∧
    (unchecked_signer op = true ∨ ∀ n, signer q n → is_valid_account_name n = true) ∧
    requirements_granted get_active get_owner get_posting get_witness_key limits ∅ ∅ ∅ keys q.
Proof.
  intros Ha Ho Hp Hoth Hv Hs. unfold transaction_validate in Hv.
  apply fc_assert_bind_Ok in Hv as [Hc Hv]. bool_to_prop.
  assert (∀ op, op ∈ operations (trx t) → operation_validate op = Ok tt) as Hvop.
  { intros op Hop. pose proof (proj1 (forM_Ok _ _ _) Hv op Hop) as Hok.
    apply is_ok_Ok in Hok as [[] ?]. done. }
  unfold signed_verify_authority in Hs. apply bind_Ok in Hs as (keys & Hk & Hs).
  apply bind_Ok in Hs as (r & Hr & Hs). apply bind_Ok in Hs as (p & Hi & Hs).
  assert (p = None) as ->.
  { destruct p as [p|]; [exfalso|done]. destruct p; cbn in Hs;
      repeat (apply bind_Ok in Hs as (? & _ & Hs)); done. }
  apply collected in Hr as (_ & Hother & Hall); [|done].
  split; [by apply count_pos|]. exists keys. split; [done|]. split.
  { apply bind_Ok in Hk as (d & _ & Hk). apply (recovered_keys (λ s, recover s d)) in Hk.
    by rewrite size_empty in Hk. }
  assert (requirements_granted get_active get_owner get_posting get_witness_key limits ∅ ∅ ∅ keys r)
    as Hg.
  { eapply verify_impl_granted; [done..| |done]. apply Forall_forall. intros a Hin.
    apply Hother in Hin as [Hin|(op & q & Hop & Hq & Hin)]; [by apply elem_of_nil in Hin|].
    pose proof (Hoth op q Hop Hq) as Hf. by eapply (proj1 (Forall_forall _ _)) in Hf. }
  intros op Hop. destruct (Hall op Hop) as (q & Hq & Hpart & Hsome & Hvalid).
  exists q. split_and!; [done..|]. by eapply granted_part.
Qed.
End accepted.

(** *** A transfer signed by two keys *)

Definition sample_layout : Layout := Build_Layout 32 24 72 24 16 16 40 16 16 512 65.
Definition sample_externals : Externals :=
  Build_Externals (λ _, true) (λ _, true) (λ bs, of_le_bytes (take 32 bs)) (λ _, true).

Definition sample_transfer : operation :=
  op_transfer (Build_transfer_operation "alice" "bob" (Asset 1000 HIVE_SYMBOL) "thanks").
Definition sample_accounts (a : string) : result authority :=
  Ok (if decide (a = "alice"%string) then sample_alice else Authority 1 [] [(8, 1)]).
Definition sample_transaction : signed_transaction :=
  SignedTransaction (Transaction 1 2 1700000000 [sample_transfer] []) [7; 8].

Lemma accepted_transaction_authorised_witness :
  ∃ q : required_authorities_type, @own_requirement sample_externals sample_transfer q ∧
    requirements_granted sample_accounts sample_accounts sample_accounts (λ _, Ok 9) sample_limits ∅ ∅ ∅
      ({[ 7 ]} ∪ {[ 8 ]}) q.
Proof.
  assert (∀ a au, sample_accounts a = Ok au → auth_ok au) as Hget.
  { intros a au [= <-]. destruct (decide _); split; repeat constructor; simpl; lia. }
  destruct (@accepted_transaction_authorised bswap64 sample_layout sample_externals true
    (λ sig _, Ok sig) sample_accounts sample_accounts sample_accounts (λ _, Ok 9) sample_limits false 0 pack_hf26
    sample_transaction Hget Hget Hget) as (_ & keys & Hk & _ & Hall).
  - intros op q [->|Hop]%elem_of_cons Hq; [|by apply elem_of_nil in Hop].
    vm_compute in Hq. injection Hq as <-. constructor.
  - by vm_compute.
  - by vm_compute.
  - destruct (Hall sample_transfer) as (q & Hq & _ & _ & Hg); [apply list_elem_of_here|].
    exists q. split; [done|].
    assert (keys = {[ 7 ]} ∪ {[ 8 ]}) as <-; [|done]. vm_compute in Hk. injection Hk as <-. by vm_compute.
Defined.

(** ** Serialisation and digests *)

Section digests.
Context `{HE : EndianReverse64, !EndianReverse64Laws, HL : Layout, HX : Externals} (verify : bool).

#[export] Instance transaction_roundtrip mode : Roundtrip (transaction_codec verify mode).
Proof. by_fields. Qed.
#[export] Instance signed_transaction_roundtrip mode :
  Roundtrip (signed_transaction_codec verify mode).
Proof. by_fields. Qed.

#[export] Instance transaction_reader m m' :
  SameReader (transaction_codec verify m) (transaction_codec verify m') | 3.
Proof. by_readers. Qed.

(** C32. Every transaction is read back as it was written, in both serialisation modes and
    whatever follows it; and the bytes that are hashed for signing determine the chain and
    the transaction: two well-formed transactions, written in any modes and for any chains,
    are hashed from the same bytes only if they are the same transaction for the same chain.
    So a signature made in one encoding is not one of another transaction in the other
    encoding, unless two different inputs of SHA-256 have the same digest. *)
Theorem transaction_serialisation (m m' : pack_type) (chain chain' : digest_type)
    (t t' : transaction) :
  wf (transaction_codec verify m) t → wf (transaction_codec verify m') t' →
  wf (array_codec 32) chain → wf (array_codec 32) chain' →
  (∃ bs, pack (transaction_codec verify m) t = Ok bs ∧
     ∀ rest, unpack (transaction_codec verify m) (bs ++ rest) = Ok (t, rest)) ∧
  ∃ bs bs', sig_digest verify chain m t = Ok (sha256_hash bs) ∧
    sig_digest verify chain' m' t' = Ok (sha256_hash bs') ∧
    (bs = bs' → chain = chain' ∧ t = t').
Proof.
  intros Ht Ht' Hc Hc'. split; [by apply roundtrip|].
  destruct (roundtrip (c := transaction_codec verify m) t Ht) as (bs & Hp & _).
  destruct (roundtrip (c := transaction_codec verify m') t' Ht') as (bs' & Hp' & _).
  exists (le_bytes 32 chain ++ bs), (le_bytes 32 chain' ++ bs').
  unfold sig_digest. rewrite Hp, Hp'. split; [done|]. split; [done|].
  intros [Ec Eb]%app_inj_1; [|by rewrite !length_le_bytes]. split.
  - apply (pack_injective (array_codec 32) (array_codec 32) _ _ (le_bytes 32 chain)); [done..|].
    change (Ok (le_bytes 32 chain') = Ok (le_bytes 32 chain)). by rewrite Ec.
  - rewrite <- Eb in Hp'. exact (pack_injective _ _ t t' bs Ht Ht' Hp Hp').
Qed.
End digests.

Lemma transaction_serialisation_witness :
  ∃ bs, pack (@transaction_codec bswap64 sample_layout true pack_legacy) (trx sample_transaction) = Ok bs ∧
    unpack (@transaction_codec bswap64 sample_layout true pack_legacy) bs
    = Ok (trx sample_transaction, []).
Proof.
  assert (∀ m, wf (@transaction_codec bswap64 sample_layout true m) (trx sample_transaction)) as Hw.
  { intros m. cbn. unfold fits, u32_max, MAX_ARRAY_ALLOC_SIZE. cbn.
    split_and!; try lia; try done; repeat constructor; try (vm_compute; done). }
  destruct (@transaction_serialisation bswap64 bswap64_laws sample_layout sample_externals true
    pack_legacy pack_hf26 0 0 (trx sample_transaction) (trx sample_transaction)) as ((bs & Hp & Hu) & _);
    [apply Hw|apply Hw|done|done|].
  exists bs. split; [exact Hp|]. specialize (Hu []). rewrite app_nil_r in Hu. exact Hu.
Defined.
