(* ===== verification/Manabar.v ===== *)
(** * Mana bars

    [fc::signed_sat_add] and [fc::signed_sat_sub]
    (libraries/fc/include/fc/saturation.hpp) and the mana bar of voting power,
    downvoting power and resource credits
    (libraries/chain/include/hive/chain/util/manabar.hpp).

    The branch-free saturating operations are shown to clamp the exact result
    ([signed_sat_exact]); regeneration is shown to be linear up to the maximum, full
    after the regeneration time, and never to profit from being asked for more often
    ([regeneration_exact], [regeneration_split]). *)

From S2P Require Import Prelude Safe.
Open Scope Z_scope.

(** ** Saturating arithmetic

    The template parameter [Signed] is its width [w]; the corresponding unsigned
    type wraps with [wrapu w]. *)

Section saturation.
Context (w : Z).

Definition signed_max : Z := 2 ^ (w - 1) - 1.
Definition signed_min : Z := - 2 ^ (w - 1).

(** [sat], which is [0x7F...] if [x >= 0] and [0x80...] otherwise. *)
Definition saturated (x : Z) : Z :=
  if 0 <=? x then wrapu w signed_max else wrapu w signed_min.

Definition signed_sat_add (x y : Z) : Z :=
  let ux := wrapu w x in
  let uy := wrapu w y in
  let res := wrapu w (ux + uy) in
  let sat := saturated x in
  wraps w (if wraps w (Z.land (wrapu w (Z.lnot (Z.lxor ux uy))) (Z.lxor ux res)) <? 0
           then sat else res).

Definition signed_sat_sub (x y : Z) : Z :=
  let ux := wrapu w x in
  let uy := wrapu w y in
  let res := wrapu w (ux - uy) in
  let sat := saturated x in
  wraps w (if wraps w (Z.land (Z.lxor ux uy) (Z.lxor ux res)) <? 0 then sat else res).

End saturation.

(** ** The mana bar *)

Record manabar_params : Set := ManabarParams { max_mana : Z; regen_time : Z }.
Record manabar : Set := Manabar { current_mana : Z; last_update_time : Z }.

#[export] Instance manabar_eq_dec : EqDecision manabar.
Proof. solve_decision. Defined.

Definition manabar_params_validate (params : manabar_params) : result unit :=
  fc_assert (0 <=? max_mana params) "max_mana >= 0".

(** Nothing is written before the last check, so that a throw leaves the bar as it was. *)
Definition regenerate_mana (skip_cap_regen : bool) (params : manabar_params) (now : Z)
    (m : manabar) : result manabar :=
  manabar_params_validate params ;;
  fc_assert (last_update_time m <=? now) "now >= last_update_time" ;;
  let dt := u32 (now - last_update_time m) in
  if max_mana params <=? current_mana m then Ok (Manabar (max_mana params) now)
  else if dt =? 0 then Ok m
  else
    let dt := if skip_cap_regen then dt
              else if regen_time params <? dt then regen_time params else dt in
    let max_mana_dt := u64 (if 0 <=? max_mana params then max_mana params else 0) in
    let max_mana_dt := u128 (max_mana_dt * dt) in
    regen ← udiv max_mana_dt (regen_time params);
    u_regen ← uint128_to_uint64 regen;
    fc_assert (u_regen <=? i64_max) "u_regen <= std::numeric_limits< int64_t >::max()" ;;
    let new_current_mana := signed_sat_add 64 (current_mana m) (i64 u_regen) in
    Ok (Manabar (if max_mana params <? new_current_mana then max_mana params
                 else new_current_mana) now).

Definition has_mana (mana_needed : Z) (m : manabar) : bool :=
  (mana_needed <=? 0) || (mana_needed <=? current_mana m).

Definition has_mana_u64 (mana_needed : Z) (m : manabar) : result bool :=
  fc_assert (mana_needed <=? i64_max) "mana_needed <= std::numeric_limits< int64_t >::max()" ;;
  Ok (has_mana (i64 mana_needed) m).

(** The default of [min_mana] is [std::numeric_limits< uint64_t >::min()], zero. *)
Definition use_mana (mana_used min_mana : Z) (m : manabar) : manabar :=
  let current := signed_sat_sub 64 (current_mana m) mana_used in
  Manabar (if current <? min_mana then min_mana else current) (last_update_time m).

Definition use_mana_u64 (mana_used min_mana : Z) (m : manabar) : result manabar :=
  fc_assert (mana_used <=? i64_max) "mana_used <= std::numeric_limits< int64_t >::max()" ;;
  Ok (use_mana (i64 mana_used) min_mana m).

(** ** The saturating operations clamp *)

Definition clamp (w z : Z) : Z := Z.max (signed_min w) (Z.min (signed_max w) z).

Section saturation_spec.
Context (w : Z) (Hw : 0 < w).

Lemma pow2_double : 2 ^ w = 2 * 2 ^ (w - 1).
Proof. rewrite <- Z.pow_succ_r by lia. f_equal; lia. Qed.

(** A value is negative exactly when its sign bit is set. *)
Lemma sign_test z : (wraps w z <? 0) = Z.testbit z (w - 1).
Proof.
  rewrite Z.testbit_odd, Z.shiftr_div_pow2 by lia. unfold wraps.
  assert (0 < 2 ^ (w - 1)) as Hp by lia. set (p := 2 ^ (w - 1)) in *.
  rewrite pow2_double. fold p.
  pose proof (Z.div_mod (z + p) (2 * p)) as H1.
  pose proof (Z.mod_pos_bound (z + p) (2 * p)) as H2.
  set (q := (z + p) / (2 * p)) in *. set (r := (z + p) mod (2 * p)) in *.
  destruct (Z.ltb_spec (r - p) 0) as [Hr|Hr].
  - assert (z / p = 2 * q - 1) as ->; [|by rewrite Z.odd_sub, Z.odd_mul].
    symmetry. apply (Z.div_unique z p (2 * q - 1) r); lia.
  - assert (z / p = 2 * q) as ->; [|by rewrite Z.odd_mul].
    symmetry. apply (Z.div_unique z p (2 * q) (r - p)); lia.
Qed.

Lemma wraps_wrapu z : wraps w (wrapu w z) = wraps w z.
Proof. unfold wraps, wrapu. by rewrite Zplus_mod_idemp_l. Qed.

(** One step out of the range wraps to the other end. *)
Lemma wraps_step z : 2 * signed_min w ≤ z ≤ 2 * signed_max w + 1 →
  wraps w z = if z <? signed_min w then z + 2 ^ w
              else if signed_max w <? z then z - 2 ^ w else z.
Proof.
  intros Hz. unfold signed_min, signed_max in *. pose proof pow2_double as Hd.
  assert (∀ k, wraps w z = wraps w (z + k * 2 ^ w)) as Hk.
  { intros k. unfold wraps. f_equal.
    replace (z + k * 2 ^ w + 2 ^ (w - 1)) with (z + 2 ^ (w - 1) + k * 2 ^ w) by lia.
    by rewrite Z_mod_plus_full. }
  repeat case_match; bool_to_prop.
  - rewrite (Hk 1), wraps_id; lia.
  - rewrite (Hk (-1)), wraps_id; lia.
  - apply wraps_id; lia.
Qed.

Lemma sign_of_operand x : signed_min w ≤ x ≤ signed_max w →
  Z.testbit (wrapu w x) (w - 1) = (x <? 0).
Proof.
  intros Hx. rewrite <- sign_test, wraps_wrapu, wraps_id; [done..|].
  unfold signed_min, signed_max in *. lia.
Qed.

Lemma sign_of_result z : Z.testbit (wrapu w z) (w - 1) = (wraps w z <? 0).
Proof. by rewrite <- sign_test, wraps_wrapu. Qed.

Lemma saturated_value x :
  wraps w (saturated w x) = if 0 <=? x then signed_max w else signed_min w.
Proof.
  unfold saturated. case_match; rewrite wraps_wrapu, wraps_id; try done;
    unfold signed_min, signed_max; lia.
Qed.

(** The overflow test against the signs of the operands and of the result [z]. *)
Ltac sat_cases x y z :=
  destruct (_ && _) eqn:?; rewrite ?saturated_value, ?wraps_wrapu; unfold signed_min, signed_max;
  repeat case_match; bool_to_prop;
  destruct (Z.ltb_spec x 0), (Z.ltb_spec y 0), (Z.ltb_spec (wraps w z) 0);
  simpl in *; try lia; naive_solver lia.

Lemma signed_sat_add_clamps x y :
  signed_min w ≤ x ≤ signed_max w → signed_min w ≤ y ≤ signed_max w →
  signed_sat_add w x y = clamp w (x + y).
Proof.
  intros Hx Hy. unfold signed_sat_add. cbv zeta.
  assert (wrapu w (wrapu w x + wrapu w y) = wrapu w (x + y)) as ->.
  { unfold wrapu. by rewrite <- Zplus_mod. }
  assert (Z.testbit (wrapu w (Z.lnot (Z.lxor (wrapu w x) (wrapu w y)))) (w - 1)
          = negb (xorb (x <? 0) (y <? 0))) as Hn.
  { unfold wrapu at 1. rewrite Z.mod_pow2_bits_low by lia.
    rewrite Z.lnot_spec, Z.lxor_spec, !sign_of_operand by (done || lia). done. }
  rewrite sign_test, Z.land_spec, Hn, Z.lxor_spec, sign_of_operand, sign_of_result by done.
  pose proof (wraps_step (x + y) ltac:(lia)) as Hs. pose proof pow2_double.
  unfold clamp. unfold signed_min, signed_max in *.
  sat_cases x y (x + y).
Qed.

Lemma signed_sat_sub_clamps x y :
  signed_min w ≤ x ≤ signed_max w → signed_min w ≤ y ≤ signed_max w →
  signed_sat_sub w x y = clamp w (x - y).
Proof.
  intros Hx Hy. unfold signed_sat_sub. cbv zeta.
  assert (wrapu w (wrapu w x - wrapu w y) = wrapu w (x - y)) as ->.
  { unfold wrapu. by rewrite <- Zminus_mod. }
  rewrite sign_test, Z.land_spec, !Z.lxor_spec, !sign_of_operand, sign_of_result by done.
  pose proof (wraps_step (x - y)) as Hs. pose proof pow2_double.
  unfold clamp. unfold signed_min, signed_max in *. specialize (Hs ltac:(lia)).
  sat_cases x y (x - y).
Qed.

End saturation_spec.

Lemma clamp_64 z : clamp 64 z = Z.max i64_min (Z.min i64_max z).
Proof. done. Qed.

(** ** Regeneration *)

(** Values of the built-in types of the fields. *)
Record typed_bar (params : manabar_params) (m : manabar) : Prop := {
  max_mana_i64 : i64_min ≤ max_mana params ≤ i64_max;
  regen_time_u32 : 0 < regen_time params ≤ u32_max;
  current_mana_i64 : i64_min ≤ current_mana m ≤ i64_max;
  last_update_u32 : 0 ≤ last_update_time m ≤ u32_max
}.

(** Mana regenerated in [dt] seconds. *)
Definition regenerated (params : manabar_params) (dt : Z) : Z :=
  max_mana params * dt / regen_time params.

Section regeneration.
Context (params : manabar_params).

Lemma regenerated_nonneg dt : 0 ≤ max_mana params → 0 < regen_time params → 0 ≤ dt →
  0 ≤ regenerated params dt.
Proof. intros. apply Z.div_pos; nia. Qed.

Lemma regenerated_full : 0 < regen_time params →
  regenerated params (regen_time params) = max_mana params.
Proof. intros. unfold regenerated. by rewrite Z.div_mul by lia. Qed.

Lemma regenerated_mono a b : 0 ≤ max_mana params → 0 < regen_time params → a ≤ b →
  regenerated params a ≤ regenerated params b.
Proof. intros. apply Z.div_le_mono; nia. Qed.

(** Rounding loses at most one unit per split. *)
Lemma regenerated_split a b : 0 < regen_time params →
  regenerated params (a + b) - 1 ≤ regenerated params a + regenerated params b
    ≤ regenerated params (a + b).
Proof.
  intros HR. unfold regenerated. rewrite Z.mul_add_distr_l.
  pose proof (div_bracket (max_mana params * a) _ HR).
  pose proof (div_bracket (max_mana params * b) _ HR).
  pose proof (div_bracket (max_mana params * a + max_mana params * b) _ HR). nia.
Qed.

(** The branches past the asserts, whatever time is counted. *)
Lemma regenerate_mana_branches skip now m :
  typed_bar params m → 0 ≤ max_mana params → last_update_time m ≤ now ≤ u32_max →
  let dt := now - last_update_time m in
  let counted := if skip : bool then dt else Z.min dt (regen_time params) in
  if (current_mana m <? max_mana params) && (i64_max <? regenerated params counted)
  then ∃ e, regenerate_mana skip params now m = Throw e
  else regenerate_mana skip params now m
       = Ok (Manabar (Z.min (max_mana params) (current_mana m + regenerated params counted)) now).
Proof.
  intros [HM HR Hc Hl] HM0 Hnow dt counted.
  assert (0 ≤ counted ≤ u32_max) as Hcnt by (subst counted dt; destruct skip; lia).
  pose proof (regenerated_nonneg counted HM0 (proj1 HR) (proj1 Hcnt)) as Hg.
  unfold regenerate_mana, manabar_params_validate, fc_assert.
  rewrite (proj2 (Z.leb_le _ _) HM0), (proj2 (Z.leb_le _ _) (proj1 Hnow)).
  cbn [mbind result_bind]. rewrite u32_id by lia. fold dt.
  destruct (Z.leb_spec (max_mana params) (current_mana m)) as [Hfull|Hless].
  { rewrite (proj2 (Z.ltb_ge _ _) Hfull). simpl. do 2 f_equal; lia. }
  rewrite (proj2 (Z.ltb_lt _ _) Hless). cbn [andb].
  destruct (Z.eqb_spec dt 0) as [H0|H0].
  { assert (regenerated params counted = 0) as ->.
    { assert (counted = 0) as -> by (subst counted; destruct skip; lia).
      unfold regenerated. by rewrite Z.mul_0_r. }
    simpl. destruct m as [c l]; simpl in *. repeat f_equal; lia. }
  assert ((if skip then dt else if regen_time params <? dt then regen_time params else dt)
          = counted) as ->.
  { subst counted. destruct skip; [done|]. case_match; bool_to_prop; lia. }
  unfold u64_max, u128_max, u32_max, i64_max, i64_min in *.
  rewrite u64_id, u128_id by (unfold u64_max, u128_max; nia).
  unfold udiv. rewrite (proj2 (Z.eqb_neq _ _)) by lia.
  fold (regenerated params counted). set (g := regenerated params counted) in *.
  unfold uint128_to_uint64, fc_assert, u64_max. cbn [mbind result_bind].
  destruct (Z.ltb_spec 9223372036854775807 g) as [Hbig|Hsmall].
  { destruct (g <=? _) eqn:E; [|eauto]. cbn [mbind result_bind].
    bool_to_prop. rewrite u64_id by (unfold u64_max; lia).
    rewrite (proj2 (Z.leb_gt _ _)) by lia. eauto. }
  rewrite (proj2 (Z.leb_le g _)) by lia. cbn [mbind result_bind].
  rewrite u64_id by (unfold u64_max; lia). rewrite (proj2 (Z.leb_le g _)) by lia.
  cbn [mbind result_bind]. rewrite i64_id by (unfold i64_min, i64_max; lia).
  rewrite signed_sat_add_clamps by (lia || (unfold signed_min, signed_max; simpl; lia)).
  rewrite clamp_64. unfold i64_min, i64_max. do 2 f_equal. case_match; bool_to_prop; lia.
Qed.

End regeneration.

(** ** Spending *)

Lemma use_mana_exact n m :
  i64_min ≤ current_mana m ≤ i64_max → 0 ≤ n ≤ i64_max → has_mana n m = true →
  0 ≤ current_mana m →
  use_mana n 0 m = Manabar (current_mana m - n) (last_update_time m).
Proof.
  intros Hc Hn Hm H0. unfold has_mana, use_mana in *. bool_to_prop.
  unfold i64_min, i64_max in *.
  rewrite signed_sat_sub_clamps by (lia || (unfold signed_min, signed_max; simpl; lia)).
  rewrite clamp_64. unfold i64_min, i64_max.
  f_equal. case_match; bool_to_prop; lia.
Qed.

(** Giving mana is using a negative amount. *)
Lemma give_mana_exact n m :
  0 ≤ current_mana m ≤ i64_max → 0 ≤ n ≤ i64_max →
  use_mana (- n) 0 m = Manabar (Z.min i64_max (current_mana m + n)) (last_update_time m).
Proof.
  intros Hc Hn. unfold use_mana. unfold i64_max in *.
  rewrite signed_sat_sub_clamps by (lia || (unfold signed_min, signed_max; simpl; lia)).
  rewrite clamp_64. unfold i64_min, i64_max.
  f_equal. case_match; bool_to_prop; lia.
Qed.

(** The way in which the evaluators use a bar, composed here of the operations above:
    bring the bar up to date, refuse without enough mana, take it off. *)
Definition spend (skip_cap_regen : bool) (params : manabar_params) (m : manabar)
    (event : Z * Z) : result manabar :=
  m ← regenerate_mana skip_cap_regen params event.1 m;
  fc_assert (has_mana event.2 m) "not enough mana" ;;
  Ok (use_mana event.2 0 m).

Section spending.
Context (skip : bool) (params : manabar_params).

Lemma regenerate_mana_bounds now m m' :
  typed_bar params m → 0 ≤ max_mana params → now ≤ u32_max →
  0 ≤ current_mana m ≤ max_mana params →
  regenerate_mana skip params now m = Ok m' →
  typed_bar params m' ∧ 0 ≤ current_mana m' ≤ max_mana params ∧
  last_update_time m ≤ now ∧ last_update_time m' = now ∧
  current_mana m' ≤ current_mana m + regenerated params (now - last_update_time m).
Proof.
  intros Hty HM Hnow Hc H.
  assert (last_update_time m ≤ now) as Hl.
  { unfold regenerate_mana in H. ok_inv H. by bool_to_prop. }
  pose proof (regenerate_mana_branches params skip now m Hty HM (conj Hl Hnow)) as Hb.
  cbv zeta in Hb. destruct (_ && _).
  { destruct Hb as [e Hb]. congruence. }
  rewrite H in Hb. injection Hb as ->. simpl. destruct Hty as [HMt HR Hct Hlt].
  set (k := if skip then _ else _).
  assert (0 ≤ k ≤ now - last_update_time m) as Hk by (subst k; destruct skip; lia).
  pose proof (regenerated_nonneg params k HM (proj1 HR) (proj1 Hk)).
  pose proof (regenerated_mono params k _ HM (proj1 HR) (proj2 Hk)).
  split_and!; try lia. split; simpl; lia.
Qed.

Lemma spend_bounds m ev m' :
  typed_bar params m → 0 ≤ max_mana params → ev.1 ≤ u32_max → 0 ≤ ev.2 ≤ i64_max →
  0 ≤ current_mana m ≤ max_mana params →
  spend skip params m ev = Ok m' →
  typed_bar params m' ∧ 0 ≤ current_mana m' ≤ max_mana params ∧
  last_update_time m ≤ last_update_time m' ∧
  ev.2 + current_mana m'
    ≤ current_mana m + regenerated params (last_update_time m' - last_update_time m).
Proof.
  intros Hty HM Ht Hn Hc H. unfold spend in H. ok_inv H.
  destruct (regenerate_mana_bounds ev.1 m a) as (Hty' & Hc' & Hl & El & Hr); try done.
  destruct (Hty'). rewrite use_mana_exact by (done || lia).
  unfold has_mana in Hassert. bool_to_prop. rewrite El in *. unfold i64_min in *.
  split_and!; simpl; try lia. split; simpl; unfold i64_min; lia.
Qed.

End spending.

Section capped.
Context (params : manabar_params).

Lemma regenerate_capped m now :
  typed_bar params m → 0 ≤ max_mana params → now ≤ u32_max → last_update_time m ≤ now →
  regenerate_mana false params now m
  = Ok (Manabar (Z.min (max_mana params)
          (current_mana m
           + regenerated params (Z.min (now - last_update_time m) (regen_time params)))) now).
Proof.
  intros Hty HM Hnow Hl. pose proof Hty as [HMt HR Hc Hlt].
  pose proof (regenerate_mana_branches params false now m Hty HM (conj Hl Hnow)) as Hb.
  cbv zeta in Hb. set (k := Z.min _ _) in *.
  assert (regenerated params k ≤ max_mana params).
  { rewrite <- (regenerated_full params) by lia. apply regenerated_mono; lia. }
  rewrite (proj2 (Z.ltb_ge i64_max _)) in Hb by lia. by rewrite andb_false_r in Hb.
Qed.

Lemma regenerate_uncapped m now :
  typed_bar params m → 0 ≤ max_mana params → now ≤ u32_max → last_update_time m ≤ now →
  0 ≤ current_mana m →
  if (current_mana m <? max_mana params) && (i64_max <? regenerated params (now - last_update_time m))
  then is_ok (regenerate_mana true params now m) = false
  else regenerate_mana true params now m = regenerate_mana false params now m.
Proof.
  intros Hty HM Hnow Hl Hc. pose proof Hty as [HMt HR _ Hlt].
  pose proof (regenerate_mana_branches params true now m Hty HM (conj Hl Hnow)) as Hb.
  cbv zeta iota in Hb. destruct (_ && _) eqn:E.
  { by destruct Hb as [e ->]. }
  rewrite Hb, regenerate_capped by done. do 2 f_equal.
  destruct (Z.min_spec (now - last_update_time m) (regen_time params)) as [[? ->]|[Hd ->]]; [done|].
  pose proof (regenerated_mono params _ _ HM (proj1 HR) Hd) as Hm.
  rewrite (regenerated_full params) in * by lia. lia.
Qed.

(** Bringing the bar up to date on the way. *)
Lemma capped_split c a b : 0 ≤ max_mana params → 0 < regen_time params →
  0 ≤ c → 0 ≤ a → 0 ≤ b →
  let M := max_mana params in
  let at_ c dt := Z.min M (c + regenerated params (Z.min dt (regen_time params))) in
  at_ c (a + b) - 1 ≤ at_ (at_ c a) b ≤ at_ c (a + b).
Proof.
  intros HM HR Hc Ha Hb M at_. unfold at_. set (R := regen_time params) in *.
  pose proof (regenerated_full params HR) as Hfull. fold M R in Hfull.
  pose proof (λ x, regenerated_nonneg params x HM HR) as Hnn.
  destruct (Z.le_gt_cases R (a + b)) as [Hlong|Hshort].
  - rewrite (Z.min_r (a + b)), Hfull by done.
    pose proof (Hnn (Z.min a R) ltac:(lia)). pose proof (Hnn (Z.min b R) ltac:(lia)).
    pose proof (regenerated_split params (Z.min a R) (Z.min b R) HR) as [Hs _].
    pose proof (regenerated_mono params R (Z.min a R + Z.min b R) HM HR ltac:(lia)). lia.
  - rewrite (Z.min_l (a + b)), (Z.min_l a), (Z.min_l b) by lia.
    pose proof (regenerated_split params a b HR).
    pose proof (Hnn a Ha). pose proof (Hnn b Hb). lia.
Qed.

End capped.

(** C33. Regeneration is exact.  For a bar and parameters of the declared types and a
    positive regeneration time: a negative maximum or a time in the past is refused;
    otherwise the capped variant always succeeds with
    [min( max, current + floor( max * min( dt, regen_time ) / regen_time ) )], and a
    bar that is not negative is full after the regeneration time.  The uncapped
    variant counts the whole of [dt]: on a non-negative bar it throws exactly when the
    bar is not full and [floor( max * dt / regen_time )] leaves 63 bits, and otherwise
    agrees with the capped one.  Stopping on the way loses at most one unit and never
    gains. *)
Theorem regeneration_exact (params : manabar_params) (m : manabar) (now : Z) :
  typed_bar params m → now ≤ u32_max →
  let M := max_mana params in
  let R := regen_time params in
  let dt := now - last_update_time m in
  (M < 0 ∨ dt < 0 → ∀ skip, is_ok (regenerate_mana skip params now m) = false) ∧
  (0 ≤ M → 0 ≤ dt →
    regenerate_mana false params now m
      = Ok (Manabar (Z.min M (current_mana m + M * Z.min dt R / R)) now) ∧
    (0 ≤ current_mana m → R ≤ dt →
      regenerate_mana false params now m = Ok (Manabar M now)) ∧
    (0 ≤ current_mana m →
      if (current_mana m <? M) && (i64_max <? M * dt / R)
      then is_ok (regenerate_mana true params now m) = false
      else regenerate_mana true params now m = regenerate_mana false params now m) ∧
    (0 ≤ current_mana m → ∀ t m1 m2, last_update_time m ≤ t ≤ now →
      regenerate_mana false params t m = Ok m1 →
      regenerate_mana false params now m1 = Ok m2 →
      Z.min M (current_mana m + M * Z.min dt R / R) - 1 ≤ current_mana m2
        ≤ Z.min M (current_mana m + M * Z.min dt R / R))).
Proof.
  intros Hty Hnow M R dt. split.
  { intros Hbad skip. unfold regenerate_mana, manabar_params_validate, fc_assert.
    fold M. destruct (Z.leb_spec 0 M); [|done]. cbn [mbind result_bind].
    by rewrite (proj2 (Z.leb_gt (last_update_time m) now)) by (subst dt; lia). }
  intros HM Hdt. pose proof (max_mana_i64 _ _ Hty) as HMt. pose proof (regen_time_u32 _ _ Hty) as HR.
  pose proof (regenerate_capped params m now Hty HM Hnow ltac:(lia)) as Hcap.
  fold M R dt in Hcap. rewrite Hcap. split_and!; [done|..].
  - intros Hc Hfull. rewrite (Z.min_r dt) by done. unfold R.
    rewrite (regenerated_full params) by lia. fold M. do 2 f_equal. lia.
  - intros Hc. rewrite <- Hcap. apply regenerate_uncapped; done || lia.
  - intros Hc t m1 m2 Ht H1 H2.
    rewrite (regenerate_capped params m t) in H1 by (done || lia). injection H1 as <-.
    subst M R dt. pose proof (regenerated_nonneg params
      (Z.min (t - last_update_time m) (regen_time params)) HM ltac:(lia) ltac:(lia)) as Hg.
    destruct Hty. rewrite (regenerate_capped params) in H2
      by (done || (simpl; lia) || (split; simpl; unfold i64_min in *; lia)).
    injection H2 as <-. simpl.
    replace (now - last_update_time m) with (t - last_update_time m + (now - t)) by lia.
    apply (capped_split params (current_mana m)); lia.
Qed.

(** A bar of 1000 units, 300 of them left, regenerating in 5 days: a day later it has
    gained a fifth. *)
Definition sample_params : manabar_params := ManabarParams 1000 432000.
Definition sample_bar : manabar := Manabar 300 1600000000.

Lemma regeneration_exact_witness :
  regenerate_mana false sample_params 1600086400 sample_bar = Ok (Manabar 500 1600086400).
Proof.
  destruct (regeneration_exact sample_params sample_bar 1600086400) as [_ H].
  - split; vm_compute; split; congruence.
  - vm_compute. congruence.
  - destruct H as [H _]; [vm_compute; congruence..|]. exact H.
Defined.

(** C34. Mana limits the rate of spending.  Let a bar be brought up to date, checked
    and charged by any sequence of events, capped or not.  The bar stays between zero
    and its maximum, and all that was spent plus what is left is at most what was there
    at the start plus what the elapsed time regenerates. *)
Theorem mana_rate_limit (skip : bool) (params : manabar_params) (events : list (Z * Z))
    (m m' : manabar) :
  typed_bar params m → 0 ≤ max_mana params → 0 ≤ current_mana m ≤ max_mana params →
  Forall (λ ev, ev.1 ≤ u32_max ∧ 0 ≤ ev.2 ≤ i64_max) events →
  foldM (spend skip params) m events = Ok m' →
  0 ≤ current_mana m' ≤ max_mana params ∧
  last_update_time m ≤ last_update_time m' ∧
  sumZ events.*2 + current_mana m'
    ≤ current_mana m
      + max_mana params * (last_update_time m' - last_update_time m) / regen_time params.
Proof.
  intros Hty HM Hc Hev. revert m Hty Hc.
  induction Hev as [|ev events [Ht Hn] Hev IH]; intros m Hty Hc H.
  { injection H as ->. split_and!; try lia. simpl.
    rewrite Z.sub_diag, Z.mul_0_r, Zdiv_0_l. lia. }
  simpl in H. ok_inv H.
  destruct (spend_bounds skip params m ev a) as (Hty' & Hc' & Hl & Hs); try done.
  destruct (IH a) as (Hc2 & Hl2 & Hs2); try done. split_and!; try lia.
  pose proof (regenerated_split params (last_update_time a - last_update_time m)
    (last_update_time m' - last_update_time a) (proj1 (regen_time_u32 _ _ Hty))) as [_ Hsum].
  replace (_ + (_ - last_update_time a))
    with (last_update_time m' - last_update_time m) in Hsum by lia.
  unfold regenerated in *. rewrite fmap_cons, sumZ_cons. lia.
Qed.

Lemma mana_rate_limit_witness :
  ∃ m', foldM (spend false sample_params) sample_bar [(1600086400, 450); (1600172800, 200)] = Ok m' ∧
  450 + (200 + 0) + current_mana m' ≤ 300 + 1000 * (last_update_time m' - 1600000000) / 432000.
Proof.
  eexists. split; [vm_compute; reflexivity|].
  eapply (mana_rate_limit false sample_params [(1600086400, 450); (1600172800, 200)] sample_bar).
  - split; vm_compute; split; congruence.
  - vm_compute. congruence.
  - vm_compute. split; congruence.
  - repeat constructor; vm_compute; congruence.
  - vm_compute. reflexivity.
Defined.
