(* ===== verification/DelayedVotes.v ===== *)
(** * Delayed votes of an account

    [delayed_voting_processor]
    (libraries/chain/include/hive/chain/util/delayed_voting_processor.hpp): the
    collection of VESTS that do not vote yet, one entry per day, with its sum.  A
    method takes the collection and the sum by reference; here it returns both.

    The collection is shown to stay well formed (the sum is the sum of the entries, no
    entry is empty, entries are a day apart), [erase] to take off exactly the newest
    votes and never to read the back of an empty vector, and the collection to hold at
    most 30 entries once the matured ones are removed. *)

From S2P Require Import Prelude Safe.
Open Scope Z_scope.

Definition HIVE_DELAYED_VOTING_TOTAL_INTERVAL_SECONDS : Z := 60 * 60 * 24 * 30.
Definition HIVE_DELAYED_VOTING_INTERVAL_SECONDS : Z := 60 * 60 * 24 * 1.

Record delayed_votes_data : Set := DelayedVotesData { dv_time : Z; dv_val : Z }.

#[export] Instance delayed_votes_data_eq_dec : EqDecision delayed_votes_data.
Proof. solve_decision. Defined.

(** [time_point_sec::operator +( uint32_t )]. *)
Definition time_add (t offset : Z) : Z := u32 (t + offset).

Module delayed_voting_processor.

Definition incorrect_head_time : string :=
  "head time must be greater or equal to last delayed voting time".
Definition incorrect_sum_greater_equal : string :=
  "unexpected error: sum of delayed votings must be greater or equal to zero".
Definition incorrect_sum_equal : string :=
  "unexpected error: sum of delayed votings must be equal to zero".
Definition incorrect_erased_votes : string :=
  "unexpected error: number votes to be erased must be greater or equal to sum of delayed votings".

Definition add (items : list delayed_votes_data) (sum head_time val : Z)
    : result (list delayed_votes_data * Z) :=
  if val =? 0 then Ok (items, sum)
  else match last items with
  | None => sum ← ushare_add sum val; Ok (items ++ [DelayedVotesData head_time val], sum)
  | Some back_obj =>
      fc_assert (dv_time back_obj <=? head_time) incorrect_head_time ;;
      sum ← ushare_add sum val;
      if time_add (dv_time back_obj) HIVE_DELAYED_VOTING_INTERVAL_SECONDS <=? head_time then
        Ok (items ++ [DelayedVotesData head_time val], sum)
      else
        v ← ushare_add (dv_val back_obj) val;
        Ok (removelast items ++ [DelayedVotesData (dv_time back_obj) v], sum)
  end.

Definition erase_front (items : list delayed_votes_data) (sum : Z)
    : result (list delayed_votes_data * Z) :=
  match items with
  | begin :: items' =>
      fc_assert (dv_val begin <=? sum) incorrect_sum_greater_equal ;;
      sum ← ushare_sub sum (dv_val begin);
      Ok (items', sum)
  | [] => fc_assert (sum =? 0) incorrect_sum_equal ;; Ok (items, sum)
  end.

(** [while( true )] of [erase], on the collection from its back; [items.back()] of an
    empty vector is undefined. *)
Fixpoint erase_back (rev_items : list delayed_votes_data) (count : Z)
    : result (list delayed_votes_data) :=
  match rev_items with
  | [] => Throw undefined_behaviour
  | obj :: rest =>
      if dv_val obj <=? count then
        count ← ushare_sub count (dv_val obj);
        erase_back rest count
      else
        v ← ushare_sub (dv_val obj) count;
        Ok (DelayedVotesData (dv_time obj) v :: rest)
  end.

Definition erase (items : list delayed_votes_data) (sum count : Z)
    : result (list delayed_votes_data * Z) :=
  if count =? 0 then Ok (items, sum)
  else
    fc_assert (count <=? sum) incorrect_erased_votes ;;
    if sum =? count then Ok ([], 0)
    else
      sum ← ushare_sub sum count;
      items ← (reverse <$> erase_back (reverse items) count);
      Ok (items, sum).

End delayed_voting_processor.
Import delayed_voting_processor.

(** ** The invariant of the collection *)

Definition a_day_apart (x y : delayed_votes_data) : Prop :=
  dv_time x + HIVE_DELAYED_VOTING_INTERVAL_SECONDS ≤ dv_time y.

Record votes_wf (items : list delayed_votes_data) (sum : Z) : Prop := {
  wf_sum : sum = sumZ (dv_val <$> items);
  wf_u64 : sum ≤ u64_max;
  wf_vals : Forall (λ d, 0 < dv_val d) items;
  wf_sorted : StronglySorted a_day_apart items
}.

Lemma vals_nonneg items : Forall (λ d, 0 < dv_val d) items → 0 ≤ sumZ (dv_val <$> items).
Proof. intros H. apply sumZ_nonneg, Forall_fmap. eapply Forall_impl; [done|]. simpl. lia. Qed.

Lemma vals_snoc items d : sumZ (dv_val <$> items ++ [d]) = sumZ (dv_val <$> items) + dv_val d.
Proof. rewrite fmap_app, sumZ_app. unfold sumZ at 2. simpl. lia. Qed.

Lemma ushare_add_exact a b : 0 ≤ a ≤ u64_max → 0 ≤ b ≤ u64_max →
  ushare_add a b = if a + b <=? u64_max then Ok (a + b) else Throw overflow_exception.
Proof.
  intros Ha Hb. unfold ushare_add, safe_add. simpl.
  repeat case_match; bool_to_prop; done || lia.
Qed.

Lemma ushare_sub_exact a b : 0 ≤ a ≤ u64_max → 0 ≤ b ≤ u64_max →
  ushare_sub a b = if b <=? a then Ok (a - b) else Throw underflow_exception.
Proof.
  intros Ha Hb. unfold ushare_sub, safe_sub. simpl.
  repeat case_match; bool_to_prop; done || lia.
Qed.

(** ** [erase] keeps the oldest votes *)

(** The entries that hold the oldest [n] votes. *)
Fixpoint oldest (n : Z) (items : list delayed_votes_data) : list delayed_votes_data :=
  match items with
  | [] => []
  | d :: l =>
      if n <=? 0 then []
      else if dv_val d <=? n then d :: oldest (n - dv_val d) l
      else [DelayedVotesData (dv_time d) n]
  end.

Lemma oldest_le n items : n ≤ 0 → oldest n items = [].
Proof. intros Hn. destruct items; simpl; [done|]. by rewrite (proj2 (Z.leb_le _ _) Hn). Qed.

Lemma oldest_app_l n l1 l2 :
  n ≤ sumZ (dv_val <$> l1) → oldest n (l1 ++ l2) = oldest n l1.
Proof.
  revert n; induction l1 as [|d l1 IH]; intros n Hn.
  { by apply oldest_le. }
  rewrite fmap_cons, sumZ_cons in Hn. simpl. repeat case_match; try done.
  f_equal. apply IH. lia.
Qed.

Lemma oldest_app_r n l1 l2 : Forall (λ d, 0 < dv_val d) l1 → 0 < n →
  oldest (sumZ (dv_val <$> l1) + n) (l1 ++ l2) = l1 ++ oldest n l2.
Proof.
  intros H Hn. induction H as [|d l1 Hd Hl IH]; [done|].
  pose proof (vals_nonneg _ Hl). rewrite fmap_cons, sumZ_cons. simpl.
  repeat case_match; bool_to_prop; try lia. f_equal. rewrite <- IH. f_equal. lia.
Qed.

Lemma oldest_all items : Forall (λ d, 0 < dv_val d) items →
  oldest (sumZ (dv_val <$> items)) items = items.
Proof.
  intros H. induction H as [|d l Hd Hl IH]; [done|].
  pose proof (vals_nonneg _ Hl). rewrite fmap_cons, sumZ_cons. simpl.
  repeat case_match; bool_to_prop; try lia. f_equal.
  by replace (_ - _) with (sumZ (dv_val <$> l)) by lia.
Qed.

Lemma oldest_sum n items : Forall (λ d, 0 < dv_val d) items →
  0 ≤ n ≤ sumZ (dv_val <$> items) → sumZ (dv_val <$> oldest n items) = n.
Proof.
  intros H. revert n; induction H as [|d l Hd Hl IH]; intros n Hn; [simpl in *; lia|].
  rewrite fmap_cons, sumZ_cons in Hn. simpl. repeat case_match; bool_to_prop.
  - simpl. lia.
  - rewrite fmap_cons, sumZ_cons, IH; lia.
  - simpl. lia.
Qed.

Lemma oldest_vals n items :
  Forall (λ d, 0 < dv_val d) items → Forall (λ d, 0 < dv_val d) (oldest n items).
Proof.
  intros H. revert n; induction H as [|d l Hd Hl IH]; intros n; simpl; [done|].
  repeat case_match; bool_to_prop; repeat constructor; simpl; auto with lia.
Qed.

(** The times of what is kept are those of a prefix. *)
Lemma oldest_times n items : dv_time <$> oldest n items `prefix_of` dv_time <$> items.
Proof.
  revert n; induction items as [|d l IH]; intros n; simpl; [done|].
  repeat case_match; simpl; [apply prefix_nil| |].
  - by apply prefix_cons.
  - apply prefix_cons, prefix_nil.
Qed.

Definition times_apart : list Z → Prop :=
  StronglySorted (λ s t, s + HIVE_DELAYED_VOTING_INTERVAL_SECONDS ≤ t).

Lemma sorted_times items : StronglySorted a_day_apart items ↔ times_apart (dv_time <$> items).
Proof.
  unfold times_apart. induction items as [|d l IH]; [by split; constructor|].
  rewrite fmap_cons. split; intros [H1 H2]%StronglySorted_inv; constructor;
    [by apply IH|apply Forall_fmap; exact H2|by apply IH|exact (proj1 (Forall_fmap _ _ _) H2)].
Qed.

Lemma StronglySorted_prefix {A} (R : A → A → Prop) l1 l2 :
  l1 `prefix_of` l2 → StronglySorted R l2 → StronglySorted R l1.
Proof. intros [k ->] H. by apply StronglySorted_app_1_l in H. Qed.

Lemma oldest_wf n items sum : votes_wf items sum → 0 ≤ n ≤ sum → votes_wf (oldest n items) n.
Proof.
  intros [-> Hu Hv Hs] Hn. split.
  - by rewrite oldest_sum.
  - lia.
  - by apply oldest_vals.
  - apply sorted_times. eapply StronglySorted_prefix; [apply oldest_times|].
    by apply sorted_times.
Qed.

Lemma erase_back_oldest items count : Forall (λ d, 0 < dv_val d) items →
  0 ≤ count < sumZ (dv_val <$> items) → sumZ (dv_val <$> items) ≤ u64_max →
  erase_back (reverse items) count
  = Ok (reverse (oldest (sumZ (dv_val <$> items) - count) items)).
Proof.
  revert count. induction items as [|d l IH] using rev_ind; intros count H Hc Hu.
  { simpl in *. lia. }
  apply Forall_app in H as [Hl Hd]. rewrite Forall_singleton in Hd.
  pose proof (vals_nonneg l Hl) as Hnn.
  rewrite vals_snoc in *. rewrite reverse_snoc. simpl.
  destruct (Z.leb_spec (dv_val d) count) as [Hle|Hgt].
  - rewrite ushare_sub_exact, (proj2 (Z.leb_le _ _) Hle) by lia. cbn [mbind result_bind]. rewrite IH by (done || lia).
    do 2 f_equal. rewrite oldest_app_l by lia. f_equal. lia.
  - rewrite ushare_sub_exact, (proj2 (Z.leb_le _ _)) by lia. cbn [mbind result_bind]. f_equal.
    replace (_ + _ - count) with (sumZ (dv_val <$> l) + (dv_val d - count)) by lia.
    rewrite oldest_app_r by (done || lia). rewrite reverse_app. simpl.
    repeat case_match; bool_to_prop; try lia; [|done].
    assert (count = 0) as -> by lia. rewrite Z.sub_0_r. by destruct d.
Qed.

Lemma erase_oldest items sum count : votes_wf items sum → 0 ≤ count ≤ sum →
  erase items sum count = Ok (oldest (sum - count) items, sum - count).
Proof.
  intros [-> Hu Hv Hs] Hc. set (sum := sumZ _) in *. unfold erase, fc_assert.
  destruct (Z.eqb_spec count 0) as [->|H0].
  { rewrite Z.sub_0_r. do 2 f_equal. symmetry. by apply oldest_all. }
  rewrite (proj2 (Z.leb_le _ _)) by lia. cbn [mbind result_bind].
  destruct (Z.eqb_spec sum count) as [Heq|Hne].
  { rewrite Heq, Z.sub_diag. by rewrite oldest_le. }
  rewrite ushare_sub_exact, (proj2 (Z.leb_le _ _)) by lia.
  cbn [mbind result_bind]. fold sum. rewrite erase_back_oldest by (done || lia).
  cbn [fmap result_fmap mbind result_bind]. by rewrite reverse_involutive.
Qed.

(** ** [add] and [erase_front] *)

(** The collection after [val] votes arrive at [head_time]. *)
Definition added (items : list delayed_votes_data) (head_time val : Z) : list delayed_votes_data :=
  match last items with
  | Some d =>
      if head_time <? dv_time d + HIVE_DELAYED_VOTING_INTERVAL_SECONDS
      then removelast items ++ [DelayedVotesData (dv_time d) (dv_val d + val)]
      else items ++ [DelayedVotesData head_time val]
  | None => [DelayedVotesData head_time val]
  end.

(** No entry is of the future, and the clock is a day from its end. *)
Definition no_later (head_time : Z) (items : list delayed_votes_data) : Prop :=
  head_time + HIVE_DELAYED_VOTING_INTERVAL_SECONDS ≤ u32_max ∧
  Forall (λ d, 0 ≤ dv_time d ≤ head_time) items.

Lemma removelast_snoc {A} (l : list A) x : removelast (l ++ [x]) = l.
Proof. by rewrite removelast_app, app_nil_r. Qed.

Lemma added_wf items sum head_time val :
  votes_wf items sum → no_later head_time items → 0 < val → sum + val ≤ u64_max →
  votes_wf (added items head_time val) (sum + val).
Proof.
  intros [-> Hu Hv Hs] [Hclock Ht] Hval Hfit. unfold added.
  destruct items as [|d l _] using rev_ind.
  { split; [unfold sumZ; simpl; lia|done| |]; repeat constructor; simpl; lia. }
  rewrite last_snoc. apply Forall_app in Hv as [Hvl Hvd]. rewrite Forall_singleton in Hvd.
  apply sorted_times in Hs. rewrite fmap_app in Hs. simpl in Hs.
  destruct (Z.ltb_spec head_time (dv_time d + HIVE_DELAYED_VOTING_INTERVAL_SECONDS)) as [Hin|Hout].
  - rewrite removelast_snoc. split; [|done| |].
    + rewrite !vals_snoc. simpl. lia.
    + apply Forall_app. split; [done|]. repeat constructor; simpl; lia.
    + apply sorted_times. by rewrite fmap_app.
  - split; [|done| |].
    + rewrite !vals_snoc. simpl. lia.
    + repeat (apply Forall_app; split); try done; repeat constructor; simpl; lia.
    + apply sorted_times. rewrite !fmap_app. simpl. apply StronglySorted_app. split_and!;
        [|done|by repeat constructor].
      intros t1 t2 H1 ->%list_elem_of_singleton. apply elem_of_app in H1 as [H1|H1].
      * apply StronglySorted_app in Hs as (Hs & _ & _). specialize (Hs t1 (dv_time d) H1 ltac:(set_solver)).
        unfold HIVE_DELAYED_VOTING_INTERVAL_SECONDS in *. simpl in *. lia.
      * apply list_elem_of_singleton in H1 as ->. done.
Qed.

Lemma add_exact items sum head_time val :
  votes_wf items sum → no_later head_time items → 0 < val ≤ u64_max →
  if sum + val <=? u64_max
  then add items sum head_time val = Ok (added items head_time val, sum + val)
  else is_ok (add items sum head_time val) = false.
Proof.
  intros [-> Hu Hv Hs] [Hclock Ht] Hval. pose proof (vals_nonneg items Hv) as Hnn.
  set (sum := sumZ _) in *. unfold add, added. rewrite (proj2 (Z.eqb_neq _ _)) by lia.
  destruct items as [|d l _] using rev_ind.
  { rewrite ushare_add_exact by lia. simpl. by case_match. }
  rewrite last_snoc. apply Forall_app in Ht as [_ Ht]. rewrite Forall_singleton in Ht.
  apply Forall_app in Hv as [Hvl Hvd]. rewrite Forall_singleton in Hvd.
  assert (dv_val d ≤ sum).
  { subst sum. rewrite vals_snoc. pose proof (vals_nonneg l Hvl). lia. }
  unfold HIVE_DELAYED_VOTING_INTERVAL_SECONDS, time_add, fc_assert in *. rewrite u32_id by lia.
  rewrite (proj2 (Z.leb_le (dv_time d) head_time)) by lia. cbn [mbind result_bind].
  rewrite !ushare_add_exact by lia. destruct (Z.leb_spec (sum + val) u64_max); [|reflexivity].
  cbn [mbind result_bind]. rewrite Z.leb_antisym. destruct (_ <? _); simpl; [|done].
  by rewrite (proj2 (Z.leb_le _ _)) by lia.
Qed.

Lemma erase_front_exact d items sum : votes_wf (d :: items) sum →
  erase_front (d :: items) sum = Ok (items, sum - dv_val d) ∧ votes_wf items (sum - dv_val d).
Proof.
  intros [-> Hu Hv Hs]. apply Forall_cons in Hv as [Hd Hv]. pose proof (vals_nonneg _ Hv) as Hnn.
  rewrite fmap_cons, sumZ_cons in *. split.
  - unfold erase_front, fc_assert. rewrite (proj2 (Z.leb_le _ _)) by lia. cbn [mbind result_bind].
    by rewrite ushare_sub_exact, (proj2 (Z.leb_le _ _)) by lia.
  - apply StronglySorted_inv in Hs as [Hs _]. split; [lia..|done|done].
Qed.

(** ** The size of the collection *)

Lemma times_span d l :
  StronglySorted a_day_apart (d :: l) →
  dv_time d + HIVE_DELAYED_VOTING_INTERVAL_SECONDS * Z.of_nat (length l)
    ≤ dv_time (default d (last l)).
Proof.
  revert d; induction l as [|e l IH]; intros d Hs; [simpl; lia|].
  apply StronglySorted_inv in Hs as [Hs Hd]. specialize (IH e Hs).
  apply Forall_cons in Hd as [Hde _]. unfold a_day_apart in Hde.
  rewrite last_cons. destruct (last l); simpl in *; lia.
Qed.

Lemma at_most_30 items now :
  StronglySorted a_day_apart items →
  Forall (λ d, now < dv_time d + HIVE_DELAYED_VOTING_TOTAL_INTERVAL_SECONDS ∧ dv_time d ≤ now)
    items →
  (length items ≤ 30)%nat.
Proof.
  intros Hs Ht. destruct items as [|d l]; [simpl; lia|]. pose proof (times_span d l Hs) as Hspan.
  apply Forall_cons in Ht as [[Hd Hdn] Ht].
  assert (dv_time (default d (last l)) ≤ now) as Hlast.
  { destruct (last l) as [e|] eqn:E; simpl; [|done].
    apply last_Some_elem_of in E. rewrite Forall_forall in Ht. by apply Ht in E as [_ ?]. }
  unfold HIVE_DELAYED_VOTING_INTERVAL_SECONDS, HIVE_DELAYED_VOTING_TOTAL_INTERVAL_SECONDS in *.
  simpl. lia.
Qed.

(** The delayed votes of an account.  Of a well-formed collection (the sum is that
    of the entries, entries are positive and a day apart): adding votes opens an entry
    for a new day or raises the last one, and throws when the sum leaves 64 bits;
    erasing any number of votes up to the sum leaves exactly the oldest votes (the loop
    ends, and never looks at the back of an empty vector) and throws above it; removing
    the front takes off the oldest entry.  Each leaves a well-formed collection, and a
    collection without matured or future entries has at most 30. *)
Theorem delayed_votes_collection (items : list delayed_votes_data) (sum : Z) :
  votes_wf items sum →
  (∀ head_time val, no_later head_time items → 0 < val ≤ u64_max →
    (sum + val ≤ u64_max →
      add items sum head_time val = Ok (added items head_time val, sum + val) ∧
      votes_wf (added items head_time val) (sum + val)) ∧
    (u64_max < sum + val → is_ok (add items sum head_time val) = false)) ∧
  (∀ count, 0 ≤ count →
    (count ≤ sum →
      erase items sum count = Ok (oldest (sum - count) items, sum - count) ∧
      votes_wf (oldest (sum - count) items) (sum - count)) ∧
    (sum < count → is_ok (erase items sum count) = false)) ∧
  match items with
  | [] => erase_front items sum = Ok ([], 0)
  | d :: items' =>
      erase_front items sum = Ok (items', sum - dv_val d) ∧ votes_wf items' (sum - dv_val d)
  end ∧
  (∀ now,
    Forall (λ d, now < dv_time d + HIVE_DELAYED_VOTING_TOTAL_INTERVAL_SECONDS ∧ dv_time d ≤ now)
      items →
    (length items ≤ 30)%nat).
Proof.
  intros Hwf. split_and!.
  - intros head_time val Hlater Hval. pose proof (add_exact _ _ _ _ Hwf Hlater Hval) as H.
    split; intros Hfit.
    + rewrite (proj2 (Z.leb_le _ _) Hfit) in H. split; [done|]. apply added_wf; done || lia.
    + by rewrite (proj2 (Z.leb_gt _ _) Hfit) in H.
  - intros count Hc. split; intros Hle.
    + split; [by apply erase_oldest|]. eapply oldest_wf; [done|lia].
    + unfold erase, fc_assert. destruct Hwf as [-> _ Hv _]. pose proof (vals_nonneg items Hv).
      rewrite (proj2 (Z.eqb_neq _ _)) by lia. by rewrite (proj2 (Z.leb_gt _ _) Hle).
  - destruct items as [|d items]; [|by apply erase_front_exact]. by rewrite (wf_sum _ _ Hwf).
  - intros now. apply at_most_30, (wf_sorted _ _ Hwf).
Qed.

(** Two days of votes; 250 of the 300 are taken back. *)
Definition sample_votes : list delayed_votes_data :=
  [DelayedVotesData 1600000000 100; DelayedVotesData 1600086400 200].

Lemma sample_votes_wf : votes_wf sample_votes 300.
Proof.
  split; [done|done| |]; repeat constructor; unfold a_day_apart; vm_compute; congruence.
Qed.

Lemma delayed_votes_collection_witness :
  erase sample_votes 300 250 = Ok ([DelayedVotesData 1600000000 50], 50).
Proof.
  destruct (delayed_votes_collection sample_votes 300 sample_votes_wf) as (_ & H & _ & _).
  destruct (H 250 ltac:(lia)) as [H1 _]. destruct (H1 ltac:(lia)) as [H2 _]. exact H2.
Defined.
