(* ===== verification/Account.v ===== *)
(** * Accounts

    The part of [account_object] (libraries/chain/include/hive/chain/account_object.hpp)
    that voting power, resource credits and governance are computed from, its getters,
    and [update_manabar] (libraries/chain/include/hive/chain/util/manabar.hpp).

    The fields keep their names.  A [VEST_asset] is its amount; [account_id_type] is a
    number and the null id, which only the field [proxy] uses here, is [None].  Balances,
    rewards, interest, recovery and bandwidth fields are left out: nothing modelled here
    reads or writes them.

    [update_manabar_exact] gives the mana of both voting bars after an update, with the
    condition under which the downvote computation stays within 64 bits. *)

From S2P Require Import Prelude Safe AssetSymbol Asset OperationTypes Manabar DelayedVotes.
Open Scope Z_scope.

Definition time_maximum : time_point_sec := u32_max.
Definition HIVE_MAX_PROXY_RECURSION_DEPTH : nat := 4.
Definition HIVE_VOTING_MANA_REGENERATION_SECONDS : Z := 5 * 60 * 60 * 24.
Definition HIVE_HF_21_STALL_BLOCK : Z := 35922615.

Record account_object : Set := AccountObject {
  name : string;
  proxy : option Z;
  voting_manabar : manabar;
  downvote_manabar : manabar;
  rc_manabar : manabar;
  vesting_shares : VEST_asset;
  delegated_vesting_shares : VEST_asset;
  received_vesting_shares : VEST_asset;
  vesting_withdraw_rate : VEST_asset;
  withdrawn : VEST_asset;
  to_withdraw : VEST_asset;
  rc_adjustment : Z;
  delegated_rc : Z;
  received_rc : Z;
  last_max_rc : Z;
  sum_delayed_votes : Z;
  next_vesting_withdrawal : time_point_sec;
  governance_vote_expiration_ts : time_point_sec;
  witnesses_voted_for : Z;
  can_vote : bool;
  proxied_vsf_votes : list Z;
  delayed_votes : list delayed_votes_data
}.

Definition set_proxy (v : option Z) (a : account_object) : account_object :=
  AccountObject (name a) v (voting_manabar a) (downvote_manabar a) (rc_manabar a)
  (vesting_shares a) (delegated_vesting_shares a) (received_vesting_shares a)
  (vesting_withdraw_rate a) (withdrawn a) (to_withdraw a) (rc_adjustment a) (delegated_rc a)
  (received_rc a) (last_max_rc a) (sum_delayed_votes a) (next_vesting_withdrawal a)
  (governance_vote_expiration_ts a) (witnesses_voted_for a) (can_vote a) (proxied_vsf_votes a)
  (delayed_votes a).
Definition set_voting_manabar (v : manabar) (a : account_object) : account_object :=
  AccountObject (name a) (proxy a) v (downvote_manabar a) (rc_manabar a) (vesting_shares a)
  (delegated_vesting_shares a) (received_vesting_shares a) (vesting_withdraw_rate a)
  (withdrawn a) (to_withdraw a) (rc_adjustment a) (delegated_rc a) (received_rc a)
  (last_max_rc a) (sum_delayed_votes a) (next_vesting_withdrawal a)
  (governance_vote_expiration_ts a) (witnesses_voted_for a) (can_vote a) (proxied_vsf_votes a)
  (delayed_votes a).
Definition set_downvote_manabar (v : manabar) (a : account_object) : account_object :=
  AccountObject (name a) (proxy a) (voting_manabar a) v (rc_manabar a) (vesting_shares a)
  (delegated_vesting_shares a) (received_vesting_shares a) (vesting_withdraw_rate a)
  (withdrawn a) (to_withdraw a) (rc_adjustment a) (delegated_rc a) (received_rc a)
  (last_max_rc a) (sum_delayed_votes a) (next_vesting_withdrawal a)
  (governance_vote_expiration_ts a) (witnesses_voted_for a) (can_vote a) (proxied_vsf_votes a)
  (delayed_votes a).
Definition set_rc_manabar (v : manabar) (a : account_object) : account_object :=
  AccountObject (name a) (proxy a) (voting_manabar a) (downvote_manabar a) v (vesting_shares a)
  (delegated_vesting_shares a) (received_vesting_shares a) (vesting_withdraw_rate a)
  (withdrawn a) (to_withdraw a) (rc_adjustment a) (delegated_rc a) (received_rc a)
  (last_max_rc a) (sum_delayed_votes a) (next_vesting_withdrawal a)
  (governance_vote_expiration_ts a) (witnesses_voted_for a) (can_vote a) (proxied_vsf_votes a)
  (delayed_votes a).
Definition set_vesting_shares (v : VEST_asset) (a : account_object) : account_object :=
  AccountObject (name a) (proxy a) (voting_manabar a) (downvote_manabar a) (rc_manabar a) v
  (delegated_vesting_shares a) (received_vesting_shares a) (vesting_withdraw_rate a)
  (withdrawn a) (to_withdraw a) (rc_adjustment a) (delegated_rc a) (received_rc a)
  (last_max_rc a) (sum_delayed_votes a) (next_vesting_withdrawal a)
  (governance_vote_expiration_ts a) (witnesses_voted_for a) (can_vote a) (proxied_vsf_votes a)
  (delayed_votes a).
Definition set_delegated_rc (v : Z) (a : account_object) : account_object :=
  AccountObject (name a) (proxy a) (voting_manabar a) (downvote_manabar a) (rc_manabar a)
  (vesting_shares a) (delegated_vesting_shares a) (received_vesting_shares a)
  (vesting_withdraw_rate a) (withdrawn a) (to_withdraw a) (rc_adjustment a) v (received_rc a)
  (last_max_rc a) (sum_delayed_votes a) (next_vesting_withdrawal a)
  (governance_vote_expiration_ts a) (witnesses_voted_for a) (can_vote a) (proxied_vsf_votes a)
  (delayed_votes a).
Definition set_received_rc (v : Z) (a : account_object) : account_object :=
  AccountObject (name a) (proxy a) (voting_manabar a) (downvote_manabar a) (rc_manabar a)
  (vesting_shares a) (delegated_vesting_shares a) (received_vesting_shares a)
  (vesting_withdraw_rate a) (withdrawn a) (to_withdraw a) (rc_adjustment a) (delegated_rc a) v
  (last_max_rc a) (sum_delayed_votes a) (next_vesting_withdrawal a)
  (governance_vote_expiration_ts a) (witnesses_voted_for a) (can_vote a) (proxied_vsf_votes a)
  (delayed_votes a).
Definition set_last_max_rc (v : Z) (a : account_object) : account_object :=
  AccountObject (name a) (proxy a) (voting_manabar a) (downvote_manabar a) (rc_manabar a)
  (vesting_shares a) (delegated_vesting_shares a) (received_vesting_shares a)
  (vesting_withdraw_rate a) (withdrawn a) (to_withdraw a) (rc_adjustment a) (delegated_rc a)
  (received_rc a) v (sum_delayed_votes a) (next_vesting_withdrawal a)
  (governance_vote_expiration_ts a) (witnesses_voted_for a) (can_vote a) (proxied_vsf_votes a)
  (delayed_votes a).
Definition set_governance_vote_expiration_ts (v : time_point_sec) (a : account_object) : account_object :=
  AccountObject (name a) (proxy a) (voting_manabar a) (downvote_manabar a) (rc_manabar a)
  (vesting_shares a) (delegated_vesting_shares a) (received_vesting_shares a)
  (vesting_withdraw_rate a) (withdrawn a) (to_withdraw a) (rc_adjustment a) (delegated_rc a)
  (received_rc a) (last_max_rc a) (sum_delayed_votes a) (next_vesting_withdrawal a) v
  (witnesses_voted_for a) (can_vote a) (proxied_vsf_votes a) (delayed_votes a).
Definition set_witnesses_voted_for (v : Z) (a : account_object) : account_object :=
  AccountObject (name a) (proxy a) (voting_manabar a) (downvote_manabar a) (rc_manabar a)
  (vesting_shares a) (delegated_vesting_shares a) (received_vesting_shares a)
  (vesting_withdraw_rate a) (withdrawn a) (to_withdraw a) (rc_adjustment a) (delegated_rc a)
  (received_rc a) (last_max_rc a) (sum_delayed_votes a) (next_vesting_withdrawal a)
  (governance_vote_expiration_ts a) v (can_vote a) (proxied_vsf_votes a) (delayed_votes a).
Definition set_can_vote (v : bool) (a : account_object) : account_object :=
  AccountObject (name a) (proxy a) (voting_manabar a) (downvote_manabar a) (rc_manabar a)
  (vesting_shares a) (delegated_vesting_shares a) (received_vesting_shares a)
  (vesting_withdraw_rate a) (withdrawn a) (to_withdraw a) (rc_adjustment a) (delegated_rc a)
  (received_rc a) (last_max_rc a) (sum_delayed_votes a) (next_vesting_withdrawal a)
  (governance_vote_expiration_ts a) (witnesses_voted_for a) v (proxied_vsf_votes a)
  (delayed_votes a).
Definition set_proxied_vsf_votes (v : list Z) (a : account_object) : account_object :=
  AccountObject (name a) (proxy a) (voting_manabar a) (downvote_manabar a) (rc_manabar a)
  (vesting_shares a) (delegated_vesting_shares a) (received_vesting_shares a)
  (vesting_withdraw_rate a) (withdrawn a) (to_withdraw a) (rc_adjustment a) (delegated_rc a)
  (received_rc a) (last_max_rc a) (sum_delayed_votes a) (next_vesting_withdrawal a)
  (governance_vote_expiration_ts a) (witnesses_voted_for a) (can_vote a) v (delayed_votes a).
Definition set_delayed (v : list delayed_votes_data * Z) (a : account_object) : account_object :=
  AccountObject (name a) (proxy a) (voting_manabar a) (downvote_manabar a) (rc_manabar a)
  (vesting_shares a) (delegated_vesting_shares a) (received_vesting_shares a)
  (vesting_withdraw_rate a) (withdrawn a) (to_withdraw a) (rc_adjustment a) (delegated_rc a)
  (received_rc a) (last_max_rc a) v.2 (next_vesting_withdrawal a)
  (governance_vote_expiration_ts a) (witnesses_voted_for a) (can_vote a) (proxied_vsf_votes a)
  v.1.

(** ** Getters *)

Definition has_proxy (a : account_object) : bool := bool_decide (proxy a ≠ None).

Definition get_total_vesting_withdrawal (a : account_object) : result Z :=
  share_sub (to_withdraw a) (withdrawn a).

Definition has_active_power_down (a : account_object) : bool :=
  negb (next_vesting_withdrawal a =? time_maximum).

Definition get_next_vesting_withdrawal (a : account_object) : result Z :=
  if has_active_power_down a then
    total ← get_total_vesting_withdrawal a;
    Ok (Z.min (vesting_withdraw_rate a) total)
  else Ok 0.

Definition get_effective_vesting_shares (excludeWeeklyPowerDown : bool) (a : account_object)
    : result Z :=
  total ← share_sub (vesting_shares a) (delegated_vesting_shares a);
  total ← share_add total (received_vesting_shares a);
  if excludeWeeklyPowerDown && negb (next_vesting_withdrawal a =? time_maximum) then
    next ← get_next_vesting_withdrawal a;
    share_sub total next
  else Ok total.

Definition get_maximum_rc (only_delegable : bool) (a : account_object) : result Z :=
  effective ← get_effective_vesting_shares true a;
  total ← share_sub effective (delegated_rc a);
  if only_delegable then Ok total
  else
    extra ← share_add (rc_adjustment a) (received_rc a);
    share_add total extra.

Definition has_delayed_votes (a : account_object) : bool := bool_decide (delayed_votes a ≠ []).

Definition get_oldest_delayed_vote_time (a : account_object) : time_point_sec :=
  match delayed_votes a with
  | d :: _ => dv_time d
  | [] => time_maximum
  end.

(** The comparison converts the unsigned sum to the signed [safe]. *)
Definition get_direct_governance_vote_power (a : account_object) : result Z :=
  fc_assert (i64 (sum_delayed_votes a) <=? vesting_shares a)
    "sum_delayed_votes.value <= vesting_shares.amount" ;;
  share_sub (vesting_shares a) (i64 (sum_delayed_votes a)).

Definition get_governance_vote_power (a : account_object) : result Z :=
  direct ← get_direct_governance_vote_power a;
  foldM share_add direct (proxied_vsf_votes a).

Definition proxied_vsf_votes_total (a : account_object) : result Z :=
  foldM share_add 0 (proxied_vsf_votes a).

(** ** [update_manabar] *)

(** What [update_manabar] reads of the dynamic global properties. *)
Record mana_props : Set := ManaProps {
  gpo_time : time_point_sec;
  head_block_number : Z;
  downvote_pool_percent : Z
}.

(** [( x * percent ) / HIVE_100_PERCENT] in [int64_t]. *)
Definition percent_of (x percent : Z) : result Z :=
  n ← signed64 (x * percent); Ok (cdiv n HIVE_100_PERCENT).

Definition update_manabar (gpo : mana_props) (new_mana : Z) (account : account_object)
    : result account_object :=
  effective_vests ← get_effective_vesting_shares true account;
  let params := ManabarParams effective_vests HIVE_VOTING_MANA_REGENERATION_SECONDS in
  voting ← regenerate_mana false params (gpo_time gpo) (voting_manabar account);
  given ← signed64 (- new_mana);
  let account := set_voting_manabar (use_mana given 0 voting) account in
  if downvote_pool_percent gpo =? 0 then Ok account
  else
    max_mana ←
      (if HIVE_HF_21_STALL_BLOCK <? head_block_number gpo then
         uint128_to_int64
           (u128 (u128 effective_vests * downvote_pool_percent gpo) / HIVE_100_PERCENT)
       else percent_of effective_vests (downvote_pool_percent gpo));
    let params := ManabarParams max_mana HIVE_VOTING_MANA_REGENERATION_SECONDS in
    downvote ← regenerate_mana false params (gpo_time gpo) (downvote_manabar account);
    given ← signed64 (- new_mana);
    used ← percent_of given (downvote_pool_percent gpo);
    Ok (set_downvote_manabar (use_mana used 0 downvote) account).

(** A bar that an update can bring to [time]. *)
Definition updatable (time : Z) (m : manabar) : Prop :=
  0 ≤ current_mana m ≤ i64_max ∧ 0 ≤ last_update_time m ≤ time.

Lemma updatable_typed M time m :
  updatable time m → time ≤ u32_max → i64_min ≤ M ≤ i64_max →
  typed_bar (ManabarParams M HIVE_VOTING_MANA_REGENERATION_SECONDS) m.
Proof.
  intros [Hc Hl] Ht HM. split; simpl; try lia; [done|]. unfold i64_min. lia.
Qed.

(** Regenerate, then give [n]: the bar stays below the new maximum. *)
Lemma regenerate_and_give M n time m :
  updatable time m → time ≤ u32_max → 0 ≤ M ≤ i64_max → 0 ≤ n ≤ i64_max →
  ∃ m', regenerate_mana false (ManabarParams M HIVE_VOTING_MANA_REGENERATION_SECONDS) time m
        = Ok m' ∧
        0 ≤ current_mana (use_mana (- n) 0 m') ≤ M + n ∧
        last_update_time (use_mana (- n) 0 m') = time.
Proof.
  intros Hm Ht HM Hn. pose proof (updatable_typed M time m Hm Ht) as Hty.
  destruct Hm as [Hc Hl]. specialize (Hty ltac:(unfold i64_min; lia)).
  rewrite regenerate_capped by (done || simpl; lia). eexists; split; [done|].
  cbn [max_mana regen_time]. set (params := ManabarParams M _) in *.
  pose proof (regenerated_nonneg params (Z.min (time - last_update_time m)
    HIVE_VOTING_MANA_REGENERATION_SECONDS) (proj1 HM) eq_refl
    ltac:(unfold HIVE_VOTING_MANA_REGENERATION_SECONDS; lia)) as Hg.
  rewrite give_mana_exact by (cbn [current_mana]; lia). cbn [current_mana last_update_time]. lia.
Qed.

Lemma percent_of_neg n percent : 0 ≤ n ≤ i64_max → 0 ≤ percent →
  percent_of (- n) percent
  = if n * percent <=? - i64_min then Ok (- (n * percent / HIVE_100_PERCENT))
    else Throw undefined_behaviour.
Proof.
  intros Hn Hp. unfold percent_of, signed64, cdiv, in_i64.
  destruct (Z.leb_spec (n * percent) (- i64_min)).
  - rewrite (proj2 (Z.leb_le i64_min _)), (proj2 (Z.leb_le (- n * percent) i64_max))
      by (unfold i64_min, i64_max in *; nia).
    simpl. rewrite Z.mul_opp_l, Z.quot_opp_l by done. by rewrite Z.quot_div_nonneg by (done || nia).
  - by rewrite (proj2 (Z.leb_gt i64_min _)) by lia.
Qed.

(** Both bars after an update that brings [new_mana]: they are within the maximum the
    account has once the new shares are added.  The downvote part multiplies in 64 bits,
    so that it is undefined from [2^63 / percent] new shares on. *)
Lemma update_manabar_exact gpo new_mana a effective :
  get_effective_vesting_shares true a = Ok effective → 0 ≤ effective ≤ i64_max →
  updatable (gpo_time gpo) (voting_manabar a) → updatable (gpo_time gpo) (downvote_manabar a) →
  gpo_time gpo ≤ u32_max → 0 ≤ new_mana ≤ i64_max →
  0 < downvote_pool_percent gpo ≤ HIVE_100_PERCENT →
  HIVE_HF_21_STALL_BLOCK < head_block_number gpo →
  let percent := downvote_pool_percent gpo in
  if new_mana * percent <=? - i64_min then
    ∃ a', update_manabar gpo new_mana a = Ok a' ∧
      0 ≤ current_mana (voting_manabar a') ≤ effective + new_mana ∧
      0 ≤ current_mana (downvote_manabar a')
        ≤ (effective + new_mana) * percent / HIVE_100_PERCENT ∧
      last_update_time (voting_manabar a') = gpo_time gpo ∧
      last_update_time (downvote_manabar a') = gpo_time gpo
  else update_manabar gpo new_mana a = Throw undefined_behaviour.
Proof.
  intros He Heff Hv Hd Ht Hn Hp Hstall percent. unfold update_manabar. rewrite He.
  cbn [mbind result_bind].
  destruct (regenerate_and_give effective new_mana _ _ Hv Ht Heff Hn) as (v & -> & Hv1 & Hv2).
  assert (signed64 (- new_mana) = Ok (- new_mana)) as Hgiven.
  { unfold signed64. by rewrite (proj2 (in_i64_spec _)) by (unfold i64_min, i64_max in *; lia). }
  rewrite Hgiven.
  cbn [andb mbind result_bind]. rewrite (proj2 (Z.eqb_neq _ _)) by lia.
  rewrite (proj2 (Z.ltb_lt _ _) Hstall). unfold HIVE_100_PERCENT in *. fold percent in Hp |- *.
  assert (0 ≤ effective * percent / 10000 ≤ effective) as Hdm.
  { pose proof (div_bracket (effective * percent) 10000 eq_refl). nia. }
  rewrite (u128_id effective), u128_id by (unfold u128_max, i64_max in *; nia).
  unfold uint128_to_int64, fc_assert. rewrite (proj2 (Z.leb_le _ i64_max)) by lia.
  cbn [mbind result_bind]. rewrite i64_id by (unfold i64_min; lia).
  assert (0 ≤ new_mana * percent / 10000 ≤ new_mana) as Hgm.
  { pose proof (div_bracket (new_mana * percent) 10000 eq_refl). nia. }
  destruct (regenerate_and_give (effective * percent / 10000) (new_mana * percent / 10000)
    _ _ Hd Ht) as (w & Hw & Hw1 & Hw2); [lia..|].
  simpl downvote_manabar. rewrite Hw. cbn [mbind result_bind].
  rewrite percent_of_neg by lia. destruct (_ <=? _); [|done]. cbn [mbind result_bind].
  eexists; split; [done|].
  cbn [voting_manabar downvote_manabar set_downvote_manabar set_voting_manabar].
  unfold HIVE_100_PERCENT. split_and!; try done; try lia.
  pose proof (div_bracket (effective * percent) 10000 eq_refl).
  pose proof (div_bracket (new_mana * percent) 10000 eq_refl).
  pose proof (div_bracket ((effective + new_mana) * percent) 10000 eq_refl).
  rewrite Z.mul_add_distr_r in *. lia.
Qed.
