(* ===== verification/ProxyTree.v ===== *)
(** * Trees of proxies

    The arithmetic behind the proxied votes of accounts: a map [P] from an account to
    its proxy, the voting power [pows] of each account, and the power that reaches an
    account over exactly [k] proxies ([subtree]).  All updates of the books are linear:
    a change of power adds along the chain of proxies ([subtree_power]), and setting a
    proxy moves the levels of a whole subtree along it ([subtree_attach]).  Nothing
    here is code of the chain; the file [Governance] applies it. *)

From S2P Require Import Prelude.
Open Scope Z_scope.

Implicit Types (P pows : gmap Z Z).

(** Zero or one. *)
Definition bz (φ : Prop) `{Decision φ} : Z := if decide φ then 1 else 0.

Lemma bz_true φ `{Decision φ} : φ → bz φ = 1.
Proof. intros. unfold bz. by rewrite decide_True. Qed.
Lemma bz_false φ `{Decision φ} : ¬ φ → bz φ = 0.
Proof. intros. unfold bz. by rewrite decide_False. Qed.
Lemma bz_bound φ `{Decision φ} : 0 ≤ bz φ ≤ 1.
Proof. unfold bz. case_decide; lia. Qed.
Lemma bz_iff φ ψ `{Decision φ, Decision ψ} : (φ ↔ ψ) → bz φ = bz ψ.
Proof. intros Hi. unfold bz. repeat case_decide; naive_solver. Qed.

(** A sum that only looks at the keys. *)
Lemma map_sum_dom (f : Z → Z) (m1 m2 : gmap Z Z) :
  dom m1 = dom m2 → map_sum (λ k _, f k) m1 = map_sum (λ k _, f k) m2.
Proof.
  revert m2; induction m1 as [|k v m Hk IH] using map_ind; intros m2 Hdom.
  { rewrite dom_empty_L in Hdom. symmetry in Hdom. apply dom_empty_inv_L in Hdom as ->. done. }
  rewrite dom_insert_L in Hdom. assert (is_Some (m2 !! k)) as [v2 Hk2].
  { apply elem_of_dom. rewrite <- Hdom. set_solver. }
  rewrite map_sum_insert, Hk, (IH (delete k m2)).
  - rewrite map_sum_delete, Hk2. simpl. lia.
  - rewrite dom_delete_L, <- Hdom. apply not_elem_of_dom in Hk. set_solver.
Qed.

(** The account [n] proxies up from [x]. *)
Fixpoint anc P (n : nat) (x : Z) : option Z :=
  match n with
  | O => Some x
  | S n => y ← P !! x; anc P n y
  end.

Definition acyclic P : Prop := ∀ n x, anc P (S n) x ≠ Some x.

Section chains.
Context (P : gmap Z Z).

Lemma anc_add m n x : anc P (m + n) x = anc P m x ≫= anc P n.
Proof.
  revert x; induction m as [|m IH]; intros x; [done|]. simpl.
  destruct (P !! x); simpl; [apply IH|done].
Qed.

Lemma anc_S m x : anc P (S m) x = anc P m x ≫= λ y, P !! y.
Proof.
  rewrite <- Nat.add_1_r, anc_add. destruct (anc P m x) as [y|]; simpl; [|done].
  by destruct (P !! y).
Qed.

Lemma anc_inj m n x q : acyclic P → anc P m x = Some q → anc P n x = Some q → m = n.
Proof.
  assert (∀ m n, (m < n)%nat → acyclic P → anc P m x = Some q → anc P n x = Some q → False) as H.
  { intros m' n' Hlt Hac Hm Hn. replace n' with (m' + S (n' - m' - 1))%nat in Hn by lia.
    rewrite anc_add, Hm in Hn. by apply (Hac _ q) in Hn. }
  intros Hac Hm Hn. destruct (lt_eq_lt_dec m n) as [[?|?]|?]; [exfalso; eauto|done|exfalso; eauto].
Qed.

Lemma anc_past_root m n x r : P !! r = None → anc P m x = Some r → (m < n)%nat → anc P n x = None.
Proof.
  intros Hr Hm Hlt. replace n with (m + S (n - m - 1))%nat by lia.
  rewrite anc_add, Hm. simpl. by rewrite Hr.
Qed.

(** No chain is acyclic by accident: removing a proxy keeps it so. *)
Lemma anc_delete a n x y : anc (delete a P) n x = Some y → anc P n x = Some y.
Proof.
  revert x; induction n as [|n IH]; intros x; [done|]. simpl.
  destruct (decide (x = a)) as [->|Hne]; [by rewrite lookup_delete_eq|].
  rewrite lookup_delete_ne by done. destruct (P !! x); simpl; [apply IH|done].
Qed.

Lemma acyclic_delete a : acyclic P → acyclic (delete a P).
Proof. intros Hac n x Hx. by apply anc_delete, Hac in Hx. Qed.

End chains.

(** A chain that does not go through [a] does not see the proxy of [a]. *)
Lemma anc_agree P P' a k x :
  (∀ y, y ≠ a → P' !! y = P !! y) → (∀ j, (j < k)%nat → anc P j x ≠ Some a) →
  anc P' k x = anc P k x.
Proof.
  intros HP. induction k as [|k IH]; intros Hno; [done|].
  rewrite !anc_S, IH by (intros; apply Hno; lia). specialize (Hno k ltac:(lia)).
  destruct (anc P k x) as [y|]; simpl; [|done]. apply HP. congruence.
Qed.

Lemma acyclic_insert P a p :
  acyclic P → P !! a = None → (∀ j, anc P j p ≠ Some a) → acyclic (<[a := p]> P).
Proof.
  intros Hac Ha Hp n x Hx. set (P' := <[a := p]> P) in *.
  assert (∀ y, y ≠ a → P' !! y = P !! y) as Hne by (intros; by apply lookup_insert_ne).
  assert (∀ j, anc P' j p = anc P j p) as Hchain by (intros; apply (anc_agree _ _ a); naive_solver).
  destruct (decide (Exists (λ j, anc P' j x = Some a) (seq 0 (S n)))) as [He|He].
  - apply Exists_exists in He as (j & [_ Hj]%elem_of_seq & Ej).
    assert (anc P' (S n - j) a = Some x) as E1.
    { replace (S n) with (j + (S n - j))%nat in Hx by lia. by rewrite anc_add, Ej in Hx. }
    assert (anc P' (S n) a = Some a) as E2.
    { replace (S n) with (S n - j + j)%nat by lia. by rewrite anc_add, E1. }
    cbn [anc] in E2. assert (P' !! a = Some p) as Ea by apply lookup_insert_eq.
    rewrite Ea in E2. cbn [mbind option_bind] in E2. rewrite Hchain in E2. by apply Hp in E2.
  - apply (Hac n x). rewrite <- Hx. apply (anc_agree _ _ a); [intros; symmetry; by apply Hne|].
    intros j Hj Ej. apply He, Exists_exists. exists j. split; [|done]. apply elem_of_seq. lia.
Qed.

(** Power [k] proxies below [q]. *)
Definition subtree P pows (k : nat) (q : Z) : Z :=
  map_sum (λ x v, bz (anc P k x = Some q) * v) pows.

Lemma subtree_0 P pows q : subtree P pows 0 q = default 0 (pows !! q).
Proof.
  unfold subtree.
  rewrite (map_sum_ext _ (λ x v, if decide (x = q) then v else 0)).
  { rewrite map_sum_single. by destruct (pows !! q). }
  intros x v _. simpl. unfold bz. repeat case_decide; simplify_eq; lia.
Qed.

Lemma subtree_nonneg P pows k q : (∀ x v, pows !! x = Some v → 0 ≤ v) → 0 ≤ subtree P pows k q.
Proof.
  intros Hp. apply map_sum_nonneg. intros x v Hx.
  pose proof (bz_bound (anc P k x = Some q)). apply Hp in Hx. nia.
Qed.

Lemma subtree_le P pows k q : (∀ x v, pows !! x = Some v → 0 ≤ v) →
  subtree P pows k q ≤ map_sum (λ _ v, v) pows.
Proof.
  intros Hp. apply map_sum_mono. intros x v Hx.
  pose proof (bz_bound (anc P k x = Some q)). apply Hp in Hx. nia.
Qed.

(** A change of the power of [a] counts at its [k]-th proxy. *)
Lemma subtree_power P pows k q a v δ : pows !! a = Some v →
  subtree P (<[a := v + δ]> pows) k q = subtree P pows k q + bz (anc P k a = Some q) * δ.
Proof. intros Ha. unfold subtree. rewrite map_sum_insert, Ha. simpl. lia. Qed.

(** ** Setting a proxy *)

Section attach.
Context (P : gmap Z Z) (a p : Z) (Hroot : P !! a = None).
Abbreviation P' := (<[a := p]> P).
Context (Hac : acyclic P').

(** The chain of the new proxy does not come back. *)
Lemma anc_new_proxy k : anc P' k p = anc P k p.
Proof.
  assert (∀ k, anc P' k p ≠ Some a) as Hno.
  { intros j Hj. apply (Hac j a). simpl. by rewrite lookup_insert_eq. }
  induction k as [|k IH]; [done|]. rewrite !anc_S, <- IH.
  specialize (Hno k). destruct (anc P' k p) as [y|]; simpl; [|done].
  rewrite lookup_insert_ne; congruence.
Qed.

Lemma anc_of_new k : anc P' (S k) a = anc P k p.
Proof. simpl. rewrite lookup_insert_eq. apply anc_new_proxy. Qed.

(** A chain of [P'] is a chain of [P], or goes through [a] after [j] steps. *)
Lemma anc_attach k x q :
  bz (anc P' k x = Some q)
  = bz (anc P k x = Some q)
    + sumZ ((λ j, bz (anc P j x = Some a) * bz (anc P (k - 1 - j) p = Some q)) <$> seq 0 k).
Proof.
  revert x; induction k as [|k IH]; intros x; [simpl; lia|].
  change (seq 0 (S k)) with (0%nat :: seq 1 k). rewrite <- fmap_S_seq.
  rewrite fmap_cons, sumZ_cons, <- list_fmap_compose.
  replace (S k - 1 - 0)%nat with k by lia.
  rewrite (list_fmap_ext _ (λ j, bz (anc P (S j) x = Some a) * bz (anc P (k - 1 - j) p = Some q))).
  2: { intros i j _. unfold compose. by replace (S k - 1 - S j)%nat with (k - 1 - j)%nat by lia. }
  destruct (decide (x = a)) as [->|Hne].
  - rewrite (bz_iff (anc P' (S k) a = Some q) (anc P k p = Some q)) by (by rewrite anc_of_new).
    rewrite (bz_false (anc P (S k) a = Some q)) by (simpl; by rewrite Hroot).
    rewrite (bz_true (anc P 0 a = Some a)) by done.
    rewrite sumZ_zero; [lia|]. intros j _. simpl. by rewrite Hroot.
  - rewrite (bz_false (anc P 0 x = Some a)) by (simpl; congruence). simpl.
    rewrite lookup_insert_ne by done. destruct (P !! x) as [y|]; simpl.
    + rewrite IH. lia.
    + rewrite sumZ_zero by done. done.
Qed.

Lemma subtree_attach pows k q :
  subtree P' pows k q
  = subtree P pows k q
    + sumZ ((λ j, bz (anc P' (k - j) a = Some q) * subtree P pows j a) <$> seq 0 k).
Proof.
  unfold subtree. rewrite (map_sum_ext _ (λ x v, bz (anc P k x = Some q) * v
    + sumZ ((λ j, bz (anc P' (k - j) a = Some q) * (bz (anc P j x = Some a) * v)) <$> seq 0 k))).
  - rewrite map_sum_add, map_sum_list. f_equal. f_equal. apply list_fmap_ext. intros i j _.
    by rewrite map_sum_scale.
  - intros x v _. rewrite anc_attach, Z.mul_add_distr_r, sumZ_scale. f_equal.
    apply sumZ_ext. intros j Hj%elem_of_seq. replace (k - j)%nat with (S (k - 1 - j)) by lia.
    rewrite (bz_iff (anc P' (S (k - 1 - j)) a = Some q) (anc P (k - 1 - j) p = Some q))
      by (by rewrite anc_of_new). lia.
Qed.

(** The subtree of [a] itself does not change. *)
Lemma subtree_attach_self pows k : subtree P' pows k a = subtree P pows k a.
Proof.
  rewrite subtree_attach, sumZ_zero; [lia|]. intros j Hj%elem_of_seq.
  rewrite bz_false; [lia|]. replace (k - j)%nat with (S (k - j - 1)) by lia. apply Hac.
Qed.

End attach.

(** ** What reaches the roots *)

(** Power that reaches [q] over at most [n] proxies. *)
Definition reach (n : nat) P pows (q : Z) : Z :=
  sumZ ((λ k, subtree P pows k q) <$> seq 0 (S n)).

Lemma sum_over_voters pows (V : Z → Prop) `{∀ x, Decision (V x)} (o : option Z) :
  map_sum (λ q _, bz (V q) * bz (o = Some q)) pows
  = from_option (λ q, bz (V q) * bz (is_Some (pows !! q))) 0 o.
Proof.
  destruct o as [r|]; simpl.
  - rewrite (map_sum_ext _ (λ q _, if decide (q = r) then bz (V q) else 0)).
    + rewrite map_sum_single. destruct (pows !! r) eqn:Hr; simpl.
      * rewrite (bz_true (is_Some (Some z))) by eauto. lia.
      * rewrite (bz_false (is_Some None)) by (by intros [? ?]). lia.
    + intros q _ _. case_decide; [subst; rewrite (bz_true (Some r = Some r)) by done; lia|].
      rewrite (bz_false (Some r = Some q)) by congruence. lia.
  - apply map_sum_zero. intros q _ _. rewrite (bz_false (None = Some q)) by done. lia.
Qed.

Lemma at_voter pows (V : Z → Prop) `{∀ x, Decision (V x)} (o : option Z) :
  from_option (λ q, bz (V q) * bz (is_Some (pows !! q))) 0 o ≠ 0 → ∃ r, o = Some r ∧ V r.
Proof.
  destruct o as [r|]; simpl; [|done]. intros Hne. exists r. split; [done|].
  destruct (decide (V r)); [done|]. rewrite bz_false in Hne by done. lia.
Qed.

(** Voters without a proxy share the power of all accounts: nothing is counted twice. *)
Lemma reach_bound n P pows (V : Z → Prop) `{∀ x, Decision (V x)} :
  (∀ x, V x → P !! x = None) → (∀ x v, pows !! x = Some v → 0 ≤ v) →
  0 ≤ map_sum (λ q _, bz (V q) * reach n P pows q) pows ≤ map_sum (λ _ v, v) pows.
Proof.
  intros HV Hpos. split.
  { apply map_sum_nonneg. intros q _ _. apply Z.mul_nonneg_nonneg; [apply bz_bound|].
    apply sumZ_nonneg, Forall_fmap, Forall_forall. intros k _. by apply subtree_nonneg. }
  rewrite (map_sum_ext _ (λ q _, map_sum (λ x v,
    sumZ ((λ k, bz (V q) * bz (anc P k x = Some q)) <$> seq 0 (S n)) * v) pows)).
  2: { intros q _ _. unfold reach, subtree. rewrite <- map_sum_list, <- map_sum_scale.
       apply map_sum_ext. intros x v _. rewrite !sumZ_scale, Z.mul_comm, sumZ_scale.
       apply sumZ_ext. intros. lia. }
  rewrite map_sum_swap. apply map_sum_mono. intros x v Hx. specialize (Hpos x v Hx).
  set (g := λ k, from_option (λ q, bz (V q) * bz (is_Some (pows !! q))) 0 (anc P k x)).
  rewrite (map_sum_ext _ (λ q _, sumZ ((λ k, v * (bz (V q) * bz (anc P k x = Some q))) <$> seq 0 (S n)))).
  2: { intros q _ _. rewrite sumZ_scale. apply sumZ_ext. intros. lia. }
  rewrite map_sum_list.
  rewrite (sumZ_ext _ (λ k, g k * v)).
  2: { intros k _. rewrite map_sum_scale, Z.mul_comm. f_equal. apply sum_over_voters. }
  rewrite <- sumZ_scale.
  assert (0 ≤ sumZ (g <$> seq 0 (S n)) ≤ 1) as Hg; [|nia].
  apply sumZ_at_most_one; [apply NoDup_seq| |].
  - intros k _. unfold g. destruct (anc P k x) as [r|]; simpl; [|lia].
    pose proof (bz_bound (V r)). pose proof (bz_bound (is_Some (pows !! r))). nia.
  - intros i j _ _ [r [Hi Hr]]%at_voter [s [Hj Hs]]%at_voter.
    destruct (lt_eq_lt_dec i j) as [[Hlt|?]|Hlt]; [|done|].
    + by rewrite (anc_past_root P i j x r) in Hj by auto.
    + by rewrite (anc_past_root P j i x s) in Hi by auto.
Qed.
