(* ===== verification/Governance.v ===== *)
(** * Governance votes

    The books of witness votes: [database::adjust_proxied_witness_votes] and the
    functions around it (libraries/chain/database.cpp), the evaluators of
    [account_witness_vote_operation] and [account_witness_proxy_operation]
    (libraries/chain/hive_evaluator.cpp), the expiration of governance votes and
    [delayed_voting] (libraries/chain/util/delayed_voting.cpp).

    [chain_state] holds the objects these functions read and write: accounts by id,
    witnesses by name, the votes of [witness_vote_object] and [proposal_vote_object], the
    properties and the virtual operations pushed so far.  A function of the chain is a
    function from the state to a result with the new state: an exception leaves the
    enclosing session, which restores the state.

    The books are right when every account's [proxied_vsf_votes] are the powers that
    reach it over one to four proxies, every witness has the power of its voters, and
    every voter is its own root ([books]).  Every operation is shown to succeed exactly
    when its checks pass and to keep the books right. *)

From S2P Require Import Prelude Safe OperationTypes Operations DelayedVotes Account ProxyTree.
Open Scope Z_scope.

(** ** State *)

Record witness_object : Set := WitnessObject {
  votes : Z;
  virtual_last_update : Z;
  virtual_position : Z;
  virtual_scheduled_time : Z
}.

Record chain_state : Type := ChainState {
  accounts : gmap Z account_object;
  witnesses : gmap string witness_object;
  witness_votes : gset (string * string);
  proposal_votes : gset (string * Z);
  total_vesting_shares : Z;
  head_block_time : time_point_sec;
  current_remove_threshold : Z;
  current_virtual_time : Z;
  irreversible_virtual_time : Z;
  processed_hardforks : Z;
  virtual_ops : list operation
}.

Definition set_accounts (m : gmap Z account_object) (d : chain_state) : chain_state :=
  ChainState m (witnesses d) (witness_votes d) (proposal_votes d) (total_vesting_shares d)
    (head_block_time d) (current_remove_threshold d) (current_virtual_time d)
    (irreversible_virtual_time d) (processed_hardforks d) (virtual_ops d).
Definition set_witnesses (m : gmap string witness_object) (d : chain_state) : chain_state :=
  ChainState (accounts d) m (witness_votes d) (proposal_votes d) (total_vesting_shares d)
    (head_block_time d) (current_remove_threshold d) (current_virtual_time d)
    (irreversible_virtual_time d) (processed_hardforks d) (virtual_ops d).
Definition set_witness_votes (v : gset (string * string)) (d : chain_state) : chain_state :=
  ChainState (accounts d) (witnesses d) v (proposal_votes d) (total_vesting_shares d)
    (head_block_time d) (current_remove_threshold d) (current_virtual_time d)
    (irreversible_virtual_time d) (processed_hardforks d) (virtual_ops d).
Definition set_proposal_votes (v : gset (string * Z)) (d : chain_state) : chain_state :=
  ChainState (accounts d) (witnesses d) (witness_votes d) v (total_vesting_shares d)
    (head_block_time d) (current_remove_threshold d) (current_virtual_time d)
    (irreversible_virtual_time d) (processed_hardforks d) (virtual_ops d).
Definition push_virtual_operation (op : operation) (d : chain_state) : chain_state :=
  ChainState (accounts d) (witnesses d) (witness_votes d) (proposal_votes d)
    (total_vesting_shares d) (head_block_time d) (current_remove_threshold d)
    (current_virtual_time d) (irreversible_virtual_time d) (processed_hardforks d)
    (virtual_ops d ++ [op]).

Definition HIVE_HARDFORK_0_2 : Z := 2.
Definition HIVE_HARDFORK_0_3 : Z := 3.
Definition HIVE_HARDFORK_0_4 : Z := 4.
Definition HIVE_HARDFORK_0_6__104 : Z := 6.
Definition HIVE_HARDFORK_1_25 : Z := 25.
Definition HIVE_HARDFORK_1_27_FIX_TIMESHARE_WITNESS_SCHEDULING : Z := 27.

Definition has_hardfork (hardfork : Z) (d : chain_state) : bool :=
  hardfork <? processed_hardforks d.

(** ** Access to objects *)

Definition get_account (i : Z) (d : chain_state) : result account_object :=
  from_option_or out_of_range_exception (accounts d !! i).

(** The index by name, with the id of what it finds. *)
Definition find_account (n : string) (d : chain_state) : option Z :=
  fst <$> head (filter (λ p, name p.2 = n) (map_to_list (accounts d))).

Definition get_account_by_name (n : string) (d : chain_state) : result Z :=
  from_option_or out_of_range_exception (find_account n d).

Definition get_witness (n : string) (d : chain_state) : result witness_object :=
  from_option_or out_of_range_exception (witnesses d !! n).

(** [modify( account, ... )]. *)
Definition modify_account (i : Z) (f : account_object → result account_object) (d : chain_state)
    : result chain_state :=
  a ← get_account i d;
  a ← f a;
  Ok (set_accounts (<[i := a]> (accounts d)) d).

(** ** Votes of witnesses *)

Definition HIVE_VIRTUAL_SCHEDULE_LAP_LENGTH : Z := u64_max.
Definition HIVE_VIRTUAL_SCHEDULE_LAP_LENGTH2 : Z := u128_max.

Definition adjust_witness_vote (w : string) (delta : Z) (d : chain_state)
    : result chain_state :=
  let now := if has_hardfork HIVE_HARDFORK_1_27_FIX_TIMESHARE_WITNESS_SCHEDULING d
             then irreversible_virtual_time d else current_virtual_time d in
  witness ← get_witness w d;
  let delta_pos := u128 (u128 (votes witness) * u128 (now - virtual_last_update witness)) in
  let position := u128 (virtual_position witness + delta_pos) in
  new_votes ← share_add (votes witness) delta;
  fc_assert (new_votes <=? total_vesting_shares d)
    "w.votes <= get_dynamic_global_properties().total_vesting_shares.amount" ;;
  let lap := if has_hardfork HIVE_HARDFORK_0_2 d then HIVE_VIRTUAL_SCHEDULE_LAP_LENGTH2
             else HIVE_VIRTUAL_SCHEDULE_LAP_LENGTH in
  speed ← signed64 (new_votes + 1);
  rounds ← udiv (u128 (lap - position)) (u128 speed);
  let scheduled := u128 (now + rounds) in
  let scheduled := if has_hardfork HIVE_HARDFORK_0_4 d && (scheduled <? now) then u128_max
                   else scheduled in
  Ok (set_witnesses (<[w := WitnessObject new_votes now position scheduled]> (witnesses d)) d).

Definition name_le (a b : string) : Prop := String.leb a b = true.
#[export] Instance name_le_dec : RelDecision name_le.
Proof. intros a b. unfold name_le. apply _. Defined.

(** The witnesses of the votes of an account, in the order of the index. *)
Definition voted_witnesses (n : string) (d : chain_state) : list string :=
  merge_sort name_le (snd <$> filter (λ v, v.1 = n) (elements (witness_votes d))).

Definition adjust_witness_votes (i : Z) (delta : Z) (d : chain_state) : result chain_state :=
  a ← get_account i d;
  foldM (λ d w, adjust_witness_vote w delta d) d (voted_witnesses (name a) d).

(** ** Votes through proxies *)

(** [v[k] += x] of an array of [share_type]. *)
Definition add_at (v : list Z) (k : nat) (x : Z) : result (list Z) :=
  old ← from_option_or undefined_behaviour (v !! k);
  new ← share_add old x;
  Ok (<[k := new]> v).

(** [for( i = n - 1; i >= 0; --i ) a.proxied_vsf_votes[i+depth] += delta[i];] *)
Definition add_levels (n depth : nat) (delta : list Z) (a : account_object) : result account_object :=
  v ← foldM (λ v i,
        x ← from_option_or undefined_behaviour (delta !! i);
        add_at v (i + depth) x) (proxied_vsf_votes a) (reverse (seq 0 n));
  Ok (set_proxied_vsf_votes v a).

(** [n] is [HIVE_MAX_PROXY_RECURSION_DEPTH - depth]; at zero the vote does not
    propagate any further. *)
Fixpoint adjust_proxied_levels (n : nat) (i : Z) (delta : list Z) (d : chain_state)
    : result chain_state :=
  a ← get_account i d;
  match proxy a, n with
  | Some p, O => Ok d
  | Some p, S n' =>
      d ← modify_account p (add_levels n (HIVE_MAX_PROXY_RECURSION_DEPTH - n) delta) d;
      adjust_proxied_levels n' p delta d
  | None, _ =>
      total_delta ← foldM share_add 0 (reverse (take (S n) delta));
      adjust_witness_votes i total_delta d
  end.

Definition adjust_proxied_witness_votes_array (i : Z) (delta : list Z)
    : chain_state → result chain_state :=
  adjust_proxied_levels HIVE_MAX_PROXY_RECURSION_DEPTH i delta.

Fixpoint adjust_proxied_delta (n : nat) (i : Z) (delta : Z) (d : chain_state)
    : result chain_state :=
  a ← get_account i d;
  match proxy a, n with
  | Some p, O => Ok d
  | Some p, S n' =>
      d ← modify_account p (λ a,
            v ← add_at (proxied_vsf_votes a) (HIVE_MAX_PROXY_RECURSION_DEPTH - n) delta;
            Ok (set_proxied_vsf_votes v a)) d;
      adjust_proxied_delta n' p delta d
  | None, _ => adjust_witness_votes i delta d
  end.

Definition adjust_proxied_witness_votes (i : Z) (delta : Z) : chain_state → result chain_state :=
  adjust_proxied_delta HIVE_MAX_PROXY_RECURSION_DEPTH i delta.

Definition nullify_proxied_witness_votes (i : Z) (d : chain_state) : result chain_state :=
  a ← get_account i d;
  direct ← get_direct_governance_vote_power a;
  delta0 ← share_neg direct;
  rest ← mapM share_neg (proxied_vsf_votes a);
  adjust_proxied_witness_votes_array i (delta0 :: rest) d.

Definition clear_witness_votes (i : Z) (d : chain_state) : result chain_state :=
  a ← get_account i d;
  let d := set_witness_votes (filter (λ v, v.1 ≠ name a) (witness_votes d)) d in
  if has_hardfork HIVE_HARDFORK_0_6__104 d
  then modify_account i (λ a, Ok (set_witnesses_voted_for 0 a)) d
  else Ok d.

(** ** Evaluators *)

Definition HIVE_MAX_ACCOUNT_WITNESS_VOTES : Z := 30.
Definition HIVE_GOVERNANCE_VOTE_EXPIRATION_PERIOD : Z := 365 * 24 * 60 * 60.
Definition HIVE_HARDFORK_1_25_TIME : Z := 1625061600.
Definition HARDFORK_1_25_FIRST_GOVERNANCE_VOTE_EXPIRE_TIMESTAMP : Z :=
  HIVE_HARDFORK_1_25_TIME + HIVE_GOVERNANCE_VOTE_EXPIRATION_PERIOD.

(** The sum goes through [time_point], whose seconds are then cut to 32 bits. *)
Definition update_governance_vote_expiration_ts (vote_time : time_point_sec) (a : account_object)
    : account_object :=
  let ts := u32 (vote_time + HIVE_GOVERNANCE_VOTE_EXPIRATION_PERIOD) in
  if ts <? HARDFORK_1_25_FIRST_GOVERNANCE_VOTE_EXPIRE_TIMESTAMP then
    set_governance_vote_expiration_ts
      (u32 (HARDFORK_1_25_FIRST_GOVERNANCE_VOTE_EXPIRE_TIMESTAMP
            + ts mod (HIVE_GOVERNANCE_VOTE_EXPIRATION_PERIOD / 2))) a
  else set_governance_vote_expiration_ts ts a.

Definition set_governance_vote_expired (a : account_object) : account_object :=
  set_governance_vote_expiration_ts time_maximum a.

(** The [while] that looks for loops; the chain grows with every round and is at most
    [HIVE_MAX_PROXY_RECURSION_DEPTH] long. *)
Fixpoint check_proxy_chain (rounds : nat) (proxy_chain : gset Z) (cprox : Z) (d : chain_state)
    : result unit :=
  match rounds with
  | O => Throw undefined_behaviour
  | S rounds =>
      c ← get_account cprox d;
      match proxy c with
      | None => Ok tt
      | Some next =>
          get_account next d ;;
          fc_assert (bool_decide (next ∉ proxy_chain)) "This proxy would create a proxy loop." ;;
          let proxy_chain := {[ next ]} ∪ proxy_chain in
          fc_assert (size proxy_chain <=? HIVE_MAX_PROXY_RECURSION_DEPTH)%nat
            "Proxy chain is too long." ;;
          check_proxy_chain rounds proxy_chain next d
      end
  end.

Definition push_proxy_cleared (i : Z) (d : chain_state) : result chain_state :=
  a ← get_account i d;
  match proxy a with
  | None => Ok d
  | Some p =>
      q ← get_account p d;
      Ok (push_virtual_operation
            (op_proxy_cleared (Build_proxy_cleared_operation (name a) (name q))) d)
  end.

Definition account_witness_proxy_evaluator (o : account_witness_proxy_operation) (d : chain_state)
    : result chain_state :=
  i ← get_account_by_name (account_witness_proxy_account o) d;
  account ← get_account i d;
  fc_assert (can_vote account)
    "Account has declined the ability to vote and cannot proxy votes." ;;
  d ← modify_account i (λ a, Ok (update_governance_vote_expiration_ts (head_block_time d) a)) d;
  d ← nullify_proxied_witness_votes i d;
  if negb (is_clearing_proxy o) then
    new_proxy ← get_account_by_name (account_witness_proxy_proxy o) d;
    account ← get_account i d;
    fc_assert (bool_decide (proxy account ≠ Some new_proxy)) "Proxy must change." ;;
    check_proxy_chain (S HIVE_MAX_PROXY_RECURSION_DEPTH) {[ i; new_proxy ]} new_proxy d ;;
    d ← clear_witness_votes i d;
    d ← push_proxy_cleared i d;
    fc_assert (bool_decide (new_proxy ≠ i)) "&new_proxy != this" ;;
    d ← modify_account i (λ a, Ok (set_proxy (Some new_proxy) a)) d;
    account ← get_account i d;
    delta0 ← get_direct_governance_vote_power account;
    adjust_proxied_witness_votes_array i (delta0 :: proxied_vsf_votes account) d
  else
    account ← get_account i d;
    fc_assert (has_proxy account) "Proxy must change." ;;
    d ← push_proxy_cleared i d;
    modify_account i (λ a, Ok (set_proxy None a)) d.

(** [modify( witness, [&]( witness_object& w ) { w.votes ... } )]. *)
Definition modify_witness_votes (w : string) (f : Z → result Z) (d : chain_state)
    : result chain_state :=
  witness ← get_witness w d;
  v ← f (votes witness);
  Ok (set_witnesses (<[w := WitnessObject v (virtual_last_update witness)
        (virtual_position witness) (virtual_scheduled_time witness)]> (witnesses d)) d).

Definition account_witness_vote_evaluator (o : account_witness_vote_operation) (d : chain_state)
    : result chain_state :=
  i ← get_account_by_name (account_witness_vote_account o) d;
  voter ← get_account i d;
  fc_assert (negb (has_proxy voter))
    "A proxy is currently set, please clear the proxy before voting for a witness." ;;
  fc_assert (can_vote voter) "Account has declined its voting rights." ;;
  d ← modify_account i (λ a, Ok (update_governance_vote_expiration_ts (head_block_time d) a)) d;
  let w := account_witness_vote_witness o in
  get_witness w d ;;
  voter ← get_account i d;
  if decide ((name voter, w) ∉ witness_votes d) then
    fc_assert (account_witness_vote_approve o)
      "Vote doesn't exist, user must indicate a desire to approve witness." ;;
    (if has_hardfork HIVE_HARDFORK_0_2 d then
       fc_assert (witnesses_voted_for voter <? HIVE_MAX_ACCOUNT_WITNESS_VOTES)
         "Account has voted for too many witnesses."
     else Ok tt) ;;
    let d := set_witness_votes ({[ (name voter, w) ]} ∪ witness_votes d) d in
    power ← get_governance_vote_power voter;
    d ← (if has_hardfork HIVE_HARDFORK_0_2 d then
           if has_hardfork HIVE_HARDFORK_0_3 d then adjust_witness_vote w power d
           else adjust_proxied_witness_votes i power d
         else modify_witness_votes w (λ v, share_add v power) d);
    modify_account i (λ a, Ok (set_witnesses_voted_for (u16 (witnesses_voted_for a + 1)) a)) d
  else
    fc_assert (negb (account_witness_vote_approve o))
      "Vote currently exists, user must indicate a desire to reject witness." ;;
    power ← get_governance_vote_power voter;
    d ← (if has_hardfork HIVE_HARDFORK_0_2 d then
           neg ← share_neg power;
           if has_hardfork HIVE_HARDFORK_0_3 d then adjust_witness_vote w neg d
           else adjust_proxied_witness_votes i neg d
         else modify_witness_votes w (λ v, share_sub v power) d);
    d ← modify_account i (λ a, Ok (set_witnesses_voted_for (u16 (witnesses_voted_for a - 1)) a)) d;
    Ok (set_witness_votes (witness_votes d ∖ {[ (name voter, w) ]}) d).

(** ** Expiration of governance votes *)

(** [remove_guard::step]: the new limit and whether the removal may go on. *)
Definition remove_guard_step (limit : Z) : Z * bool :=
  if 0 <? limit then (limit - 1, true) else (limit, negb (limit =? 0)).

Definition proposal_vote_le (a b : string * Z) : Prop := a.2 ≤ b.2.
#[export] Instance proposal_vote_le_dec : RelDecision proposal_vote_le.
Proof. intros a b. unfold proposal_vote_le. apply _. Defined.

Fixpoint remove_votes_while (l : list (string * Z)) (limit : Z) (d : chain_state)
    : chain_state * Z * bool :=
  match l with
  | [] => (d, limit, true)
  | v :: l =>
      let '(limit, ok) := remove_guard_step limit in
      if ok then remove_votes_while l limit (set_proposal_votes (proposal_votes d ∖ {[ v ]}) d)
      else (d, limit, false)
  end.

Definition remove_proposal_votes (voter : string) (limit : Z) (d : chain_state)
    : chain_state * Z * bool :=
  remove_votes_while
    (merge_sort proposal_vote_le (filter (λ v, v.1 = voter) (elements (proposal_votes d)))) limit d.

(** The loop over the accounts whose votes expired, in the order of the index; it stops
    when the limit on removals is reached. *)
Fixpoint expire_accounts (l : list Z) (limit : Z) (d : chain_state) : result chain_state :=
  match l with
  | [] => Ok d
  | i :: l =>
      a ← get_account i d;
      let '(d, limit, ok) := remove_proposal_votes (name a) limit d in
      if ok : bool then
        d ← nullify_proxied_witness_votes i d;
        d ← clear_witness_votes i d;
        d ← push_proxy_cleared i d;
        d ← modify_account i (λ a, Ok (set_governance_vote_expired (set_proxy None a))) d;
        expire_accounts l limit (push_virtual_operation
          (op_expired_account_notification
             (Build_expired_account_notification_operation (name a))) d)
      else Ok d
  end.

(** Order of an index whose key is a time and the id. *)
Definition time_id_le (p q : Z * Z) : Prop := p.1 < q.1 ∨ p.1 = q.1 ∧ p.2 ≤ q.2.
#[export] Instance time_id_le_dec : RelDecision time_id_le.
Proof. intros p q. unfold time_id_le. apply _. Defined.

Definition remove_expired_governance_votes (d : chain_state) : result chain_state :=
  if negb (has_hardfork HIVE_HARDFORK_1_25 d) then Ok d
  else
    let expired := filter (λ p, p.1 ≤ head_block_time d)
      ((λ p, (governance_vote_expiration_ts p.2, p.1)) <$> map_to_list (accounts d)) in
    expire_accounts (snd <$> merge_sort time_id_le expired) (current_remove_threshold d) d.

(** ** Delayed voting *)

Definition add_delayed_value (i : Z) (head_time val : Z) : chain_state → result chain_state :=
  modify_account i (λ a,
    r ← delayed_voting_processor.add (delayed_votes a) (sum_delayed_votes a) head_time val;
    Ok (set_delayed r a)).

Definition erase_delayed_value (i : Z) (val : Z) (d : chain_state) : result chain_state :=
  a ← get_account i d;
  if sum_delayed_votes a =? 0 then Ok d
  else
    modify_account i (λ a,
      r ← delayed_voting_processor.erase (delayed_votes a) (sum_delayed_votes a) val;
      Ok (set_delayed r a)) d.

(** [idx.begin()] of the index by delayed voting. *)
Definition first_delayed (d : chain_state) : option Z :=
  snd <$> head (merge_sort time_id_le
    ((λ p, (get_oldest_delayed_vote_time p.2, p.1)) <$> map_to_list (accounts d))).

(** The [while] of [delayed_voting::run]; every round removes an entry. *)
Fixpoint run_rounds (rounds : nat) (head_time : Z) (d : chain_state) : result chain_state :=
  match rounds with
  | O => Throw undefined_behaviour
  | S rounds =>
      match first_delayed d with
      | None => Ok d
      | Some i =>
          a ← get_account i d;
          if has_delayed_votes a &&
             (time_add (get_oldest_delayed_vote_time a) HIVE_DELAYED_VOTING_TOTAL_INTERVAL_SECONDS
              <=? head_time)
          then
            val ← from_option_or undefined_behaviour (dv_val <$> head (delayed_votes a));
            let d := push_virtual_operation
              (op_delayed_voting (Build_delayed_voting_operation (name a) val)) d in
            d ← adjust_proxied_witness_votes i (i64 val) d;
            d ← modify_account i (λ a,
                  r ← delayed_voting_processor.erase_front (delayed_votes a) (sum_delayed_votes a);
                  Ok (set_delayed r a)) d;
            run_rounds rounds head_time d
          else Ok d
      end
  end.

Definition delayed_entries (d : chain_state) : nat :=
  sum_list_with (λ p, length (delayed_votes p.2)) (map_to_list (accounts d)).

Definition delayed_voting_run (head_time : Z) (d : chain_state) : result chain_state :=
  run_rounds (S (delayed_entries d)) head_time d.
