(* ===== verification/GovernanceBooks.v ===== *)
(** * The books of governance votes

    The invariant of the state of [Governance] and the theorems on its operations.  An
    adjustment is a linear update of levels and votes ([adjusted]); the three ways the
    chain uses it are a change of power, leaving a proxy and taking one, each of which
    leads from the books of one tree of proxies to the books of another. *)

From S2P Require Import Prelude Safe OperationTypes Operations DelayedVotes Account ProxyTree.
From S2P Require Import Governance.
Open Scope Z_scope.

(** ** Linear updates *)

(** Add [f m] to level [m]. *)
Definition shift_levels (f : nat → Z) (a : account_object) : account_object :=
  set_proxied_vsf_votes (imap (λ m v, v + f m) (proxied_vsf_votes a)) a.

(** [d'] is [d] with [fa q m] added to level [m] of account [q] and [fw w] to the votes of
    witness [w] (whose schedule is recomputed). *)
Record adjusted (fa : Z → nat → Z) (fw : string → Z) (d d' : chain_state) : Prop := {
  adj_accounts : ∀ q, accounts d' !! q = shift_levels (fa q) <$> accounts d !! q;
  adj_votes : ∀ w, votes <$> witnesses d' !! w = (λ x, votes x + fw w) <$> witnesses d !! w;
  adj_rest :
    witness_votes d' = witness_votes d ∧ proposal_votes d' = proposal_votes d ∧
    total_vesting_shares d' = total_vesting_shares d ∧ head_block_time d' = head_block_time d ∧
    current_remove_threshold d' = current_remove_threshold d ∧
    processed_hardforks d' = processed_hardforks d ∧ virtual_ops d' = virtual_ops d
}.

Lemma shift_levels_0 f a : (∀ m, f m = 0) → shift_levels f a = a.
Proof.
  intros Hf. unfold shift_levels.
  assert (imap (λ m v, v + f m) (proxied_vsf_votes a) = proxied_vsf_votes a) as ->; [|by destruct a].
  apply list_eq. intros m. rewrite list_lookup_imap.
  destruct (proxied_vsf_votes a !! m); simpl; [|done]. f_equal. rewrite Hf. lia.
Qed.

Lemma shift_levels_add f g a :
  shift_levels g (shift_levels f a) = shift_levels (λ m, f m + g m) a.
Proof.
  unfold shift_levels, set_proxied_vsf_votes; simpl. f_equal.
  apply list_eq. intros m. rewrite !list_lookup_imap.
  destruct (proxied_vsf_votes a !! m); simpl; [|done]. f_equal. lia.
Qed.

Lemma adjusted_refl fa fw d : (∀ q m, fa q m = 0) → (∀ w, fw w = 0) → adjusted fa fw d d.
Proof.
  intros Ha Hw. split; [| |done].
  - intros q. destruct (accounts d !! q); simpl; [|done]. by rewrite shift_levels_0.
  - intros w. destruct (witnesses d !! w); simpl; [|done]. f_equal. rewrite Hw. lia.
Qed.

Lemma adjusted_trans fa fw ga gw d1 d2 d3 :
  adjusted fa fw d1 d2 → adjusted ga gw d2 d3 →
  adjusted (λ q m, fa q m + ga q m) (λ w, fw w + gw w) d1 d3.
Proof.
  intros [A1 W1 R1] [A2 W2 R2]. split; [| |naive_solver congruence].
  - intros q. rewrite A2, A1. destruct (accounts d1 !! q); simpl; [|done].
    by rewrite shift_levels_add.
  - intros w. rewrite W2. specialize (W1 w).
    destruct (witnesses d1 !! w), (witnesses d2 !! w); simplify_eq/=; [|done]. f_equal. lia.
Qed.

Lemma adjusted_ext fa fw ga gw d d' :
  adjusted fa fw d d' → (∀ q m, fa q m = ga q m) → (∀ w, fw w = gw w) → adjusted ga gw d d'.
Proof.
  intros [A W R] Ha Hw. split; [| |done].
  - intros q. rewrite A. destruct (accounts d !! q); simpl; [|done]. f_equal.
    unfold shift_levels. f_equal. apply imap_ext. intros. by rewrite Ha.
  - intros w. rewrite W, Hw. done.
Qed.

(** ** What adjustments do not change *)

Definition proxies (m : gmap Z account_object) : gmap Z Z := omap proxy m.
Definition direct (a : account_object) : Z := vesting_shares a - sum_delayed_votes a.
Definition powers (m : gmap Z account_object) : gmap Z Z := direct <$> m.

Definition votes_for (m : gmap Z account_object) (W : gset (string * string)) (w : string) (x : Z)
    : Prop :=
  match m !! x with Some a => (name a, w) ∈ W | None => False end.
#[export] Instance votes_for_dec m W w x : Decision (votes_for m W w x).
Proof. unfold votes_for. destruct (m !! x); apply _. Defined.

Section adjusted_keeps.
Context fa fw d d' (H : adjusted fa fw d d').

Lemma adjusted_proxies : proxies (accounts d') = proxies (accounts d).
Proof.
  apply map_eq. intros q. unfold proxies. rewrite !lookup_omap, (adj_accounts _ _ _ _ H).
  by destruct (accounts d !! q).
Qed.

Lemma adjusted_powers : powers (accounts d') = powers (accounts d).
Proof.
  apply map_eq. intros q. unfold powers. rewrite !lookup_fmap, (adj_accounts _ _ _ _ H).
  by destruct (accounts d !! q).
Qed.

Lemma adjusted_votes_for W w x : votes_for (accounts d') W w x ↔ votes_for (accounts d) W w x.
Proof.
  unfold votes_for. rewrite (adj_accounts _ _ _ _ H). by destruct (accounts d !! x).
Qed.

Lemma adjusted_account q a : accounts d !! q = Some a →
  accounts d' !! q = Some (shift_levels (fa q) a).
Proof. intros Hq. by rewrite (adj_accounts _ _ _ _ H), Hq. Qed.

Lemma adjusted_account_inv q a' : accounts d' !! q = Some a' →
  ∃ a, accounts d !! q = Some a ∧ a' = shift_levels (fa q) a.
Proof.
  rewrite (adj_accounts _ _ _ _ H). destruct (accounts d !! q); simpl; naive_solver.
Qed.

End adjusted_keeps.

(** ** Adjusting witnesses *)

Lemma set_witness_adjusted w wo wo' δ d :
  witnesses d !! w = Some wo → votes wo' = votes wo + δ →
  adjusted (λ _ _, 0) (λ x, bz (x = w) * δ) d (set_witnesses (<[w := wo']> (witnesses d)) d).
Proof.
  intros Hw Hv. split; [| |done].
  - intros q. simpl. destruct (accounts d !! q); simpl; [|done]. by rewrite shift_levels_0.
  - intros x. simpl. destruct (decide (x = w)) as [->|Hne].
    + rewrite lookup_insert_eq, bz_true by done. rewrite Hw. simpl. f_equal. lia.
    + rewrite lookup_insert_ne, bz_false by done. destruct (witnesses d !! x); simpl; [|done].
      f_equal. lia.
Qed.

Lemma adjust_witness_vote_exact w δ d wo :
  witnesses d !! w = Some wo → 0 ≤ votes wo + δ ≤ total_vesting_shares d →
  total_vesting_shares d < i64_max →
  ∃ d', adjust_witness_vote w δ d = Ok d' ∧
        adjusted (λ _ _, 0) (λ x, bz (x = w) * δ) d d'.
Proof.
  intros Hw Hv Ht. unfold adjust_witness_vote, get_witness. rewrite Hw.
  cbn [from_option_or mbind result_bind]. cbv zeta.
  rewrite share_add_in by (unfold i64_min; lia). cbn [mbind result_bind].
  unfold fc_assert. rewrite (proj2 (Z.leb_le _ (total_vesting_shares d))) by lia.
  cbn [mbind result_bind]. unfold signed64. rewrite (proj2 (in_i64_spec _)) by (unfold i64_min; lia).
  cbn [mbind result_bind]. unfold udiv.
  rewrite (u128_id (votes wo + δ + 1)) by (unfold u128_max, i64_max in *; lia).
  rewrite (proj2 (Z.eqb_neq _ _)) by lia. cbn [mbind result_bind].
  eexists; split; [done|]. by eapply set_witness_adjusted.
Qed.

Lemma adjust_witnesses_exact l δ d :
  NoDup l → total_vesting_shares d < i64_max →
  (∀ w, w ∈ l → ∃ wo, witnesses d !! w = Some wo ∧ 0 ≤ votes wo + δ ≤ total_vesting_shares d) →
  ∃ d', foldM (λ d w, adjust_witness_vote w δ d) d l = Ok d' ∧
        adjusted (λ _ _, 0) (λ x, bz (x ∈ l) * δ) d d'.
Proof.
  intros Hl. revert d; induction Hl as [|w l Hw Hl IH]; intros d Ht Hok.
  { exists d. split; [done|]. apply adjusted_refl; [done|]. intros w.
    rewrite bz_false by (by apply not_elem_of_nil). lia. }
  destruct (Hok w ltac:(by left)) as (wo & Hwo & Hv).
  destruct (adjust_witness_vote_exact w δ d wo Hwo Hv Ht) as (d1 & H1 & A1).
  pose proof (adj_rest _ _ _ _ A1) as (_ & _ & Et & _).
  destruct (IH d1) as (d2 & H2 & A2); [lia| |].
  { intros x Hx. destruct (Hok x ltac:(by right)) as (xo & Hxo & Hxv).
    pose proof (adj_votes _ _ _ _ A1 x) as E. rewrite Hxo in E. simpl in E.
    destruct (witnesses d1 !! x) as [yo|]; simplify_eq/=. exists yo. split; [done|].
    rewrite bz_false in E by (intros ->; done). lia. }
  exists d2. simpl. rewrite H1. split; [done|].
  apply (adjusted_ext _ _ _ _ _ _ (adjusted_trans _ _ _ _ _ _ _ A1 A2)); [done|].
  intros x. destruct (decide (x = w)) as [->|Hne].
  - rewrite (bz_true (w = w)), (bz_false (w ∈ l)), (bz_true (w ∈ w :: l)) by (done || left). lia.
  - rewrite (bz_false (x = w)) by done. rewrite (bz_iff (x ∈ w :: l) (x ∈ l)); [lia|].
    rewrite elem_of_cons. naive_solver.
Qed.

Lemma voted_witnesses_NoDup n d : NoDup (voted_witnesses n d).
Proof.
  unfold voted_witnesses. rewrite merge_sort_Permutation. apply NoDup_fmap_2_strong.
  - intros [a b] [a' b'] [Ha _]%list_elem_of_filter [Ha' _]%list_elem_of_filter Heq.
    simpl in *. by subst.
  - apply NoDup_filter, NoDup_elements.
Qed.

Lemma elem_of_voted_witnesses n w d : w ∈ voted_witnesses n d ↔ (n, w) ∈ witness_votes d.
Proof.
  unfold voted_witnesses. rewrite merge_sort_Permutation, list_elem_of_fmap. split.
  - intros ([a b] & -> & [Ha Hin]%list_elem_of_filter). simpl in *. subst a.
    by apply elem_of_elements in Hin.
  - intros Hin. exists (n, w). split; [done|]. apply list_elem_of_filter. split; [done|].
    by apply elem_of_elements.
Qed.

Lemma adjust_witness_votes_exact i a δ d :
  accounts d !! i = Some a → total_vesting_shares d < i64_max →
  (∀ w, (name a, w) ∈ witness_votes d →
     ∃ wo, witnesses d !! w = Some wo ∧ 0 ≤ votes wo + δ ≤ total_vesting_shares d) →
  ∃ d', adjust_witness_votes i δ d = Ok d' ∧
    adjusted (λ _ _, 0) (λ w, bz (votes_for (accounts d) (witness_votes d) w i) * δ) d d'.
Proof.
  intros Hi Ht Hok.
  destruct (adjust_witnesses_exact (voted_witnesses (name a) d) δ d) as (d' & Hd & A).
  - apply voted_witnesses_NoDup.
  - done.
  - intros w Hw%elem_of_voted_witnesses. by apply Hok.
  - exists d'. split; [unfold adjust_witness_votes, get_account; by rewrite Hi|].
    apply (adjusted_ext _ _ _ _ _ _ A); [done|]. intros w. f_equal. apply bz_iff.
    rewrite elem_of_voted_witnesses. unfold votes_for. by rewrite Hi.
Qed.

(** ** Adjusting levels *)

(** [delta] pushed [s] levels up, read at level [m]. *)
Definition shifted (delta : list Z) (s m : nat) : Z :=
  if (s <=? m)%nat then default 0 (delta !! (m - s)%nat) else 0.

Lemma add_levels_exact n delta a :
  (1 ≤ n ≤ 4)%nat → length (proxied_vsf_votes a) = 4%nat → length delta = 5%nat →
  (∀ m v, proxied_vsf_votes a !! m = Some v →
     i64_min ≤ v + shifted delta (4 - n) m ≤ i64_max) →
  add_levels n (4 - n) delta a = Ok (shift_levels (shifted delta (4 - n)) a).
Proof.
  intros Hn Hv Hd Hr. unfold add_levels, shift_levels.
  destruct (proxied_vsf_votes a) as [|v0 [|v1 [|v2 [|v3 []]]]]; try done.
  destruct delta as [|x0 [|x1 [|x2 [|x3 [|x4 []]]]]]; try done. clear Hv Hd.
  pose proof (Hr 0%nat v0 eq_refl) as H0. pose proof (Hr 1%nat v1 eq_refl) as H1.
  pose proof (Hr 2%nat v2 eq_refl) as H2. pose proof (Hr 3%nat v3 eq_refl) as H3. clear Hr.
  destruct n as [|[|[|[|[|]]]]]; try lia; unfold shifted in *; simpl in *; unfold add_at; simpl;
    repeat (rewrite share_add_in by lia; simpl); unfold set_proxied_vsf_votes; simpl;
    rewrite ?Z.add_0_r; done.
Qed.

Section levels.
Context (P : gmap Z Z) (delta : list Z).

(** What an adjustment of [i] adds to level [m] of account [q]. *)
Fixpoint lvl_add (n : nat) (i q : Z) (m : nat) : Z :=
  match P !! i, n with
  | Some p, S n' => bz (p = q) * shifted delta (4 - n) m + lvl_add n' p q m
  | _, _ => 0
  end.

(** What it adds to the votes of a witness with the voters [V]. *)
Fixpoint root_add (V : Z → Prop) `{∀ x, Decision (V x)} (n : nat) (i : Z) : Z :=
  match P !! i, n with
  | Some p, S n' => root_add V n' p
  | Some _, O => 0
  | None, _ => bz (V i) * sumZ (take (S n) delta)
  end.

Lemma root_add_ext V V' `{∀ x, Decision (V x), ∀ x, Decision (V' x)} n i :
  (∀ x, V x ↔ V' x) → root_add V n i = root_add V' n i.
Proof.
  intros HV. revert i; induction n as [|n IH]; intros i; simpl; destruct (P !! i); try done;
    by rewrite (bz_iff (V i) (V' i)) by done.
Qed.

Lemma lvl_add_closed n i q m : (n ≤ 4)%nat →
  lvl_add n i q m
  = sumZ ((λ t, bz (anc P (S t) i = Some q) * shifted delta (4 - n + t) m) <$> seq 0 n).
Proof.
  revert i; induction n as [|n IH]; intros i Hn; simpl.
  { by destruct (P !! i). }
  rewrite <- fmap_S_seq, <- list_fmap_compose.
  destruct (P !! i) as [p|] eqn:Hi.
  - rewrite IH by lia. change (sumZ (?x :: ?l)) with (x + sumZ l). f_equal.
    + rewrite Nat.add_0_r. f_equal. apply bz_iff. simpl. naive_solver.
    + apply sumZ_ext. intros t _. unfold compose. simpl.
      by replace (3 - n + S t)%nat with (4 - n + t)%nat by lia.
  - rewrite (bz_false (None ≫= _ = Some q)) by done.
    change (0 = 0 * shifted delta (3 - n + 0) m
      + sumZ (((λ t, bz ((None : option Z) ≫= anc P t = Some q) * shifted delta (3 - n + t) m) ∘ S)
              <$> seq 0 n)).
    rewrite sumZ_zero; [lia|]. intros t _. unfold compose. by rewrite bz_false.
Qed.

Lemma lvl_add_none n i q m : (n ≤ 4)%nat → (∀ t, anc P (S t) i ≠ Some q) → lvl_add n i q m = 0.
Proof.
  intros Hn Hno. rewrite lvl_add_closed by done. apply sumZ_zero. intros t _.
  by rewrite bz_false by apply Hno.
Qed.

End levels.

(** The deltas of an adjustment have one sign. *)
Definition one_signed (delta : list Z) : Prop :=
  (Forall (λ x, 0 ≤ x) delta ∨ Forall (λ x, x ≤ 0) delta) ∧ - i64_max ≤ sumZ delta ≤ i64_max.

Lemma sumZ_nonpos l : Forall (λ x, x ≤ 0) l → sumZ l ≤ 0.
Proof. induction 1; [done|]. rewrite sumZ_cons. lia. Qed.

Lemma sumZ_reverse l : sumZ (reverse l) = sumZ l.
Proof.
  induction l as [|x l IH]; [done|]. rewrite reverse_cons, sumZ_app, IH, sumZ_cons.
  unfold sumZ at 2. simpl. lia.
Qed.

Lemma foldM_share_add_pos l acc : Forall (λ x, 0 ≤ x) l → 0 ≤ acc → acc + sumZ l ≤ i64_max →
  foldM share_add acc l = Ok (acc + sumZ l).
Proof.
  intros Hl. revert acc; induction Hl as [|x l Hx Hl IH]; intros acc Ha Hr.
  { simpl. unfold sumZ. simpl. by rewrite Z.add_0_r. }
  rewrite sumZ_cons in *. pose proof (sumZ_nonneg l Hl). simpl.
  rewrite share_add_in by (unfold i64_min; lia). cbn [mbind result_bind].
  rewrite IH by lia. f_equal. lia.
Qed.

Lemma foldM_share_add_neg l acc : Forall (λ x, x ≤ 0) l → acc ≤ 0 → i64_min ≤ acc + sumZ l →
  foldM share_add acc l = Ok (acc + sumZ l).
Proof.
  intros Hl. revert acc; induction Hl as [|x l Hx Hl IH]; intros acc Ha Hr.
  { simpl. unfold sumZ. simpl. by rewrite Z.add_0_r. }
  rewrite sumZ_cons in *. pose proof (sumZ_nonpos l Hl). simpl.
  rewrite share_add_in by (unfold i64_max; lia). cbn [mbind result_bind].
  rewrite IH by lia. f_equal. lia.
Qed.

Lemma total_delta_exact delta n : one_signed delta →
  foldM share_add 0 (reverse (take n delta)) = Ok (sumZ (take n delta)).
Proof.
  intros [Hs Hr]. rewrite <- (Z.add_0_l (sumZ (take n delta))), <- sumZ_reverse.
  pose proof (sumZ_app (take n delta) (drop n delta)) as E. rewrite take_drop in E.
  destruct Hs as [Hs|Hs]; [apply foldM_share_add_pos|apply foldM_share_add_neg];
    try done; try (by apply Forall_reverse, Forall_take); rewrite sumZ_reverse.
  - pose proof (sumZ_nonneg (drop n delta) ltac:(by apply Forall_drop)). lia.
  - pose proof (sumZ_nonpos (drop n delta) ltac:(by apply Forall_drop)).
    unfold i64_min, i64_max in *. lia.
Qed.

(** ** The adjustment along the proxies *)

(** What an adjustment needs of the state. *)
Record adjustable (d : chain_state) : Prop := {
  ok_levels : ∀ q a, accounts d !! q = Some a → length (proxied_vsf_votes a) = 4%nat;
  ok_closed : ∀ x p, proxies (accounts d) !! x = Some p → is_Some (accounts d !! p);
  ok_acyclic : acyclic (proxies (accounts d));
  ok_voted : ∀ n w, (n, w) ∈ witness_votes d → is_Some (witnesses d !! w);
  ok_total : total_vesting_shares d < i64_max
}.

Lemma shift_levels_length f a :
  length (proxied_vsf_votes (shift_levels f a)) = length (proxied_vsf_votes a).
Proof. simpl. apply length_imap. Qed.

Lemma adjusted_adjustable fa fw d d' : adjusted fa fw d d' → adjustable d → adjustable d'.
Proof.
  intros H [Hl Hc Ha Hv Ht]. pose proof (adj_rest _ _ _ _ H) as (EW & _ & Et & _). split.
  - intros q a' Hq. destruct (adjusted_account_inv _ _ _ _ H q a' Hq) as (a & Hqa & ->).
    rewrite shift_levels_length. eauto.
  - intros x p Hx. rewrite (adjusted_proxies _ _ _ _ H) in Hx.
    destruct (Hc x p Hx) as [a Hp]. rewrite (adjusted_account _ _ _ _ H p a Hp). eauto.
  - by rewrite (adjusted_proxies _ _ _ _ H).
  - intros n w. rewrite EW. intros [wo Hw]%Hv. pose proof (adj_votes _ _ _ _ H w) as E.
    rewrite Hw in E. destruct (witnesses d' !! w); [eauto|done].
  - lia.
Qed.

(** [modify( proxy, ... )] is a linear update. *)
Lemma set_account_adjusted p a f d : accounts d !! p = Some a →
  adjusted (λ q m, bz (p = q) * f m) (λ _, 0) d
    (set_accounts (<[p := shift_levels f a]> (accounts d)) d).
Proof.
  intros Hp. split; [| |done].
  - intros q. simpl. destruct (decide (p = q)) as [<-|Hne].
    + rewrite lookup_insert_eq, Hp. simpl. f_equal. unfold shift_levels. f_equal.
      apply imap_ext. intros m v _. rewrite bz_true by done. simpl. lia.
    + rewrite lookup_insert_ne by done. destruct (accounts d !! q); simpl; [|done].
      rewrite shift_levels_0; [done|]. intros m. rewrite bz_false by done. lia.
  - intros w. simpl. destruct (witnesses d !! w); simpl; [|done]. f_equal. lia.
Qed.

Lemma lookup_proxies d i a : accounts d !! i = Some a → proxies (accounts d) !! i = proxy a.
Proof. intros Hi. unfold proxies. by rewrite lookup_omap, Hi. Qed.

Lemma adjust_at_root delta n i a d :
  adjustable d → one_signed delta → accounts d !! i = Some a → proxy a = None →
  (∀ w wo, witnesses d !! w = Some wo →
     0 ≤ votes wo + root_add (proxies (accounts d)) delta
                      (votes_for (accounts d) (witness_votes d) w) n i ≤ total_vesting_shares d) →
  ∃ d', adjust_proxied_levels n i delta d = Ok d' ∧
    adjusted (lvl_add (proxies (accounts d)) delta n i)
      (λ w, root_add (proxies (accounts d)) delta
              (votes_for (accounts d) (witness_votes d) w) n i) d d'.
Proof.
  intros Hok Hs Hi Hp Hwit. pose proof (lookup_proxies d i a Hi) as HP. rewrite Hp in HP.
  assert (∀ w, root_add (proxies (accounts d)) delta
    (votes_for (accounts d) (witness_votes d) w) n i
    = bz (votes_for (accounts d) (witness_votes d) w i) * sumZ (take (S n) delta)) as Hroot.
  { intros w. by destruct n; simpl; rewrite HP. }
  destruct (adjust_witness_votes_exact i a (sumZ (take (S n) delta)) d Hi (ok_total _ Hok))
    as (d' & Hd & A).
  { intros w Hw. destruct (ok_voted _ Hok _ _ Hw) as [wo Hwo]. exists wo. split; [done|].
    specialize (Hwit w wo Hwo). rewrite Hroot, bz_true in Hwit; [lia|].
    unfold votes_for. by rewrite Hi. }
  exists d'. split.
  - destruct n; simpl; unfold get_account; rewrite Hi; cbn [from_option_or mbind result_bind];
      rewrite Hp, total_delta_exact by done; exact Hd.
  - apply (adjusted_ext _ _ _ _ _ _ A); [|done]. intros q m. by destruct n; simpl; rewrite HP.
Qed.

Lemma adjust_levels_exact delta n i d :
  (n ≤ 4)%nat → adjustable d → length delta = 5%nat → one_signed delta →
  is_Some (accounts d !! i) →
  (∀ q a m v, accounts d !! q = Some a → proxied_vsf_votes a !! m = Some v →
     i64_min ≤ v + lvl_add (proxies (accounts d)) delta n i q m ≤ i64_max) →
  (∀ w wo, witnesses d !! w = Some wo →
     0 ≤ votes wo + root_add (proxies (accounts d)) delta
                      (votes_for (accounts d) (witness_votes d) w) n i ≤ total_vesting_shares d) →
  ∃ d', adjust_proxied_levels n i delta d = Ok d' ∧
    adjusted (lvl_add (proxies (accounts d)) delta n i)
      (λ w, root_add (proxies (accounts d)) delta
              (votes_for (accounts d) (witness_votes d) w) n i) d d'.
Proof.
  revert i d; induction n as [|n IH]; intros i d Hn Hok Hlen Hs [a Hi] Hlev Hwit;
    (destruct (proxy a) as [p|] eqn:Hp; [|by eapply adjust_at_root]);
    pose proof (lookup_proxies d i a Hi) as HP; rewrite Hp in HP.
  - exists d. simpl. unfold get_account. rewrite Hi. simpl. rewrite Hp. split; [done|].
    apply adjusted_refl; intros; by rewrite HP.
  - destruct (ok_closed _ Hok i p HP) as [b Hb].
    set (P := proxies (accounts d)) in *. set (d1 := set_accounts
      (<[p := shift_levels (shifted delta (4 - S n)) b]> (accounts d)) d).
    assert (adjusted (λ q m, bz (p = q) * shifted delta (4 - S n) m) (λ _, 0) d d1) as A1
      by (by apply set_account_adjusted).
    pose proof (adjusted_proxies _ _ _ _ A1) as EP. fold P in EP.
    assert (∀ w, root_add P delta (votes_for (accounts d1) (witness_votes d1) w) n p
      = root_add P delta (votes_for (accounts d) (witness_votes d) w) n p) as Hroot.
    { intros w. apply root_add_ext. intros x. by apply (adjusted_votes_for _ _ _ _ A1). }
    destruct (IH p d1) as (d2 & H2 & A2); try done; try lia.
    + by apply (adjusted_adjustable _ _ _ _ A1).
    + rewrite (adjusted_account _ _ _ _ A1 p b Hb). eauto.
    + intros q a' m v Hq Hv. destruct (adjusted_account_inv _ _ _ _ A1 q a' Hq) as (a0 & Ha0 & ->).
      simpl in Hv. rewrite list_lookup_imap in Hv.
      destruct (proxied_vsf_votes a0 !! m) as [v0|] eqn:Hv0; simplify_eq/=.
      specialize (Hlev q a0 m v0 Ha0 Hv0). simpl in Hlev. rewrite HP in Hlev. rewrite EP. lia.
    + intros w wo Hw. specialize (Hwit w wo Hw). simpl in Hwit. rewrite HP in Hwit.
      rewrite EP, Hroot. done.
    + exists d2. split.
      * simpl. unfold get_account, modify_account. rewrite Hi. cbn [from_option_or mbind result_bind].
        rewrite Hp. unfold get_account. rewrite Hb. cbn [from_option_or mbind result_bind].
        rewrite (add_levels_exact (S n)); [exact H2|lia|by eapply ok_levels|done|].
        intros m v Hv. specialize (Hlev p b m v Hb Hv). simpl in Hlev. rewrite HP in Hlev.
        rewrite bz_true, (lvl_add_none P) in Hlev by (done || lia || (intros t; apply ok_acyclic, Hok)).
        change (4 - S n)%nat with (3 - n)%nat. lia.
      * rewrite EP in A2. apply (adjusted_ext _ _ _ _ _ _ (adjusted_trans _ _ _ _ _ _ _ A1 A2)).
        -- intros q m. simpl. by rewrite HP.
        -- intros w. simpl. rewrite HP, Hroot. lia.
Qed.

(** ** One delta *)

(** The scalar variant is the array variant with a single non-zero entry. *)
Definition single (δ : Z) : list Z := [δ; 0; 0; 0; 0].

Definition typed_levels (d : chain_state) : Prop :=
  ∀ q a, accounts d !! q = Some a →
    length (proxied_vsf_votes a) = 4%nat ∧
    Forall (λ v, i64_min ≤ v ≤ i64_max) (proxied_vsf_votes a).

Lemma add_levels_single n δ a :
  (1 ≤ n ≤ 4)%nat → length (proxied_vsf_votes a) = 4%nat →
  Forall (λ v, i64_min ≤ v ≤ i64_max) (proxied_vsf_votes a) →
  add_levels n (4 - n) (single δ) a
  = (v ← add_at (proxied_vsf_votes a) (4 - n) δ; Ok (set_proxied_vsf_votes v a)).
Proof.
  intros Hn Hv Hr. unfold add_levels.
  destruct (proxied_vsf_votes a) as [|v0 [|v1 [|v2 [|v3 []]]]]; try done.
  rewrite !Forall_cons in Hr. destruct Hr as (H0 & H1 & H2 & H3 & _).
  destruct n as [|[|[|[|[|]]]]]; try lia; unfold add_at; simpl; unfold add_at; simpl;
    repeat (rewrite (share_add_in _ 0) by lia; simpl); rewrite ?Z.add_0_r;
    match goal with |- context [share_add ?x ?y] => by destruct (share_add x y) end.
Qed.

Lemma add_at_typed v k x v' : i64_min ≤ x ≤ i64_max →
  length v = 4%nat → Forall (λ v, i64_min ≤ v ≤ i64_max) v → add_at v k x = Ok v' →
  length v' = 4%nat ∧ Forall (λ v, i64_min ≤ v ≤ i64_max) v'.
Proof.
  intros Hx Hl Hv H. unfold add_at in H. ok_inv H.
  apply from_option_or_Ok in Ha. rewrite length_insert. split; [done|].
  apply Forall_insert; [done|]. pose proof (Forall_lookup_1 _ _ _ _ Hv Ha) as Ho.
  apply (safe_add_Ok int64_limits) in Ha0 as [-> Hr]; [exact Hr|exact Ho|exact Hx].
Qed.

Lemma single_total δ k : sumZ (take (S k) (single δ)) = δ.
Proof. destruct k as [|[|[|[|[|k]]]]]; unfold sumZ; simpl; rewrite ?take_nil; simpl; lia. Qed.

Lemma single_signed δ : - i64_max ≤ δ ≤ i64_max → one_signed (single δ).
Proof.
  intros Hδ. pose proof (single_total δ 4) as E. change (take 5 (single δ)) with (single δ) in E.
  split; [|lia]. destruct (Z.le_gt_cases 0 δ); [left|right]; repeat constructor; lia.
Qed.

Lemma adjust_delta_levels n i δ d : (n ≤ 4)%nat → - i64_max ≤ δ ≤ i64_max → typed_levels d →
  adjust_proxied_delta n i δ d = adjust_proxied_levels n i (single δ) d.
Proof.
  intros Hn Hδ. assert (∀ k, foldM share_add 0 (reverse (take (S k) (single δ))) = Ok δ) as Htot.
  { intros k. rewrite total_delta_exact, single_total by (by apply single_signed). done. }
  revert i d Hn; induction n as [|n IH]; intros i d Hn Ht;
    cbn [adjust_proxied_delta adjust_proxied_levels];
    (destruct (get_account i d) as [a|]; cbn [mbind result_bind]; [|done]);
    (destruct (proxy a) as [p|]; [|by rewrite Htot]).
  - done.
  - change (HIVE_MAX_PROXY_RECURSION_DEPTH) with 4%nat.
    unfold modify_account, get_account. destruct (accounts d !! p) as [b|] eqn:Hb; simpl; [|done].
    destruct (Ht p b Hb) as [Hl Hr]. rewrite (add_levels_single (S n)) by (done || lia).
    change (4 - S n)%nat with (3 - n)%nat.
    destruct (add_at (proxied_vsf_votes b) (3 - n) δ) as [v|] eqn:Hadd; simpl; [|done].
    apply IH; [lia|]. intros q c Hq. simpl in Hq. destruct (decide (p = q)) as [<-|Hne].
    + rewrite lookup_insert_eq in Hq. simplify_eq/=. eapply add_at_typed; [|done..].
      unfold i64_min, i64_max in *; lia.
    + rewrite lookup_insert_ne in Hq by done. by apply Ht in Hq.
Qed.

(** ** The books of a tree *)

Section books.
Context (P pows : gmap Z Z) (V : string → Z → Prop) `{∀ w x, Decision (V w x)}.

(** The votes a witness should have. *)
Definition tally (w : string) : Z :=
  map_sum (λ x _, bz (V w x) * reach 4 P pows x) pows.

(** Levels and votes agree with the tree [P], the powers [pows] and the voters [V]. *)
Record books (d : chain_state) : Prop := {
  bk_levels : ∀ x a, accounts d !! x = Some a →
    proxied_vsf_votes a = (λ m, subtree P pows (S m) x) <$> seq 0 4;
  bk_votes : ∀ w wo, witnesses d !! w = Some wo → votes wo = tally w
}.

(** A tree the chain can be in: no negative power, no more than [total] of it, and voters
    are roots. *)
Record sound_tree (total : Z) : Prop := {
  st_nonneg : ∀ x v, pows !! x = Some v → 0 ≤ v;
  st_total : map_sum (λ _ v, v) pows ≤ total;
  st_roots : ∀ w x, V w x → P !! x = None
}.

Lemma sound_level total k q : sound_tree total → 0 ≤ subtree P pows k q ≤ total.
Proof.
  intros [Hn Ht _]. pose proof (subtree_le P pows k q Hn).
  pose proof (subtree_nonneg P pows k q Hn). lia.
Qed.

Lemma sound_tally total w : sound_tree total → 0 ≤ tally w ≤ total.
Proof.
  intros [Hn Ht Hr]. pose proof (reach_bound 4 P pows (V w) (Hr w) Hn). unfold tally. lia.
Qed.

End books.

(** An adjustment from the books of one tree to those of another: it is enough to compare
    what it adds with the difference of the trees. *)
Lemma adjust_books P1 pows1 V1 P2 pows2 V2
    `{∀ w x, Decision (V1 w x), ∀ w x, Decision (V2 w x)} delta i d :
  books P1 pows1 V1 d → adjustable d → is_Some (accounts d !! i) →
  length delta = 5%nat → one_signed delta → sound_tree P2 pows2 V2 (total_vesting_shares d) →
  (∀ q m, (m < 4)%nat → subtree P2 pows2 (S m) q
     = subtree P1 pows1 (S m) q + lvl_add (proxies (accounts d)) delta 4 i q m) →
  (∀ w, tally P2 pows2 V2 w = tally P1 pows1 V1 w
     + root_add (proxies (accounts d)) delta (votes_for (accounts d) (witness_votes d) w) 4 i) →
  ∃ d', adjust_proxied_witness_votes_array i delta d = Ok d' ∧ books P2 pows2 V2 d' ∧
    adjusted (lvl_add (proxies (accounts d)) delta 4 i)
      (λ w, root_add (proxies (accounts d)) delta
              (votes_for (accounts d) (witness_votes d) w) 4 i) d d'.
Proof.
  intros [Hlev Hvot] Hok Hi Hlen Hs Hsound Hl Hv. pose proof (ok_total _ Hok) as Ht.
  destruct (adjust_levels_exact delta 4 i d) as (d' & Hd & A); try done.
  - intros q a m v Hq Hm. rewrite (Hlev q a Hq) in Hm.
    apply list_lookup_fmap_Some in Hm as (k & -> & [-> Hk]%lookup_seq).
    rewrite Nat.add_0_l, <- Hl by lia.
    pose proof (sound_level _ _ _ _ (S m) q Hsound). unfold i64_min. lia.
  - intros w wo Hw. rewrite (Hvot w wo Hw), <- Hv. by apply sound_tally.
  - exists d'. split; [done|]. split; [|done]. split.
    + intros x a' Hx. destruct (adjusted_account_inv _ _ _ _ A x a' Hx) as (a & Ha & ->).
      simpl proxied_vsf_votes. rewrite (Hlev x a Ha). apply list_eq. intros m.
      rewrite list_lookup_imap, !list_lookup_fmap.
      destruct (seq 0 4 !! m) as [k|] eqn:Hk; [|done]. apply lookup_seq in Hk as [-> Hk].
      simpl fmap. rewrite Hl by lia. done.
    + intros w wo' Hw. pose proof (adj_votes _ _ _ _ A w) as E. rewrite Hw in E.
      destruct (witnesses d !! w) as [wo|] eqn:Hwo; simplify_eq/=.
      rewrite Hv, <- (Hvot w wo Hwo). done.
Qed.

(** ** What the roots receive *)

Lemma shifted_sum delta n : (1 ≤ n ≤ 4)%nat → length delta = 5%nat →
  sumZ ((λ m, shifted delta (4 - n) m) <$> seq 0 4) = sumZ (take n delta).
Proof.
  intros Hn Hl. destruct delta as [|x0 [|x1 [|x2 [|x3 [|x4 []]]]]]; try done.
  destruct n as [|[|[|[|[|]]]]]; try lia; unfold shifted, sumZ; simpl; lia.
Qed.

(** The votes of a witness get what its voters get in their levels, and the whole of the
    delta when the account is a voter itself. *)
Lemma root_add_closed P delta (V : Z → Prop) `{∀ x, Decision (V x)} (pows : gmap Z Z) n i :
  (n ≤ 4)%nat → length delta = 5%nat → (∀ x, V x → P !! x = None ∧ is_Some (pows !! x)) →
  root_add P delta V n i
  = map_sum (λ x _, bz (V x) * (sumZ (lvl_add P delta n i x <$> seq 0 4)
                                + bz (x = i) * sumZ (take (S n) delta))) pows.
Proof.
  intros Hn Hl HV.
  assert (∀ n i, P !! i = None → bz (V i) * sumZ (take (S n) delta)
    = map_sum (λ x _, bz (V x) * (sumZ (lvl_add P delta n i x <$> seq 0 4)
                                  + bz (x = i) * sumZ (take (S n) delta))) pows) as Hroot.
  { clear -HV. intros n i Hi. rewrite (map_sum_ext _ (λ x _, if decide (x = i)
      then bz (V i) * sumZ (take (S n) delta) else 0)).
    - rewrite map_sum_single. destruct (pows !! i) as [v|] eqn:Hx; simpl; [done|].
      rewrite bz_false; [done|]. intros [_ [? ?]]%HV. congruence.
    - intros x _ _. rewrite sumZ_zero by (intros; by destruct n; simpl; rewrite Hi).
      case_decide; [subst; rewrite (bz_true (i = i)) by done|rewrite (bz_false (x = i)) by done]; lia. }
  revert i Hn; induction n as [|n IH]; intros i Hn; simpl root_add;
    (destruct (P !! i) as [p|] eqn:Hi; [|by apply Hroot]);
    assert (bz (V i) = 0) as HVi by (rewrite bz_false; [done|]; intros [? _]%HV; congruence).
  - symmetry. apply map_sum_zero. intros x _ _. rewrite sumZ_zero by (intros; simpl; by rewrite Hi).
    destruct (decide (x = i)) as [->|]; [rewrite HVi; lia|rewrite (bz_false (x = i)) by done; lia].
  - rewrite IH by lia. apply map_sum_ext. intros x _ _.
    assert (bz (V x) * (bz (x = i) * sumZ (take (S (S n)) delta)) = 0) as Hz.
    { destruct (decide (x = i)) as [->|]; [rewrite HVi; lia|rewrite (bz_false (x = i)) by done; lia]. }
    rewrite (sumZ_ext (lvl_add P delta (S n) i x)
      (λ m, shifted delta (4 - S n) m * bz (p = x) + lvl_add P delta n p x m))
      by (intros; simpl; rewrite Hi; lia).
    rewrite sumZ_add, <- sumZ_scale, shifted_sum by (done || lia).
    rewrite (bz_iff (p = x) (x = p)) by (split; congruence).
    change (λ m, lvl_add P delta n p x m) with (lvl_add P delta n p x). nia.
Qed.

(** ** Three adjustments *)

Lemma reach_levels P pows x :
  reach 4 P pows x = default 0 (pows !! x) + sumZ ((λ m, subtree P pows (S m) x) <$> seq 0 4).
Proof.
  unfold reach. change (seq 0 5) with (0%nat :: (S <$> seq 0 4)).
  rewrite fmap_cons, sumZ_cons, subtree_0, <- list_fmap_compose. done.
Qed.

(** The levels of an account and its own power. *)
Definition levels (P pows : gmap Z Z) (x : Z) : list Z := (λ k, subtree P pows k x) <$> seq 0 5.

(** Every power is counted at most once on the way to [x]. *)
Lemma reach_le P pows x : acyclic P → (∀ y v, pows !! y = Some v → 0 ≤ v) →
  0 ≤ reach 4 P pows x ≤ map_sum (λ _ v, v) pows.
Proof.
  intros Hac Hpos. unfold reach, subtree. split.
  { apply sumZ_nonneg, Forall_fmap, Forall_forall. intros k _. by apply subtree_nonneg. }
  rewrite <- map_sum_list. apply map_sum_mono. intros y v Hy. specialize (Hpos y v Hy).
  rewrite <- sumZ_scale.
  assert (0 ≤ sumZ ((λ k, bz (anc P k y = Some x)) <$> seq 0 5) ≤ 1); [|nia].
  apply sumZ_at_most_one; [apply NoDup_seq|intros; apply bz_bound|].
  intros i j _ _ Hi Hj. unfold bz in Hi, Hj. repeat case_decide; try done. by eapply anc_inj.
Qed.

(** Powers of the same accounts: the tallies differ by what the voters' reaches do. *)
Lemma tally_change P1 pows1 V1 P2 pows2 V2
    `{∀ w x, Decision (V1 w x), ∀ w x, Decision (V2 w x)} w g :
  dom pows1 = dom pows2 →
  (∀ x, bz (V2 w x) * reach 4 P2 pows2 x = bz (V1 w x) * (reach 4 P1 pows1 x + g x)) →
  tally P2 pows2 V2 w = tally P1 pows1 V1 w + map_sum (λ x _, bz (V1 w x) * g x) pows1.
Proof.
  intros Hdom Hg. unfold tally. rewrite <- map_sum_add.
  rewrite (map_sum_dom _ pows2 pows1) by done. apply map_sum_ext. intros x _ _.
  rewrite Hg. lia.
Qed.

Section power.
Context (d : chain_state) (i v δ : Z) (pows : gmap Z Z) (Hi : pows !! i = Some v).
Abbreviation P := (proxies (accounts d)).
Abbreviation V := (votes_for (accounts d) (witness_votes d)).
Abbreviation pows' := (<[i := v + δ]> pows).

Lemma power_levels q m : (m < 4)%nat →
  subtree P pows' (S m) q = subtree P pows (S m) q + lvl_add P (single δ) 4 i q m.
Proof.
  intros Hm. rewrite subtree_power by done. f_equal. rewrite lvl_add_closed by lia.
  destruct m as [|[|[|[|]]]]; try lia; unfold shifted, sumZ, single; simpl seq; simpl fmap;
    simpl foldr; simpl default; rewrite ?Z.mul_0_r, ?Z.add_0_r, ?Z.add_0_l; done.
Qed.

Lemma power_reach x :
  reach 4 P pows' x = reach 4 P pows x
    + (sumZ (lvl_add P (single δ) 4 i x <$> seq 0 4) + bz (x = i) * δ).
Proof.
  rewrite !reach_levels. rewrite (sumZ_ext _ (λ m, subtree P pows (S m) x
    + lvl_add P (single δ) 4 i x m)) by (intros m [_ ?]%elem_of_seq; apply power_levels; lia).
  rewrite sumZ_add. destruct (decide (x = i)) as [->|Hne].
  - rewrite lookup_insert_eq, Hi, bz_true by done. simpl default. lia.
  - rewrite lookup_insert_ne, bz_false by done. lia.
Qed.

(** An account gains or loses power. *)
Lemma power_books :
  books P pows V d → adjustable d → typed_levels d → is_Some (accounts d !! i) →
  dom pows = dom (accounts d) → - i64_max ≤ δ ≤ i64_max →
  (∀ w x, V w x → P !! x = None) → sound_tree P pows' V (total_vesting_shares d) →
  ∃ d', adjust_proxied_witness_votes i δ d = Ok d' ∧ books P pows' V d' ∧
    ∃ fa fw, adjusted fa fw d d'.
Proof.
  intros Hb Hok Hty Hia Hdom Hδ HV Hs.
  destruct (adjust_books P pows V P pows' V (single δ) i d) as (d' & Hd & Hb' & A); try done.
  - by apply single_signed.
  - apply power_levels.
  - intros w. rewrite (root_add_closed _ _ _ pows); [|lia|done|].
    + apply (tally_change P pows V P pows' V w (λ x,
        sumZ (lvl_add P (single δ) 4 i x <$> seq 0 4) + bz (x = i) * sumZ (take 5 (single δ)))).
      * rewrite dom_insert_lookup_L; [done|eauto].
      * intros x. by rewrite power_reach, (single_total δ 4).
    + intros x Hx. split; [by eapply HV|]. unfold votes_for in Hx.
      apply elem_of_dom. rewrite Hdom. apply elem_of_dom.
      destruct (accounts d !! x); [eauto|done].
  - exists d'. split; [|eauto]. unfold adjust_proxied_witness_votes.
    by rewrite adjust_delta_levels.
Qed.

End power.

Lemma sumZ_opp l : sumZ (Z.opp <$> l) = - sumZ l.
Proof. induction l as [|x l IH]; [done|]. rewrite fmap_cons, !sumZ_cons. lia. Qed.

Lemma shifted_opp delta s m : shifted (Z.opp <$> delta) s m = - shifted delta s m.
Proof.
  unfold shifted. case_match; [|done]. rewrite list_lookup_fmap. by destruct (delta !! _).
Qed.

Lemma lvl_add_opp P delta n i q m : lvl_add P (Z.opp <$> delta) n i q m = - lvl_add P delta n i q m.
Proof.
  revert i; induction n as [|n IH]; intros i; simpl; destruct (P !! i); try done.
  rewrite IH, shifted_opp. lia.
Qed.

Lemma levels_signed P pows x total : acyclic P → (∀ y v, pows !! y = Some v → 0 ≤ v) →
  map_sum (λ _ v, v) pows ≤ total → total < i64_max →
  one_signed (levels P pows x) ∧ one_signed (Z.opp <$> levels P pows x).
Proof.
  intros Hac Hpos Ht Hmax. pose proof (reach_le P pows x Hac Hpos) as Hr.
  change (reach 4 P pows x) with (sumZ (levels P pows x)) in Hr.
  assert (Forall (λ v, 0 ≤ v) (levels P pows x)) as Hn.
  { apply Forall_fmap, Forall_forall. intros k _. by apply subtree_nonneg. }
  split; split; rewrite ?sumZ_opp; try lia; [by left|right].
  apply Forall_fmap. eapply Forall_impl; [done|]. simpl. lia.
Qed.

Section attach.
Context (P pows : gmap Z Z) (a p : Z) (Hroot : P !! a = None).
Abbreviation P' := (<[a := p]> P).
Context (Hac : acyclic P').

Lemma attach_levels q m : (m < 4)%nat →
  subtree P' pows (S m) q
  = subtree P pows (S m) q + lvl_add P' (levels P pows a) 4 a q m.
Proof.
  intros Hm. rewrite subtree_attach by done. f_equal. rewrite lvl_add_closed by lia.
  destruct m as [|[|[|[|]]]]; try lia; unfold shifted, sumZ, levels; cbn -[subtree bz anc]; lia.
Qed.

Lemma attach_reach x :
  reach 4 P' pows x = reach 4 P pows x + sumZ (lvl_add P' (levels P pows a) 4 a x <$> seq 0 4).
Proof.
  rewrite !reach_levels. rewrite (sumZ_ext _ (λ m, subtree P pows (S m) x
    + lvl_add P' (levels P pows a) 4 a x m))
    by (intros m [_ ?]%elem_of_seq; apply attach_levels; lia).
  rewrite sumZ_add. change (λ m, lvl_add P' (levels P pows a) 4 a x m)
    with (lvl_add P' (levels P pows a) 4 a x). lia.
Qed.

Lemma attach_levels_self : levels P' pows a = levels P pows a.
Proof. apply list_fmap_ext. intros _ k _. by apply subtree_attach_self. Qed.

End attach.

Section moves.
Context (d : chain_state) (pows : gmap Z Z) (a : Z).
Abbreviation PX := (proxies (accounts d)).
Abbreviation V := (votes_for (accounts d) (witness_votes d)).
Context (Hok : adjustable d) (Ha : is_Some (accounts d !! a)).
Context (Hdom : dom pows = dom (accounts d)).
Context (Hpos : ∀ x v, pows !! x = Some v → 0 ≤ v).
Context (Htotal : map_sum (λ _ v, v) pows ≤ total_vesting_shares d).
Context (HV : ∀ w x, V w x → PX !! x = None).

Lemma voters_known w x : V w x → PX !! x = None ∧ is_Some (pows !! x).
Proof using HV Hdom.
  clear Ha. intros Hx. split; [by eapply HV|]. apply elem_of_dom. rewrite Hdom. apply elem_of_dom.
  unfold votes_for in Hx. destruct (accounts d !! x); [eauto|done].
Qed.

(** [a] has just taken the proxy [p]. *)
Lemma attach_books P p :
  PX = <[a := p]> P → P !! a = None → books P pows V d →
  ∃ d', adjust_proxied_witness_votes_array a (levels P pows a) d = Ok d' ∧
    books PX pows V d' ∧ ∃ fa fw, adjusted fa fw d d'.
Proof using Hok Ha Hdom Hpos Htotal HV.
  intros HP Hroot Hb. pose proof (ok_acyclic _ Hok) as Hac.
  destruct (levels_signed P pows a (total_vesting_shares d)) as [Hs _]; try done.
  { replace P with (delete a PX); [by apply acyclic_delete|].
    by rewrite HP, delete_insert_id. }
  { apply ok_total, Hok. }
  destruct (adjust_books P pows V PX pows V (levels P pows a) a d) as (d' & Hd & Hb' & A); try done.
  - rewrite HP in *. intros q m Hm. by apply attach_levels.
  - intros w. rewrite (root_add_closed _ _ _ pows) by (done || lia || apply voters_known).
    apply tally_change; [done|]. intros x. rewrite HP in *. rewrite (attach_reach P pows a p) by done.
    destruct (decide (x = a)) as [->|Hne]; [|rewrite (bz_false (x = a)) by done; lia].
    rewrite (bz_false (V w a)); [lia|]. intros H%HV. by rewrite lookup_insert_eq in H.
  - exists d'. split; [done|]. eauto.
Qed.

(** [a] leaves its proxy, if it has one, and stops voting. *)
Lemma detach_books :
  books PX pows V d →
  ∃ d', adjust_proxied_witness_votes_array a (Z.opp <$> levels PX pows a) d = Ok d' ∧
    books (delete a PX) pows (λ w x, V w x ∧ x ≠ a) d' ∧ ∃ fa fw, adjusted fa fw d d'.
Proof using Hok Ha Hdom Hpos Htotal HV.
  intros Hb. pose proof (ok_acyclic _ Hok) as Hac.
  destruct (levels_signed PX pows a (total_vesting_shares d)) as [_ Hs]; try done.
  { apply ok_total, Hok. }
  set (L := lvl_add PX (Z.opp <$> levels PX pows a) 4 a).
  assert (∀ q m, (m < 4)%nat →
    subtree (delete a PX) pows (S m) q = subtree PX pows (S m) q + L q m) as Hlev.
  { intros q m Hm. unfold L. rewrite lvl_add_opp. destruct (PX !! a) as [p|] eqn:Hp.
    - assert (PX = <[a := p]> (delete a PX)) as E by (by rewrite insert_delete_id).
      rewrite E in Hac. rewrite E at 2 3 4.
      rewrite attach_levels_self, attach_levels by (done || apply lookup_delete_eq). lia.
    - rewrite delete_id by done. simpl. rewrite Hp. lia. }
  assert (∀ x, reach 4 (delete a PX) pows x = reach 4 PX pows x + sumZ (L x <$> seq 0 4)) as Hreach.
  { intros x. rewrite !reach_levels. rewrite (sumZ_ext _ (λ m, subtree PX pows (S m) x + L x m))
      by (intros m [_ ?]%elem_of_seq; apply Hlev; lia).
    rewrite sumZ_add. change (λ m, L x m) with (L x). lia. }
  destruct (adjust_books PX pows V (delete a PX) pows (λ w x, V w x ∧ x ≠ a)
    (Z.opp <$> levels PX pows a) a d) as (d' & Hd & Hb' & A); try done.
  - split; [done|done|]. intros w x [Hx Hne]. rewrite lookup_delete_ne by done. by eapply HV.
  - intros w. rewrite (root_add_closed _ _ _ pows) by (done || lia || apply voters_known).
    apply tally_change; [done|]. intros x. fold L. rewrite Hreach.
    change (take 5 (Z.opp <$> levels PX pows a)) with (Z.opp <$> levels PX pows a).
    rewrite sumZ_opp. change (sumZ (levels PX pows a)) with (reach 4 PX pows a).
    specialize (Hreach x). destruct (decide (x = a)) as [->|Hne].
    + rewrite (bz_false (V w a ∧ a ≠ a)), (bz_true (a = a)) by naive_solver.
      rewrite (sumZ_zero (L a)); [lia|]. intros m _. apply lvl_add_none; [lia|]. intros t. apply Hac.
    + rewrite (bz_false (x = a)), (bz_iff (V w x ∧ x ≠ a) (V w x)) by naive_solver. lia.
  - exists d'. split; [done|]. eauto.
Qed.

End moves.

(** ** The invariant of the state *)

(** What the books are computed from, besides proxies and votes. *)
Definition base_view (a : account_object) : string * Z * Z * list delayed_votes_data :=
  (name a, vesting_shares a, sum_delayed_votes a, delayed_votes a).

Record base_inv (d : chain_state) : Prop := {
  bi_names : ∀ i j a b, accounts d !! i = Some a → accounts d !! j = Some b →
    name a = name b → i = j;
  bi_delayed : ∀ x a, accounts d !! x = Some a →
    votes_wf (delayed_votes a) (sum_delayed_votes a) ∧ sum_delayed_votes a ≤ vesting_shares a;
  bi_total : map_sum (λ _ a, vesting_shares a) (accounts d) ≤ total_vesting_shares d;
  bi_max : total_vesting_shares d < i64_max;
  bi_hardfork : HIVE_HARDFORK_0_6__104 < processed_hardforks d
}.

(** The proxies form a forest of known accounts whose roots alone vote, for known
    witnesses. *)
Record tree_inv (d : chain_state) : Prop := {
  ti_closed : ∀ x p, proxies (accounts d) !! x = Some p → is_Some (accounts d !! p);
  ti_acyclic : acyclic (proxies (accounts d));
  ti_roots : ∀ w x, votes_for (accounts d) (witness_votes d) w x →
    proxies (accounts d) !! x = None;
  ti_voted : ∀ n w, (n, w) ∈ witness_votes d → is_Some (witnesses d !! w)
}.

(** The counter of votes, and its limit. *)
Definition count_inv (d : chain_state) : Prop :=
  ∀ x a, accounts d !! x = Some a →
    witnesses_voted_for a = Z.of_nat (size (filter (λ v, v.1 = name a) (witness_votes d))) ∧
    witnesses_voted_for a ≤ HIVE_MAX_ACCOUNT_WITNESS_VOTES.

Record gov_inv (d : chain_state) : Prop := {
  gi_base : base_inv d;
  gi_tree : tree_inv d;
  gi_count : count_inv d;
  gi_books : books (proxies (accounts d)) (powers (accounts d))
               (votes_for (accounts d) (witness_votes d)) d
}.

Definition same_base (d d' : chain_state) : Prop :=
  (∀ x, base_view <$> accounts d' !! x = base_view <$> accounts d !! x) ∧
  total_vesting_shares d' = total_vesting_shares d ∧
  processed_hardforks d' = processed_hardforks d.

#[export] Instance same_base_preorder : PreOrder same_base.
Proof.
  split.
  - intros d. done.
  - intros d1 d2 d3 (H1 & T1 & F1) (H2 & T2 & F2). split_and!; [|lia..].
    intros x. by rewrite H2, H1.
Qed.

Lemma same_base_inv d d' x a' : same_base d d' → accounts d' !! x = Some a' →
  ∃ a, accounts d !! x = Some a ∧ base_view a' = base_view a.
Proof.
  intros [H _] Hx. specialize (H x). rewrite Hx in H.
  destruct (accounts d !! x) as [a|]; [|done]. exists a. split; [done|]. simpl in H. congruence.
Qed.

Lemma map_sum_fmap {A B} (f : A → B) (g : B → Z) (m : gmap Z A) :
  map_sum (λ _ b, g b) (f <$> m) = map_sum (λ _ a, g (f a)) m.
Proof.
  induction m as [|k v m Hk IH] using map_ind; [by rewrite fmap_empty|].
  rewrite fmap_insert, !map_sum_insert, lookup_fmap, Hk, IH. done.
Qed.

Lemma same_base_view d d' : same_base d d' → base_view <$> accounts d' = base_view <$> accounts d.
Proof. intros [H _]. apply map_eq. intros x. by rewrite !lookup_fmap. Qed.

Lemma same_base_powers d d' : same_base d d' → powers (accounts d') = powers (accounts d).
Proof.
  intros H%same_base_view. unfold powers.
  assert (∀ m : gmap Z account_object, direct <$> m = (λ v : string * Z * Z * list delayed_votes_data,
    v.1.1.2 - v.1.2) <$> (base_view <$> m)) as Hd.
  { intros m. rewrite <- map_fmap_compose. done. }
  by rewrite !Hd, H.
Qed.

Lemma same_base_base d d' : same_base d d' → base_inv d → base_inv d'.
Proof.
  intros H [Hn Hd Ht Hm Hh]. pose proof H as (_ & Et & Eh). split.
  - intros i j a b Hi Hj Hab.
    destruct (same_base_inv _ _ _ _ H Hi) as (a0 & Ha0 & Ea).
    destruct (same_base_inv _ _ _ _ H Hj) as (b0 & Hb0 & Eb).
    injection Ea as ????. injection Eb as ????. eapply Hn; [done|done|congruence].
  - intros x a Hx. destruct (same_base_inv _ _ _ _ H Hx) as (a0 & Ha0 & Ea).
    injection Ea as E1 E2 E3 E4. rewrite E2, E3, E4. eauto.
  - rewrite Et. assert (∀ m : gmap Z account_object, map_sum (λ _ a, vesting_shares a) m
      = map_sum (λ _ (v : string * Z * Z * list delayed_votes_data), v.1.1.2) (base_view <$> m)) as Hs.
    { intros m. by rewrite map_sum_fmap. }
    by rewrite Hs, (same_base_view _ _ H), <- Hs.
  - lia.
  - lia.
Qed.

Lemma adjusted_same_base fa fw d d' : adjusted fa fw d d' → same_base d d'.
Proof.
  intros [A _ (_ & _ & ? & _ & _ & ? & _)]. split; [|done]. intros x. rewrite A.
  by destruct (accounts d !! x).
Qed.

Lemma adjusted_tree fa fw d d' : adjusted fa fw d d' → tree_inv d → tree_inv d'.
Proof.
  intros A [Hc Ha Hr Hv]. pose proof (adj_rest _ _ _ _ A) as (EW & _).
  pose proof (adjusted_proxies _ _ _ _ A) as EP. split; rewrite ?EP, ?EW; try done.
  - intros x p Hx. destruct (Hc x p Hx) as [b Hb].
    rewrite (adjusted_account _ _ _ _ A p b Hb). eauto.
  - intros w x Hx. apply (Hr w x). by apply (adjusted_votes_for _ _ _ _ A).
  - intros n w Hw. destruct (Hv n w Hw) as [wo Hwo]. pose proof (adj_votes _ _ _ _ A w) as E.
    rewrite Hwo in E. destruct (witnesses d' !! w); [eauto|done].
Qed.

Lemma adjusted_count fa fw d d' : adjusted fa fw d d' → count_inv d → count_inv d'.
Proof.
  intros A Hc x a' Hx. pose proof (adj_rest _ _ _ _ A) as (EW & _).
  destruct (adjusted_account_inv _ _ _ _ A x a' Hx) as (a & Ha & ->). rewrite EW.
  apply (Hc x a Ha).
Qed.

(** ** Consequences of the invariant *)

Section inv.
Context (d : chain_state) (Hbase : base_inv d).

Lemma shares_bounds x a : accounts d !! x = Some a →
  0 ≤ sum_delayed_votes a ≤ vesting_shares a ∧ vesting_shares a ≤ total_vesting_shares d.
Proof using Hbase.
  assert (∀ x a, accounts d !! x = Some a → 0 ≤ sum_delayed_votes a ≤ vesting_shares a) as Hnn.
  { intros y b Hb. destruct (bi_delayed _ Hbase y b Hb) as [[-> _ Hv _] Hle].
    pose proof (vals_nonneg _ Hv). lia. }
  intros Hx. split; [by eapply Hnn|]. pose proof (bi_total _ Hbase).
  pose proof (map_sum_lookup_le (λ _ a, vesting_shares a) (accounts d) x a) as Hle.
  simpl in Hle. specialize (Hle ltac:(intros k b Hb; specialize (Hnn k b Hb); lia) Hx). lia.
Qed.

Lemma powers_nonneg x v : powers (accounts d) !! x = Some v → 0 ≤ v.
Proof using Hbase.
  unfold powers. intros (a & <- & Hx)%lookup_fmap_Some. unfold direct.
  pose proof (shares_bounds x a Hx). lia.
Qed.

Lemma powers_total : map_sum (λ _ v, v) (powers (accounts d)) ≤ total_vesting_shares d.
Proof using Hbase.
  unfold powers. rewrite (map_sum_fmap direct (λ v, v)).
  etrans; [|exact (bi_total _ Hbase)]. apply map_sum_mono. intros x a Hx.
  pose proof (shares_bounds x a Hx). unfold direct. lia.
Qed.

Lemma direct_exact x a : accounts d !! x = Some a →
  get_direct_governance_vote_power a = Ok (direct a).
Proof using Hbase.
  intros Hx. pose proof (shares_bounds x a Hx). pose proof (bi_max _ Hbase).
  unfold get_direct_governance_vote_power, fc_assert.
  rewrite i64_id by (unfold i64_min; lia). rewrite (proj2 (Z.leb_le _ _)) by lia. simpl.
  apply share_sub_in. unfold i64_min. lia.
Qed.

Lemma powers_dom : dom (powers (accounts d)) = dom (accounts d).
Proof. apply dom_fmap_L. Qed.

Lemma powers_lookup x a : accounts d !! x = Some a → powers (accounts d) !! x = Some (direct a).
Proof. intros Hx. unfold powers. by rewrite lookup_fmap, Hx. Qed.

Section with_books.
Context (P : gmap Z Z) (V : string → Z → Prop) `{∀ w x, Decision (V w x)}.
Context (Hbooks : books P (powers (accounts d)) V d).

Lemma levels_exact x a : accounts d !! x = Some a →
  levels P (powers (accounts d)) x = direct a :: proxied_vsf_votes a.
Proof using Hbooks.
  intros Hx. rewrite (bk_levels _ _ _ _ Hbooks x a Hx). unfold levels.
  change (seq 0 5) with (0%nat :: (S <$> seq 0 4)).
  rewrite fmap_cons, subtree_0, (powers_lookup x a Hx), <- list_fmap_compose. done.
Qed.

Lemma typed_levels_exact : typed_levels d.
Proof using Hbase Hbooks.
  intros q a Hq. rewrite (bk_levels _ _ _ _ Hbooks q a Hq). split; [done|].
  apply Forall_fmap, Forall_forall. intros k _. unfold compose.
  pose proof (subtree_nonneg P _ (S k) q powers_nonneg).
  pose proof (subtree_le P _ (S k) q powers_nonneg). pose proof powers_total.
  pose proof (bi_max _ Hbase). unfold i64_min. lia.
Qed.

Lemma inv_adjustable : tree_inv d → adjustable d.
Proof using Hbase Hbooks.
  intros [Hc Ha Hr Hv]. split; try done; [|apply Hbase].
  intros q a Hq. apply (typed_levels_exact q a Hq).
Qed.

End with_books.

End inv.

(** [nullify_proxied_witness_votes] takes the account out of the tree. *)
Lemma nullify_exact d i a : gov_inv d → accounts d !! i = Some a →
  ∃ d', nullify_proxied_witness_votes i d = Ok d' ∧
    books (delete i (proxies (accounts d))) (powers (accounts d))
      (λ w x, votes_for (accounts d) (witness_votes d) w x ∧ x ≠ i) d' ∧
    ∃ fa fw, adjusted fa fw d d'.
Proof.
  intros [Hbase Htree Hcount Hbooks] Hi.
  pose proof (inv_adjustable d Hbase _ _ Hbooks Htree) as Hok.
  destruct (detach_books d (powers (accounts d)) i) as (d' & Hd & Hb & A); try done.
  - by apply powers_dom.
  - by apply powers_nonneg.
  - by apply powers_total.
  - apply Htree.
  - exists d'. split; [|done]. unfold nullify_proxied_witness_votes, get_account. rewrite Hi.
    cbn [from_option_or mbind result_bind]. rewrite (direct_exact d Hbase i a Hi).
    cbn [mbind result_bind].
    rewrite (levels_exact d _ _ Hbooks i a Hi) in Hd. rewrite fmap_cons in Hd.
    assert (i64_min < direct a) as Hda.
    { pose proof (powers_nonneg d Hbase i _ (powers_lookup d i a Hi)). unfold i64_min. lia. }
    rewrite share_neg_in by done. cbn [mbind result_bind].
    assert (mapM share_neg (proxied_vsf_votes a) = Ok (Z.opp <$> proxied_vsf_votes a)) as ->;
      [|exact Hd].
    assert (Forall (λ v, i64_min < v) (proxied_vsf_votes a)) as Hlow.
    { rewrite (bk_levels _ _ _ _ Hbooks i a Hi). apply Forall_fmap, Forall_forall. intros k _.
      pose proof (subtree_nonneg (proxies (accounts d)) _ (S k) i (powers_nonneg d Hbase)).
      unfold compose, i64_min. lia. }
    clear -Hlow. induction Hlow as [|v l Hv Hl IH]; [done|]. simpl.
    rewrite share_neg_in by done. cbn [mbind result_bind]. rewrite IH. done.
Qed.
