(* ===== verification/GovernanceOps.v ===== *)
(** * Operations on governance votes

    Each operation of [Governance] against the invariant of [GovernanceBooks]: taking and
    leaving a proxy, voting for a witness, the expiration of votes and the maturing of
    delayed votes succeed exactly when their checks pass, keep the books right and change
    the tree and the votes as the operation says. *)

From S2P Require Import Prelude Safe OperationTypes Operations DelayedVotes Account ProxyTree.
From S2P Require Import Governance GovernanceBooks.
Open Scope Z_scope.

(** ** Accounts by name *)

Lemma find_account_Some n i d : find_account n d = Some i →
  ∃ a, accounts d !! i = Some a ∧ name a = n.
Proof.
  unfold find_account. intros H.
  destruct (filter _ (map_to_list (accounts d))) as [|[j a] l] eqn:E; simplify_eq/=.
  assert ((i, a) ∈ filter (λ p : Z * account_object, name p.2 = n) (map_to_list (accounts d)))
    as Hin by (rewrite E; left).
  apply list_elem_of_filter in Hin as [Hn Hin]. apply elem_of_map_to_list in Hin. eauto.
Qed.

Lemma find_account_name i a d : base_inv d → accounts d !! i = Some a →
  find_account (name a) d = Some i.
Proof.
  intros Hb Hi. destruct (find_account (name a) d) as [j|] eqn:E.
  - apply find_account_Some in E as (b & Hj & Hn). f_equal. by eapply (bi_names _ Hb).
  - exfalso. unfold find_account in E.
    destruct (filter _ (map_to_list (accounts d))) eqn:F; [|done].
    assert ((i, a) ∈ filter (λ p : Z * account_object, name p.2 = name a)
      (map_to_list (accounts d))) as Hin.
    { apply list_elem_of_filter. split; [done|]. by apply elem_of_map_to_list. }
    rewrite F in Hin. by apply elem_of_nil in Hin.
Qed.

(** ** States that agree on what the books look at *)

Definition gov_view (a : account_object) : string * Z * Z * list delayed_votes_data * option Z * Z * list Z :=
  (base_view a, proxy a, witnesses_voted_for a, proxied_vsf_votes a).

Record same_gov (d d' : chain_state) : Prop := {
  sg_accounts : ∀ x, gov_view <$> accounts d' !! x = gov_view <$> accounts d !! x;
  sg_witnesses : witnesses d' = witnesses d;
  sg_votes : witness_votes d' = witness_votes d;
  sg_total : total_vesting_shares d' = total_vesting_shares d;
  sg_hardforks : processed_hardforks d' = processed_hardforks d
}.

Lemma same_gov_inv d d' x a' : same_gov d d' → accounts d' !! x = Some a' →
  ∃ a, accounts d !! x = Some a ∧ gov_view a' = gov_view a.
Proof.
  intros [H _ _ _ _] Hx. specialize (H x). rewrite Hx in H.
  destruct (accounts d !! x) as [a|]; [|done]. exists a. split; [done|].
  simpl in H. congruence.
Qed.

Lemma same_gov_base d d' : same_gov d d' → same_base d d'.
Proof.
  intros [H _ _ Ht Hh]. split; [|done]. intros x. specialize (H x).
  destruct (accounts d !! x), (accounts d' !! x); simpl in *; try done.
  unfold gov_view in H. congruence.
Qed.

Lemma same_gov_proxies d d' : same_gov d d' → proxies (accounts d') = proxies (accounts d).
Proof.
  intros H. apply map_eq. intros x. unfold proxies. rewrite !lookup_omap.
  pose proof (sg_accounts _ _ H x) as Hx.
  destruct (accounts d !! x), (accounts d' !! x); simpl in *; try done.
  unfold gov_view in Hx. congruence.
Qed.

Lemma same_gov_votes_for d d' W w x : same_gov d d' →
  votes_for (accounts d') W w x ↔ votes_for (accounts d) W w x.
Proof.
  intros H. unfold votes_for. pose proof (sg_accounts _ _ H x) as Hx.
  destruct (accounts d !! x), (accounts d' !! x); simpl in *; try done.
  unfold gov_view, base_view in Hx. by replace (name a0) with (name a) by congruence.
Qed.

(** Books only read levels and the votes of witnesses. *)
Lemma books_ext P pows V V' `{∀ w x, Decision (V w x), ∀ w x, Decision (V' w x)} d d' :
  books P pows V d → (∀ w x, V' w x ↔ V w x) →
  (∀ x, proxied_vsf_votes <$> accounts d' !! x = proxied_vsf_votes <$> accounts d !! x) →
  witnesses d' = witnesses d → books P pows V' d'.
Proof.
  intros [Hl Hv] HV Ha Hw. split.
  - intros x a' Hx. specialize (Ha x). rewrite Hx in Ha.
    destruct (accounts d !! x) as [a|] eqn:Ea; [|done]. simpl in Ha. injection Ha as ->. eauto.
  - intros w wo. rewrite Hw. intros Hwo. rewrite (Hv w wo Hwo). unfold tally.
    apply map_sum_ext. intros x _ _. by rewrite (bz_iff (V w x) (V' w x)) by (by rewrite HV).
Qed.

Lemma same_gov_gov d d' : same_gov d d' → gov_inv d → gov_inv d'.
Proof.
  intros H [Hbase Htree Hcount Hbooks]. pose proof (same_gov_base _ _ H) as Hsb.
  pose proof (same_gov_proxies _ _ H) as EP. pose proof (sg_votes _ _ H) as EW. split.
  - by eapply same_base_base.
  - destruct Htree as [Hc Ha Hr Hv]. split; rewrite ?EP, ?EW, ?(sg_witnesses _ _ H); try done.
    + intros x p Hx. destruct (Hc x p Hx) as [b Hb]. pose proof (sg_accounts _ _ H p) as E.
      rewrite Hb in E. destruct (accounts d' !! p); [eauto|done].
    + intros w x Hx. apply (Hr w x). by apply (same_gov_votes_for _ _ _ _ _ H).
  - intros x a' Hx. rewrite EW. destruct (same_gov_inv _ _ _ _ H Hx) as (a & Ha & E).
    unfold gov_view, base_view in E. replace (name a') with (name a) by congruence.
    replace (witnesses_voted_for a') with (witnesses_voted_for a) by congruence. eauto.
  - rewrite EP, (same_base_powers _ _ Hsb). eapply books_ext; [exact Hbooks| | |apply H].
    + intros w x. rewrite EW. by apply same_gov_votes_for.
    + intros x. pose proof (sg_accounts _ _ H x) as E.
      destruct (accounts d !! x), (accounts d' !! x); simpl in *; try done.
      unfold gov_view in E. congruence.
Qed.

(** A modification that keeps the view. *)
Lemma modify_same_gov i a f d :
  accounts d !! i = Some a → gov_view (f a) = gov_view a →
  modify_account i (λ a, Ok (f a)) d = Ok (set_accounts (<[i := f a]> (accounts d)) d) ∧
  same_gov d (set_accounts (<[i := f a]> (accounts d)) d).
Proof.
  intros Hi Hf. split; [unfold modify_account, get_account; by rewrite Hi|].
  split; try done. intros x. simpl. destruct (decide (x = i)) as [->|Hne].
  - rewrite lookup_insert_eq, Hi. simpl. by rewrite Hf.
  - by rewrite lookup_insert_ne.
Qed.

Lemma push_same_gov op d : same_gov d (push_virtual_operation op d).
Proof. by split. Qed.

(** ** The search for proxy loops *)

(** The chain of [p] ends within two more proxies and does not meet [i]. *)
Definition short_chain (P : gmap Z Z) (i p : Z) : Prop :=
  ∃ k r, (k ≤ 2)%nat ∧ anc P k p = Some r ∧ P !! r = None ∧
         ∀ j, (j ≤ k)%nat → anc P j p ≠ Some i.

Section chain.
Context (d : chain_state) (Htree : tree_inv d).
Abbreviation P := (proxies (accounts d)).

Lemma check_step f C c : is_Some (accounts d !! c) →
  check_proxy_chain (S f) C c d =
  match P !! c with
  | None => Ok tt
  | Some q =>
      fc_assert (bool_decide (q ∉ C)) "This proxy would create a proxy loop." ;;
      fc_assert (size ({[ q ]} ∪ C) <=? 4)%nat "Proxy chain is too long." ;;
      check_proxy_chain f ({[ q ]} ∪ C) q d
  end.
Proof using Htree.
  intros [a Hc]. simpl. unfold get_account. rewrite Hc. cbn [from_option_or mbind result_bind].
  pose proof (lookup_proxies d c a Hc) as HP. rewrite HP.
  destruct (proxy a) as [q|]; [|done]. destruct (ti_closed _ Htree c q HP) as [b ->]. done.
Qed.

(** The chain so far is [C], whose last account is [c]. *)
Lemma check_round f C c :
  is_Some (accounts d !! c) →
  is_ok (check_proxy_chain (S f) C c d) = true ↔
  (P !! c = None ∨
   ∃ q, P !! c = Some q ∧ (q ∉ C) ∧ (size C < 4)%nat ∧
        is_ok (check_proxy_chain f ({[ q ]} ∪ C) q d) = true).
Proof using Htree.
  intros Hc. rewrite check_step by done. destruct (P !! c) as [q|]; [|naive_solver].
  unfold fc_assert. case_bool_decide as Hq.
  - cbn [mbind result_bind]. rewrite size_union, size_singleton by set_solver.
    destruct (Nat.leb_spec (1 + size C) 4); cbn [mbind result_bind].
    + naive_solver.
    + split; [done|]. intros [?|(? & ? & ? & ? & ?)]; [done|lia].
  - split; [done|]. intros [?|(? & ? & ? & ? & ?)]; [done|naive_solver].
Qed.

Lemma closed_anc c q : is_Some (accounts d !! c) → P !! c = Some q → is_Some (accounts d !! q).
Proof using Htree. intros _ H. by eapply (ti_closed _ Htree). Qed.

Lemma check_proxy_chain_exact i p : p ≠ i → is_Some (accounts d !! p) →
  is_ok (check_proxy_chain (S HIVE_MAX_PROXY_RECURSION_DEPTH) {[ i; p ]} p d) = true ↔
  short_chain P i p.
Proof using Htree.
  intros Hne Hp. pose proof (ti_acyclic _ Htree) as Hac.
  assert (size ({[ i; p ]} : gset Z) = 2%nat) as Hs2
    by (rewrite size_union, !size_singleton by set_solver; done).
  unfold HIVE_MAX_PROXY_RECURSION_DEPTH. rewrite check_round by done. split.
  - intros [H0|(q & Hq & Hnq & _ & H)].
    { exists 0%nat, p. split_and!; [lia|done|done|]. intros [|j] Hj; [simpl; congruence|lia]. }
    pose proof (closed_anc p q Hp Hq) as Hqa. rewrite check_round in H by done.
    destruct H as [H0|(r & Hr & Hnr & _ & H)].
    { exists 1%nat, q. split_and!; [lia|simpl; by rewrite Hq|done|].
      intros [|[|j]] Hj; simpl; rewrite ?Hq; simpl; [congruence|set_solver|lia]. }
    pose proof (closed_anc q r Hqa Hr) as Hra. rewrite check_round in H by done.
    destruct H as [H0|(s & Hs & Hns & Hsz & H)].
    + exists 2%nat, r. split_and!; [lia|simpl; rewrite Hq; simpl; by rewrite Hr|done|].
      intros [|[|[|j]]] Hj; simpl; rewrite ?Hq; simpl; rewrite ?Hr; simpl;
        [congruence|set_solver|set_solver|lia].
    + rewrite size_union, size_union, !size_singleton, Hs2 in Hsz by set_solver. lia.
  - intros (k & r & Hk & Hr & Hroot & Hno).
    destruct (P !! p) as [q|] eqn:Hq; [right|by left].
    assert (anc P 1 p = Some q) as E1 by (simpl; by rewrite Hq).
    assert (q ≠ p) by (intros ->; by apply Hac in E1).
    assert (1 ≤ k)%nat by (destruct k; [simpl in Hr; congruence|lia]).
    assert (q ≠ i) by (intros ->; by apply (Hno 1%nat ltac:(lia))).
    pose proof (closed_anc p q Hp Hq) as Hqa. exists q. split_and!; [done|set_solver|lia|].
    rewrite check_round by done. destruct (P !! q) as [s|] eqn:Hs; [right|by left].
    assert (anc P 2 p = Some s) as E2 by (simpl; rewrite Hq; simpl; by rewrite Hs).
    assert (s ≠ p) by (intros ->; by apply Hac in E2).
    assert (s ≠ q) by (intros ->; apply (Hac 0%nat q); simpl; by rewrite Hs).
    assert (k = 2%nat) as ->.
    { destruct k as [|[|[|k]]]; [lia| |done|lia]. rewrite E1 in Hr. congruence. }
    assert (s ≠ i) by (intros ->; by apply (Hno 2%nat ltac:(lia))).
    assert (r = s) as -> by congruence.
    exists s. split_and!; [done|set_solver|rewrite size_union, size_singleton by set_solver; lia|].
    rewrite check_round by (by eapply closed_anc). by left.
Qed.

End chain.

(** ** Leaving the tree *)

Section leave.
Context (d d1 d2 : chain_state) (i : Z) (a b : account_object) (fa : Z → nat → Z) (fw : string → Z).
Context (Hinv : gov_inv d) (Hi : accounts d !! i = Some a) (Hadj : adjusted fa fw d d1).
Context (Hbooks1 : books (delete i (proxies (accounts d))) (powers (accounts d))
  (λ w x, votes_for (accounts d) (witness_votes d) w x ∧ x ≠ i) d1).
Context (Haccs : accounts d2 = <[i := b]> (accounts d1)).
Context (Hview : base_view b = base_view a).
Context (Hlevels : proxied_vsf_votes b = proxied_vsf_votes (shift_levels (fa i) a)).
Context (Hproxy : proxy b = None) (Hzero : witnesses_voted_for b = 0).
Context (Hwit : witnesses d2 = witnesses d1).
Context (Hvotes : witness_votes d2 = filter (λ v, v.1 ≠ name a) (witness_votes d)).
Context (Htotal : total_vesting_shares d2 = total_vesting_shares d1).
Context (Hhf : processed_hardforks d2 = processed_hardforks d1).

Lemma leave_lookup x : x ≠ i → accounts d2 !! x = shift_levels (fa x) <$> accounts d !! x.
Proof using Haccs Hadj.
  intros Hne. rewrite Haccs, lookup_insert_ne by done. apply (adj_accounts _ _ _ _ Hadj).
Qed.

Lemma leave_self : accounts d2 !! i = Some b.
Proof using Haccs. by rewrite Haccs, lookup_insert_eq. Qed.

Lemma leave_base : same_base d d2.
Proof using Haccs Hadj Hview Hi Htotal Hhf.
  pose proof (adj_rest _ _ _ _ Hadj) as (_ & _ & ? & _ & _ & ? & _).
  split; [|split; congruence]. intros x. destruct (decide (x = i)) as [->|Hne].
  - rewrite leave_self, Hi. simpl. by rewrite Hview.
  - rewrite leave_lookup by done. by destruct (accounts d !! x).
Qed.

Lemma leave_proxies : proxies (accounts d2) = delete i (proxies (accounts d)).
Proof using Haccs Hadj Hproxy.
  apply map_eq. intros x. unfold proxies. rewrite lookup_omap.
  destruct (decide (x = i)) as [->|Hne].
  - by rewrite leave_self, lookup_delete_eq.
  - rewrite leave_lookup, lookup_delete_ne, lookup_omap by done. by destruct (accounts d !! x).
Qed.

Lemma leave_votes_for w x :
  votes_for (accounts d2) (witness_votes d2) w x ↔
  votes_for (accounts d) (witness_votes d) w x ∧ x ≠ i.
Proof using Haccs Hadj Hvotes Hview Hi Hinv.
  unfold votes_for. rewrite Hvotes. destruct (decide (x = i)) as [->|Hne].
  - rewrite leave_self, Hi. assert (name b = name a) as -> by (unfold base_view in Hview; congruence).
    rewrite elem_of_filter. simpl. naive_solver.
  - rewrite leave_lookup by done. destruct (accounts d !! x) as [c|] eqn:Hx; simpl; [|naive_solver].
    rewrite elem_of_filter. simpl. split; [naive_solver|]. intros [? _]. split; [|done].
    intros Hn. apply Hne. by eapply (bi_names _ (gi_base _ Hinv)).
Qed.

Lemma leave_gov : gov_inv d2.
Proof using All.
  pose proof Hinv as [Hbase Htree Hcount Hbooks]. split.
  - eapply same_base_base; [apply leave_base|done].
  - pose proof Htree as [Hc Hac Hr Hv]. split; rewrite ?leave_proxies.
    + intros x p Hx. apply lookup_delete_Some in Hx as [_ Hx]. destruct (Hc x p Hx) as [c Hp].
      destruct (decide (p = i)) as [->|Hne]; [rewrite leave_self; eauto|].
      rewrite leave_lookup, Hp by done. eauto.
    + by apply acyclic_delete.
    + intros w x [Hx Hne]%leave_votes_for. rewrite lookup_delete_ne by done. by eapply Hr.
    + intros n w. rewrite Hvotes, Hwit. intros [_ Hw]%elem_of_filter.
      destruct (Hv n w Hw) as [wo Hwo]. pose proof (adj_votes _ _ _ _ Hadj w) as E.
      rewrite Hwo in E. destruct (witnesses d1 !! w); [eauto|done].
  - intros x c Hx. rewrite Hvotes. destruct (decide (x = i)) as [->|Hne].
    + rewrite leave_self in Hx. injection Hx as <-.
      assert (name b = name a) as -> by (unfold base_view in Hview; congruence).
      rewrite Hzero. split; [|done].
      assert (filter (λ v, v.1 = name a) (filter (λ v, v.1 ≠ name a) (witness_votes d)) = ∅) as ->;
        [set_solver|by rewrite size_empty].
    + rewrite leave_lookup in Hx by done. destruct (accounts d !! x) as [c0|] eqn:Hx0; simplify_eq/=.
      destruct (Hcount x c0 Hx0) as [-> Hle]. split; [|done]. do 2 f_equal.
      assert (name c0 ≠ name a) by (intros Hn; apply Hne; by eapply (bi_names _ Hbase)).
      apply set_eq. intros [n w]. rewrite !elem_of_filter. simpl. naive_solver.
  - rewrite leave_proxies, (same_base_powers _ _ leave_base).
    eapply books_ext; [exact Hbooks1|apply leave_votes_for| |done].
    intros x. destruct (decide (x = i)) as [->|Hne].
    + rewrite leave_self, (adj_accounts _ _ _ _ Hadj), Hi. simpl. by rewrite Hlevels.
    + by rewrite leave_lookup, (adj_accounts _ _ _ _ Hadj).
Qed.

End leave.

(** ** Taking a proxy *)

Section take.
Context (d : chain_state) (i p : Z) (a : account_object).
Context (Hinv : gov_inv d) (Hi : accounts d !! i = Some a) (Hroot : proxy a = None).
Context (Hsilent : ∀ w, ¬ votes_for (accounts d) (witness_votes d) w i).
Context (Hp : is_Some (accounts d !! p)).
Context (Hac : acyclic (<[i := p]> (proxies (accounts d)))).

Definition with_proxy : chain_state :=
  set_accounts (<[i := set_proxy (Some p) a]> (accounts d)) d.

Lemma take_lookup x : x ≠ i → accounts with_proxy !! x = accounts d !! x.
Proof. intros Hne. simpl. by rewrite lookup_insert_ne. Qed.

Lemma take_self : accounts with_proxy !! i = Some (set_proxy (Some p) a).
Proof. simpl. by rewrite lookup_insert_eq. Qed.

Lemma take_base : same_base d with_proxy.
Proof using Hi.
  split; [|done]. intros x. destruct (decide (x = i)) as [->|Hne].
  - by rewrite take_self, Hi.
  - by rewrite take_lookup.
Qed.

Lemma take_proxies : proxies (accounts with_proxy) = <[i := p]> (proxies (accounts d)).
Proof using Hi.
  apply map_eq. intros x. unfold proxies at 1. rewrite lookup_omap.
  destruct (decide (x = i)) as [->|Hne].
  - by rewrite take_self, lookup_insert_eq.
  - rewrite take_lookup, lookup_insert_ne by done. unfold proxies. by rewrite lookup_omap.
Qed.

Lemma take_votes_for W w x : votes_for (accounts with_proxy) W w x ↔ votes_for (accounts d) W w x.
Proof using Hi.
  unfold votes_for. destruct (decide (x = i)) as [->|Hne].
  - by rewrite take_self, Hi.
  - by rewrite take_lookup.
Qed.

Lemma take_tree : tree_inv with_proxy.
Proof using Hinv Hi Hsilent Hp Hac.
  pose proof (gi_tree _ Hinv) as [Hc _ Hr Hv]. split; rewrite ?take_proxies; try done.
  - intros x q Hx. assert (is_Some (accounts d !! q)) as Hq.
    { destruct (decide (x = i)) as [->|]; [rewrite lookup_insert_eq in Hx; by simplify_eq|].
      rewrite lookup_insert_ne in Hx by done. by eapply Hc. }
    destruct (decide (q = i)) as [->|]; [rewrite take_self; eauto|by rewrite take_lookup].
  - intros w x Hx. apply take_votes_for in Hx. change (witness_votes with_proxy)
      with (witness_votes d) in Hx. rewrite lookup_insert_ne; [by eapply Hr|].
    intros <-. by eapply Hsilent.
Qed.

Lemma take_gov : ∃ d',
  adjust_proxied_witness_votes_array i (direct a :: proxied_vsf_votes a) with_proxy = Ok d' ∧
  gov_inv d' ∧ same_base d d' ∧
  proxies (accounts d') = <[i := p]> (proxies (accounts d)) ∧
  witness_votes d' = witness_votes d.
Proof using All.
  pose proof Hinv as [Hbase Htree Hcount Hbooks]. pose proof take_base as Hsb.
  pose proof (same_base_base _ _ Hsb Hbase) as Hbase'. pose proof (same_base_powers _ _ Hsb) as Epow.
  assert (books (proxies (accounts d)) (powers (accounts with_proxy))
    (votes_for (accounts with_proxy) (witness_votes with_proxy)) with_proxy) as Hb1.
  { rewrite Epow. eapply books_ext; [exact Hbooks|intros; by apply take_votes_for| |done].
    intros x. destruct (decide (x = i)) as [->|]; [by rewrite take_self, Hi|by rewrite take_lookup]. }
  pose proof (inv_adjustable with_proxy Hbase' _ _ Hb1 take_tree) as Hok.
  destruct (attach_books with_proxy (powers (accounts with_proxy)) i Hok)
    with (P := proxies (accounts d)) (p := p) as (d' & Hd & Hb' & fa & fw & A); try done.
  - rewrite take_self. eauto.
  - by apply powers_dom.
  - by apply powers_nonneg.
  - by apply powers_total.
  - apply take_tree.
  - by apply take_proxies.
  - by rewrite (lookup_proxies d i a Hi).
  - exists d'. rewrite (levels_exact with_proxy _ _ Hb1 i _ take_self) in Hd.
    pose proof (adj_rest _ _ _ _ A) as (EW & _). pose proof (adjusted_proxies _ _ _ _ A) as EP.
    pose proof (adjusted_same_base _ _ _ _ A) as Hsb'. split_and!; [done| |by etrans|by rewrite EP, take_proxies|done].
    split.
    + by eapply same_base_base.
    + by apply (adjusted_tree _ _ _ _ A), take_tree.
    + apply (adjusted_count _ _ _ _ A). intros x c Hx. destruct (decide (x = i)) as [->|].
      * rewrite take_self in Hx. injection Hx as <-. exact (Hcount i a Hi).
      * rewrite take_lookup in Hx by done. by apply (Hcount x c).
    + rewrite EP, (same_base_powers _ _ Hsb').
      eapply books_ext; [exact Hb'| |done|done]. intros w x. rewrite EW.
      by apply (adjusted_votes_for _ _ _ _ A).
Qed.

End take.

(** ** The evaluator of proxies *)

Lemma find_account_same n d d' : base_inv d → same_base d d' → find_account n d' = find_account n d.
Proof.
  intros Hb Hs. pose proof (same_base_base _ _ Hs Hb) as Hb'.
  destruct (find_account n d') as [i|] eqn:E'.
  - apply find_account_Some in E' as (a' & Hi & <-).
    destruct (same_base_inv _ _ _ _ Hs Hi) as (a & Ha & E). symmetry.
    assert (name a' = name a) as -> by (unfold base_view in E; congruence).
    by apply find_account_name.
  - destruct (find_account n d) as [i|] eqn:E; [|done].
    apply find_account_Some in E as (a & Hi & <-). pose proof (proj1 Hs i) as Hx. rewrite Hi in Hx.
    destruct (accounts d' !! i) as [a'|] eqn:Ha'; [|done]. simpl in Hx.
    assert (name a' = name a) as En by (unfold base_view in Hx; congruence).
    rewrite <- En, (find_account_name i a' d' Hb' Ha') in E'. done.
Qed.

Lemma same_base_some d d' x : same_base d d' → is_Some (accounts d !! x) → is_Some (accounts d' !! x).
Proof.
  intros [H _] [a Ha]. specialize (H x). rewrite Ha in H. destruct (accounts d' !! x); [eauto|done].
Qed.

(** Pushing the notification changes nothing else. *)
Lemma push_proxy_cleared_exact i a d :
  accounts d !! i = Some a → (∀ q, proxy a = Some q → is_Some (accounts d !! q)) →
  ∃ d', push_proxy_cleared i d = Ok d' ∧
    (∃ ops, virtual_ops d' = virtual_ops d ++ ops) ∧
    accounts d' = accounts d ∧ witnesses d' = witnesses d ∧ witness_votes d' = witness_votes d ∧
    total_vesting_shares d' = total_vesting_shares d ∧
    processed_hardforks d' = processed_hardforks d.
Proof.
  intros Hi Hc. unfold push_proxy_cleared, get_account. rewrite Hi.
  cbn [from_option_or mbind result_bind].
  destruct (proxy a) as [q|]; [|exists d; split_and!; try done; exists []; by rewrite app_nil_r].
  destruct (Hc q eq_refl) as [b Hb]. rewrite Hb. cbn [from_option_or mbind result_bind].
  eexists; split; [done|]. simpl. split; [eauto|done].
Qed.

Lemma clear_witness_votes_exact i a d :
  accounts d !! i = Some a → HIVE_HARDFORK_0_6__104 < processed_hardforks d →
  clear_witness_votes i d
  = Ok (set_accounts (<[i := set_witnesses_voted_for 0 a]> (accounts d))
          (set_witness_votes (filter (λ v, v.1 ≠ name a) (witness_votes d)) d)).
Proof.
  intros Hi Hh. unfold clear_witness_votes, get_account. rewrite Hi.
  cbn [from_option_or mbind result_bind]. unfold has_hardfork. simpl processed_hardforks.
  rewrite (proj2 (Z.ltb_lt _ _) Hh). unfold modify_account, get_account. simpl. by rewrite Hi.
Qed.

(** An account with a proxy has no votes of its own. *)
Lemma proxied_silent d i a : gov_inv d → accounts d !! i = Some a → proxy a ≠ None →
  filter (λ v, v.1 ≠ name a) (witness_votes d) = witness_votes d ∧ witnesses_voted_for a = 0.
Proof.
  intros [Hbase Htree Hcount _] Hi Hp.
  assert (∀ w, (name a, w) ∉ witness_votes d) as Hno.
  { intros w Hw. apply Hp. rewrite <- (lookup_proxies d i a Hi). apply (ti_roots _ Htree w).
    unfold votes_for. by rewrite Hi. }
  split.
  - apply set_eq. intros [n w]. rewrite elem_of_filter. simpl. naive_solver.
  - destruct (Hcount i a Hi) as [-> _].
    assert (filter (λ v, v.1 = name a) (witness_votes d) = ∅) as ->; [|by rewrite size_empty].
    apply set_eq. intros [n w]. rewrite elem_of_filter. simpl. set_solver.
Qed.

(** Taking the proxy [p] closes no loop when its chain is short. *)
Lemma short_chain_acyclic P i p : acyclic P → short_chain P i p →
  acyclic (<[i := p]> (delete i P)).
Proof.
  intros Hac (k & r & _ & Hr & Hroot & Hno). apply acyclic_insert.
  - by apply acyclic_delete.
  - apply lookup_delete_eq.
  - intros j Hj%anc_delete. destruct (Nat.le_gt_cases j k); [by eapply Hno|].
    by rewrite (anc_past_root P k j p r) in Hj.
Qed.

Section nullified.
Context (d d1 : chain_state) (i : Z) (a : account_object) (fa : Z → nat → Z) (fw : string → Z).
Context (Hinv : gov_inv d) (Hi : accounts d !! i = Some a) (Hadj : adjusted fa fw d d1).
Context (Hbooks1 : books (delete i (proxies (accounts d))) (powers (accounts d))
  (λ w x, votes_for (accounts d) (witness_votes d) w x ∧ x ≠ i) d1).

Lemma nullified_self : accounts d1 !! i = Some (shift_levels (fa i) a).
Proof using Hadj Hi. by apply (adjusted_account _ _ _ _ Hadj). Qed.

Lemma nullified_closed c q : accounts d1 !! c = Some q →
  ∀ p, proxy q = Some p → is_Some (accounts d1 !! p).
Proof using Hinv Hadj.
  intros Hc p Hp. apply (ti_closed _ (adjusted_tree _ _ _ _ Hadj (gi_tree _ Hinv)) c).
  by rewrite (lookup_proxies _ _ _ Hc).
Qed.

Lemma nullified_rest : witness_votes d1 = witness_votes d ∧
  total_vesting_shares d1 = total_vesting_shares d ∧ processed_hardforks d1 = processed_hardforks d.
Proof using Hadj. pose proof (adj_rest _ _ _ _ Hadj). naive_solver. Qed.

(** The end of a removal of the proxy. *)
Lemma clear_branch q : proxy a = Some q →
  ∃ d2,
    (account ← get_account i d1;
     fc_assert (has_proxy account) "Proxy must change." ;;
     d ← push_proxy_cleared i d1;
     modify_account i (λ a, Ok (set_proxy None a)) d) = Ok d2 ∧
    gov_inv d2 ∧ same_base d d2 ∧
    proxies (accounts d2) = delete i (proxies (accounts d)) ∧ witness_votes d2 = witness_votes d.
Proof using All.
  intros Hq. destruct nullified_rest as (EW & ET & EH).
  destruct (push_proxy_cleared_exact i _ d1 nullified_self) as (d2 & Hd2 & _ & Ea & Ew & EW2 & ET2 & EH2).
  { by eapply nullified_closed, nullified_self. }
  destruct (proxied_silent d i a Hinv Hi) as [Hnov Hzero]; [congruence|].
  eexists. split.
  { unfold get_account at 1. rewrite nullified_self. cbn [from_option_or mbind result_bind].
    unfold has_proxy. simpl proxy. rewrite Hq. cbn [mbind result_bind]. simpl. rewrite Hd2. simpl.
    unfold modify_account, get_account. rewrite Ea, nullified_self. done. }
  split_and!.
  - eapply (leave_gov d d1 _ i a _ fa fw); try done; simpl; congruence.
  - eapply (leave_base d d1 _ i a _ fa fw); try done; simpl; congruence.
  - eapply (leave_proxies d d1 _ i _ fa fw); done.
  - simpl. congruence.
Qed.

(** The end of an expiration. *)
Lemma drop_branch f : (∀ b, gov_view (f b) = gov_view b) →
  ∃ d2,
    (d ← clear_witness_votes i d1;
     d ← push_proxy_cleared i d;
     modify_account i (λ a, Ok (f (set_proxy None a))) d) = Ok d2 ∧
    gov_inv d2 ∧ same_base d d2 ∧
    proxies (accounts d2) = delete i (proxies (accounts d)) ∧
    witness_votes d2 = filter (λ v, v.1 ≠ name a) (witness_votes d).
Proof using All.
  intros Hf. destruct nullified_rest as (EW & ET & EH).
  pose proof (clear_witness_votes_exact i _ d1 nullified_self) as Hclear.
  rewrite EH in Hclear. specialize (Hclear (bi_hardfork _ (gi_base _ Hinv))).
  set (dc := set_accounts _ _) in Hclear.
  assert (accounts dc !! i = Some (set_witnesses_voted_for 0 (shift_levels (fa i) a))) as Hself
    by apply lookup_insert_eq.
  destruct (push_proxy_cleared_exact i _ dc Hself) as (d2 & Hd2 & _ & Ea & Ew & EW2 & ET2 & EH2).
  { intros q Hq. destruct (nullified_closed i _ nullified_self q Hq) as [c Hc].
    simpl. destruct (decide (q = i)) as [->|]; [rewrite lookup_insert_eq; eauto|].
    rewrite lookup_insert_ne by done. eauto. }
  set (b := f (set_proxy None (set_witnesses_voted_for 0 (shift_levels (fa i) a)))).
  assert (gov_view b = gov_view (set_proxy None (set_witnesses_voted_for 0 (shift_levels (fa i) a))))
    as Hb by apply Hf. unfold gov_view in Hb. simpl in Hb.
  exists (set_accounts (<[i := b]> (accounts d1)) d2). split.
  { rewrite Hclear. cbn [mbind result_bind]. rewrite Hd2. cbn [mbind result_bind].
    unfold modify_account, get_account. rewrite Ea, Hself. cbn [from_option_or mbind result_bind].
    simpl. by rewrite insert_insert_eq. }
  assert (base_view b = base_view a) as Hbv by (change (base_view a) with (base_view
    (set_proxy None (set_witnesses_voted_for 0 (shift_levels (fa i) a)))); congruence).
  assert (proxied_vsf_votes b = proxied_vsf_votes (shift_levels (fa i) a)) by (simpl; congruence).
  assert (proxy b = None) by congruence. assert (witnesses_voted_for b = 0) by congruence.
  split_and!.
  - eapply (leave_gov d d1 _ i a b fa fw); try done; simpl; try done. by rewrite EW2; simpl; rewrite EW.
  - eapply (leave_base d d1 _ i a b fa fw); try done.
  - eapply (leave_proxies d d1 _ i b fa fw); try done.
  - simpl. rewrite EW2. simpl. by rewrite EW.
Qed.

(** The end of a change of proxy. *)
Lemma take_branch p : p ≠ i → is_Some (accounts d !! p) →
  short_chain (proxies (accounts d)) i p →
  ∃ d3,
    (d ← clear_witness_votes i d1;
     d ← push_proxy_cleared i d;
     fc_assert (bool_decide (p ≠ i)) "&new_proxy != this" ;;
     d ← modify_account i (λ a, Ok (set_proxy (Some p) a)) d;
     account ← get_account i d;
     delta0 ← get_direct_governance_vote_power account;
     adjust_proxied_witness_votes_array i (delta0 :: proxied_vsf_votes account) d) = Ok d3 ∧
    gov_inv d3 ∧ same_base d d3 ∧
    proxies (accounts d3) = <[i := p]> (proxies (accounts d)) ∧
    witness_votes d3 = filter (λ v, v.1 ≠ name a) (witness_votes d).
Proof using All.
  intros Hne Hp Hshort.
  destruct (drop_branch (λ b, b)) as (d2 & Hd2 & Hinv2 & Hsb2 & EP2 & EW2); [done|].
  destruct (clear_witness_votes i d1) as [dc|] eqn:Hc; [|done]. cbn [mbind result_bind] in *.
  destruct (push_proxy_cleared i dc) as [dp|] eqn:Hpush; [|done]. cbn [mbind result_bind] in *.
  unfold modify_account, get_account in Hd2.
  destruct (accounts dp !! i) as [c|] eqn:Hci; [|done]. cbn [from_option_or mbind result_bind] in Hd2.
  injection Hd2 as <-. set (b := set_proxy None c) in *.
  assert (accounts (set_accounts (<[i := b]> (accounts dp)) dp) !! i = Some b) as Hself
    by apply lookup_insert_eq.
  destruct (take_gov _ i p b Hinv2 Hself eq_refl) as (d3 & Hd3 & Hinv3 & Hsb3 & EP3 & EW3).
  - intros w Hw. pose proof (ti_roots _ (gi_tree _ Hinv2) w i Hw) as _.
    unfold votes_for in Hw. rewrite Hself, EW2 in Hw. apply elem_of_filter in Hw as [Hn _].
    apply Hn. simpl. destruct (same_base_inv _ _ _ _ Hsb2 Hself) as (a' & Ha' & E).
    assert (a' = a) as -> by congruence. unfold base_view in E. simpl in E. congruence.
  - by apply (same_base_some d).
  - rewrite EP2. apply short_chain_acyclic; [apply (gi_tree _ Hinv)|done].
  - exists d3. split_and!; [|done|by etrans|by rewrite EP3, EP2, insert_delete_eq|congruence].
    unfold fc_assert. rewrite bool_decide_true by done. cbn [mbind result_bind].
    unfold modify_account, get_account. rewrite Hci. cbn [from_option_or mbind result_bind].
    cbn [accounts set_accounts]. rewrite lookup_insert_eq.
    cbn [from_option_or mbind result_bind].
    assert (get_direct_governance_vote_power (set_proxy (Some p) c) = Ok (direct b)) as ->.
    { exact (direct_exact _ (gi_base _ Hinv2) i b Hself). }
    cbn [mbind result_bind]. unfold with_proxy in Hd3. cbn [accounts set_accounts] in Hd3.
    rewrite insert_insert_eq in Hd3. exact Hd3.
Qed.

End nullified.

(** An account cannot be its own proxy. *)
Lemma self_proxy_fails d1 i :
  is_ok (check_proxy_chain (S HIVE_MAX_PROXY_RECURSION_DEPTH) {[ i; i ]} i d1 ;;
         d ← clear_witness_votes i d1;
         d ← push_proxy_cleared i d;
         fc_assert (bool_decide (i ≠ i)) "&new_proxy != this" ;;
         d ← modify_account i (λ a, Ok (set_proxy (Some i) a)) d;
         account ← get_account i d;
         delta0 ← get_direct_governance_vote_power account;
         adjust_proxied_witness_votes_array i (delta0 :: proxied_vsf_votes account) d) = false.
Proof.
  destruct (check_proxy_chain _ _ _ _); [|done]. cbn [mbind result_bind].
  destruct (clear_witness_votes i d1) as [dc|]; [|done]. cbn [mbind result_bind].
  destruct (push_proxy_cleared i dc) as [dp|]; [|done]. cbn [mbind result_bind].
  by rewrite bool_decide_false by auto.
Qed.

(** When a change of proxy is accepted. *)
Definition proxy_guard (o : account_witness_proxy_operation) (d : chain_state) : Prop :=
  ∃ i a, find_account (account_witness_proxy_account o) d = Some i ∧
    accounts d !! i = Some a ∧ can_vote a = true ∧
    if is_clearing_proxy o then proxy a ≠ None
    else ∃ p, find_account (account_witness_proxy_proxy o) d = Some p ∧ p ≠ i ∧
         proxy a ≠ Some p ∧ short_chain (proxies (accounts d)) i p.

(** What it does. *)
Definition proxy_outcome (o : account_witness_proxy_operation) (d d' : chain_state) : Prop :=
  ∃ i a, find_account (account_witness_proxy_account o) d = Some i ∧ accounts d !! i = Some a ∧
    if is_clearing_proxy o
    then proxies (accounts d') = delete i (proxies (accounts d)) ∧
         witness_votes d' = witness_votes d
    else ∃ p, find_account (account_witness_proxy_proxy o) d = Some p ∧
         proxies (accounts d') = <[i := p]> (proxies (accounts d)) ∧
         witness_votes d' = filter (λ v, v.1 ≠ name a) (witness_votes d).

(** The common beginning: the expiration is moved, and the account taken out. *)
Lemma nullify_start i a d : gov_inv d → accounts d !! i = Some a →
  ∃ d0 a0 d1 fa fw,
    modify_account i (λ a, Ok (update_governance_vote_expiration_ts (head_block_time d) a)) d
      = Ok d0 ∧
    same_gov d d0 ∧ gov_inv d0 ∧ accounts d0 !! i = Some a0 ∧ gov_view a0 = gov_view a ∧
    nullify_proxied_witness_votes i d0 = Ok d1 ∧ adjusted fa fw d0 d1 ∧
    books (delete i (proxies (accounts d0))) (powers (accounts d0))
      (λ w x, votes_for (accounts d0) (witness_votes d0) w x ∧ x ≠ i) d1.
Proof.
  intros Hinv Hi.
  destruct (modify_same_gov i a (update_governance_vote_expiration_ts (head_block_time d)) d Hi)
    as [Hd0 Hsg].
  { unfold update_governance_vote_expiration_ts. by case_match. }
  set (d0 := set_accounts _ _) in *. pose proof (same_gov_gov _ _ Hsg Hinv) as Hinv0.
  assert (accounts d0 !! i
    = Some (update_governance_vote_expiration_ts (head_block_time d) a)) as Hi0
    by apply lookup_insert_eq.
  destruct (nullify_exact d0 i _ Hinv0 Hi0) as (d1 & Hd1 & Hb1 & fa & fw & A).
  exists d0, (update_governance_vote_expiration_ts (head_block_time d) a), d1, fa, fw.
  split_and!; try done. unfold update_governance_vote_expiration_ts. by case_match.
Qed.

Lemma proxy_evaluator_exact o d : gov_inv d →
  (proxy_guard o d ∧ ∃ d', account_witness_proxy_evaluator o d = Ok d' ∧
     gov_inv d' ∧ same_base d d' ∧ proxy_outcome o d d') ∨
  (¬ proxy_guard o d ∧ is_ok (account_witness_proxy_evaluator o d) = false).
Proof.
  intros Hinv. unfold proxy_guard, proxy_outcome, account_witness_proxy_evaluator, get_account_by_name.
  destruct (find_account (account_witness_proxy_account o) d) as [i|] eqn:Hfi;
    cbn [from_option_or mbind result_bind].
  2: { right. split; [naive_solver|done]. }
  destruct (find_account_Some _ _ _ Hfi) as (a & Hi & Hname). unfold get_account. rewrite Hi.
  cbn [from_option_or mbind result_bind]. unfold fc_assert.
  destruct (can_vote a) eqn:Hcv; cbn [mbind result_bind].
  2: { right. split; [|done]. intros (? & ? & ? & ? & ? & _). congruence. }
  destruct (nullify_start i a d Hinv Hi)
    as (d0 & a0 & d1 & fa & fw & -> & Hsg & Hinv0 & Hi0 & Hv0 & Hd1 & Hadj & Hb1).
  cbn [mbind result_bind]. rewrite Hd1. cbn [mbind result_bind]. clear Hd1.
  pose proof (same_gov_base _ _ Hsg) as Hsb0. pose proof (same_gov_proxies _ _ Hsg) as EP0.
  assert (proxy a0 = proxy a ∧ name a0 = name a) as [Epx Enm]
    by (unfold gov_view, base_view in Hv0; split; congruence).
  destruct (is_clearing_proxy o); cbn [negb].
  - destruct (proxy a) as [q|] eqn:Hq.
    + left. split; [naive_solver|].
      destruct (clear_branch d0 d1 i a0 fa fw Hinv0 Hi0 Hadj Hb1 q Epx) as (d2 & Hd2 & ? & ? & E1 & E2).
      exists d2. split; [exact Hd2|]. split_and!; [done|by etrans|].
      exists i, a. rewrite E1, EP0, E2, (sg_votes _ _ Hsg). done.
    + right. split; [intros (? & ? & ? & ? & ? & ?); congruence|].
      unfold get_account. rewrite (adjusted_account _ _ _ _ Hadj i a0 Hi0).
      cbn [from_option_or mbind result_bind]. unfold has_proxy. simpl. by rewrite Epx.
  - assert (same_base d d1) as Hsb1 by (etrans; [done|by eapply adjusted_same_base]).
    rewrite (find_account_same _ d d1 (gi_base _ Hinv) Hsb1).
    destruct (find_account (account_witness_proxy_proxy o) d) as [p|] eqn:Hfp;
      cbn [from_option_or mbind result_bind]; [|right; split; [naive_solver|done]].
    rewrite (adjusted_account _ _ _ _ Hadj i a0 Hi0). cbn [from_option_or mbind result_bind].
    change (proxy (shift_levels (fa i) a0)) with (proxy a0). rewrite Epx.
    destruct (bool_decide (proxy a ≠ Some p)) eqn:Hpp; cbn [mbind result_bind];
      [apply bool_decide_eq_true in Hpp|apply bool_decide_eq_false in Hpp; right; split; [naive_solver|done]].
    assert (is_Some (accounts d0 !! p)) as Hp0.
    { destruct (find_account_Some _ _ _ Hfp) as (b & Hb & _). apply (same_base_some d); eauto. }
    destruct (decide (p = i)) as [->|Hne].
    { right. split; [naive_solver|]. by apply self_proxy_fails. }
    pose proof (check_proxy_chain_exact d1 (adjusted_tree _ _ _ _ Hadj (gi_tree _ Hinv0)) i p Hne
      (same_base_some _ _ _ (adjusted_same_base _ _ _ _ Hadj) Hp0)) as Hchk.
    rewrite (adjusted_proxies _ _ _ _ Hadj), EP0 in Hchk.
    destruct (check_proxy_chain _ _ _ _) as [[]|e] eqn:Hc; cbn [mbind result_bind].
    + assert (short_chain (proxies (accounts d)) i p) as Hsc by (by apply Hchk).
      left. split; [exists i, a; naive_solver|]. rewrite <- EP0 in Hsc.
      destruct (take_branch d0 d1 i a0 fa fw Hinv0 Hi0 Hadj Hb1 p Hne Hp0 Hsc)
        as (d3 & Hd3 & ? & Hb3 & E1 & E2).
      exists d3. split; [exact Hd3|]. split_and!; [done|exact (transitivity Hsb0 Hb3)|]. exists i, a.
      split_and!; [done|done|]. exists p. rewrite E1, EP0, E2, (sg_votes _ _ Hsg), Enm. done.
    + right. split; [|done]. intros (i' & a' & Hi' & Ha' & _ & p' & Hp' & _ & _ & Hsc).
      simplify_eq. by apply Hchk in Hsc.
Qed.
