(* ===== verification/GovernanceVotes.v ===== *)
(** * Votes for witnesses and their expiration

    The evaluator of [account_witness_vote_operation] and
    [database::remove_expired_governance_votes] keep the books of GovernanceBooks right,
    and succeed exactly when their checks pass. *)

From S2P Require Import Prelude Safe OperationTypes Operations DelayedVotes Account ProxyTree.
From S2P Require Import Governance GovernanceBooks GovernanceOps.
Open Scope Z_scope.

(** ** Power of an account *)

Lemma governance_power_exact d i a : gov_inv d → accounts d !! i = Some a →
  get_governance_vote_power a
  = Ok (reach 4 (proxies (accounts d)) (powers (accounts d)) i).
Proof.
  intros [Hbase Htree Hcount Hbooks] Hi.
  pose proof (powers_nonneg d Hbase) as Hpos. pose proof (powers_lookup d i a Hi) as Hpow.
  pose proof (reach_le (proxies (accounts d)) _ i (ti_acyclic _ Htree) Hpos) as Hr.
  pose proof (powers_total d Hbase). pose proof (bi_max _ Hbase).
  rewrite reach_levels, Hpow in *. simpl in Hr |- *.
  pose proof (bk_levels _ _ _ _ Hbooks i a Hi) as Hlev.
  unfold get_governance_vote_power. rewrite (direct_exact d Hbase i a Hi). cbn [mbind result_bind].
  rewrite foldM_share_add_pos; [by rewrite Hlev| |by eapply Hpos|rewrite Hlev; simpl; lia].
  rewrite Hlev. apply Forall_fmap, Forall_forall. intros k _. by apply subtree_nonneg.
Qed.

(** ** One more vote, or one less *)

Section revote.
Context (d : chain_state) (Hinv : gov_inv d) (i : Z) (a : account_object)
  (Hi : accounts d !! i = Some a) (Hroot : proxy a = None) (w : string)
  (Hw : is_Some (witnesses d !! w)) (approve : bool)
  (Hnew : approve = true ↔ (name a, w) ∉ witness_votes d).
Abbreviation P := (proxies (accounts d)).
Abbreviation pows := (powers (accounts d)).
Abbreviation V := (votes_for (accounts d)).
Abbreviation W := (witness_votes d).

Definition revoted : gset (string * string) :=
  if approve then {[ (name a, w) ]} ∪ W else W ∖ {[ (name a, w) ]}.
Definition vote_sign : Z := if approve then 1 else -1.
Definition vote_change : Z := vote_sign * reach 4 P pows i.

Lemma elem_of_revoted n x :
  (n, x) ∈ revoted ↔ if decide (n = name a ∧ x = w) then approve = true else (n, x) ∈ W.
Proof. unfold revoted. case_decide; destruct approve; set_solver. Qed.

Lemma own_vote (S : gset (string * string)) w' : bz (V S w' i) = bz ((name a, w') ∈ S).
Proof using All. apply bz_iff. unfold votes_for. by rewrite Hi. Qed.

Lemma revoted_count w' x :
  bz (V revoted w' x) = bz (V W w' x) + bz (w' = w ∧ x = i) * vote_sign.
Proof using All.
  unfold vote_sign. destruct (decide (w' = w ∧ x = i)) as [[-> ->]|Hne].
  - rewrite (bz_true (_ ∧ _)) by done. rewrite !own_vote. unfold bz.
    repeat case_decide; rewrite elem_of_revoted, decide_True in * by done;
      destruct approve; naive_solver.
  - rewrite (bz_false (_ ∧ _)) by done. rewrite Z.mul_0_l, Z.add_0_r. apply bz_iff.
    unfold votes_for. destruct (accounts d !! x) as [b|] eqn:Hx; [|done].
    rewrite elem_of_revoted, decide_False; [done|]. intros [Hn ->]. apply Hne. split; [done|].
    by eapply (bi_names _ (gi_base _ Hinv)).
Qed.

Lemma revoted_tally w' :
  tally P pows (V revoted) w' = tally P pows (V W) w' + bz (w' = w) * vote_change.
Proof using All.
  unfold tally.
  rewrite (map_sum_ext _ (λ x v, bz (V W w' x) * reach 4 P pows x
    + bz (w' = w) * (if decide (x = i) then vote_sign * reach 4 P pows x else 0))).
  - rewrite map_sum_add, map_sum_scale, (map_sum_single (λ x _, vote_sign * reach 4 P pows x)).
    by rewrite (powers_lookup d i a Hi).
  - intros x v _. rewrite revoted_count. unfold bz.
    repeat case_decide; subst; try lia; naive_solver.
Qed.

Lemma revoted_roots w' x : V revoted w' x → P !! x = None.
Proof using All.
  unfold votes_for. destruct (accounts d !! x) as [b|] eqn:Hx; [|done]. intros Hv.
  apply elem_of_revoted in Hv. case_decide as Hc.
  - assert (x = i) as -> by (eapply (bi_names _ (gi_base _ Hinv)); naive_solver).
    by rewrite (lookup_proxies d i a Hi).
  - apply (ti_roots _ (gi_tree _ Hinv) w'). unfold votes_for. by rewrite Hx.
Qed.

Lemma revoted_sound : sound_tree P pows (V revoted) (total_vesting_shares d).
Proof using All.
  pose proof (gi_base _ Hinv) as Hbase. split;
    [by apply powers_nonneg|by apply powers_total|apply revoted_roots].
Qed.

Lemma revoted_votes wo : witnesses d !! w = Some wo →
  0 ≤ votes wo + vote_change ≤ total_vesting_shares d.
Proof using All.
  intros Hwo. rewrite (bk_votes _ _ _ _ (gi_books _ Hinv) w wo Hwo).
  pose proof (sound_tally _ _ _ _ w revoted_sound) as Hs. rewrite revoted_tally in Hs.
  rewrite bz_true in Hs by done. lia.
Qed.

Lemma revoted_size n :
  Z.of_nat (size (filter (λ v, v.1 = n) revoted))
  = Z.of_nat (size (filter (λ v, v.1 = n) W)) + (if decide (n = name a) then vote_sign else 0).
Proof using All.
  unfold revoted, vote_sign. case_decide as Hn; [subst n|].
  - destruct approve.
    + assert (filter (λ v, v.1 = name a) ({[ (name a, w) ]} ∪ W)
              = {[ (name a, w) ]} ∪ filter (λ v, v.1 = name a) W) as -> by set_solver.
      rewrite size_union, size_singleton by set_solver. lia.
    + assert ((name a, w) ∈ W) as Hin by (destruct (decide ((name a, w) ∈ W)); naive_solver).
      assert (filter (λ v, v.1 = name a) W
              = {[ (name a, w) ]} ∪ filter (λ v, v.1 = name a) (W ∖ {[ (name a, w) ]})) as E.
      { apply set_eq. intros v. destruct (decide (v = (name a, w))) as [->|]; set_solver. }
      rewrite E. rewrite size_union, size_singleton by set_solver. lia.
  - rewrite Z.add_0_r. do 2 f_equal. apply set_eq. intros [n' x]. rewrite !elem_of_filter.
    destruct approve; set_solver.
Qed.

(** The state after the vote. *)
Lemma revote_gov d2 :
  accounts d2
    = <[i := set_witnesses_voted_for (witnesses_voted_for a + vote_sign) a]> (accounts d) →
  (∀ x, votes <$> witnesses d2 !! x
        = (λ o, votes o + bz (x = w) * vote_change) <$> witnesses d !! x) →
  witness_votes d2 = revoted → total_vesting_shares d2 = total_vesting_shares d →
  processed_hardforks d2 = processed_hardforks d →
  witnesses_voted_for a + vote_sign ≤ HIVE_MAX_ACCOUNT_WITNESS_VOTES →
  gov_inv d2 ∧ same_base d d2 ∧ proxies (accounts d2) = P.
Proof using All.
  intros Ea Ew EW ET EH Hmax. pose proof Hinv as [Hbase Htree Hcount Hbooks].
  set (a2 := set_witnesses_voted_for _ a) in Ea.
  assert (∀ x, x ≠ i → accounts d2 !! x = accounts d !! x) as Hother
    by (intros x Hne; by rewrite Ea, lookup_insert_ne).
  assert (accounts d2 !! i = Some a2) as Hself by (by rewrite Ea, lookup_insert_eq).
  assert (same_base d d2) as Hsb.
  { split; [|done]. intros x. destruct (decide (x = i)) as [->|]; [by rewrite Hself, Hi|].
    by rewrite Hother. }
  assert (proxies (accounts d2) = P) as EP.
  { apply map_eq. intros x. unfold proxies. rewrite !lookup_omap.
    destruct (decide (x = i)) as [->|]; [by rewrite Hself, Hi|by rewrite Hother]. }
  assert (∀ w' x, votes_for (accounts d2) revoted w' x ↔ V revoted w' x) as EV.
  { intros w' x. unfold votes_for.
    destruct (decide (x = i)) as [->|]; [by rewrite Hself, Hi|by rewrite Hother]. }
  assert (∀ x, is_Some (witnesses d2 !! x) ↔ is_Some (witnesses d !! x)) as Ekn
    by (intros x; rewrite <- (fmap_is_Some votes), Ew; by rewrite fmap_is_Some).
  split; [|done]. split; rewrite ?EP, ?EW.
  - by eapply same_base_base.
  - split; rewrite ?EP, ?EW; [|apply Htree| |].
    + intros x p Hp. apply (same_base_some d); [done|]. by eapply (ti_closed _ Htree).
    + intros w' x Hx. by eapply revoted_roots, EV.
    + intros n x Hx. apply Ekn. apply elem_of_revoted in Hx. case_decide as Hc;
        [by destruct Hc as [_ ->]|by eapply (ti_voted _ Htree)].
  - intros x b Hx. rewrite EW, revoted_size. destruct (decide (x = i)) as [->|Hne].
    + rewrite Hself in Hx. simplify_eq/=. rewrite decide_True by done.
      destruct (Hcount i a Hi) as [<- _]. done.
    + rewrite Hother in Hx by done. rewrite decide_False, Z.add_0_r; [by eapply Hcount|].
      intros Hn. apply Hne. by eapply (bi_names _ Hbase).
  - rewrite (same_base_powers _ _ Hsb). split.
    + intros x b Hx. destruct (decide (x = i)) as [->|Hne].
      * rewrite Hself in Hx. simplify_eq/=. by apply (bk_levels _ _ _ _ Hbooks).
      * rewrite Hother in Hx by done. by apply (bk_levels _ _ _ _ Hbooks).
    + intros w' o Ho. specialize (Ew w'). rewrite Ho in Ew.
      destruct (witnesses d !! w') as [o0|] eqn:Ho0; simplify_eq/=.
      rewrite Ew, (bk_votes _ _ _ _ Hbooks w' o0 Ho0), <- revoted_tally.
      apply map_sum_ext. intros x v _. f_equal. apply bz_iff. symmetry. apply EV.
Qed.

End revote.

(** ** The evaluator *)

(** When a vote is accepted. *)
Definition vote_guard (o : account_witness_vote_operation) (d : chain_state) : Prop :=
  ∃ i a, find_account (account_witness_vote_account o) d = Some i ∧ accounts d !! i = Some a ∧
    proxy a = None ∧ can_vote a = true ∧ is_Some (witnesses d !! account_witness_vote_witness o) ∧
    if account_witness_vote_approve o
    then ((name a, account_witness_vote_witness o) ∉ witness_votes d) ∧
         witnesses_voted_for a < HIVE_MAX_ACCOUNT_WITNESS_VOTES
    else (name a, account_witness_vote_witness o) ∈ witness_votes d.

Definition vote_outcome (o : account_witness_vote_operation) (d d' : chain_state) : Prop :=
  let v := (account_witness_vote_account o, account_witness_vote_witness o) in
  proxies (accounts d') = proxies (accounts d) ∧
  witness_votes d' = if account_witness_vote_approve o then {[ v ]} ∪ witness_votes d
                     else witness_votes d ∖ {[ v ]}.

Lemma old_hardforks d : gov_inv d →
  has_hardfork HIVE_HARDFORK_0_2 d = true ∧ has_hardfork HIVE_HARDFORK_0_3 d = true.
Proof.
  intros Hinv. pose proof (bi_hardfork _ (gi_base _ Hinv)) as H.
  unfold has_hardfork, HIVE_HARDFORK_0_2, HIVE_HARDFORK_0_3, HIVE_HARDFORK_0_6__104 in *.
  split; apply Z.ltb_lt; lia.
Qed.

Lemma adjusted_accounts_id fw d d' : adjusted (λ _ _, 0) fw d d' → accounts d' = accounts d.
Proof.
  intros H. apply map_eq. intros q. rewrite (adj_accounts _ _ _ _ H).
  destruct (accounts d !! q); simpl; [|done]. by rewrite shift_levels_0.
Qed.

Lemma mul_minus_1 x : -1 * x = - x.
Proof. lia. Qed.

Section vote.
Context (d : chain_state) (Hinv : gov_inv d) (i : Z) (a : account_object)
  (Hi : accounts d !! i = Some a) (Hroot : proxy a = None) (w : string)
  (Hw : is_Some (witnesses d !! w)).

(** A vote is added. *)
Lemma approve_branch :
  (name a, w) ∉ witness_votes d → witnesses_voted_for a < HIVE_MAX_ACCOUNT_WITNESS_VOTES →
  ∃ d2,
    (power ← get_governance_vote_power a;
     d ← adjust_witness_vote w power (set_witness_votes ({[ (name a, w) ]} ∪ witness_votes d) d);
     modify_account i (λ a, Ok (set_witnesses_voted_for (u16 (witnesses_voted_for a + 1)) a)) d)
    = Ok d2 ∧
    gov_inv d2 ∧ same_base d d2 ∧ proxies (accounts d2) = proxies (accounts d) ∧
    witness_votes d2 = {[ (name a, w) ]} ∪ witness_votes d.
Proof using All.
  intros Hno Hmax. rewrite (governance_power_exact d i a Hinv Hi). cbn [mbind result_bind].
  destruct Hw as [wo Hwo]. set (dv := set_witness_votes _ d).
  assert (true = true ↔ (name a, w) ∉ witness_votes d) as Hnew by done.
  pose proof (revoted_votes d Hinv i a Hi Hroot w Hw true Hnew wo Hwo) as Hb.
  unfold vote_change, vote_sign in Hb. rewrite Z.mul_1_l in Hb.
  destruct (adjust_witness_vote_exact w _ dv wo Hwo Hb (bi_max _ (gi_base _ Hinv)))
    as (d1 & -> & A).
  pose proof (adjusted_accounts_id _ _ _ A) as Ea.
  pose proof (adj_rest _ _ _ _ A) as (EW & _ & ET & _ & _ & EH & _).
  cbn [mbind result_bind]. unfold modify_account, get_account. rewrite Ea.
  change (accounts dv) with (accounts d). rewrite Hi. cbn [from_option_or mbind result_bind].
  destruct (gi_count _ Hinv i a Hi) as [Hc _]. unfold HIVE_MAX_ACCOUNT_WITNESS_VOTES in Hmax.
  rewrite u16_id by (unfold u16_max; lia). eexists; split; [done|]. set (d2 := set_accounts _ d1).
  destruct (revote_gov d Hinv i a Hi Hroot w Hw true Hnew d2) as (? & ? & ?); try done.
  - intros x. unfold vote_change, vote_sign. rewrite Z.mul_1_l. apply (adj_votes _ _ _ _ A).
  - unfold vote_sign, HIVE_MAX_ACCOUNT_WITNESS_VOTES. lia.
Qed.

(** A vote is taken back. *)
Lemma reject_branch : (name a, w) ∈ witness_votes d →
  ∃ d2,
    (power ← get_governance_vote_power a;
     d ← (neg ← share_neg power; adjust_witness_vote w neg d);
     d ← modify_account i (λ a, Ok (set_witnesses_voted_for (u16 (witnesses_voted_for a - 1)) a)) d;
     Ok (set_witness_votes (witness_votes d ∖ {[ (name a, w) ]}) d)) = Ok d2 ∧
    gov_inv d2 ∧ same_base d d2 ∧ proxies (accounts d2) = proxies (accounts d) ∧
    witness_votes d2 = witness_votes d ∖ {[ (name a, w) ]}.
Proof using All.
  intros Hin. rewrite (governance_power_exact d i a Hinv Hi). cbn [mbind result_bind].
  pose proof (gi_base _ Hinv) as Hbase. pose proof (ti_acyclic _ (gi_tree _ Hinv)) as Hac.
  pose proof (reach_le _ _ i Hac (powers_nonneg d Hbase)) as Hr.
  rewrite share_neg_in by (unfold i64_min; lia). cbn [mbind result_bind].
  destruct Hw as [wo Hwo].
  assert (false = true ↔ (name a, w) ∉ witness_votes d) as Hnew by done.
  pose proof (revoted_votes d Hinv i a Hi Hroot w Hw false Hnew wo Hwo) as Hb.
  unfold vote_change, vote_sign in Hb. rewrite mul_minus_1 in Hb.
  destruct (adjust_witness_vote_exact w _ d wo Hwo Hb (bi_max _ Hbase)) as (d1 & -> & A).
  pose proof (adjusted_accounts_id _ _ _ A) as Ea.
  pose proof (adj_rest _ _ _ _ A) as (EW & _ & ET & _ & _ & EH & _).
  cbn [mbind result_bind]. unfold modify_account, get_account. rewrite Ea, Hi.
  cbn [from_option_or mbind result_bind].
  pose proof (revoted_size d Hinv i a Hi Hroot w Hw false Hnew (name a)) as Hsz.
  rewrite decide_True in Hsz by done. unfold vote_sign in Hsz.
  destruct (gi_count _ Hinv i a Hi) as [Hc Hmax]. unfold HIVE_MAX_ACCOUNT_WITNESS_VOTES in Hmax.
  rewrite u16_id by (unfold u16_max; lia). eexists; split; [done|]. set (d2 := set_witness_votes _ _).
  destruct (revote_gov d Hinv i a Hi Hroot w Hw false Hnew d2) as (? & ? & ?); try done.
  - intros x. unfold vote_change, vote_sign. rewrite mul_minus_1.
    apply (adj_votes _ _ _ _ A).
  - simpl. by rewrite EW.
  - unfold vote_sign, HIVE_MAX_ACCOUNT_WITNESS_VOTES. lia.
  - split_and!; try done. simpl. by rewrite EW.
Qed.

End vote.

Lemma get_account_Some i a d : accounts d !! i = Some a → get_account i d = Ok a.
Proof. unfold get_account. by intros ->. Qed.

Lemma update_expiration_view t a :
  gov_view (update_governance_vote_expiration_ts t a) = gov_view a.
Proof. unfold update_governance_vote_expiration_ts. by case_match. Qed.

(** The common beginning: the expiration is moved, which no vote depends on. *)
Lemma vote_start i a d : gov_inv d → accounts d !! i = Some a →
  let a0 := update_governance_vote_expiration_ts (head_block_time d) a in
  let d0 := set_accounts (<[i := a0]> (accounts d)) d in
  modify_account i (λ a, Ok (update_governance_vote_expiration_ts (head_block_time d) a)) d
    = Ok d0 ∧
  gov_inv d0 ∧ same_base d d0 ∧ proxies (accounts d0) = proxies (accounts d) ∧
  accounts d0 !! i = Some a0 ∧ proxy a0 = proxy a ∧ name a0 = name a ∧
  witnesses_voted_for a0 = witnesses_voted_for a.
Proof.
  intros Hinv Hi a0 d0. pose proof (update_expiration_view (head_block_time d) a) as Hf.
  destruct (modify_same_gov i a (update_governance_vote_expiration_ts (head_block_time d)) d Hi Hf)
    as [Hm Hsg].
  split; [exact Hm|]. split; [exact (same_gov_gov _ _ Hsg Hinv)|].
  split; [exact (same_gov_base _ _ Hsg)|]. split; [exact (same_gov_proxies _ _ Hsg)|].
  split; [apply lookup_insert_eq|]. unfold gov_view, base_view in Hf.
  split_and!; unfold a0; congruence.
Qed.

Lemma vote_evaluator_exact o d : gov_inv d →
  (vote_guard o d ∧ ∃ d', account_witness_vote_evaluator o d = Ok d' ∧
     gov_inv d' ∧ same_base d d' ∧ vote_outcome o d d') ∨
  (¬ vote_guard o d ∧ is_ok (account_witness_vote_evaluator o d) = false).
Proof.
  intros Hinv. remember (account_witness_vote_evaluator o d) as r eqn:Hr.
  unfold vote_guard, vote_outcome. unfold account_witness_vote_evaluator, get_account_by_name in Hr.
  destruct (find_account (account_witness_vote_account o) d) as [i|] eqn:Hfi.
  2: { right. subst r. split; [naive_solver|done]. }
  destruct (find_account_Some _ _ _ Hfi) as (a & Hi & Hname).
  cbn [from_option_or mbind result_bind] in Hr. rewrite (get_account_Some _ _ _ Hi) in Hr.
  cbn [mbind result_bind] in Hr. unfold has_proxy, fc_assert in Hr.
  set (w := account_witness_vote_witness o) in *.
  destruct (proxy a) as [q|] eqn:Hq.
  { right. subst r. split; [intros (? & ? & ? & ? & ? & _); congruence|done]. }
  destruct (can_vote a) eqn:Hcv.
  2: { right. subst r. split; [|done]. intros (? & ? & ? & ? & _ & ? & _). congruence. }
  rewrite bool_decide_false in Hr by auto. cbn [negb mbind result_bind] in Hr.
  destruct (vote_start i a d Hinv Hi) as (Hm & Hinv0 & Hsb0 & EP0 & Hi0 & Hp0 & Hn0 & Hv0).
  rewrite Hm in Hr. cbn [mbind result_bind] in Hr. rewrite Hq in Hp0.
  set (a0 := update_governance_vote_expiration_ts (head_block_time d) a) in *.
  set (d0 := set_accounts _ d) in *. change (witness_votes d0) with (witness_votes d) in Hr.
  pose proof (eq_refl : get_witness w d0 = from_option_or out_of_range_exception (witnesses d !! w))
    as Hgw.
  destruct (witnesses d !! w) as [wo|] eqn:Hwo; rewrite Hgw in Hr.
  2: { right. subst r. split; [|done]. intros (? & ? & ? & ? & _ & _ & [? ?] & _). congruence. }
  cbn [from_option_or mbind result_bind] in Hr. rewrite (get_account_Some _ _ _ Hi0) in Hr.
  cbn [mbind result_bind] in Hr. rewrite Hn0, Hv0 in Hr.
  assert (is_Some (witnesses d0 !! w)) as Hw by (exists wo; exact Hwo).
  destruct (old_hardforks d0 Hinv0) as [H2 H3].
  destruct (account_witness_vote_approve o).
  - destruct (decide ((name a, w) ∉ witness_votes d)) as [Hin|Hin]; cbn [mbind result_bind] in Hr.
    2: { right. subst r. split; [|done]. intros (? & ? & ? & ? & _ & _ & _ & ? & _). by simplify_eq. }
    rewrite H2 in Hr.
    destruct (Z.ltb_spec (witnesses_voted_for a) HIVE_MAX_ACCOUNT_WITNESS_VOTES) as [Hc|Hc].
    2: { right. subst r. split; [|done].
         intros (? & ? & ? & ? & _ & _ & _ & _ & ?). simplify_eq. lia. }
    left. split; [exists i, a; naive_solver|]. cbn [mbind result_bind] in Hr.
    rewrite <- Hn0 in Hin. rewrite <- Hv0 in Hc.
    destruct (approve_branch d0 Hinv0 i a0 Hi0 Hp0 w Hw Hin Hc) as (d2 & Hd2 & G & B & E1 & E2).
    change (has_hardfork ?h (set_witness_votes _ d0)) with (has_hardfork h d0) in Hr.
    rewrite Hn0 in Hd2, E2. change (witness_votes d0) with (witness_votes d) in Hd2, E2.
    exists d2. split; [rewrite Hr, ?H2, ?H3; exact Hd2|].
    split; [done|]. split; [exact (transitivity Hsb0 B)|]. by rewrite E1, EP0, E2, Hname.
  - destruct (decide ((name a, w) ∉ witness_votes d)) as [Hin|Hin]; cbn [mbind result_bind] in Hr.
    { right. subst r. split; [|done]. intros (? & ? & ? & ? & _ & _ & _ & ?). by simplify_eq. }
    apply dec_stable in Hin. left. split; [exists i, a; naive_solver|].
    rewrite <- Hn0 in Hin.
    destruct (reject_branch d0 Hinv0 i a0 Hi0 Hp0 w Hw Hin) as (d2 & Hd2 & G & B & E1 & E2).
    rewrite Hn0 in Hd2, E2. change (witness_votes d0) with (witness_votes d) in E2.
    exists d2. split; [rewrite Hr, ?H2, ?H3; exact Hd2|].
    split; [done|]. split; [exact (transitivity Hsb0 B)|]. by rewrite E1, EP0, E2, Hname.
Qed.
