(* ===== verification/GovernanceExpiration.v ===== *)
(** * Expiration of governance votes

    [database::remove_expired_governance_votes] removes at most
    [current_remove_threshold] proposal votes per call and stops in the middle of an account
    when that limit is reached.  Every call keeps the books of GovernanceBooks right, and a
    bounded number of calls clears every expired account; of the others only the votes cast
    through them as proxies change. *)

From S2P Require Import Prelude Safe OperationTypes Operations DelayedVotes Account ProxyTree.
From S2P Require Import Governance GovernanceBooks GovernanceOps GovernanceVotes.
Open Scope Z_scope.

(** ** The limit on removals *)

(** What is left of the limit after [n] removals. *)
Definition limit_after (limit : Z) (n : nat) : Z :=
  if limit <? 0 then limit else limit - Z.of_nat n.

Lemma remove_votes_while_exact l limit d :
  NoDup l → list_to_set l ⊆ proposal_votes d →
  ∃ d', same_gov d d' ∧ accounts d' = accounts d ∧ head_block_time d' = head_block_time d ∧
    current_remove_threshold d' = current_remove_threshold d ∧
    if decide (limit < 0 ∨ Z.of_nat (length l) ≤ limit) then
      remove_votes_while l limit d = (d', limit_after limit (length l), true) ∧
      proposal_votes d' = proposal_votes d ∖ list_to_set l
    else
      remove_votes_while l limit d = (d', 0, false) ∧
      proposal_votes d' ⊆ proposal_votes d ∧
      proposal_votes d ∖ proposal_votes d' ⊆ list_to_set l ∧
      Z.of_nat (size (proposal_votes d')) = Z.of_nat (size (proposal_votes d)) - limit.
Proof.
  revert limit d. induction l as [|v l IH]; intros limit d Hnd Hsub.
  { exists d. split_and!; [by split|done|done|done|]. unfold limit_after. simpl.
    rewrite decide_True by lia. split; [|set_solver]. destruct (Z.ltb_spec limit 0); [done|]. by rewrite Z.sub_0_r. }
  apply NoDup_cons in Hnd as [Hv Hnd]. simpl remove_votes_while. unfold remove_guard_step.
  assert (∀ limit', (limit < 0 → limit' = limit) → (0 < limit → limit' = limit - 1) → limit ≠ 0 →
    ∃ d', same_gov d d' ∧ accounts d' = accounts d ∧ head_block_time d' = head_block_time d ∧
    current_remove_threshold d' = current_remove_threshold d ∧
    if decide (limit < 0 ∨ Z.of_nat (length (v :: l)) ≤ limit) then
      remove_votes_while l limit' (set_proposal_votes (proposal_votes d ∖ {[ v ]}) d)
        = (d', limit_after limit (length (v :: l)), true) ∧
      proposal_votes d' = proposal_votes d ∖ list_to_set (v :: l)
    else
      remove_votes_while l limit' (set_proposal_votes (proposal_votes d ∖ {[ v ]}) d)
        = (d', 0, false) ∧
      proposal_votes d' ⊆ proposal_votes d ∧
      proposal_votes d ∖ proposal_votes d' ⊆ list_to_set (v :: l) ∧
      Z.of_nat (size (proposal_votes d')) = Z.of_nat (size (proposal_votes d)) - limit) as Hstep.
  { intros limit' H1 H2 H3.
    destruct (IH limit' (set_proposal_votes (proposal_votes d ∖ {[ v ]}) d) Hnd)
      as (d' & Hsg & Ha & Hh & Ht & H); [set_solver|].
    exists d'. split_and!; [by destruct Hsg|done|done|done|]. simpl length. simpl in H.
    assert (size (proposal_votes d ∖ {[ v ]}) = size (proposal_votes d) - 1)%nat as Hsz.
    { rewrite size_difference by set_solver. by rewrite size_singleton. }
    assert (0 < size (proposal_votes d))%nat.
    { apply Nat.neq_0_lt_0. intros Hz%size_empty_inv. set_solver. }
    case_decide as Hc; case_decide as Hc'; try (exfalso; lia).
    - destruct H as [-> HE]. split; [|set_solver]. unfold limit_after.
      destruct (Z.ltb_spec limit' 0), (Z.ltb_spec limit 0); do 2 f_equal; lia.
    - destruct H as (-> & Hs1 & Hs2 & Hn). split_and!; [done|set_solver| |lia].
      intros x Hx. destruct (decide (x = v)); set_solver. }
  destruct (Z.ltb_spec 0 limit); [apply Hstep; lia|].
  destruct (Z.eqb_spec limit 0) as [->|]; simpl negb; cbn match; [|apply Hstep; lia].
  exists d. split_and!; [by split|done|done|done|]. rewrite decide_False by (simpl; lia).
  split_and!; [done|done|set_solver|lia].
Qed.

(** The accounts of [X] by name. *)
Definition owned (d : chain_state) (X : gset Z) (n : string) : Prop :=
  ∃ x, x ∈ X ∧ name <$> accounts d !! x = Some n.

(** An account without what others cast through it, and what expiration makes of an
    account. *)
Definition without_levels (a : account_object) : account_object := set_proxied_vsf_votes [] a.
Definition expire_account (a : account_object) : account_object :=
  set_governance_vote_expired (set_proxy None (set_witnesses_voted_for 0 a)).

(** [d'] is [d] after the expiration of the accounts of [X], when proposal votes of accounts
    of [Y] may have been removed too. *)
Record cleared (X Y : gset Z) (d d' : chain_state) : Prop := {
  cl_gov : gov_inv d';
  cl_base : same_base d d';
  cl_proxies : ∀ x, proxies (accounts d') !! x
                    = if decide (x ∈ X) then None else proxies (accounts d) !! x;
  cl_votes : ∀ n w, (n, w) ∈ witness_votes d' ↔ (n, w) ∈ witness_votes d ∧ ¬ owned d X n;
  cl_subset : proposal_votes d' ⊆ proposal_votes d;
  cl_kept : ∀ v, v ∈ proposal_votes d → ¬ owned d Y v.1 → v ∈ proposal_votes d';
  cl_removed : ∀ v, v ∈ proposal_votes d' → ¬ owned d X v.1;
  cl_expiry : ∀ x a', accounts d' !! x = Some a' →
    governance_vote_expiration_ts a' = (if decide (x ∈ X) then time_maximum
      else from_option governance_vote_expiration_ts 0 (accounts d !! x));
  cl_accounts : ∀ x, without_levels <$> accounts d' !! x
    = without_levels <$> (if decide (x ∈ X) then expire_account <$> accounts d !! x else accounts d !! x);
  cl_rest : head_block_time d' = head_block_time d ∧
            current_remove_threshold d' = current_remove_threshold d
}.

Lemma owned_same d d' X n : same_base d d' → owned d' X n ↔ owned d X n.
Proof.
  intros [H _].
  assert (∀ x, name <$> accounts d' !! x = name <$> accounts d !! x) as E.
  { intros x. specialize (H x). unfold base_view in H.
    destruct (accounts d !! x), (accounts d' !! x); simpl in *; congruence. }
  unfold owned. by setoid_rewrite E.
Qed.

Lemma owned_union d X1 X2 n : owned d (X1 ∪ X2) n ↔ owned d X1 n ∨ owned d X2 n.
Proof. unfold owned. set_solver. Qed.

Lemma owned_mono d X Y n : X ⊆ Y → owned d X n → owned d Y n.
Proof. unfold owned. set_solver. Qed.

Lemma expire_same (o1 o2 : option account_object) :
  without_levels <$> o1 = without_levels <$> o2 →
  without_levels <$> (expire_account <$> o1) = without_levels <$> (expire_account <$> o2).
Proof.
  destruct o1 as [a|], o2 as [b|]; simpl; try done. intros E%(inj Some). f_equal.
  change (expire_account (without_levels a) = expire_account (without_levels b)). by rewrite E.
Qed.

Lemma cleared_mono X Y Y' d d' : Y ⊆ Y' → cleared X Y d d' → cleared X Y' d d'.
Proof.
  intros HY []. split; try done. intros v Hv Hno. apply cl_kept0; [done|].
  intros Ho. by eapply Hno, owned_mono.
Qed.

Lemma cleared_trans X1 X2 Y d d1 d2 :
  cleared X1 Y d d1 → cleared X2 Y d1 d2 → cleared (X1 ∪ X2) Y d d2.
Proof.
  intros C1 C2. pose proof (cl_base _ _ _ _ C1) as B1.
  assert (∀ X n, owned d1 X n ↔ owned d X n) as Eo by (intros; by apply owned_same).
  split.
  - apply C2.
  - etrans; eapply cl_base; eassumption.
  - intros x. rewrite (cl_proxies _ _ _ _ C2), (cl_proxies _ _ _ _ C1).
    repeat case_decide; set_solver.
  - intros n w. rewrite (cl_votes _ _ _ _ C2), (cl_votes _ _ _ _ C1), Eo, owned_union. naive_solver.
  - etrans; eapply cl_subset; eassumption.
  - intros v Hv Hno. apply (cl_kept _ _ _ _ C2); [by apply (cl_kept _ _ _ _ C1)|by rewrite Eo].
  - intros v Hv. rewrite owned_union. intros [Ho|Ho].
    + by eapply (cl_removed _ _ _ _ C1), Ho; apply (cl_subset _ _ _ _ C2).
    + by eapply (cl_removed _ _ _ _ C2), Eo.
  - intros x a2 Hx. rewrite (cl_expiry _ _ _ _ C2 x a2 Hx).
    destruct (same_base_inv _ _ _ _ (cl_base _ _ _ _ C2) Hx) as (a1 & Hx1 & _).
    rewrite Hx1. simpl. rewrite (cl_expiry _ _ _ _ C1 x a1 Hx1). repeat case_decide; set_solver.
  - intros x. rewrite (cl_accounts _ _ _ _ C2 x). pose proof (cl_accounts _ _ _ _ C1 x) as E1.
    destruct (decide (x ∈ X2)) as [H2|H2].
    + rewrite (decide_True (P := x ∈ X1 ∪ X2)), (expire_same _ _ E1) by set_solver.
      destruct (decide (x ∈ X1)); [|done]. by destruct (accounts d !! x).
    + rewrite E1, (decide_ext (x ∈ X1) (x ∈ X1 ∪ X2)) by set_solver. done.
  - pose proof (cl_rest _ _ _ _ C1). pose proof (cl_rest _ _ _ _ C2). intuition congruence.
Qed.

(** ** One account *)

Definition voter_votes (n : string) (d : chain_state) : gset (string * Z) :=
  filter (λ v, v.1 = n) (proposal_votes d).

(** Removing proposal votes, which may stop at the limit. *)
Lemma remove_proposal_votes_cleared i a limit d : gov_inv d → accounts d !! i = Some a →
  ∃ d', cleared ∅ {[ i ]} d d' ∧ accounts d' = accounts d ∧ same_gov d d' ∧
    ((∃ limit', remove_proposal_votes (name a) limit d = (d', limit', true) ∧
       (limit < 0 → limit' = limit) ∧ voter_votes (name a) d' = ∅ ∧
       (0 ≤ limit → 0 ≤ limit' ∧ Z.of_nat (size (proposal_votes d')) - limit'
                                 = Z.of_nat (size (proposal_votes d)) - limit)) ∨
     (0 ≤ limit ∧ remove_proposal_votes (name a) limit d = (d', 0, false) ∧
      Z.of_nat (size (proposal_votes d')) = Z.of_nat (size (proposal_votes d)) - limit)).
Proof.
  intros Hinv Hi. set (n := name a).
  set (l := merge_sort proposal_vote_le (filter (λ v, v.1 = n) (elements (proposal_votes d)))).
  assert (∀ v, v ∈ l ↔ v.1 = n ∧ v ∈ proposal_votes d) as Hl.
  { intros v. unfold l. rewrite merge_sort_Permutation, list_elem_of_filter.
    by rewrite elem_of_elements. }
  assert (NoDup l) as Hnd.
  { unfold l. rewrite merge_sort_Permutation. apply NoDup_filter, NoDup_elements. }
  assert (size (list_to_set l : gset (string * Z)) = length l) as Hsz
    by (by apply size_list_to_set).
  assert (list_to_set l ⊆ proposal_votes d) as Hsub
    by (intros v Hv; apply elem_of_list_to_set, Hl in Hv; naive_solver).
  destruct (remove_votes_while_exact l limit d Hnd Hsub) as (d' & Hsg & Ha & Hh & Ht & H).
  assert (proposal_votes d' ⊆ proposal_votes d ∧
          (∀ v, v ∈ proposal_votes d → v.1 ≠ n → v ∈ proposal_votes d')) as [Hs Hk].
  { case_decide as Hc.
    - destruct H as [_ ->]. split; [set_solver|]. intros v Hv Hn. apply elem_of_difference.
      split; [done|]. rewrite elem_of_list_to_set, Hl. naive_solver.
    - destruct H as (_ & Hs & Hd & _). split; [done|]. intros v Hv Hn.
      destruct (decide (v ∈ proposal_votes d')) as [|Hno]; [done|].
      assert (v ∈ (list_to_set l : gset (string * Z))) as Hin by set_solver.
      rewrite elem_of_list_to_set, Hl in Hin. naive_solver. }
  exists d'. split_and!; [split|done|done|].
  - by eapply same_gov_gov.
  - by apply same_gov_base.
  - intros x. rewrite Ha, decide_False; set_solver.
  - intros n' w. rewrite (sg_votes _ _ Hsg). unfold owned. set_solver.
  - done.
  - intros v Hv Hno. apply Hk; [done|]. intros Hn. apply Hno. exists i. rewrite Hi. simpl.
    rewrite Hn. set_solver.
  - intros v _. unfold owned. set_solver.
  - intros x a' Hx. rewrite <- Ha, Hx. rewrite decide_False; set_solver.
  - intros x. rewrite Ha, decide_False; set_solver.
  - done.
  - unfold remove_proposal_votes. fold l. case_decide as Hc.
    + left. destruct H as [-> HE]. eexists. split; [done|]. rewrite HE.
      assert (size (proposal_votes d ∖ list_to_set l) = size (proposal_votes d) - length l)%nat as E
        by (by rewrite size_difference, Hsz by done).
      pose proof (subseteq_size _ _ Hsub) as Hle. rewrite Hsz in Hle. rewrite E. unfold limit_after.
      split_and!; [destruct (Z.ltb_spec limit 0); lia| |destruct (Z.ltb_spec limit 0); lia].
      unfold voter_votes. rewrite HE. apply set_eq. intros v.
      rewrite elem_of_filter, elem_of_difference, elem_of_list_to_set, Hl. set_solver.
    + right. destruct H as (-> & _ & _ & Hn). split_and!; [lia|done|done].
Qed.

(** What the end of an expiration leaves alone. *)
Lemma drop_frame i a d1 d2 : accounts d1 !! i = Some a →
  HIVE_HARDFORK_0_6__104 < processed_hardforks d1 →
  (d ← clear_witness_votes i d1;
   d ← push_proxy_cleared i d;
   modify_account i (λ a, Ok (set_governance_vote_expired (set_proxy None a))) d) = Ok d2 →
  (∀ x, accounts d2 !! x
        = if decide (x = i) then expire_account <$> accounts d1 !! x else accounts d1 !! x) ∧
  proposal_votes d2 = proposal_votes d1 ∧ head_block_time d2 = head_block_time d1 ∧
  current_remove_threshold d2 = current_remove_threshold d1.
Proof.
  intros Hi Hhf H. rewrite (clear_witness_votes_exact i a d1 Hi Hhf) in H. cbn [mbind result_bind] in H.
  set (dc := set_accounts _ _) in H.
  apply bind_Ok in H as (dp & Hp & H).
  assert (accounts dp = accounts dc ∧ proposal_votes dp = proposal_votes dc ∧
          head_block_time dp = head_block_time dc ∧
          current_remove_threshold dp = current_remove_threshold dc) as (F1 & F2 & F3 & F4).
  { unfold push_proxy_cleared in Hp. apply bind_Ok in Hp as (b & _ & Hp).
    destruct (proxy b); [apply bind_Ok in Hp as (? & _ & Hp)|]; by injection Hp as <-. }
  assert (accounts dc !! i = Some (set_witnesses_voted_for 0 a)) as Hself by apply lookup_insert_eq.
  unfold modify_account, get_account in H. rewrite F1, Hself in H.
  cbn [from_option_or mbind result_bind] in H. injection H as <-. simpl.
  split; [|by rewrite F2, F3, F4]. intros x.
  destruct (decide (x = i)) as [->|]; [by rewrite lookup_insert_eq, Hi|].
  simpl. by rewrite !lookup_insert_ne.
Qed.

Lemma expire_tail i a d : gov_inv d → accounts d !! i = Some a → voter_votes (name a) d = ∅ →
  ∃ d2,
    (d ← nullify_proxied_witness_votes i d;
     d ← clear_witness_votes i d;
     d ← push_proxy_cleared i d;
     modify_account i (λ a, Ok (set_governance_vote_expired (set_proxy None a))) d) = Ok d2 ∧
    cleared {[ i ]} {[ i ]} d d2 ∧ proposal_votes d2 = proposal_votes d.
Proof.
  intros Hinv Hi Hno. destruct (nullify_exact d i a Hinv Hi) as (d1 & Hd1 & Hb & fa & fw & A).
  destruct (drop_branch d d1 i a fa fw Hinv Hi A Hb set_governance_vote_expired)
    as (d2 & Hd2 & G & B & EP & EW); [done|].
  pose proof (adj_rest _ _ _ _ A) as (_ & Rp & _ & Rh & Rt & Rf & _).
  destruct (drop_frame i _ d1 d2 (adjusted_account _ _ _ _ A i a Hi)) as (Fe & Fp & Fh & Ft);
    [rewrite Rf; apply (gi_base _ Hinv)|done|].
  assert (∀ n, owned d {[ i ]} n ↔ n = name a) as Ho.
  { intros n. unfold owned. setoid_rewrite elem_of_singleton. split.
    - intros (x & -> & E). rewrite Hi in E. simpl in E. congruence.
    - intros ->. exists i. by rewrite Hi. }
  exists d2. split; [by rewrite Hd1|]. split; [|congruence]. split; try done.
  - intros x. rewrite EP. case_decide as Hx.
    + apply elem_of_singleton in Hx as ->. apply lookup_delete_eq.
    + rewrite lookup_delete_ne; set_solver.
  - intros n w. rewrite EW, elem_of_filter, Ho. simpl. naive_solver.
  - rewrite Fp, Rp. done.
  - intros v Hv _. by rewrite Fp, Rp.
  - intros v Hv. rewrite Ho. intros Hn. rewrite Fp, Rp in Hv.
    assert (v ∈ voter_votes (name a) d) by (by apply elem_of_filter). set_solver.
  - intros x a' Hx. specialize (Fe x). rewrite Hx, (adj_accounts _ _ _ _ A) in Fe.
    case_decide as Hc.
    + subst x. rewrite Hi in Fe. injection Fe as ->. by rewrite decide_True by set_solver.
    + rewrite decide_False by set_solver. destruct (accounts d !! x); by simplify_eq/=.
  - intros x. rewrite Fe, (adj_accounts _ _ _ _ A).
    rewrite (decide_ext (x ∈ ({[ i ]} : gset Z)) (x = i)) by apply elem_of_singleton.
    destruct (decide (x = i)); by destruct (accounts d !! x).
  - split; congruence.
Qed.

(** ** The loop *)

Lemma cleared_push X Y d d' op : cleared X Y d d' → cleared X Y d (push_virtual_operation op d').
Proof.
  intros []. split; try done. by eapply same_gov_gov, cl_gov0; apply push_same_gov.
Qed.

Lemma cleared_refl Y d : gov_inv d → cleared ∅ Y d d.
Proof.
  intros Hinv. split; try done.
  - intros n w. unfold owned. set_solver.
  - intros v _. unfold owned. set_solver.
  - intros x a Hx. rewrite Hx, decide_False by set_solver. done.
Qed.

Lemma expire_accounts_exact l limit d :
  gov_inv d → NoDup l → (∀ i, i ∈ l → is_Some (accounts d !! i)) →
  ∃ d' l1 l2, l = l1 ++ l2 ∧ expire_accounts l limit d = Ok d' ∧
    cleared (list_to_set l1) (list_to_set l) d d' ∧
    (l2 = [] ∨ 0 ≤ limit ∧
       Z.of_nat (size (proposal_votes d')) = Z.of_nat (size (proposal_votes d)) - limit).
Proof.
  revert limit d. induction l as [|i l IH]; intros limit d Hinv Hnd Hin.
  { exists d, [], []. split_and!; try done; [by apply cleared_refl|by left]. }
  apply NoDup_cons in Hnd as [Hil Hnd]. destruct (Hin i) as [a Hi]; [set_solver|]. cbn [expire_accounts].
  rewrite (get_account_Some _ _ _ Hi). cbn [mbind result_bind].
  destruct (remove_proposal_votes_cleared i a limit d Hinv Hi) as (d1 & C1 & Ea & Hsg & H).
  destruct H as [(limit' & -> & Hneg & Hno & Hlim)|(Hlim & -> & Hsz)].
  - cbn match. pose proof (cl_gov _ _ _ _ C1) as Hinv1. rewrite <- Ea in Hi.
    destruct (expire_tail i a d1 Hinv1 Hi Hno) as (d2 & Hd2 & C2 & E2).
    set (op := op_expired_account_notification _). set (d3 := push_virtual_operation op d2).
    assert (cleared {[ i ]} {[ i ]} d d3) as C3.
    { apply cleared_push. replace ({[ i ]} : gset Z) with (∅ ∪ {[ i ]} : gset Z) at 1 by set_solver.
      by eapply cleared_trans. }
    destruct (IH limit' d3) as (d' & l1 & l2 & -> & He & C4 & Hl2); [apply C3|done| |].
    { intros x Hx. apply (same_base_some d); [apply C3|]. apply Hin. set_solver. }
    exists d', (i :: l1), l2. split; [done|]. split; [|split].
    + destruct (nullify_proxied_witness_votes i d1) as [dn|]; [|done].
      cbn [mbind result_bind] in Hd2 |- *.
      destruct (clear_witness_votes i dn) as [dc|]; [|done]. cbn [mbind result_bind] in Hd2 |- *.
      destruct (push_proxy_cleared i dc) as [dp|]; [|done]. cbn [mbind result_bind] in Hd2 |- *.
      rewrite Hd2. exact He.
    + rewrite list_to_set_cons. eapply cleared_trans; eapply cleared_mono; try eassumption;
        set_solver.
    + destruct Hl2 as [->|[Hp Hs]]; [by left|right].
      destruct (Z.lt_ge_cases limit' 0); [lia|].
      assert (0 ≤ limit) by (destruct (Z.lt_ge_cases limit 0); [|done]; lia).
      change (proposal_votes d3) with (proposal_votes d2) in Hs. rewrite E2 in Hs. lia.
  - cbn match. exists d1, [], (i :: l). split_and!; [done|done| |by right].
    eapply cleared_mono; [|exact C1]. set_solver.
Qed.

(** ** Calls *)

Definition expired (d : chain_state) : gset Z :=
  dom (filter (λ p, governance_vote_expiration_ts p.2 ≤ head_block_time d) (accounts d)).

Lemma elem_of_expired d x : x ∈ expired d ↔
  ∃ a, accounts d !! x = Some a ∧ governance_vote_expiration_ts a ≤ head_block_time d.
Proof.
  unfold expired. rewrite elem_of_dom. split.
  - intros [a Ha]. apply map_lookup_filter_Some in Ha. eauto.
  - intros (a & Ha & Ht). exists a. by apply map_lookup_filter_Some.
Qed.

Lemma NoDup_fst_filter {A B} (P : A * B → Prop) `{∀ p, Decision (P p)} (l : list (A * B)) :
  NoDup l.*1 → NoDup (filter P l).*1.
Proof.
  induction l as [|p l IH]; [done|]. rewrite fmap_cons, NoDup_cons, filter_cons. intros [Hp Hl].
  case_decide; [|by apply IH]. rewrite fmap_cons, NoDup_cons. split; [|by apply IH].
  rewrite list_elem_of_fmap in Hp |- *. setoid_rewrite list_elem_of_filter. naive_solver.
Qed.

(** The list the loop goes through. *)
Lemma expired_list d :
  let l := snd <$> merge_sort time_id_le (filter (λ p, p.1 ≤ head_block_time d)
    ((λ p, (governance_vote_expiration_ts p.2, p.1)) <$> map_to_list (accounts d))) in
  NoDup l ∧ list_to_set l = expired d.
Proof.
  intros l. set (m := map_to_list (accounts d)).
  assert (l ≡ₚ snd <$> filter (λ p, p.1 ≤ head_block_time d)
            ((λ p, (governance_vote_expiration_ts p.2, p.1)) <$> m)) as Hp
    by (unfold l; by rewrite merge_sort_Permutation).
  assert (∀ (k : list (Z * account_object)),
    snd <$> filter (λ p : Z * Z, p.1 ≤ head_block_time d)
      ((λ p, (governance_vote_expiration_ts p.2, p.1)) <$> k)
    = fst <$> filter (λ p, governance_vote_expiration_ts p.2 ≤ head_block_time d) k) as E.
  { induction k as [|p k IH]; [done|]. rewrite fmap_cons, !filter_cons. simpl.
    case_decide; [|done]. cbn. f_equal. apply IH. }
  rewrite E in Hp. split.
  - rewrite Hp. apply NoDup_fst_filter, NoDup_fst_map_to_list.
  - apply set_eq. intros x. rewrite elem_of_list_to_set, Hp, elem_of_expired, list_elem_of_fmap.
    setoid_rewrite list_elem_of_filter. split.
    + intros ([y a] & -> & Ht & Ha). apply elem_of_map_to_list in Ha. eauto.
    + intros (a & Ha & Ht). exists (x, a). by rewrite <- elem_of_map_to_list in Ha.
Qed.

(** One call: the accounts of [X] are cleared, all of them unless the limit was used up. *)
Lemma remove_expired_exact d : gov_inv d → has_hardfork HIVE_HARDFORK_1_25 d = true →
  ∃ d' X, X ⊆ expired d ∧ remove_expired_governance_votes d = Ok d' ∧
    cleared X (expired d) d d' ∧
    (X = expired d ∨ 0 ≤ current_remove_threshold d ∧
       Z.of_nat (size (proposal_votes d'))
       = Z.of_nat (size (proposal_votes d)) - current_remove_threshold d).
Proof.
  intros Hinv Hh. unfold remove_expired_governance_votes. rewrite Hh. cbn [negb].
  destruct (expired_list d) as [Hnd Hl]. set (l := snd <$> _) in *.
  destruct (expire_accounts_exact l (current_remove_threshold d) d Hinv Hnd)
    as (d' & l1 & l2 & El & He & C & H).
  { intros i Hi. assert (i ∈ expired d) as Hx by (rewrite <- Hl; by apply elem_of_list_to_set).
    apply elem_of_expired in Hx. naive_solver. }
  exists d', (list_to_set l1). rewrite Hl in C. split_and!; [|done|done|].
  - rewrite <- Hl, El. set_solver.
  - destruct H as [->|H]; [left|by right]. by rewrite <- Hl, El, app_nil_r.
Qed.

Lemma cleared_expired X d d' : X ⊆ expired d → head_block_time d < time_maximum →
  cleared X (expired d) d d' → expired d' = expired d ∖ X.
Proof.
  intros HX Ht C. apply set_eq. intros x. rewrite elem_of_difference, !elem_of_expired.
  destruct (cl_rest _ _ _ _ C) as [-> _]. split.
  - intros (a' & Hx & Hle). rewrite (cl_expiry _ _ _ _ C x a' Hx) in Hle.
    destruct (same_base_inv _ _ _ _ (cl_base _ _ _ _ C) Hx) as (a & Ha & _).
    rewrite Ha in Hle. simpl in Hle. case_decide; [lia|eauto].
  - intros [(a & Ha & Hle) Hno].
    destruct (same_base_some _ _ x (cl_base _ _ _ _ C)) as [a' Hx]; [eauto|].
    exists a'. split; [done|]. rewrite (cl_expiry _ _ _ _ C x a' Hx), decide_False, Ha by done. done.
Qed.

(** Calls in a row. *)
Fixpoint expiration_calls (n : nat) (d : chain_state) : result chain_state :=
  match n with
  | O => Ok d
  | S n => d ← remove_expired_governance_votes d; expiration_calls n d
  end.

Definition calls_needed (d : chain_state) : nat :=
  if current_remove_threshold d <? 0 then 1
  else S (Z.to_nat (Z.of_nat (size (proposal_votes d)) / current_remove_threshold d)).

Lemma expiration_calls_cleared n d :
  gov_inv d → has_hardfork HIVE_HARDFORK_1_25 d = true → head_block_time d < time_maximum →
  current_remove_threshold d ≠ 0 → (calls_needed d ≤ n)%nat ∨ expired d = ∅ →
  ∃ d', expiration_calls n d = Ok d' ∧ cleared (expired d) (expired d) d d'.
Proof.
  revert d. induction n as [|n IH]; intros d Hinv Hh Ht Hlim Hn.
  { assert (expired d = ∅) as -> by (destruct Hn as [Hn|]; [|done];
      unfold calls_needed in Hn; case_match; lia).
    exists d. split; [done|by apply cleared_refl]. }
  cbn [expiration_calls].
  destruct (remove_expired_exact d Hinv Hh) as (d1 & X & HX & -> & C & Hc). cbn [mbind result_bind].
  pose proof (cleared_expired X d d1 HX Ht C) as E1.
  destruct (cl_rest _ _ _ _ C) as [Eh El]. pose proof (cl_base _ _ _ _ C) as (_ & _ & Ehf).
  assert ((calls_needed d1 ≤ n)%nat ∨ expired d1 = ∅) as Hn1.
  { destruct Hc as [->|[Hpos Hsz]]; [right; set_solver|].
    destruct Hn as [Hn|Hn]; [left|right; set_solver]. unfold calls_needed in *. rewrite El, Hsz.
    destruct (Z.ltb_spec (current_remove_threshold d) 0); [lia|].
    set (t := current_remove_threshold d) in *. set (s := Z.of_nat (size (proposal_votes d))) in *.
    assert ((s - t) / t = s / t - 1) as -> by (replace (s - t) with (s + -1 * t) by lia;
      rewrite Z.div_add by lia; lia).
    assert (1 ≤ s / t) by (apply Z.div_le_lower_bound; lia). lia. }
  destruct (IH d1) as (d2 & Hd2 & C2); [apply C| |lia|lia|done|].
  { unfold has_hardfork in *. by rewrite Ehf. }
  exists d2. split; [done|].
  replace (expired d) with (X ∪ expired d1) at 1
    by (rewrite E1; symmetry; apply union_difference_L; set_solver).
  eapply cleared_trans; [exact C|]. eapply cleared_mono; [|exact C2]. set_solver.
Qed.
