(* ===== verification/GovernanceDelayed.v ===== *)
(** * Maturing of delayed votes

    [delayed_voting::run] (libraries/chain/util/delayed_voting.cpp) adds the power of every
    delayed entry that is 30 days old to the books of GovernanceBooks and removes the entry.
    The loop is shown to end, to leave exactly the younger entries and to keep the books
    right. *)

From S2P Require Import Prelude Safe OperationTypes Operations DelayedVotes Account ProxyTree.
From S2P Require Import Governance GovernanceBooks GovernanceOps GovernanceVotes.
Open Scope Z_scope.

(** ** One entry *)

(** The account with its first entry removed. *)
Definition matured_account (a : account_object) : account_object :=
  match delayed_votes a with
  | v :: rest => set_delayed (rest, sum_delayed_votes a - dv_val v) a
  | [] => a
  end.

(** Every field of the state but the levels, the witnesses and the operations. *)
Definition level_free (a : account_object) : account_object := set_proxied_vsf_votes [] a.

Record matured (i : Z) (d d' : chain_state) : Prop := {
  mt_self : level_free <$> accounts d' !! i = (level_free ∘ matured_account) <$> accounts d !! i;
  mt_other : ∀ x, x ≠ i → level_free <$> accounts d' !! x = level_free <$> accounts d !! x;
  mt_votes : witness_votes d' = witness_votes d;
  mt_total : total_vesting_shares d' = total_vesting_shares d;
  mt_hardforks : processed_hardforks d' = processed_hardforks d
}.

Definition core_view (a : account_object) : string * Z * option Z * Z :=
  (name a, vesting_shares a, proxy a, witnesses_voted_for a).

(** Accounts that only differ in levels and delayed votes. *)
Lemma core_gov d d' pows : gov_inv d →
  (∀ x, core_view <$> accounts d' !! x = core_view <$> accounts d !! x) →
  powers (accounts d') = pows →
  (∀ x a, accounts d' !! x = Some a →
     votes_wf (delayed_votes a) (sum_delayed_votes a) ∧ sum_delayed_votes a ≤ vesting_shares a) →
  books (proxies (accounts d)) pows (votes_for (accounts d) (witness_votes d)) d' →
  witness_votes d' = witness_votes d → total_vesting_shares d' = total_vesting_shares d →
  processed_hardforks d' = processed_hardforks d →
  (∀ w, is_Some (witnesses d' !! w) ↔ is_Some (witnesses d !! w)) → gov_inv d'.
Proof.
  intros [[Hn Hd Ht Hm Hh] [Hc Ha Hr Hv] Hcount Hb] Hcore Hpow Hdel Hbk EW ET EH Ew.
  assert (∀ x a', accounts d' !! x = Some a' →
    ∃ a, accounts d !! x = Some a ∧ core_view a' = core_view a) as Hinv.
  { intros x a' Hx. specialize (Hcore x). rewrite Hx in Hcore.
    destruct (accounts d !! x) as [b|]; [|done]. exists b. split; [done|]. cbn in Hcore. congruence. }
  assert (proxies (accounts d') = proxies (accounts d)) as EP.
  { apply map_eq. intros x. unfold proxies. rewrite !lookup_omap. specialize (Hcore x).
    unfold core_view in Hcore.
    destruct (accounts d !! x), (accounts d' !! x); simpl in *; congruence. }
  assert (∀ w x, votes_for (accounts d') (witness_votes d') w x
                 ↔ votes_for (accounts d) (witness_votes d) w x) as EV.
  { intros w x. unfold votes_for. rewrite EW. specialize (Hcore x). unfold core_view in Hcore.
    destruct (accounts d !! x) as [b|], (accounts d' !! x) as [c|]; simpl in Hcore; try done.
    by replace (name c) with (name b) by congruence. }
  split.
  - split; [|done| |lia|lia].
    + intros x y b c Hx Hy E. destruct (Hinv x b Hx) as (b0 & Hb0 & E1).
      destruct (Hinv y c Hy) as (c0 & Hc0 & E2). unfold core_view in E1, E2.
      eapply Hn; [done|done|congruence].
    + rewrite ET. etrans; [|exact Ht]. apply Z.eq_le_incl.
      rewrite <- !(map_sum_fmap vesting_shares (λ v, v)). f_equal. apply map_eq. intros x.
      rewrite !lookup_fmap. specialize (Hcore x). unfold core_view in Hcore.
      destruct (accounts d !! x), (accounts d' !! x); simpl in *; congruence.
  - split; rewrite ?EP; [|done| |].
    + intros x p Hx. destruct (Hc x p Hx) as [q Hq]. specialize (Hcore p). rewrite Hq in Hcore.
      destruct (accounts d' !! p); [eauto|done].
    + intros w x Hx. by eapply Hr, EV.
    + intros n w. rewrite EW, Ew. apply Hv.
  - intros x a' Hx. destruct (Hinv x a' Hx) as (a & Hxa & E). unfold core_view in E.
    replace (name a') with (name a) by congruence. rewrite EW.
    replace (witnesses_voted_for a') with (witnesses_voted_for a) by congruence. by eapply Hcount.
  - rewrite EP, Hpow. by eapply books_ext; [exact Hbk|exact EV|..].
Qed.

Section mature.
Context (d : chain_state) (Hinv : gov_inv d) (i : Z) (a : account_object)
  (Hi : accounts d !! i = Some a) (v : delayed_votes_data) (rest : list delayed_votes_data)
  (Hv : delayed_votes a = v :: rest).

Lemma entry_bounds : 0 < dv_val v ≤ sum_delayed_votes a ∧
  sum_delayed_votes a ≤ vesting_shares a ∧ vesting_shares a ≤ total_vesting_shares d ∧
  total_vesting_shares d < i64_max.
Proof using All.
  pose proof (gi_base _ Hinv) as Hbase. destruct (bi_delayed _ Hbase i a Hi) as [[Hs _ Hp _] Hle].
  rewrite Hv in Hs, Hp. apply Forall_cons in Hp as [Hp Hr]. pose proof (vals_nonneg _ Hr).
  rewrite fmap_cons, sumZ_cons in Hs. pose proof (shares_bounds d Hbase i a Hi).
  pose proof (bi_max _ Hbase). lia.
Qed.

(** The powers when the entry counts. *)
Abbreviation pows' := (<[i := direct a + dv_val v]> (powers (accounts d))).

Lemma mature_sound : sound_tree (proxies (accounts d)) pows'
  (votes_for (accounts d) (witness_votes d)) (total_vesting_shares d).
Proof using All.
  pose proof (gi_base _ Hinv) as Hbase. pose proof entry_bounds as Hb.
  assert (0 ≤ direct a) by (unfold direct; lia). split.
  - intros x u Hx. destruct (decide (x = i)) as [->|].
    + rewrite lookup_insert_eq in Hx. simplify_eq. lia.
    + rewrite lookup_insert_ne in Hx by done. by eapply powers_nonneg.
  - assert (pows' = direct <$> <[i := matured_account a]> (accounts d)) as ->.
    { rewrite fmap_insert. unfold powers, matured_account, direct. rewrite Hv. simpl.
      f_equal. lia. }
    rewrite (map_sum_fmap direct (λ v, v)). etrans; [|exact (bi_total _ Hbase)].
    etrans; [apply (map_sum_mono _ (λ _ a, vesting_shares a))|].
    + intros x b. destruct (decide (x = i)) as [->|].
      * rewrite lookup_insert_eq. intros [= <-]. unfold direct, matured_account. rewrite Hv. simpl. lia.
      * rewrite lookup_insert_ne by done. intros Hx. unfold direct.
        pose proof (shares_bounds d Hbase x b Hx). lia.
    + rewrite map_sum_insert, Hi. unfold matured_account. rewrite Hv. simpl. lia.
  - apply (ti_roots _ (gi_tree _ Hinv)).
Qed.

Definition mature_entry : result chain_state :=
  d ← adjust_proxied_witness_votes i (i64 (dv_val v))
        (push_virtual_operation
           (op_delayed_voting (Build_delayed_voting_operation (name a) (dv_val v))) d);
  modify_account i (λ a,
    r ← delayed_voting_processor.erase_front (delayed_votes a) (sum_delayed_votes a);
    Ok (set_delayed r a)) d.

Lemma mature_exact : ∃ d', mature_entry = Ok d' ∧ gov_inv d' ∧ matured i d d'.
Proof using All.
  pose proof Hinv as [Hbase Htree Hcount Hbooks]. pose proof entry_bounds as Hb.
  unfold mature_entry. set (dp := push_virtual_operation _ d).
  pose proof (same_gov_gov _ _ (push_same_gov _ d) Hinv : gov_inv dp) as [Hbasep Htreep _ Hbooksp].
  rewrite i64_id by (unfold i64_min; lia).
  destruct (power_books dp i (direct a) (dv_val v) (powers (accounts d))) as (d1 & -> & Hb1 & fa & fw & A).
  { by apply powers_lookup. }
  { exact Hbooksp. } { exact (inv_adjustable dp Hbasep _ _ Hbooksp Htreep). }
  { exact (typed_levels_exact dp Hbasep _ _ Hbooksp). } { exists a; exact Hi. }
  { exact (powers_dom d). } { lia. } { exact (ti_roots _ Htree). } { exact mature_sound. }
  cbn [mbind result_bind]. pose proof (adjusted_account _ _ _ _ A i a Hi) as Hi1.
  unfold modify_account. rewrite (get_account_Some _ _ _ Hi1). cbn [mbind result_bind].
  change (delayed_votes (shift_levels _ a)) with (delayed_votes a).
  change (sum_delayed_votes (shift_levels _ a)) with (sum_delayed_votes a).
  destruct (bi_delayed _ Hbase i a Hi) as [Hwf Hle]. rewrite Hv in *.
  destruct (erase_front_exact v rest _ Hwf) as [-> Hwf']. cbn [mbind result_bind].
  set (b := set_delayed (rest, sum_delayed_votes a - dv_val v) (shift_levels (fa i) a)).
  pose proof (adj_rest _ _ _ _ A) as (EW & _ & ET & _ & _ & EH & _). simpl in EW, ET, EH.
  eexists; split; [done|]. set (d2 := set_accounts _ d1).
  assert (accounts d2 !! i = Some b) as Hself by apply lookup_insert_eq.
  assert (∀ x, x ≠ i → accounts d2 !! x = shift_levels (fa x) <$> accounts d !! x) as Hother.
  { intros x Hx. simpl. rewrite lookup_insert_ne by done. apply (adj_accounts _ _ _ _ A). }
  assert (∀ x, core_view <$> accounts d2 !! x = core_view <$> accounts d !! x) as Hcore.
  { intros x. destruct (decide (x = i)) as [->|]; [by rewrite Hself, Hi|].
    rewrite Hother by done. by destruct (accounts d !! x). }
  split.
  - apply (core_gov d d2 pows'); try done.
    + apply map_eq. intros x. unfold powers. rewrite lookup_fmap.
      destruct (decide (x = i)) as [->|].
      * rewrite Hself, lookup_insert_eq. simpl. unfold direct. simpl. f_equal. lia.
      * rewrite Hother, lookup_insert_ne, lookup_fmap by done. by destruct (accounts d !! x).
    + intros x c Hx. destruct (decide (x = i)) as [->|].
      * rewrite Hself in Hx. simplify_eq/=. split; [done|]. lia.
      * rewrite Hother in Hx by done. apply fmap_Some in Hx as (c0 & Hc0 & ->).
        exact (bi_delayed _ Hbase x c0 Hc0).
    + eapply books_ext; [exact Hb1|done| |done]. intros x. destruct (decide (x = i)) as [->|].
      * by rewrite Hself, Hi1.
      * by rewrite Hother, (adj_accounts _ _ _ _ A).
    + intros w. rewrite <- (fmap_is_Some votes), (adj_votes _ _ _ _ A). by rewrite fmap_is_Some.
  - split; [| |done..].
    + rewrite Hself, Hi. simpl. unfold matured_account. by rewrite Hv.
    + intros x Hx. rewrite Hother by done. by destruct (accounts d !! x).
Qed.

End mature.

(** ** The first account of the index *)

#[export] Instance time_id_le_total : Total time_id_le.
Proof. intros p q. unfold time_id_le. lia. Qed.
#[export] Instance time_id_le_trans : Transitive time_id_le.
Proof. intros p q r. unfold time_id_le. lia. Qed.

Lemma first_delayed_min d :
  match first_delayed d with
  | None => accounts d = ∅
  | Some i => ∃ a, accounts d !! i = Some a ∧ ∀ x b, accounts d !! x = Some b →
      get_oldest_delayed_vote_time a ≤ get_oldest_delayed_vote_time b
  end.
Proof.
  unfold first_delayed.
  set (l := (λ p, (get_oldest_delayed_vote_time p.2, p.1)) <$> map_to_list (accounts d)).
  assert (∀ t x, (t, x) ∈ merge_sort time_id_le l ↔
    ∃ a, accounts d !! x = Some a ∧ t = get_oldest_delayed_vote_time a) as Hl.
  { intros t x. rewrite merge_sort_Permutation. unfold l. rewrite list_elem_of_fmap. split.
    - intros ([y a] & E & Ha). apply elem_of_map_to_list in Ha. naive_solver.
    - intros (a & Ha & ->). exists (x, a). by rewrite elem_of_map_to_list. }
  pose proof (StronglySorted_merge_sort time_id_le l) as Hs.
  destruct (merge_sort time_id_le l) as [|[t i] l'] eqn:E; simpl.
  - apply map_empty. intros x. apply eq_None_not_Some. intros [a Ha].
    assert ((get_oldest_delayed_vote_time a, x) ∈ ([] : list (Z * Z))) by (apply Hl; eauto).
    set_solver.
  - destruct (proj1 (Hl t i)) as (a & Ha & ->); [set_solver|]. exists a. split; [done|].
    intros x b Hb. apply StronglySorted_inv in Hs as [_ Hs]. rewrite Forall_forall in Hs.
    assert ((get_oldest_delayed_vote_time b, x) ∈ (get_oldest_delayed_vote_time a, i) :: l') as Hin
      by (apply Hl; eauto).
    apply elem_of_cons in Hin as [Hin|Hin]; [simplify_eq; lia|].
    specialize (Hs _ Hin). unfold time_id_le in Hs. simpl in Hs. lia.
Qed.

(** ** Entries that stay *)

Definition ripe (head_time : Z) (v : delayed_votes_data) : Prop :=
  dv_time v + HIVE_DELAYED_VOTING_TOTAL_INTERVAL_SECONDS ≤ head_time.
#[export] Instance ripe_dec h v : Decision (ripe h v).
Proof. unfold ripe. apply _. Defined.

Definition young (head_time : Z) : list delayed_votes_data → list delayed_votes_data :=
  filter (λ v, ¬ ripe head_time v).

(** An account whose ripe entries are gone. *)
Definition settle (h : Z) (a : account_object) : account_object :=
  set_delayed (young h (delayed_votes a), sumZ (dv_val <$> young h (delayed_votes a))) a.

(** When the oldest entry is not ripe, none is. *)
Lemma settle_young h a : votes_wf (delayed_votes a) (sum_delayed_votes a) →
  (∀ v rest, delayed_votes a = v :: rest → ¬ ripe h v) → settle h a = a.
Proof.
  intros [Hs _ _ Hsort] Hno.
  assert (young h (delayed_votes a) = delayed_votes a) as E.
  { unfold young. apply filter_all. destruct (delayed_votes a) as [|v rest]; [constructor|].
    specialize (Hno v rest eq_refl). apply StronglySorted_inv in Hsort as [_ Hsort].
    constructor; [done|]. eapply Forall_impl; [exact Hsort|]. intros w Hw.
    unfold a_day_apart, ripe, HIVE_DELAYED_VOTING_INTERVAL_SECONDS in *. simpl in *. lia. }
  unfold settle. rewrite E, <- Hs. by destruct a.
Qed.

Lemma settle_matured h a v rest : delayed_votes a = v :: rest → ripe h v →
  settle h (matured_account a) = settle h a.
Proof.
  intros Hv Hr. unfold settle, matured_account. rewrite Hv. simpl. unfold young.
  rewrite filter_cons, decide_False by auto. done.
Qed.

Definition settled (h : Z) (d d' : chain_state) : Prop :=
  ∀ x, level_free <$> accounts d' !! x = (level_free ∘ settle h) <$> accounts d !! x.

Lemma settled_step h i a v rest d d1 d2 : accounts d !! i = Some a →
  delayed_votes a = v :: rest → ripe h v → matured i d d1 → settled h d1 d2 → settled h d d2.
Proof.
  intros Hi Hv Hr M S x. rewrite S.
  assert (∀ b c, level_free b = level_free c → level_free (settle h b) = level_free (settle h c)) as C.
  { intros b c E. change (settle h (level_free b) = settle h (level_free c)). by rewrite E. }
  destruct (decide (x = i)) as [->|Hne].
  - pose proof (mt_self _ _ _ M) as E. rewrite Hi in E |- *.
    destruct (accounts d1 !! i) as [b|]; [|done]. apply (inj Some) in E. simpl. f_equal.
    rewrite <- (settle_matured h a v rest) by done. by apply C.
  - pose proof (mt_other _ _ _ M x Hne) as E.
    destruct (accounts d !! x), (accounts d1 !! x); simpl in *; try done. f_equal. apply C.
    by apply (inj Some) in E.
Qed.

(** ** The loop *)

Definition entry_count (a : account_object) : Z := Z.of_nat (length (delayed_votes a)).

Lemma delayed_entries_sum d :
  Z.of_nat (delayed_entries d) = map_sum (λ _ a, entry_count a) (level_free <$> accounts d).
Proof.
  rewrite (map_sum_fmap level_free entry_count). unfold delayed_entries, map_sum, entry_count. simpl.
  rewrite map_fold_foldr. induction (map_to_list (accounts d)) as [|[x a] l IH]; simpl; lia.
Qed.

Lemma matured_view i a d d1 : accounts d !! i = Some a → matured i d d1 →
  level_free <$> accounts d1 = <[i := level_free (matured_account a)]> (level_free <$> accounts d).
Proof.
  intros Hi M. apply map_eq. intros x. rewrite lookup_fmap. destruct (decide (x = i)) as [->|].
  - by rewrite lookup_insert_eq, (mt_self _ _ _ M), Hi.
  - by rewrite lookup_insert_ne, lookup_fmap, (mt_other _ _ _ M).
Qed.

Lemma matured_entries i a v rest d d1 : accounts d !! i = Some a → delayed_votes a = v :: rest →
  matured i d d1 → delayed_entries d = S (delayed_entries d1).
Proof.
  intros Hi Hv M. apply Nat2Z.inj. rewrite Nat2Z.inj_succ, !delayed_entries_sum.
  rewrite (matured_view i a d d1 Hi M), map_sum_insert, lookup_fmap, Hi. simpl.
  unfold entry_count, matured_account. rewrite Hv. simpl. rewrite Hv. simpl. lia.
Qed.

(** No entry is so late that its time of maturity does not fit in 32 bits. *)
Definition clock_fits (d : chain_state) : Prop :=
  ∀ x a, accounts d !! x = Some a → Forall (λ v,
    0 ≤ dv_time v ∧ dv_time v + HIVE_DELAYED_VOTING_TOTAL_INTERVAL_SECONDS ≤ u32_max)
    (delayed_votes a).

Lemma matured_clock i a v rest d d1 : accounts d !! i = Some a → delayed_votes a = v :: rest →
  matured i d d1 → clock_fits d → clock_fits d1.
Proof.
  intros Hi Hv M Hc x b Hb. change (delayed_votes b) with (delayed_votes (level_free b)).
  destruct (decide (x = i)) as [->|Hne].
  - pose proof (mt_self _ _ _ M) as E. rewrite Hi, Hb in E. apply (inj Some) in E. rewrite E.
    specialize (Hc i a Hi). unfold matured_account. simpl. rewrite Hv in *.
    by apply Forall_cons in Hc as [_ ?].
  - pose proof (mt_other _ _ _ M x Hne) as E. rewrite Hb in E.
    destruct (accounts d !! x) as [c|] eqn:Hx; [|done]. apply (inj Some) in E. rewrite E. exact (Hc x c Hx).
Qed.

(** What a run leaves as it was. *)
Definition run_frame (d d' : chain_state) : Prop :=
  witness_votes d' = witness_votes d ∧ total_vesting_shares d' = total_vesting_shares d ∧
  processed_hardforks d' = processed_hardforks d.

(** The loop goes on exactly while some entry is ripe. *)
Lemma run_stops h d : gov_inv d → clock_fits d →
  match first_delayed d with
  | None => settled h d d
  | Some i => ∃ a, accounts d !! i = Some a ∧
      if has_delayed_votes a &&
         (time_add (get_oldest_delayed_vote_time a) HIVE_DELAYED_VOTING_TOTAL_INTERVAL_SECONDS <=? h)
      then ∃ v rest, delayed_votes a = v :: rest ∧ ripe h v
      else settled h d d
  end.
Proof.
  intros Hinv Hc. pose proof (first_delayed_min d) as Hf. destruct (first_delayed d) as [i|].
  2: { intros x. by rewrite Hf, lookup_empty. }
  destruct Hf as (a & Hi & Hmin). exists a. split; [done|]. specialize (Hc i a Hi) as Hca.
  unfold has_delayed_votes, get_oldest_delayed_vote_time in *.
  destruct (delayed_votes a) as [|v rest] eqn:Hv.
  - rewrite bool_decide_false by auto. simpl. intros x. destruct (accounts d !! x) as [b|] eqn:Hx; [|done].
    simpl. rewrite settle_young; [done|apply (bi_delayed _ (gi_base _ Hinv) x b Hx)|].
    intros w l Hw. specialize (Hmin x b Hx). rewrite Hw in Hmin. specialize (Hc x b Hx).
    rewrite Hw in Hc. apply Forall_cons in Hc as [Hc _].
    unfold time_maximum, HIVE_DELAYED_VOTING_TOTAL_INTERVAL_SECONDS in *. lia.
  - rewrite bool_decide_true by done. simpl. apply Forall_cons in Hca as [Hca _].
    unfold time_add. rewrite u32_id by (unfold HIVE_DELAYED_VOTING_TOTAL_INTERVAL_SECONDS in *; lia).
    destruct (Z.leb_spec (dv_time v + HIVE_DELAYED_VOTING_TOTAL_INTERVAL_SECONDS) h) as [Hr|Hr].
    + exists v, rest. done.
    + intros x. destruct (accounts d !! x) as [b|] eqn:Hx; [|done].
      simpl. rewrite settle_young; [done|apply (bi_delayed _ (gi_base _ Hinv) x b Hx)|].
      intros w l Hw. specialize (Hmin x b Hx). rewrite Hw in Hmin. unfold ripe. lia.
Qed.

Lemma run_rounds_exact n h d : gov_inv d → clock_fits d → (delayed_entries d < n)%nat →
  ∃ d', run_rounds n h d = Ok d' ∧ gov_inv d' ∧ settled h d d' ∧ run_frame d d'.
Proof.
  revert d. induction n as [|n IH]; intros d Hinv Hc Hn; [lia|]. cbn [run_rounds].
  pose proof (run_stops h d Hinv Hc) as Hstop. destruct (first_delayed d) as [i|].
  2: { exists d. done. }
  destruct Hstop as (a & Hi & Hstop). rewrite (get_account_Some _ _ _ Hi). cbn [mbind result_bind].
  destruct (_ && _); [|exists d; done]. destruct Hstop as (v & rest & Hv & Hr).
  destruct (mature_exact d Hinv i a Hi v rest Hv) as (d1 & Hd1 & Hinv1 & M).
  destruct (IH d1) as (d' & Hd' & G & S & F1 & F2 & F3).
  { done. } { by eapply matured_clock. }
  { pose proof (matured_entries i a v rest d d1 Hi Hv M). lia. }
  exists d'. split; [|split_and!; [done|by eapply settled_step|]].
  - rewrite Hv. cbn [head fmap option_fmap option_map from_option_or mbind result_bind].
    unfold mature_entry in Hd1. destruct (adjust_proxied_witness_votes _ _ _) as [da|]; [|done].
    cbn [mbind result_bind] in Hd1 |- *. by rewrite Hd1.
  - pose proof M as [_ _ E1 E2 E3]. split_and!; congruence.
Qed.
