(* ===== verification/GovernanceMain.v ===== *)
(** * Governance: the theorems

    The books of witness votes through all operations, the expiration of votes and the
    maturing of delayed votes, with a small chain on which the theorems are applied. *)

From S2P Require Import Prelude Safe OperationTypes Operations Manabar DelayedVotes Account.
From S2P Require Import ProxyTree Governance GovernanceBooks GovernanceOps GovernanceVotes.
From S2P Require Import GovernanceExpiration GovernanceDelayed.
Open Scope Z_scope.

(** ** Actions *)

Inductive governance_action : Set :=
| act_vote (o : account_witness_vote_operation)
| act_proxy (o : account_witness_proxy_operation)
| act_expire.

Definition perform (act : governance_action) (d : chain_state) : result chain_state :=
  match act with
  | act_vote o => account_witness_vote_evaluator o d
  | act_proxy o => account_witness_proxy_evaluator o d
  | act_expire => remove_expired_governance_votes d
  end.

Definition permitted (act : governance_action) (d : chain_state) : Prop :=
  match act with
  | act_vote o => vote_guard o d
  | act_proxy o => proxy_guard o d
  | act_expire => True
  end.

Definition outcome (act : governance_action) (d d' : chain_state) : Prop :=
  match act with
  | act_vote o => vote_outcome o d d'
  | act_proxy o => proxy_outcome o d d'
  | act_expire =>
      if has_hardfork HIVE_HARDFORK_1_25 d
      then ∃ X, X ⊆ expired d ∧ cleared X (expired d) d d' ∧
           (X = expired d ∨ 0 ≤ current_remove_threshold d ∧
              Z.of_nat (size (proposal_votes d'))
              = Z.of_nat (size (proposal_votes d)) - current_remove_threshold d)
      else d' = d
  end.

(** C36. The books of governance votes.  In a state whose books are right (every account
    holds, level by level, the power that reaches it over one to four proxies; every witness
    has exactly the votes of its voters and of those they represent; proxies form a forest of
    which only roots vote; every account counts its own votes, at most 30), a vote for a
    witness, a change of proxy and the expiration of votes succeed exactly when their checks
    pass, do what they are documented to do, keep all balances, and leave a state whose books
    are right: no sum overflows, no check inside the updates fails. *)
Theorem governance_books_kept (act : governance_action) (d : chain_state) : gov_inv d →
  (permitted act d →
    ∃ d', perform act d = Ok d' ∧ gov_inv d' ∧ same_base d d' ∧ outcome act d d') ∧
  (¬ permitted act d → is_ok (perform act d) = false).
Proof.
  intros Hinv. destruct act as [o|o|]; simpl.
  - destruct (vote_evaluator_exact o d Hinv) as [(? & ?)|(? & ?)]; naive_solver.
  - destruct (proxy_evaluator_exact o d Hinv) as [(? & ?)|(? & ?)]; naive_solver.
  - split; [|done]. intros _. destruct (has_hardfork HIVE_HARDFORK_1_25 d) eqn:Hh.
    + destruct (remove_expired_exact d Hinv Hh) as (d' & X & HX & Hd & C & H).
      exists d'. split_and!; [done|apply C|apply C|eauto].
    + exists d. unfold remove_expired_governance_votes. by rewrite Hh.
Qed.

(** C37. Expiration ends.  However many proposal votes the expired accounts hold and whatever
    the limit on removals per call is, as long as it is not zero, a bounded number of calls
    (one per [current_remove_threshold] votes, and one more) clears every expired account: it
    has no proxy, no vote for a witness and no vote for a proposal, and its expiration time is
    the maximum.  Of every other account only the votes cast through it as a proxy may change;
    its proxy, its votes and its expiration time stay, and the books stay right throughout. *)
Theorem expiration_completes (d : chain_state) (n : nat) :
  gov_inv d → has_hardfork HIVE_HARDFORK_1_25 d = true → head_block_time d < time_maximum →
  current_remove_threshold d ≠ 0 → (calls_needed d ≤ n)%nat →
  ∃ d', expiration_calls n d = Ok d' ∧ gov_inv d' ∧ expired d' = ∅ ∧
    (∀ x, proxies (accounts d') !! x
          = if decide (x ∈ expired d) then None else proxies (accounts d) !! x) ∧
    (∀ v w, (v, w) ∈ witness_votes d' ↔ (v, w) ∈ witness_votes d ∧ ¬ owned d (expired d) v) ∧
    (∀ v p, (v, p) ∈ proposal_votes d' ↔ (v, p) ∈ proposal_votes d ∧ ¬ owned d (expired d) v) ∧
    (∀ x, without_levels <$> accounts d' !! x
          = without_levels <$> (if decide (x ∈ expired d) then expire_account <$> accounts d !! x
                                else accounts d !! x)).
Proof.
  intros Hinv Hh Ht Hlim Hn.
  destruct (expiration_calls_cleared n d Hinv Hh Ht Hlim (or_introl Hn)) as (d' & Hd & C).
  exists d'. split_and!; [done|apply C| |apply C|apply C| |apply C].
  - rewrite (cleared_expired (expired d) d d'); [set_solver|done|done|done].
  - intros v p. split.
    + intros Hv. split; [by apply (cl_subset _ _ _ _ C)|]. by apply (cl_removed _ _ _ _ C) in Hv.
    + intros [Hv Ho]. by apply (cl_kept _ _ _ _ C).
Qed.

(** C38. Maturing of delayed votes.  [delayed_voting::run] ends after at most one round per
    delayed entry (the fuel of the definition), removes exactly the entries that are 30 days
    old at [head_time], of every account, changes nothing else of the accounts but the levels
    of proxied votes, and leaves right books for the new powers: the votes that matured count
    for the witnesses the account or its proxy votes for.  At most 30 entries are left in any
    account that has none of the future. *)
Theorem delayed_voting_run_settles (head_time : Z) (d : chain_state) :
  gov_inv d → clock_fits d →
  ∃ d', delayed_voting_run head_time d = Ok d' ∧ gov_inv d' ∧ settled head_time d d' ∧
    witness_votes d' = witness_votes d ∧ total_vesting_shares d' = total_vesting_shares d ∧
    (∀ x a, accounts d' !! x = Some a →
       Forall (λ v, dv_time v ≤ head_time) (delayed_votes a) → (length (delayed_votes a) ≤ 30)%nat).
Proof.
  intros Hinv Hc.
  destruct (run_rounds_exact (S (delayed_entries d)) head_time d Hinv Hc) as (d' & Hd & G & S & F);
    [lia|].
  exists d'. destruct F as (F1 & F2 & _). split_and!; [done..|]. intros x a Hx Hle.
  destruct (bi_delayed _ (gi_base _ G) x a Hx) as [Hwf _].
  apply (at_most_30 _ head_time); [apply Hwf|]. apply Forall_forall. intros v Hv.
  rewrite Forall_forall in Hle. split; [|by apply Hle].
  specialize (S x). rewrite Hx in S. destruct (accounts d !! x) as [b|]; [|done].
  apply (inj Some) in S. assert (delayed_votes a = young head_time (delayed_votes b)) as E
    by exact (f_equal delayed_votes S).
  rewrite E in Hv. apply list_elem_of_filter in Hv as [Hv _]. unfold ripe in Hv. lia.
Qed.

(** ** A small chain *)

Definition sample_account (n : string) (p : option Z) (vests : Z) (delayed : list delayed_votes_data)
    (expiry voted : Z) (levels : list Z) : account_object :=
  AccountObject n p (Manabar 0 0) (Manabar 0 0) (Manabar 0 0) vests 0 0 0 0 0 0 0 0 0
    (sumZ (dv_val <$> delayed)) time_maximum expiry voted true levels delayed.

(** Alice's votes expired; Bob represents Alice, whose 30 newest VESTS do not vote yet. *)
Definition sample_chain : chain_state :=
  ChainState
    (<[1 := sample_account "alice" (Some 2) 100 [DelayedVotesData 1699000000 30] 1690000000 0
              [0; 0; 0; 0]]>
      (<[2 := sample_account "bob" None 50 [] time_maximum 1 [70; 0; 0; 0]]>
        (<[3 := sample_account "carol" None 10 [] time_maximum 0 [0; 0; 0; 0]]> ∅)))
    (<["wit" := WitnessObject 120 0 0 0]> ∅)
    {[ ("bob", "wit") ]}
    {[ ("alice", 0); ("alice", 1); ("carol", 0) ]}
    200 1700000000 1 0 0 28 [].

Ltac each_account H :=
  cbn [accounts sample_chain] in H;
  repeat (apply lookup_insert_Some in H as [[<- <-]|[_ H]]); [..|by rewrite lookup_empty in H].

Lemma sample_proxies : proxies (accounts sample_chain) = <[1 := 2]> ∅.
Proof. by vm_compute. Qed.

Lemma sample_base : base_inv sample_chain.
Proof.
  split; [| |by vm_compute..].
  - intros i j a b Hi Hj. each_account Hi; each_account Hj; done.
  - intros x a Hx. each_account Hx; (split; [split|]); try (by vm_compute);
      repeat constructor; by vm_compute.
Qed.

Lemma sample_inv : gov_inv sample_chain.
Proof.
  split; [apply sample_base|split| |split].
  - rewrite sample_proxies. intros x p Hx. apply lookup_insert_Some in Hx as [[<- <-]|[_ Hx]];
      [by eexists|by rewrite lookup_empty in Hx].
  - rewrite sample_proxies. apply acyclic_insert; [|done|].
    + intros n x. simpl. by rewrite lookup_empty.
    + intros [|j]; [done|]. simpl. by rewrite lookup_empty.
  - rewrite sample_proxies. intros w x. unfold votes_for.
    destruct (accounts sample_chain !! x) as [a|] eqn:Hx; [|done]. intros Hv.
    cbn [witness_votes sample_chain] in Hv. apply elem_of_singleton in Hv. each_account Hx; simplify_eq/=; done.
  - intros n w Hv. cbn [witness_votes sample_chain] in Hv. apply elem_of_singleton in Hv. simplify_eq. by eexists.
  - intros x a Hx. each_account Hx; by vm_compute.
  - intros x a Hx. each_account Hx; by vm_compute.
  - intros w wo Hw. cbn [witnesses sample_chain] in Hw.
    apply lookup_insert_Some in Hw as [[<- <-]|[_ Hw]]; [by vm_compute|by rewrite lookup_empty in Hw].
Qed.

(** Bob takes back the vote. *)
Definition sample_vote : account_witness_vote_operation :=
  {| account_witness_vote_account := "bob"; account_witness_vote_witness := "wit";
     account_witness_vote_approve := false |}.

Lemma governance_books_kept_witness : ∃ d',
  account_witness_vote_evaluator sample_vote sample_chain = Ok d' ∧ gov_inv d' ∧
  witness_votes d' = ∅.
Proof.
  destruct (governance_books_kept (act_vote sample_vote) sample_chain sample_inv) as [H _].
  destruct H as (d' & Hd & G & _ & _ & EW).
  - exists 2, (sample_account "bob" None 50 [] time_maximum 1 [70; 0; 0; 0]).
    split_and!; try (by vm_compute); by eexists.
  - exists d'. split_and!; [exact Hd|exact G|]. rewrite EW. by vm_compute.
Defined.

Lemma expiration_completes_witness : ∃ d',
  expiration_calls 4 sample_chain = Ok d' ∧ gov_inv d' ∧ expired d' = ∅.
Proof.
  destruct (expiration_completes sample_chain 4 sample_inv) as (d' & Hd & G & E & _);
    [by vm_compute..| |].
  - vm_compute. lia.
  - exists d'. exact (conj Hd (conj G E)).
Defined.

Lemma delayed_voting_run_settles_witness : ∃ d',
  delayed_voting_run 1702000000 sample_chain = Ok d' ∧ gov_inv d'.
Proof.
  destruct (delayed_voting_run_settles 1702000000 sample_chain sample_inv) as (d' & Hd & G & _).
  - intros x a Hx. each_account Hx; repeat (apply Forall_cons; split; [by vm_compute|]);
      apply Forall_nil_2.
  - exists d'. exact (conj Hd G).
Defined.
