(* ===== verification/Balances.v ===== *)
(** * Balances

    The money of the accounts: [database::adjust_balance], [adjust_savings_balance] and
    [adjust_supply] (libraries/chain/database.cpp) with the interest they pay, and the
    evaluators of transfers and savings (libraries/chain/hive_evaluator.cpp).

    [money_state] holds the objects that these functions and those of Market read and
    write.  Of an account these are the fields of [wallet]; the fields about votes are in
    Account.  Accounts are looked up by name.  Amounts whose symbol is fixed by their C++ type
    ([HIVE_asset], [HBD_asset], [VEST_asset]), or never changes (the supplies), are integers.
    An exception leaves the enclosing session, which restores the state. *)

From S2P Require Import Prelude Safe AssetSymbol Asset OperationTypes Operations.
Open Scope Z_scope.

(** ** State *)

Record wallet : Set := Wallet {
  balance : Z;
  hbd_balance : Z;
  vesting_shares : Z;
  savings_balance : Z;
  savings_hbd_balance : Z;
  hbd_seconds : Z;
  hbd_seconds_last_update : Z;
  hbd_last_interest_payment : Z;
  savings_hbd_seconds : Z;
  savings_hbd_seconds_last_update : Z;
  savings_hbd_last_interest_payment : Z;
  savings_withdraw_requests : Z
}.

Record limit_order_object : Set := LimitOrder {
  created : time_point_sec;
  lo_expiration : time_point_sec;
  seller : string;
  orderid : Z;
  for_sale : Z;
  sell_price : price
}.

Record savings_withdraw_object : Set := SavingsWithdraw {
  sw_to : string;
  sw_memo : string;
  sw_amount : asset;
  sw_complete : time_point_sec
}.

Record liquidity_reward_balance_object : Set := LiquidityReward {
  last_update : time_point_sec;
  weight : Z;
  hive_volume : Z;
  hbd_volume : Z
}.

Record money_state : Type := MoneyState {
  wallets : gmap string wallet;
  limit_orders : gmap Z limit_order_object;
  next_order_id : Z;
  (* by the account and the number of the request *)
  savings_withdraws : gmap (string * Z) savings_withdraw_object;
  liquidity_rewards : gmap string liquidity_reward_balance_object;
  current_supply : Z;
  current_hbd_supply : Z;
  virtual_supply : Z;
  total_vesting_fund_hive : Z;
  hbd_interest_rate : Z;
  current_median_history : price;
  head_block_number : Z;
  head_block_time : time_point_sec;
  head_block_hash : Z;
  processed_hardforks : Z;
  virtual_ops : list operation
}.

Definition set_wallets (m : gmap string wallet) (d : money_state) : money_state :=
  MoneyState m (limit_orders d) (next_order_id d) (savings_withdraws d) (liquidity_rewards d)
    (current_supply d) (current_hbd_supply d) (virtual_supply d) (total_vesting_fund_hive d)
    (hbd_interest_rate d) (current_median_history d) (head_block_number d) (head_block_time d)
    (head_block_hash d) (processed_hardforks d) (virtual_ops d).
Definition set_orders (m : gmap Z limit_order_object) (next : Z) (d : money_state) : money_state :=
  MoneyState (wallets d) m next (savings_withdraws d) (liquidity_rewards d)
    (current_supply d) (current_hbd_supply d) (virtual_supply d) (total_vesting_fund_hive d)
    (hbd_interest_rate d) (current_median_history d) (head_block_number d) (head_block_time d)
    (head_block_hash d) (processed_hardforks d) (virtual_ops d).
Definition set_savings_withdraws (m : gmap (string * Z) savings_withdraw_object) (d : money_state)
    : money_state :=
  MoneyState (wallets d) (limit_orders d) (next_order_id d) m (liquidity_rewards d)
    (current_supply d) (current_hbd_supply d) (virtual_supply d) (total_vesting_fund_hive d)
    (hbd_interest_rate d) (current_median_history d) (head_block_number d) (head_block_time d)
    (head_block_hash d) (processed_hardforks d) (virtual_ops d).
Definition set_liquidity_rewards (m : gmap string liquidity_reward_balance_object) (d : money_state)
    : money_state :=
  MoneyState (wallets d) (limit_orders d) (next_order_id d) (savings_withdraws d) m
    (current_supply d) (current_hbd_supply d) (virtual_supply d) (total_vesting_fund_hive d)
    (hbd_interest_rate d) (current_median_history d) (head_block_number d) (head_block_time d)
    (head_block_hash d) (processed_hardforks d) (virtual_ops d).
Definition set_supply (supply hbd virtual vesting_fund : Z) (d : money_state) : money_state :=
  MoneyState (wallets d) (limit_orders d) (next_order_id d) (savings_withdraws d)
    (liquidity_rewards d) supply hbd virtual vesting_fund
    (hbd_interest_rate d) (current_median_history d) (head_block_number d) (head_block_time d)
    (head_block_hash d) (processed_hardforks d) (virtual_ops d).
Definition push_virtual_operation (op : operation) (d : money_state) : money_state :=
  MoneyState (wallets d) (limit_orders d) (next_order_id d) (savings_withdraws d)
    (liquidity_rewards d) (current_supply d) (current_hbd_supply d) (virtual_supply d)
    (total_vesting_fund_hive d) (hbd_interest_rate d) (current_median_history d)
    (head_block_number d) (head_block_time d) (head_block_hash d) (processed_hardforks d)
    (virtual_ops d ++ [op]).

Definition HIVE_HARDFORK_0_20 : Z := 20.
Definition HIVE_HARDFORK_0_21 : Z := 21.
Definition HIVE_HARDFORK_1_24 : Z := 24.
Definition HIVE_HARDFORK_1_25 : Z := 25.

Definition has_hardfork (hardfork : Z) (d : money_state) : bool :=
  hardfork <? processed_hardforks d.

Definition get_account (n : string) (d : money_state) : result wallet :=
  from_option_or out_of_range_exception (wallets d !! n).

(** [modify( account, ... )]. *)
Definition modify_wallet (n : string) (f : wallet → result wallet) (d : money_state)
    : result money_state :=
  w ← get_account n d;
  w ← f w;
  Ok (set_wallets (<[n := w]> (wallets d)) d).

Definition set_balance (x : Z) (w : wallet) : wallet :=
  Wallet x (hbd_balance w) (vesting_shares w) (savings_balance w) (savings_hbd_balance w)
    (hbd_seconds w) (hbd_seconds_last_update w) (hbd_last_interest_payment w)
    (savings_hbd_seconds w) (savings_hbd_seconds_last_update w)
    (savings_hbd_last_interest_payment w) (savings_withdraw_requests w).
Definition set_vesting (x : Z) (w : wallet) : wallet :=
  Wallet (balance w) (hbd_balance w) x (savings_balance w) (savings_hbd_balance w)
    (hbd_seconds w) (hbd_seconds_last_update w) (hbd_last_interest_payment w)
    (savings_hbd_seconds w) (savings_hbd_seconds_last_update w)
    (savings_hbd_last_interest_payment w) (savings_withdraw_requests w).
Definition set_savings (x : Z) (w : wallet) : wallet :=
  Wallet (balance w) (hbd_balance w) (vesting_shares w) x (savings_hbd_balance w)
    (hbd_seconds w) (hbd_seconds_last_update w) (hbd_last_interest_payment w)
    (savings_hbd_seconds w) (savings_hbd_seconds_last_update w)
    (savings_hbd_last_interest_payment w) (savings_withdraw_requests w).
Definition set_requests (x : Z) (w : wallet) : wallet :=
  Wallet (balance w) (hbd_balance w) (vesting_shares w) (savings_balance w)
    (savings_hbd_balance w) (hbd_seconds w) (hbd_seconds_last_update w)
    (hbd_last_interest_payment w) (savings_hbd_seconds w) (savings_hbd_seconds_last_update w)
    (savings_hbd_last_interest_payment w) x.

(** ** Interest on HBD *)

Definition HIVE_SECONDS_PER_YEAR : Z := 60 * 60 * 24 * 365.
Definition HIVE_HBD_INTEREST_COMPOUND_INTERVAL_SEC : Z := 60 * 60 * 24 * 30.

(** A balance of HBD with what its interest is computed from. *)
Record hbd_account : Set := HbdAccount {
  h_balance : Z; h_seconds : Z; h_last_update : Z; h_last_payment : Z
}.

Definition liquid_hbd (w : wallet) : hbd_account :=
  HbdAccount (hbd_balance w) (hbd_seconds w) (hbd_seconds_last_update w)
    (hbd_last_interest_payment w).
Definition set_liquid_hbd (h : hbd_account) (w : wallet) : wallet :=
  Wallet (balance w) (h_balance h) (vesting_shares w) (savings_balance w) (savings_hbd_balance w)
    (h_seconds h) (h_last_update h) (h_last_payment h)
    (savings_hbd_seconds w) (savings_hbd_seconds_last_update w)
    (savings_hbd_last_interest_payment w) (savings_withdraw_requests w).
Definition savings_hbd (w : wallet) : hbd_account :=
  HbdAccount (savings_hbd_balance w) (savings_hbd_seconds w) (savings_hbd_seconds_last_update w)
    (savings_hbd_last_interest_payment w).
Definition set_savings_hbd (h : hbd_account) (w : wallet) : wallet :=
  Wallet (balance w) (hbd_balance w) (vesting_shares w) (savings_balance w) (h_balance h)
    (hbd_seconds w) (hbd_seconds_last_update w) (hbd_last_interest_payment w)
    (h_seconds h) (h_last_update h) (h_last_payment h) (savings_withdraw_requests w).

(** The interest due and the account after its payment.  [liquid] is the flag of the
    operation that reports the interest. *)
Definition pay_interest (liquid : bool) (n : string) (h : hbd_account) (d : money_state)
    : result (hbd_account * money_state) :=
  let now := head_block_time d in
  if h_last_update h =? now then Ok (h, d)
  else
    let seconds := u128 (h_seconds h + u128 (u128 (h_balance h) * u128 (now - h_last_update h))) in
    if (0 <? seconds) && (HIVE_HBD_INTEREST_COMPOUND_INTERVAL_SEC <? now - h_last_payment h) then
      let interest := u128 (seconds / HIVE_SECONDS_PER_YEAR * hbd_interest_rate d)
                      / HIVE_100_PERCENT in
      paid ← (i64 <$> uint128_to_uint64 interest);
      b ← share_add (h_balance h) paid;
      let d := if 0 <? interest
               then push_virtual_operation
                      (op_interest (Build_interest_operation n paid liquid)) d
               else d in
      supply ← share_add (current_hbd_supply d) paid;
      value ← asset_mul_price (Asset paid HBD_SYMBOL) (current_median_history d);
      virtual ← tiny_add_asset HIVE_SYMBOL (virtual_supply d) value;
      Ok (HbdAccount b 0 now now,
          set_supply (current_supply d) supply virtual (total_vesting_fund_hive d) d)
    else Ok (HbdAccount (h_balance h) seconds now (h_last_payment h), d).

(** [+= delta] of the balance. *)
Definition add_hbd (delta : asset) (h : hbd_account) : result hbd_account :=
  b ← tiny_add_asset HBD_SYMBOL (h_balance h) delta;
  Ok (HbdAccount b (h_seconds h) (h_last_update h) (h_last_payment h)).

(** ** Changes of balances *)

Definition check_funds (check_balance : bool) (x : Z) (message : string) : result unit :=
  if check_balance then fc_assert (0 <=? x) message else Ok tt.

Definition modify_balance (n : string) (delta : asset) (check_balance : bool) (d : money_state)
    : result money_state :=
  let num := asset_num (symbol delta) in
  if num =? HIVE_ASSET_NUM_HIVE then
    modify_wallet n (λ w,
      b ← tiny_add_asset HIVE_SYMBOL (balance w) delta;
      check_funds check_balance b "Insufficient HIVE funds" ;;
      Ok (set_balance b w)) d
  else if num =? HIVE_ASSET_NUM_HBD then
    w ← get_account n d;
    r ← (if has_hardfork HIVE_HARDFORK_1_25 d then Ok (liquid_hbd w, d)
         else pay_interest true n (liquid_hbd w) d);
    h ← add_hbd delta r.1;
    check_funds check_balance (h_balance h) "Insufficient HBD funds" ;;
    Ok (set_wallets (<[n := set_liquid_hbd h w]> (wallets r.2)) r.2)
  else if num =? HIVE_ASSET_NUM_VESTS then
    modify_wallet n (λ w,
      b ← tiny_add_asset VESTS_SYMBOL (vesting_shares w) delta;
      check_funds check_balance b "Insufficient VESTS funds" ;;
      Ok (set_vesting b w)) d
  else Throw (assert_exception "invalid symbol").

Definition get_balance (w : wallet) (sym : asset_symbol_type) : result asset :=
  if asset_num sym =? HIVE_ASSET_NUM_HIVE then Ok (Asset (balance w) HIVE_SYMBOL)
  else if asset_num sym =? HIVE_ASSET_NUM_HBD then Ok (Asset (hbd_balance w) HBD_SYMBOL)
  else Throw (assert_exception "Invalid symbol: ${s}").

Definition get_savings_balance (w : wallet) (sym : asset_symbol_type) : result asset :=
  if asset_num sym =? HIVE_ASSET_NUM_HIVE then Ok (Asset (savings_balance w) HIVE_SYMBOL)
  else if asset_num sym =? HIVE_ASSET_NUM_HBD then Ok (Asset (savings_hbd_balance w) HBD_SYMBOL)
  else Throw (assert_exception "invalid symbol").

Definition adjust_balance (n : string) (delta : asset) (d : money_state) : result money_state :=
  a ← get_account n d;
  (if amount delta <? 0 then
     available ← get_balance a (symbol delta);
     required ← asset_neg delta;
     enough ← asset_geb available required;
     fc_assert enough "Account ${acc} does not have sufficient funds for balance adjustment."
   else Ok tt) ;;
  modify_balance n delta (has_hardfork HIVE_HARDFORK_0_20 d) d.

Definition adjust_savings_balance (n : string) (delta : asset) (d : money_state)
    : result money_state :=
  let check_balance := has_hardfork HIVE_HARDFORK_0_20 d in
  let num := asset_num (symbol delta) in
  if num =? HIVE_ASSET_NUM_HIVE then
    modify_wallet n (λ w,
      b ← tiny_add_asset HIVE_SYMBOL (savings_balance w) delta;
      check_funds check_balance b "Insufficient savings HIVE funds" ;;
      Ok (set_savings b w)) d
  else if num =? HIVE_ASSET_NUM_HBD then
    w ← get_account n d;
    r ← pay_interest false n (savings_hbd w) d;
    h ← add_hbd delta r.1;
    check_funds check_balance (h_balance h) "Insufficient savings HBD funds" ;;
    Ok (set_wallets (<[n := set_savings_hbd h w]> (wallets r.2)) r.2)
  else Throw (assert_exception "invalid symbol").

Definition HIVE_BLOCKS_PER_DAY : Z := 24 * 60 * 60 / 3.

Definition adjust_supply (delta : asset) (adjust_vesting : bool) (d : money_state)
    : result money_state :=
  let check_supply := has_hardfork HIVE_HARDFORK_0_20 d in
  let adjust_vesting := if head_block_number d <? HIVE_BLOCKS_PER_DAY * 7 then false
                        else adjust_vesting in
  let num := asset_num (symbol delta) in
  if num =? HIVE_ASSET_NUM_HIVE then
    new_vesting ← (if adjust_vesting && (0 <? amount delta) then share_mul (amount delta) 9
                   else Ok 0);
    total ← asset_add delta (Asset new_vesting HIVE_SYMBOL);
    supply ← tiny_add_asset HIVE_SYMBOL (current_supply d) total;
    total ← asset_add delta (Asset new_vesting HIVE_SYMBOL);
    virtual ← tiny_add_asset HIVE_SYMBOL (virtual_supply d) total;
    fund ← share_add (total_vesting_fund_hive d) new_vesting;
    (if check_supply then fc_assert (0 <=? supply) "props.current_supply.amount.value >= 0"
     else Ok tt) ;;
    Ok (set_supply supply (current_hbd_supply d) virtual fund d)
  else if num =? HIVE_ASSET_NUM_HBD then
    hbd ← tiny_add_asset HBD_SYMBOL (current_hbd_supply d) delta;
    value ← asset_mul_price (Asset hbd HBD_SYMBOL) (current_median_history d);
    virtual ← asset_add value (Asset (current_supply d) HIVE_SYMBOL);
    (if check_supply then fc_assert (0 <=? hbd) "props.get_current_hbd_supply().amount.value >= 0"
     else Ok tt) ;;
    Ok (set_supply (current_supply d) hbd (amount virtual) (total_vesting_fund_hive d) d)
  else Throw (assert_exception "invalid symbol").

(** ** Transfers *)

Definition is_treasury (n : string) : bool :=
  String.eqb n "hive.fund" || String.eqb n "steem.dao".

Definition transfer_evaluator (o : transfer_operation) (d : money_state) : result money_state :=
  let value := transfer_amount o in
  if has_hardfork HIVE_HARDFORK_1_24 d && symbol_eqb (symbol value) HIVE_SYMBOL
     && is_treasury (transfer_to o) then
    fc_assert (negb (is_null (current_median_history d)))
      "Cannot send HIVE to ${s} because there is no price feed." ;;
    amount_to_transfer ← asset_mul_price value (current_median_history d);
    minus ← asset_neg value;
    d ← adjust_balance (transfer_from o) minus d;
    d ← adjust_balance (transfer_to o) amount_to_transfer d;
    minus ← asset_neg value;
    d ← adjust_supply minus false d;
    d ← (if 0 <? amount amount_to_transfer then adjust_supply amount_to_transfer false d
         else Ok d);
    hive_in ← tiny_set HIVE_SYMBOL value;
    hbd_out ← tiny_set HBD_SYMBOL amount_to_transfer;
    Ok (push_virtual_operation (op_dhf_conversion
          (Build_dhf_conversion_operation (transfer_to o) hive_in hbd_out)) d)
  else
    (if has_hardfork HIVE_HARDFORK_0_21 d then
       fc_assert (symbol_eqb (symbol value) HBD_SYMBOL || negb (is_treasury (transfer_to o)))
         "Can only transfer HBD or HIVE to ${s}"
     else Ok tt) ;;
    minus ← asset_neg value;
    d ← adjust_balance (transfer_from o) minus d;
    adjust_balance (transfer_to o) value d.

(** ** Savings *)

Definition HIVE_SAVINGS_WITHDRAW_TIME : Z := 60 * 60 * 24 * 3.
Definition HIVE_SAVINGS_WITHDRAW_REQUEST_LIMIT : Z := 100.

Definition transfer_to_savings_evaluator (o : transfer_to_savings_operation) (d : money_state)
    : result money_state :=
  get_account (transfer_to_savings_from o) d ;;
  get_account (transfer_to_savings_to o) d ;;
  (if has_hardfork HIVE_HARDFORK_0_21 d then
     fc_assert (negb (is_treasury (transfer_to_savings_to o))) "Cannot transfer savings to ${s}"
   else Ok tt) ;;
  minus ← asset_neg (transfer_to_savings_amount o);
  d ← adjust_balance (transfer_to_savings_from o) minus d;
  adjust_savings_balance (transfer_to_savings_to o) (transfer_to_savings_amount o) d.

Definition transfer_from_savings_evaluator (o : transfer_from_savings_operation) (d : money_state)
    : result money_state :=
  let from := transfer_from_savings_from o in
  let to := transfer_from_savings_to o in
  let value := transfer_from_savings_amount o in
  w ← get_account from d;
  get_account to d ;;
  fc_assert (savings_withdraw_requests w <? HIVE_SAVINGS_WITHDRAW_REQUEST_LIMIT)
    "Account has reached limit for pending withdraw requests." ;;
  (if has_hardfork HIVE_HARDFORK_0_21 d then
     fc_assert (symbol_eqb (symbol value) HBD_SYMBOL || negb (is_treasury to))
       "Can only transfer HBD to ${s}"
   else Ok tt) ;;
  saved ← get_savings_balance w (symbol value);
  enough ← asset_geb saved value;
  fc_assert enough "_db.get_savings_balance( from, op.amount.symbol ) >= op.amount" ;;
  minus ← asset_neg value;
  d ← adjust_savings_balance from minus d;
  let key := (from, transfer_from_savings_request_id o) in
  (* the index by account and request number is unique *)
  (if decide (is_Some (savings_withdraws d !! key)) then Throw logic_error_exception else Ok tt) ;;
  let d := set_savings_withdraws (<[key := SavingsWithdraw to (transfer_from_savings_memo o) value
             (u32 (head_block_time d + HIVE_SAVINGS_WITHDRAW_TIME))]> (savings_withdraws d)) d in
  modify_wallet from (λ w, Ok (set_requests (u8 (savings_withdraw_requests w + 1)) w)) d.

Definition cancel_transfer_from_savings_evaluator (o : cancel_transfer_from_savings_operation)
    (d : money_state) : result money_state :=
  let from := cancel_transfer_from_savings_from o in
  let key := (from, cancel_transfer_from_savings_request_id o) in
  swo ← from_option_or out_of_range_exception (savings_withdraws d !! key);
  d ← adjust_savings_balance from (sw_amount swo) d;
  let d := set_savings_withdraws (delete key (savings_withdraws d)) d in
  modify_wallet from (λ w, Ok (set_requests (u8 (savings_withdraw_requests w - 1)) w)) d.

(** Order of the index [by_complete_from_rid]. *)
Definition withdraw_le (p q : (string * Z) * savings_withdraw_object) : Prop :=
  sw_complete p.2 < sw_complete q.2 ∨
  sw_complete p.2 = sw_complete q.2 ∧
    (p.1.1 = q.1.1 ∧ p.1.2 ≤ q.1.2 ∨ p.1.1 ≠ q.1.1 ∧ String.leb p.1.1 q.1.1 = true).
#[export] Instance withdraw_le_dec : RelDecision withdraw_le.
Proof. intros p q. unfold withdraw_le. apply _. Defined.

(** One round of [process_savings_withdraws]. *)
Definition fill_withdraw (key : string * Z) (swo : savings_withdraw_object) (d : money_state)
    : result money_state :=
  d ← adjust_balance (sw_to swo) (sw_amount swo) d;
  d ← modify_wallet key.1 (λ w, Ok (set_requests (u8 (savings_withdraw_requests w - 1)) w)) d;
  let d := push_virtual_operation (op_fill_transfer_from_savings
             (Build_fill_transfer_from_savings_operation key.1 (sw_to swo) (sw_amount swo) key.2
                (sw_memo swo))) d in
  Ok (set_savings_withdraws (delete key (savings_withdraws d)) d).

(** The rounds take the requests in the order of the index; they add none and remove the one
    they fill. *)
Fixpoint withdraw_rounds (l : list ((string * Z) * savings_withdraw_object)) (d : money_state)
    : result money_state :=
  match l with
  | [] => Ok d
  | (key, swo) :: l =>
      if head_block_time d <? sw_complete swo then Ok d
      else d ← fill_withdraw key swo d; withdraw_rounds l d
  end.

Definition process_savings_withdraws (d : money_state) : result money_state :=
  withdraw_rounds (merge_sort withdraw_le (map_to_list (savings_withdraws d))) d.
