(* ===== verification/Market.v ===== *)
(** * Market

    The internal market: limit orders and their matching ([apply_order], [match],
    [fill_order], [cancel_order], [clear_expired_orders] of libraries/chain/database.cpp) and
    the evaluators that create and cancel orders (libraries/chain/hive_evaluator.cpp).

    The orders are a map from object ids; the indices of [limit_order_index] are the sorted
    lists and the lookups below.  A reference to an order object is its id, read again at each
    use, because [fill_order] changes and removes the objects it is passed. *)

From S2P Require Import Prelude Safe AssetSymbol Asset OperationTypes Operations Balances.
Open Scope Z_scope.

Definition HIVE_HARDFORK_0_6 : Z := 6.
Definition HIVE_HARDFORK_0_9 : Z := 9.
Definition HIVE_HARDFORK_0_10 : Z := 10.
Definition HIVE_HARDFORK_0_12 : Z := 12.
Definition HIVE_HARDFORK_0_20_TIME : Z := 1537887600.
Definition HIVE_MAX_LIMIT_ORDER_EXPIRATION : Z := 60 * 60 * 24 * 28.
Definition HIVE_MIN_LIQUIDITY_REWARD_PERIOD_SEC : Z := 60.
Definition HIVE_MIN_LIQUIDITY_REWARD_PERIOD_SEC_HF10 : Z := 60 * 30.
Definition HIVE_LIQUIDITY_TIMEOUT_SEC : Z := 60 * 60 * 24 * 7.

(** ** Orders *)

Definition amount_for_sale (o : limit_order_object) : asset :=
  Asset (for_sale o) (symbol (base (sell_price o))).
Definition amount_to_receive (o : limit_order_object) : result asset :=
  asset_mul_price (amount_for_sale o) (sell_price o).

Definition set_for_sale (x : Z) (o : limit_order_object) : limit_order_object :=
  LimitOrder (created o) (lo_expiration o) (seller o) (orderid o) x (sell_price o).

(** Following a reference to an order. *)
Definition deref_order (i : Z) (d : money_state) : result limit_order_object :=
  from_option_or undefined_behaviour (limit_orders d !! i).

Definition modify_order (i : Z) (f : limit_order_object → result limit_order_object)
    (d : money_state) : result money_state :=
  o ← deref_order i d;
  o ← f o;
  Ok (set_orders (<[i := o]> (limit_orders d)) (next_order_id d) d).

Definition remove_order (i : Z) (d : money_state) : money_state :=
  set_orders (delete i (limit_orders d)) (next_order_id d) d.

(** Index [by_account], which is unique. *)
Definition find_by_account (n : string) (id : Z) (m : gmap Z limit_order_object) : option Z :=
  (λ f, f.2.1) <$> list_find (λ p, seller p.2 = n ∧ orderid p.2 = id) (items m).

Definition get_limit_order (n : string) (id : Z) (d : money_state) : result Z :=
  let id := if has_hardfork HIVE_HARDFORK_0_6 d then id else Z.land id 65535 in
  from_option_or out_of_range_exception (find_by_account n id (limit_orders d)).

(** [create<limit_order_object>]: the constructor's check, then the insertion. *)
Definition create_order (n : string) (amount_to_sell : asset) (p : price)
    (creation expiration : time_point_sec) (id : Z) (d : money_state)
    : result (Z * money_state) :=
  fc_assert (symbol_eqb (symbol amount_to_sell) (symbol (base p)))
    "_amount_to_sell.symbol == _sell_price.base.symbol" ;;
  let i := next_order_id d in
  (if decide (is_Some (find_by_account n id (limit_orders d)))
   then Throw logic_error_exception else Ok tt) ;;
  Ok (i, set_orders (<[i := LimitOrder creation expiration n id (amount amount_to_sell) p]>
                       (limit_orders d)) (i + 1) d).

(** ** Filling and cancelling *)

Definition cancel_order (i : Z) (suppress_vop : bool) (d : money_state) : result money_state :=
  o ← deref_order i d;
  let amount_back := amount_for_sale o in
  d ← adjust_balance (seller o) amount_back d;
  let d := if suppress_vop then d
           else push_virtual_operation (op_limit_order_cancelled
                  (Build_limit_order_cancelled_operation (seller o) (orderid o) amount_back)) d in
  Ok (remove_order i d).

Definition fill_order (i : Z) (pays receives : asset) (d : money_state)
    : result (bool * money_state) :=
  o ← deref_order i d;
  fc_assert (symbol_eqb (symbol (amount_for_sale o)) (symbol pays)) "error filling orders" ;;
  fc_assert (negb (symbol_eqb (symbol pays) (symbol receives))) "error filling orders" ;;
  d ← adjust_balance (seller o) receives d;
  if asset_eqb pays (amount_for_sale o) then Ok (true, remove_order i d)
  else
    (if has_hardfork HIVE_HARDFORK_0_20 d then
       less ← asset_ltb pays (amount_for_sale o);
       fc_assert less "error filling orders"
     else Ok tt) ;;
    d ← modify_order i (λ o, x ← share_sub (for_sale o) (amount pays); Ok (set_for_sale x o)) d;
    o ← deref_order i d;
    rest ← amount_to_receive o;
    if amount rest =? 0 then d ← cancel_order i false d; Ok (true, d)
    else Ok (false, d).

(** ** Rewards for liquidity *)

Definition is_positive (r : liquidity_reward_balance_object) : bool :=
  (0 <? hive_volume r) && (0 <? hbd_volume r).

Definition update_weight (hf9 : bool) (r : liquidity_reward_balance_object)
    : result liquidity_reward_balance_object :=
  w ← (if hf9 then Ok (Z.min (hive_volume r) (hbd_volume r))
       else signed64 (hive_volume r * hbd_volume r));
  Ok (LiquidityReward (last_update r) (if is_positive r then u128 w else 0)
        (hive_volume r) (hbd_volume r)).

Definition touch_reward (now : Z) (r : liquidity_reward_balance_object)
    : liquidity_reward_balance_object :=
  LiquidityReward now (weight r) (hive_volume r) (hbd_volume r).

Definition adjust_liquidity_reward (n : string) (volume : asset) (is_hbd : bool)
    (d : money_state) : result money_state :=
  let now := head_block_time d in
  r ← match liquidity_rewards d !! n with
      | Some r =>
          let r := if HIVE_LIQUIDITY_TIMEOUT_SEC <=? now - last_update r
                   then LiquidityReward (last_update r) 0 0 0 else r in
          r ← (if is_hbd then
                 x ← signed64 (hbd_volume r + amount volume);
                 Ok (LiquidityReward (last_update r) (weight r) (hive_volume r) x)
               else
                 x ← signed64 (hive_volume r + amount volume);
                 Ok (LiquidityReward (last_update r) (weight r) x (hbd_volume r)));
          update_weight (has_hardfork HIVE_HARDFORK_0_10 d) r
      | None =>
          update_weight (has_hardfork HIVE_HARDFORK_0_9 d)
            (if is_hbd then LiquidityReward 0 0 0 (amount volume)
             else LiquidityReward 0 0 (amount volume) 0)
      end;
  Ok (set_liquidity_rewards (<[n := touch_reward now r]> (liquidity_rewards d)) d).

(** ** Matching *)

Definition match_assert (hf20 b : bool) : result unit :=
  if hf20 then fc_assert b "error matching orders" else Ok tt.

(** What the two orders receive; each pays what the other receives. *)
Definition match_amounts (new_for_sale old_for_sale : asset) (match_price : price)
    : result (asset * asset) :=
  limit ← asset_mul_price old_for_sale match_price;
  small ← asset_leb new_for_sale limit;
  if (small : bool) then
    new_receives ← asset_mul_price new_for_sale match_price;
    Ok (new_receives, new_for_sale)
  else
    old_receives ← asset_mul_price old_for_sale match_price;
    Ok (old_for_sale, old_receives).

Definition match_rewards (new old : limit_order_object) (new_receives old_receives : asset)
    (d : money_state) : result money_state :=
  let age := head_block_time d - created old in
  let hf10 := has_hardfork HIVE_HARDFORK_0_10 d in
  if negb (has_hardfork HIVE_HARDFORK_0_12 d)
     && ((HIVE_MIN_LIQUIDITY_REWARD_PERIOD_SEC <=? age) && negb hf10
         || (HIVE_MIN_LIQUIDITY_REWARD_PERIOD_SEC_HF10 <=? age) && hf10) then
    let is_hive := symbol_eqb (symbol old_receives) HIVE_SYMBOL in
    let volume := if is_hive then old_receives else new_receives in
    get_account (seller old) d ;;
    d ← adjust_liquidity_reward (seller old) volume (negb is_hive) d;
    get_account (seller new) d ;;
    minus ← asset_neg volume;
    adjust_liquidity_reward (seller new) minus (negb is_hive) d
  else Ok d.

(** [match]: whether the new order and whether the old order was filled, the two bits of the
    C++ result. *)
Definition match_orders (new_id old_id : Z) (match_price : price) (d : money_state)
    : result ((bool * bool) * money_state) :=
  new ← deref_order new_id d;
  old ← deref_order old_id d;
  let hf20 := has_hardfork HIVE_HARDFORK_0_20 d in
  match_assert hf20 (symbol_eqb (symbol (quote (sell_price new))) (symbol (base (sell_price old)))) ;;
  match_assert hf20 (symbol_eqb (symbol (base (sell_price new))) (symbol (quote (sell_price old)))) ;;
  match_assert hf20 ((0 <? for_sale new) && (0 <? for_sale old)) ;;
  match_assert hf20 (symbol_eqb (symbol (quote match_price)) (symbol (base (sell_price new)))) ;;
  match_assert hf20 (symbol_eqb (symbol (base match_price)) (symbol (base (sell_price old)))) ;;
  '(new_receives, old_receives) ← match_amounts (amount_for_sale new) (amount_for_sale old) match_price;
  let old_pays := new_receives in
  let new_pays := old_receives in
  match_assert hf20 (asset_eqb new_pays (amount_for_sale new)
                     || asset_eqb old_pays (amount_for_sale old)) ;;
  d ← match_rewards new old new_receives old_receives d;
  let d := push_virtual_operation (op_fill_order (Build_fill_order_operation
             (seller new) (orderid new) new_pays (seller old) (orderid old) old_pays)) d in
  '(new_filled, d) ← fill_order new_id new_pays new_receives d;
  '(old_filled, d) ← fill_order old_id old_pays old_receives d;
  match_assert hf20 (new_filled || old_filled) ;;
  Ok ((new_filled, old_filled), d).

(** Order of the index [by_price]: the greatest price first, then the smallest id. *)
Definition price_before (x y : Z * limit_order_object) : Prop :=
  price_gtb (sell_price x.2) (sell_price y.2) = true ∨
  price_gtb (sell_price y.2) (sell_price x.2) = false ∧ x.1 ≤ y.1.
#[export] Instance price_before_dec : RelDecision price_before.
Proof. intros x y. unfold price_before. apply _. Defined.

Definition by_price (m : gmap Z limit_order_object) : list (Z * limit_order_object) :=
  merge_sort price_before (map_to_list m).

(** From [lower_bound( max )] to [upper_bound( max_price )] of the index. *)
Definition price_range (max max_price : price) (m : gmap Z limit_order_object)
    : list (Z * limit_order_object) :=
  filter (λ x, price_gtb (sell_price x.2) max = false ∧ price_gtb max_price (sell_price x.2) = false)
    (by_price m).

(** The loop of [apply_order] over the range.  The iterator is advanced before the match, and
    a match removes at most the two orders that it is passed. *)
Fixpoint match_range (new_id : Z) (range : list Z) (d : money_state) : result money_state :=
  match range with
  | [] => Ok d
  | old_id :: range =>
      old ← deref_order old_id d;
      '(filled, _, d) ← match_orders new_id old_id (sell_price old) d;
      if (filled : bool) then Ok d else match_range new_id range d
  end.

Definition apply_order (new_id : Z) (d : money_state) : result (bool * money_state) :=
  new ← deref_order new_id d;
  max_price ← price_inverse (sell_price new);
  max ← price_max (symbol (base max_price)) (symbol (quote max_price));
  d ← match_range new_id (price_range max max_price (limit_orders d)).*1 d;
  Ok (bool_decide (limit_orders d !! new_id = None), d).

(** ** Expired orders *)

Definition expires_before (x y : Z * limit_order_object) : Prop :=
  lo_expiration x.2 < lo_expiration y.2 ∨ lo_expiration x.2 = lo_expiration y.2 ∧ x.1 ≤ y.1.
#[export] Instance expires_before_dec : RelDecision expires_before.
Proof. intros x y. unfold expires_before. apply _. Defined.

(** The loop takes the orders in the order of the index [by_expiration]; each round removes
    the one it cancels. *)
Fixpoint cancel_expired (now : time_point_sec) (l : list (Z * limit_order_object))
    (d : money_state) : result money_state :=
  match l with
  | [] => Ok d
  | (i, o) :: l =>
      if lo_expiration o <? now then d ← cancel_order i false d; cancel_expired now l d else Ok d
  end.

Definition clear_expired_orders (d : money_state) : result money_state :=
  cancel_expired (head_block_time d) (merge_sort expires_before (map_to_list (limit_orders d))) d.

(** ** Evaluators *)

(** The expiration that the order gets. *)
Definition order_expiration (rand_offset : Z) (expiration : time_point_sec) (d : money_state)
    : result time_point_sec :=
  fc_assert (head_block_time d <? expiration) "Limit order has to expire after head block time." ;;
  if has_hardfork HIVE_HARDFORK_0_20 d then
    fc_assert (expiration <=? u32 (head_block_time d + HIVE_MAX_LIMIT_ORDER_EXPIRATION))
      "Limit Order Expiration must not be more than 28 days in the future" ;;
    Ok expiration
  else Ok (Z.min expiration (u32 (HIVE_HARDFORK_0_20_TIME + HIVE_MAX_LIMIT_ORDER_EXPIRATION + rand_offset))).

Definition place_order (owner : string) (id : Z) (amount_to_sell : asset) (p : result price)
    (fill_or_kill : bool) (expiration : time_point_sec) (d : money_state) : result money_state :=
  minus ← asset_neg amount_to_sell;
  d ← adjust_balance owner minus d;
  p ← p;
  '(i, d) ← create_order owner amount_to_sell p (head_block_time d) expiration id d;
  '(filled, d) ← apply_order i d;
  (if fill_or_kill then fc_assert filled "Cancelling order because it was not filled."
   else Ok tt) ;;
  Ok d.

Definition limit_order_create_evaluator (o : limit_order_create_operation) (d : money_state)
    : result money_state :=
  expiration ← order_expiration (head_block_hash d mod 86400) (limit_order_create_expiration o) d;
  place_order (limit_order_create_owner o) (limit_order_create_orderid o)
    (limit_order_create_amount_to_sell o) (get_price o) (limit_order_create_fill_or_kill o)
    expiration d.

Definition limit_order_create2_evaluator (o : limit_order_create2_operation) (d : money_state)
    : result money_state :=
  expiration ← order_expiration 0 (limit_order_create2_expiration o) d;
  place_order (limit_order_create2_owner o) (limit_order_create2_orderid o)
    (limit_order_create2_amount_to_sell o) (Ok (limit_order_create2_exchange_rate o))
    (limit_order_create2_fill_or_kill o) expiration d.

Definition limit_order_cancel_evaluator (o : limit_order_cancel_operation) (d : money_state)
    : result money_state :=
  i ← get_limit_order (limit_order_cancel_owner o) (limit_order_cancel_orderid o) d;
  cancel_order i false d.
