(* ===== verification/MoneyBooks.v ===== *)
(** * MoneyBooks

    The invariant of the money of Balances and Market, and how the primitive changes of
    balances, orders and withdrawal requests act on it.

    [held s d] is everything that users hold of the asset [s]: liquid balances, savings, what
    their orders offer and what they are withdrawing from savings.  [gap s d] is the rest of
    the supply (funds, vesting, pending rewards), which the operations of Balances and Market
    never touch. *)

From S2P Require Import Prelude Safe AssetSymbol Asset OperationTypes Balances Market.
Open Scope Z_scope.

(** ** What is held *)

Definition money_symbol (s : asset_symbol_type) : Prop := s = HIVE_SYMBOL ∨ s = HBD_SYMBOL.

Definition liquid (s : asset_symbol_type) (w : wallet) : Z :=
  if decide (s = HIVE_SYMBOL) then balance w else hbd_balance w.
Definition saved (s : asset_symbol_type) (w : wallet) : Z :=
  if decide (s = HIVE_SYMBOL) then savings_balance w else savings_hbd_balance w.
Definition offered (s : asset_symbol_type) (o : limit_order_object) : Z :=
  if decide (symbol (base (sell_price o)) = s) then for_sale o else 0.
Definition withdrawn (s : asset_symbol_type) (x : savings_withdraw_object) : Z :=
  if decide (symbol (sw_amount x) = s) then amount (sw_amount x) else 0.

Definition supply (s : asset_symbol_type) (d : money_state) : Z :=
  if decide (s = HIVE_SYMBOL) then current_supply d else current_hbd_supply d.

Definition held (s : asset_symbol_type) (d : money_state) : Z :=
  map_sum (λ _ w, liquid s w + saved s w) (wallets d)
  + map_sum (λ _ o, offered s o) (limit_orders d)
  + map_sum (λ _ x, withdrawn s x) (savings_withdraws d).

Definition gap (s : asset_symbol_type) (d : money_state) : Z := supply s d - held s d.

(** What the seller of an order still asks for. *)
Definition due (o : limit_order_object) : Z :=
  for_sale o * amount (quote (sell_price o)) / amount (base (sell_price o)).

(** Requests for withdrawal of an account. *)
Definition pending (n : string) (m : gmap (string * Z) savings_withdraw_object) : Z :=
  map_sum (λ k _, if decide (k.1 = n) then 1 else 0) m.

(** ** The invariant *)

Definition wallet_ok (w : wallet) : Prop :=
  ∀ s, 0 ≤ liquid s w ∧ 0 ≤ saved s w.

Record order_ok (accounts : gmap string wallet) (next i : Z) (o : limit_order_object) : Prop := {
  ok_id : i < next;
  ok_seller : is_Some (accounts !! seller o);
  ok_symbol : money_symbol (symbol (base (sell_price o)));
  ok_price : valid_price (sell_price o);
  ok_for_sale : 0 < for_sale o;
  ok_due : 0 < due o ≤ i64_max
}.

Record withdraw_ok (accounts : gmap string wallet) (k : string * Z) (x : savings_withdraw_object)
    : Prop := {
  ok_from : is_Some (accounts !! k.1);
  ok_to : is_Some (accounts !! sw_to x);
  ok_amount : 0 < amount (sw_amount x);
  ok_withdraw_symbol : money_symbol (symbol (sw_amount x))
}.

(** The state without its totals. *)
Record shape (d : money_state) : Prop := {
  sh_hardfork : HIVE_HARDFORK_1_25 < processed_hardforks d;
  sh_wallets : map_Forall (λ _ w, wallet_ok w) (wallets d);
  sh_orders : map_Forall (order_ok (wallets d) (next_order_id d)) (limit_orders d);
  sh_unique : ∀ i j o p, limit_orders d !! i = Some o → limit_orders d !! j = Some p →
    seller o = seller p → orderid o = orderid p → i = j;
  sh_withdraws : map_Forall (withdraw_ok (wallets d)) (savings_withdraws d);
  sh_requests : ∀ n w, wallets d !! n = Some w →
    savings_withdraw_requests w = pending n (savings_withdraws d) ∧
    pending n (savings_withdraws d) ≤ HIVE_SAVINGS_WITHDRAW_REQUEST_LIMIT
}.

(** The median price is the null price of a chain without feed, or a price of HIVE in HBD at
    which the supply of HIVE has a representable value. *)
Definition feed_ok (d : money_state) : Prop :=
  is_null (current_median_history d) = true ∨
  valid_price (current_median_history d) ∧
  symbol (base (current_median_history d)) = HBD_SYMBOL ∧
  symbol (quote (current_median_history d)) = HIVE_SYMBOL ∧
  current_supply d * amount (base (current_median_history d))
    / amount (quote (current_median_history d)) ≤ i64_max.

Record money_ok (d : money_state) : Prop := {
  money_shape : shape d;
  money_gap : ∀ s, money_symbol s → 0 ≤ gap s d;
  money_supply : ∀ s, money_symbol s → supply s d ≤ i64_max;
  money_feed : feed_ok d
}.

Lemma hive_ne_hbd : HIVE_SYMBOL ≠ HBD_SYMBOL.
Proof. by vm_compute. Qed.
#[export] Hint Resolve hive_ne_hbd : core.

Lemma money_symbol_hive : money_symbol HIVE_SYMBOL.
Proof. by left. Qed.
Lemma money_symbol_hbd : money_symbol HBD_SYMBOL.
Proof. by right. Qed.
#[export] Hint Resolve money_symbol_hive money_symbol_hbd : core.

(** ** Checked arithmetic *)

Lemma share_add_bound a b c :
  i64_min ≤ a ≤ i64_max → i64_min ≤ b ≤ i64_max → share_add a b = Ok c →
  i64_min ≤ c ≤ i64_max.
Proof. intros Ha Hb Hc. apply (safe_add_Ok int64_limits) in Hc as [-> ?]; done. Qed.

Lemma tiny_add_inv sym x v c : tiny_add_asset sym x v = Ok c → c = x + amount v.
Proof. unfold tiny_add_asset. intros H. ok_inv H. by apply share_add_eq. Qed.

Lemma tiny_add_fits sym x v :
  symbol v = sym → i64_min ≤ x + amount v ≤ i64_max → tiny_add_asset sym x v = Ok (x + amount v).
Proof.
  intros Hs Hc. unfold tiny_add_asset, tiny_check. rewrite Hs, symbol_eqb_refl.
  by apply share_add_in.
Qed.

Lemma asset_neg_eq a : i64_min < amount a → asset_neg a = Ok (Asset (- amount a) (symbol a)).
Proof. intros Ha. unfold asset_neg. by rewrite share_neg_in. Qed.

(** ** Changes of one balance *)

Definition credit (s : asset_symbol_type) (x : Z) (w : wallet) : wallet :=
  if decide (s = HIVE_SYMBOL) then set_balance (balance w + x) w
  else set_liquid_hbd (HbdAccount (hbd_balance w + x) (hbd_seconds w)
         (hbd_seconds_last_update w) (hbd_last_interest_payment w)) w.

Definition put (n : string) (s : asset_symbol_type) (x : Z) (d : money_state) : money_state :=
  set_wallets (alter (credit s x) n (wallets d)) d.

Lemma alter_Some `{Countable K} {V} (f : V → V) (m : gmap K V) k v :
  m !! k = Some v → alter f k m = <[k := f v]> m.
Proof.
  intros Hk. apply map_eq. intros j. destruct (decide (k = j)) as [->|Hne].
  - by rewrite lookup_alter_eq, lookup_insert_eq, Hk.
  - by rewrite lookup_alter_ne, lookup_insert_ne by done.
Qed.

Lemma current_hardforks k d :
  HIVE_HARDFORK_1_25 < processed_hardforks d → k ≤ HIVE_HARDFORK_1_25 →
  has_hardfork k d = true.
Proof. intros H1 H2. unfold has_hardfork. bool_to_prop. lia. Qed.

Lemma get_account_Ok n d w : get_account n d = Ok w ↔ wallets d !! n = Some w.
Proof. apply from_option_or_Ok. Qed.

Lemma credit_liquid s x w s' :
  money_symbol s → money_symbol s' →
  liquid s' (credit s x w) = liquid s' w + (if decide (s' = s) then x else 0).
Proof.
  intros [-> | ->] [-> | ->]; unfold credit, liquid; simpl; repeat case_decide; simpl;
    try done; lia.
Qed.

Lemma credit_saved s x w s' : saved s' (credit s x w) = saved s' w.
Proof. unfold credit, saved. by repeat case_decide. Qed.

Lemma credit_requests s x w :
  savings_withdraw_requests (credit s x w) = savings_withdraw_requests w.
Proof. unfold credit. by case_decide. Qed.

Lemma symbol_num_hive s : (asset_num s =? HIVE_ASSET_NUM_HIVE) = bool_decide (s = HIVE_SYMBOL).
Proof. apply eq_true_iff_eq. rewrite bool_decide_eq_true. apply (symbol_eqb_spec s HIVE_SYMBOL). Qed.
Lemma symbol_num_hbd s : (asset_num s =? HIVE_ASSET_NUM_HBD) = bool_decide (s = HBD_SYMBOL).
Proof. apply eq_true_iff_eq. rewrite bool_decide_eq_true. apply (symbol_eqb_spec s HBD_SYMBOL). Qed.
Lemma symbol_num_vests s : (asset_num s =? HIVE_ASSET_NUM_VESTS) = bool_decide (s = VESTS_SYMBOL).
Proof. apply eq_true_iff_eq. rewrite bool_decide_eq_true. apply (symbol_eqb_spec s VESTS_SYMBOL). Qed.

Lemma get_balance_eq w s : money_symbol s → get_balance w s = Ok (Asset (liquid s w) s).
Proof.
  intros Hs. unfold get_balance, liquid. rewrite symbol_num_hive, symbol_num_hbd.
  destruct Hs as [-> | ->]; done.
Qed.

Lemma get_savings_balance_eq w s :
  money_symbol s → get_savings_balance w s = Ok (Asset (saved s w) s).
Proof.
  intros Hs. unfold get_savings_balance, saved. rewrite symbol_num_hive, symbol_num_hbd.
  destruct Hs as [-> | ->]; done.
Qed.

Section one_balance.
Context (d : money_state) (Hhf : HIVE_HARDFORK_1_25 < processed_hardforks d).
Context (n : string) (delta : asset) (Hs : money_symbol (symbol delta)).

(** [modify_balance] of a liquid asset, with the check of the funds. *)
Lemma modify_balance_eq w :
  wallets d !! n = Some w →
  modify_balance n delta true d =
    (x ← tiny_add_asset (symbol delta) (liquid (symbol delta) w) delta;
     check_funds true x (if decide (symbol delta = HIVE_SYMBOL) then "Insufficient HIVE funds"
                         else "Insufficient HBD funds") ;;
     Ok (set_wallets (<[n := credit (symbol delta) (x - liquid (symbol delta) w) w]> (wallets d)) d)).
Proof using Hhf Hs.
  intros Hw. unfold modify_balance. rewrite symbol_num_hive, symbol_num_hbd.
  assert (get_account n d = Ok w) as Hg by by apply get_account_Ok.
  unfold liquid, credit, modify_wallet. rewrite Hg.
  rewrite (current_hardforks HIVE_HARDFORK_1_25) by done.
  destruct Hs as [Hsym|Hsym]; rewrite Hsym.
  - rewrite bool_decide_true, !decide_True by done. cbn [mbind result_bind].
    destruct (tiny_add_asset _ _ _) as [x|] eqn:E; [|done]. cbn -[check_funds].
    rewrite !decide_True by done.
    destruct (check_funds _ _ _); [|done]. cbn. by replace (balance w + (x - balance w)) with x by lia.
  - rewrite bool_decide_false, bool_decide_true, !decide_False by done. unfold add_hbd.
    cbn [mbind result_bind fst snd liquid_hbd h_balance h_seconds h_last_update h_last_payment].
    destruct (tiny_add_asset _ _ _) as [x|] eqn:E; [|done]. cbn -[check_funds].
    rewrite !decide_False by done.
    destruct (check_funds _ _ _); [|done]. cbn. by replace (hbd_balance w + (x - hbd_balance w)) with x by lia.
Qed.

Lemma adjust_balance_inv d' :
  adjust_balance n delta d = Ok d' →
  ∃ w, wallets d !! n = Some w ∧ 0 ≤ liquid (symbol delta) w + amount delta ∧
    d' = put n (symbol delta) (amount delta) d.
Proof using Hhf Hs.
  unfold adjust_balance. intros (w & Hw%get_account_Ok & (? & _ & Hm)%bind_Ok)%bind_Ok.
  exists w. split; [done|]. rewrite (current_hardforks HIVE_HARDFORK_0_20) in Hm by done.
  rewrite (modify_balance_eq w) in Hm by done.
  apply bind_Ok in Hm as (b & ->%tiny_add_inv & (? & Hc%fc_assert_Ok & [= <-])%bind_Ok).
  bool_to_prop. unfold put. rewrite (alter_Some _ _ _ w) by done. split; [lia|].
  by replace (liquid (symbol delta) w + amount delta - liquid (symbol delta) w)
    with (amount delta) by lia.
Qed.

Lemma adjust_balance_Ok w :
  wallets d !! n = Some w → 0 ≤ liquid (symbol delta) w ≤ i64_max →
  i64_min < amount delta ≤ i64_max → 0 ≤ liquid (symbol delta) w + amount delta ≤ i64_max →
  adjust_balance n delta d = Ok (put n (symbol delta) (amount delta) d).
Proof using Hhf Hs.
  intros Hw Hl Ha Hsum. unfold adjust_balance.
  rewrite (proj2 (get_account_Ok n d w) Hw), (current_hardforks HIVE_HARDFORK_0_20) by done.
  cbn [mbind result_bind].
  assert (modify_balance n delta true d = Ok (put n (symbol delta) (amount delta) d)) as ->.
  { rewrite (modify_balance_eq w) by done.
    rewrite tiny_add_fits by (unfold i64_min, i64_max in *; done || lia). cbn [mbind result_bind].
    unfold check_funds. replace (0 <=? _) with true by (symmetry; bool_to_prop; lia).
    cbn [fc_assert mbind result_bind]. unfold put. rewrite (alter_Some _ _ _ w) by done.
    by replace (liquid (symbol delta) w + amount delta - liquid (symbol delta) w)
      with (amount delta) by lia. }
  destruct (Z.ltb_spec (amount delta) 0); [|done].
  rewrite get_balance_eq by done. cbn [mbind result_bind]. rewrite asset_neg_eq by lia.
  cbn [mbind result_bind]. unfold asset_geb, same_symbol. cbn [symbol amount].
  rewrite symbol_eqb_refl. cbn [mbind result_bind fc_assert fmap result_fmap].
  replace (_ <=? _) with true by (symmetry; bool_to_prop; lia). done.
Qed.

End one_balance.

(** ** Totals *)

Lemma wallets_sum_insert s (m : gmap string wallet) n w w' :
  m !! n = Some w →
  map_sum (λ _ w, liquid s w + saved s w) (<[n := w']> m) =
  map_sum (λ _ w, liquid s w + saved s w) m + (liquid s w' + saved s w') - (liquid s w + saved s w).
Proof. intros Hw. rewrite map_sum_insert, Hw. simpl. lia. Qed.

Lemma held_put n s x d w s' :
  wallets d !! n = Some w → money_symbol s → money_symbol s' →
  held s' (put n s x d) = held s' d + (if decide (s' = s) then x else 0).
Proof.
  intros Hw Hs Hs'. unfold held, put. cbn [wallets limit_orders savings_withdraws set_wallets].
  rewrite (alter_Some _ _ _ w), (wallets_sum_insert _ _ _ w) by done.
  rewrite credit_liquid, credit_saved by done. lia.
Qed.

Lemma gap_put n s x d w s' :
  wallets d !! n = Some w → money_symbol s → money_symbol s' →
  gap s' (put n s x d) = gap s' d - (if decide (s' = s) then x else 0).
Proof.
  intros Hw Hs Hs'. unfold gap. rewrite (held_put _ _ _ _ w) by done.
  change (supply s' (put n s x d)) with (supply s' d). lia.
Qed.

Lemma held_insert_order s i o k d :
  limit_orders d !! i = None →
  held s (set_orders (<[i := o]> (limit_orders d)) k d) = held s d + offered s o.
Proof.
  intros Hi. unfold held. cbn [wallets limit_orders savings_withdraws set_orders].
  rewrite map_sum_insert, Hi. simpl. lia.
Qed.

Lemma held_update_order s i o o' k d :
  limit_orders d !! i = Some o →
  held s (set_orders (<[i := o']> (limit_orders d)) k d) = held s d + offered s o' - offered s o.
Proof.
  intros Hi. unfold held. cbn [wallets limit_orders savings_withdraws set_orders].
  rewrite map_sum_insert, Hi. simpl. lia.
Qed.

Lemma held_remove_order s i o d :
  limit_orders d !! i = Some o → held s (remove_order i d) = held s d - offered s o.
Proof.
  intros Hi. unfold held, remove_order. cbn [wallets limit_orders savings_withdraws set_orders].
  rewrite map_sum_delete, Hi. simpl. lia.
Qed.

Section bounds.
Context (d : money_state) (Hd : shape d).

Lemma wallet_nonneg n w s : wallets d !! n = Some w → 0 ≤ liquid s w ∧ 0 ≤ saved s w.
Proof using Hd. intros Hw. by apply (sh_wallets d Hd n w). Qed.

Lemma wallets_sum_nonneg s : 0 ≤ map_sum (λ _ w, liquid s w + saved s w) (wallets d).
Proof using Hd.
  apply map_sum_nonneg. intros k v Hv. pose proof (wallet_nonneg k v s Hv). lia.
Qed.

Lemma offered_nonneg s i o : limit_orders d !! i = Some o → 0 ≤ offered s o.
Proof using Hd.
  intros Ho. pose proof (ok_for_sale _ _ _ _ (sh_orders d Hd i o Ho)).
  unfold offered. case_decide; lia.
Qed.

Lemma withdrawn_nonneg s k x : savings_withdraws d !! k = Some x → 0 ≤ withdrawn s x.
Proof using Hd.
  intros Hx. pose proof (ok_amount _ _ _ (sh_withdraws d Hd k x Hx)).
  unfold withdrawn. case_decide; lia.
Qed.

Lemma orders_sum_nonneg s : 0 ≤ map_sum (λ _ o, offered s o) (limit_orders d).
Proof using Hd. apply map_sum_nonneg. eauto using offered_nonneg. Qed.

Lemma withdraws_sum_nonneg s : 0 ≤ map_sum (λ _ x, withdrawn s x) (savings_withdraws d).
Proof using Hd. apply map_sum_nonneg. eauto using withdrawn_nonneg. Qed.

Lemma wallets_sum_le n w s :
  wallets d !! n = Some w →
  liquid s w + saved s w ≤ map_sum (λ _ w, liquid s w + saved s w) (wallets d).
Proof using Hd.
  intros Hw. apply (map_sum_lookup_le (λ _ w, liquid s w + saved s w) (wallets d) n w); [|done].
  intros k v Hv. pose proof (wallet_nonneg k v s Hv). lia.
Qed.

(** What an account, an order and a request have is part of what is held. *)
Lemma held_wallet n w s : wallets d !! n = Some w → liquid s w + saved s w ≤ held s d.
Proof using Hd.
  intros Hw. unfold held. pose proof (wallets_sum_le n w s Hw).
  pose proof (orders_sum_nonneg s). pose proof (withdraws_sum_nonneg s). lia.
Qed.

Lemma held_wallet_order n w i o s :
  wallets d !! n = Some w → limit_orders d !! i = Some o →
  liquid s w + saved s w + offered s o ≤ held s d.
Proof using Hd.
  intros Hw Ho. unfold held. pose proof (wallets_sum_le n w s Hw).
  pose proof (map_sum_lookup_le (λ _ o, offered s o) (limit_orders d) i o
    ltac:(eauto using offered_nonneg) Ho).
  pose proof (withdraws_sum_nonneg s). simpl in *. lia.
Qed.

Lemma held_wallet_withdraw n w k x s :
  wallets d !! n = Some w → savings_withdraws d !! k = Some x →
  liquid s w + saved s w + withdrawn s x ≤ held s d.
Proof using Hd.
  intros Hw Hx. unfold held. pose proof (wallets_sum_le n w s Hw).
  pose proof (map_sum_lookup_le (λ _ x, withdrawn s x) (savings_withdraws d) k x
    ltac:(eauto using withdrawn_nonneg) Hx).
  pose proof (orders_sum_nonneg s). simpl in *. lia.
Qed.

Lemma held_nonneg s : 0 ≤ held s d.
Proof using Hd.
  unfold held. pose proof (wallets_sum_nonneg s).
  pose proof (orders_sum_nonneg s). pose proof (withdraws_sum_nonneg s). lia.
Qed.

End bounds.

(** ** The shape is kept *)

(** Changes of the wallets that remove no account and leave the counts of requests. *)
Lemma shape_wallets d m :
  shape d → (∀ n, is_Some (wallets d !! n) → is_Some (m !! n)) →
  (∀ n w, m !! n = Some w → wallet_ok w ∧
     ∃ w0, wallets d !! n = Some w0 ∧ savings_withdraw_requests w = savings_withdraw_requests w0) →
  shape (set_wallets m d).
Proof.
  intros [Hhf Hw Ho Hu Hx Hr] Hdom Hm. split; cbn [wallets limit_orders savings_withdraws
    processed_hardforks set_wallets]; [done| | |done| |].
  - intros n w Hn. by apply (Hm n w).
  - intros i o [? ? ? ? ? ?]%Ho. split; auto.
  - intros k x [? ? ? ?]%Hx. split; auto.
  - intros n w Hn. destruct (Hm n w Hn) as (_ & w0 & Hw0 & ->). by apply Hr.
Qed.

Lemma shape_put n s x d w :
  shape d → wallets d !! n = Some w → money_symbol s → 0 ≤ liquid s w + x →
  shape (put n s x d).
Proof.
  intros Hd Hw Hs Hx. apply shape_wallets; [done| |].
  - intros k [v Hk]. destruct (decide (n = k)) as [->|Hne].
    + rewrite lookup_alter_eq, Hk. by eexists.
    + rewrite lookup_alter_ne by done. by eexists.
  - intros k v. rewrite (alter_Some _ _ _ w) by done. intros [[<- <-]|[Hne Hk]]%lookup_insert_Some.
    + split; [|exists w; split; [done|apply credit_requests] ].
      intros s'. rewrite credit_saved. pose proof (wallet_nonneg d Hd n w s' Hw).
      assert (0 ≤ liquid s' (credit s x w)); [|lia].
      destruct (decide (s' = HIVE_SYMBOL)) as [->|Hne].
      * rewrite credit_liquid by auto. case_decide; subst; lia.
      * assert (liquid s' (credit s x w) = liquid HBD_SYMBOL (credit s x w)) as ->.
        { unfold liquid. by rewrite !decide_False by done. }
        rewrite credit_liquid by auto. pose proof (wallet_nonneg d Hd n w HBD_SYMBOL Hw).
        case_decide; subst; lia.
    + split; [by apply (sh_wallets d Hd k v)|by exists v].
Qed.

Lemma shape_push op d : shape d → shape (push_virtual_operation op d).
Proof. intros [Hhf Hw Ho Hu Hx Hr]. by split. Qed.

Lemma shape_remove_order i d : shape d → shape (remove_order i d).
Proof.
  intros [Hhf Hw Ho Hu Hx Hr]. split; cbn [wallets limit_orders savings_withdraws
    processed_hardforks set_orders remove_order]; [done|done| | |done|done].
  - intros j o [_ Hj]%lookup_delete_Some. by apply Ho.
  - intros j k o p [_ Hj]%lookup_delete_Some [_ Hk]%lookup_delete_Some. by apply Hu.
Qed.

Lemma shape_set_for_sale i o x d :
  shape d → limit_orders d !! i = Some o → 0 < x → x ≤ for_sale o →
  due (set_for_sale x o) ≠ 0 →
  shape (set_orders (<[i := set_for_sale x o]> (limit_orders d)) (next_order_id d) d).
Proof.
  intros [Hhf Hw Ho Hu Hx Hr] Hi Hx0 Hxo Hdue. split; cbn [wallets limit_orders savings_withdraws
    processed_hardforks set_orders]; [done|done| | |done|done].
  - intros j p [[<- <-]|[_ Hj]]%lookup_insert_Some; [|by apply Ho].
    destruct (Ho i o Hi) as [? ? ? [Hb Hq] ? [_ Hd]]. split; [done..|].
    assert (0 ≤ due (set_for_sale x o) ≤ due o); [|lia]. unfold due; simpl.
    split; [apply Z.div_pos; nia|]. apply Z.div_le_mono; nia.
  - intros j k p q Hj Hk Hs Hid.
    apply lookup_insert_Some in Hj as [[<- <-]|[_ Hj] ];
      apply lookup_insert_Some in Hk as [[<- <-]|[_ Hk] ]; eauto.
Qed.
