(* ===== verification/MarketBooks.v ===== *)
(** * MarketBooks

    How filling, cancelling and matching orders act on the books of MoneyBooks: none of the
    assertions and checked operations of [match], [fill_order] and [cancel_order] can fail, and
    the exact effect of a match on the two orders. *)

From S2P Require Import Prelude Safe AssetSymbol Asset OperationTypes Balances Market MoneyBooks.
Open Scope Z_scope.

(** ** What orders leave alone *)

Definition context (d : money_state) :=
  (next_order_id d, savings_withdraws d, (current_supply d, current_hbd_supply d, virtual_supply d,
   total_vesting_fund_hive d), (hbd_interest_rate d, current_median_history d),
   (head_block_number d, head_block_time d, head_block_hash d, processed_hardforks d)).

Record frame (d d' : money_state) : Prop := {
  fr_context : context d' = context d;
  fr_accounts : ∀ n, is_Some (wallets d !! n) → is_Some (wallets d' !! n)
}.

#[export] Instance frame_preorder : PreOrder frame.
Proof.
  split; [by split|]. intros d1 d2 d3 [H1 A1] [H2 A2]. split; [congruence|auto].
Qed.

Lemma frame_supply d d' s : frame d d' → supply s d' = supply s d.
Proof. intros [H _]. unfold context in H. unfold supply. case_decide; congruence. Qed.

Lemma frame_next d d' : frame d d' → next_order_id d' = next_order_id d.
Proof. intros [H _]. unfold context in H. congruence. Qed.

Lemma frame_hardforks d d' : frame d d' → processed_hardforks d' = processed_hardforks d.
Proof. intros [H _]. unfold context in H. congruence. Qed.

Lemma frame_feed d d' : frame d d' → feed_ok d → feed_ok d'.
Proof.
  intros [H _]. unfold context in H. unfold feed_ok.
  assert (current_median_history d' = current_median_history d) as -> by congruence.
  by assert (current_supply d' = current_supply d) as -> by congruence.
Qed.

Lemma frame_put n s x d : frame d (put n s x d).
Proof.
  split; [done|]. intros k Hk. unfold put. cbn [wallets set_wallets].
  destruct (decide (n = k)) as [->|Hne].
  - rewrite lookup_alter_eq. destruct Hk as [v ->]. by eexists.
  - by rewrite lookup_alter_ne.
Qed.

Lemma frame_orders m d : frame d (set_orders m (next_order_id d) d).
Proof. by split. Qed.

Lemma frame_push op d : frame d (push_virtual_operation op d).
Proof. by split. Qed.

#[export] Hint Resolve frame_put frame_orders frame_push : core.

(** The virtual operations that an execution adds all satisfy [P]. *)
Definition pushes (P : operation → Prop) (d d' : money_state) : Prop :=
  ∃ ops, virtual_ops d' = virtual_ops d ++ ops ∧ Forall P ops.

Lemma pushes_nil P d d' : virtual_ops d' = virtual_ops d → pushes P d d'.
Proof. intros H. exists []. by rewrite app_nil_r. Qed.

Lemma pushes_one (P : operation → Prop) op d d' :
  virtual_ops d' = virtual_ops d ++ [op] → P op → pushes P d d'.
Proof. intros H Hp. exists [op]. split; [done|by constructor]. Qed.

Lemma pushes_trans P d1 d2 d3 : pushes P d1 d2 → pushes P d2 d3 → pushes P d1 d3.
Proof.
  intros (o1 & H1 & F1) (o2 & H2 & F2). exists (o1 ++ o2). split; [|by apply Forall_app].
  by rewrite H2, H1, app_assoc.
Qed.

Lemma pushes_mono (P Q : operation → Prop) d d' :
  (∀ op, P op → Q op) → pushes P d d' → pushes Q d d'.
Proof. intros H (ops & Ho & Hf). exists ops. split; [done|]. by eapply Forall_impl. Qed.

(** ** Cancelling *)

Definition is_cancelled (op : operation) : Prop :=
  match op with op_limit_order_cancelled _ => True | _ => False end.

Abbreviation sells o := (symbol (base (sell_price o))).
Abbreviation buys o := (symbol (quote (sell_price o))).

Definition cancelled (i : Z) (o : limit_order_object) (d : money_state) : money_state :=
  remove_order i (push_virtual_operation (op_limit_order_cancelled
    (Build_limit_order_cancelled_operation (seller o) (orderid o) (amount_for_sale o)))
    (put (seller o) (sells o) (for_sale o) d)).

Lemma deref_order_eq i o d : limit_orders d !! i = Some o → deref_order i d = Ok o.
Proof. unfold deref_order. by intros ->. Qed.

Lemma offered_sells o : offered (sells o) o = for_sale o.
Proof. unfold offered. by rewrite decide_True. Qed.

Lemma offered_eq s o : offered s o = if decide (s = sells o) then for_sale o else 0.
Proof. unfold offered. repeat case_decide; congruence. Qed.

(** Cancelling needs the state to be well formed but for the order itself. *)
Lemma cancel_order_eq i o d w :
  HIVE_HARDFORK_1_25 < processed_hardforks d → money_symbol (sells o) →
  limit_orders d !! i = Some o → wallets d !! seller o = Some w →
  0 ≤ liquid (sells o) w → 0 ≤ for_sale o → liquid (sells o) w + for_sale o ≤ i64_max →
  cancel_order i false d = Ok (cancelled i o d).
Proof.
  intros Hhf Hs Ho Hw Hl H0 Hsum. unfold cancel_order. rewrite (deref_order_eq i o) by done.
  cbn [mbind result_bind].
  rewrite (adjust_balance_Ok d Hhf (seller o) (amount_for_sale o) Hs w); [done|done|..];
    cbn [amount_for_sale symbol amount]; unfold i64_min, i64_max in *; lia.
Qed.

Section cancelling.
Context (d : money_state) (Hd : shape d) (i : Z) (o : limit_order_object).
Context (Ho : limit_orders d !! i = Some o).

Lemma shape_cancelled : shape (cancelled i o d).
Proof using All.
  destruct (sh_orders d Hd i o Ho) as [_ [w Hw] Hs _ H0 _].
  apply shape_remove_order, shape_push, (shape_put _ _ _ _ w); [done..|].
  pose proof (wallet_nonneg d Hd _ _ (sells o) Hw). lia.
Qed.

Lemma gap_cancelled s : money_symbol s → gap s (cancelled i o d) = gap s d.
Proof using All.
  intros Hs. destruct (sh_orders d Hd i o Ho) as [_ [w Hw] Hm _ _ _].
  unfold gap. change (supply s (cancelled i o d)) with (supply s d).
  unfold cancelled. rewrite (held_remove_order s i o) by done.
  change (held s (push_virtual_operation ?op ?d)) with (held s d).
  rewrite (held_put _ _ _ _ w), offered_eq by done. repeat case_decide; lia.
Qed.

Lemma cancel_order_exact :
  held (sells o) d ≤ i64_max → cancel_order i false d = Ok (cancelled i o d).
Proof using All.
  intros Hh. destruct (sh_orders d Hd i o Ho) as [_ [w Hw] Hs _ H0 _].
  pose proof (held_wallet_order d Hd _ w i o (sells o) Hw Ho) as H. rewrite offered_sells in H.
  pose proof (wallet_nonneg d Hd _ _ (sells o) Hw).
  apply (cancel_order_eq i o d w); [by apply sh_hardfork|done..|lia|lia|lia].
Qed.

End cancelling.

Lemma frame_cancelled i o d : frame d (cancelled i o d).
Proof.
  unfold cancelled, remove_order. etrans; [|apply frame_orders]. etrans; [|apply frame_push].
  apply frame_put.
Qed.

(** ** Filling *)

(** The order [i] pays [x] and receives [y] of [t]; [gone] when it leaves the book. *)
Record filled (i : Z) (o : limit_order_object) (x y : Z) (t : asset_symbol_type) (gone : bool)
    (d d' : money_state) : Prop := {
  fl_shape : shape d';
  fl_frame : frame d d';
  fl_gap : ∀ s, money_symbol s → gap s d' = gap s d + (if decide (s = sells o) then x else 0)
                                            - (if decide (s = t) then y else 0);
  fl_orders : limit_orders d' =
    if gone then delete i (limit_orders d)
    else <[i := set_for_sale (for_sale o - x) o]> (limit_orders d);
  fl_gone : x = for_sale o → gone = true;
  fl_ops : pushes is_cancelled d d'
}.

Lemma amount_to_receive_eq o :
  valid_price (sell_price o) → 0 ≤ for_sale o ≤ i64_max → due o ≤ i64_max →
  amount_to_receive o = Ok (Asset (due o) (buys o)).
Proof.
  intros Hp H0 Hd. unfold amount_to_receive.
  by apply (asset_mul_price_nonneg (amount_for_sale o) _ (base (sell_price o)) (quote (sell_price o)));
    [|constructor|..].
Qed.

Lemma due_mono o x :
  valid_price (sell_price o) → 0 ≤ x ≤ for_sale o → 0 ≤ due (set_for_sale x o) ≤ due o.
Proof.
  intros [Hb Hq _] Hx. unfold due; simpl.
  split; [apply Z.div_pos; nia|]. apply Z.div_le_mono; nia.
Qed.

Section filling.
Context (d : money_state) (Hd : shape d) (i : Z) (o : limit_order_object) (w : wallet).
Context (Ho : limit_orders d !! i = Some o) (Hw : wallets d !! seller o = Some w).
Context (x y : Z) (t : asset_symbol_type) (Hx : 0 < x ≤ for_sale o) (Hy : 0 ≤ y).
Context (Ht : money_symbol t) (Hne : t ≠ sells o).

Abbreviation d1 := (put (seller o) t y d).
Abbreviation o' := (set_for_sale (for_sale o - x) o).
Abbreviation d2 := (set_orders (<[i := o']> (limit_orders d1)) (next_order_id d1) d1).

Lemma fill_credit_shape : shape d1.
Proof using All.
  pose proof (wallet_nonneg d Hd _ _ t Hw). apply (shape_put _ _ _ _ w); [done..|lia].
Qed.

Lemma gap_fill_credit s :
  money_symbol s → gap s d1 = gap s d - (if decide (s = t) then y else 0).
Proof using All. intros Hs. by rewrite (gap_put _ _ _ _ w). Qed.

Lemma gap_fill_modify s :
  gap s d2 = gap s d1 + (if decide (s = sells o) then x else 0).
Proof using All.
  unfold gap. change (supply s d2) with (supply s d1). rewrite (held_update_order s i o o') by done.
  rewrite !offered_eq. cbn [set_for_sale sell_price for_sale]. case_decide; lia.
Qed.

Lemma filled_all : x = for_sale o → filled i o x y t true d (remove_order i d1).
Proof using All.
  intros Hxo. split; [apply shape_remove_order, fill_credit_shape| | |done|done|by apply pushes_nil].
  - etrans; [apply frame_put|]. apply frame_orders.
  - intros s Hs. unfold gap. change (supply s (remove_order i d1)) with (supply s d).
    rewrite (held_remove_order s i o), (held_put _ _ _ _ w) by done. rewrite offered_eq.
    repeat case_decide; lia.
Qed.

Lemma filled_part : x < for_sale o → due o' ≠ 0 → filled i o x y t false d d2.
Proof using All.
  intros Hlt Hdue. split; [|by split; [|apply frame_put]| |done|lia|by apply pushes_nil].
  - by apply shape_set_for_sale; [apply fill_credit_shape|..|lia|lia|].
  - intros s Hs. rewrite gap_fill_modify, gap_fill_credit by done. lia.
Qed.

(** The rest is too small to be sold at its price. *)
Lemma cancel_rest_gap s :
  money_symbol s → gap s (cancelled i o' d2) = gap s d2.
Proof using All.
  intros Hs. destruct (sh_orders d Hd i o Ho) as [_ _ Hm _ _ _].
  assert (is_Some (wallets d1 !! seller o)) as [w1 Hw1].
  { apply (fr_accounts d); [apply frame_put|by eexists]. }
  unfold gap. change (supply s (cancelled i o' d2)) with (supply s d2).
  unfold cancelled. rewrite (held_remove_order s i o') by (cbn; apply lookup_insert_eq).
  change (held s (push_virtual_operation ?op ?d)) with (held s d).
  rewrite (held_put _ _ _ _ w1), offered_eq by done.
  cbn [set_for_sale sell_price for_sale]. case_decide; lia.
Qed.

(** After the rest of the order is returned to its seller the order is gone, so the order in
    the middle needs not be well formed. *)
Lemma cancelled_rest_eq :
  x < for_sale o →
  ∃ d3, cancelled i o' d2 =
          push_virtual_operation (op_limit_order_cancelled
            (Build_limit_order_cancelled_operation (seller o) (orderid o) (amount_for_sale o')))
            (put (seller o) (sells o) (for_sale o - x) d3) ∧
        d3 = remove_order i d1.
Proof using All.
  intros Hlt. eexists. split; [|done]. unfold cancelled, remove_order, push_virtual_operation, put, set_wallets, set_orders.
  cbn. by rewrite delete_insert_eq.
Qed.

Lemma filled_rest : x < for_sale o → filled i o x y t true d (cancelled i o' d2).
Proof using All.
  intros Hlt. destruct (sh_orders d Hd i o Ho) as [_ _ Hm _ _ _].
  split; [| | | |done|].
  - destruct (cancelled_rest_eq Hlt) as (d3 & -> & ->).
    assert (wallets d1 !! seller o = Some (credit t y w)) as Hw1.
    { cbn. by rewrite (alter_Some _ _ _ w), lookup_insert_eq. }
    apply shape_push, (shape_put _ _ _ _ (credit t y w)); [|done|done|].
    + apply shape_remove_order, fill_credit_shape.
    + pose proof (wallet_nonneg d1 fill_credit_shape _ _ (sells o) Hw1). lia.
  - etrans; [apply frame_put|]. etrans; [apply frame_orders|apply frame_cancelled].
  - intros s Hs. rewrite cancel_rest_gap, gap_fill_modify, gap_fill_credit by done. lia.
  - cbn. apply delete_insert_eq.
  - eapply pushes_one; done.
Qed.

Lemma fill_order_exact :
  liquid t w + y ≤ i64_max → held (sells o) d - x ≤ i64_max →
  ∃ gone d', fill_order i (Asset x (sells o)) (Asset y t) d = Ok (gone, d') ∧
             filled i o x y t gone d d'.
Proof using All.
  intros Hcr Hheld. destruct (sh_orders d Hd i o Ho) as [_ _ Hm Hp _ Hdue].
  pose proof (wallet_nonneg d Hd _ _ t Hw).
  pose proof (wallet_nonneg d Hd _ _ (sells o) Hw).
  pose proof (held_wallet_order d Hd _ w i o (sells o) Hw Ho) as Hb. rewrite offered_sells in Hb.
  unfold fill_order. rewrite (deref_order_eq i o) by done.
  cbn [mbind result_bind amount_for_sale symbol amount]. rewrite symbol_eqb_refl.
  rewrite symbol_eqb_ne by congruence. cbn [fc_assert mbind result_bind negb].
  rewrite (adjust_balance_Ok d (sh_hardfork d Hd) (seller o) (Asset y t) Ht w)
    by (cbn [symbol amount]; unfold i64_min, i64_max in *; done || lia).
  cbn [mbind result_bind amount symbol]. unfold asset_eqb. cbn [symbol amount amount_for_sale].
  rewrite symbol_eqb_refl. cbn [andb].
  destruct (Z.eqb_spec x (for_sale o)) as [Hall|Hpart].
  { eexists _, _. split; [done|]. by apply filled_all. }
  rewrite (current_hardforks HIVE_HARDFORK_0_20) by (done || apply (sh_hardfork d Hd)).
  unfold asset_ltb, same_symbol. cbn [symbol amount amount_for_sale]. rewrite symbol_eqb_refl.
  cbn [fc_assert mbind result_bind].
  replace (x <? for_sale o) with true by (symmetry; bool_to_prop; lia).
  cbn [fc_assert mbind result_bind]. unfold modify_order.
  rewrite (deref_order_eq i o d1) by done. cbn [mbind result_bind].
  rewrite share_sub_in by (unfold i64_min, i64_max in *; lia). cbn [mbind result_bind].
  rewrite (deref_order_eq i o' d2) by (cbn; apply lookup_insert_eq). cbn [mbind result_bind].
  pose proof (due_mono o (for_sale o - x) Hp ltac:(lia)).
  rewrite amount_to_receive_eq by (done || cbn; lia). cbn [mbind result_bind amount].
  destruct (Z.eqb_spec (due o') 0) as [Hz|Hz].
  2:{ eexists _, _. split; [done|]. apply filled_part; [lia|done]. }
  assert (wallets d1 !! seller o = Some (credit t y w)) as Hw1.
  { cbn. by rewrite (alter_Some _ _ _ w), lookup_insert_eq. }
  assert (liquid (sells o) (credit t y w) = liquid (sells o) w) as Hl.
  { rewrite credit_liquid, decide_False by done. lia. }
  rewrite (cancel_order_eq i o' d2 (credit t y w)); cbn [set_for_sale sell_price for_sale seller];
    [|apply (sh_hardfork d Hd)|done|by cbn; apply lookup_insert_eq|done|lia|lia|lia].
  eexists _, _. split; [done|]. apply filled_rest. lia.
Qed.

End filling.

(** ** Matching two orders *)

(** What [receives] must be for a seller who asks the price [p]. *)
Definition at_least (p : price) (pays receives : asset) : Prop :=
  amount pays * amount (quote p) / amount (base p) ≤ amount receives.

(** The prices of the two orders meet. *)
Definition crosses (o p : limit_order_object) : Prop :=
  sells o = buys p ∧ buys o = sells p ∧
  amount (quote (sell_price o)) * amount (quote (sell_price p)) ≤
  amount (base (sell_price o)) * amount (base (sell_price p)).

(** What the new order and the old order receive at the price of the old order. *)
Definition trade (new old : limit_order_object) : Z * Z :=
  if decide (for_sale new ≤ due old)
  then (for_sale new * amount (base (sell_price old)) / amount (quote (sell_price old)), for_sale new)
  else (for_sale old, due old).

Lemma div_ratio_le x y a b : 0 < a → 0 < b → 0 ≤ x → x * b ≤ y * a → x / a ≤ y / b.
Proof.
  intros Ha Hb Hx H. apply Z.div_le_lower_bound; [done|].
  pose proof (div_bracket x a Ha). nia.
Qed.

Section trading.
Context (new old : limit_order_object).
Context (Hpn : valid_price (sell_price new)) (Hpo : valid_price (sell_price old)).
Context (Hn : 0 < for_sale new) (Ho : 0 < for_sale old).
Context (Hdn : 0 < due new) (Hdo : 0 < due old) (Hc : crosses new old).

Abbreviation bn := (amount (base (sell_price new))).
Abbreviation qn := (amount (quote (sell_price new))).
Abbreviation bo := (amount (base (sell_price old))).
Abbreviation qo := (amount (quote (sell_price old))).

Lemma trade_range :
  0 < (trade new old).1 ≤ for_sale old ∧ 0 < (trade new old).2 ≤ for_sale new ∧
  ((trade new old).1 = for_sale old ∨ (trade new old).2 = for_sale new).
Proof using All.
  destruct Hpn as [Hbn Hqn _], Hpo as [Hbo Hqo _], Hc as (_ & _ & Hx).
  unfold trade. case_decide as Hle; simpl; [|lia].
  assert (bn ≤ for_sale new * qn) as H1.
  { unfold due in Hdn. pose proof (div_bracket (for_sale new * qn) bn ltac:(lia)). nia. }
  assert (for_sale new * bo ≤ for_sale old * qo) as H2.
  { unfold due in Hle. pose proof (div_bracket (for_sale old * qo) bo ltac:(lia)). nia. }
  assert (qo ≤ for_sale new * bo) as H3 by nia.
  split; [split|lia].
  - apply Z.div_str_pos. lia.
  - apply Z.div_le_upper_bound; lia.
Qed.

(** Each side receives at least what it asks for what it pays. *)
Lemma trade_fair :
  (trade new old).2 * qn / bn ≤ (trade new old).1 ∧
  (trade new old).1 * qo / bo ≤ (trade new old).2.
Proof using All.
  destruct Hpn as [Hbn Hqn _], Hpo as [Hbo Hqo _], Hc as (_ & _ & Hx).
  unfold trade. case_decide as Hle; simpl; split.
  - apply div_ratio_le; nia.
  - apply Z.div_le_upper_bound; [lia|].
    pose proof (div_bracket (for_sale new * bo) qo ltac:(lia)). lia.
  - unfold due. apply Z.div_le_upper_bound; [lia|].
    pose proof (div_bracket (for_sale old * qo) bo ltac:(lia)).
    assert (for_sale old * qo / bo * bo * qn ≤ for_sale old * bo * bn) by nia. nia.
  - done.
Qed.

Lemma match_amounts_eq :
  for_sale new ≤ i64_max → for_sale old ≤ i64_max → due old ≤ i64_max →
  match_amounts (amount_for_sale new) (amount_for_sale old) (sell_price old) =
    Ok (Asset (trade new old).1 (sells old), Asset (trade new old).2 (sells new)).
Proof using All.
  intros Hn' Ho' Hd'. pose proof trade_range as (Hr1 & Hr2 & _).
  destruct Hc as (Hs & Hb & _). unfold match_amounts.
  assert (asset_mul_price (amount_for_sale old) (sell_price old) = Ok (Asset (due old) (buys old))) as ->.
  { by apply amount_to_receive_eq; [|lia|]. }
  cbn [mbind result_bind]. unfold asset_leb, same_symbol. cbn [symbol amount amount_for_sale].
  rewrite <- Hs, symbol_eqb_refl. cbn [fc_assert mbind result_bind].
  unfold trade in *. destruct (Z.leb_spec (for_sale new) (due old)) as [Hle|Hlt].
  - rewrite decide_True in Hr1 |- * by done. cbn [fst snd] in *.
    rewrite (asset_mul_price_nonneg (amount_for_sale new) (sell_price old) (quote (sell_price old))
      (base (sell_price old))); [done|done|constructor|done|cbn; lia|cbn].
    lia.
  - by rewrite decide_False by lia.
Qed.

End trading.

(** The report of a trade of the order [new] against an order of the book, in which neither
    side is paid less than its price; or of the return of an unsellable rest. *)
Definition fair_report (new : limit_order_object) (book : gmap Z limit_order_object)
    (op : operation) : Prop :=
  match op with
  | op_fill_order f =>
      fill_order_current_owner f = seller new ∧ fill_order_current_orderid f = orderid new ∧
      0 < amount (fill_order_current_pays f) ∧ 0 < amount (fill_order_open_pays f) ∧
      symbol (fill_order_current_pays f) = sells new ∧
      at_least (sell_price new) (fill_order_current_pays f) (fill_order_open_pays f) ∧
      ∃ i old, book !! i = Some old ∧ crosses new old ∧ fill_order_open_owner f = seller old ∧
        fill_order_open_orderid f = orderid old ∧
        symbol (fill_order_open_pays f) = sells old ∧
        at_least (sell_price old) (fill_order_open_pays f) (fill_order_current_pays f)
  | op_limit_order_cancelled _ => True
  | _ => False
  end.

(** The entry of an order that has paid [x]. *)
Definition after (i : Z) (o : limit_order_object) (x : Z) (gone : bool)
    (m : gmap Z limit_order_object) : gmap Z limit_order_object :=
  if gone then delete i m else <[i := set_for_sale (for_sale o - x) o]> m.

Section matching.
Context (d : money_state) (Hd : shape d) (new_id old_id : Z) (new old : limit_order_object).
Context (Hnew : limit_orders d !! new_id = Some new) (Hold : limit_orders d !! old_id = Some old).
Context (Hids : new_id ≠ old_id) (Hc : crosses new old).
Context (Hhn : held (sells new) d ≤ i64_max) (Hho : held (sells old) d ≤ i64_max).

Abbreviation nr := (trade new old).1.
Abbreviation or := (trade new old).2.
Abbreviation report := (op_fill_order (Build_fill_order_operation (seller new) (orderid new)
  (Asset or (sells new)) (seller old) (orderid old) (Asset nr (sells old)))).

Lemma sells_differ : sells new ≠ sells old.
Proof using All.
  destruct Hc as (Hs & Hb & _). rewrite Hs.
  pose proof (valid_symbols _ (ok_price _ _ _ _ (sh_orders d Hd _ _ Hold))). congruence.
Qed.

Lemma report_fair : fair_report new (limit_orders d) report.
Proof using All.
  destruct (sh_orders d Hd _ _ Hnew) as [_ _ _ Hpn Hn [Hdn _]].
  destruct (sh_orders d Hd _ _ Hold) as [_ _ _ Hpo Ho [Hdo _]].
  pose proof (trade_range new old Hpn Hpo Hn Ho Hdn Hdo Hc) as (Hr1 & Hr2 & _).
  pose proof (trade_fair new old Hpn Hpo Hn Ho Hdn Hdo Hc) as [Hf1 Hf2].
  cbn. do 6 (split; [done || lia|]). exists old_id, old. done.
Qed.

(** The two fills of a match, one after the other. *)
Lemma match_fills :
  ∃ fn fo d1 d2,
    fill_order new_id (Asset or (sells new)) (Asset nr (sells old)) (push_virtual_operation report d)
      = Ok (fn, d1) ∧
    fill_order old_id (Asset nr (sells old)) (Asset or (sells new)) d1 = Ok (fo, d2) ∧
    filled new_id new or nr (sells old) fn (push_virtual_operation report d) d1 ∧
    filled old_id old nr or (sells new) fo d1 d2.
Proof using All.
  set (d0 := push_virtual_operation report d). assert (shape d0) as Hd0 by by apply shape_push.
  destruct (sh_orders d Hd _ _ Hnew) as [_ [wn Hwn] Hsn Hpn Hn [Hdn _]].
  destruct (sh_orders d Hd _ _ Hold) as [_ [wo Hwo] Hso Hpo Ho [Hdo _]].
  pose proof (trade_range new old Hpn Hpo Hn Ho Hdn Hdo Hc) as (Hr1 & Hr2 & _).
  pose proof sells_differ as Hne.
  pose proof (held_wallet_order d Hd _ wn old_id old (sells old) Hwn Hold) as Hbn.
  rewrite offered_sells in Hbn. pose proof (wallet_nonneg d Hd _ _ (sells old) Hwn).
  destruct (fill_order_exact d0 Hd0 new_id new wn Hnew Hwn or nr (sells old) ltac:(lia) ltac:(lia)
    Hso ltac:(congruence) ltac:(lia)) as (fn & d1 & E1 & F1).
  { change (held (sells new) d0) with (held (sells new) d). lia. }
  pose proof F1 as [Hd1 Hfr1 Hg1 Ho1 _ _].
  destruct (fr_accounts d0 d1 Hfr1 (seller old) (ex_intro _ wo Hwo)) as [w1 Hw1].
  assert (limit_orders d1 !! old_id = Some old) as Hold1.
  { rewrite Ho1. destruct fn; [by rewrite lookup_delete_ne|by rewrite lookup_insert_ne]. }
  pose proof (held_wallet d1 Hd1 _ w1 (sells new) Hw1) as Hb1.
  pose proof (wallet_nonneg d1 Hd1 _ _ (sells new) Hw1).
  pose proof (Hg1 (sells new) Hsn) as Gn. pose proof (Hg1 (sells old) Hso) as Go.
  rewrite (decide_True (P := sells new = sells new)), decide_False in Gn by done.
  rewrite (decide_True (P := sells old = sells old)), decide_False in Go by congruence.
  unfold gap in Gn, Go. rewrite !(frame_supply d0 d1) in Gn, Go by done.
  change (held ?s d0) with (held s d) in Gn, Go.
  destruct (fill_order_exact d1 Hd1 old_id old w1 Hold1 Hw1 nr or (sells new) ltac:(lia) ltac:(lia)
    Hsn Hne ltac:(lia) ltac:(lia)) as (fo & d2 & E2 & F2).
  by exists fn, fo, d1, d2.
Qed.

(** [match] is the two fills: its assertions hold. *)
Lemma match_orders_run fn fo d1 d2 :
  fill_order new_id (Asset or (sells new)) (Asset nr (sells old)) (push_virtual_operation report d)
    = Ok (fn, d1) →
  fill_order old_id (Asset nr (sells old)) (Asset or (sells new)) d1 = Ok (fo, d2) →
  fn || fo = true → match_orders new_id old_id (sell_price old) d = Ok ((fn, fo), d2).
Proof using All.
  intros E1 E2 Hor.
  destruct (sh_orders d Hd _ _ Hnew) as [_ [wn Hwn] Hsn Hpn Hn [Hdn _]].
  destruct (sh_orders d Hd _ _ Hold) as [_ [wo Hwo] Hso Hpo Ho [Hdo Hdo']].
  pose proof (trade_range new old Hpn Hpo Hn Ho Hdn Hdo Hc) as (_ & _ & Hfull).
  pose proof (held_wallet_order d Hd _ wn _ _ (sells new) Hwn Hnew) as Hbn.
  pose proof (held_wallet_order d Hd _ wo _ _ (sells old) Hwo Hold) as Hbo.
  pose proof (wallet_nonneg d Hd _ _ (sells new) Hwn).
  pose proof (wallet_nonneg d Hd _ _ (sells old) Hwo). rewrite offered_sells in Hbn, Hbo.
  pose proof (match_amounts_eq new old Hpn Hpo Hn Ho Hdn Hdo Hc ltac:(lia) ltac:(lia) Hdo') as Hm.
  pose proof Hc as (Hs & Hb & _). unfold match_orders.
  rewrite (deref_order_eq new_id new), (deref_order_eq old_id old) by done. cbn [mbind result_bind].
  rewrite (current_hardforks HIVE_HARDFORK_0_20) by (done || apply (sh_hardfork d Hd)).
  rewrite Hm. rewrite <- Hs, <- Hb, !symbol_eqb_refl.
  replace (0 <? for_sale new) with true by (symmetry; bool_to_prop; lia).
  replace (0 <? for_sale old) with true by (symmetry; bool_to_prop; lia).
  unfold match_rewards.
  rewrite (current_hardforks HIVE_HARDFORK_0_12) by (done || apply (sh_hardfork d Hd)).
  cbn [match_assert fc_assert mbind result_bind negb andb].
  assert (asset_eqb (Asset or (sells new)) (amount_for_sale new)
          || asset_eqb (Asset nr (sells old)) (amount_for_sale old) = true) as Hpay.
  { unfold asset_eqb. cbn [symbol amount amount_for_sale]. rewrite !symbol_eqb_refl.
    cbn [andb]. bool_to_prop. tauto. }
  rewrite Hb, Hpay. cbn [fc_assert mbind result_bind].
  rewrite E1. cbn [mbind result_bind]. rewrite E2. cbn [mbind result_bind]. by rewrite Hor.
Qed.

Lemma match_orders_exact :
  ∃ fn fo d',
    match_orders new_id old_id (sell_price old) d = Ok ((fn, fo), d') ∧
    shape d' ∧ frame d d' ∧ (∀ s, money_symbol s → gap s d' = gap s d) ∧
    limit_orders d' = after old_id old nr fo (after new_id new or fn (limit_orders d)) ∧
    fn || fo = true ∧ pushes (fair_report new (limit_orders d)) d d'.
Proof using All.
  destruct (sh_orders d Hd _ _ Hnew) as [_ _ _ Hpn Hn [Hdn _]].
  destruct (sh_orders d Hd _ _ Hold) as [_ _ _ Hpo Ho [Hdo _]].
  pose proof (trade_range new old Hpn Hpo Hn Ho Hdn Hdo Hc) as (_ & _ & Hfull).
  destruct match_fills as (fn & fo & d1 & d2 & E1 & E2 & F1 & F2). exists fn, fo, d2.
  destruct F1 as [Hd1 Hfr1 Hg1 Ho1 Hgn Hp1], F2 as [Hd2 Hfr2 Hg2 Ho2 Hgo Hp2].
  assert (fn || fo = true) as Hor.
  { destruct Hfull as [Hx|Hx]; [rewrite (Hgo Hx); apply orb_true_r|by rewrite (Hgn Hx)]. }
  split; [by apply (match_orders_run fn fo d1)|]. split_and!; [done| | |by rewrite Ho2, Ho1|done|].
  - etrans; [apply frame_push|]. by etrans.
  - intros s Hs. rewrite Hg2, Hg1 by done.
    change (gap s (push_virtual_operation report d)) with (gap s d). repeat case_decide; lia.
  - assert (pushes (fair_report new (limit_orders d)) d (push_virtual_operation report d)) as Hp0
      by (apply (pushes_one _ report); [done|apply report_fair]).
    eapply pushes_trans; [exact Hp0|].
    assert (∀ op, is_cancelled op → fair_report new (limit_orders d) op) as Hcl by by intros [].
    eapply pushes_trans; eapply pushes_mono; eauto.
Qed.

End matching.
