(* ===== verification/SavingsBooks.v ===== *)
(** * SavingsBooks

    How the changes of liquid balances, of savings with their interest, of the supply and of
    the requests for withdrawal act on the books of MoneyBooks. *)

From S2P Require Import Prelude Safe AssetSymbol Asset OperationTypes Balances Market.
From S2P Require Import MoneyBooks MarketBooks.
Open Scope Z_scope.

(** What every change of balances leaves alone. *)
Record kept (d d' : money_state) : Prop := {
  kp_orders : limit_orders d' = limit_orders d;
  kp_next : next_order_id d' = next_order_id d;
  kp_withdraws : savings_withdraws d' = savings_withdraws d;
  kp_hardforks : processed_hardforks d' = processed_hardforks d;
  kp_median : current_median_history d' = current_median_history d;
  kp_time : head_block_time d' = head_block_time d;
  kp_accounts : ∀ n, is_Some (wallets d !! n) → is_Some (wallets d' !! n)
}.

#[export] Instance kept_preorder : PreOrder kept.
Proof.
  split; [by split|]. intros d1 d2 d3 [] []. split; try congruence. auto.
Qed.

(** The totals are representable. *)
Definition supply_ok (d : money_state) : Prop :=
  ∀ s, money_symbol s → i64_min ≤ supply s d ≤ i64_max.

Lemma money_supply_ok d : money_ok d → supply_ok d.
Proof.
  intros [Hd Hg Hs _] s Hsym. pose proof (Hg s Hsym). pose proof (Hs s Hsym).
  pose proof (held_nonneg d Hd s). unfold gap, i64_min in *. lia.
Qed.

(** [delta] of [s] is moved from the rest of the supply into the balances. *)
Definition moved (delta : asset) (d d' : money_state) : Prop :=
  ∀ s, money_symbol s → gap s d' = gap s d - (if decide (s = symbol delta) then amount delta else 0).

(** ** Liquid balances *)

Lemma kept_put n s x d : kept d (put n s x d).
Proof. split; try done. apply (fr_accounts d), frame_put. Qed.

Lemma adjust_balance_step n delta d d' :
  shape d → money_symbol (symbol delta) → adjust_balance n delta d = Ok d' →
  shape d' ∧ kept d d' ∧ moved delta d d' ∧ (∀ s, supply s d' = supply s d) ∧
  ∃ w, wallets d !! n = Some w ∧ 0 ≤ liquid (symbol delta) w + amount delta.
Proof.
  intros Hd Hs (w & Hw & Hpos & ->)%adjust_balance_inv; [|apply (sh_hardfork d Hd)|done].
  split_and!; [by apply (shape_put _ _ _ _ w)|apply kept_put| |done|by exists w].
  intros s Hsym. by rewrite (gap_put _ _ _ _ w).
Qed.

(** ** Interest *)

(** The account of HBD and the state after [paid] of interest. *)
Record accrued (paid : Z) (h h' : hbd_account) (d d' : money_state) : Prop := {
  ac_balance : h_balance h' = h_balance h + paid;
  ac_hbd : current_hbd_supply d' = current_hbd_supply d + paid;
  ac_hive : current_supply d' = current_supply d;
  ac_fits : supply_ok d → supply_ok d';
  ac_wallets : wallets d' = wallets d;
  ac_kept : kept d d'
}.

Lemma accrued_nothing h h' d : h_balance h' = h_balance h → accrued 0 h h' d d.
Proof. intros H. split; (done || lia). Qed.

Lemma supply_ok_hbd d : supply_ok d → i64_min ≤ current_hbd_supply d ≤ i64_max.
Proof.
  intros H. pose proof (H HBD_SYMBOL ltac:(auto)) as H1. unfold supply in H1.
  by rewrite decide_False in H1.
Qed.

Lemma pay_interest_inv b n h d h' d' :
  pay_interest b n h d = Ok (h', d') → ∃ paid, accrued paid h h' d d'.
Proof.
  unfold pay_interest. destruct (h_last_update h =? head_block_time d).
  { intros [= <- <-]. exists 0. by apply accrued_nothing. }
  destruct ((0 <? _) && _).
  2:{ intros [= <- <-]. exists 0. by apply accrued_nothing. }
  intros (paid & Hp & (x & ->%share_add_eq & H)%bind_Ok)%bind_Ok.
  assert (i64_min ≤ paid ≤ i64_max) as Hr.
  { destruct (uint128_to_uint64 _); [injection Hp as <-; apply i64_bound|done]. }
  apply bind_Ok in H as (s & Hsup & (v & _ & (u & _ & [= <- <-])%bind_Ok)%bind_Ok).
  set (d1 := if 0 <? _ then _ else d) in *.
  assert (current_hbd_supply d1 = current_hbd_supply d ∧ current_supply d1 = current_supply d ∧
          wallets d1 = wallets d ∧ kept d d1) as (E1 & E2 & E3 & E4) by (unfold d1; by case_match).
  pose proof (share_add_eq _ _ _ Hsup) as ->. exists paid.
  split; cbn [h_balance current_hbd_supply current_supply wallets set_supply];
    [done|lia|done| |done|etrans; [exact E4|by split]].
  intros Hok s [-> | ->]; unfold supply; cbn [current_hbd_supply current_supply set_supply].
  - pose proof (Hok HIVE_SYMBOL ltac:(auto)) as H1. unfold supply in H1.
    rewrite decide_True in H1 |- * by done. lia.
  - rewrite decide_False by done. pose proof (supply_ok_hbd d Hok).
    by apply (share_add_bound (current_hbd_supply d1) paid); [lia|..].
Qed.

(** ** Savings *)

(** A change of the savings of one account, with [paid] of interest. *)
Definition saving (s : asset_symbol_type) (x : Z) (w w' : wallet) : Prop :=
  (∀ s', liquid s' w' = liquid s' w) ∧
  (∀ s', money_symbol s' → saved s' w' = saved s' w + (if decide (s' = s) then x else 0)) ∧
  savings_withdraw_requests w' = savings_withdraw_requests w ∧ 0 ≤ saved s w'.

Lemma adjust_savings_inv n delta d d' :
  HIVE_HARDFORK_1_25 < processed_hardforks d → adjust_savings_balance n delta d = Ok d' →
  money_symbol (symbol delta) ∧ ∃ w w' paid,
    wallets d !! n = Some w ∧ wallets d' = <[n := w']> (wallets d) ∧
    saving (symbol delta) (paid + amount delta) w w' ∧
    (∀ s, money_symbol s → supply s d' = supply s d + (if decide (s = symbol delta) then paid else 0)) ∧
    (supply_ok d → supply_ok d') ∧ current_supply d' = current_supply d ∧ kept d d'.
Proof.
  intros Hhf. unfold adjust_savings_balance. rewrite (current_hardforks HIVE_HARDFORK_0_20) by done.
  rewrite symbol_num_hive, symbol_num_hbd.
  destruct (bool_decide (symbol delta = HIVE_SYMBOL)) eqn:E1.
  { apply bool_decide_eq_true in E1. rewrite E1. unfold modify_wallet.
    intros (w & Hw%get_account_Ok & (w' & (b & ->%tiny_add_inv & (u & Hc%fc_assert_Ok & [= <-])%bind_Ok)%bind_Ok & [= <-])%bind_Ok)%bind_Ok.
    bool_to_prop. split; [auto|]. eexists w, _, 0. split; [done|]. split; [done|].
    split; [unfold saving; split_and!; [done| |done|by unfold saved; rewrite decide_True]|split_and!; [|done|done|]].
    - intros s' [-> | ->]; unfold saved; cbn; repeat case_decide; done || lia.
    - intros s _. case_decide; cbn; change (supply s _) with (supply s d); lia.
    - split; try done. intros k Hk. cbn. rewrite lookup_insert. by case_decide. }
  destruct (bool_decide (symbol delta = HBD_SYMBOL)) eqn:E2; [|done].
  apply bool_decide_eq_true in E2. rewrite E2.
  intros (w & Hw%get_account_Ok & ([h1 d1] & [paid Hac]%pay_interest_inv & H)%bind_Ok)%bind_Ok.
  apply bind_Ok in H as (h & Hadd & (u & Hc%fc_assert_Ok & [= <-])%bind_Ok). bool_to_prop.
  unfold add_hbd in Hadd. apply bind_Ok in Hadd as (b & ->%tiny_add_inv & [= <-]).
  destruct Hac as [Hb Hhbd Hhive Hfit Hwal Hk]. cbn [fst snd h_balance savings_hbd] in *.
  split; [auto|]. eexists w, _, paid. split; [done|]. rewrite Hwal. split; [done|].
  split; [unfold saving; split_and!; [done| |done|by unfold saved; rewrite decide_False]|split_and!].
  - intros s' [-> | ->]; unfold saved; cbn; repeat case_decide; try done; lia.
  - intros s [-> | ->]; unfold supply; cbn; repeat case_decide; try done; lia.
  - intros Hok. by apply Hfit.
  - done.
  - etrans; [exact Hk|]. split; try done. intros k Hk'. cbn. rewrite lookup_insert, <- Hwal. by case_decide.
Qed.

Lemma shape_kept d d' :
  shape d → kept d d' →
  (∀ n w, wallets d' !! n = Some w → wallet_ok w ∧
     ∃ w0, wallets d !! n = Some w0 ∧ savings_withdraw_requests w = savings_withdraw_requests w0) →
  shape d'.
Proof.
  intros [Hhf Hw Ho Hu Hx Hr] [Ko Kn Kw Kh _ _ Ka] Hm.
  split; rewrite ?Ko, ?Kn, ?Kw, ?Kh; [done| | |done| |].
  - intros n w Hn. by apply (Hm n w).
  - intros i o [? ? ? ? ? ?]%Ho. split; auto.
  - intros k x [? ? ? ?]%Hx. split; auto.
  - intros n w Hn. destruct (Hm n w Hn) as (_ & w0 & Hw0 & ->). by apply Hr.
Qed.

(** Non-negative balances of the two assets are non-negative balances. *)
Lemma wallet_ok_intro w :
  (∀ s, money_symbol s → 0 ≤ liquid s w ∧ 0 ≤ saved s w) → wallet_ok w.
Proof.
  intros H s. pose proof (H HIVE_SYMBOL ltac:(auto)) as H1. pose proof (H HBD_SYMBOL ltac:(auto)) as H2.
  unfold liquid, saved in *. rewrite !decide_True in H1 by done. rewrite !decide_False in H2 by done.
  by case_decide.
Qed.

Lemma adjust_savings_step n delta d d' :
  shape d → adjust_savings_balance n delta d = Ok d' →
  money_symbol (symbol delta) ∧ shape d' ∧ kept d d' ∧ moved delta d d' ∧
  (supply_ok d → supply_ok d') ∧ current_supply d' = current_supply d ∧
  (∀ k w, wallets d !! k = Some w → ∃ w', wallets d' !! k = Some w' ∧
     savings_withdraw_requests w' = savings_withdraw_requests w).
Proof.
  intros Hd H. apply adjust_savings_inv in H as (Hs & w & w' & paid & Hw & Hw' & Hsv & Hsup & Hok & Hcs & Hk);
    [|apply (sh_hardfork d Hd)].
  destruct Hsv as (Hl & Hsa & Hreq & Hpos).
  split; [done|]. split_and!; [|done| |done|done|].
  - apply (shape_kept d); [done..|]. rewrite Hw'.
    intros k v [[<- <-]|[_ Hv]]%lookup_insert_Some.
    + split; [|by exists w]. apply wallet_ok_intro. intros s Hsym. rewrite Hl.
      pose proof (wallet_nonneg d Hd _ _ s Hw). split; [lia|].
      destruct (decide (s = symbol delta)) as [->|Hne]; [done|].
      rewrite Hsa, decide_False by done. lia.
    + split; [by apply (sh_wallets d Hd k v)|by exists v].
  - intros s Hsym. unfold gap, held. rewrite Hsup, (kp_orders d d'), (kp_withdraws d d'), Hw' by done.
    rewrite (wallets_sum_insert s (wallets d) n w w' Hw), Hl, Hsa by done. case_decide; lia.
  - intros k v Hv. rewrite Hw'. destruct (decide (n = k)) as [<-|Hne].
    + rewrite lookup_insert_eq. exists w'. split; [done|]. congruence.
    + rewrite lookup_insert_ne by done. by exists v.
Qed.

(** ** Supply *)

Lemma adjust_supply_inv delta d d' :
  supply_ok d → i64_min ≤ amount delta ≤ i64_max → adjust_supply delta false d = Ok d' →
  money_symbol (symbol delta) ∧ kept d d' ∧ wallets d' = wallets d ∧ supply_ok d' ∧
  (∀ s, money_symbol s → supply s d' = supply s d + (if decide (s = symbol delta) then amount delta else 0)).
Proof.
  intros Hok Ha. pose proof (Hok HIVE_SYMBOL ltac:(auto)) as Hhive. pose proof (supply_ok_hbd d Hok) as Hhbd.
  unfold supply in Hhive. rewrite decide_True in Hhive by done.
  unfold adjust_supply. replace (if _ <? _ then false else false) with false by by case_match.
  rewrite symbol_num_hive, symbol_num_hbd. destruct (bool_decide (symbol delta = HIVE_SYMBOL)) eqn:E1.
  { apply bool_decide_eq_true in E1. rewrite E1. cbn [andb mbind result_bind].
    assert (asset_add delta (Asset 0 HIVE_SYMBOL) = Ok (Asset (amount delta) HIVE_SYMBOL)) as ->.
    { unfold asset_add, same_symbol. rewrite E1, symbol_eqb_refl. cbn [fc_assert mbind result_bind amount symbol].
      rewrite share_add_in by lia. cbn. by rewrite Z.add_0_r. }
    cbn [mbind result_bind]. intros (x & Hx & (y & _ & (z & _ & (u & _ & [= <-])%bind_Ok)%bind_Ok)%bind_Ok)%bind_Ok.
    unfold tiny_add_asset in Hx. apply bind_Ok in Hx as (? & _ & Hx). cbn [amount] in Hx.
    pose proof (share_add_eq _ _ _ Hx) as ->. apply share_add_bound in Hx; [|done..].
    split; [auto|]. split_and!; [by split|done| |].
    - intros s [-> | ->]; unfold supply; cbn; by case_decide.
    - intros s [-> | ->]; unfold supply; cbn; repeat case_decide; done || lia. }
  destruct (bool_decide (symbol delta = HBD_SYMBOL)) eqn:E2; [|done].
  apply bool_decide_eq_true in E2. rewrite E2.
  intros (x & Hx & (y & _ & (z & _ & (u & _ & [= <-])%bind_Ok)%bind_Ok)%bind_Ok)%bind_Ok.
  unfold tiny_add_asset in Hx. apply bind_Ok in Hx as (? & _ & Hx).
  pose proof (share_add_eq _ _ _ Hx) as ->. apply share_add_bound in Hx; [|done..].
  split; [auto|]. split_and!; [by split|done| |].
  - intros s [-> | ->]; unfold supply; cbn; by case_decide.
  - intros s [-> | ->]; unfold supply; cbn; repeat case_decide; done || lia.
Qed.

(** ** Requests for withdrawal *)

Lemma pending_insert n id x m k :
  m !! (n, id) = None →
  pending k (<[(n, id) := x]> m) = pending k m + (if decide (n = k) then 1 else 0).
Proof. intros Hm. unfold pending. rewrite map_sum_insert, Hm. cbn. lia. Qed.

Lemma pending_delete n id x m k :
  m !! (n, id) = Some x →
  pending k (delete (n, id) m) = pending k m - (if decide (n = k) then 1 else 0).
Proof. intros Hm. unfold pending. rewrite map_sum_delete, Hm. cbn. lia. Qed.

Lemma pending_nonneg k m : 0 ≤ pending k m.
Proof. apply map_sum_nonneg. intros. case_decide; lia. Qed.

(** The state with other requests of the account [n], and its count of them. *)
Definition with_requests (n : string) (w : wallet) (m : gmap (string * Z) savings_withdraw_object)
    (d : money_state) : money_state :=
  set_savings_withdraws m (set_wallets (<[n := set_requests (pending n m) w]> (wallets d)) d).

Section requests.
Context (d : money_state) (Hd : shape d) (n : string) (w : wallet) (Hw : wallets d !! n = Some w).
Context (m : gmap (string * Z) savings_withdraw_object).
Context (Hm : map_Forall (withdraw_ok (wallets d)) m).
Context (Hother : ∀ k, k ≠ n → pending k m = pending k (savings_withdraws d)).
Context (Hlimit : pending n m ≤ HIVE_SAVINGS_WITHDRAW_REQUEST_LIMIT).

Lemma with_requests_accounts k :
  is_Some (wallets d !! k) → is_Some (wallets (with_requests n w m d) !! k).
Proof using All. intros Hk. cbn. rewrite lookup_insert. by case_decide. Qed.

Lemma shape_with_requests : shape (with_requests n w m d).
Proof using All.
  pose proof Hd as [Hhf Hws Ho Hu Hx Hr]. pose proof with_requests_accounts as Ha.
  split; cbn [with_requests set_savings_withdraws set_wallets wallets limit_orders next_order_id
    savings_withdraws processed_hardforks]; [done| | |done| |].
  - intros k v [[<- <-]|[_ Hk]]%lookup_insert_Some; [by apply (Hws n w)|by apply (Hws k v)].
  - intros i o [? ? ? ? ? ?]%Ho. split; auto.
  - intros k x [? ? ? ?]%Hm. split; auto.
  - intros k v [[<- <-]|[Hne Hk]]%lookup_insert_Some; [done|].
    rewrite Hother by done. by apply Hr.
Qed.

Lemma gap_with_requests s :
  gap s (with_requests n w m d) =
  gap s d + map_sum (λ _ x, withdrawn s x) (savings_withdraws d) - map_sum (λ _ x, withdrawn s x) m.
Proof using Hw.
  unfold gap, held. cbn [with_requests set_savings_withdraws set_wallets wallets limit_orders savings_withdraws].
  change (supply s (with_requests n w m d)) with (supply s d).
  rewrite (wallets_sum_insert s (wallets d) n w _ Hw).
  change (liquid s (set_requests (pending n m) w)) with (liquid s w).
  change (saved s (set_requests (pending n m) w)) with (saved s w). lia.
Qed.

End requests.

(** A request that is added or removed. *)
Lemma add_request d n id x w :
  shape d → wallets d !! n = Some w → savings_withdraws d !! (n, id) = None →
  withdraw_ok (wallets d) (n, id) x →
  savings_withdraw_requests w < HIVE_SAVINGS_WITHDRAW_REQUEST_LIMIT →
  let d' := with_requests n w (<[(n, id) := x]> (savings_withdraws d)) d in
  pending n (<[(n, id) := x]> (savings_withdraws d)) = savings_withdraw_requests w + 1 ∧
  shape d' ∧ ∀ s, gap s d' = gap s d - withdrawn s x.
Proof.
  intros Hd Hw Hk Hx Hlim. destruct (sh_requests d Hd n w Hw) as [Hreq _].
  pose proof (pending_insert n id x (savings_withdraws d) n Hk) as Hp. rewrite decide_True in Hp by done.
  split; [lia|]. split.
  - apply shape_with_requests; [done|done| | |lia].
    + apply map_Forall_insert_2; [done|]. apply (sh_withdraws d Hd).
    + intros k Hne. rewrite pending_insert, decide_False by done. lia.
  - intros s. rewrite (gap_with_requests d n w Hw), map_sum_insert, Hk. cbn. lia.
Qed.

Lemma remove_request d n id x w :
  shape d → wallets d !! n = Some w → savings_withdraws d !! (n, id) = Some x →
  let d' := with_requests n w (delete (n, id) (savings_withdraws d)) d in
  pending n (delete (n, id) (savings_withdraws d)) = savings_withdraw_requests w - 1 ∧
  0 < savings_withdraw_requests w ≤ HIVE_SAVINGS_WITHDRAW_REQUEST_LIMIT ∧
  shape d' ∧ ∀ s, gap s d' = gap s d + withdrawn s x.
Proof.
  intros Hd Hw Hk. destruct (sh_requests d Hd n w Hw) as [Hreq Hlim].
  pose proof (pending_delete n id x (savings_withdraws d) n Hk) as Hp. rewrite decide_True in Hp by done.
  pose proof (pending_nonneg n (delete (n, id) (savings_withdraws d))).
  split; [lia|]. split; [lia|]. split.
  - apply shape_with_requests; [done|done| | |lia].
    + apply map_Forall_delete. apply (sh_withdraws d Hd).
    + intros k Hne. rewrite (pending_delete n id x), decide_False by done. lia.
  - intros s. rewrite (gap_with_requests d n w Hw), map_sum_delete, Hk. cbn. lia.
Qed.

(** The counters of the accounts are bytes. *)
Lemma count_request d n w f m :
  wallets d !! n = Some w → 0 ≤ f (savings_withdraw_requests w) ≤ u8_max →
  f (savings_withdraw_requests w) = pending n m →
  modify_wallet n (λ w, Ok (set_requests (u8 (f (savings_withdraw_requests w))) w))
    (set_savings_withdraws m d) = Ok (with_requests n w m d).
Proof.
  intros Hw Hb Hf. unfold modify_wallet, get_account. cbn [wallets set_savings_withdraws].
  rewrite Hw. cbn [from_option_or mbind result_bind]. by rewrite u8_id, Hf.
Qed.
