(* ===== verification/Matching.v ===== *)
(** * Matching

    The loop of [apply_order] and the evaluators that place orders: the matching never fails,
    takes the best orders first, pays both sides of each trade at least their price and leaves
    no two orders that could be matched. *)

From S2P Require Import Prelude Safe AssetSymbol Asset OperationTypes Operations Balances Market.
From S2P Require Import MoneyBooks MarketBooks.
Open Scope Z_scope.

(** ** The loop *)

(** An order after some sales. *)
Definition reduced (o o' : limit_order_object) : Prop :=
  ∃ x, x ≤ for_sale o ∧ o' = set_for_sale x o.

#[export] Instance reduced_preorder : PreOrder reduced.
Proof.
  split.
  - intros [c e s i f p]. exists f. by split.
  - intros o1 o2 o3 (x & Hx & ->) (y & Hy & ->). exists y. split; [cbn in *; lia|done].
Qed.

(** The orders of a book after some sales. *)
Definition shrunk (m m' : gmap Z limit_order_object) : Prop :=
  ∀ j o', m' !! j = Some o' → ∃ o, m !! j = Some o ∧ reduced o o'.

#[export] Instance shrunk_preorder : PreOrder shrunk.
Proof.
  split.
  - intros m j o Ho. by exists o.
  - intros m1 m2 m3 H12 H23 j o3 H3. destruct (H23 j o3 H3) as (o2 & H2 & R2).
    destruct (H12 j o2 H2) as (o1 & H1 & R1). exists o1. split; [done|by etrans].
Qed.

Lemma crosses_reduced o p o' : reduced o o' → crosses o p ↔ crosses o' p.
Proof. by intros (x & _ & ->). Qed.

Lemma crosses_sym o p : crosses o p → crosses p o.
Proof. intros (H1 & H2 & H3). split_and!; [done|done|lia]. Qed.

Lemma fair_report_mono new new' m m' op :
  reduced new new' → shrunk m m' → fair_report new' m' op → fair_report new m op.
Proof.
  intros (x & _ & ->) Hm. destruct op; try done. cbn.
  intros (? & ? & ? & ? & ? & ? & i & p' & Hp' & ? & ? & ? & ? & ?). do 6 (split; [done|]).
  destruct (Hm i p' Hp') as (p & Hp & y & _ & ->). by exists i, p.
Qed.

Lemma after_shrunk i o x gone m :
  m !! i = Some o → 0 ≤ x → shrunk m (after i o x gone m).
Proof.
  intros Hi Hx j p. unfold after. destruct gone.
  - intros [_ Hj]%lookup_delete_Some. by exists p.
  - intros [[<- <-]|[_ Hj]]%lookup_insert_Some; [|by exists p].
    exists o. split; [done|]. exists (for_sale o - x). split; [lia|done].
Qed.

Lemma after_ne i o x gone m j : j ≠ i → after i o x gone m !! j = m !! j.
Proof.
  intros Hj. unfold after.
  destruct gone; [by rewrite lookup_delete_ne|by rewrite lookup_insert_ne].
Qed.

Lemma after_gone i o x m : after i o x true m !! i = None.
Proof. apply lookup_delete_eq. Qed.

(** What the loop over the orders [l] does with the new order. *)
Record worked (new_id : Z) (new : limit_order_object) (l : list Z) (d d' : money_state) : Prop := {
  wk_shape : shape d';
  wk_frame : frame d d';
  wk_gap : ∀ s, money_symbol s → gap s d' = gap s d;
  wk_others : ∀ j, j ≠ new_id → j ∉ l → limit_orders d' !! j = limit_orders d !! j;
  wk_shrunk : shrunk (limit_orders d) (limit_orders d');
  wk_new : limit_orders d' !! new_id = None ∨ ∀ i, i ∈ l → limit_orders d' !! i = None;
  wk_priority : ∀ p q i j, l !! p = Some i → l !! q = Some j → (p < q)%nat →
    limit_orders d' !! j ≠ limit_orders d !! j → limit_orders d' !! i = None;
  wk_ops : pushes (fair_report new (limit_orders d)) d d'
}.

(** What is held stays representable along a frame that keeps the gaps. *)
Lemma held_kept d d' s : frame d d' → gap s d' = gap s d → held s d' = held s d.
Proof. intros Hf Hg. unfold gap in Hg. rewrite (frame_supply d d') in Hg by done. lia. Qed.

Lemma worked_nil new_id new d : shape d → worked new_id new [] d d.
Proof.
  intros Hd. split; try done; [|by apply pushes_nil].
  right. by intros i ?%elem_of_nil.
Qed.

(** One round of the loop, in which the new order [new] meets [old]. *)
Section round.
Context (new_id old_id : Z) (new old : limit_order_object) (l : list Z) (x y : Z).
Context (d d1 : money_state) (fn fo : bool).
Context (Hnew : limit_orders d !! new_id = Some new) (Hold : limit_orders d !! old_id = Some old).
Context (Hx : 0 ≤ x) (Hy : 0 ≤ y) (Hids : new_id ≠ old_id) (Hnin : new_id ∉ l) (Hnol : old_id ∉ l).
Context (Hd1 : shape d1) (Hf1 : frame d d1) (Hg1 : ∀ s, money_symbol s → gap s d1 = gap s d).
Context (Ho1 : limit_orders d1 = after old_id old y fo (after new_id new x fn (limit_orders d))).
Context (Hp1 : pushes (fair_report new (limit_orders d)) d d1).

Lemma round_shrunk : shrunk (limit_orders d) (limit_orders d1).
Proof using All.
  rewrite Ho1. etrans; [by apply (after_shrunk new_id new x fn)|].
  apply after_shrunk; [|done]. by rewrite after_ne.
Qed.

Lemma round_others j :
  j ≠ new_id → j ≠ old_id → limit_orders d1 !! j = limit_orders d !! j.
Proof using All. intros H1 H2. rewrite Ho1. by rewrite !after_ne. Qed.

Lemma worked_last : fn = true → worked new_id new (old_id :: l) d d1.
Proof using All.
  intros Hfn. split; [done|done|done| |apply round_shrunk| | |done].
  - intros j Hj [Hj' _]%not_elem_of_cons. by apply round_others.
  - left. rewrite Ho1, Hfn, after_ne by done. apply after_gone.
  - intros p q i j Hp Hq Hpq Hch. destruct q as [|q]; [lia|]. cbn in Hq. destruct Hch.
    apply list_elem_of_lookup_2 in Hq. apply round_others; congruence.
Qed.

Lemma worked_cons d2 :
  fo = true → worked new_id (set_for_sale (for_sale new - x) new) l d1 d2 →
  worked new_id new (old_id :: l) d d2.
Proof using All.
  intros Hfo [Hd2 Hf2 Hg2 Hot2 Hs2 Hn2 Hpr2 Hp2].
  assert (limit_orders d2 !! old_id = None) as Hold2.
  { rewrite Hot2, Ho1, Hfo by congruence. apply after_gone. }
  split; [done|by etrans| | |etrans; [apply round_shrunk|done]| | |].
  - intros s Hs. by rewrite Hg2, Hg1.
  - intros j Hj [Hj1 Hj2]%not_elem_of_cons. rewrite Hot2 by done. by apply round_others.
  - destruct Hn2 as [Hn2|Hn2]; [by left|right]. intros i [->|Hi]%elem_of_cons; auto.
  - intros p q i j Hp Hq Hpq Hch. destruct q as [|q]; [lia|]. cbn in Hq.
    destruct p as [|p]; cbn in Hp; [by injection Hp as <-|].
    apply (Hpr2 p q i j Hp Hq); [lia|]. rewrite round_others; [done|..];
      apply list_elem_of_lookup_2 in Hq; congruence.
  - eapply pushes_trans; [exact Hp1|]. eapply pushes_mono; [|exact Hp2].
    intros op. apply fair_report_mono; [|apply round_shrunk].
    exists (for_sale new - x). split; [lia|done].
Qed.

End round.

Lemma match_range_exact new_id l : ∀ new d,
  shape d → limit_orders d !! new_id = Some new → NoDup l → new_id ∉ l →
  (∀ i, i ∈ l → ∃ o, limit_orders d !! i = Some o ∧ crosses new o) →
  (∀ s, money_symbol s → held s d ≤ i64_max) →
  ∃ d', match_range new_id l d = Ok d' ∧ worked new_id new l d d'.
Proof.
  induction l as [|old_id l IH]; intros new d Hd Hnew Hnd Hnin Hl Hheld; cbn [match_range].
  { exists d. split; [done|by apply worked_nil]. }
  apply NoDup_cons in Hnd as [Hnol Hnd]. apply not_elem_of_cons in Hnin as [Hids Hnin].
  destruct (Hl old_id) as (old & Hold & Hc); [by left|].
  destruct (sh_orders d Hd _ _ Hnew) as [_ _ Hsn Hpn Hn [Hdn _]].
  destruct (sh_orders d Hd _ _ Hold) as [_ _ Hso Hpo Ho [Hdo _]].
  destruct (match_orders_exact d Hd new_id old_id new old Hnew Hold Hids Hc (Hheld _ Hsn) (Hheld _ Hso))
    as (fn & fo & d1 & E & Hd1 & Hf1 & Hg1 & Ho1 & Hor & Hp1).
  pose proof (trade_range new old Hpn Hpo Hn Ho Hdn Hdo Hc) as (Hr1 & Hr2 & _).
  rewrite (deref_order_eq old_id old) by done. cbn [mbind result_bind]. rewrite E.
  cbn [mbind result_bind fst snd].
  destruct fn; [exists d1; split; [done|]|].
  { by eapply worked_last with (x := (trade new old).2) (y := (trade new old).1); eauto; lia. }
  cbn in Hor. subst fo.
  destruct (IH (set_for_sale (for_sale new - (trade new old).2) new) d1) as (d2 & E2 & Hw);
    [done| |done|done| | |].
  - rewrite Ho1, after_ne by done. apply lookup_insert_eq.
  - intros i Hi. destruct (Hl i) as (o & Ho' & Hco); [by right|]. exists o. split; [|done].
    rewrite Ho1, !after_ne by congruence. done.
  - intros s Hs. rewrite (held_kept d d1) by auto. by apply Hheld.
  - exists d2. split; [done|].
    eapply worked_cons with (x := (trade new old).2) (y := (trade new old).1); eauto; lia.
Qed.

(** ** The range of prices *)

(** Sorting by a relation that is transitive on the elements of the list. *)
Section sorting.
Context {A : Type} (P : A → Prop) (R : relation A).
Context (Htrans : ∀ x y z, P x → P y → P z → R x y → R y z → R x z).

Lemma strongly_sorted_on l : Forall P l → Sorted R l → StronglySorted R l.
Proof using All.
  induction l as [|a l IH]; intros HP Hs; [constructor|].
  apply Forall_cons in HP as [Ha HP]. apply Sorted_inv in Hs as [Hs Hhd].
  specialize (IH HP Hs). constructor; [done|].
  destruct l as [|b l]; [constructor|]. apply HdRel_inv in Hhd.
  apply StronglySorted_inv in IH as [_ Hb]. apply Forall_cons in HP as [Hb' HP].
  constructor; [done|]. rewrite Forall_forall in *. eauto.
Qed.
End sorting.

Lemma strongly_sorted_filter {A} (R : relation A) (P : A → Prop) `{∀ x, Decision (P x)} l :
  StronglySorted R l → StronglySorted R (filter P l).
Proof.
  induction 1 as [|a l Hl IH Ha]; [constructor|]. rewrite filter_cons.
  case_decide; [|done]. constructor; [done|]. rewrite Forall_forall in *.
  intros x [_ Hx]%list_elem_of_filter. auto.
Qed.

Lemma strongly_sorted_lookup {A} (R : relation A) l p q x y :
  StronglySorted R l → l !! p = Some x → l !! q = Some y → (p < q)%nat → R x y.
Proof.
  intros Hl. revert p q. induction Hl as [|a l Hl IH Ha]; intros p q Hp Hq Hpq; [done|].
  destruct q as [|q]; [lia|]. destruct p as [|p]; cbn in Hp, Hq.
  - injection Hp as <-. rewrite Forall_forall in Ha. by eapply Ha, list_elem_of_lookup_2.
  - apply (IH p q); [done..|lia].
Qed.

Definition has_price (x : Z * limit_order_object) : Prop := valid_price (sell_price x.2).

Lemma gtb_ltb a b : valid_price a → valid_price b → price_gtb a b = price_ltb b a.
Proof. intros Ha Hb. by apply price_derived_ops. Qed.

Lemma not_gtb_eqb a b :
  valid_price a → valid_price b → price_gtb a b = false → price_gtb b a = true ∨ price_eqb b a = true.
Proof.
  intros Ha Hb. rewrite !gtb_ltb by done. pose proof (price_trichotomy a b Ha Hb).
  pose proof (price_trichotomy b a Hb Ha). naive_solver.
Qed.

#[export] Instance price_before_total : Total price_before.
Proof.
  intros x y. unfold price_before.
  destruct (price_gtb (sell_price x.2) (sell_price y.2)); [by do 2 left|].
  destruct (price_gtb (sell_price y.2) (sell_price x.2)); [by right; left|].
  destruct (decide (x.1 ≤ y.1)); [by left; right|right; right]. split; [done|lia].
Qed.

Lemma price_before_trans x y z :
  has_price x → has_price y → has_price z →
  price_before x y → price_before y z → price_before x z.
Proof.
  unfold has_price, price_before. set (a := sell_price x.2). set (b := sell_price y.2).
  set (c := sell_price z.2). intros Ha Hb Hc.
  rewrite (gtb_ltb a b), (gtb_ltb b c), (gtb_ltb b a), (gtb_ltb c b), (gtb_ltb a c), (gtb_ltb c a) by done.
  pose proof (price_trichotomy a b Ha Hb) as Tab. pose proof (price_trichotomy b c Hb Hc) as Tbc.
  pose proof (price_trichotomy a c Ha Hc) as Tac.
  pose proof (price_ltb_trans c b a Hc Hb Ha). pose proof (price_ltb_trans a c b Ha Hc Hb).
  pose proof (price_ltb_trans b a c Hb Ha Hc). pose proof (price_eqb_ltb a b c Ha Hb Hc).
  pose proof (price_eqb_ltb b c a Hb Hc Ha). pose proof (price_eqb_ltb a c b Ha Hc Hb).
  intros [X|[X I]] [Y|[Y J]]; destruct Tab as [(?&?&?)|[(?&?&?)|(?&?&?)]];
    destruct Tbc as [(?&?&?)|[(?&?&?)|(?&?&?)]]; destruct Tac as [(?&?&?)|[(?&?&?)|(?&?&?)]];
    try congruence; try (by left); try (by right; split; [|lia]); naive_solver.
Qed.

Section range.
Context (new : limit_order_object) (Hnew : valid_price (sell_price new)).

Definition limit_price : price := Price (quote (sell_price new)) (base (sell_price new)).
Definition top_price : price := Price (Asset HIVE_MAX_SATOSHIS (buys new)) (Asset 1 (sells new)).

Lemma limit_price_valid : valid_price limit_price.
Proof using All. destruct Hnew. by split. Qed.

Lemma top_price_valid : valid_price top_price.
Proof using All.
  destruct Hnew. split; cbn; unfold HIVE_MAX_SATOSHIS, i64_max; [lia|lia|done].
Qed.

Lemma make_price_valid b q : valid_price (Price b q) → make_price b q = Ok (Price b q).
Proof using.
  intros Hp. unfold make_price. rewrite (proj2 (price_validate_Ok (Price b q) tt
    (proj2 (valid_base _ Hp)) (proj2 (valid_quote _ Hp))) Hp). done.
Qed.

Lemma price_inverse_eq : price_inverse (sell_price new) = Ok limit_price.
Proof using All. apply make_price_valid, limit_price_valid. Qed.

Lemma price_max_eq : price_max (buys new) (sells new) = Ok top_price.
Proof using All. apply make_price_valid, top_price_valid. Qed.

Lemma BQ_eq (a b : price) :
  BQ a = BQ b ↔ symbol (base a) = symbol (base b) ∧ symbol (quote a) = symbol (quote b).
Proof using.
  unfold BQ. destruct (symbol (base a)), (symbol (base b)), (symbol (quote a)), (symbol (quote b)).
  cbn. naive_solver.
Qed.

Lemma tie_ltb_total x y : x ≠ y → tie_ltb x y = true ∨ tie_ltb y x = true.
Proof using.
  destruct x as [x1 x2], y as [y1 y2]. rewrite !tie_ltb_spec. cbn. intros Hne.
  destruct (Z.lt_trichotomy x1 y1) as [?|[->|?]]; [lia| |lia].
  destruct (Z.lt_trichotomy x2 y2) as [?|[->|?]]; [lia|done|lia].
Qed.

(** The range holds the orders that the new order can be matched with. *)
Lemma in_range o :
  valid_price (sell_price o) → price_gtb (sell_price o) top_price = false →
  price_gtb limit_price (sell_price o) = false → crosses new o.
Proof using All.
  intros Ho. rewrite !gtb_ltb by (done || apply limit_price_valid || apply top_price_valid).
  rewrite <- !not_true_iff_false, !price_ltb_spec
    by (done || apply limit_price_valid || apply top_price_valid).
  intros H1 H2. assert (BQ (sell_price o) = BQ limit_price) as Hbq.
  { destruct (decide (BQ (sell_price o) = BQ limit_price)) as [|Hne]; [done|].
    destruct (tie_ltb_total _ _ Hne) as [H|H]; [by destruct H2; left|by destruct H1; left]. }
  pose proof (proj1 (BQ_eq _ _) Hbq) as [Hs Hq]. cbn in Hs, Hq.
  split_and!; [done|done|]. destruct (decide (cross (sell_price o) limit_price
    < cross limit_price (sell_price o))) as [|Hx]; [by destruct H2; right|].
  unfold cross in Hx. cbn in Hx. lia.
Qed.

Lemma crosses_in_range o :
  valid_price (sell_price o) → crosses new o →
  amount (base (sell_price o)) ≤ amount (quote (sell_price o)) * HIVE_MAX_SATOSHIS →
  price_gtb (sell_price o) top_price = false ∧ price_gtb limit_price (sell_price o) = false.
Proof using All.
  intros Ho (Hs & Hb & Hx) Hmax.
  assert (BQ (sell_price o) = BQ limit_price) as Hbq by by apply BQ_eq.
  assert (BQ (sell_price o) = BQ top_price) as Hbt by by apply BQ_eq.
  rewrite !gtb_ltb by (done || apply limit_price_valid || apply top_price_valid).
  rewrite <- !not_true_iff_false, !price_ltb_spec
    by (done || apply limit_price_valid || apply top_price_valid).
  rewrite <- Hbq, <- Hbt, !tie_ltb_spec. unfold cross. cbn -[HIVE_MAX_SATOSHIS].
  split; intros [?|[_ ?]]; lia.
Qed.

End range.

Lemma by_price_perm m : by_price m ≡ₚ map_to_list m.
Proof. apply merge_sort_Permutation. Qed.

Section price_range.
Context (new : limit_order_object) (m : gmap Z limit_order_object).
Context (Hm : map_Forall (λ _ o, valid_price (sell_price o)) m).

Abbreviation range := (price_range (top_price new) (limit_price new) m).

Lemma elem_of_range i o :
  (i, o) ∈ range ↔ m !! i = Some o ∧ price_gtb (sell_price o) (top_price new) = false ∧
    price_gtb (limit_price new) (sell_price o) = false.
Proof using.
  unfold price_range. rewrite list_elem_of_filter, by_price_perm, elem_of_map_to_list. tauto.
Qed.

Lemma range_NoDup : NoDup range.*1.
Proof using.
  apply (sublist_NoDup _ (by_price m).*1); [|apply fmap_sublist, sublist_filter].
  rewrite by_price_perm. apply NoDup_fst_map_to_list.
Qed.

Lemma range_sorted : StronglySorted price_before range.
Proof using All.
  apply strongly_sorted_filter, (strongly_sorted_on has_price);
    [apply price_before_trans| |apply Sorted_merge_sort, _].
  rewrite Forall_forall. intros [i o]. rewrite by_price_perm, elem_of_map_to_list. apply Hm.
Qed.

End price_range.

(** ** Placing an order *)

Definition uncrossed (m : gmap Z limit_order_object) : Prop :=
  ∀ i j o p, m !! i = Some o → m !! j = Some p → ¬ crosses o p.

(** [o] is served before [p]: it asks less for what it sells, or the same and is older. *)
Definition has_priority (i : Z) (o : limit_order_object) (j : Z) (p : limit_order_object) : Prop :=
  let left := amount (base (sell_price o)) * amount (quote (sell_price p)) in
  let right := amount (base (sell_price p)) * amount (quote (sell_price o)) in
  right < left ∨ right = left ∧ i < j.

Lemma not_crosses_self o : valid_price (sell_price o) → ¬ crosses o o.
Proof. intros [_ _ Hs] (H & _). done. Qed.

Lemma find_by_account_None n id m :
  find_by_account n id m = None ↔
  ∀ i o, m !! i = Some o → ¬ (seller o = n ∧ orderid o = id).
Proof.
  unfold find_by_account. split.
  - intros H%fmap_None%list_find_None i o Ho. rewrite Forall_forall in H.
    apply (H (i, o)). by apply elem_of_items.
  - intros H. apply fmap_None, list_find_None, Forall_forall.
    intros [i o] Ho%elem_of_items. by apply (H i o).
Qed.

Lemma find_by_account_Some n id m i :
  find_by_account n id m = Some i → ∃ o, m !! i = Some o ∧ seller o = n ∧ orderid o = id.
Proof.
  unfold find_by_account. intros ([k [j o]] & Hf & ->)%fmap_Some.
  apply list_find_Some in Hf as (Hk & Ho & _). exists o. split; [|done].
  by apply elem_of_items, (list_elem_of_lookup_2 _ k).
Qed.

Lemma next_id_free d : shape d → limit_orders d !! next_order_id d = None.
Proof.
  intros Hd. destruct (limit_orders d !! next_order_id d) as [o|] eqn:E; [|done].
  pose proof (ok_id _ _ _ _ (sh_orders d Hd _ _ E)). lia.
Qed.

(** The state with the new order. *)
Definition booked (new : limit_order_object) (d : money_state) : money_state :=
  set_orders (<[next_order_id d := new]> (limit_orders d)) (next_order_id d + 1) d.

Lemma shape_booked new d :
  shape d → is_Some (wallets d !! seller new) → money_symbol (sells new) →
  valid_price (sell_price new) → 0 < for_sale new → 0 < due new ≤ i64_max →
  find_by_account (seller new) (orderid new) (limit_orders d) = None → shape (booked new d).
Proof.
  intros Hd Hw Hs Hp Hf Hdue Hfind.
  pose proof (proj1 (find_by_account_None _ _ _) Hfind) as Hu.
  pose proof Hd as [Hhf Hws Ho Hu' Hx Hr]. split; cbn [booked wallets limit_orders next_order_id
    savings_withdraws processed_hardforks set_orders]; [done|done| | |done|done].
  - intros i o [[<- <-]|[_ Hi]]%lookup_insert_Some; [split; (done || lia)|].
    destruct (Ho i o Hi). split; (done || lia).
  - intros i j o p [[<- <-]|[_ Hi]]%lookup_insert_Some [[<- <-]|[_ Hj]]%lookup_insert_Some Hsl Hid;
      [done|by destruct (Hu j p)|by destruct (Hu i o)|by apply (Hu' i j o p)].
Qed.

Lemma held_booked new d s :
  shape d → held s (booked new d) = held s d + offered s new.
Proof. intros Hd. by apply held_insert_order, next_id_free. Qed.

Lemma apply_order_exact i new d :
  shape d → limit_orders d !! i = Some new → (∀ s, money_symbol s → held s d ≤ i64_max) →
  ∃ d', apply_order i d = Ok (bool_decide (limit_orders d' !! i = None), d') ∧
    worked i new (price_range (top_price new) (limit_price new) (limit_orders d)).*1 d d'.
Proof.
  intros Hd Hi Hheld. pose proof (ok_price _ _ _ _ (sh_orders d Hd _ _ Hi)) as Hp.
  assert (map_Forall (λ _ o, valid_price (sell_price o)) (limit_orders d)) as Hm.
  { intros j o Hj. apply (ok_price _ _ _ _ (sh_orders d Hd _ _ Hj)). }
  assert (∀ j, j ∈ (price_range (top_price new) (limit_price new) (limit_orders d)).*1 →
            ∃ o, limit_orders d !! j = Some o ∧ crosses new o) as Hr.
  { intros j ([k o] & -> & (Hj & H1 & H2)%elem_of_range)%list_elem_of_fmap. exists o.
    split; [done|]. apply in_range; [done|by apply (Hm k)|done|done]. }
  destruct (match_range_exact i _ new d Hd Hi (range_NoDup new (limit_orders d))) as (d' & E & Hw);
    [|exact Hr|exact Hheld|].
  { intros Hin. destruct (Hr i Hin) as (o & Ho & Hc). simplify_eq. by apply (not_crosses_self new). }
  exists d'. split; [|done]. unfold apply_order. rewrite (deref_order_eq i new) by done.
  cbn [mbind result_bind]. rewrite price_inverse_eq by done. cbn [mbind result_bind].
  change (symbol (base (limit_price new))) with (buys new).
  change (symbol (quote (limit_price new))) with (sells new).
  rewrite price_max_eq by done. cbn [mbind result_bind]. by rewrite E.
Qed.

(** The request can be booked: the owner has the amount and no order of this number. *)
Record placeable (owner : string) (id : Z) (a : asset) (d : money_state) : Prop := {
  can_symbol : money_symbol (symbol a);
  can_pay : ∃ w, wallets d !! owner = Some w ∧ amount a ≤ liquid (symbol a) w;
  can_book : find_by_account owner id (limit_orders d) = None
}.

(** What placing the order [new] does to the books. *)
Record placed (new : limit_order_object) (d d' : money_state) : Prop := {
  pl_ok : money_ok d';
  pl_gap : ∀ s, money_symbol s → gap s d' = gap s d;
  pl_reports : pushes (fair_report new (limit_orders d)) d d';
  pl_shrunk : ∀ i o', i ≠ next_order_id d → limit_orders d' !! i = Some o' →
    ∃ o, limit_orders d !! i = Some o ∧ reduced o o';
  pl_rest : ∀ o', limit_orders d' !! next_order_id d = Some o' → reduced new o';
  pl_untouched : ∀ i o, limit_orders d !! i = Some o → ¬ crosses new o →
    limit_orders d' !! i = Some o;
  pl_priority : ∀ i j o p, limit_orders d !! i = Some o → limit_orders d !! j = Some p →
    crosses new o → crosses new p → has_priority i o j p →
    (∀ s, money_symbol s → supply s d ≤ HIVE_MAX_SATOSHIS) →
    limit_orders d' !! j ≠ Some p → limit_orders d' !! i = None;
  pl_uncrossed : uncrossed (limit_orders d) →
    (∀ s, money_symbol s → supply s d ≤ HIVE_MAX_SATOSHIS) → uncrossed (limit_orders d')
}.

Lemma fr_accounts_iff d n s x m :
  is_Some (wallets d !! m) → is_Some (wallets (put n s x d) !! m).
Proof. apply fr_accounts, frame_put. Qed.

(** Prices of well-formed orders are below [price::max] while the supply is. *)
Lemma below_top d i o :
  money_ok d → (∀ s, money_symbol s → supply s d ≤ HIVE_MAX_SATOSHIS) →
  limit_orders d !! i = Some o →
  amount (base (sell_price o)) ≤ amount (quote (sell_price o)) * HIVE_MAX_SATOSHIS.
Proof.
  intros [Hd Hg _ _] Hsup Hi. destruct (sh_orders d Hd i o Hi) as [_ [w Hw] Hs [Hb Hq _] Hf [Hdue _]].
  pose proof (held_wallet_order d Hd _ w i o (sells o) Hw Hi) as Hh. rewrite offered_sells in Hh.
  pose proof (wallet_nonneg d Hd _ _ (sells o) Hw).
  pose proof (Hg _ Hs). pose proof (Hsup _ Hs). unfold gap in *.
  unfold due in Hdue. pose proof (div_bracket (for_sale o * amount (quote (sell_price o)))
    (amount (base (sell_price o))) ltac:(lia)). nia.
Qed.

Lemma priority_position m new i j o p :
  map_Forall (λ _ o, valid_price (sell_price o)) m →
  let range := price_range (top_price new) (limit_price new) m in
  (i, o) ∈ range → (j, p) ∈ range → crosses new o → crosses new p → has_priority i o j p →
  ∃ a b, range.*1 !! a = Some i ∧ range.*1 !! b = Some j ∧ (a < b)%nat.
Proof.
  intros Hm range Hi Hj Hco Hcp Hpr.
  apply list_elem_of_lookup in Hi as [a Ha]. apply list_elem_of_lookup in Hj as [b Hb].
  exists a, b. rewrite !list_lookup_fmap, Ha, Hb. do 2 (split; [done|]).
  pose proof (range_sorted new m Hm) as Hs.
  assert (valid_price (sell_price o)) as Ho.
  { apply (Hm i o). eapply elem_of_range, list_elem_of_lookup_2, Ha. }
  assert (valid_price (sell_price p)) as Hp.
  { apply (Hm j p). eapply elem_of_range, list_elem_of_lookup_2, Hb. }
  destruct (Nat.lt_trichotomy a b) as [|[->|Hlt]]; [done| |exfalso].
  { rewrite Ha in Hb. injection Hb as -> ->. unfold has_priority in Hpr. lia. }
  pose proof (strongly_sorted_lookup _ _ b a _ _ Hs Hb Ha Hlt) as Hbef.
  unfold price_before in Hbef. cbn [fst snd] in Hbef. rewrite !gtb_ltb in Hbef by done.
  rewrite <- !not_true_iff_false, !price_ltb_spec in Hbef by done.
  destruct Hco as (Hs1 & Hb1 & _), Hcp as (Hs2 & Hb2 & _).
  assert (BQ (sell_price o) = BQ (sell_price p)) as Hbq by (apply BQ_eq; split; congruence).
  rewrite Hbq, !tie_ltb_spec in Hbef. unfold cross, has_priority in *.
  destruct Hbef as [[?|[_ ?]]|[Hn ?]]; [lia|lia|]. apply Hn. right. split; [done|]. lia.
Qed.

Section placing.
Context (d : money_state) (Hd : money_ok d) (new : limit_order_object) (w : wallet).
Context (Hs : money_symbol (sells new)) (Hp : valid_price (sell_price new)).
Context (Hf : 0 < for_sale new) (Hdue : 0 < due new ≤ i64_max).
Context (Hw : wallets d !! seller new = Some w) (Hpay : for_sale new ≤ liquid (sells new) w).
Context (Hbook : find_by_account (seller new) (orderid new) (limit_orders d) = None).

Abbreviation d1 := (put (seller new) (sells new) (- for_sale new) d).
Abbreviation d2 := (booked new d1).
Abbreviation n := (next_order_id d).

Lemma placing_shape : shape d2.
Proof using All.
  destruct Hd as [Hsh _ _ _]. apply shape_booked; [|by apply fr_accounts_iff|done..].
  apply (shape_put _ _ _ _ w); [done..|lia].
Qed.

Lemma placing_gap s : money_symbol s → gap s d2 = gap s d.
Proof using All.
  intros Hsym. destruct Hd as [Hsh _ _ _].
  unfold gap. change (supply s d2) with (supply s d).
  rewrite held_booked, (held_put _ _ _ _ w), offered_eq by (done || apply (shape_put _ _ _ _ w); done || lia).
  case_decide; lia.
Qed.

Lemma placing_held s : money_symbol s → held s d2 ≤ i64_max.
Proof using All.
  intros Hsym. pose proof (placing_gap s Hsym) as Hg. unfold gap in Hg.
  change (supply s d2) with (supply s d) in Hg.
  pose proof (money_gap d Hd s Hsym). pose proof (money_supply d Hd s Hsym). unfold gap in *. lia.
Qed.

Lemma placing_orders : limit_orders d2 = <[n := new]> (limit_orders d).
Proof using. done. Qed.

Lemma placing_fresh i o : limit_orders d !! i = Some o → i ≠ n.
Proof using Hd.
  intros Ho ->. pose proof (next_id_free d (money_shape d Hd)). congruence.
Qed.

Lemma in_placing_range i o :
  (∀ s, money_symbol s → supply s d ≤ HIVE_MAX_SATOSHIS) →
  limit_orders d !! i = Some o → crosses new o →
  (i, o) ∈ price_range (top_price new) (limit_price new) (limit_orders d2).
Proof using All.
  intros Hsup Ho Hc. apply elem_of_range. split.
  - rewrite placing_orders, lookup_insert_ne; [done|]. by apply not_eq_sym, (placing_fresh i o).
  - apply crosses_in_range; [done| |done|by apply (below_top d i o)].
    apply (ok_price _ _ _ _ (sh_orders d (money_shape d Hd) _ _ Ho)).
Qed.

Lemma range_crosses i :
  i ∈ (price_range (top_price new) (limit_price new) (limit_orders d2)).*1 →
  ∃ o, limit_orders d !! i = Some o ∧ crosses new o ∧ i ≠ n.
Proof using All.
  intros ([j o] & -> & (Hj & H1 & H2)%elem_of_range)%list_elem_of_fmap. cbn [fst].
  assert (crosses new o) as Hc.
  { apply in_range; [done| |done|done].
    apply (ok_price _ _ _ _ (sh_orders d2 placing_shape _ _ Hj)). }
  rewrite placing_orders in Hj. apply lookup_insert_Some in Hj as [[-> <-]|[Hne Hj]].
  - by apply not_crosses_self in Hc.
  - exists o. split_and!; [done|done|congruence].
Qed.

Context (d' : money_state).
Context (Hwk : worked n new (price_range (top_price new) (limit_price new) (limit_orders d2)).*1 d2 d').

Lemma worked_money_ok : money_ok d'.
Proof using All.
  destruct Hwk as [Hd' Hfr Hg _ _ _ _ _]. split; [done| | |].
  - intros s Hsym. rewrite Hg, placing_gap by done. by apply (money_gap d Hd).
  - intros s Hsym. rewrite (frame_supply d2 d') by done. by apply (money_supply d Hd).
  - apply (frame_feed d2 d'); [done|]. apply (frame_feed d d1); [apply frame_put|apply (money_feed d Hd)].
Qed.

(** An order of the result comes from the book or is the new one. *)
Lemma worked_origin i o' :
  limit_orders d' !! i = Some o' →
  i = n ∧ reduced new o' ∨ i ≠ n ∧ ∃ o, limit_orders d !! i = Some o ∧ reduced o o'.
Proof using All.
  intros Ho'. destruct (wk_shrunk _ _ _ _ _ Hwk i o' Ho') as (o & Ho & Hr).
  rewrite placing_orders in Ho. apply lookup_insert_Some in Ho as [[<- <-]|[Hne Ho]]; [by left|].
  right. split; [congruence|by exists o].
Qed.

(** The rest of the new order does not meet any order that is left. *)
Lemma worked_new_uncrossed j o' p' :
  (∀ s, money_symbol s → supply s d ≤ HIVE_MAX_SATOSHIS) →
  limit_orders d' !! n = Some o' → limit_orders d' !! j = Some p' → j ≠ n → ¬ crosses o' p'.
Proof using All.
  intros Hsup Ho' Hp' Hj Hc.
  destruct (worked_origin n o' Ho') as [[_ Hr]|[? _]]; [|done].
  destruct (worked_origin j p' Hp') as [[? _]|(_ & p & Hpj & Hrp)]; [done|].
  apply (crosses_reduced _ _ _ Hr), crosses_sym, (crosses_reduced _ _ _ Hrp), crosses_sym in Hc.
  destruct (wk_new _ _ _ _ _ Hwk) as [Hn|Hn]; [congruence|].
  pose proof (in_placing_range j p Hsup Hpj Hc) as Hin.
  rewrite (Hn j) in Hp'; [done|]. by apply (list_elem_of_fmap_2 fst _ (j, p)).
Qed.

Lemma worked_uncrossed :
  uncrossed (limit_orders d) → (∀ s, money_symbol s → supply s d ≤ HIVE_MAX_SATOSHIS) →
  uncrossed (limit_orders d').
Proof using All.
  intros Hun Hsup i j o' p' Ho' Hp' Hc.
  destruct (decide (i = n)) as [->|Hi], (decide (j = n)) as [->|Hj].
  - simplify_eq. apply (not_crosses_self o'); [|done].
    apply (ok_price _ _ _ _ (sh_orders d' (wk_shape _ _ _ _ _ Hwk) _ _ Ho')).
  - by apply (worked_new_uncrossed j o' p').
  - apply crosses_sym in Hc. by apply (worked_new_uncrossed i p' o').
  - destruct (worked_origin i o' Ho') as [[? _]|(_ & o & Ho & Hr)]; [done|].
    destruct (worked_origin j p' Hp') as [[? _]|(_ & p & Hpj & Hrp)]; [done|].
    apply (crosses_reduced _ _ _ Hr), crosses_sym, (crosses_reduced _ _ _ Hrp), crosses_sym in Hc.
    by apply (Hun i j o p).
Qed.

Lemma worked_reports : pushes (fair_report new (limit_orders d)) d d'.
Proof using All.
  eapply pushes_trans; [by apply (pushes_nil _ d d2)|].
  eapply pushes_mono; [|exact (wk_ops _ _ _ _ _ Hwk)].
  intros []; try done. cbn.
  intros (? & ? & ? & ? & ? & ? & i & p & Hi & Hc & ? & ? & ? & ?). do 6 (split; [done|]).
  exists i, p. split; [|done]. apply lookup_insert_Some in Hi as [[_ <-]|[_ Hi]]; [|done].
  by apply not_crosses_self in Hc.
Qed.

Lemma worked_placed : placed new d d'.
Proof using All.
  split; [apply worked_money_ok| |apply worked_reports| | | | |apply worked_uncrossed].
  - intros s Hsym. by rewrite (wk_gap _ _ _ _ _ Hwk), placing_gap.
  - intros i o' Hi Ho'. destruct (worked_origin i o' Ho') as [[? _]|[_ ?]]; done.
  - intros o' Ho'. destruct (worked_origin n o' Ho') as [[_ ?]|[? _]]; done.
  - intros i o Ho Hnc. pose proof (placing_fresh i o Ho) as Hi.
    rewrite (wk_others _ _ _ _ _ Hwk) by (done || intros (p & Hpi & Hc & _)%range_crosses; congruence).
    by rewrite placing_orders, lookup_insert_ne.
  - intros i j o p Ho Hpj Hco Hcp Hpr Hsup Hch.
    destruct (priority_position (limit_orders d2) new i j o p) as (a & b & Ha & Hb & Hab);
      [|by apply in_placing_range..|done|done|done|].
    { intros k q Hk. apply (ok_price _ _ _ _ (sh_orders d2 placing_shape _ _ Hk)). }
    apply (wk_priority _ _ _ _ _ Hwk a b i j Ha Hb Hab).
    rewrite placing_orders, (lookup_insert_ne _ n j) by (apply not_eq_sym, (placing_fresh j p); done).
    by rewrite Hpj.
Qed.

End placing.

Lemma place_order_exact owner id a p kill expiration d :
  money_ok d → symbol a = symbol (base p) → valid_price p → 0 < amount a →
  0 < amount a * amount (quote p) / amount (base p) ≤ i64_max → placeable owner id a d →
  ∃ d', placed (LimitOrder (head_block_time d) expiration owner id (amount a) p) d d' ∧
    place_order owner id a (Ok p) kill expiration d =
      if kill && negb (bool_decide (limit_orders d' !! next_order_id d = None))
      then Throw (assert_exception "Cancelling order because it was not filled.") else Ok d'.
Proof.
  intros Hd Hsym Hp Ha Hdue [Hs (w & Hw & Hpay) Hbook].
  set (new := LimitOrder (head_block_time d) expiration owner id (amount a) p).
  assert (symbol a = sells new) as Hsn by done.
  assert (money_symbol (sells new)) as Hms by by rewrite <- Hsn.
  rewrite Hsn in Hpay. pose proof (money_shape d Hd) as Hsh.
  destruct (apply_order_exact (next_order_id d) new (booked new (put owner (sells new) (- amount a) d)))
    as (d' & E & Hwk).
  - by apply (placing_shape d Hd new w).
  - apply lookup_insert_eq.
  - intros s Hsy. by apply (placing_held d Hd new w).
  - exists d'. split; [by apply (worked_placed d Hd new w)|].
    pose proof (held_wallet d Hsh _ _ (sells new) Hw). pose proof (wallet_nonneg d Hsh _ _ (sells new) Hw).
    pose proof (money_gap d Hd _ Hms). pose proof (money_supply d Hd _ Hms). unfold gap in *.
    unfold place_order. rewrite asset_neg_eq by (unfold i64_min; lia). cbn [mbind result_bind].
    rewrite (adjust_balance_Ok d (sh_hardfork d Hsh) owner (Asset (- amount a) (symbol a)) Hs w)
      by (cbn [symbol amount]; rewrite ?Hsn; unfold i64_min, i64_max in *; done || lia).
    cbn [mbind result_bind symbol amount]. unfold create_order.
    rewrite Hsym, symbol_eqb_refl. cbn [fc_assert mbind result_bind].
    rewrite decide_False by (cbn; rewrite Hbook; by intros [? ?]).
    cbn [mbind result_bind].
    match goal with |- context [apply_order ?i ?x] =>
      change (apply_order i x) with
        (apply_order (next_order_id d) (booked new (put owner (sells new) (- amount a) d)))
    end.
    rewrite E. cbn [mbind result_bind]. destruct kill; [|done]. by case_bool_decide.
Qed.

(** A refused placement. *)
Lemma adjust_balance_debit_symbol n a d d' :
  amount a < 0 → adjust_balance n a d = Ok d' → money_symbol (symbol a).
Proof.
  intros Ha. unfold adjust_balance. intros (w & _ & (u & H & _)%bind_Ok)%bind_Ok.
  rewrite (proj2 (Z.ltb_lt (amount a) 0)) in H by done.
  apply bind_Ok in H as (b & H & _). unfold get_balance in H.
  rewrite symbol_num_hive, symbol_num_hbd in H.
  destruct (bool_decide (symbol a = HIVE_SYMBOL)) eqn:E1; [apply bool_decide_eq_true in E1; by left|].
  destruct (bool_decide (symbol a = HBD_SYMBOL)) eqn:E2; [apply bool_decide_eq_true in E2; by right|done].
Qed.

Lemma place_order_refused owner id a p kill expiration d d' :
  money_ok d → 0 < amount a ≤ i64_max → place_order owner id a p kill expiration d = Ok d' →
  placeable owner id a d.
Proof.
  intros Hd Ha. unfold place_order. rewrite asset_neg_eq by (unfold i64_min; lia).
  cbn [mbind result_bind]. intros (d1 & Hadj & (pr & _ & ([i d2] & Hc & _)%bind_Ok)%bind_Ok)%bind_Ok.
  assert (money_symbol (symbol a)) as Hs.
  { eapply (adjust_balance_debit_symbol owner (Asset (- amount a) (symbol a))); [cbn; lia|exact Hadj]. }
  apply adjust_balance_inv in Hadj as (w & Hw & Hpos & ->); [|apply (sh_hardfork d (money_shape d Hd))|done].
  cbn in Hpos. split; [done|exists w; split; [done|lia]|].
  unfold create_order in Hc. apply bind_Ok in Hc as (? & _ & (? & Hf & _)%bind_Ok).
  case_decide as Hdec; [done|]. by apply eq_None_not_Some.
Qed.

(** ** The two evaluators *)

Inductive order_request : Set :=
| create_request (o : limit_order_create_operation)
| create2_request (o : limit_order_create2_operation).

Definition request_owner (r : order_request) : string :=
  match r with
  | create_request o => limit_order_create_owner o
  | create2_request o => limit_order_create2_owner o
  end.
Definition request_id (r : order_request) : Z :=
  match r with
  | create_request o => limit_order_create_orderid o
  | create2_request o => limit_order_create2_orderid o
  end.
Definition request_amount (r : order_request) : asset :=
  match r with
  | create_request o => limit_order_create_amount_to_sell o
  | create2_request o => limit_order_create2_amount_to_sell o
  end.
Definition request_price (r : order_request) : price :=
  match r with
  | create_request o =>
      Price (limit_order_create_amount_to_sell o) (limit_order_create_min_to_receive o)
  | create2_request o => limit_order_create2_exchange_rate o
  end.
Definition request_expiration (r : order_request) : time_point_sec :=
  match r with
  | create_request o => limit_order_create_expiration o
  | create2_request o => limit_order_create2_expiration o
  end.
Definition request_kill (r : order_request) : bool :=
  match r with
  | create_request o => limit_order_create_fill_or_kill o
  | create2_request o => limit_order_create2_fill_or_kill o
  end.

Definition evaluate_request (r : order_request) (d : money_state) : result money_state :=
  match r with
  | create_request o => limit_order_create_evaluator o d
  | create2_request o => limit_order_create2_evaluator o d
  end.

Definition validate_request (r : order_request) : result unit :=
  match r with
  | create_request o => validate_limit_order_create o
  | create2_request o => validate_limit_order_create2 o
  end.

(** An assumption on the requests of the theorems below, not part of the code: a validated
    operation, with the amounts in the range of their type, that sells a positive amount.  The
    last follows from [validate] for [limit_order_create_operation], but is an assumption for
    [limit_order_create2_operation], see [negative_order_accepted] of MoneyOps. *)
Record valid_request (r : order_request) : Prop := {
  rq_validate : validate_request r = Ok tt;
  rq_positive : match r with
                | create_request _ => True
                | create2_request o => 0 < amount (limit_order_create2_amount_to_sell o)
                end;
  rq_amount : amount (request_amount r) ≤ i64_max;
  rq_base : amount (base (request_price r)) ≤ i64_max;
  rq_quote : amount (quote (request_price r)) ≤ i64_max
}.

(** The order that is booked. *)
Definition requested (r : order_request) (d : money_state) : limit_order_object :=
  LimitOrder (head_block_time d) (request_expiration r) (request_owner r) (request_id r)
    (amount (request_amount r)) (request_price r).

Lemma valid_request_price r :
  valid_request r →
  symbol (request_amount r) = symbol (base (request_price r)) ∧ valid_price (request_price r) ∧
  0 < amount (request_amount r) * amount (quote (request_price r))
      / amount (base (request_price r)) ≤ i64_max.
Proof.
  intros [Hv Hpo Ha Hb Hq]. destruct r as [o|o]; cbn [request_amount request_price validate_request] in *.
  - unfold validate_limit_order_create in Hv.
    apply bind_Ok in Hv as (? & _ & (? & _ & (p & [-> _]%make_price_Ok & Hp)%bind_Ok)%bind_Ok).
    apply price_validate_Ok in Hp; [|done|done]. split_and!; [done|done| |];
      destruct Hp as [Hpb Hpq _]; cbn in *; rewrite Z.mul_comm, Z.div_mul by lia; lia.
  - unfold validate_limit_order_create2 in Hv.
    apply bind_Ok in Hv as (? & _ & (? & Hs%fc_assert_Ok & (? & Hp & (? & _ & (t & Ht & Hpos)%bind_Ok)%bind_Ok)%bind_Ok)%bind_Ok).
    apply symbol_eqb_spec in Hs. apply price_validate_Ok in Hp; [|done|done].
    apply fc_assert_Ok in Hpos. bool_to_prop. do 2 (split; [done|]).
    pose proof (asset_mul_price_nonneg_inv _ _ _ _ _ Hp (oriented_base _) Hs ltac:(lia) Ht ltac:(lia)) as Hle.
    rewrite (asset_mul_price_nonneg _ _ _ _ Hp (oriented_base _) Hs) in Ht by lia.
    injection Ht as <-. cbn in Hpos. lia.
Qed.

Lemma valid_request_amount r : valid_request r → 0 < amount (request_amount r) ≤ i64_max.
Proof.
  intros Hr. destruct (valid_request_price r Hr) as (_ & [Hb _ _] & _). destruct Hr as [_ Hpo Ha _ _].
  destruct r as [o|o]; cbn in *; lia.
Qed.

(** When the evaluators accept. *)
Record acceptable (r : order_request) (d : money_state) : Prop := {
  ac_expiration : head_block_time d < request_expiration r
                  ≤ u32 (head_block_time d + HIVE_MAX_LIMIT_ORDER_EXPIRATION);
  ac_placeable : placeable (request_owner r) (request_id r) (request_amount r) d
}.

Lemma order_expiration_eq x e d :
  HIVE_HARDFORK_1_25 < processed_hardforks d →
  head_block_time d < e ≤ u32 (head_block_time d + HIVE_MAX_LIMIT_ORDER_EXPIRATION) →
  order_expiration x e d = Ok e.
Proof.
  intros Hhf He. unfold order_expiration. rewrite (current_hardforks HIVE_HARDFORK_0_20) by done.
  replace (_ <? _) with true by (symmetry; bool_to_prop; lia).
  by replace (_ <=? _) with true by (symmetry; bool_to_prop; lia).
Qed.

Lemma order_expiration_inv x e d e' :
  HIVE_HARDFORK_1_25 < processed_hardforks d → order_expiration x e d = Ok e' →
  e' = e ∧ head_block_time d < e ≤ u32 (head_block_time d + HIVE_MAX_LIMIT_ORDER_EXPIRATION).
Proof.
  intros Hhf. unfold order_expiration. rewrite (current_hardforks HIVE_HARDFORK_0_20) by done.
  intros (? & H1%fc_assert_Ok & (? & H2%fc_assert_Ok & [= <-])%bind_Ok)%bind_Ok. bool_to_prop. lia.
Qed.

(** The evaluators differ in the price they are given and in an offset that is not used since
    hardfork 20. *)
Lemma evaluate_request_eq r d :
  valid_request r → ∃ offset,
  evaluate_request r d =
    (e ← order_expiration offset (request_expiration r) d;
     place_order (request_owner r) (request_id r) (request_amount r) (Ok (request_price r))
       (request_kill r) e d).
Proof.
  intros Hr. destruct (valid_request_price r Hr) as (_ & Hp & _).
  destruct r as [o|o]; [|by exists 0]. exists (head_block_hash d mod 86400).
  cbn -[get_price]. unfold limit_order_create_evaluator.
  unfold get_price. by rewrite make_price_valid.
Qed.

Lemma evaluate_request_exact r d :
  valid_request r → money_ok d → acceptable r d →
  ∃ d', placed (requested r d) d d' ∧
    evaluate_request r d =
      if request_kill r && negb (bool_decide (limit_orders d' !! next_order_id d = None))
      then Throw (assert_exception "Cancelling order because it was not filled.") else Ok d'.
Proof.
  intros Hr Hd [Hexp Hpl]. destruct (valid_request_price r Hr) as (Hs & Hp & Hdue).
  destruct (evaluate_request_eq r d Hr) as (x & ->).
  rewrite order_expiration_eq by (done || apply (sh_hardfork d (money_shape d Hd))).
  cbn [mbind result_bind]. apply place_order_exact; try done. by apply valid_request_amount.
Qed.

Lemma evaluate_request_refused r d d' :
  valid_request r → money_ok d → evaluate_request r d = Ok d' → acceptable r d.
Proof.
  intros Hr Hd. destruct (evaluate_request_eq r d Hr) as (x & ->).
  intros (e & [-> He]%order_expiration_inv & Hpl)%bind_Ok; [|apply (sh_hardfork d (money_shape d Hd))].
  split; [done|]. eapply place_order_refused; [done|by apply valid_request_amount|done].
Qed.

(** C40. Placing an order never fails in the matching and serves the book fairly.  A valid
    order is refused exactly when it expires too early or too late, when its owner is unknown
    or does not have the amount, or when the owner has an order of that number.  Otherwise the
    orders that it can be matched with are taken by price and then by age: an order is touched
    only when every one that precedes it is gone.  In every reported trade both sides receive
    at least what they ask for what they pay, and orders that do not meet the new price stay
    as they are.  Nothing is created or lost, balances stay non-negative, and if no two orders
    of the book could be matched before, no two can after.  A fill-or-kill order is refused
    when a part of it is left. *)
Theorem limit_order_matching (r : order_request) (d : money_state) :
  valid_request r → money_ok d → uncrossed (limit_orders d) →
  (∀ s, money_symbol s → supply s d ≤ HIVE_MAX_SATOSHIS) →
  (¬ acceptable r d → is_ok (evaluate_request r d) = false) ∧
  (acceptable r d → ∃ d',
     placed (requested r d) d d' ∧ uncrossed (limit_orders d') ∧
     evaluate_request r d =
       if request_kill r && negb (bool_decide (limit_orders d' !! next_order_id d = None))
       then Throw (assert_exception "Cancelling order because it was not filled.") else Ok d').
Proof.
  intros Hr Hd Hun Hsup. split.
  - intros Hna. destruct (evaluate_request r d) as [d'|] eqn:E; [|done].
    by apply evaluate_request_refused in E.
  - intros Hac. destruct (evaluate_request_exact r d Hr Hd Hac) as (d' & Hpl & E).
    exists d'. split_and!; [done| |done]. by apply (pl_uncrossed _ _ _ Hpl).
Qed.

(** ** A small market *)

Definition sample_wallet (hive hbd : Z) : wallet := Wallet hive hbd 0 0 0 0 0 0 0 0 0 0.

Definition sample_order (n : string) (id hbd hive : Z) : limit_order_object :=
  LimitOrder 1600000000 1600086400 n id hbd (Price (Asset hbd HBD_SYMBOL) (Asset hive HIVE_SYMBOL)).

(** Two accounts sell HBD, [bob] at the better price. *)
Definition sample_market : money_state :=
  MoneyState
    (<["alice" := sample_wallet 1000 0]> (<["bob" := sample_wallet 0 50]>
      (<["carol" := sample_wallet 0 0]> (<["hive.fund" := sample_wallet 0 0]> ∅))))
    (<[1 := sample_order "bob" 7 100 200]> (<[0 := sample_order "carol" 1 100 250]> ∅)) 2 ∅ ∅
    5000 1000 10000 0 0 (Price (Asset 1 HBD_SYMBOL) (Asset 3 HIVE_SYMBOL)) 50000000 1600003000 0 27 [].

(** [alice] sells 300 HIVE for at least 110 HBD. *)
Definition sample_request : order_request :=
  create_request (Build_limit_order_create_operation "alice" 3 (Asset 300 HIVE_SYMBOL)
    (Asset 110 HBD_SYMBOL) false 1600010000).

(** Case analysis of a lookup in a map given by insertions. *)
Ltac lookup_cases H :=
  repeat (apply lookup_insert_Some in H as [[<- <-]|[_ H]]; [|]); try by rewrite lookup_empty in H.

Lemma sample_market_shape : shape sample_market.
Proof.
  split; cbn [wallets limit_orders savings_withdraws next_order_id processed_hardforks sample_market].
  - by vm_compute.
  - intros n w H. lookup_cases H; intros s; unfold liquid, saved; case_decide; cbn; lia.
  - intros i o H. lookup_cases H.
    + split; cbn -[i64_max]; [lia|by vm_compute; eexists|auto|split; by vm_compute|lia|by vm_compute].
    + split; cbn -[i64_max]; [lia|by vm_compute; eexists|auto|split; by vm_compute|lia|by vm_compute].
  - intros i j o p Hi Hj Hs _. lookup_cases Hi; lookup_cases Hj; done.
  - intros k x H. by rewrite lookup_empty in H.
  - intros n w H. unfold pending. rewrite map_sum_empty. lookup_cases H; by vm_compute.
Qed.

Lemma sample_market_ok : money_ok sample_market.
Proof.
  split; [apply sample_market_shape| | |].
  - intros s [-> | ->]; by vm_compute.
  - intros s [-> | ->]; by vm_compute.
  - right. split_and!; [split|..]; by vm_compute.
Qed.

Lemma sample_uncrossed : uncrossed (limit_orders sample_market).
Proof. intros i j o p Hi Hj (H & _). cbn in Hi, Hj. lookup_cases Hi; lookup_cases Hj; done. Qed.

Lemma limit_order_matching_witness :
  ∃ d', placed (requested sample_request sample_market) sample_market d' ∧
    uncrossed (limit_orders d') ∧ evaluate_request sample_request sample_market = Ok d'.
Proof.
  destruct (limit_order_matching sample_request sample_market) as [_ H].
  - split; by vm_compute.
  - apply sample_market_ok.
  - apply sample_uncrossed.
  - intros s [-> | ->]; by vm_compute.
  - apply H. split; [by vm_compute|]. split; [by left| |by vm_compute].
    exists (sample_wallet 1000 0). split; by vm_compute.
Defined.
