(* ===== verification/MoneyOps.v ===== *)
(** * MoneyOps

    Transfers, savings and orders conserve money: the operations of Balances and Market keep
    the invariant of MoneyBooks and the part of the supply that users do not hold, and the
    work at the end of a block never throws. *)

From S2P Require Import Prelude Safe AssetSymbol Asset OperationTypes Operations Balances Market.
From S2P Require Import MoneyBooks MarketBooks SavingsBooks Matching.
Open Scope Z_scope.

Definition conserves (d d' : money_state) : Prop :=
  money_ok d' ∧ ∀ s, money_symbol s → gap s d' = gap s d.

Lemma conserves_refl d : money_ok d → conserves d d.
Proof. by split. Qed.

Lemma conserves_trans d1 d2 d3 : conserves d1 d2 → conserves d2 d3 → conserves d1 d3.
Proof. intros [_ H1] [H2 H3]. split; [done|]. intros s Hs. by rewrite H3, H1. Qed.

Lemma feed_ok_mono d d' :
  current_median_history d' = current_median_history d → current_supply d' ≤ current_supply d →
  feed_ok d → feed_ok d'.
Proof.
  intros Hm Hs [H|(Hp & Hb & Hq & Hv)]; unfold feed_ok; rewrite Hm; [by left|right].
  split_and!; [done..|]. etrans; [|exact Hv]. destruct Hp as [Hpb Hpq _].
  apply Z.div_le_mono; [lia|]. nia.
Qed.

Lemma conserves_intro d d' :
  money_ok d → shape d' → (∀ s, money_symbol s → gap s d' = gap s d) → supply_ok d' →
  current_median_history d' = current_median_history d → current_supply d' ≤ current_supply d →
  conserves d d'.
Proof.
  intros Hd Hsh Hg Hok Hm Hs. split; [|done]. split; [done| | |].
  - intros s Hsym. rewrite Hg by done. by apply (money_gap d Hd).
  - intros s Hsym. by apply Hok.
  - apply (feed_ok_mono d); [done..|apply (money_feed d Hd)].
Qed.

Lemma supply_same_ok d d' : (∀ s, supply s d' = supply s d) → supply_ok d → supply_ok d'.
Proof. intros H Hok s Hs. rewrite H. by apply Hok. Qed.

Lemma supply_hive d d' : (∀ s, supply s d' = supply s d) → current_supply d' = current_supply d.
Proof. intros H. pose proof (H HIVE_SYMBOL) as E. unfold supply in E. by rewrite !decide_True in E. Qed.

Lemma balance_fits d n w s :
  money_ok d → money_symbol s → wallets d !! n = Some w → liquid s w ≤ supply s d ≤ i64_max.
Proof.
  intros Hd Hs Hw. pose proof (held_wallet d (money_shape d Hd) n w s Hw).
  pose proof (wallet_nonneg d (money_shape d Hd) n w s Hw).
  pose proof (money_gap d Hd s Hs). pose proof (money_supply d Hd s Hs). unfold gap in *. lia.
Qed.

(** ** Transfers *)

(** The debit with which the operations begin. *)
Lemma debit_step n a minus d d' :
  shape d → 0 < amount a ≤ i64_max → asset_neg a = Ok minus → adjust_balance n minus d = Ok d' →
  money_symbol (symbol a) ∧ symbol minus = symbol a ∧ amount minus = - amount a ∧
  shape d' ∧ kept d d' ∧ moved minus d d' ∧ (∀ s, supply s d' = supply s d) ∧
  ∃ w, wallets d !! n = Some w ∧ amount a ≤ liquid (symbol a) w.
Proof.
  intros Hd Ha Hneg Hadj. rewrite asset_neg_eq in Hneg by (unfold i64_min; lia). injection Hneg as <-.
  assert (money_symbol (symbol a)) as Hs.
  { apply (adjust_balance_debit_symbol n (Asset (- amount a) (symbol a)) d d'); [cbn; lia|done]. }
  destruct (adjust_balance_step n (Asset (- amount a) (symbol a)) d d' Hd Hs Hadj) as (H1 & H2 & H3 & H4 & w & Hw & H5).
  cbn in H5. split_and!; [done..|]. exists w. split; [done|lia].
Qed.

Lemma plain_transfer_conserves from to a minus d d1 d2 :
  money_ok d → 0 < amount a ≤ i64_max → asset_neg a = Ok minus →
  adjust_balance from minus d = Ok d1 → adjust_balance to a d1 = Ok d2 → conserves d d2.
Proof.
  intros Hd Ha Hneg H1 H2.
  destruct (debit_step _ _ _ _ _ (money_shape d Hd) Ha Hneg H1)
    as (Hs & Hsm & Ham & Hsh1 & Hk1 & Hm1 & Hs1 & _).
  destruct (adjust_balance_step _ _ _ _ Hsh1 Hs H2) as (Hsh2 & Hk2 & Hm2 & Hs2 & _).
  assert (∀ s, supply s d2 = supply s d) as Hsup by (intros s; by rewrite Hs2, Hs1).
  apply conserves_intro; [done|done| | | |].
  - intros s Hsym. rewrite (Hm2 s), (Hm1 s), Hsm, Ham by done. case_decide; lia.
  - by apply (supply_same_ok d), money_supply_ok.
  - by rewrite (kp_median _ _ Hk2), (kp_median _ _ Hk1).
  - rewrite (supply_hive d d2) by done. done.
Qed.

(** HIVE sent to the treasury becomes HBD. *)
Lemma treasury_value d a w b n :
  money_ok d → is_null (current_median_history d) = false → symbol a = HIVE_SYMBOL →
  0 < amount a ≤ liquid HIVE_SYMBOL w → wallets d !! n = Some w →
  asset_mul_price a (current_median_history d) = Ok b →
  symbol b = HBD_SYMBOL ∧ 0 ≤ amount b ≤ i64_max.
Proof.
  intros Hd Hnull Hs Ha Hw Hb. destruct (balance_fits d n w HIVE_SYMBOL Hd ltac:(auto) Hw) as [Hl Hmax].
  destruct (money_feed d Hd) as [|(Hp & Hbs & Hqs & Hv)]; [congruence|].
  pose proof Hp as [Hpb Hpq _]. unfold supply in Hl, Hmax. rewrite decide_True in Hl, Hmax by done.
  assert (amount a * amount (base (current_median_history d)) / amount (quote (current_median_history d))
          ≤ i64_max) as Hle.
  { etrans; [|exact Hv]. apply Z.div_le_mono; nia. }
  rewrite (asset_mul_price_nonneg a _ _ _ Hp (oriented_quote _)) in Hb; [|congruence|lia|done].
  injection Hb as <-. cbn. split; [done|]. split; [|done]. apply Z.div_pos; nia.
Qed.

Lemma treasury_transfer_conserves from to a minus b d d1 d2 d3 d4 :
  money_ok d → symbol a = HIVE_SYMBOL → 0 < amount a ≤ i64_max →
  is_null (current_median_history d) = false → asset_mul_price a (current_median_history d) = Ok b →
  asset_neg a = Ok minus → adjust_balance from minus d = Ok d1 → adjust_balance to b d1 = Ok d2 →
  adjust_supply minus false d2 = Ok d3 →
  (if 0 <? amount b then adjust_supply b false d3 else Ok d3) = Ok d4 → conserves d d4.
Proof.
  intros Hd Hsa Ha Hnull Hb Hneg H1 H2 H3 H4.
  destruct (debit_step _ _ _ _ _ (money_shape d Hd) Ha Hneg H1)
    as (Hs & Hsm & Ham & Hsh1 & Hk1 & Hm1 & Hs1 & w & Hw & Hpay).
  rewrite Hsa in Hpay. destruct (treasury_value d a w b from Hd Hnull Hsa ltac:(lia) Hw Hb) as [Hsb Hbr].
  assert (money_symbol (symbol b)) as Hmb by (rewrite Hsb; auto).
  destruct (adjust_balance_step _ _ _ _ Hsh1 Hmb H2) as (Hsh2 & Hk2 & Hm2 & Hs2 & _).
  assert (supply_ok d2) as Hok2.
  { apply (supply_same_ok d1); [done|]. by apply (supply_same_ok d), money_supply_ok. }
  destruct (adjust_supply_inv minus d2 d3 Hok2) as (_ & Hk3 & Hw3 & Hok3 & Hs3);
    [unfold i64_min, i64_max in *; lia|done|].
  assert (kept d3 d4 ∧ wallets d4 = wallets d3 ∧ supply_ok d4 ∧
    ∀ s, money_symbol s → supply s d4 = supply s d3 + (if decide (s = symbol b) then amount b else 0))
    as (Hk4 & Hw4 & Hok4 & Hs4).
  { destruct (Z.ltb_spec 0 (amount b)).
    - apply adjust_supply_inv in H4 as (_ & ? & ? & ? & ?); [done|done|unfold i64_min; lia].
    - injection H4 as <-. split_and!; [done..|]. intros s Hsym. case_decide; lia. }
  assert (kept d2 d4) as Hk by by etrans.
  assert (shape d4) as Hsh4.
  { apply (shape_kept d2); [done..|]. rewrite Hw4, Hw3. intros n v Hv.
    split; [by apply (sh_wallets d2 Hsh2 n v)|by exists v]. }
  assert (∀ s, money_symbol s → held s d4 = held s d2) as Hheld.
  { intros s _. unfold held. by rewrite Hw4, Hw3, (kp_orders _ _ Hk), (kp_withdraws _ _ Hk). }
  apply conserves_intro; [done|done| |done| |].
  - intros s Hsym. pose proof (Hm1 s Hsym) as G1. pose proof (Hm2 s Hsym) as G2. unfold gap in *.
    rewrite Hheld, Hs4, Hs3 by done. rewrite Hsm, Ham in *. repeat case_decide; lia.
  - by rewrite (kp_median _ _ Hk), (kp_median _ _ Hk2), (kp_median _ _ Hk1).
  - pose proof (Hs3 HIVE_SYMBOL ltac:(auto)) as E3. pose proof (Hs4 HIVE_SYMBOL ltac:(auto)) as E4.
    pose proof (Hs2 HIVE_SYMBOL) as E2. pose proof (Hs1 HIVE_SYMBOL) as E1.
    unfold supply in E1, E2, E3, E4. rewrite !(decide_True (P := HIVE_SYMBOL = HIVE_SYMBOL)) in E1, E2, E3, E4 by done.
    rewrite Hsm, Hsa, Ham, decide_True in E3 by done. rewrite Hsb, decide_False in E4 by done. lia.
Qed.

Lemma transfer_conserves o d d' :
  money_ok d → 0 < amount (transfer_amount o) ≤ i64_max → transfer_evaluator o d = Ok d' →
  conserves d d'.
Proof.
  intros Hd Ha. unfold transfer_evaluator.
  destruct (has_hardfork HIVE_HARDFORK_1_24 d && symbol_eqb (symbol (transfer_amount o)) HIVE_SYMBOL
            && is_treasury (transfer_to o)) eqn:Hb.
  - rewrite !andb_true_iff, symbol_eqb_spec in Hb. destruct Hb as [[_ Hs] _].
    intros (? & Hn%fc_assert_Ok & (b & Hmul & (mi & Hneg & (d1 & H1 & (d2 & H2 & H)%bind_Ok)%bind_Ok)%bind_Ok)%bind_Ok)%bind_Ok.
    rewrite Hneg in H. cbn [mbind result_bind] in H.
    apply bind_Ok in H as (d3 & H3 & (d4 & H4 & (hi & _ & (ho & _ & [= <-])%bind_Ok)%bind_Ok)%bind_Ok).
    apply negb_true_iff in Hn.
    destruct (treasury_transfer_conserves (transfer_from o) (transfer_to o) (transfer_amount o) mi b
      d d1 d2 d3 d4) as [[Hsh Hg Hsup Hf] Hgap]; [done..|].
    split; [|done]. split; [by apply shape_push|done..].
  - intros (? & _ & (mi & Hneg & (d1 & H1 & H2)%bind_Ok)%bind_Ok)%bind_Ok.
    by eapply plain_transfer_conserves.
Qed.

(** ** Savings *)

Lemma transfer_to_savings_conserves o d d' :
  money_ok d → 0 < amount (transfer_to_savings_amount o) ≤ i64_max →
  transfer_to_savings_evaluator o d = Ok d' → conserves d d'.
Proof.
  intros Hd Ha. unfold transfer_to_savings_evaluator.
  intros (? & _ & (? & _ & (? & _ & (mi & Hneg & (d1 & H1 & H2)%bind_Ok)%bind_Ok)%bind_Ok)%bind_Ok)%bind_Ok.
  destruct (debit_step _ _ _ _ _ (money_shape d Hd) Ha Hneg H1)
    as (Hs & Hsm & Ham & Hsh1 & Hk1 & Hm1 & Hs1 & _).
  destruct (adjust_savings_step _ _ _ _ Hsh1 H2) as (_ & Hsh2 & Hk2 & Hm2 & Hok2 & Hcs & _).
  apply conserves_intro; [done|done| | | |].
  - intros s Hsym. rewrite (Hm2 s), (Hm1 s), Hsm, Ham by done. case_decide; lia.
  - by apply Hok2, (supply_same_ok d), money_supply_ok.
  - by rewrite (kp_median _ _ Hk2), (kp_median _ _ Hk1).
  - rewrite Hcs, (supply_hive d d1) by done. done.
Qed.

Lemma transfer_from_savings_conserves o d d' :
  money_ok d → 0 < amount (transfer_from_savings_amount o) ≤ i64_max →
  transfer_from_savings_evaluator o d = Ok d' → conserves d d'.
Proof.
  intros Hd Ha. unfold transfer_from_savings_evaluator.
  intros (w & Hw%get_account_Ok & (wt & Hto%get_account_Ok & (? & Hlim%fc_assert_Ok & H)%bind_Ok)%bind_Ok)%bind_Ok.
  apply bind_Ok in H as (? & _ & (? & _ & (? & _ & (? & _ & (mi & Hneg & (d1 & H1 & H)%bind_Ok)%bind_Ok)%bind_Ok)%bind_Ok)%bind_Ok).
  rewrite asset_neg_eq in Hneg by (unfold i64_min; lia). injection Hneg as <-.
  apply bind_Ok in H as (? & Hkey & H). bool_to_prop.
  set (from := transfer_from_savings_from o) in *. set (id := transfer_from_savings_request_id o) in *.
  destruct (decide (is_Some (savings_withdraws d1 !! (from, id)))) as [|Hnone%eq_None_not_Some]; [done|].
  destruct (adjust_savings_step _ _ _ _ (money_shape d Hd) H1) as (Hs & Hsh1 & Hk1 & Hm1 & Hok1 & Hcs & Hreq).
  destruct (Hreq _ _ Hw) as (w1 & Hw1 & Hr1).
  set (swo := SavingsWithdraw _ _ _ _) in H.
  assert (withdraw_ok (wallets d1) (from, id) swo) as Hx.
  { split; [by exists w1|apply (kp_accounts d d1 Hk1); by exists wt|apply Ha|done]. }
  destruct (add_request d1 from id swo w1 Hsh1 Hw1 Hnone Hx) as (Hp & Hsh2 & Hg2); [congruence|].
  destruct (sh_requests d1 Hsh1 _ _ Hw1) as [Hpe _].
  pose proof (pending_nonneg from (savings_withdraws d1)).
  unfold HIVE_SAVINGS_WITHDRAW_REQUEST_LIMIT in *.
  rewrite (count_request d1 from w1 (λ r, r + 1)) in H by (done || unfold u8_max; lia).
  injection H as <-. apply conserves_intro; [done|done| | |by apply (kp_median _ _ Hk1)|].
  - intros s Hsym. rewrite Hg2, (Hm1 s) by done. unfold withdrawn. cbn [sw_amount swo symbol amount].
    repeat case_decide; congruence || lia.
  - by apply (supply_same_ok d1); [|apply Hok1, money_supply_ok].
  - cbn. lia.
Qed.

Lemma cancel_transfer_from_savings_conserves o d d' :
  money_ok d → cancel_transfer_from_savings_evaluator o d = Ok d' → conserves d d'.
Proof.
  intros Hd. unfold cancel_transfer_from_savings_evaluator.
  set (from := cancel_transfer_from_savings_from o). set (id := cancel_transfer_from_savings_request_id o).
  intros (x & Hx%from_option_or_Ok & (d1 & H1 & H)%bind_Ok)%bind_Ok.
  destruct (adjust_savings_step _ _ _ _ (money_shape d Hd) H1) as (Hs & Hsh1 & Hk1 & Hm1 & Hok1 & Hcs & Hreq).
  destruct (sh_withdraws d (money_shape d Hd) _ _ Hx) as [[w Hw] _ _ _].
  destruct (Hreq _ _ Hw) as (w1 & Hw1 & Hr1).
  assert (savings_withdraws d1 !! (from, id) = Some x) as Hx1 by by rewrite (kp_withdraws _ _ Hk1).
  destruct (remove_request d1 from id x w1 Hsh1 Hw1 Hx1) as (Hp & Hlim & Hsh2 & Hg2).
  unfold HIVE_SAVINGS_WITHDRAW_REQUEST_LIMIT in *.
  rewrite (count_request d1 from w1 (λ r, r - 1)) in H by (done || unfold u8_max; lia).
  injection H as <-. apply conserves_intro; [done|done| | |by apply (kp_median _ _ Hk1)|].
  - intros s Hsym. rewrite Hg2, (Hm1 s) by done. unfold withdrawn.
    repeat case_decide; congruence || lia.
  - by apply (supply_same_ok d1); [|apply Hok1, money_supply_ok].
  - cbn. lia.
Qed.

(** ** Work at the end of a block *)

Lemma push_conserves op d d' : conserves d d' → conserves d (push_virtual_operation op d').
Proof. intros [[Hsh Hg Hsup Hf] Hgap]. split; [|done]. split; [by apply shape_push|done..]. Qed.

Lemma fill_withdraw_exact k x d :
  money_ok d → savings_withdraws d !! k = Some x →
  ∃ d', fill_withdraw k x d = Ok d' ∧ conserves d d' ∧
    savings_withdraws d' = delete k (savings_withdraws d) ∧ head_block_time d' = head_block_time d.
Proof.
  intros Hd Hx. destruct k as [from id]. pose proof (money_shape d Hd) as Hsh.
  destruct (sh_withdraws d Hsh _ _ Hx) as [[w Hw] [wt Hwt] Ha Hs]. cbn [fst] in Hw.
  pose proof (held_wallet_withdraw d Hsh _ _ _ _ (symbol (sw_amount x)) Hwt Hx) as Hh.
  unfold withdrawn in Hh. rewrite decide_True in Hh by done.
  pose proof (wallet_nonneg d Hsh _ _ (symbol (sw_amount x)) Hwt).
  pose proof (money_gap d Hd _ Hs). pose proof (money_supply d Hd _ Hs). unfold gap in *.
  unfold fill_withdraw.
  assert (adjust_balance (sw_to x) (sw_amount x) d =
          Ok (put (sw_to x) (symbol (sw_amount x)) (amount (sw_amount x)) d)) as Hadj.
  { apply (adjust_balance_Ok d (sh_hardfork d Hsh) _ _ Hs wt); [done|..];
      unfold i64_min, i64_max in *; lia. }
  destruct (adjust_balance_step _ _ _ _ Hsh Hs Hadj) as (Hsh1 & Hk1 & Hm1 & Hs1 & _).
  rewrite Hadj. cbn [mbind result_bind]. set (d1 := put _ _ _ d) in *.
  destruct (kp_accounts d d1 Hk1 from (ex_intro _ w Hw)) as [w1 Hw1].
  destruct (remove_request d1 from id x w1 Hsh1 Hw1 Hx) as (Hp & Hlim & Hsh2 & Hg2).
  unfold HIVE_SAVINGS_WITHDRAW_REQUEST_LIMIT in *.
  unfold modify_wallet, get_account. cbn [fst snd]. rewrite Hw1. cbn [from_option_or mbind result_bind].
  rewrite u8_id by (unfold u8_max; lia). rewrite <- Hp.
  eexists. split; [done|]. split_and!; [|done|done].
  change (conserves d (push_virtual_operation (op_fill_transfer_from_savings
    (Build_fill_transfer_from_savings_operation from (sw_to x) (sw_amount x) id (sw_memo x)))
    (with_requests from w1 (delete (from, id) (savings_withdraws d1)) d1))).
  apply push_conserves, conserves_intro; [done|done| | |done|done].
  - intros s Hsym. rewrite Hg2, (Hm1 s) by done. unfold withdrawn.
    repeat case_decide; congruence || lia.
  - by apply (supply_same_ok d), money_supply_ok.
Qed.

Lemma withdraw_rounds_exact l : ∀ d,
  money_ok d → NoDup l.*1 → (∀ k x, (k, x) ∈ l → savings_withdraws d !! k = Some x) →
  ∃ d', withdraw_rounds l d = Ok d' ∧ conserves d d'.
Proof.
  induction l as [|[k x] l IH]; intros d Hd Hnd Hl; cbn [withdraw_rounds].
  { exists d. by split; [|apply conserves_refl]. }
  destruct (head_block_time d <? sw_complete x); [exists d; by split; [|apply conserves_refl]|].
  apply NoDup_cons in Hnd as [Hnin Hnd].
  destruct (fill_withdraw_exact k x d Hd) as (d1 & -> & Hc1 & Hw1 & _); [apply Hl; left|].
  cbn [mbind result_bind]. destruct (IH d1) as (d2 & -> & Hc2); [apply Hc1|done| |].
  - intros j y Hj. rewrite Hw1, lookup_delete_ne; [by apply Hl; right|].
    intros ->. apply Hnin. by apply (list_elem_of_fmap_2 fst _ (j, y)).
  - exists d2. split; [done|by eapply conserves_trans].
Qed.

Lemma process_savings_withdraws_exact d :
  money_ok d → ∃ d', process_savings_withdraws d = Ok d' ∧ conserves d d'.
Proof.
  intros Hd. apply withdraw_rounds_exact; [done| |].
  - rewrite merge_sort_Permutation. apply NoDup_fst_map_to_list.
  - intros k x. by rewrite merge_sort_Permutation, elem_of_map_to_list.
Qed.

Lemma cancel_order_conserves i o d :
  money_ok d → limit_orders d !! i = Some o →
  ∃ d', cancel_order i false d = Ok d' ∧ conserves d d' ∧
    limit_orders d' = delete i (limit_orders d).
Proof.
  intros Hd Ho. pose proof (money_shape d Hd) as Hsh.
  pose proof (ok_symbol _ _ _ _ (sh_orders d Hsh i o Ho)) as Hs.
  exists (cancelled i o d). split_and!; [|split; [|by intros s; apply gap_cancelled]|done].
  - apply cancel_order_exact; [done..|].
    pose proof (money_gap d Hd _ Hs). pose proof (money_supply d Hd _ Hs). unfold gap in *. lia.
  - pose proof (frame_cancelled i o d) as Hfr. split.
    + by apply shape_cancelled.
    + intros s Hsym. rewrite gap_cancelled by done. by apply (money_gap d Hd).
    + intros s Hsym. rewrite (frame_supply d) by done. by apply (money_supply d Hd).
    + apply (frame_feed d); [done|apply (money_feed d Hd)].
Qed.

Lemma cancel_expired_exact now l : ∀ d,
  money_ok d → NoDup l.*1 → (∀ i o, (i, o) ∈ l → limit_orders d !! i = Some o) →
  ∃ d', cancel_expired now l d = Ok d' ∧ conserves d d'.
Proof.
  induction l as [|[i o] l IH]; intros d Hd Hnd Hl; cbn [cancel_expired].
  { exists d. by split; [|apply conserves_refl]. }
  destruct (lo_expiration o <? now); [|exists d; by split; [|apply conserves_refl]].
  apply NoDup_cons in Hnd as [Hnin Hnd].
  destruct (cancel_order_conserves i o d Hd) as (d1 & -> & Hc1 & Ho1); [apply Hl; left|].
  cbn [mbind result_bind]. destruct (IH d1) as (d2 & -> & Hc2); [apply Hc1|done| |].
  - intros j p Hj. rewrite Ho1, lookup_delete_ne; [by apply Hl; right|].
    intros ->. apply Hnin. by apply (list_elem_of_fmap_2 fst _ (j, p)).
  - exists d2. split; [done|by eapply conserves_trans].
Qed.

Lemma clear_expired_orders_exact d :
  money_ok d → ∃ d', clear_expired_orders d = Ok d' ∧ conserves d d'.
Proof.
  intros Hd. apply cancel_expired_exact; [done| |].
  - rewrite merge_sort_Permutation. apply NoDup_fst_map_to_list.
  - intros i o. by rewrite merge_sort_Permutation, elem_of_map_to_list.
Qed.

(** ** Histories *)

(** The head block that the next calls see. *)
Definition next_block (number time hash : Z) (d : money_state) : money_state :=
  MoneyState (wallets d) (limit_orders d) (next_order_id d) (savings_withdraws d)
    (liquidity_rewards d) (current_supply d) (current_hbd_supply d) (virtual_supply d)
    (total_vesting_fund_hive d) (hbd_interest_rate d) (current_median_history d)
    number time hash (processed_hardforks d) (virtual_ops d).

Inductive money_call : Set :=
| call_transfer (o : transfer_operation)
| call_transfer_to_savings (o : transfer_to_savings_operation)
| call_transfer_from_savings (o : transfer_from_savings_operation)
| call_cancel_transfer_from_savings (o : cancel_transfer_from_savings_operation)
| call_order (r : order_request)
| call_limit_order_cancel (o : limit_order_cancel_operation)
| call_process_savings_withdraws
| call_clear_expired_orders
| call_next_block (number time hash : Z).

Definition run_call (d : money_state) (c : money_call) : result money_state :=
  match c with
  | call_transfer o => transfer_evaluator o d
  | call_transfer_to_savings o => transfer_to_savings_evaluator o d
  | call_transfer_from_savings o => transfer_from_savings_evaluator o d
  | call_cancel_transfer_from_savings o => cancel_transfer_from_savings_evaluator o d
  | call_order r => evaluate_request r d
  | call_limit_order_cancel o => limit_order_cancel_evaluator o d
  | call_process_savings_withdraws => process_savings_withdraws d
  | call_clear_expired_orders => clear_expired_orders d
  | call_next_block number time hash => Ok (next_block number time hash d)
  end.

(** An assumption on the calls of the theorem below, not part of the code: operations reach
    their evaluators after [validate]; amounts are in the range of their type; and a
    [limit_order_create2_operation] sells a positive amount, which its [validate] does not ask
    for ([valid_request], [negative_order_accepted]). *)
Definition valid_call (c : money_call) : Prop :=
  match c with
  | call_transfer o => validate_transfer o = Ok tt ∧ amount (transfer_amount o) ≤ i64_max
  | call_transfer_to_savings o =>
      validate_transfer_to_savings o = Ok tt ∧ amount (transfer_to_savings_amount o) ≤ i64_max
  | call_transfer_from_savings o =>
      validate_transfer_from_savings o = Ok tt ∧ amount (transfer_from_savings_amount o) ≤ i64_max
  | call_order r => valid_request r
  | _ => True
  end.

Lemma validate_transfer_positive o : validate_transfer o = Ok tt → 0 < amount (transfer_amount o).
Proof.
  unfold validate_transfer. intros (? & _ & (? & _ & (? & _ & (? & _ & (? & H%fc_assert_Ok & _)%bind_Ok)%bind_Ok)%bind_Ok)%bind_Ok)%bind_Ok.
  by bool_to_prop.
Qed.

Lemma validate_savings_positive from to a memo : validate_savings from to a memo = Ok tt → 0 < amount a.
Proof.
  unfold validate_savings. intros (? & _ & (? & _ & (? & H%fc_assert_Ok & _)%bind_Ok)%bind_Ok)%bind_Ok.
  by bool_to_prop.
Qed.

Lemma next_block_conserves number time hash d :
  money_ok d → conserves d (next_block number time hash d).
Proof. intros [[] ? ? ?]. by split; [split; [split|..]|]. Qed.

Lemma run_call_conserves c d d' :
  money_ok d → valid_call c → run_call d c = Ok d' → conserves d d'.
Proof.
  intros Hd Hv. destruct c; cbn [run_call valid_call] in *.
  - destruct Hv as [Hv%validate_transfer_positive Hm]. by apply transfer_conserves.
  - destruct Hv as [Hv%validate_savings_positive Hm]. by apply transfer_to_savings_conserves.
  - destruct Hv as [Hv%validate_savings_positive Hm]. by apply transfer_from_savings_conserves.
  - by apply cancel_transfer_from_savings_conserves.
  - intros E. destruct (evaluate_request_exact r d Hv Hd) as (d1 & Hpl & E1);
      [by eapply evaluate_request_refused|].
    rewrite E1 in E. destruct (_ && _); [done|]. injection E as <-.
    split; [apply Hpl|apply (pl_gap _ _ _ Hpl)].
  - intros (i & Hi & E)%bind_Ok. apply from_option_or_Ok, find_by_account_Some in Hi as (p & Hp & _).
    destruct (cancel_order_conserves i p d Hd Hp) as (d1 & E1 & Hc & _). congruence.
  - intros E. destruct (process_savings_withdraws_exact d Hd) as (d1 & E1 & Hc). congruence.
  - intros E. destruct (clear_expired_orders_exact d Hd) as (d1 & E1 & Hc). congruence.
  - intros [= <-]. by apply next_block_conserves.
Qed.

(** C39. Money is conserved and the work at the end of a block cannot fail.  After any sequence
    of successful transfers, moves to and from savings, orders and cancellations, blocks of
    withdrawals and expirations, all validated and none a [limit_order_create2] of an amount that
    is not positive, for HIVE and for HBD: balances, savings, offered amounts
    and pending withdrawals are non-negative; what users hold has changed by exactly as much as
    the supply, so that nothing is created or lost but the interest on savings and the
    conversion of HIVE sent to the treasury, which change the supply with it; the number of
    pending requests of each account is the one it stores, at most 100; and in the state that
    is reached both [process_savings_withdraws] and [clear_expired_orders], which run outside
    of any transaction, succeed. *)
Theorem money_conserved (calls : list money_call) (d d' : money_state) :
  money_ok d → Forall valid_call calls → foldM run_call d calls = Ok d' →
  money_ok d' ∧
  (∀ s, money_symbol s → held s d' - held s d = supply s d' - supply s d) ∧
  is_ok (process_savings_withdraws d') = true ∧ is_ok (clear_expired_orders d') = true.
Proof.
  intros Hd Hcalls Hrun. assert (conserves d d') as [Hd' Hg].
  { revert d Hd Hrun. induction Hcalls as [|c calls Hc _ IH]; intros d Hd; cbn.
    - intros [= <-]. by apply conserves_refl.
    - intros (d1 & E1 & E2)%bind_Ok. pose proof (run_call_conserves c d d1 Hd Hc E1) as Hc1.
      eapply conserves_trans; [exact Hc1|]. by apply IH; [apply Hc1|]. }
  split; [done|]. split.
  - intros s Hs. pose proof (Hg s Hs). unfold gap in *. lia.
  - destruct (process_savings_withdraws_exact d' Hd') as (d1 & -> & _).
    by destruct (clear_expired_orders_exact d' Hd') as (d2 & -> & _).
Qed.

Definition sample_calls : list money_call := [
  call_transfer (Build_transfer_operation "alice" "bob" (Asset 100 HIVE_SYMBOL) "");
  call_transfer (Build_transfer_operation "alice" "hive.fund" (Asset 30 HIVE_SYMBOL) "");
  call_transfer_to_savings
    (Build_transfer_to_savings_operation "alice" "carol" (Asset 50 HIVE_SYMBOL) "");
  call_transfer_from_savings
    (Build_transfer_from_savings_operation "carol" 9 "alice" (Asset 20 HIVE_SYMBOL) "");
  call_order sample_request;
  call_next_block 50000001 1600900000 0;
  call_process_savings_withdraws;
  call_clear_expired_orders].

Lemma money_conserved_witness :
  ∃ d', foldM run_call sample_market sample_calls = Ok d' ∧ money_ok d' ∧
    held HBD_SYMBOL d' - held HBD_SYMBOL sample_market = 10 ∧
    is_ok (process_savings_withdraws d') = true ∧ is_ok (clear_expired_orders d') = true.
Proof.
  eexists. split; [vm_compute; reflexivity|].
  destruct (money_conserved sample_calls sample_market _ sample_market_ok
    ltac:(repeat (apply Forall_cons; split; [try split; by vm_compute|]); apply Forall_nil; done)
    ltac:(vm_compute; reflexivity)) as (Hok & Hheld & Hp & Hc).
  split; [exact Hok|]. split; [|exact (conj Hp Hc)].
  rewrite (Hheld HBD_SYMBOL (or_intror eq_refl)). by vm_compute.
Defined.

(** [validate] of [limit_order_create2_operation] does not ask for a positive amount: the
    conversion with which it checks that the order is not too small wraps around for some
    negative amounts.  Such an order pays its owner for the order, and when the owner has spent
    it the removal of the expired order throws. *)
Lemma negative_order_accepted :
  let op := Build_limit_order_create2_operation "alice" 4 (Asset (-2) HIVE_SYMBOL) false
              (Price (Asset 1 HIVE_SYMBOL) (Asset i64_max HBD_SYMBOL)) 1600010000 in
  validate_limit_order_create2 op = Ok tt ∧
  ∃ d, limit_order_create2_evaluator op sample_market = Ok d ∧
    balance <$> wallets d !! "alice" = Some 1002 ∧
    ∃ d', transfer_evaluator (Build_transfer_operation "alice" "bob" (Asset 1002 HIVE_SYMBOL) "") d = Ok d' ∧
      is_ok (clear_expired_orders (next_block 50000001 1600020000 0 d')) = false.
Proof.
  split; [by vm_compute|]. eexists. split; [vm_compute; reflexivity|]. split; [by vm_compute|].
  eexists. split; [vm_compute; reflexivity|by vm_compute].
Qed.
