(* ===== verification/ResourceDynamics.v ===== *)
(** * Resource pools

    The pools of limited resources that are refilled by a budget and drained by decay
    (libraries/chain/util/rd.cpp, rd_dynamics.hpp, rd_setup.hpp).

    The size of a pool in balance is shown to be the least one at which decay reaches the
    budget, so that the checks at the end of [rd_setup_dynamics_params] never fail
    ([pool_equilibrium]); an unused pool rises to that size and stays there
    ([pool_recovers]). *)

From S2P Require Import Prelude Safe Operations.
Open Scope Z_scope.

(** ** Parameters *)

Record rd_decay_params : Set := RdDecayParams {
  decay_per_time_unit : Z;               (* uint32_t *)
  decay_per_time_unit_denom_shift : Z    (* uint8_t *)
}.

Record rd_dynamics_params : Set := RdDynamicsParams {
  resource_unit : Z;                     (* uint64_t *)
  budget_per_time_unit : Z;              (* int32_t *)
  pool_eq : Z;                           (* uint64_t *)
  max_pool_size : Z;                     (* uint64_t *)
  decay_params : rd_decay_params;
  min_decay : Z                          (* int64_t *)
}.

Record rd_user_params : Set := RdUserParams {
  user_budget : Z;                       (* int32_t *)
  user_decay : Z                         (* uint32_t *)
}.

Record rd_system_params : Set := RdSystemParams {
  system_resource_unit : Z;              (* uint64_t *)
  system_denom_shift : Z                 (* uint32_t *)
}.

#[export] Instance rd_decay_params_eq_dec : EqDecision rd_decay_params.
Proof. solve_decision. Defined.
#[export] Instance rd_dynamics_params_eq_dec : EqDecision rd_dynamics_params.
Proof. solve_decision. Defined.

(** ** Decay *)

Definition rd_validate_user_params (u : rd_user_params) : result unit :=
  fc_assert (HIVE_RD_MIN_BUDGET <=? user_budget u) "budget_per_time_unit >= HIVE_RD_MIN_BUDGET" ;;
  fc_assert (user_budget u <=? HIVE_RD_MAX_BUDGET) "budget_per_time_unit <= HIVE_RD_MAX_BUDGET" ;;
  fc_assert (HIVE_RD_MIN_DECAY <=? user_decay u) "decay_per_time_unit >= HIVE_RD_MIN_DECAY" ;;
  fc_assert (user_decay u <=? HIVE_RD_MAX_DECAY) "decay_per_time_unit <= HIVE_RD_MAX_DECAY".

(** A shift of a 128-bit value by its width or more is undefined. *)
Definition shiftr128 (x n : Z) : result Z :=
  if n <? 128 then Ok (Z.shiftr x n) else Throw undefined_behaviour.
Definition shiftl128 (x n : Z) : result Z :=
  if n <? 128 then Ok (u128 (Z.shiftl x n)) else Throw undefined_behaviour.

(** The part of [rd_compute_pool_decay] below its early return. *)
Definition decay_of_level (dp : rd_decay_params) (current_pool dt : Z) : result Z :=
  let decay_amount := u128 (u64 (decay_per_time_unit dp * dt)) in
  let decay_amount := u128 (decay_amount * u64 current_pool) in
  decay_amount ← shiftr128 decay_amount (decay_per_time_unit_denom_shift dp);
  res ← uint128_to_uint64 decay_amount;
  Ok (if u64 current_pool <? res then current_pool else i64 res).

(** The recursive call is made on the negation of a negative level, which is positive. *)
Definition rd_compute_pool_decay (dp : rd_decay_params) (current_pool dt : Z) : result Z :=
  if current_pool <? 0 then
    level ← signed64 (- current_pool);
    d ← decay_of_level dp level dt;
    signed64 (- d)
  else decay_of_level dp current_pool dt.

Definition rd_apply (rd : rd_dynamics_params) (pool : Z) : result Z :=
  decay ← rd_compute_pool_decay (decay_params rd) pool 1;
  let budget := budget_per_time_unit rd in
  let max_size := i64 (max_pool_size rd) in
  let decay := Z.max decay (min_decay rd) in
  filled ← signed64 (pool + budget);
  new_pool ← signed64 (filled - decay);
  Ok (Z.max (Z.min new_pool max_size) 0).

(** The lambda [check_pool_eq]: is decay at least the budget at this level? *)
Definition check_pool_eq (dparams : rd_dynamics_params) (pool : Z) : result bool :=
  decay ← rd_compute_pool_decay (decay_params dparams) (i64 pool) 1;
  Ok (budget_per_time_unit dparams <=? decay).

(** [dparams] is the output parameter as it is passed in: its [min_decay] is kept. *)
Definition rd_setup_dynamics_params (u : rd_user_params) (s : rd_system_params)
    (dparams : rd_dynamics_params) : result rd_dynamics_params :=
  fc_assert (system_denom_shift s =? HIVE_RD_DECAY_DENOM_SHIFT)
    "decay_per_time_unit_denom_shift == HIVE_RD_DECAY_DENOM_SHIFT" ;;
  let temp := u128 (user_budget u) in
  temp ← shiftl128 temp (system_denom_shift s);
  let temp := u128 (temp + u32 (user_decay u - 1)) in
  temp ← udiv temp (user_decay u);
  eq ← uint128_to_uint64 temp;
  let out := RdDynamicsParams (system_resource_unit s) (user_budget u) eq eq
    (RdDecayParams (user_decay u) (u8 (system_denom_shift s))) (min_decay dparams) in
  at_eq ← check_pool_eq out (pool_eq out);
  fc_assert at_eq "check_pool_eq( dparams_out, dparams_out.pool_eq )" ;;
  below ← check_pool_eq out (u64 (pool_eq out - 1));
  fc_assert (negb below) "!check_pool_eq( dparams_out, dparams_out.pool_eq-1 )" ;;
  Ok out.

(** ** The pool in balance *)

Section decay.
Context (d : Z) (Hd : 0 ≤ d ≤ u32_max).

Abbreviation dp := (RdDecayParams d HIVE_RD_DECAY_DENOM_SHIFT).

(** At a non-negative level the decay is the exact fraction, rounded down. *)
Lemma decay_exact p : 0 ≤ p ≤ i64_max →
  rd_compute_pool_decay dp p 1 = Ok (d * p / 2 ^ 36) ∧ 0 ≤ d * p / 2 ^ 36 ≤ p.
Proof using Hd.
  intros Hp. limits.
  assert (0 ≤ d * p / 2 ^ 36 ≤ p) as Hq.
  { split; [apply Z.div_pos; lia|]. apply Z.div_le_upper_bound; nia. }
  split; [|done]. unfold rd_compute_pool_decay. rewrite (proj2 (Z.ltb_ge p 0)) by lia.
  unfold decay_of_level. cbn [decay_per_time_unit decay_per_time_unit_denom_shift].
  rewrite Z.mul_1_r, (u64_id d), (u128_id d), (u64_id p), (u128_id (d * p))
    by (limits; nia).
  unfold shiftr128, HIVE_RD_DECAY_DENOM_SHIFT. cbn [Z.ltb Z.compare Pos.compare Pos.compare_cont].
  cbn [mbind result_bind]. rewrite Z.shiftr_div_pow2 by lia.
  rewrite uint128_to_uint64_Ok by (limits; lia). cbn [mbind result_bind].
  rewrite (proj2 (Z.ltb_ge p _)) by lia. f_equal. apply i64_id. limits. lia.
Qed.

End decay.

(** The parameters that [rd_setup_dynamics_params] accepts: a superset of those that
    [rd_validate_user_params] accepts, since the per-witness parameters are scaled from
    validated ones without being validated again. *)
Definition balanced_user (u : rd_user_params) : Prop :=
  1 ≤ user_budget u ≤ i32_max ∧ HIVE_RD_MIN_DECAY ≤ user_decay u ≤ u32_max.

Lemma validated_balanced u x : rd_validate_user_params u = Ok x → balanced_user u.
Proof.
  unfold rd_validate_user_params, balanced_user. intros H. ok_inv H. bool_to_prop.
  unfold HIVE_RD_MIN_BUDGET, HIVE_RD_MAX_DECAY in *.
  change HIVE_RD_MAX_BUDGET with 268435455 in *. limits. lia.
Qed.

(** What the set-up yields. *)
Definition balanced_pool (b d : Z) : Z := (b * 2 ^ 36 + (d - 1)) / d.

Definition balanced_params (unit min_decay : Z) (u : rd_user_params) : rd_dynamics_params :=
  let eq := balanced_pool (user_budget u) (user_decay u) in
  RdDynamicsParams unit (user_budget u) eq eq
    (RdDecayParams (user_decay u) HIVE_RD_DECAY_DENOM_SHIFT) min_decay.

Section equilibrium.
Context (b d : Z) (Hb : 1 ≤ b ≤ i32_max) (Hd : HIVE_RD_MIN_DECAY ≤ d ≤ u32_max).

Abbreviation eq := (balanced_pool b d).

Lemma balanced_pool_spec : b * 2 ^ 36 ≤ d * eq < b * 2 ^ 36 + d.
Proof using Hb Hd.
  change HIVE_RD_MIN_DECAY with 64 in *. unfold balanced_pool.
  pose proof (div_bracket (b * 2 ^ 36 + (d - 1)) d). lia.
Qed.

Lemma balanced_pool_bound : 16 < eq ≤ 2 ^ 61.
Proof using Hb Hd.
  pose proof balanced_pool_spec as Hs. change HIVE_RD_MIN_DECAY with 64 in *. limits.
  assert (d * 16 < d * eq) by lia. assert (64 * eq ≤ d * eq ∨ eq ≤ 0) by nia.
  split; [nia|]. nia.
Qed.

(** Decay reaches the budget exactly from the level [eq] on. *)
Lemma decay_reaches_budget p : b ≤ d * p / 2 ^ 36 ↔ eq ≤ p.
Proof using Hb Hd.
  pose proof balanced_pool_spec as Hs. change HIVE_RD_MIN_DECAY with 64 in *.
  pose proof (div_bracket (d * p) (2 ^ 36)). split; intros Hle.
  - assert (b * 2 ^ 36 ≤ d * p) by lia. nia.
  - apply Z.div_le_lower_bound; [lia|]. nia.
Qed.

(** ... and is exactly the budget there. *)
Lemma decay_at_eq : d * eq / 2 ^ 36 = b.
Proof using Hb Hd.
  pose proof balanced_pool_spec as Hs. limits. symmetry.
  apply (Z.div_unique _ _ _ (d * eq - b * 2 ^ 36)); lia.
Qed.

Lemma check_pool_eq_exact unit md p : 0 ≤ p ≤ i64_max →
  check_pool_eq (balanced_params unit md (RdUserParams b d)) p = Ok (eq <=? p).
Proof using Hb Hd.
  intros Hp. unfold check_pool_eq. cbn [balanced_params decay_params user_decay].
  rewrite i64_id by (limits; lia).
  change HIVE_RD_MIN_DECAY with 64 in *.
  destruct (decay_exact d ltac:(lia) p Hp) as [-> _]. cbn. f_equal.
  apply eq_iff_eq_true. rewrite !Z.leb_le. apply decay_reaches_budget.
Qed.

Lemma setup_exact unit dparams :
  rd_setup_dynamics_params (RdUserParams b d)
    (RdSystemParams unit HIVE_RD_DECAY_DENOM_SHIFT) dparams =
  Ok (balanced_params unit (min_decay dparams) (RdUserParams b d)).
Proof using Hb Hd.
  pose proof balanced_pool_bound as Hq. unfold rd_setup_dynamics_params.
  cbn [system_denom_shift user_budget user_decay system_resource_unit].
  rewrite fc_assert_true by done. cbn [mbind result_bind].
  change HIVE_RD_MIN_DECAY with 64 in *. unfold shiftl128.
  rewrite (proj2 (Z.ltb_lt HIVE_RD_DECAY_DENOM_SHIFT 128)) by (unfold HIVE_RD_DECAY_DENOM_SHIFT; lia).
  cbn [mbind result_bind].
  rewrite (Z.shiftl_mul_pow2 (u128 b)), (u128_id b) by (unfold HIVE_RD_DECAY_DENOM_SHIFT; limits; lia).
  change (2 ^ HIVE_RD_DECAY_DENOM_SHIFT) with (2 ^ 36).
  rewrite (u128_id (b * 2 ^ 36)) by (limits; lia).
  rewrite (u32_id (d - 1)), (u128_id (_ + _)) by (limits; lia).
  rewrite udiv_Ok by lia. cbn [mbind result_bind]. fold (balanced_pool b d).
  rewrite uint128_to_uint64_Ok by (limits; lia). cbn [mbind result_bind].
  change (RdDynamicsParams _ _ _ _ _ _)
    with (balanced_params unit (min_decay dparams) (RdUserParams b d)).
  cbn [balanced_params pool_eq user_budget user_decay].
  fold (balanced_params unit (min_decay dparams) (RdUserParams b d)).
  rewrite (check_pool_eq_exact _ _ eq), Z.leb_refl by (limits; lia). cbn.
  rewrite u64_id by (limits; lia).
  rewrite check_pool_eq_exact by (limits; lia). cbn.
  rewrite fc_assert_true; [done|]. rewrite negb_true_iff, Z.leb_gt. lia.
Qed.

End equilibrium.

(** C5. Setting up a pool never fails on parameters that pass [rd_validate_user_params], nor on
    the larger per-witness ones, and finds the pool in balance: [pool_eq] is the least level at
    which decay reaches the budget, decay there is exactly the budget, and below 2^61 the
    value fits the signed arithmetic of [rd_apply].  The checks marked "Test that these asserts
    never trigger" at the end of [rd_setup_dynamics_params] therefore never trigger. *)
Theorem pool_equilibrium u unit dparams :
  balanced_user u →
  ∃ out, rd_setup_dynamics_params u (RdSystemParams unit HIVE_RD_DECAY_DENOM_SHIFT) dparams = Ok out ∧
    budget_per_time_unit out = user_budget u ∧
    max_pool_size out = pool_eq out ∧
    16 < pool_eq out ≤ 2 ^ 61 ∧
    rd_compute_pool_decay (decay_params out) (pool_eq out) 1 = Ok (user_budget u) ∧
    ∀ p, 0 ≤ p ≤ i64_max → ∃ decay,
      rd_compute_pool_decay (decay_params out) p 1 = Ok decay ∧
      0 ≤ decay ≤ p ∧ (user_budget u ≤ decay ↔ pool_eq out ≤ p).
Proof.
  destruct u as [b d]. intros [Hb Hd]. cbn [user_budget user_decay] in *.
  exists (balanced_params unit (min_decay dparams) (RdUserParams b d)).
  pose proof (balanced_pool_bound b d Hb Hd) as Hq.
  assert (0 ≤ d ≤ u32_max) as Hd' by (change HIVE_RD_MIN_DECAY with 64 in *; lia).
  split; [by apply setup_exact|]. split; [done|]. split; [done|]. split; [done|].
  cbn [balanced_params pool_eq decay_params user_budget user_decay]. split.
  - rewrite <- (decay_at_eq b d Hb Hd) at 2. apply decay_exact; [done|]. limits. lia.
  - intros p Hp. destruct (decay_exact d Hd' p Hp) as [Hdec Hle].
    eexists. split; [exact Hdec|]. split; [done|]. by apply decay_reaches_budget.
Qed.

Lemma pool_equilibrium_witness :
  rd_validate_user_params (RdUserParams 797 347321) = Ok tt ∧
  ∃ out, rd_setup_dynamics_params (RdUserParams 797 347321)
      (RdSystemParams 10000 HIVE_RD_DECAY_DENOM_SHIFT) (RdDynamicsParams 0 0 0 0 (RdDecayParams 0 0) 0)
    = Ok out ∧ rd_compute_pool_decay (decay_params out) (pool_eq out) 1 = Ok 797.
Proof.
  split; [reflexivity|].
  destruct (pool_equilibrium (RdUserParams 797 347321) 10000
    (RdDynamicsParams 0 0 0 0 (RdDecayParams 0 0) 0)) as (out & Ho & _ & _ & _ & Hd & _).
  - by apply (validated_balanced _ tt).
  - by exists out.
Defined.

(** ** Pools over time *)

Fixpoint rd_apply_times (n : nat) (rd : rd_dynamics_params) (pool : Z) : result Z :=
  match n with
  | O => Ok pool
  | S n => rd_apply rd pool ≫= rd_apply_times n rd
  end.

Section pool.
Context (unit md : Z) (u : rd_user_params) (Hu : balanced_user u) (Hm : 0 ≤ md < user_budget u).

Abbreviation rd := (balanced_params unit md u).

(** One step adds what the budget exceeds the decay by, up to the size in balance. *)
Lemma rd_apply_exact p : 0 ≤ p ≤ 2 ^ 62 →
  rd_apply rd p = Ok (Z.min (p + user_budget u - Z.max (user_decay u * p / 2 ^ 36) md) (pool_eq rd)).
Proof using All.
  destruct u as [b d]. destruct Hu as [Hb Hd]. cbn [user_budget user_decay] in *. intros Hp.
  pose proof (balanced_pool_bound b d Hb Hd) as Hq.
  change HIVE_RD_MIN_DECAY with 64 in *. unfold rd_apply.
  cbn [balanced_params decay_params budget_per_time_unit max_pool_size min_decay pool_eq
    user_budget user_decay].
  destruct (decay_exact d ltac:(lia) p ltac:(limits; lia)) as [-> Hle]. cbn [mbind result_bind].
  rewrite i64_id, !signed64_Ok by (limits; lia). cbn [mbind result_bind].
  rewrite signed64_Ok by (limits; lia). cbn [mbind result_bind]. f_equal. limits. lia.
Qed.

Lemma rd_apply_step p : 0 ≤ p ≤ pool_eq rd →
  ∃ p', rd_apply rd p = Ok p' ∧ p ≤ p' ≤ pool_eq rd ∧ (p < p' ∨ p = pool_eq rd).
Proof using All.
  intros Hp. assert (balanced_user u) as [Hb Hd] by done.
  pose proof (balanced_pool_bound _ _ Hb Hd) as Hq.
  change (pool_eq rd) with (balanced_pool (user_budget u) (user_decay u)) in *.
  eexists. split; [apply rd_apply_exact; lia|].
  change (pool_eq rd) with (balanced_pool (user_budget u) (user_decay u)) in *.
  pose proof (decay_reaches_budget _ _ Hb Hd p) as Hr.
  destruct (Z.eq_dec p (balanced_pool (user_budget u) (user_decay u))) as [He|He].
  - rewrite He in *. rewrite decay_at_eq by done. lia.
  - assert (user_decay u * p / 2 ^ 36 < user_budget u) by lia. lia.
Qed.

(** A pool over its size is cut to it: decay takes at most the excess more than the budget. *)
Lemma rd_apply_over p : pool_eq rd ≤ p ≤ 2 ^ 62 → rd_apply rd p = Ok (pool_eq rd).
Proof using All.
  intros Hp. assert (balanced_user u) as [Hb Hd] by done.
  pose proof (balanced_pool_bound _ _ Hb Hd) as Hq. pose proof (decay_at_eq _ _ Hb Hd) as Heq.
  change (pool_eq rd) with (balanced_pool (user_budget u) (user_decay u)) in *.
  set (e := balanced_pool _ _) in *. change HIVE_RD_MIN_DECAY with 64 in *.
  rewrite rd_apply_exact by lia. f_equal.
  change (pool_eq rd) with e.
  assert (user_decay u * p / 2 ^ 36 ≤ user_decay u * e / 2 ^ 36 + (p - e)); [|lia].
  rewrite <- Z.div_add by lia. apply Z.div_le_mono; [lia|]. limits. nia.
Qed.

Lemma rd_apply_times_rises n p : 0 ≤ p ≤ pool_eq rd →
  ∃ p', rd_apply_times n rd p = Ok p' ∧ p ≤ p' ≤ pool_eq rd ∧
    Z.min (p + Z.of_nat n) (pool_eq rd) ≤ p'.
Proof using All.
  revert p. induction n as [|n IH]; intros p Hp; cbn [rd_apply_times].
  - eexists. split; [done|]. lia.
  - destruct (rd_apply_step p Hp) as (p1 & -> & H1 & Hlt). cbn [mbind result_bind].
    destruct (IH p1 ltac:(lia)) as (p2 & H2 & Hle & Hn).
    eexists. split; [exact H2|]. lia.
Qed.

End pool.

(** C13. The subsidy pools recover.  For parameters that can be set up ([balanced_user], which the
    validated ones are), a budget above the least decay and a pool from zero to 2^62, applying the dynamics once per block never throws, never lowers a pool that is not
    over its size, keeps the level between zero and [pool_eq], and leaves the pool full after at
    most [pool_eq] blocks without use; a full pool stays full; and a pool left over its size by a
    change of parameters is cut to exactly [pool_eq] in one block and stays there. *)
Theorem pool_recovers u unit dparams pool :
  balanced_user u → 0 ≤ min_decay dparams < user_budget u → 0 ≤ pool ≤ 2 ^ 62 →
  ∃ rd, rd_setup_dynamics_params u (RdSystemParams unit HIVE_RD_DECAY_DENOM_SHIFT) dparams = Ok rd ∧
    (pool ≤ pool_eq rd → ∀ n, ∃ p, rd_apply_times n rd pool = Ok p ∧
       pool ≤ p ≤ pool_eq rd ∧ (pool_eq rd ≤ Z.of_nat n → p = pool_eq rd)) ∧
    (pool = pool_eq rd → rd_apply rd pool = Ok pool) ∧
    (pool_eq rd < pool → ∀ n, rd_apply_times (S n) rd pool = Ok (pool_eq rd)).
Proof.
  intros Hu Hm Hp. destruct u as [b d]. pose proof Hu as [Hb Hd]. cbn [user_budget user_decay] in *.
  exists (balanced_params unit (min_decay dparams) (RdUserParams b d)).
  pose proof (balanced_pool_bound b d Hb Hd) as Hq.
  change HIVE_RD_MIN_DECAY with 64 in *.
  split; [by apply setup_exact|]. split; [|split].
  - intros Hle n.
    destruct (rd_apply_times_rises unit (min_decay dparams) (RdUserParams b d) Hu Hm n pool)
      as (p & Hr & Hbd & Hn); [lia|].
    exists p. split; [done|]. split; [done|]. lia.
  - intros ->.
    destruct (rd_apply_step unit (min_decay dparams) (RdUserParams b d) Hu Hm
      (pool_eq (balanced_params unit (min_decay dparams) (RdUserParams b d)))) as (p & -> & Hr).
    + cbn [balanced_params pool_eq user_budget user_decay]. lia.
    + f_equal. lia.
  - intros Hlt n. cbn [rd_apply_times]. rewrite rd_apply_over by (done || lia).
    cbn [mbind result_bind].
    destruct (rd_apply_times_rises unit (min_decay dparams) (RdUserParams b d) Hu Hm n
      (pool_eq (balanced_params unit (min_decay dparams) (RdUserParams b d)))) as (p & -> & Hr & _).
    + cbn [balanced_params pool_eq user_budget user_decay]. lia.
    + f_equal. lia.
Qed.

Lemma pool_recovers_witness :
  ∃ rd, rd_setup_dynamics_params (RdUserParams 797 347321)
      (RdSystemParams 10000 HIVE_RD_DECAY_DENOM_SHIFT)
      (RdDynamicsParams 0 0 0 0 (RdDecayParams 0 0) 700) = Ok rd ∧
    (2 ^ 40 ≤ pool_eq rd ∨ rd_apply_times 1 rd (2 ^ 40) = Ok (pool_eq rd)).
Proof.
  destruct (pool_recovers (RdUserParams 797 347321) 10000
    (RdDynamicsParams 0 0 0 0 (RdDecayParams 0 0) 700) (2 ^ 40)) as (rd & Hrd & _ & _ & Hover).
  - by apply (validated_balanced _ tt).
  - simpl; lia.
  - lia.
  - exists rd. split; [done|]. destruct (Z.leb_spec (2 ^ 40) (pool_eq rd)) as [Hle|Hlt].
    + by left.
    + right. exact (Hover Hlt 0%nat).
Defined.
