(* ===== verification/ResourceCost.v ===== *)
(** * The price of resources

    The price curve generated from the dynamics of a resource pool
    (libraries/chain/rc/rc_curve.cpp, rc_curve.hpp) and the cost, in resource credits, of
    using a resource (libraries/chain/rc/rc_utility.cpp, the static [compute_cost];
    rc_objects.hpp, the weights of the resources).

    The 64-bit mantissa of the curve is normalised and exact ([curve_exact]); with the curve
    of a balanced pool the cost of a resource never falls short of the exact price, is at most
    about ten times the regeneration per unit and is computed without any overflow
    ([resource_cost_exact]).

    [boost::multiprecision::detail::find_msb] is not part of the sources: it is the parameter
    [find_msb], with its documented meaning, the index of the leading bit of a non-zero value,
    as hypothesis. *)

From S2P Require Import Prelude Safe Operations ResourceDynamics.
Open Scope Z_scope.

(** ** Definitions *)

Record rc_price_curve_params : Set := RcPriceCurveParams {
  coeff_a : Z;                           (* uint64_t *)
  coeff_b : Z;                           (* uint64_t *)
  shift : Z                              (* uint8_t *)
}.

(** All fields are [uint64_t]. *)
Record rc_curve_gen_params : Set := RcCurveGenParams {
  inelasticity_threshold_num : Z;
  inelasticity_threshold_denom : Z;
  a_point_num : Z;
  a_point_denom : Z;
  u_point_num : Z;
  u_point_denom : Z
}.

(** [rc_curve_gen_params()]. *)
Definition default_gen_params : rc_curve_gen_params := RcCurveGenParams 1 128 37 1000 1 2.

Definition gen_params_validate (g : rc_curve_gen_params) : result unit :=
  fc_assert (inelasticity_threshold_num g <=? u16_max) "inelasticity_threshold_num <= UINT16_MAX" ;;
  fc_assert (inelasticity_threshold_denom g <=? u16_max)
    "inelasticity_threshold_denom <= UINT16_MAX" ;;
  fc_assert (a_point_num g <=? u16_max) "a_point_num <= UINT16_MAX" ;;
  fc_assert (a_point_denom g <=? u16_max) "a_point_denom <= UINT16_MAX" ;;
  fc_assert (u_point_num g <=? u16_max) "u_point_num <= UINT16_MAX" ;;
  fc_assert (u_point_denom g <=? u16_max) "u_point_denom <= UINT16_MAX" ;;
  fc_assert (0 <? inelasticity_threshold_num g) "inelasticity_threshold_num > 0" ;;
  fc_assert (inelasticity_threshold_num g <? inelasticity_threshold_denom g)
    "inelasticity_threshold_denom > inelasticity_threshold_num" ;;
  fc_assert (0 <? a_point_num g) "a_point_num > 0" ;;
  fc_assert (a_point_num g <? a_point_denom g) "a_point_denom > a_point_num" ;;
  fc_assert (0 <? u_point_num g) "u_point_num > 0" ;;
  fc_assert (u_point_num g <? u_point_denom g) "u_point_denom > u_point_num".

Section curve.
Context (find_msb : Z → Z).

(** The index of the leading bit is undefined for zero. *)
Definition leading_bit (x : Z) : result Z :=
  if x =? 0 then Throw undefined_behaviour else Ok (find_msb x).

Definition generate_rc_curve_params (rd : rd_dynamics_params) (g : rc_curve_gen_params) :
    result rc_price_curve_params :=
  let decay := decay_per_time_unit (decay_params rd) in
  let denom_shift := decay_per_time_unit_denom_shift (decay_params rd) in
  fc_assert (0 <? decay) "decay_per_time_unit > 0" ;;
  let A_num := u64 (a_point_num g * u64 (u_point_denom g - u_point_num g)) in
  let A_denom := u64 (u64 (a_point_denom g * u_point_num g) * decay) in
  let A_num := Z.max A_num 1 in
  let A_denom := Z.max A_denom 1 in
  msb1 ← leading_bit A_num;
  let shift1 := u8 (63 - msb1) in
  A_1 ← udiv (u64 (Z.shiftl A_num shift1)) A_denom;
  msb2 ← leading_bit A_1;
  let shift2 := u8 (63 - msb2) in
  let total := u8 (shift1 + shift2) in
  fc_assert (denom_shift <=? total) "shift >= decay_per_time_unit_denom_shift" ;;
  u128_A ← shiftl128 A_num total;
  u128_A ← udiv u128_A A_denom;
  a ← uint128_to_uint64 u128_A;
  let s := u8 (total - denom_shift) in
  let u128_B := u128 (pool_eq rd * inelasticity_threshold_num g) in
  u128_B ← udiv u128_B (inelasticity_threshold_denom g);
  b ← uint128_to_uint64 u128_B;
  Ok (RcPriceCurveParams a b s).

End curve.

(** The cost of a positive amount of a resource. *)
Definition cost_of_usage (c : rc_price_curve_params) (current_pool resource_count rc_regen : Z) :
    result Z :=
  let num := u128 (rc_regen * coeff_a c) in
  num ← shiftr128 num (shift c);
  let num := u128 (num + 1) in
  let num := u128 (num * u64 resource_count) in
  let denom := u128 (coeff_b c + (if 0 <? current_pool then u64 current_pool else 0)) in
  num_denom ← udiv num denom;
  n ← uint128_to_uint64 num_denom;
  Ok (i64 (u64 (n + 1))).

(** The recursive call of [compute_cost] is made on the negation of a negative amount. *)
Definition compute_cost (c : rc_price_curve_params) (current_pool resource_count rc_regen : Z) :
    result Z :=
  fc_assert (0 <? rc_regen) "rc_regen > 0" ;;
  if resource_count <=? 0 then
    if resource_count <? 0 then
      amount ← signed64 (- resource_count);
      cost ← cost_of_usage c current_pool amount rc_regen;
      signed64 (- cost)
    else Ok 0
  else cost_of_usage c current_pool resource_count rc_regen.

(** ** The mantissa of the curve *)

(** The documented meaning of [find_msb]. *)
Definition finds_msb (find_msb : Z → Z) : Prop :=
  ∀ x, 0 < x ≤ u64_max → 0 ≤ find_msb x ≤ 63 ∧ 2 ^ find_msb x ≤ x < 2 ^ (find_msb x + 1).

Lemma log2_finds_msb : finds_msb Z.log2.
Proof.
  intros x Hx. pose proof (Z.log2_spec x ltac:(lia)) as Hs. rewrite Z.add_1_r.
  split; [|done]. split; [apply Z.log2_nonneg|].
  apply Z.lt_succ_r. apply Z.log2_lt_pow2; limits; lia.
Qed.

(** Moving the leading bit of [x] to the top of a 64-bit word. *)
Lemma normalised find_msb x : finds_msb find_msb → 0 < x ≤ u64_max →
  2 ^ 63 ≤ x * 2 ^ (63 - find_msb x) < 2 ^ 64.
Proof.
  intros Hf Hx. destruct (Hf x Hx) as [Hm [Hlo Hhi]].
  set (k := 63 - find_msb x). assert (0 < 2 ^ k) by (apply Z.pow_pos_nonneg; lia).
  assert (2 ^ find_msb x * 2 ^ k = 2 ^ 63) as H63.
  { rewrite <- Z.pow_add_r by lia. f_equal. lia. }
  assert (2 ^ (find_msb x + 1) * 2 ^ k = 2 ^ 64) as H64.
  { rewrite <- Z.pow_add_r by lia. f_equal. lia. }
  nia.
Qed.

Lemma curve_mantissa find_msb n d s1 s2 : finds_msb find_msb →
  0 ≤ s1 → 0 < d ≤ n * 2 ^ s1 → n * 2 ^ s1 < 2 ^ 64 → s2 = 63 - find_msb (n * 2 ^ s1 / d) →
  0 ≤ s2 ≤ 63 ∧ 2 ^ 63 ≤ n * 2 ^ (s1 + s2) / d < 2 ^ 64.
Proof.
  intros Hf Hs1 Hd Hn ->. set (q := n * 2 ^ s1 / d).
  pose proof (div_bracket (n * 2 ^ s1) d ltac:(lia)) as Hq. fold q in Hq.
  assert (0 < q ≤ u64_max) as Hq0 by (limits; nia).
  destruct (Hf q Hq0) as [Hm [Hlo Hhi]]. pose proof (normalised find_msb q Hf Hq0) as Hnorm.
  set (s2 := 63 - find_msb q) in *. split; [lia|].
  assert (0 < 2 ^ s2) by (apply Z.pow_pos_nonneg; lia).
  assert (2 ^ (find_msb q + 1) * 2 ^ s2 = 2 ^ 64) as H64.
  { rewrite <- Z.pow_add_r by lia. f_equal. lia. }
  rewrite Z.pow_add_r, Z.mul_assoc by lia. split.
  - apply Z.div_le_lower_bound; [lia|].
    apply Z.le_trans with (q * 2 ^ s2 * d); [nia|]. nia.
  - apply Z.div_lt_upper_bound; [lia|].
    apply Z.lt_le_trans with ((q + 1) * d * 2 ^ s2); [nia|]. nia.
Qed.

Lemma leading_bit_Ok find_msb x : x ≠ 0 → leading_bit find_msb x = Ok (find_msb x).
Proof. intros Hx. unfold leading_bit. by rewrite (proj2 (Z.eqb_neq _ _) Hx). Qed.

Lemma shiftl128_Ok x n : 0 ≤ n < 128 → 0 ≤ x * 2 ^ n ≤ u128_max → shiftl128 x n = Ok (x * 2 ^ n).
Proof.
  intros Hn Hx. unfold shiftl128. rewrite (proj2 (Z.ltb_lt _ _)) by lia.
  by rewrite Z.shiftl_mul_pow2, u128_id by lia.
Qed.

(** The exact numerator and denominator of [A], without the factor [N]. *)
Definition curve_num (g : rc_curve_gen_params) : Z :=
  a_point_num g * (u_point_denom g - u_point_num g).
Definition curve_denom (g : rc_curve_gen_params) (decay : Z) : Z :=
  a_point_denom g * u_point_num g * decay.

Lemma gen_params_valid g x :
  gen_params_validate g = Ok x →
  0 < inelasticity_threshold_num g < inelasticity_threshold_denom g ∧
  0 < curve_num g < 2 ^ 32 ∧ 2 ≤ a_point_denom g * u_point_num g < 2 ^ 32 ∧
  0 < a_point_num g < a_point_denom g ∧ a_point_denom g ≤ u16_max ∧
  0 < u_point_num g < u_point_denom g ∧ u_point_denom g ≤ u16_max ∧
  inelasticity_threshold_denom g ≤ u16_max.
Proof.
  unfold gen_params_validate, curve_num. intros H. ok_inv H. bool_to_prop. limits.
  repeat split; try lia; nia.
Qed.

(** The curve that the generation should yield. *)
Definition exact_curve (total eq decay : Z) (g : rc_curve_gen_params) : rc_price_curve_params :=
  RcPriceCurveParams (curve_num g * 2 ^ total / curve_denom g decay)
    (eq * inelasticity_threshold_num g / inelasticity_threshold_denom g) (total - 36).

Section curve_spec.
Context (find_msb : Z → Z) (Hmsb : finds_msb find_msb).
Context (g : rc_curve_gen_params) (Hg : gen_params_validate g = Ok tt).
Context (u : rd_user_params) (Hu : balanced_user u) (unit md : Z).

Abbreviation shift1 := (63 - find_msb (curve_num g)).
Abbreviation A_1 := (curve_num g * 2 ^ shift1 / curve_denom g (user_decay u)).
Abbreviation total := (shift1 + (63 - find_msb A_1)).

Lemma curve_shift1 : 32 ≤ shift1 ≤ 63 ∧ 2 ^ 63 ≤ curve_num g * 2 ^ shift1 < 2 ^ 64.
Proof using Hmsb Hg.
  destruct (gen_params_valid g tt Hg) as (_ & Hn & _).
  assert (0 < curve_num g ≤ u64_max) as Hn' by (limits; lia).
  destruct (Hmsb (curve_num g) Hn') as [Hm [Hlo _]].
  split; [|by apply normalised].
  assert (find_msb (curve_num g) < 32); [|lia].
  apply (Z.pow_lt_mono_r_iff 2); lia.
Qed.

Lemma curve_denom_bound : 128 ≤ curve_denom g (user_decay u) ≤ u64_max.
Proof using Hg Hu.
  destruct (gen_params_valid g tt Hg) as (_ & _ & Hd & _). destruct Hu as [_ Hdec].
  change HIVE_RD_MIN_DECAY with 64 in *. unfold curve_denom. limits. nia.
Qed.

Lemma curve_total : curve_denom g (user_decay u) ≤ curve_num g * 2 ^ shift1 →
  39 ≤ total ≤ 126 ∧ 2 ^ 63 ≤ coeff_a (exact_curve total 0 (user_decay u) g) < 2 ^ 64.
Proof using Hmsb Hg Hu.
  intros Hle. destruct curve_shift1 as [Hs1 Hn]. pose proof curve_denom_bound as Hd.
  destruct (curve_mantissa find_msb (curve_num g) (curve_denom g (user_decay u)) shift1
    (63 - find_msb A_1) Hmsb) as [Hs2 Ha]; [lia..|done|].
  split; [|done]. split; [|lia].
  assert (find_msb A_1 ≤ 56); [|lia].
  pose proof (div_bracket (curve_num g * 2 ^ shift1) (curve_denom g (user_decay u)) ltac:(lia)) as Hb.
  assert (0 < A_1 < 2 ^ 57) as Hq by nia.
  destruct (Hmsb A_1 ltac:(limits; lia)) as [_ [Hlo _]].
  assert (find_msb A_1 < 57); [|lia]. apply (Z.pow_lt_mono_r_iff 2); lia.
Qed.

(** The curve of a balanced pool: exact, with a mantissa that fills 64 bits, unless the
    denominator exceeds the 64-bit numerator. *)
Lemma curve_exact :
  generate_rc_curve_params find_msb (balanced_params unit md u) g =
  if curve_denom g (user_decay u) <=? curve_num g * 2 ^ shift1
  then Ok (exact_curve total (balanced_pool (user_budget u) (user_decay u)) (user_decay u) g)
  else Throw undefined_behaviour.
Proof using All.
  destruct curve_shift1 as [Hs1 Hn]. pose proof curve_denom_bound as Hd.
  destruct (gen_params_valid g tt Hg) as (Hi & Hnum & Hden & Ha & Ha2 & Hup & Hup2 & Hi2).
  pose proof Hu as [Hb Hdec]. pose proof (balanced_pool_bound _ _ Hb Hdec) as Hq.
  change HIVE_RD_MIN_DECAY with 64 in *. unfold generate_rc_curve_params.
  cbn [balanced_params decay_params decay_per_time_unit decay_per_time_unit_denom_shift pool_eq].
  rewrite fc_assert_true by (apply Z.ltb_lt; lia). cbn [mbind result_bind].
  rewrite (u64_id (u_point_denom g - _)) by (limits; lia). fold (curve_num g).
  rewrite (u64_id (curve_num g)), (u64_id (a_point_denom g * _)) by (limits; lia).
  fold (curve_denom g (user_decay u)). rewrite (u64_id (curve_denom _ _)) by lia.
  rewrite !Z.max_l by lia. rewrite (leading_bit_Ok _ (curve_num g)) by lia.
  cbn [mbind result_bind].
  rewrite (u8_id shift1), Z.shiftl_mul_pow2, (u64_id (curve_num g * _)) by (limits; lia).
  rewrite (udiv_Ok (curve_num g * 2 ^ shift1)) by lia. cbn [mbind result_bind].
  case (Z.leb_spec (curve_denom g (user_decay u)) (curve_num g * 2 ^ shift1)) as [Hle|Hlt].
  2: { by rewrite (Z.div_small (curve_num g * 2 ^ shift1)) by lia. }
  destruct (curve_total Hle) as [Ht Hca].
  assert (0 < A_1) as HA by (apply Z.div_str_pos; lia).
  assert (A_1 ≤ u64_max) by (apply Z.div_le_upper_bound; limits; nia).
  destruct (Hmsb A_1 ltac:(lia)) as [Hm _].
  rewrite (leading_bit_Ok _ A_1) by lia. cbn [mbind result_bind].
  rewrite (u8_id (63 - find_msb A_1)), (u8_id (shift1 + _)) by (limits; lia).
  rewrite fc_assert_true by (apply Z.leb_le; unfold HIVE_RD_DECAY_DENOM_SHIFT; lia).
  cbn [mbind result_bind].
  assert (curve_num g * 2 ^ total < 2 ^ 127) as Hw.
  { rewrite Z.pow_add_r, Z.mul_assoc by lia.
    assert (2 ^ (63 - find_msb A_1) ≤ 2 ^ 63) by (apply Z.pow_le_mono_r; lia). nia. }
  assert (0 < 2 ^ total) by (apply Z.pow_pos_nonneg; lia).
  rewrite shiftl128_Ok by (limits; lia). cbn [mbind result_bind].
  rewrite (udiv_Ok (curve_num g * 2 ^ total)) by lia. cbn [mbind result_bind].
  rewrite (uint128_to_uint64_Ok (_ / curve_denom _ _)) by (cbn [exact_curve coeff_a] in Hca; limits; lia).
  cbn [mbind result_bind]. rewrite u128_id by (limits; nia).
  rewrite udiv_Ok by lia. cbn [mbind result_bind].
  rewrite uint128_to_uint64_Ok.
  2: { split; [apply Z.div_pos; nia|]. apply Z.div_le_upper_bound; limits; nia. }
  cbn [mbind result_bind]. unfold exact_curve. do 2 f_equal.
  apply u8_id. unfold HIVE_RD_DECAY_DENOM_SHIFT. limits. lia.
Qed.

End curve_spec.

(** ** The cost of a resource *)

(** The numerator of the cost, on unbounded integers. *)
Definition cost_num (c : rc_price_curve_params) (count regen : Z) : Z :=
  (regen * coeff_a c / 2 ^ shift c + 1) * count.
Definition cost_denom (c : rc_price_curve_params) (pool : Z) : Z := coeff_b c + Z.max pool 0.

Definition curve_ok (c : rc_price_curve_params) : Prop :=
  0 ≤ coeff_a c ≤ u64_max ∧ 0 ≤ coeff_b c ≤ u64_max ∧ 0 ≤ shift c < 128.

Lemma shiftr128_Ok x n : 0 ≤ n < 128 → shiftr128 x n = Ok (x / 2 ^ n).
Proof.
  intros Hn. unfold shiftr128. rewrite (proj2 (Z.ltb_lt _ _)) by lia.
  by rewrite Z.shiftr_div_pow2 by lia.
Qed.

Lemma cost_of_usage_exact c pool count regen :
  curve_ok c → pool ≤ i64_max → 0 < count ≤ i64_max → 0 < regen ≤ i64_max →
  0 < cost_denom c pool → cost_num c count regen ≤ u128_max →
  cost_num c count regen / cost_denom c pool < i64_max →
  cost_of_usage c pool count regen = Ok (cost_num c count regen / cost_denom c pool + 1).
Proof.
  intros (Ha & Hb & Hs) Hp Hc Hr Hd Hn Hq. unfold cost_of_usage, cost_num in *.
  rewrite (u128_id (regen * _)) by (limits; nia). rewrite shiftr128_Ok by done. cbn [mbind result_bind].
  set (k := regen * coeff_a c / 2 ^ shift c) in *.
  assert (0 ≤ k) by (apply Z.div_pos; [nia|]; apply Z.pow_pos_nonneg; lia).
  rewrite (u128_id (k + 1)), (u64_id count), (u128_id (_ * count)) by (limits; nia).
  assert (u128 (coeff_b c + (if 0 <? pool then u64 pool else 0)) = cost_denom c pool) as ->.
  { unfold cost_denom in *. destruct (Z.ltb_spec 0 pool).
    - rewrite u64_id, u128_id by (limits; lia). lia.
    - rewrite u128_id by (limits; lia). lia. }
  rewrite udiv_Ok by lia. cbn [mbind result_bind].
  set (q := (k + 1) * count / cost_denom c pool) in *.
  assert (0 ≤ q) by (apply Z.div_pos; nia).
  rewrite uint128_to_uint64_Ok by (limits; lia). cbn [mbind result_bind].
  rewrite u64_id, i64_id by (limits; lia). done.
Qed.

Section cost.
Context (find_msb : Z → Z) (Hmsb : finds_msb find_msb).
Context (u : rd_user_params) (Hu : balanced_user u) (unit md : Z).
Context (Heq : 256 ≤ balanced_pool (user_budget u) (user_decay u)).

Definition default_curve : rc_price_curve_params :=
  exact_curve (58 + (63 - find_msb (37 * 2 ^ 58 / (1000 * user_decay u))))
    (balanced_pool (user_budget u) (user_decay u)) (user_decay u) default_gen_params.

Lemma default_shift1 : find_msb 37 = 5.
Proof using Hmsb.
  destruct (Hmsb 37 ltac:(limits; lia)) as [Hm [Hlo Hhi]].
  assert (find_msb 37 < 6) by (apply (Z.pow_lt_mono_r_iff 2); lia).
  assert (5 < find_msb 37 + 1) by (apply (Z.pow_lt_mono_r_iff 2); lia). lia.
Qed.

(** The witnesses' parameters with the generator's defaults always give a curve. *)
Lemma default_curve_generated :
  generate_rc_curve_params find_msb (balanced_params unit md u) default_gen_params
  = Ok default_curve.
Proof using Hmsb Hu.
  rewrite curve_exact by done. change (curve_num default_gen_params) with 37.
  rewrite default_shift1. change (63 - 5) with 58.
  change (curve_denom default_gen_params (user_decay u)) with (1000 * user_decay u).
  destruct Hu as [_ Hd]. rewrite (proj2 (Z.leb_le _ _)); [done|]. limits. lia.
Qed.

Lemma default_curve_ok : curve_ok default_curve ∧ 2 ^ 63 ≤ coeff_a default_curve ∧
  1000 * user_decay u * coeff_a default_curve ≤ 37 * 2 ^ 36 * 2 ^ shift default_curve ∧
  0 < 2 * coeff_b default_curve ≤ 2 ^ 55 ∧
  2 ^ 36 ≤ 256 * coeff_b default_curve * user_decay u.
Proof using Hmsb Hu Heq.
  assert (gen_params_validate default_gen_params = Ok tt) as Hg by done.
  pose proof Hu as [Hb Hd]. pose proof (balanced_pool_spec _ _ Hb Hd) as Hsp.
  pose proof (balanced_pool_bound _ _ Hb Hd) as Hq. change HIVE_RD_MIN_DECAY with 64 in *.
  destruct (curve_total find_msb Hmsb _ Hg u Hu) as [Ht Ha].
  { change (curve_num _) with 37. rewrite default_shift1. change (curve_denom _ _) with (1000 * user_decay u). limits. lia. }
  change (curve_num default_gen_params) with 37 in *. rewrite default_shift1 in *.
  change (curve_denom default_gen_params (user_decay u)) with (1000 * user_decay u) in *.
  cbn [exact_curve coeff_a] in Ha.
  change (curve_num default_gen_params) with 37 in *.
  change (curve_denom default_gen_params (user_decay u)) with (1000 * user_decay u) in *.
  unfold default_curve, curve_ok. cbn [exact_curve coeff_a coeff_b shift].
  change (curve_num default_gen_params) with 37 in *.
  change (curve_denom default_gen_params (user_decay u)) with (1000 * user_decay u) in *.
  change (63 - 5) with 58 in *.
  cbn [inelasticity_threshold_num inelasticity_threshold_denom default_gen_params].
  set (t := 58 + (63 - find_msb (37 * 2 ^ 58 / (1000 * user_decay u)))) in *.
  set (eq := balanced_pool (user_budget u) (user_decay u)) in *.
  pose proof (div_bracket (37 * 2 ^ t) (1000 * user_decay u) ltac:(lia)) as Hn.
  pose proof (div_bracket (eq * 1) 128 ltac:(lia)) as Hcb.
  assert (2 ^ t = 2 ^ 36 * 2 ^ (t - 36)) as Hp by (rewrite <- Z.pow_add_r by lia; f_equal; lia).
  set (ca := 37 * 2 ^ t / (1000 * user_decay u)) in *. set (cb := eq * 1 / 128) in *.
  limits. repeat split; try lia; nia.
Qed.

(** The price of one unit never exceeds about ten times the regeneration. *)
Lemma default_price_bound count regen : 0 < regen → 0 < count →
  0 ≤ cost_num default_curve count regen ≤ (10 * regen + 1) * count * coeff_b default_curve.
Proof using Hmsb Hu Heq.
  intros Hr Hc. destruct default_curve_ok as (Hok & _ & Ha & Hb & He). unfold cost_num.
  destruct Hok as (Ha0 & _ & Hs). pose proof Hu as [_ Hd]. change HIVE_RD_MIN_DECAY with 64 in *.
  assert (0 < 2 ^ shift default_curve) as Hp by (apply Z.pow_pos_nonneg; lia).
  pose proof (div_bracket (regen * coeff_a default_curve) (2 ^ shift default_curve) Hp) as Hk.
  set (k := regen * coeff_a default_curve / 2 ^ shift default_curve) in *.
  assert (0 ≤ k) by (apply Z.div_pos; nia).
  assert (k ≤ 10 * regen * coeff_b default_curve); [|nia].
  set (p := 2 ^ shift default_curve) in *. set (ca := coeff_a default_curve) in *.
  set (cb := coeff_b default_curve) in *. set (d := user_decay u) in *.
  assert (k * (1000 * d) * p ≤ regen * (37 * 2 ^ 36) * p) as H1.
  { transitivity (regen * ca * (1000 * d)); nia. }
  assert (k * (1000 * d) ≤ regen * (37 * 2 ^ 36)) as H2 by nia.
  assert (regen * (37 * 2 ^ 36) ≤ 10 * regen * cb * (1000 * d)) as H3; nia.
Qed.

End cost.

Section fair_cost.
Context (c : rc_price_curve_params) (Hc : curve_ok c).

(** The cost exceeds the exact price of the curve. *)
Lemma cost_covers_price pool count regen : 0 < count → 0 < regen → 0 < cost_denom c pool →
  regen * coeff_a c * count <
  (cost_num c count regen / cost_denom c pool + 1) * (2 ^ shift c * cost_denom c pool).
Proof using Hc.
  intros Hn Hr Hd. destruct Hc as (Ha & _ & Hs). unfold cost_num.
  assert (0 < 2 ^ shift c) as Hp by (apply Z.pow_pos_nonneg; lia).
  pose proof (div_bracket (regen * coeff_a c) (2 ^ shift c) Hp) as Hk.
  set (k := regen * coeff_a c / 2 ^ shift c) in *.
  pose proof (div_bracket ((k + 1) * count) (cost_denom c pool) Hd) as Hq.
  set (q := (k + 1) * count / cost_denom c pool) in *.
  apply Z.lt_trans with ((k + 1) * count * 2 ^ shift c); nia.
Qed.

(** More of a resource costs no less, a fuller pool makes it no dearer. *)
Lemma cost_monotone pool pool' count count' regen :
  pool ≤ pool' → 0 < count' ≤ count → 0 < regen → 0 < cost_denom c pool →
  0 ≤ cost_num c count' regen / cost_denom c pool' ≤ cost_num c count regen / cost_denom c pool ∧
  cost_num c count' regen ≤ cost_num c count regen.
Proof using Hc.
  intros Hpp Hn Hr Hd. destruct Hc as (Ha & _ & Hs). unfold cost_num.
  assert (0 < 2 ^ shift c) as Hp by (apply Z.pow_pos_nonneg; lia).
  assert (0 ≤ regen * coeff_a c / 2 ^ shift c) as Hk by (apply Z.div_pos; nia).
  set (k := regen * coeff_a c / 2 ^ shift c) in *.
  assert (cost_denom c pool ≤ cost_denom c pool') as Hdd by (unfold cost_denom; lia).
  split; [split|nia].
  - apply Z.div_pos; nia.
  - transitivity ((k + 1) * count / cost_denom c pool'); [apply Z.div_le_mono; nia|].
    apply Z.div_le_compat_l; nia.
Qed.

End fair_cost.

(** C28. The price curve generated with the default parameters for a pool of at least 256 in
    balance exists, has a full 64-bit mantissa, and the cost it gives to using a positive [count]
    of a resource at a positive [regen] is computed without overflow as long as
    [(10 * regen + 2) * count] fits in 63 bits: the cost is exactly
    [((regen * A >> shift) + 1) * count / (B + pool) + 1], with a pool below zero counted as
    empty.  It therefore strictly exceeds the real price [regen * A * count / (B + pool)] of
    the curve, is at most [(10 * regen + 1) * count + 1], does not grow with the level of the
    pool nor shrink with the amount used, and what is given back is credited at the same cost. *)
Theorem resource_cost_exact find_msb u unit dparams pool count regen :
  finds_msb find_msb → balanced_user u →
  256 ≤ balanced_pool (user_budget u) (user_decay u) →
  i64_min ≤ pool ≤ i64_max → 0 < count → 0 < regen → (10 * regen + 2) * count < i64_max →
  ∃ rd c cost,
    rd_setup_dynamics_params u (RdSystemParams unit HIVE_RD_DECAY_DENOM_SHIFT) dparams = Ok rd ∧
    generate_rc_curve_params find_msb rd default_gen_params = Ok c ∧
    2 ^ 63 ≤ coeff_a c < 2 ^ 64 ∧ coeff_b c = pool_eq rd / 128 ∧
    compute_cost c pool count regen = Ok cost ∧
    compute_cost c pool (- count) regen = Ok (- cost) ∧
    cost = (regen * coeff_a c / 2 ^ shift c + 1) * count / (coeff_b c + Z.max pool 0) + 1 ∧
    regen * coeff_a c * count < cost * (2 ^ shift c * (coeff_b c + Z.max pool 0)) ∧
    0 < cost ≤ (10 * regen + 1) * count + 1 ∧
    ∀ pool' count', pool ≤ pool' ≤ i64_max → 0 < count' ≤ count →
      ∃ cost', compute_cost c pool' count' regen = Ok cost' ∧ 0 < cost' ≤ cost.
Proof.
  intros Hf Hu Heq Hp Hc Hr Hlim. destruct (default_curve_ok find_msb Hf u Hu Heq) as (Hok & Ha & _ & Hb & _).
  pose proof (default_price_bound find_msb Hf u Hu Heq count regen Hr Hc) as Hn.
  set (c := default_curve find_msb u) in *. set (N := cost_num c count regen) in *.
  assert (0 < cost_denom c pool) as Hd by (unfold cost_denom; lia).
  assert (N / cost_denom c pool ≤ (10 * regen + 1) * count) as Hq.
  { apply Z.div_le_upper_bound; [done|]. unfold cost_denom. nia. }
  assert (N ≤ u128_max) as HN by (limits; nia).
  assert (count < i64_max ∧ regen < i64_max) as Hbd by nia.
  assert (∀ p k, pool ≤ p ≤ i64_max → 0 < k ≤ count →
    cost_of_usage c p k regen = Ok (cost_num c k regen / cost_denom c p + 1) ∧
    0 ≤ cost_num c k regen / cost_denom c p ≤ N / cost_denom c pool) as Hcost.
  { intros p k Hpp Hk. destruct (cost_monotone c Hok pool p count k regen) as [Hle HNk]; [lia|lia|done|done|].
    fold N in Hle, HNk. assert (cost_num c k regen / cost_denom c p < i64_max) by lia.
    split; [|done]. apply cost_of_usage_exact; [done|lia|lia|lia| |lia|done].
    unfold cost_denom in *. lia. }
  assert (∀ p k, 0 < k → compute_cost c p k regen = cost_of_usage c p k regen) as Hpos.
  { intros p k Hk. unfold compute_cost. rewrite fc_assert_true by (apply Z.ltb_lt; lia).
    cbn [mbind result_bind]. by rewrite (proj2 (Z.leb_gt k 0)) by lia. }
  destruct (Hcost pool count ltac:(lia) ltac:(lia)) as [H1 H0].
  exists (balanced_params unit (min_decay dparams) u), c, (N / cost_denom c pool + 1).
  split; [destruct u; by apply setup_exact; apply Hu|].
  split; [by apply default_curve_generated|]. split; [destruct Hok; limits; lia|].
  split; [cbn; by rewrite Z.mul_1_r|].
  split; [by rewrite Hpos|]. split.
  { unfold compute_cost. rewrite fc_assert_true by (apply Z.ltb_lt; lia). cbn [mbind result_bind].
    rewrite (proj2 (Z.leb_le (- count) 0)), (proj2 (Z.ltb_lt (- count) 0)), Z.opp_involutive by lia.
    rewrite (signed64_Ok count) by (limits; lia). cbn [mbind result_bind]. rewrite H1. cbn [mbind result_bind].
    apply signed64_Ok. limits. lia. }
  split; [done|]. split; [by apply cost_covers_price|]. split; [lia|].
  intros pool' count' Hpp Hcc. destruct (Hcost pool' count' Hpp Hcc) as [H2 H3].
  rewrite Hpos by lia. eexists. split; [exact H2|]. lia.
Qed.

Lemma resource_cost_exact_witness :
  ∃ rd c cost,
    rd_setup_dynamics_params (RdUserParams 797 347321)
      (RdSystemParams 10000 HIVE_RD_DECAY_DENOM_SHIFT)
      (RdDynamicsParams 0 0 0 0 (RdDecayParams 0 0) 0) = Ok rd ∧
    generate_rc_curve_params Z.log2 rd default_gen_params = Ok c ∧
    compute_cost c 100000000 10000 2000000000 = Ok cost ∧
    cost = (2000000000 * coeff_a c / 2 ^ shift c + 1) * 10000 / (coeff_b c + 100000000) + 1.
Proof.
  destruct (resource_cost_exact Z.log2 (RdUserParams 797 347321) 10000
    (RdDynamicsParams 0 0 0 0 (RdDecayParams 0 0) 0) 100000000 10000 2000000000)
    as (rd & c & cost & H1 & H2 & _ & _ & H3 & _ & H4 & _).
  - exact log2_finds_msb.
  - split; simpl; [limits; lia|]. change HIVE_RD_MIN_DECAY with 64. limits. lia.
  - vm_compute. discriminate.
  - limits; lia.
  - lia.
  - lia.
  - limits; lia.
  - exists rd, c, cost. split; [exact H1|]. split; [exact H2|]. split; [exact H3|exact H4].
Defined.

(** With the smallest pools the threshold [B] is rounded to zero, and the cost of a resource
    whose pool is empty divides by zero. *)
Lemma empty_pool_division :
  rd_validate_user_params (RdUserParams 1 u32_max) = Ok tt ∧
  let rd := balanced_params 10000 0 (RdUserParams 1 u32_max) in
  let c := RcPriceCurveParams 10920472494178675196 0 64 in
  rd_setup_dynamics_params (RdUserParams 1 u32_max) (RdSystemParams 10000 HIVE_RD_DECAY_DENOM_SHIFT)
    (RdDynamicsParams 0 0 0 0 (RdDecayParams 0 0) 0) = Ok rd ∧
  generate_rc_curve_params Z.log2 rd default_gen_params = Ok c ∧
  compute_cost c 0 1 1 = Throw undefined_behaviour.
Proof. split; [reflexivity|]. split; [|split]; vm_compute; reflexivity. Qed.

(** The intermediate [A_1] is not at least 2^31, and is zero for some validated generator
    parameters. *)
Lemma small_mantissa_undefined :
  let g := RcCurveGenParams 1 2 1 65535 65534 65535 in
  gen_params_validate g = Ok tt ∧
  rd_validate_user_params (RdUserParams 1 u32_max) = Ok tt ∧
  generate_rc_curve_params Z.log2 (balanced_params 1 0 (RdUserParams 1 u32_max)) g
    = Throw undefined_behaviour ∧
  37 * 2 ^ 58 / (1000 * u32_max) < 2 ^ 31.
Proof. repeat split; vm_compute; reflexivity. Qed.
