(* ===== verification/ResourceCount.v ===== *)
(** * The resources of a transaction

    How much of each limited resource a transaction uses: the sizes of state objects and the
    times of operations (libraries/chain/rc/resource_sizes.cpp, resource_sizes.hpp), the
    visitors of operations and [resource_credits::count_resources]
    (libraries/chain/rc/resource_count.cpp).

    The count is shown to be exact, never to overflow within the size of a transaction, to
    depend only on which operations a transaction has and not on their order, and to charge
    every transaction ([resource_usage_exact]). *)

From S2P Require Import Prelude Safe Asset Authority OperationTypes Transaction ResourceDynamics.
Open Scope Z_scope.

(** ** Sizes and times *)

Definition HIVE_VESTING_WITHDRAW_INTERVALS : Z := 13.

Record state_object_size_info : Set := StateObjectSizeInfo {
  TEMPORARY_STATE_BYTE : Z;
  LASTING_STATE_BYTE : Z;
  PERSISTENT_STATE_BYTE : Z;
  account_create_base_size : Z;
  authority_account_member_size : Z;
  authority_key_member_size : Z;
  owner_authority_history_object_size : Z;
  transfer_to_vesting_size : Z;
  request_account_recovery_size : Z;
  change_recovery_account_size : Z;
  comment_base_size : Z;
  comment_permlink_char_size : Z;
  comment_beneficiaries_member_size : Z;
  vote_size : Z;
  convert_size : Z;
  collateralized_convert_size : Z;
  decline_voting_rights_size : Z;
  escrow_transfer_size : Z;
  limit_order_create_size : Z;
  transfer_from_savings_size : Z;
  transaction_base_size : Z;
  vesting_delegation_object_size : Z;
  vesting_delegation_expiration_object_size : Z;
  delegate_vesting_shares_size : Z;
  set_withdraw_vesting_route_size : Z;
  witness_update_base_size : Z;
  witness_update_url_char_size : Z;
  account_witness_vote_size : Z;
  create_proposal_base_size : Z;
  create_proposal_subject_permlink_char_size : Z;
  update_proposal_votes_member_size : Z;
  recurrent_transfer_base_size : Z;
  recurrent_transfer_memo_char_size : Z;
  delegate_rc_base_size : Z
}.

Definition size_info : state_object_size_info :=
  let TEMPORARY_STATE_BYTE := 1 in
  let LASTING_STATE_BYTE := TEMPORARY_STATE_BYTE * 5 * 365 * 12 in
  let PERSISTENT_STATE_BYTE := TEMPORARY_STATE_BYTE * 5 * 365 * 24 in
  let account_create_base_size := (616 + 144) * PERSISTENT_STATE_BYTE + 312 * PERSISTENT_STATE_BYTE in
  let authority_account_member_size := 24 * PERSISTENT_STATE_BYTE in
  let authority_key_member_size := 36 * PERSISTENT_STATE_BYTE in
  let owner_authority_history_object_size := 168 * TEMPORARY_STATE_BYTE * 30 * 24 in
  let transfer_to_vesting_size := 16 * TEMPORARY_STATE_BYTE * 30 * 24 in
  let request_account_recovery_size := 192 * TEMPORARY_STATE_BYTE * 24 in
  let change_recovery_account_size := 136 * TEMPORARY_STATE_BYTE * 30 * 24 in
  let comment_base_size := 96 * PERSISTENT_STATE_BYTE + 192 * TEMPORARY_STATE_BYTE * 7 * 24 in
  let comment_permlink_char_size := TEMPORARY_STATE_BYTE * 7 * 24 in
  let comment_beneficiaries_member_size := 8 * TEMPORARY_STATE_BYTE * 7 * 24 in
  let vote_size := 144 * TEMPORARY_STATE_BYTE * 7 * 24 in
  let convert_size := 120 * TEMPORARY_STATE_BYTE * 7 * 12 in
  let collateralized_convert_size := 128 * TEMPORARY_STATE_BYTE * 7 * 12 in
  let decline_voting_rights_size := 128 * TEMPORARY_STATE_BYTE * 30 * 24 in
  let escrow_transfer_size := 216 * LASTING_STATE_BYTE in
  let limit_order_create_size := 208 * TEMPORARY_STATE_BYTE * 28 * 24 in
  let transfer_from_savings_size := 232 * TEMPORARY_STATE_BYTE * 3 * 24 in
  let transaction_base_size := 128 * TEMPORARY_STATE_BYTE * 1 in
  let vesting_delegation_object_size := 88 * LASTING_STATE_BYTE in
  let vesting_delegation_expiration_object_size := 120 * TEMPORARY_STATE_BYTE * 5 * 24 in
  let delegate_vesting_shares_size := Z.max vesting_delegation_object_size vesting_delegation_expiration_object_size in
  let set_withdraw_vesting_route_size := 144 * LASTING_STATE_BYTE in
  let witness_update_base_size := 544 * PERSISTENT_STATE_BYTE in
  let witness_update_url_char_size := PERSISTENT_STATE_BYTE in
  let account_witness_vote_size := 136 * TEMPORARY_STATE_BYTE * 365 * 24 in
  let create_proposal_base_size := 336 * TEMPORARY_STATE_BYTE in
  let create_proposal_subject_permlink_char_size := TEMPORARY_STATE_BYTE in
  let update_proposal_votes_member_size := 128 * TEMPORARY_STATE_BYTE * 365 * 24 in
  let recurrent_transfer_base_size := 200 * TEMPORARY_STATE_BYTE in
  let recurrent_transfer_memo_char_size := TEMPORARY_STATE_BYTE in
  let delegate_rc_base_size := 88 * LASTING_STATE_BYTE in
  StateObjectSizeInfo TEMPORARY_STATE_BYTE LASTING_STATE_BYTE PERSISTENT_STATE_BYTE
    account_create_base_size authority_account_member_size authority_key_member_size
    owner_authority_history_object_size transfer_to_vesting_size
    request_account_recovery_size change_recovery_account_size comment_base_size
    comment_permlink_char_size comment_beneficiaries_member_size vote_size convert_size
    collateralized_convert_size decline_voting_rights_size escrow_transfer_size
    limit_order_create_size transfer_from_savings_size transaction_base_size
    vesting_delegation_object_size vesting_delegation_expiration_object_size
    delegate_vesting_shares_size set_withdraw_vesting_route_size witness_update_base_size
    witness_update_url_char_size account_witness_vote_size create_proposal_base_size
    create_proposal_subject_permlink_char_size update_proposal_votes_member_size
    recurrent_transfer_base_size recurrent_transfer_memo_char_size delegate_rc_base_size.

Record operation_exec_info : Set := OperationExecInfo {
  account_create_time : Z;
  account_create_with_delegation_time : Z;
  account_witness_vote_time : Z;
  comment_time : Z;
  comment_options_time : Z;
  convert_time : Z;
  collateralized_convert_time : Z;
  create_claimed_account_time : Z;
  decline_voting_rights_time : Z;
  delegate_vesting_shares_time : Z;
  escrow_transfer_time : Z;
  limit_order_create_time : Z;
  limit_order_create2_time : Z;
  request_account_recovery_time : Z;
  set_withdraw_vesting_route_time : Z;
  vote_time : Z;
  witness_update_time : Z;
  transfer_time : Z;
  transfer_to_vesting_time : Z;
  transfer_to_savings_time : Z;
  transfer_from_savings_time : Z;
  claim_reward_balance_time : Z;
  withdraw_vesting_time : Z;
  account_update_time : Z;
  account_update2_time : Z;
  account_witness_proxy_time : Z;
  cancel_transfer_from_savings_time : Z;
  change_recovery_account_time : Z;
  claim_account_time : Z;
  custom_time : Z;
  custom_json_time : Z;
  custom_binary_time : Z;
  delete_comment_time : Z;
  escrow_approve_time : Z;
  escrow_dispute_time : Z;
  escrow_release_time : Z;
  feed_publish_time : Z;
  limit_order_cancel_time : Z;
  witness_set_properties_time : Z;
  create_proposal_time : Z;
  update_proposal_time : Z;
  update_proposal_votes_time : Z;
  remove_proposal_time : Z;
  recurrent_transfer_base_time : Z;
  recurrent_transfer_processing_time : Z;
  delegate_rc_time : Z;
  verify_authority_time : Z;
  transaction_time : Z;
  recover_account_time : Z;
  pow_time : Z;
  pow2_time : Z
}.

Definition exec_info : operation_exec_info :=
  {|
    account_create_time := 498 + 31575 + 236 + 6401;
    account_create_with_delegation_time := 770 + 39616 + 139 + 66;
    account_witness_vote_time := 516 + 13907 + 173 + 145;
    comment_time := 2419 + 20408 + 221 + 166 + 42964;
    comment_options_time := 413 + 5530 + 142 + 117;
    convert_time := 442 + 11491 + 207 + 143 + 8280;
    collateralized_convert_time := 613 + 13325 + 332 + 239 + 9154;
    create_claimed_account_time := 964 + 46331 + 342 + 10778;
    decline_voting_rights_time := 530 + 3894 + 179 + 187 + 24301;
    delegate_vesting_shares_time := 411 + 11998 + 3110 + 1208;
    escrow_transfer_time := 2943 + 16130 + 309 + 204;
    limit_order_create_time := 468 + 13924 + 187 + 124;
    limit_order_create2_time := 607 + 23356 + 310 + 118;
    request_account_recovery_time := 613 + 7058 + 149 + 127;
    set_withdraw_vesting_route_time := 501 + 9003 + 632 + 121;
    vote_time := 479 + 17568 + 187 + 78;
    witness_update_time := 675 + 3287 + 154 + 121;
    transfer_time := 638 + 5023 + 204 + 134;
    transfer_to_vesting_time := 484 + 15856 + 2174 + 721 + 23010;
    transfer_to_savings_time := 771 + 5392 + 205 + 155;
    transfer_from_savings_time := 519 + 7840 + 111 + 106 + 8974;
    claim_reward_balance_time := 427 + 23366 + 2798 + 970;
    withdraw_vesting_time := 376 + 6524 + 2068 + 567 + 16307 * HIVE_VESTING_WITHDRAW_INTERVALS;
    account_update_time := 1531 + 11433 + 206 + 152;
    account_update2_time := 2182 + 10804 + 405 + 257;
    account_witness_proxy_time := 684 + 57106 + 170 + 166;
    cancel_transfer_from_savings_time := 135 + 2881 + 72 + 66;
    change_recovery_account_time := 580 + 9391 + 297 + 202;
    claim_account_time := 336 + 8028 + 267 + 150;
    custom_time := 132 + 183 + 238 + 121;
    custom_json_time := 859 + 162 + 321 + 167;
    custom_binary_time := 0 + 0 + 0 + 0 + 100000;
    delete_comment_time := 521 + 17208 + 175 + 146;
    escrow_approve_time := 814 + 8408 + 260 + 181;
    escrow_dispute_time := 918 + 5219 + 261 + 176;
    escrow_release_time := 1313 + 13586 + 252 + 189;
    feed_publish_time := 469 + 2233 + 213 + 144;
    limit_order_cancel_time := 407 + 5986 + 204 + 142;
    witness_set_properties_time := 3986 + 4920 + 310 + 234;
    create_proposal_time := 831 + 24323 + 5666 + 2168;
    update_proposal_time := 820 + 11193 + 4501 + 267;
    update_proposal_votes_time := 503 + 12602 + 2993 + 1206;
    remove_proposal_time := 527 + 129323 + 3886 + 1692;
    recurrent_transfer_base_time := 914 + 12426 + 330 + 238;
    recurrent_transfer_processing_time := 14347;
    delegate_rc_time := 75000;
    verify_authority_time := 94165;
    transaction_time := 2821 + 386 + 3415;
    recover_account_time := 727 + 17934 + 149 + 145;
    pow_time := 177321 + 23458 + 165 + 57;
    pow2_time := 86349 + 17226 + 160 + 92
  |}.

(** ** Counting *)

(** [rc_resource_types] and [resource_count_type]. *)
Record resource_count_type : Set := ResourceCount {
  resource_history_bytes : Z;
  resource_new_accounts : Z;
  resource_market_bytes : Z;
  resource_state_bytes : Z;
  resource_execution_time : Z
}.

Definition no_usage : resource_count_type := ResourceCount 0 0 0 0 0.

(** What visiting one operation adds to the counters of [count_operation_visitor]. *)
Record charge : Set := Charge {
  market_ops : Z;
  new_accounts : Z;
  state_bytes : Z;
  execution_time : Z
}.

Definition plain (state time : Z) : charge := Charge 0 0 state time.
Definition market (state time : Z) : charge := Charge 1 0 state time.

(** Lengths of strings and containers. *)
Definition ssize (s : string) : Z := Z.of_nat (String.length s).
Definition vsize {A} (l : list A) : Z := Z.of_nat (length l).

(** Hours, rounded up; the difference of two times is taken on 32 bits. *)
Definition hours_until (until now : time_point_sec) : Z := u32 (until - now + 3600 - 1) / 3600.

Section visitor.
Context (now : time_point_sec).

Abbreviation w := size_info.
Abbreviation e := exec_info.

Definition get_authority_dynamic_size (auth : authority) : Z :=
  authority_account_member_size w * vsize (account_auths auth)
  + authority_key_member_size w * vsize (key_auths auth).

Definition new_account_size (o a p : authority) : Z :=
  account_create_base_size w + get_authority_dynamic_size o + get_authority_dynamic_size a
  + get_authority_dynamic_size p.

Definition updated_authorities_size (o a p : option authority) : Z :=
  from_option (λ auth, get_authority_dynamic_size auth + owner_authority_history_object_size w) 0 o
  + from_option get_authority_dynamic_size 0 a + from_option get_authority_dynamic_size 0 p.

Definition extension_size (x : comment_options_extension) : Z :=
  match x with
  | ext_beneficiaries bens => comment_beneficiaries_member_size w * vsize (payout_beneficiaries bens)
  end.

(** The product of two [uint16_t] is computed as an [int]. *)
Definition recurrent_lifetime (recurrence executions : Z) : result Z :=
  if recurrence * executions <=? i32_max then Ok (u32 (recurrence * executions))
  else Throw undefined_behaviour.

(** The overloads of [count_operation_visitor::operator()]; the last case is the one of
    virtual operations. *)
Definition operation_charge (op : operation) : result charge :=
  match op with
  | op_account_create o =>
      Ok (plain (new_account_size (account_create_owner o) (account_create_active o)
        (account_create_posting o)) (account_create_time e))
  | op_account_create_with_delegation o =>
      Ok (plain (new_account_size (account_create_with_delegation_owner o)
        (account_create_with_delegation_active o) (account_create_with_delegation_posting o)
        + vesting_delegation_object_size w) (account_create_with_delegation_time e))
  | op_account_witness_vote o =>
      Ok (plain (if account_witness_vote_approve o then account_witness_vote_size w else 0)
        (account_witness_vote_time e))
  | op_comment o =>
      Ok (plain (comment_base_size w + comment_permlink_char_size w * ssize (comment_permlink o))
        (comment_time e))
  | op_comment_options o =>
      Ok (plain (sumZ (extension_size <$> comment_options_extensions o)) (comment_options_time e))
  | op_convert _ => Ok (plain (convert_size w) (convert_time e))
  | op_collateralized_convert _ =>
      Ok (plain (collateralized_convert_size w) (collateralized_convert_time e))
  | op_create_claimed_account o =>
      Ok (plain (new_account_size (create_claimed_account_owner o) (create_claimed_account_active o)
        (create_claimed_account_posting o)) (create_claimed_account_time e))
  | op_decline_voting_rights o =>
      Ok (plain (if decline_voting_rights_decline o then decline_voting_rights_size w else 0)
        (decline_voting_rights_time e))
  | op_delegate_vesting_shares o =>
      Ok (plain (if 0 <? amount (delegate_vesting_shares_vesting_shares o)
        then delegate_vesting_shares_size w else vesting_delegation_expiration_object_size w)
        (delegate_vesting_shares_time e))
  | op_escrow_transfer _ => Ok (plain (escrow_transfer_size w) (escrow_transfer_time e))
  | op_limit_order_create o =>
      Ok (market (if limit_order_create_fill_or_kill o then 0 else limit_order_create_size w)
        (limit_order_create_time e))
  | op_limit_order_create2 o =>
      Ok (market (if limit_order_create2_fill_or_kill o then 0 else limit_order_create_size w)
        (limit_order_create2_time e))
  | op_request_account_recovery o =>
      Ok (plain (if weight_threshold (request_account_recovery_new_owner_authority o) =? 0
        then 0 else request_account_recovery_size w) (request_account_recovery_time e))
  | op_set_withdraw_vesting_route o =>
      Ok (plain (if set_withdraw_vesting_route_percent o =? 0
        then 0 else set_withdraw_vesting_route_size w) (set_withdraw_vesting_route_time e))
  | op_vote _ => Ok (plain (vote_size w) (vote_time e))
  | op_witness_update o =>
      Ok (plain (witness_update_base_size w
        + witness_update_url_char_size w * ssize (witness_update_url o)) (witness_update_time e))
  | op_transfer _ => Ok (market 0 (transfer_time e))
  | op_transfer_to_vesting _ =>
      Ok (market (transfer_to_vesting_size w) (transfer_to_vesting_time e))
  | op_transfer_to_savings _ => Ok (plain 0 (transfer_to_savings_time e))
  | op_transfer_from_savings _ =>
      Ok (plain (transfer_from_savings_size w) (transfer_from_savings_time e))
  | op_claim_reward_balance _ => Ok (plain 0 (claim_reward_balance_time e))
  | op_withdraw_vesting _ => Ok (plain 0 (withdraw_vesting_time e))
  | op_account_update o =>
      Ok (plain (updated_authorities_size (account_update_owner o) (account_update_active o)
        (account_update_posting o)) (account_update_time e))
  | op_account_update2 o =>
      Ok (plain (updated_authorities_size (account_update2_owner o) (account_update2_active o)
        (account_update2_posting o)) (account_update2_time e))
  | op_account_witness_proxy _ => Ok (plain 0 (account_witness_proxy_time e))
  | op_cancel_transfer_from_savings _ => Ok (plain 0 (cancel_transfer_from_savings_time e))
  | op_change_recovery_account _ =>
      Ok (plain (change_recovery_account_size w) (change_recovery_account_time e))
  | op_claim_account o =>
      Ok (Charge 0 (if amount (claim_account_fee o) =? 0 then 1 else 0) 0 (claim_account_time e))
  | op_custom _ => Ok (plain 0 (custom_time e))
  | op_custom_json _ => Ok (plain 0 (custom_json_time e))
  | op_custom_binary _ => Ok (plain 0 (custom_binary_time e))
  | op_delete_comment _ => Ok (plain 0 (delete_comment_time e))
  | op_escrow_approve _ => Ok (plain 0 (escrow_approve_time e))
  | op_escrow_dispute _ => Ok (plain 0 (escrow_dispute_time e))
  | op_escrow_release _ => Ok (plain 0 (escrow_release_time e))
  | op_feed_publish _ => Ok (plain 0 (feed_publish_time e))
  | op_limit_order_cancel _ => Ok (plain 0 (limit_order_cancel_time e))
  | op_witness_set_properties _ => Ok (plain 0 (witness_set_properties_time e))
  | op_create_proposal o =>
      fc_assert (now <? create_proposal_end_date o) "op.end_date > _now" ;;
      let lifetime := hours_until (create_proposal_end_date o) now in
      let proposal_size := create_proposal_base_size w
        + create_proposal_subject_permlink_char_size w
          * (ssize (create_proposal_subject o) + ssize (create_proposal_permlink o)) in
      Ok (plain (proposal_size * lifetime) (create_proposal_time e))
  | op_update_proposal _ => Ok (plain 0 (update_proposal_time e))
  | op_update_proposal_votes o =>
      Ok (plain (if update_proposal_votes_approve o
        then update_proposal_votes_member_size w * vsize (update_proposal_votes_proposal_ids o)
        else 0) (update_proposal_votes_time e))
  | op_remove_proposal _ => Ok (plain 0 (remove_proposal_time e))
  | op_recurrent_transfer o =>
      state ← (if 0 <? amount (recurrent_transfer_amount o) then
          lifetime ← recurrent_lifetime (recurrent_transfer_recurrence o)
            (recurrent_transfer_executions o);
          Ok ((recurrent_transfer_base_size w
            + recurrent_transfer_memo_char_size w * ssize (recurrent_transfer_memo o)) * lifetime)
        else Ok 0);
      Ok (market state (recurrent_transfer_base_time e
        + recurrent_transfer_processing_time e * recurrent_transfer_executions o))
  | op_recover_account o =>
      Ok (plain (get_authority_dynamic_size (recover_account_new_owner_authority o)
        + owner_authority_history_object_size w) (recover_account_time e))
  | op_witness_block_approve _ | op_pow _ | op_pow2 _ | op_reset_account _
  | op_set_reset_account _ => Ok (plain 0 0)
  | _ => Ok (plain 0 0)
  end.

(** The overload of [delegate_rc_operation], a custom operation. *)
Definition delegate_rc_charge (max_rc : Z) (delegatees : list string) : charge :=
  plain (if max_rc =? 0 then 0 else delegate_rc_base_size w * vsize delegatees) (delegate_rc_time e).

(** [count_operation_visitor]. *)
Record count_operation_visitor : Set := CountVisitor {
  market_op_count : Z;
  new_account_op_count : Z;
  state_bytes_count : Z;
  execution_time_count : Z;
  subsidized_op : bool;
  subsidized_signatures : Z
}.

Definition count_visit (v : count_operation_visitor) (op : operation) : result count_operation_visitor :=
  c ← operation_charge op;
  state ← signed64 (state_bytes_count v + state_bytes c);
  time ← signed64 (execution_time_count v + execution_time c);
  let '(subsidized, sigs) :=
    match op with
    | op_recover_account o =>
        let auth := recover_account_new_owner_authority o in
        (vsize (account_auths auth) + vsize (key_auths auth) =? 1, 2)
    | _ => (subsidized_op v, subsidized_signatures v)
    end in
  Ok (CountVisitor (market_op_count v + market_ops c) (new_account_op_count v + new_accounts c)
    state time subsidized sigs).

(** The lambda [prevent_negative]. *)
Definition prevent_negative (r : resource_count_type) : resource_count_type :=
  ResourceCount (Z.max (resource_history_bytes r) 0) (Z.max (resource_new_accounts r) 0)
    (Z.max (resource_market_bytes r) 0) (Z.max (resource_state_bytes r) 0)
    (Z.max (resource_execution_time r) 0).

(** [used] is the usage collected while the transaction was applied; discounts make it
    negative. *)
Definition count_resources (tx : signed_transaction) (tx_size : Z) (used : resource_count_type) :
    result resource_count_type :=
  vtor ← foldM count_visit (CountVisitor 0 0 0 0 false 0) (operations (trx tx));
  if subsidized_op vtor && (vsize (operations (trx tx)) =? 1)
     && (vsize (signatures tx) <=? subsidized_signatures vtor)
  then Ok (prevent_negative used)
  else
    history ← signed64 (resource_history_bytes used + tx_size);
    accounts ← signed64 (resource_new_accounts used + new_account_op_count vtor);
    market ← (if 0 <? market_op_count vtor then signed64 (resource_market_bytes used + tx_size)
              else Ok (resource_market_bytes used));
    let expiration_hours := hours_until (expiration (trx tx)) now in
    state ← signed64 (resource_state_bytes used
      + (state_bytes_count vtor + transaction_base_size w * expiration_hours));
    time ← signed64 (resource_execution_time used
      + (execution_time_count vtor + transaction_time e
         + verify_authority_time e * vsize (signatures tx)));
    Ok (prevent_negative (ResourceCount history accounts market state time)).

End visitor.

(** ** The charges of operations are bounded *)

(** The number of characters and members that enter the size of an operation. *)
Definition authority_items (a : authority) : Z := vsize (account_auths a) + vsize (key_auths a).

Definition operation_items (op : operation) : Z :=
  match op with
  | op_account_create o => authority_items (account_create_owner o)
      + authority_items (account_create_active o) + authority_items (account_create_posting o)
  | op_account_create_with_delegation o => authority_items (account_create_with_delegation_owner o)
      + authority_items (account_create_with_delegation_active o)
      + authority_items (account_create_with_delegation_posting o)
  | op_create_claimed_account o => authority_items (create_claimed_account_owner o)
      + authority_items (create_claimed_account_active o)
      + authority_items (create_claimed_account_posting o)
  | op_account_update o => from_option authority_items 0 (account_update_owner o)
      + from_option authority_items 0 (account_update_active o)
      + from_option authority_items 0 (account_update_posting o)
  | op_account_update2 o => from_option authority_items 0 (account_update2_owner o)
      + from_option authority_items 0 (account_update2_active o)
      + from_option authority_items 0 (account_update2_posting o)
  | op_recover_account o => authority_items (recover_account_new_owner_authority o)
  | op_comment o => ssize (comment_permlink o)
  | op_comment_options o => sumZ ((λ x, match x with
      | ext_beneficiaries b => vsize (payout_beneficiaries b) end) <$> comment_options_extensions o)
  | op_witness_update o => ssize (witness_update_url o)
  | op_create_proposal o => ssize (create_proposal_subject o) + ssize (create_proposal_permlink o)
  | op_update_proposal_votes o => vsize (update_proposal_votes_proposal_ids o)
  | op_recurrent_transfer o => ssize (recurrent_transfer_memo o)
  | _ => 0
  end.

(** Operations of transactions that fit in a block, whose proposals end in the future and
    whose recurrent transfers end within the time the operation may ask for. *)
Definition countable (now : time_point_sec) (op : operation) : Prop :=
  operation_items op ≤ 2 ^ 16 ∧
  match op with
  | op_create_proposal o => now < create_proposal_end_date o
  | op_recurrent_transfer o =>
      0 ≤ recurrent_transfer_recurrence o ∧ 0 ≤ recurrent_transfer_executions o ≤ u16_max ∧
      recurrent_transfer_recurrence o * recurrent_transfer_executions o ≤ i32_max
  | _ => True
  end.

Lemma ssize_nonneg s : 0 ≤ ssize s.
Proof. unfold ssize. lia. Qed.
Lemma size_nonneg {A} (l : list A) : 0 ≤ vsize l.
Proof. unfold vsize. lia. Qed.

Definition small_charge (c : charge) : Prop :=
  0 ≤ market_ops c ≤ 1 ∧ 0 ≤ new_accounts c ≤ 1 ∧ 0 ≤ state_bytes c ≤ 2 ^ 48 ∧
  0 ≤ execution_time c ≤ 2 ^ 30.

Lemma hours_until_bound a b : 0 ≤ hours_until a b ≤ 1193046.
Proof.
  unfold hours_until. pose proof (u32_bound (a - b + 3600 - 1)) as Hb. unfold u32_max in Hb.
  split; [apply Z.div_pos; lia|]. apply Z.lt_succ_r, Z.div_lt_upper_bound; lia.
Qed.

Lemma authority_size_bound a :
  0 ≤ get_authority_dynamic_size a ≤ 36 * 43800 * authority_items a.
Proof.
  unfold get_authority_dynamic_size, authority_items. cbn [size_info authority_account_member_size
    authority_key_member_size].
  pose proof (size_nonneg (account_auths a)). pose proof (size_nonneg (key_auths a)). lia.
Qed.

Lemma optional_size_bound o : 0 ≤ from_option authority_items 0 o ∧
  0 ≤ from_option get_authority_dynamic_size 0 o ≤ 36 * 43800 * from_option authority_items 0 o.
Proof.
  destruct o as [a|]; simpl; [|lia]. pose proof (authority_size_bound a).
  unfold authority_items. pose proof (size_nonneg (account_auths a)).
  pose proof (size_nonneg (key_auths a)). unfold authority_items in *. lia.
Qed.

Lemma updated_size_bound o a p :
  0 ≤ updated_authorities_size o a p ≤
  36 * 43800 * (from_option authority_items 0 o + from_option authority_items 0 a
    + from_option authority_items 0 p) + 120960.
Proof.
  pose proof (optional_size_bound o). pose proof (optional_size_bound a).
  pose proof (optional_size_bound p). unfold updated_authorities_size.
  assert (0 ≤ from_option (λ auth, get_authority_dynamic_size auth
    + owner_authority_history_object_size size_info) 0 o
    ≤ from_option get_authority_dynamic_size 0 o + 120960).
  { change (owner_authority_history_object_size size_info) with 120960.
    destruct o as [x|]; cbn [from_option] in *; lia. }
  lia.
Qed.

Lemma extensions_size_bound l :
  0 ≤ sumZ (extension_size <$> l) ≤ 1344 * sumZ ((λ x, match x with
      | ext_beneficiaries b => vsize (payout_beneficiaries b) end) <$> l).
Proof.
  induction l as [|[b] l IH]; [simpl; lia|]. rewrite !fmap_cons, !sumZ_cons.
  pose proof (size_nonneg (payout_beneficiaries b)). cbn [extension_size].
  change (comment_beneficiaries_member_size size_info) with 1344. lia.
Qed.

(** The charge of an operation without variable parts. *)
Ltac fixed_charge :=
  lazymatch goal with
  | H : 0 <= _ |- _ => eexists; split; [reflexivity|];
      repeat case_match; repeat split; vm_compute; discriminate
  end.

(** Name the constants that enter a bound. *)
Ltac sizes :=
  cbn [plain market market_ops new_accounts state_bytes execution_time];
  cbv [size_info exec_info account_create_base_size vesting_delegation_object_size
    comment_base_size comment_permlink_char_size witness_update_base_size
    witness_update_url_char_size create_proposal_base_size owner_authority_history_object_size
    create_proposal_subject_permlink_char_size update_proposal_votes_member_size
    recurrent_transfer_base_size recurrent_transfer_memo_char_size account_create_time
    account_create_with_delegation_time create_claimed_account_time comment_time
    comment_options_time witness_update_time create_proposal_time update_proposal_votes_time
    recurrent_transfer_base_time recurrent_transfer_processing_time recover_account_time
    account_update_time account_update2_time new_account_size].

Lemma account_charge_small o a p extra time :
  authority_items o + authority_items a + authority_items p ≤ 2 ^ 16 →
  0 ≤ extra ≤ 2 ^ 32 → 0 ≤ time ≤ 2 ^ 30 →
  small_charge (plain (new_account_size o a p + extra) time).
Proof.
  intros Hi He Ht. pose proof (authority_size_bound o). pose proof (authority_size_bound a).
  pose proof (authority_size_bound p). unfold small_charge. sizes. lia.
Qed.

Lemma operation_charge_small now op : countable now op →
  ∃ c, operation_charge now op = Ok c ∧ small_charge c.
Proof.
  intros [Hi Hx]. destruct op; cbn [operation_charge operation_items] in *; try fixed_charge.
  all: try (eexists; split; [reflexivity|]).
  - (* comment *) pose proof (ssize_nonneg (comment_permlink o)). unfold small_charge. sizes. lia.
  - (* account_create *) rewrite <- (Z.add_0_r (new_account_size _ _ _)).
    apply account_charge_small; [done|lia|]. sizes. lia.
  - (* account_update *) pose proof (updated_size_bound (account_update_owner o)
      (account_update_active o) (account_update_posting o)). unfold small_charge. sizes. lia.
  - (* witness_update *) pose proof (ssize_nonneg (witness_update_url o)).
    unfold small_charge. sizes. lia.
  - (* comment_options *) pose proof (extensions_size_bound (comment_options_extensions o)).
    unfold small_charge. sizes. lia.
  - (* create_claimed_account *) rewrite <- (Z.add_0_r (new_account_size _ _ _)).
    apply account_charge_small; [done|lia|]. sizes. lia.
  - (* recover_account *)
    pose proof (authority_size_bound (recover_account_new_owner_authority o)).
    unfold small_charge. sizes. lia.
  - (* account_create_with_delegation *)
    apply account_charge_small; [done|sizes; lia|]. sizes. lia.
  - (* account_update2 *) pose proof (updated_size_bound (account_update2_owner o)
      (account_update2_active o) (account_update2_posting o)). unfold small_charge. sizes. lia.
  - (* create_proposal *) rewrite fc_assert_true by (by apply Z.ltb_lt). cbn [mbind result_bind].
    eexists; split; [reflexivity|].
    pose proof (hours_until_bound (create_proposal_end_date o) now).
    pose proof (ssize_nonneg (create_proposal_subject o)).
    pose proof (ssize_nonneg (create_proposal_permlink o)). unfold small_charge. sizes. nia.
  - (* update_proposal_votes *)
    pose proof (size_nonneg (update_proposal_votes_proposal_ids o)).
    unfold small_charge. case_match; sizes; lia.
  - (* recurrent_transfer *) destruct Hx as (Hr & He & Hl).
    pose proof (ssize_nonneg (recurrent_transfer_memo o)). unfold u16_max, i32_max in *.
    unfold recurrent_lifetime. rewrite (proj2 (Z.leb_le _ _)) by (unfold i32_max; lia).
    cbn [mbind result_bind]. rewrite u32_id by (unfold u32_max; nia).
    case_match; cbn [mbind result_bind]; eexists; (split; [reflexivity|]); unfold small_charge; sizes; nia.
Qed.

(** ** The counts of transactions *)

Definition charge_of (now : time_point_sec) (op : operation) : charge :=
  match operation_charge now op with Ok c => c | Throw _ => plain 0 0 end.

(** The total of a component of the charges. *)
Definition total (f : charge → Z) (now : time_point_sec) (ops : list operation) : Z :=
  sumZ ((λ op, f (charge_of now op)) <$> ops).

Lemma total_perm f now ops ops' : ops ≡ₚ ops' → total f now ops = total f now ops'.
Proof.
  intros Hp. unfold total. induction Hp; [done| | |congruence];
    rewrite ?fmap_cons, ?sumZ_cons; lia.
Qed.

Section counting.
Context (now : time_point_sec).

Lemma charge_of_Ok op : countable now op →
  operation_charge now op = Ok (charge_of now op) ∧ small_charge (charge_of now op).
Proof using.
  intros Hc. destruct (operation_charge_small now op Hc) as (c & Hop & Hs).
  unfold charge_of. by rewrite Hop.
Qed.

Lemma total_cons f op ops : total f now (op :: ops) = f (charge_of now op) + total f now ops.
Proof using. unfold total. by rewrite fmap_cons, sumZ_cons. Qed.

Lemma totals_bounded ops : Forall (countable now) ops →
  0 ≤ total market_ops now ops ≤ vsize ops ∧ 0 ≤ total new_accounts now ops ≤ vsize ops ∧
  0 ≤ total state_bytes now ops ≤ 2 ^ 48 * vsize ops ∧
  0 ≤ total execution_time now ops ≤ 2 ^ 30 * vsize ops.
Proof using.
  induction 1 as [|op ops Hop Hops IH]; [done|].
  destruct (charge_of_Ok op Hop) as [_ (H1 & H2 & H3 & H4)].
  rewrite !total_cons. unfold vsize in *. cbn [length]. lia.
Qed.

Lemma count_visit_exact op v : countable now op →
  0 ≤ state_bytes_count v → state_bytes_count v + 2 ^ 48 ≤ i64_max →
  0 ≤ execution_time_count v → execution_time_count v + 2 ^ 30 ≤ i64_max →
  ∃ b s, count_visit now v op =
    Ok (CountVisitor (market_op_count v + market_ops (charge_of now op))
      (new_account_op_count v + new_accounts (charge_of now op))
      (state_bytes_count v + state_bytes (charge_of now op))
      (execution_time_count v + execution_time (charge_of now op)) b s).
Proof using.
  intros Hop H1 H2 H3 H4. destruct (charge_of_Ok op Hop) as [Hc (B1 & B2 & B3 & B4)].
  unfold count_visit. rewrite Hc. cbn [mbind result_bind].
  rewrite !signed64_Ok by (unfold i64_max, i64_min in *; lia). cbn [mbind result_bind].
  destruct (match op with op_recover_account _ => _ | _ => _ end) as [b0 s0]. by do 2 eexists.
Qed.

(** Visiting adds the totals, without overflow while they fit. *)
Lemma visits_exact ops v : Forall (countable now) ops →
  0 ≤ state_bytes_count v → state_bytes_count v + 2 ^ 48 * vsize ops ≤ i64_max →
  0 ≤ execution_time_count v → execution_time_count v + 2 ^ 30 * vsize ops ≤ i64_max →
  ∃ b s, foldM (count_visit now) v ops =
    Ok (CountVisitor (market_op_count v + total market_ops now ops)
      (new_account_op_count v + total new_accounts now ops)
      (state_bytes_count v + total state_bytes now ops)
      (execution_time_count v + total execution_time now ops) b s).
Proof using.
  intros Hops. revert v. induction Hops as [|op ops Hop Hops IH]; intros v H1 H2 H3 H4.
  - destruct v. cbn. rewrite !Z.add_0_r. by do 2 eexists.
  - destruct (charge_of_Ok op Hop) as [Hc (B1 & B2 & B3 & B4)].
    assert (vsize (op :: ops) = 1 + vsize ops) as Hs by (unfold vsize; cbn [length]; lia).
    rewrite Hs in *. pose proof (size_nonneg ops) as Hn.
    destruct (count_visit_exact op v Hop) as (b0 & s0 & Hv); [lia..|].
    cbn [foldM]. rewrite Hv. cbn [mbind result_bind].
    destruct (IH (CountVisitor (market_op_count v + market_ops (charge_of now op))
      (new_account_op_count v + new_accounts (charge_of now op))
      (state_bytes_count v + state_bytes (charge_of now op))
      (execution_time_count v + execution_time (charge_of now op)) b0 s0))
      as (b & s & ->); cbn [state_bytes_count execution_time_count]; [lia..|].
    exists b, s. rewrite !total_cons. cbn [market_op_count new_account_op_count]. do 2 f_equal; lia.
Qed.

End counting.

(** Transactions that are free: a single recovery to a single key or account, with at most two
    signatures. *)
Definition subsidized (tx : signed_transaction) : bool :=
  match operations (trx tx) with
  | [op_recover_account o] =>
      (authority_items (recover_account_new_owner_authority o) =? 1) && (vsize (signatures tx) <=? 2)
  | _ => false
  end.

Lemma subsidized_visits now ops v sigs :
  foldM (count_visit now) (CountVisitor 0 0 0 0 false 0) ops = Ok v →
  subsidized_op v && (vsize ops =? 1) && (vsize sigs <=? subsidized_signatures v) =
  match ops with
  | [op_recover_account o] =>
      (authority_items (recover_account_new_owner_authority o) =? 1) && (@vsize signature_type sigs <=? 2)
  | _ => false
  end.
Proof.
  intros Hf. destruct ops as [|op [|op2 ops]].
  - injection Hf as <-. done.
  - cbn [foldM] in Hf. apply bind_Ok in Hf as (v1 & Hv & Hf). injection Hf as <-.
    unfold count_visit in Hv. apply bind_Ok in Hv as (c & _ & Hv).
    apply bind_Ok in Hv as (s & _ & Hv). apply bind_Ok in Hv as (t & _ & Hv).
    destruct op; injection Hv as <-; cbn [subsidized_op subsidized_signatures]; try done.
    change (vsize [_] =? 1) with true. by rewrite andb_true_r.
  - assert ((vsize (op :: op2 :: ops) =? 1) = false) as ->.
    { apply Z.eqb_neq. unfold vsize. cbn [length]. lia. }
    rewrite andb_false_r. by destruct op.
Qed.

(** What a transaction uses, on unbounded integers. *)
Definition exact_usage (now : time_point_sec) (tx : signed_transaction) (tx_size : Z) :
    resource_count_type :=
  let ops := operations (trx tx) in
  ResourceCount tx_size (total new_accounts now ops)
    (if 0 <? total market_ops now ops then tx_size else 0)
    (total state_bytes now ops + 128 * hours_until (expiration (trx tx)) now)
    (total execution_time now ops + 6622 + 94165 * vsize (signatures tx)).

Definition add_usage (a b : resource_count_type) : resource_count_type :=
  ResourceCount (resource_history_bytes a + resource_history_bytes b)
    (resource_new_accounts a + resource_new_accounts b)
    (resource_market_bytes a + resource_market_bytes b)
    (resource_state_bytes a + resource_state_bytes b)
    (resource_execution_time a + resource_execution_time b).

Definition usage_within (limit : Z) (r : resource_count_type) : Prop :=
  Z.abs (resource_history_bytes r) ≤ limit ∧ Z.abs (resource_new_accounts r) ≤ limit ∧
  Z.abs (resource_market_bytes r) ≤ limit ∧ Z.abs (resource_state_bytes r) ≤ limit ∧
  Z.abs (resource_execution_time r) ≤ limit.

(** A transaction that a block can hold. *)
Definition countable_tx (now : time_point_sec) (tx : signed_transaction) (tx_size : Z) : Prop :=
  Forall (countable now) (operations (trx tx)) ∧ vsize (operations (trx tx)) ≤ 2 ^ 13 ∧
  vsize (signatures tx) ≤ 2 ^ 16 ∧ 0 ≤ tx_size ≤ 2 ^ 32.

Lemma count_resources_exact now tx tx_size used :
  countable_tx now tx tx_size → usage_within (2 ^ 61) used →
  count_resources now tx tx_size used =
  Ok (prevent_negative
    (if subsidized tx then used else add_usage used (exact_usage now tx tx_size))).
Proof.
  intros (Hops & Hn & Hsig & Hsize) (U1 & U2 & U3 & U4 & U5). unfold count_resources.
  pose proof (size_nonneg (signatures tx)). pose proof (size_nonneg (operations (trx tx))).
  pose proof (totals_bounded now _ Hops) as (T1 & T2 & T3 & T4).
  destruct (visits_exact now (operations (trx tx)) (CountVisitor 0 0 0 0 false 0) Hops)
    as (b & s & Hv); [cbn; unfold i64_max; lia..|].
  rewrite Hv. cbn [mbind result_bind].
  rewrite (subsidized_visits _ _ _ (signatures tx) Hv). fold (subsidized tx).
  destruct (subsidized tx); [done|].
  cbn [market_op_count new_account_op_count state_bytes_count execution_time_count].
  rewrite !Z.add_0_l.
  pose proof (hours_until_bound (expiration (trx tx)) now).
  change (transaction_base_size size_info) with 128.
  change (transaction_time exec_info) with 6622.
  change (verify_authority_time exec_info) with 94165.
  rewrite !signed64_Ok by (unfold i64_max, i64_min; lia). cbn [mbind result_bind].
  unfold exact_usage, add_usage. cbn [resource_history_bytes resource_new_accounts
    resource_market_bytes resource_state_bytes resource_execution_time].
  destruct (0 <? total market_ops now (operations (trx tx))); cbn [mbind result_bind];
    [done|by rewrite Z.add_0_r].
Qed.

(** C29. The resources charged to a transaction are exactly the sums of what its operations, its
    size, its lifetime and its signatures cost, on top of what was collected while it was
    applied: within the sizes a block allows nothing overflows, no component is negative, the
    order of the operations does not matter, an account recovery is free only as the single
    operation of a transaction with at most two signatures, and any other transaction without
    discount pays at least for its size, its processing and its signatures. *)
Theorem resource_usage_exact now tx tx_size used ops' :
  countable_tx now tx tx_size → usage_within (2 ^ 61) used →
  operations (trx tx) ≡ₚ ops' →
  ∃ r, count_resources now tx tx_size used = Ok r ∧
    r = prevent_negative
      (if subsidized tx then used else add_usage used (exact_usage now tx tx_size)) ∧
    count_resources now (SignedTransaction (Transaction (ref_block_num (trx tx))
      (ref_block_prefix (trx tx)) (expiration (trx tx)) ops' (extensions (trx tx)))
      (signatures tx)) tx_size used = Ok r ∧
    (subsidized tx = false → used = no_usage →
      resource_history_bytes r = tx_size ∧
      6622 + 94165 * vsize (signatures tx) ≤ resource_execution_time r) ∧
    0 ≤ resource_history_bytes r ∧ 0 ≤ resource_new_accounts r ∧ 0 ≤ resource_market_bytes r ∧
    0 ≤ resource_state_bytes r ∧ 0 ≤ resource_execution_time r.
Proof.
  intros Htx Hu Hp. eexists. split; [by apply count_resources_exact|]. split; [done|].
  pose proof Htx as (Hops & Hn & Hsig & Hsize). set (tx' := SignedTransaction _ _).
  assert (vsize ops' = vsize (operations (trx tx))) as Hlen by (unfold vsize; by rewrite Hp).
  assert (countable_tx now tx' tx_size) as Htx'.
  { split; [cbn; by rewrite <- Hp|]. cbn [tx' trx operations signatures]. by rewrite Hlen. }
  assert (subsidized tx' = subsidized tx) as Hs.
  { unfold subsidized. cbn [tx' trx operations signatures].
    destruct (operations (trx tx)) as [|op [|op2 ops]].
    - apply Permutation_nil_l in Hp. by subst.
    - apply Permutation_singleton_l in Hp. by subst.
    - destruct ops' as [|x [|y l]]; [done| |by destruct op, x].
      apply Permutation_length in Hp. done. }
  assert (exact_usage now tx' tx_size = exact_usage now tx tx_size) as Hx.
  { unfold exact_usage. cbn [tx' trx operations signatures expiration].
    by rewrite <- !(total_perm _ now _ _ Hp). }
  split; [by rewrite (count_resources_exact now tx' tx_size used Htx' Hu), Hs, Hx|].
  split; [|cbn; lia]. intros -> ->. pose proof (totals_bounded now _ Hops).
  pose proof (size_nonneg (signatures tx)). cbn [prevent_negative add_usage no_usage exact_usage
    resource_history_bytes resource_execution_time]. lia.
Qed.

Lemma resource_usage_exact_witness :
  let proxy := op_account_witness_proxy (Build_account_witness_proxy_operation "alice" "bob") in
  let vote := op_account_witness_vote (Build_account_witness_vote_operation "alice" "carol" true) in
  ∃ r, count_resources 1000 (SignedTransaction (Transaction 0 0 4600 [proxy; vote] []) []) 200
      no_usage = Ok r ∧
    count_resources 1000 (SignedTransaction (Transaction 0 0 4600 [vote; proxy] []) []) 200
      no_usage = Ok r ∧ resource_history_bytes r = 200.
Proof.
  intros proxy vote.
  destruct (resource_usage_exact 1000 (SignedTransaction (Transaction 0 0 4600 [proxy; vote] []) [])
    200 no_usage [vote; proxy]) as (r & H1 & _ & H2 & H3 & _).
  - split; [|split; [|split]]; [|vm_compute; discriminate..|lia].
    repeat constructor; vm_compute; discriminate.
  - vm_compute. repeat split; discriminate.
  - constructor.
  - exists r. split; [exact H1|]. split; [exact H2|]. by apply H3.
Defined.
