(* ===== verification/RcDelegations.v ===== *)
(** * Delegations of resource credits

    The resource credits of accounts (libraries/chain/rc/rc_utility.cpp): the evaluator of
    [delegate_rc_operation], [regenerate_rc_mana], [update_account_after_rc_delegation],
    [update_account_after_vest_change], [remove_delegations] and
    [handle_expired_delegations].

    [rc_state] holds the accounts, the delegations ([rc_direct_delegation_object], by delegator
    and delegatee), the delegations still to be removed ([rc_expired_delegation_object], in the
    order of their ids) and the usage collected for the transaction.  [rc_env] holds what the
    code reads and does not change.

    The theorems on these operations are in [RcBooks] and [RcExpired]. *)

From S2P Require Import Prelude Safe AssetSymbol Asset OperationTypes Manabar DelayedVotes Account.
From S2P Require Import Governance ResourceDynamics ResourceCount.
Open Scope Z_scope.

Definition HIVE_RC_REGEN_TIME : Z := HIVE_VOTING_MANA_REGENERATION_SECONDS.
Definition HIVE_HARDFORK_1_26 : Z := 26.

(** ** State *)

Record rc_env : Type := RcEnv {
  rc_time : time_point_sec;
  rc_remove_threshold : Z;               (* int16_t *)
  rc_in_control : bool;
  rc_account_creation_fee : Z;
  rc_total_vesting_shares : Z;
  rc_total_vesting_fund_hive : Z;
  rc_processed_hardforks : Z
}.

Record rc_state : Type := RcState {
  rc_accounts : gmap Z account_object;
  rc_delegations : gmap (Z * Z) Z;       (* delegated_rc by ( from, to ), uint64_t *)
  rc_expired : list (Z * Z);             (* ( from, expired_delegation ), uint64_t *)
  rc_usage : resource_count_type
}.

Record delegate_rc_operation : Set := DelegateRc {
  delegate_rc_from : account_name_type;
  delegate_rc_delegatees : list account_name_type;
  delegate_rc_max_rc : Z                 (* int64_t *)
}.

Definition set_rc_accounts (m : gmap Z account_object) (s : rc_state) : rc_state :=
  RcState m (rc_delegations s) (rc_expired s) (rc_usage s).
Definition set_rc_delegations (m : gmap (Z * Z) Z) (s : rc_state) : rc_state :=
  RcState (rc_accounts s) m (rc_expired s) (rc_usage s).
Definition set_rc_expired (l : list (Z * Z)) (s : rc_state) : rc_state :=
  RcState (rc_accounts s) (rc_delegations s) l (rc_usage s).
Definition set_rc_usage (u : resource_count_type) (s : rc_state) : rc_state :=
  RcState (rc_accounts s) (rc_delegations s) (rc_expired s) u.

Definition rc_get_account (i : Z) (s : rc_state) : result account_object :=
  from_option_or out_of_range_exception (rc_accounts s !! i).

(** [find_account( name )], as the id of what it finds. *)
Definition rc_find_account (n : string) (s : rc_state) : option Z :=
  fst <$> head (filter (λ p, name p.2 = n) (map_to_list (rc_accounts s))).
Definition rc_account_id (n : string) (s : rc_state) : result Z :=
  from_option_or out_of_range_exception (rc_find_account n s).

Definition rc_modify_account (i : Z) (f : account_object → result account_object) (s : rc_state) :
    result rc_state :=
  a ← rc_get_account i s;
  a ← f a;
  Ok (set_rc_accounts (<[i := a]> (rc_accounts s)) s).

Section operations.
Context (env : rc_env).

Abbreviation now := (rc_time env).

(** ** Mana *)

Definition rc_mana_regenerated (a : account_object) : result account_object :=
  max_rc ← get_maximum_rc false a;
  m ← regenerate_mana true (ManabarParams max_rc HIVE_RC_REGEN_TIME) now (rc_manabar a);
  Ok (set_rc_manabar m a).

(** The difference of [last_max_rc] from the maximum is only logged. *)
Definition regenerate_rc_mana (i : Z) : rc_state → result rc_state :=
  rc_modify_account i rc_mana_regenerated.

(** The lambda of [update_account_after_rc_delegation]; that the account was not regenerated
    before is only logged. *)
Definition rc_delegation_applied (delta : Z) (regenerate : bool) (a : account_object) :
    result account_object :=
  max_rc ← get_maximum_rc false a;
  m ← (if regenerate
       then regenerate_mana true (ManabarParams max_rc HIVE_RC_REGEN_TIME) now (rc_manabar a)
       else Ok (rc_manabar a));
  mana ← signed64 (current_mana m + delta);
  last_max ← signed64 (max_rc + delta);
  received ← share_add (received_rc a) delta;
  Ok (set_received_rc received (set_last_max_rc last_max
    (set_rc_manabar (Manabar (Z.max mana 0) (last_update_time m)) a))).

Definition update_account_after_rc_delegation (i delta : Z) (regenerate : bool) :
    rc_state → result rc_state :=
  rc_modify_account i (rc_delegation_applied delta regenerate).

(** ** Delegation *)

(** [count_differential_operation_visitor] on [delegate_rc_operation]: the state that existing
    delegations already take, or [None] where no discount applies. *)
Definition delegate_rc_discount (op : delegate_rc_operation) (s : rc_state) : option Z :=
  if delegate_rc_max_rc op =? 0 then None
  else
    from ← rc_find_account (delegate_rc_from op) s;
    usage ← foldr (λ n acc,
      usage ← acc;
      to ← rc_find_account n s;
      Some (usage + match rc_delegations s !! (from, to) with
                    | Some _ => delegate_rc_base_size size_info
                    | None => 0
                    end)) (Some 0) (delegate_rc_delegatees op);
    if usage =? 0 then None else Some usage.

Definition handle_operation_discount (op : delegate_rc_operation) (s : rc_state) : rc_state :=
  match delegate_rc_discount op s with
  | None => s
  | Some bytes =>
      let u := rc_usage s in
      set_rc_usage (ResourceCount (resource_history_bytes u) (resource_new_accounts u)
        (resource_market_bytes u) (resource_state_bytes u - bytes) (resource_execution_time u)) s
  end.

Definition handle_custom_op_usage (op : delegate_rc_operation) (s : rc_state) : rc_state :=
  let c := delegate_rc_charge (delegate_rc_max_rc op) (delegate_rc_delegatees op) in
  let u := rc_usage s in
  set_rc_usage (ResourceCount (resource_history_bytes u)
    (resource_new_accounts u + new_accounts c) (resource_market_bytes u)
    (resource_state_bytes u + state_bytes c) (resource_execution_time u + execution_time c)) s.

Definition get_vesting_share_price : result price :=
  if (rc_total_vesting_fund_hive env =? 0) || (rc_total_vesting_shares env =? 0)
  then make_price (Asset 1000000 VESTS_SYMBOL) (Asset 1000 HIVE_SYMBOL)
  else make_price (Asset (rc_total_vesting_shares env) VESTS_SYMBOL)
         (Asset (rc_total_vesting_fund_hive env) HIVE_SYMBOL).

Definition min_delegation : result Z :=
  third ← share_div (rc_account_creation_fee env) 3;
  p ← get_vesting_share_price;
  a ← asset_mul_price (Asset third HIVE_SYMBOL) p;
  Ok (amount a).

(** The body of the loop over the delegatees. *)
Definition delegate_to (from max_rc : Z) (acc : rc_state * Z) (to_name : account_name_type) :
    result (rc_state * Z) :=
  let '(s, delta_total) := acc in
  to ← rc_account_id to_name s;
  s ← regenerate_rc_mana to s;
  '(s, delta) ←
    match rc_delegations s !! (from, to) with
    | None =>
        fc_assert (negb (max_rc =? 0)) "Cannot delegate 0 if you are creating new rc delegation" ;;
        Ok (set_rc_delegations (<[(from, to) := u64 max_rc]> (rc_delegations s)) s, max_rc)
    | Some delegated =>
        fc_assert (negb (delegated =? u64 max_rc))
          "A delegation to that user with the same amount of RC already exists" ;;
        let delta := i64 (max_rc - delegated) in
        Ok (if max_rc =? 0
            then set_rc_delegations (delete (from, to) (rc_delegations s)) s
            else set_rc_delegations (<[(from, to) := u64 max_rc]> (rc_delegations s)) s, delta)
    end;
  s ← update_account_after_rc_delegation to delta false s;
  delta_total ← signed64 (delta_total + delta);
  Ok (s, delta_total).

Definition has_expired_delegation (i : Z) (s : rc_state) : bool :=
  bool_decide (i ∈ (rc_expired s).*1).

Definition delegate_rc_evaluator (op : delegate_rc_operation) (s : rc_state) : result rc_state :=
  if negb (HIVE_HARDFORK_1_26 <? rc_processed_hardforks env) then Ok s
  else
    let s := handle_operation_discount op s in
    (if negb (delegate_rc_max_rc op =? 0) && rc_in_control env then
       min ← min_delegation;
       fc_assert (min <=? delegate_rc_max_rc op) "Cannot delegate less than ${min_delegation} rc"
     else Ok tt) ;;
    from ← rc_account_id (delegate_rc_from op) s;
    s ← regenerate_rc_mana from s;
    fc_assert (negb (rc_in_control env) || negb (has_expired_delegation from s))
      "Cannot delegate RC while processing of previous delegation has not finished." ;;
    '(s, delta_total) ← foldM (delegate_to from (delegate_rc_max_rc op)) (s, 0)
      (delegate_rc_delegatees op);
    from_account ← rc_get_account from s;
    own ← get_maximum_rc true from_account;
    fc_assert (delta_total <=? Z.min own (current_mana (rc_manabar from_account)))
      "Account ${a} has insufficient RC (have ${h}, needs ${n})" ;;
    s ← rc_modify_account from (λ a,
      a ← (if 0 <? delta_total then
             mana ← signed64 (current_mana (rc_manabar a) - delta_total);
             Ok (set_rc_manabar (Manabar mana (last_update_time (rc_manabar a))) a)
           else Ok a);
      delegated ← share_add (delegated_rc a) delta_total;
      let a := set_delegated_rc delegated a in
      max_rc ← get_maximum_rc false a;
      Ok (set_last_max_rc max_rc a)) s;
    Ok (handle_custom_op_usage op s).

(** ** Removal of delegations *)

(** The delegatees of an account, in the order of the index [by_from_to]. *)
Definition delegatees_of (from : Z) (s : rc_state) : list Z :=
  merge_sort Z.le (snd <$> filter (λ k, k.1 = from) (fst <$> map_to_list (rc_delegations s))).

(** The loop over the delegations of [from]: what is left of the overflow and of the limit on
    removals. *)
Fixpoint remove_delegations_while (from : Z) (l : list Z) (overflow limit : Z) (s : rc_state) :
    result (rc_state * Z * Z) :=
  match l with
  | [] => Ok (s, overflow, limit)
  | to :: l =>
      if overflow <=? 0 then Ok (s, overflow, limit)
      else
        delegated ← from_option_or out_of_range_exception (rc_delegations s !! (from, to));
        let delta_rc := Z.min overflow (i64 delegated) in
        if u64 delta_rc <? delegated then
          let s := set_rc_delegations
            (<[(from, to) := u64 (delegated - delta_rc)]> (rc_delegations s)) s in
          s ← update_account_after_rc_delegation to (- delta_rc) true s;
          remove_delegations_while from l (overflow - delta_rc) limit s
        else
          let '(limit, ok) := remove_guard_step limit in
          if ok : bool then
            let s := set_rc_delegations (delete (from, to) (rc_delegations s)) s in
            s ← update_account_after_rc_delegation to (- delta_rc) true s;
            remove_delegations_while from l (overflow - delta_rc) limit s
          else Ok (s, overflow, limit)
  end.

Definition remove_delegations (overflow from limit : Z) (s : rc_state) :
    result (rc_state * Z * Z) :=
  remove_delegations_while from (delegatees_of from s) overflow limit s.

(** Supplement or create the [rc_expired_delegation_object] of an account. *)
Fixpoint add_expired (from amount : Z) (l : list (Z * Z)) : list (Z * Z) :=
  match l with
  | [] => [(from, u64 amount)]
  | (f, e) :: l => if f =? from then (f, u64 (e + amount)) :: l else (f, e) :: add_expired from amount l
  end.

(** The removal of delegations when an account lost more VESTS than it keeps for itself. *)
Definition handle_delegation_overflow (i : Z) (s : rc_state) : result rc_state :=
  account ← rc_get_account i s;
  if negb (0 <? delegated_rc account) then Ok s
  else
    own ← get_maximum_rc true account;
    initial_overflow ← signed64 (- own);
    if negb (0 <? initial_overflow) then Ok s
    else
      '(s, overflow, _) ← remove_delegations initial_overflow i (rc_remove_threshold env) s;
      let s := if 0 <? overflow then set_rc_expired (add_expired i overflow (rc_expired s)) s
               else s in
      rc_modify_account i (λ a,
        delegated ← share_sub (delegated_rc a) initial_overflow;
        Ok (set_delegated_rc delegated a)) s.

Definition update_account_after_vest_change (i : Z) (fill_new_mana check_overflow : bool)
    (s : rc_state) : result rc_state :=
  s ← (if check_overflow then handle_delegation_overflow i s else Ok s);
  account ← rc_get_account i s;
  new_last_max_rc ← get_maximum_rc false account;
  drc ← signed64 (new_last_max_rc - last_max_rc account);
  let drc := if fill_new_mana then drc else 0 in
  if new_last_max_rc =? last_max_rc account then Ok s
  else
    rc_modify_account i (λ a,
      mana ← signed64 (current_mana (rc_manabar a) + Z.max drc 0);
      let mana := if new_last_max_rc <? mana then new_last_max_rc else mana in
      Ok (set_rc_manabar (Manabar mana (last_update_time (rc_manabar a)))
        (set_last_max_rc new_last_max_rc a))) s.

(** How the chain changes the VESTS of an account: mana is regenerated before, the resource
    credits are brought up to date after. *)
Definition around_vest_change (i : Z) (change : account_object → result account_object)
    (fill_new_mana check_overflow : bool) (s : rc_state) : result rc_state :=
  s ← regenerate_rc_mana i s;
  s ← rc_modify_account i change s;
  update_account_after_vest_change i fill_new_mana check_overflow s.

(** The default arguments of [update_account_after_vest_change]. *)
Definition update_rc_for_custom_action (callback : account_object → result account_object)
    (i : Z) : rc_state → result rc_state :=
  around_vest_change i callback true false.

(** The loop over the expired delegations; [n] bounds the number of rounds, each of which
    removes the first object or is the last. *)
Fixpoint expired_rounds (n : nat) (limit : Z) (s : rc_state) : result rc_state :=
  match n, rc_expired s with
  | S n, (from, expired) :: rest =>
      '(s, overflow, limit) ← remove_delegations (i64 expired) from limit s;
      if 0 <? overflow then Ok (set_rc_expired ((from, u64 overflow) :: rest) s)
      else
        let s := set_rc_expired rest s in
        if limit =? 0 then Ok s else expired_rounds n limit s
  | _, _ => Ok s
  end.

Definition handle_expired_delegations (s : rc_state) : result rc_state :=
  if negb (HIVE_HARDFORK_1_26 <? rc_processed_hardforks env) then Ok s
  else expired_rounds (length (rc_expired s)) (rc_remove_threshold env) s.

End operations.
