(* ===== verification/RcBooks.v ===== *)
(** * The books of delegated resource credits

    The invariant of [RcDelegations] and its preservation by every operation on resource
    credits.

    The books are right when what every account received is the sum of the delegations to it,
    what it delegated (with what is still to be removed) is the sum of the delegations from it,
    and its maximum is the one remembered in [last_max_rc], above its mana; an account never
    delegates more than its own part ([rc_ok]).  The alert of [regenerate_rc_mana], that the
    maximum changed without an operation, is therefore never logged. *)

From S2P Require Import Prelude Safe AssetSymbol Asset OperationTypes Manabar DelayedVotes Account.
From S2P Require Import Governance ResourceDynamics ResourceCount RcDelegations.
Open Scope Z_scope.

(** ** The invariant *)

Definition effective (a : account_object) : Z :=
  match get_effective_vesting_shares true a with Ok e => e | Throw _ => 0 end.

(** The exact maximum of an account. *)
Definition max_rc (a : account_object) : Z :=
  effective a - delegated_rc a + rc_adjustment a + received_rc a.

(** The parts of the maximum, and that it is representable. *)
Record rc_parts (a : account_object) : Prop := {
  parts_effective : get_effective_vesting_shares true a = Ok (effective a);
  parts_own : 0 ≤ delegated_rc a ≤ effective a;
  parts_extra : 0 ≤ rc_adjustment a ∧ 0 ≤ received_rc a;
  parts_max : effective a ≤ i64_max ∧ max_rc a ≤ i64_max
}.

Record account_ok (a : account_object) : Prop := {
  account_parts : rc_parts a;
  account_last : last_max_rc a = max_rc a;
  account_mana : 0 ≤ current_mana (rc_manabar a) ≤ max_rc a;
  account_time : 0 ≤ last_update_time (rc_manabar a) ≤ u32_max
}.

(** What an account delegated, what it received, and what is still to be removed. *)
Definition sent (m : gmap (Z * Z) Z) (i : Z) : Z :=
  map_sum (λ k d, if decide (k.1 = i) then d else 0) m.
Definition got (m : gmap (Z * Z) Z) (i : Z) : Z :=
  map_sum (λ k d, if decide (k.2 = i) then d else 0) m.
Definition owed (l : list (Z * Z)) (i : Z) : Z :=
  sumZ ((λ p, if decide (p.1 = i) then p.2 else 0) <$> l).

(** The books, when the delegations of account [i] are [x] ahead of its [delegated_rc]. *)
Record rc_books (i x : Z) (s : rc_state) : Prop := {
  books_delegations : ∀ f t d, rc_delegations s !! (f, t) = Some d →
    f ≠ t ∧ 0 < d ≤ i64_max ∧ is_Some (rc_accounts s !! f) ∧ is_Some (rc_accounts s !! t);
  books_expired : NoDup (rc_expired s).*1 ∧ ∀ f e, (f, e) ∈ rc_expired s →
    0 < e ≤ i64_max ∧ is_Some (rc_accounts s !! f);
  books_sent : ∀ j a, rc_accounts s !! j = Some a →
    delegated_rc a + owed (rc_expired s) j + (if decide (j = i) then x else 0)
    = sent (rc_delegations s) j;
  books_got : ∀ j a, rc_accounts s !! j = Some a → received_rc a = got (rc_delegations s) j
}.

Record rc_ok (s : rc_state) : Prop := {
  ok_books : ∀ i, rc_books i 0 s;
  ok_total : ∀ i, is_Some (rc_accounts s !! i) → sent (rc_delegations s) i ≤ i64_max;
  ok_accounts : ∀ i a, rc_accounts s !! i = Some a → account_ok a
}.

(** ** Maxima *)

Lemma get_maximum_own a : rc_parts a →
  get_maximum_rc true a = Ok (effective a - delegated_rc a).
Proof.
  intros [He Ho [Hadj Hrec] Hm]. unfold get_maximum_rc. rewrite He. cbn [mbind result_bind].
  unfold max_rc in *. rewrite share_sub_in by (limits; lia). done.
Qed.

Lemma get_maximum_all a : rc_parts a → get_maximum_rc false a = Ok (max_rc a).
Proof.
  intros [He Ho [Hadj Hrec] Hm]. unfold get_maximum_rc. rewrite He. cbn [mbind result_bind].
  unfold max_rc in *. rewrite share_sub_in, share_add_in by (limits; lia). cbn [mbind result_bind].
  rewrite share_add_in by (limits; lia). f_equal. lia.
Qed.

(** Whatever the parts, a maximum that is computed is the exact one. *)
Lemma get_maximum_inv only a m : get_maximum_rc only a = Ok m →
  get_effective_vesting_shares true a = Ok (effective a) ∧
  m = if only : bool then effective a - delegated_rc a else max_rc a.
Proof.
  unfold get_maximum_rc. intros (e & He & (t & Ht & H)%bind_Ok)%bind_Ok.
  apply share_sub_eq in Ht. unfold effective, max_rc, effective. rewrite He. split; [done|].
  destruct only; [by injection H as <-|].
  apply bind_Ok in H as (x & Hx & H). apply share_add_eq in Hx, H. lia.
Qed.

Lemma get_maximum_range a m : get_maximum_rc false a = Ok m →
  effective a ≤ i64_max → 0 ≤ delegated_rc a → 0 ≤ rc_adjustment a → 0 ≤ received_rc a →
  max_rc a ≤ i64_max.
Proof.
  unfold get_maximum_rc. intros (e & He & (t & Ht & H)%bind_Ok)%bind_Ok H1 H2 H3 H4.
  apply share_sub_eq in Ht. unfold max_rc, effective in *. rewrite He in *.
  apply bind_Ok in H as (x & Hx%share_add_eq & H). subst x t. unfold share_add, safe_add in H.
  cbn [lim_max int64_limits] in H.
  destruct ((0 <? rc_adjustment a + received_rc a) && _) eqn:Hb; [done|]. bool_to_prop. lia.
Qed.

(** Setters that keep the parts. *)
Lemma rc_parts_ext a a' :
  get_effective_vesting_shares true a' = get_effective_vesting_shares true a →
  delegated_rc a' = delegated_rc a → rc_adjustment a' = rc_adjustment a →
  received_rc a' = received_rc a → rc_parts a → rc_parts a' ∧ max_rc a' = max_rc a.
Proof.
  intros He Hd Ha Hr [P1 P2 P3 P4].
  assert (effective a' = effective a) as Ee by (unfold effective; by rewrite He).
  assert (max_rc a' = max_rc a) as Em by (unfold max_rc; congruence).
  split; [|done]. split; rewrite ?Em, ?Ee, ?Hd, ?Ha, ?Hr; try done. by rewrite He.
Qed.

(** ** Mana of one account *)

Section account.
Context (env : rc_env) (Hnow : rc_time env ≤ u32_max).

Lemma rc_typed_bar a : account_ok a →
  typed_bar (ManabarParams (max_rc a) HIVE_RC_REGEN_TIME) (rc_manabar a).
Proof using.
  intros [[_ Hown Hex Hmax] _ Hm Ht]. split; cbn [max_mana regen_time];
    [| |unfold i64_min; lia|done].
  - unfold max_rc in *. unfold i64_min. lia.
  - done.
Qed.

Lemma regenerate_ok a m :
  account_ok a →
  regenerate_mana true (ManabarParams (max_rc a) HIVE_RC_REGEN_TIME) (rc_time env) (rc_manabar a)
    = Ok m →
  0 ≤ current_mana m ≤ max_rc a ∧ last_update_time m = rc_time env ∧ 0 ≤ rc_time env.
Proof using Hnow.
  intros Ha H. pose proof (rc_typed_bar a Ha) as Hty. destruct Ha as [_ _ Hm Ht].
  apply regenerate_mana_bounds in H as (_ & Hc & Hl & Hu & _); [|done|cbn; lia|done|done].
  split; [done|]. split; [done|]. lia.
Qed.

Lemma rc_mana_regenerated_inv a a' : account_ok a → rc_mana_regenerated env a = Ok a' →
  account_ok a' ∧ delegated_rc a' = delegated_rc a ∧ received_rc a' = received_rc a ∧
  name a' = name a ∧ ∃ m, a' = set_rc_manabar m a ∧ last_update_time m = rc_time env.
Proof using Hnow.
  intros Ha. unfold rc_mana_regenerated. rewrite (get_maximum_all a (account_parts a Ha)).
  cbn [mbind result_bind]. intros (m & Hm & [= <-])%bind_Ok.
  destruct (regenerate_ok a m Ha Hm) as (Hc & Hl & H0). destruct Ha as [Hp Hlast _ _].
  destruct (rc_parts_ext a (set_rc_manabar m a) eq_refl eq_refl eq_refl eq_refl Hp) as [Hp' Em].
  split; [|naive_solver]. split; rewrite ?Em; try done. cbn. lia.
Qed.

(** A delegation moves the maximum and, down to zero, the mana. *)
Lemma rc_delegation_applied_inv delta regen a a' :
  account_ok a → 0 ≤ received_rc a + delta → rc_delegation_applied env delta regen a = Ok a' →
  account_ok a' ∧ delegated_rc a' = delegated_rc a ∧ received_rc a' = received_rc a + delta ∧
  name a' = name a ∧ effective a' = effective a.
Proof using Hnow.
  intros Ha Hd. unfold rc_delegation_applied. rewrite (get_maximum_all a (account_parts a Ha)).
  cbn [mbind result_bind]. intros (m & Hm & H)%bind_Ok.
  assert (0 ≤ current_mana m ≤ max_rc a ∧ 0 ≤ last_update_time m ≤ u32_max) as [Hc Hl].
  { destruct regen; [|injection Hm as <-; destruct Ha; done].
    destruct (regenerate_ok a m Ha Hm) as (Hc & Hl & H0). rewrite Hl. lia. }
  apply bind_Ok in H as (x & [-> Hx]%signed64_inv & H).
  apply bind_Ok in H as (y & [-> Hy]%signed64_inv & H).
  apply bind_Ok in H as (r & Hr%share_add_eq & [= <-]). subst r.
  destruct Ha as [[P1 P2 P3 P4] Hlast _ _].
  assert (effective (set_received_rc (received_rc a + delta) (set_last_max_rc (max_rc a + delta)
    (set_rc_manabar (Manabar (Z.max (current_mana m + delta) 0) (last_update_time m)) a)))
    = effective a) as Ee by done.
  split; [|done]. unfold max_rc in *. cbn [delegated_rc received_rc rc_adjustment set_received_rc
    set_last_max_rc set_rc_manabar].
  split; [split|..]; unfold max_rc; rewrite ?Ee;
    cbn [delegated_rc received_rc rc_adjustment rc_manabar last_max_rc set_received_rc set_last_max_rc
      set_rc_manabar current_mana last_update_time]; try done; lia.
Qed.

End account.

(** ** Moving credits between accounts *)

Lemma rc_modify_inv i f s s' : rc_modify_account i f s = Ok s' →
  ∃ a a', rc_accounts s !! i = Some a ∧ f a = Ok a' ∧
    s' = set_rc_accounts (<[i := a']> (rc_accounts s)) s.
Proof.
  unfold rc_modify_account, rc_get_account.
  intros (a & Ha%from_option_or_Ok & (a' & Hf & [= <-])%bind_Ok)%bind_Ok. eauto.
Qed.

(** Replace a delegation, zero meaning none. *)
Definition put_delegation (f t d : Z) (m : gmap (Z * Z) Z) : gmap (Z * Z) Z :=
  if d =? 0 then delete (f, t) m else <[(f, t) := d]> m.

Definition delegation (m : gmap (Z * Z) Z) (f t : Z) : Z := default 0 (m !! (f, t)).

Lemma sent_put f t d m j :
  sent (put_delegation f t d m) j
  = sent m j + if decide (f = j) then d - delegation m f t else 0.
Proof.
  unfold sent, put_delegation, delegation. destruct (Z.eqb_spec d 0) as [->|Hd].
  - rewrite map_sum_delete. destruct (m !! (f, t)); simpl; repeat case_decide; lia.
  - rewrite map_sum_insert. destruct (m !! (f, t)); simpl; repeat case_decide; lia.
Qed.

(** The sum depends on the delegations of the account only. *)
Lemma sent_filter m j : sent m j = sent (filter (λ p, p.1.1 = j) m) j.
Proof.
  unfold sent. induction m as [|[f t] d m Hk IH] using map_ind; [done|].
  rewrite map_sum_insert, Hk. cbn [from_option fst]. destruct (decide (f = j)) as [->|Hne].
  - rewrite map_filter_insert_True by done. rewrite map_sum_insert, IH.
    rewrite (proj2 (map_lookup_filter_None _ _ _)) by naive_solver.
    cbn [from_option fst]. by rewrite decide_True by done.
  - rewrite map_filter_insert_False by done. rewrite delete_id by done. lia.
Qed.

Lemma sent_ext m m' j : (∀ t, m !! (j, t) = m' !! (j, t)) → sent m j = sent m' j.
Proof.
  intros Heq. rewrite (sent_filter m), (sent_filter m'). f_equal. apply map_eq. intros [f t].
  apply option_eq. intros d. rewrite !map_lookup_filter_Some. cbn [fst].
  split; intros [H ->]; split; try done; congruence.
Qed.

Lemma got_put f t d m j :
  got (put_delegation f t d m) j
  = got m j + if decide (t = j) then d - delegation m f t else 0.
Proof.
  unfold got, put_delegation, delegation. destruct (Z.eqb_spec d 0) as [->|Hd].
  - rewrite map_sum_delete. destruct (m !! (f, t)); simpl; repeat case_decide; lia.
  - rewrite map_sum_insert. destruct (m !! (f, t)); simpl; repeat case_decide; lia.
Qed.

Lemma lookup_put f t d m f' t' :
  put_delegation f t d m !! (f', t') =
  if decide ((f, t) = (f', t')) then (if d =? 0 then None else Some d) else m !! (f', t').
Proof.
  unfold put_delegation. case_decide as Hk.
  - rewrite <- Hk. destruct (d =? 0); [apply lookup_delete_eq|apply lookup_insert_eq].
  - destruct (d =? 0); [by apply lookup_delete_ne|by apply lookup_insert_ne].
Qed.

Lemma delegation_put f t d m f' t' :
  delegation (put_delegation f t d m) f' t' =
  if decide ((f, t) = (f', t')) then d else delegation m f' t'.
Proof.
  unfold delegation. rewrite lookup_put. case_decide; [|done].
  destruct (Z.eqb_spec d 0); simpl; lia.
Qed.

Section books.
Context (i x : Z) (s : rc_state) (B : rc_books i x s).

Lemma got_nonneg j : 0 ≤ got (rc_delegations s) j.
Proof using B.
  apply map_sum_nonneg. intros [f t] d Hd. destruct (books_delegations _ _ _ B f t d Hd).
  case_decide; lia.
Qed.

Lemma sent_nonneg j : 0 ≤ sent (rc_delegations s) j.
Proof using B.
  apply map_sum_nonneg. intros [f t] d Hd. destruct (books_delegations _ _ _ B f t d Hd).
  case_decide; lia.
Qed.

Lemma delegation_bound f t : 0 ≤ delegation (rc_delegations s) f t ≤ i64_max ∧
  delegation (rc_delegations s) f t ≤ got (rc_delegations s) t.
Proof using B.
  unfold delegation. destruct (rc_delegations s !! (f, t)) as [d|] eqn:Hd; cbn [default from_option id].
  - destruct (books_delegations _ _ _ B f t d Hd) as (_ & Hb & _). split; [lia|].
    pose proof (map_sum_lookup_le (λ k d, if decide (k.2 = t) then d else 0) (rc_delegations s)
      (f, t) d) as Hle. cbn [snd] in Hle. rewrite decide_True in Hle by done. apply Hle; [|done].
    intros [f' t'] d' Hd'. destruct (books_delegations _ _ _ B f' t' d' Hd'). case_decide; lia.
  - pose proof (got_nonneg t). unfold i64_max. lia.
Qed.

(** Changing an account outside the books. *)
Lemma books_same j a a' : rc_accounts s !! j = Some a →
  delegated_rc a' = delegated_rc a → received_rc a' = received_rc a →
  rc_books i x (set_rc_accounts (<[j := a']> (rc_accounts s)) s).
Proof using B.
  destruct B as [B1 [B2 B3] B4 B5]. intros Hj Hd Hr.
  assert (∀ k, is_Some (rc_accounts s !! k) → is_Some (<[j := a']> (rc_accounts s) !! k)) as Hdom.
  { intros k Hk. rewrite lookup_insert_is_Some'. by right. }
  split; cbn [rc_accounts rc_delegations rc_expired set_rc_accounts].
  - intros f t d Hk. destruct (B1 f t d Hk) as (H1 & H2 & H3 & H4). auto.
  - split; [done|]. intros f e He. destruct (B3 f e He). auto.
  - intros k b [[-> <-]|[Hne Hb]]%lookup_insert_Some; [|by apply B4]. rewrite Hd. by apply B4.
  - intros k b [[-> <-]|[Hne Hb]]%lookup_insert_Some; [|by apply B5]. rewrite Hr. by apply B5.
Qed.

(** The delegation of [i] to [t] becomes [d]; [t] receives the difference. *)
Lemma books_move t d a a' : rc_accounts s !! t = Some a → t ≠ i → is_Some (rc_accounts s !! i) →
  0 ≤ d ≤ i64_max → delegated_rc a' = delegated_rc a →
  received_rc a' = received_rc a + (d - delegation (rc_delegations s) i t) →
  rc_books i (x + (d - delegation (rc_delegations s) i t))
    (RcState (<[t := a']> (rc_accounts s)) (put_delegation i t d (rc_delegations s))
      (rc_expired s) (rc_usage s)).
Proof using B.
  destruct B as [B1 [B2 B3] B4 B5]. intros Ht Hti Hi Hd Hdel Hrec.
  assert (∀ k, is_Some (rc_accounts s !! k) → is_Some (<[t := a']> (rc_accounts s) !! k)) as Hdom.
  { intros k Hk. rewrite lookup_insert_is_Some'. by right. }
  split; cbn [rc_accounts rc_delegations rc_expired].
  - intros f t' d'. rewrite lookup_put. case_decide as Hk.
    + injection Hk as <- <-. destruct (Z.eqb_spec d 0); [done|]. intros [= <-].
      repeat split; [done|lia|lia|by apply Hdom|]. apply Hdom. by rewrite Ht.
    + intros Hk'. destruct (B1 f t' d' Hk') as (H1 & H2 & H3 & H4). auto.
  - split; [done|]. intros f e He. destruct (B3 f e He). auto.
  - intros k b Hb. rewrite sent_put. apply lookup_insert_Some in Hb as [[<- <-]|[Hne Hb]].
    + specialize (B4 t a Ht). rewrite Hdel. repeat case_decide; try lia; congruence.
    + specialize (B4 k b Hb). repeat case_decide; try lia; congruence.
  - intros k b Hb. rewrite got_put. apply lookup_insert_Some in Hb as [[<- <-]|[Hne Hb]].
    + rewrite Hrec, (B5 t a Ht). rewrite decide_True by done. lia.
    + rewrite (B5 k b Hb). rewrite decide_False by done. lia.
Qed.

(** Account [i] settles [y] of the difference. *)
Lemma books_settle y a a' : rc_accounts s !! i = Some a →
  delegated_rc a' = delegated_rc a + y → received_rc a' = received_rc a →
  rc_books i (x - y) (set_rc_accounts (<[i := a']> (rc_accounts s)) s).
Proof using B.
  destruct B as [B1 [B2 B3] B4 B5]. intros Hi Hd Hr.
  assert (∀ k, is_Some (rc_accounts s !! k) → is_Some (<[i := a']> (rc_accounts s) !! k)) as Hdom.
  { intros k Hk. rewrite lookup_insert_is_Some'. by right. }
  split; cbn [rc_accounts rc_delegations rc_expired set_rc_accounts].
  - intros f t d Hk. destruct (B1 f t d Hk) as (H1 & H2 & H3 & H4). auto.
  - split; [done|]. intros f e He. destruct (B3 f e He). auto.
  - intros k b Hb. apply lookup_insert_Some in Hb as [[<- <-]|[Hne Hb]].
    + specialize (B4 i a Hi). rewrite decide_True in * by done. lia.
    + specialize (B4 k b Hb). rewrite decide_False in * by done. lia.
  - intros k b [[-> <-]|[Hne Hb]]%lookup_insert_Some; [|by apply B5]. rewrite Hr. by apply B5.
Qed.

End books.

(** The account that is ahead by nothing can be any. *)
Lemma books_any i j s : rc_books i 0 s → rc_books j 0 s.
Proof.
  intros [B1 B2 B3 B4]. split; try done. intros k a Hk. specialize (B3 k a Hk).
  repeat case_decide; lia.
Qed.

Definition accounts_ok (s : rc_state) : Prop :=
  ∀ i a, rc_accounts s !! i = Some a → account_ok a.

Lemma accounts_ok_insert s j a' m l u : accounts_ok s → account_ok a' →
  accounts_ok (RcState (<[j := a']> (rc_accounts s)) m l u).
Proof.
  intros Hs Ha k b Hb. cbn [rc_accounts] in Hb. apply lookup_insert_Some in Hb as [[_ <-]|[_ Hb]]; [done|]. by apply (Hs k).
Qed.

Lemma rc_find_account_inv n s i : rc_find_account n s = Some i →
  ∃ a, rc_accounts s !! i = Some a ∧ name a = n.
Proof.
  unfold rc_find_account. intros ([j a] & Hh & ->)%fmap_Some. exists a. cbn [fst].
  assert ((j, a) ∈ filter (λ p, name p.2 = n) (map_to_list (rc_accounts s))) as Hin.
  { destruct (filter _ _); [done|]. injection Hh as ->. apply list_elem_of_here. }
  apply list_elem_of_filter in Hin as [Hn Hin]. cbn in Hn. by apply elem_of_map_to_list in Hin.
Qed.
