(* ===== verification/RcDelegate.v ===== *)
(** * Delegating resource credits

    The evaluator of [delegate_rc_operation] keeps the books of [RcBooks] and changes exactly
    the delegations it names ([delegate_rc_evaluator_inv]). *)

From S2P Require Import Prelude Safe AssetSymbol Asset OperationTypes Manabar DelayedVotes Account.
From S2P Require Import Governance ResourceDynamics ResourceCount RcDelegations RcBooks.
Open Scope Z_scope.

Section preservation.
Context (env : rc_env) (Hnow : rc_time env ≤ u32_max).

Lemma regenerate_rc_mana_inv j i x s s' : rc_books i x s →
  (∀ a, rc_accounts s !! j = Some a → account_ok a) → regenerate_rc_mana env j s = Ok s' →
  ∃ a a', rc_accounts s !! j = Some a ∧ account_ok a' ∧
    delegated_rc a' = delegated_rc a ∧ received_rc a' = received_rc a ∧ name a' = name a ∧
    (∃ m, a' = set_rc_manabar m a ∧ last_update_time m = rc_time env) ∧
    s' = set_rc_accounts (<[j := a']> (rc_accounts s)) s ∧ rc_books i x s'.
Proof using Hnow.
  intros B Hs (a & a' & Ha & Hr & ->)%rc_modify_inv.
  destruct (rc_mana_regenerated_inv env Hnow a a' (Hs a Ha) Hr) as (H1 & H2 & H3 & H4 & H5).
  exists a, a'. split_and!; try done. by apply (books_same i x s B j a).
Qed.

(** One delegatee. *)
Lemma delegate_to_inv from mx n fa s x s' x' :
  rc_books from x s → accounts_ok s → rc_accounts s !! from = Some fa → name fa ≠ n →
  0 ≤ mx ≤ i64_max → delegate_to env from mx (s, x) n = Ok (s', x') →
  ∃ t ta ta', rc_accounts s !! t = Some ta ∧ name ta = n ∧ name ta' = n ∧ t ≠ from ∧
    effective ta' = effective ta ∧
    delegation (rc_delegations s) from t ≠ mx ∧
    s' = RcState (<[t := ta']> (rc_accounts s)) (put_delegation from t mx (rc_delegations s))
           (rc_expired s) (rc_usage s) ∧
    rc_books from x' s' ∧ accounts_ok s'.
Proof using Hnow.
  intros B Hs Hf Hn Hmx. unfold delegate_to.
  intros (t & Ht%from_option_or_Ok & (s1 & Hr & H)%bind_Ok)%bind_Ok.
  apply rc_find_account_inv in Ht as (ta & Hta & Hname).
  assert (t ≠ from) as Hne by (intros ->; congruence).
  destruct (regenerate_rc_mana_inv t from x s s1 B (Hs t) Hr)
    as (ta0 & a1 & Hta0 & Hok1 & D1 & R1 & N1 & (m & Em & _) & -> & B1).
  rewrite Hta in Hta0. injection Hta0 as <-. cbn [set_rc_accounts rc_delegations] in H.
  apply bind_Ok in H as ([s2 delta] & Hd & H). cbn beta iota in H.
  assert (s2 = RcState (<[t := a1]> (rc_accounts s)) (put_delegation from t mx (rc_delegations s))
      (rc_expired s) (rc_usage s) ∧
    delta = mx - delegation (rc_delegations s) from t ∧
    delegation (rc_delegations s) from t ≠ mx) as (-> & -> & Hneq).
  { pose proof (delegation_bound _ _ _ B from t) as [Hb _].
    unfold delegation, put_delegation in *. destruct (rc_delegations s !! (from, t)) as [d|] eqn:Hk;
      apply fc_assert_bind_Ok in Hd as [Hass Hd]; injection Hd as <- <-; cbn [default from_option id] in *;
      rewrite (u64_id mx) in * by (unfold u64_max, i64_max in *; lia); bool_to_prop.
    - rewrite i64_id by (unfold i64_min, i64_max in *; lia). destruct (mx =? 0); done.
    - rewrite (proj2 (Z.eqb_neq mx 0)) by done. split_and!; [done|lia|congruence]. }
  apply bind_Ok in H as (s3 & Hu & H). apply bind_Ok in H as (y & [-> Hy]%signed64_inv & [= <- <-]).
  apply rc_modify_inv in Hu as (b & a2 & Hb & Hap & ->). cbn [rc_accounts] in Hb.
  rewrite lookup_insert_eq in Hb. injection Hb as <-.
  pose proof (delegation_bound _ _ _ B from t) as [Hdb Hdg].
  pose proof (books_got _ _ _ B t ta Hta) as Hg.
  apply (rc_delegation_applied_inv env Hnow) in Hap as (Hok2 & D2 & R2 & N2 & E2); [|done|lia].
  exists t, ta, a2. cbn [set_rc_accounts rc_accounts rc_delegations rc_expired rc_usage].
  rewrite insert_insert_eq. split_and!; try done; try congruence.
  - rewrite E2, Em. done.
  - rewrite Z.add_comm. replace (mx - _ + x) with (x + (mx - delegation (rc_delegations s) from t)) by lia.
    apply (books_move from x s B t mx ta a2); try done; [congruence|lia].
  - by apply accounts_ok_insert.
Qed.

(** What no operation on resource credits changes in an account. *)
Definition identity (s : rc_state) (i : Z) : option (string * Z) :=
  (λ a, (name a, effective a)) <$> rc_accounts s !! i.

Lemma identity_insert s t ta ta' m l u j : rc_accounts s !! t = Some ta →
  name ta' = name ta → effective ta' = effective ta →
  identity (RcState (<[t := ta']> (rc_accounts s)) m l u) j = identity s j.
Proof.
  intros Ht Hn He. unfold identity. cbn [rc_accounts]. destruct (decide (t = j)) as [<-|Hj].
  - rewrite lookup_insert_eq, Ht. cbn. by rewrite Hn, He.
  - by rewrite lookup_insert_ne.
Qed.

Lemma identity_set s t ta ta' j : rc_accounts s !! t = Some ta →
  name ta' = name ta → effective ta' = effective ta →
  identity (set_rc_accounts (<[t := ta']> (rc_accounts s)) s) j = identity s j.
Proof. apply identity_insert. Qed.

Lemma identity_name s s' t ta' : identity s' t = identity s t → rc_accounts s' !! t = Some ta' →
  ∃ ta, rc_accounts s !! t = Some ta ∧ name ta = name ta'.
Proof.
  unfold identity. intros Hi Ht. rewrite Ht in Hi. cbn in Hi.
  destruct (rc_accounts s !! t) as [ta|]; [|done]. injection Hi as Hn _. by exists ta.
Qed.

(** All delegatees. *)
Lemma delegates_inv from mx fa names s x s' x' :
  rc_books from x s → accounts_ok s → rc_accounts s !! from = Some fa → name fa ∉ names →
  0 ≤ mx ≤ i64_max → foldM (delegate_to env from mx) (s, x) names = Ok (s', x') →
  rc_books from x' s' ∧ accounts_ok s' ∧ rc_accounts s' !! from = Some fa ∧
  rc_expired s' = rc_expired s ∧ rc_usage s' = rc_usage s ∧ (∀ t, identity s' t = identity s t) ∧
  (∀ n, n ∈ names → ∃ t ta, rc_accounts s !! t = Some ta ∧ name ta = n ∧
     delegation (rc_delegations s') from t = mx) ∧
  (∀ f t, (f = from → ∀ ta, rc_accounts s !! t = Some ta → name ta ∉ names) →
     rc_delegations s' !! (f, t) = rc_delegations s !! (f, t)).
Proof using Hnow.
  intros B Hs Hf Hn Hmx. revert s x B Hs Hf.
  induction names as [|n names IH]; intros s x B Hs Hf H.
  - injection H as <- <-. split_and!; try done. intros n Hn'. by apply elem_of_nil in Hn'.
  - cbn [foldM] in H. apply bind_Ok in H as ([s1 x1] & H1 & H).
    apply not_elem_of_cons in Hn as [Hn1 Hn2].
    destruct (delegate_to_inv from mx n fa s x s1 x1 B Hs Hf Hn1 Hmx H1)
      as (t & ta & ta' & Ht & Hta & Hta' & Hne & He & Hdm & Es1 & B1 & Hs1).
    assert (∀ j, identity s1 j = identity s j) as Hid.
    { intros j. rewrite Es1. apply (identity_insert s t ta); congruence. }
    destruct (IH Hn2 s1 x1 B1 Hs1) as (G1 & G2 & G3 & G4 & G5 & G6 & G7 & G8); [|done|].
    { rewrite Es1. cbn [rc_accounts]. by rewrite lookup_insert_ne. }
    split_and!; try done; [by rewrite G4, Es1|by rewrite G5, Es1|intros j; by rewrite G6, Hid|..].
    + intros k Hk. destruct (decide (k ∈ names)) as [Hin|Hin].
      * destruct (G7 k Hin) as (t2 & ta2 & Ht2 & Hn2' & Hd2).
        destruct (identity_name s s1 t2 ta2 (Hid t2) Ht2) as (tb & Htb & Hnb).
        exists t2, tb. split_and!; try done; congruence.
      * apply elem_of_cons in Hk as [->|Hk]; [|done]. exists t, ta. split_and!; try done.
        unfold delegation. rewrite G8.
        -- fold (delegation (rc_delegations s1) from t). rewrite Es1. cbn [rc_delegations].
           rewrite delegation_put, decide_True; done.
        -- intros _ tb Htb. rewrite Es1 in Htb. cbn [rc_accounts] in Htb.
           rewrite lookup_insert_eq in Htb. injection Htb as <-. by rewrite Hta'.
    + intros f t2 Hft. rewrite G8.
      * rewrite Es1. cbn [rc_delegations]. rewrite lookup_put. case_decide as Hk; [|done].
        injection Hk as <- <-. exfalso. apply (Hft eq_refl ta Ht). rewrite Hta. apply elem_of_cons. by left.
      * intros -> tb Htb Hin. destruct (identity_name s s1 t2 tb (Hid t2) Htb) as (tc & Htc & Hnc).
        apply (Hft eq_refl tc Htc). rewrite Hnc. apply elem_of_cons. by right.
Qed.

(** The last step of the evaluator, on the delegator. *)
Lemma delegator_settles fa delta a' :
  account_ok fa → 0 ≤ delegated_rc fa + delta →
  delta ≤ Z.min (effective fa - delegated_rc fa) (current_mana (rc_manabar fa)) →
  (a ← (if 0 <? delta then
          mana ← signed64 (current_mana (rc_manabar fa) - delta);
          Ok (set_rc_manabar (Manabar mana (last_update_time (rc_manabar fa))) fa)
        else Ok fa);
   delegated ← share_add (delegated_rc a) delta;
   max_rc ← get_maximum_rc false (set_delegated_rc delegated a);
   Ok (set_last_max_rc max_rc (set_delegated_rc delegated a))) = Ok a' →
  account_ok a' ∧ delegated_rc a' = delegated_rc fa + delta ∧ received_rc a' = received_rc fa ∧
  name a' = name fa ∧ effective a' = effective fa.
Proof using.
  intros [[P1 P2 P3 P4] Hlast Hm Ht] Hd Hle (a & Ha & (y & Hy%share_add_eq & (z & Hz & [= <-])%bind_Ok)%bind_Ok)%bind_Ok.
  assert (∃ mana, a = set_rc_manabar (Manabar mana (last_update_time (rc_manabar fa))) fa ∧
    0 ≤ mana ≤ max_rc fa - delta) as (mana & -> & Hmana).
  { destruct (Z.ltb_spec 0 delta) as [Hp|Hp].
    - apply bind_Ok in Ha as (w & [-> _]%signed64_inv & [= <-]). eexists. split; [done|]. lia.
    - injection Ha as <-. exists (current_mana (rc_manabar fa)). split; [by destruct fa as [? ? ? ? []]|]. lia. }
  cbn [delegated_rc set_rc_manabar] in Hy. subst y.
  set (a2 := set_delegated_rc _ _) in *.
  assert (effective a2 = effective fa) as Ee by done.
  assert (max_rc a2 = max_rc fa - delta) as Em.
  { unfold max_rc. rewrite Ee. cbn [a2 delegated_rc received_rc rc_adjustment set_delegated_rc set_rc_manabar]. lia. }
  assert (max_rc a2 ≤ i64_max) as Hmax.
  { apply (get_maximum_range a2 z Hz); rewrite ?Ee; cbn [a2 delegated_rc received_rc rc_adjustment set_delegated_rc set_rc_manabar]; lia. }
  apply get_maximum_inv in Hz as [Hz1 ->].
  assert (effective (set_last_max_rc (max_rc a2) a2) = effective fa) as Ee' by done.
  assert (max_rc (set_last_max_rc (max_rc a2) a2) = max_rc a2) as Em' by done.
  split; [|done]. split; [split|..]; rewrite ?Em', ?Ee'; try done; try lia.
  - cbn [a2 delegated_rc set_last_max_rc set_delegated_rc set_rc_manabar]. lia.
  - cbn [a2 rc_manabar current_mana set_last_max_rc set_delegated_rc set_rc_manabar]. lia.
Qed.

Lemma rc_ok_usage s u : rc_ok s → rc_ok (set_rc_usage u s).
Proof using. intros [B T A]. split; [|done|done]. intros i. destruct (B i). by split. Qed.

Lemma discount_usage op s : ∃ u, handle_operation_discount op s = set_rc_usage u s.
Proof using.
  unfold handle_operation_discount. destruct (delegate_rc_discount op s); [by eexists|].
  exists (rc_usage s). by destruct s.
Qed.

(** An assumption on the delegations of the theorems, not part of the code:
    [delegate_rc_operation::validate], as far as the books need it, and that the delegator has
    no removals pending, which the evaluator only checks when the node is in control. *)
Definition valid_delegation (op : delegate_rc_operation) (s : rc_state) : Prop :=
  (delegate_rc_from op ∉ delegate_rc_delegatees op) ∧ 0 ≤ delegate_rc_max_rc op ≤ i64_max ∧
  (rc_in_control env = true ∨
   ∀ i a, rc_accounts s !! i = Some a → name a = delegate_rc_from op → i ∉ (rc_expired s).*1).

(** What a successful delegation did. *)
Record delegated (op : delegate_rc_operation) (s s' : rc_state) : Prop := {
  delegated_pairs : ∀ n, n ∈ delegate_rc_delegatees op → ∃ from fa t ta,
    rc_accounts s !! from = Some fa ∧ name fa = delegate_rc_from op ∧
    rc_accounts s !! t = Some ta ∧ name ta = n ∧
    delegation (rc_delegations s') from t = delegate_rc_max_rc op;
  delegated_others : ∀ f t fa ta,
    rc_accounts s !! f = Some fa → rc_accounts s !! t = Some ta →
    (name fa = delegate_rc_from op → name ta ∉ delegate_rc_delegatees op) →
    rc_delegations s' !! (f, t) = rc_delegations s !! (f, t);
  delegated_identity : ∀ i, identity s' i = identity s i;
  delegated_expired : rc_expired s' = rc_expired s
}.

Lemma owed_not l i : i ∉ l.*1 → owed l i = 0.
Proof using.
  intros Hi. apply sumZ_zero. intros [f e] Hin. cbn. case_decide as Hf; [|done].
  exfalso. apply Hi. rewrite <- Hf. by apply (list_elem_of_fmap_2 fst _ _ Hin).
Qed.

Lemma delegate_rc_evaluator_inv op s s' :
  rc_ok s → valid_delegation op s → delegate_rc_evaluator env op s = Ok s' →
  (HIVE_HARDFORK_1_26 <? rc_processed_hardforks env) = true →
  rc_ok s' ∧ delegated op s s'.
Proof using Hnow.
  intros Hok (Hself & Hmx & Hpend) H Hhf. unfold delegate_rc_evaluator in H. rewrite Hhf in H.
  cbn [negb] in H. destruct (discount_usage op s) as [u Hu]. rewrite Hu in H.
  apply (rc_ok_usage s u) in Hok. set (s0 := set_rc_usage u s) in *.
  apply bind_Ok in H as (? & _ & H). apply bind_Ok in H as (from & Hfrom%from_option_or_Ok & H).
  apply rc_find_account_inv in Hfrom as (fa & Hfa & Hname).
  apply bind_Ok in H as (s1 & Hr & H). destruct Hok as [B T A].
  destruct (regenerate_rc_mana_inv from from 0 s0 s1 (B from) (A from) Hr)
    as (fa0 & fa1 & Hfa0 & Hok1 & D1 & R1 & N1 & (m & Em & Hm) & Es1 & B1).
  rewrite Hfa in Hfa0. injection Hfa0 as <-.
  apply fc_assert_bind_Ok in H as [Hexp H]. apply bind_Ok in H as ([s2 delta] & Hfold & H).
  assert (rc_accounts s1 !! from = Some fa1) as Hfa1.
  { rewrite Es1. cbn. apply lookup_insert_eq. }
  assert (accounts_ok s1) as A1 by (rewrite Es1; by apply accounts_ok_insert).
  destruct (delegates_inv from (delegate_rc_max_rc op) fa1 (delegate_rc_delegatees op) s1 0 s2
    delta B1 A1 Hfa1)
    as (B2 & A2 & Hfa2 & E2 & U2 & I2 & P2 & O2); [by rewrite N1, Hname|done|done|].
  apply bind_Ok in H as (fa2 & Hg%from_option_or_Ok & H). rewrite Hfa2 in Hg. injection Hg as <-.
  rewrite (get_maximum_own fa1 (account_parts _ Hok1)) in H. cbn [mbind result_bind] in H.
  apply fc_assert_bind_Ok in H as [Hle H]. apply Z.leb_le in Hle.
  apply bind_Ok in H as (s3 & Hset & [= <-]).
  apply rc_modify_inv in Hset as (b & fa3 & Hb & Hset & Es3). rewrite Hfa2 in Hb. injection Hb as <-.
  assert (owed (rc_expired s2) from = 0) as Howed.
  { apply owed_not. rewrite E2, Es1. cbn [set_rc_accounts rc_expired].
    destruct Hpend as [Hc|Hp]; [|by apply (Hp from fa)].
    rewrite Hc in Hexp. cbn in Hexp. unfold has_expired_delegation in Hexp.
    rewrite negb_true_iff in Hexp. apply bool_decide_eq_false in Hexp. by rewrite Es1 in Hexp. }
  pose proof (books_sent _ _ _ B2 from fa1 Hfa2) as Hsent. rewrite decide_True in Hsent by done.
  pose proof (sent_nonneg _ _ _ B2 from) as Hpos.
  apply delegator_settles in Hset as (Hok3 & D3 & R3 & N3 & E3); [|done|lia|done].
  assert (∀ j, identity s3 j = identity s j) as Hid.
  { intros j. rewrite Es3. rewrite (identity_set s2 from fa1) by done. rewrite I2, Es1.
    rewrite (identity_set s0 from fa); [done|done|congruence|by rewrite Em]. }
  split.
  - assert (rc_books from 0 s3) as B3.
    { rewrite Es3. replace 0 with (delta - delta) by lia.
      by apply (books_settle from delta s2 B2 delta fa1). }
    apply rc_ok_usage. split; [intros j; by apply (books_any from)| |].
    + intros j Hj. destruct (decide (j = from)) as [->|Hj'].
      * pose proof (books_sent _ _ _ B3 from fa3) as Hs3. rewrite Es3 in Hs3.
        cbn [set_rc_accounts rc_accounts rc_expired] in Hs3. rewrite lookup_insert_eq, Howed in Hs3.
        specialize (Hs3 eq_refl). rewrite Es3. case_decide; destruct Hok3 as [[? ? ? ?] _ _ _]; lia.
      * rewrite (sent_ext _ (rc_delegations s0) j); [apply T|].
        -- rewrite <- (fmap_is_Some (λ a, (name a, effective a))). unfold identity in Hid.
           change (rc_accounts s0) with (rc_accounts s). rewrite <- Hid. by apply fmap_is_Some.
        -- intros t. rewrite Es3. cbn [set_rc_accounts rc_delegations]. rewrite O2; [by rewrite Es1|done].
    + rewrite Es3. by apply accounts_ok_insert.
  - split; [| |done|].
    3: { rewrite Es3. cbn [handle_custom_op_usage set_rc_usage set_rc_accounts rc_expired].
         by rewrite E2, Es1. }
    + intros n Hn. destruct (P2 n Hn) as (t & ta & Ht & Hta & Hd).
      destruct (identity_name s s1 t ta) as (ta' & Ht' & Hta'); [|done|].
      { rewrite Es1. apply (identity_set s0 from fa); [done|congruence|by rewrite Em]. }
      exists from, fa, t, ta'. split_and!; try done; [congruence|]. by rewrite Es3.
    + intros f t fa' ta Hf Ht Hn. rewrite Es3. cbn [handle_custom_op_usage set_rc_usage set_rc_accounts rc_delegations].
      rewrite O2, Es1; [done|]. intros -> tb Htb.
      assert (fa' = fa) as -> by (change (rc_accounts s !! from = Some fa) in Hfa; congruence).
      destruct (identity_name s s1 t tb) as (tc & Htc & Hnc); [|done|].
      { rewrite Es1. apply (identity_set s0 from fa); [done|congruence|by rewrite Em]. }
      rewrite <- Hnc. assert (tc = ta) as -> by congruence. by apply Hn.
Qed.

End preservation.
