(* ===== verification/RcRemoval.v ===== *)
(** * Removing delegations of resource credits

    Changes of VESTS that leave less than an account delegated, and the removal of the
    delegations it can no longer afford, over as many blocks as the limit on removals takes,
    keep the books of [RcBooks]. *)

From S2P Require Import Prelude Safe AssetSymbol Asset OperationTypes Manabar DelayedVotes Account.
From S2P Require Import Governance ResourceDynamics ResourceCount RcDelegations RcBooks RcDelegate.
Open Scope Z_scope.

Section preservation.
Context (env : rc_env) (Hnow : rc_time env ≤ u32_max).

(** ** Removing delegations *)

Definition accounts_ok_but (i : Z) (s : rc_state) : Prop :=
  ∀ j a, j ≠ i → rc_accounts s !! j = Some a → account_ok a.

(** What the removal of [amount] from the delegations of [i] leaves. *)
Record removed (i amount : Z) (s s' : rc_state) : Prop := {
  removed_books : ∀ x, rc_books i x s → rc_books i (x - amount) s';
  removed_accounts : accounts_ok_but i s → accounts_ok_but i s';
  removed_from : rc_accounts s' !! i = rc_accounts s !! i;
  removed_identity : ∀ j, identity s' j = identity s j;
  removed_expired : rc_expired s' = rc_expired s;
  removed_usage : rc_usage s' = rc_usage s;
  removed_others : ∀ f t, f ≠ i → rc_delegations s' !! (f, t) = rc_delegations s !! (f, t)
}.

Lemma removed_refl i s : removed i 0 s s.
Proof using. split; try done. intros x Hx. by rewrite Z.sub_0_r. Qed.

Lemma removed_trans i a b s1 s2 s3 : removed i a s1 s2 → removed i b s2 s3 → removed i (a + b) s1 s3.
Proof using.
  intros [A1 A2 A3 A4 A5 A6 A7] [B1 B2 B3 B4 B5 B6 B7].
  split; [|by auto|congruence|intros j; by rewrite B4, A4|congruence|congruence|].
  - intros x Hx. replace (x - (a + b)) with (x - a - b) by lia. auto.
  - intros f t Hf. by rewrite B7, A7.
Qed.

(** One delegation loses [delta]. *)
Lemma removed_step i t d delta x s s' :
  rc_books i x s → accounts_ok_but i s →
  rc_delegations s !! (i, t) = Some d → 0 < delta ≤ d →
  update_account_after_rc_delegation env t (- delta) true
    (set_rc_delegations (put_delegation i t (d - delta) (rc_delegations s)) s) = Ok s' →
  removed i delta s s' ∧
  rc_delegations s' = put_delegation i t (d - delta) (rc_delegations s).
Proof using Hnow.
  intros B A Hd Hdel (ta & ta' & Ht & Hap & ->)%rc_modify_inv.
  destruct (books_delegations _ _ _ B i t d Hd) as (Hne & Hdb & [fa Hfa] & _).
  cbn [set_rc_delegations rc_accounts] in Ht.
  assert (delegation (rc_delegations s) i t = d) as Ed by (unfold delegation; by rewrite Hd).
  pose proof (delegation_bound _ _ _ B i t) as [_ Hg]. rewrite Ed in Hg.
  pose proof (books_got _ _ _ B t ta Ht) as Hgot.
  assert (account_ok ta) as Hta by (apply (A t); [congruence|done]).
  apply (rc_delegation_applied_inv env Hnow) in Hap as (Hok & D & R & N & E); [|done|lia].
  split; [|done]. split; cbn [set_rc_accounts set_rc_delegations rc_accounts rc_delegations rc_expired rc_usage].
  - intros y By. replace (y - delta) with (y + (d - delta - delegation (rc_delegations s) i t)) by lia.
    apply (books_move i y s By t (d - delta) ta); try done; lia.
  - intros _ j a Hj Ha. cbn [set_rc_accounts rc_accounts] in Ha.
    apply lookup_insert_Some in Ha as [[_ <-]|[_ Ha]]; [done|]. by apply (A j).
  - rewrite lookup_insert_ne by congruence. done.
  - intros j. by apply (identity_insert s t ta).
  - done.
  - done.
  - intros f t' Hf. rewrite lookup_put, decide_False; [done|]. congruence.
Qed.

(** The loop removes what is asked for until it runs out of delegations or of the limit. *)
Lemma removed_while i l overflow limit x s s' overflow' limit' :
  rc_books i x s → accounts_ok_but i s → NoDup l →
  (∀ t, t ∈ l → is_Some (rc_delegations s !! (i, t))) → 0 ≤ overflow ≤ i64_max →
  remove_delegations_while env i l overflow limit s = Ok (s', overflow', limit') →
  removed i (overflow - overflow') s s' ∧ 0 ≤ overflow' ≤ overflow.
Proof using Hnow.
  revert overflow limit x s. induction l as [|t l IH]; intros overflow limit x s B A Hnd Hl Ho H.
  - injection H as <- <- <-. rewrite Z.sub_diag. split; [apply removed_refl|lia].
  - apply NoDup_cons in Hnd as [Ht Hnd]. cbn [remove_delegations_while] in H.
    destruct (Z.leb_spec overflow 0) as [Hz|Hz].
    { injection H as <- <- <-. rewrite Z.sub_diag. split; [apply removed_refl|lia]. }
    destruct (Hl t) as [d Hd]; [apply elem_of_cons; by left|].
    rewrite Hd in H. cbn [from_option_or mbind result_bind] in H.
    destruct (books_delegations _ _ _ B i t d Hd) as (_ & Hdb & _).
    rewrite i64_id in H by (unfold i64_min, i64_max in *; lia).
    set (delta := Z.min overflow d) in *.
    rewrite (u64_id delta) in H by (unfold u64_max, i64_max in *; lia).
    assert (∀ lim, (s1 ← update_account_after_rc_delegation env t (- delta) true
        (set_rc_delegations (put_delegation i t (d - delta) (rc_delegations s)) s);
      remove_delegations_while env i l (overflow - delta) lim s1) = Ok (s', overflow', limit') →
      removed i (overflow - overflow') s s' ∧ 0 ≤ overflow' ≤ overflow) as Hstep.
    { intros lim (s1 & Hu & Hrec)%bind_Ok.
      destruct (removed_step i t d delta x s s1 B A Hd ltac:(lia) Hu) as [R1 Ed].
      destruct (IH (overflow - delta) lim (x - delta) s1) as [R2 Hb]; try done.
      - by apply (removed_books _ _ _ _ R1).
      - by apply (removed_accounts _ _ _ _ R1).
      - intros t' Ht'. rewrite Ed, lookup_put, decide_False; [|congruence].
        apply Hl. apply elem_of_cons. by right.
      - lia.
      - split; [|lia]. replace (overflow - overflow') with (delta + (overflow - delta - overflow')) by lia.
        by apply (removed_trans i delta _ s s1 s'). }
    destruct (Z.ltb_spec delta d) as [Hlt|Hge].
    + apply (Hstep limit). unfold put_delegation. rewrite (proj2 (Z.eqb_neq _ _)) by lia.
      rewrite (u64_id (d - delta)) in H by (unfold u64_max, i64_max in *; lia). exact H.
    + destruct (remove_guard_step limit) as [lim ok]. destruct ok.
      * apply (Hstep lim). unfold put_delegation. rewrite (proj2 (Z.eqb_eq (d - delta) 0)) by lia. exact H.
      * injection H as <- <- <-. rewrite Z.sub_diag. split; [apply removed_refl|lia].
Qed.

Lemma delegatees_spec i s : NoDup (delegatees_of i s) ∧
  ∀ t, t ∈ delegatees_of i s ↔ is_Some (rc_delegations s !! (i, t)).
Proof using.
  unfold delegatees_of. split.
  - rewrite (merge_sort_Permutation Z.le). apply NoDup_fmap_2_strong.
    + intros [f1 t1] [f2 t2] [H1 _]%list_elem_of_filter [H2 _]%list_elem_of_filter Ht.
      cbn [fst snd] in *. by subst.
    + apply NoDup_filter, NoDup_fst_map_to_list.
  - intros t. rewrite (merge_sort_Permutation Z.le), list_elem_of_fmap. split.
    + intros ([f t'] & -> & [Hf Hin]%list_elem_of_filter). cbn in Hf. subst f.
      apply list_elem_of_fmap in Hin as ([k d] & Hk & Hin). cbn [fst] in Hk. subst k.
      apply elem_of_map_to_list in Hin. by exists d.
    + intros [d Hd]. exists (i, t). split; [done|]. apply list_elem_of_filter. split; [done|].
      apply list_elem_of_fmap. exists ((i, t), d). split; [done|]. by apply elem_of_map_to_list.
Qed.

Lemma remove_delegations_inv i overflow limit x s s' overflow' limit' :
  rc_books i x s → accounts_ok_but i s → 0 ≤ overflow ≤ i64_max →
  remove_delegations env overflow i limit s = Ok (s', overflow', limit') →
  removed i (overflow - overflow') s s' ∧ 0 ≤ overflow' ≤ overflow.
Proof using Hnow.
  intros B A Ho H. destruct (delegatees_spec i s) as [Hnd Hl].
  apply (removed_while i (delegatees_of i s) overflow limit x s s' overflow' limit'); try done.
  intros t. apply Hl.
Qed.

(** ** Delegations still to be removed *)

Lemma owed_add i e l j : NoDup l.*1 → 0 < e → owed l i + e ≤ i64_max →
  (∀ f x, (f, x) ∈ l → 0 < x) →
  owed (add_expired i e l) j = owed l j + (if decide (j = i) then e else 0).
Proof using.
  intros Hnd He. induction l as [|[f x] l IH]; intros Hb Hl; cbn [add_expired].
  - unfold owed. rewrite !fmap_cons, !sumZ_cons. cbn. rewrite u64_id by (unfold u64_max, i64_max, owed in *; cbn in *; lia).
    repeat case_decide; lia.
  - rewrite fmap_cons in Hnd. apply NoDup_cons in Hnd as [Hf Hnd].
    assert (0 < x) as Hx by (apply (Hl f); apply elem_of_cons; by left).
    assert (owed ((f, x) :: l) i = (if decide (f = i) then x else 0) + owed l i) as Eo.
    { unfold owed. by rewrite fmap_cons, sumZ_cons. }
    assert (0 ≤ owed l i) as Hpos.
    { apply sumZ_nonneg, Forall_forall. intros y Hy. apply list_elem_of_fmap in Hy as ([g z] & -> & Hin).
      cbn [fst snd]. destruct (decide (g = i)); [|lia]. assert (0 < z); [|lia]. apply (Hl g). apply elem_of_cons. by right. }
    destruct (Z.eqb_spec f i) as [->|Hne].
    + rewrite decide_True in Eo by done.
      assert (owed l i = 0) as E0 by (by apply owed_not).
      unfold owed. rewrite !fmap_cons, !sumZ_cons. cbn [fst snd].
      rewrite u64_id by (unfold u64_max, i64_max in *; lia). repeat case_decide; try lia; congruence.
    + rewrite decide_False in Eo by done. specialize (IH Hnd ltac:(lia)).
      unfold owed in *. rewrite !fmap_cons, !sumZ_cons. cbn [fst snd]. rewrite IH; [lia|].
      intros g z Hg. apply (Hl g). apply elem_of_cons. by right.
Qed.

Lemma add_expired_elem i e l f x : NoDup l.*1 → (f, x) ∈ add_expired i e l →
  (f, x) ∈ l ∨ f = i ∧ ∃ y, x = u64 (y + e) ∧ ((i, y) ∈ l ∨ y = 0).
Proof using.
  intros Hnd. induction l as [|[g z] l IH]; cbn [add_expired].
  - intros H%list_elem_of_singleton. injection H as -> ->. right. split; [done|]. exists 0.
    split; [by rewrite Z.add_0_l|by right].
  - rewrite fmap_cons in Hnd. apply NoDup_cons in Hnd as [_ Hnd].
    destruct (Z.eqb_spec g i) as [->|Hne]; intros [H|H]%elem_of_cons.
    + injection H as -> ->. right. split; [done|]. exists z. split; [done|]. left. apply elem_of_cons. by left.
    + left. apply elem_of_cons. by right.
    + left. apply elem_of_cons. by left.
    + destruct (IH Hnd H) as [Hl|(-> & y & -> & [Hy| ->])].
      * left. apply elem_of_cons. by right.
      * right. split; [done|]. exists y. split; [done|]. left. apply elem_of_cons. by right.
      * right. split; [done|]. exists 0. split; [done|]. by right.
Qed.

Lemma add_expired_names i e l :
  (add_expired i e l).*1 = if decide (i ∈ l.*1) then l.*1 else l.*1 ++ [i].
Proof using.
  induction l as [|[g z] l IH]; cbn [add_expired]; [by rewrite decide_False by (by intros ?%elem_of_nil)|].
  destruct (Z.eqb_spec g i) as [->|Hne].
  - rewrite decide_True; [done|]. rewrite fmap_cons. apply elem_of_cons. by left.
  - rewrite !fmap_cons, IH. cbn [fst]. destruct (decide (i ∈ l.*1)) as [Hin|Hin].
    + rewrite decide_True; [done|]. apply elem_of_cons. by right.
    + rewrite decide_False; [done|]. intros [->|]%elem_of_cons; done.
Qed.

Lemma owed_nonneg i x s j : rc_books i x s → 0 ≤ owed (rc_expired s) j.
Proof using.
  intros B. apply sumZ_nonneg, Forall_forall. intros y Hy.
  apply list_elem_of_fmap in Hy as ([g z] & -> & Hin). cbn [fst snd].
  destruct (books_expired _ _ _ B) as [_ He]. specialize (He g z Hin). case_decide; lia.
Qed.

Lemma owed_elem l i e : NoDup l.*1 → (i, e) ∈ l → owed l i = e.
Proof using.
  intros Hnd Hin. induction l as [|[g z] l IH]; [by apply elem_of_nil in Hin|].
  rewrite fmap_cons in Hnd. apply NoDup_cons in Hnd as [Hg Hnd].
  unfold owed in *. rewrite fmap_cons, sumZ_cons. cbn [fst snd]. apply elem_of_cons in Hin as [Hin|Hin].
  - injection Hin as -> ->. rewrite decide_True by done. fold (owed l g).
    rewrite owed_not by done. lia.
  - rewrite decide_False; [rewrite IH by done; lia|]. intros ->. apply Hg.
    by apply (list_elem_of_fmap_2 fst _ _ Hin).
Qed.

Lemma books_expire i x e s : rc_books i x s → is_Some (rc_accounts s !! i) → 0 < e →
  owed (rc_expired s) i + e ≤ i64_max →
  rc_books i (x - e) (set_rc_expired (add_expired i e (rc_expired s)) s).
Proof using.
  intros B Hi He Hb. pose proof B as [B1 [B2 B3] B4 B5].
  split; cbn [rc_accounts rc_delegations rc_expired set_rc_expired]; try done.
  - split.
    + rewrite add_expired_names. case_decide; [done|]. rewrite NoDup_app. split_and!; [done| |].
      * intros y Hy ->%list_elem_of_singleton. done.
      * apply NoDup_singleton.
    + intros f y Hy. apply add_expired_elem in Hy as [Hy|(-> & z & -> & Hz)]; [by apply B3| |done].
      split; [|done].
      assert (0 ≤ z ∧ z ≤ owed (rc_expired s) i) as [Hz0 Hzo].
      { destruct Hz as [Hz| ->]; [|by split; [|apply (owed_nonneg i x s i B)]].
        rewrite (owed_elem _ i z B2 Hz). specialize (B3 i z Hz). lia. }
      rewrite u64_id by (unfold u64_max, i64_max in *; lia). lia.
  - intros j a Hj. rewrite owed_add; [|done..|].
    + specialize (B4 j a Hj). repeat case_decide; lia.
    + intros f y Hy. destruct (B3 f y Hy). lia.
Qed.

(** The first of them goes down to [e'], and away when that is zero. *)
Lemma books_drop i x e e' rest s : rc_books i x s → rc_expired s = (i, e) :: rest →
  0 ≤ e' ≤ i64_max →
  rc_books i (x + (e - e'))
    (set_rc_expired (if 0 <? e' then (i, e') :: rest else rest) s).
Proof using.
  intros [B1 [B2 B3] B4 B5] Hl He. rewrite Hl in *. rewrite fmap_cons in B2.
  apply NoDup_cons in B2 as [Hn B2].
  split; cbn [rc_accounts rc_delegations rc_expired set_rc_expired]; try done.
  - split.
    + destruct (0 <? e'); [|done]. rewrite fmap_cons. by apply NoDup_cons.
    + intros f y Hy. destruct (Z.ltb_spec 0 e').
      * apply elem_of_cons in Hy as [[= -> ->]|Hy].
        -- split; [lia|]. apply (B3 i e). apply elem_of_cons. by left.
        -- apply B3. apply elem_of_cons. by right.
      * apply B3. apply elem_of_cons. by right.
  - intros j a Hj. specialize (B4 j a Hj). unfold owed in *.
    rewrite fmap_cons, sumZ_cons in B4. cbn [fst snd] in B4.
    destruct (Z.ltb_spec 0 e'); [rewrite fmap_cons, sumZ_cons; cbn [fst snd]|];
      repeat case_decide; try lia; congruence.
Qed.

(** ** Changes of VESTS *)

(** An account whose VESTS were just changed: [last_max_rc] still is the old maximum. *)
Record shaken (a : account_object) : Prop := {
  shaken_effective : get_effective_vesting_shares true a = Ok (effective a);
  shaken_parts : 0 ≤ effective a ≤ i64_max ∧ 0 ≤ delegated_rc a ∧ 0 ≤ rc_adjustment a ∧
    0 ≤ received_rc a;
  shaken_mana : 0 ≤ current_mana (rc_manabar a) ≤ last_max_rc a;
  shaken_time : 0 ≤ last_update_time (rc_manabar a) ≤ u32_max
}.

Lemma total_same i s s' :
  (∀ j, is_Some (rc_accounts s !! j) → sent (rc_delegations s) j ≤ i64_max) →
  (∀ f t, f ≠ i → rc_delegations s' !! (f, t) = rc_delegations s !! (f, t)) →
  (∀ j, identity s' j = identity s j) → sent (rc_delegations s') i ≤ i64_max →
  ∀ j, is_Some (rc_accounts s' !! j) → sent (rc_delegations s') j ≤ i64_max.
Proof using.
  intros T Hd Hid Hi j Hj. destruct (decide (j = i)) as [->|Hne]; [done|].
  rewrite (sent_ext _ (rc_delegations s)) by (intros t; by apply Hd). apply T.
  apply (fmap_is_Some (λ a, (name a, effective a))). fold (identity s j). rewrite <- Hid.
  unfold identity. by apply fmap_is_Some.
Qed.

Lemma handle_delegation_overflow_inv i a s s' :
  rc_books i 0 s → accounts_ok_but i s → rc_accounts s !! i = Some a → shaken a →
  sent (rc_delegations s) i ≤ i64_max →
  handle_delegation_overflow env i s = Ok s' →
  rc_books i 0 s' ∧ accounts_ok_but i s' ∧
  (∀ f t, f ≠ i → rc_delegations s' !! (f, t) = rc_delegations s !! (f, t)) ∧
  sent (rc_delegations s') i ≤ i64_max ∧ (∀ j, identity s' j = identity s j) ∧
  ∃ y, rc_accounts s' !! i = Some (set_delegated_rc y a) ∧ 0 ≤ y ≤ effective a.
Proof using Hnow.
  intros B A Ha [S1 S2 S3 S4] Hs H. unfold handle_delegation_overflow, rc_get_account in H.
  assert (set_delegated_rc (delegated_rc a) a = a) as Ea by (by destruct a).
  rewrite Ha in H. cbn [from_option_or mbind result_bind] in H.
  destruct (Z.ltb_spec 0 (delegated_rc a)) as [Hd|Hd]; cbn [negb] in H.
  2: { injection H as <-. split_and!; try done. exists (delegated_rc a). rewrite Ea. split; [done|lia]. }
  apply bind_Ok in H as (own & Hown & H). apply get_maximum_inv in Hown as [_ ->].
  apply bind_Ok in H as (init & [-> Hi]%signed64_inv & H).
  set (init := - (effective a - delegated_rc a)) in *.
  destruct (Z.ltb_spec 0 init) as [Hp|Hp]; cbn [negb] in H.
  2: { injection H as <-. split_and!; try done. exists (delegated_rc a). rewrite Ea. split; [done|lia]. }
  apply bind_Ok in H as ([[s1 ov] lim] & Hr & H). cbn beta iota in H.
  destruct (remove_delegations_inv i init _ 0 s s1 ov lim B A ltac:(lia) Hr) as [R Hov].
  pose proof (removed_books _ _ _ _ R 0 B) as B1.
  pose proof (removed_from _ _ _ _ R) as Hf. rewrite Ha in Hf.
  pose proof (books_sent _ _ _ B1 i a Hf) as Hb1. rewrite decide_True in Hb1 by done.
  pose proof (books_sent _ _ _ B i a Ha) as Hb0. rewrite decide_True in Hb0 by done.
  rewrite (removed_expired _ _ _ _ R) in Hb1.
  set (s2 := if 0 <? ov then set_rc_expired (add_expired i ov (rc_expired s1)) s1 else s1) in H.
  assert (rc_accounts s2 = rc_accounts s1 ∧ rc_delegations s2 = rc_delegations s1) as [E1 E2]
    by (by subst s2; destruct (0 <? ov)).
  assert (rc_books i (- init) s2) as B2.
  { subst s2. destruct (Z.ltb_spec 0 ov) as [Ho|Ho].
    - replace (- init) with (0 - (init - ov) - ov) by lia. apply books_expire; [done|by rewrite Hf|done|].
      rewrite (removed_expired _ _ _ _ R). pose proof (sent_nonneg _ _ _ B1 i). lia.
    - assert (ov = 0) as -> by lia. replace (- init) with (0 - (init - 0)) by lia. done. }
  apply rc_modify_inv in H as (b & b' & Hb & Hset & ->). rewrite E1, Hf in Hb. injection Hb as <-.
  apply bind_Ok in Hset as (y & Hy%share_sub_eq & [= <-]).
  assert (accounts_ok_but i s1) as A1 by (by apply (removed_accounts _ _ _ _ R)).
  split_and!.
  - replace 0 with (- init - - init) by lia.
    apply (books_settle i (- init) s2 B2 (- init) a); [by rewrite E1|cbn; lia|done].
  - intros j c Hj Hc. cbn [set_rc_accounts rc_accounts] in Hc.
    rewrite lookup_insert_ne, E1 in Hc by done. by apply (A1 j).
  - intros f t Hft. cbn [set_rc_accounts rc_delegations]. rewrite E2. by apply (removed_others _ _ _ _ R).
  - cbn [set_rc_accounts rc_delegations]. rewrite E2. lia.
  - intros j. rewrite (identity_set s2 i a) by (by rewrite ?E1). unfold identity. rewrite E1.
    apply (removed_identity _ _ _ _ R).
  - exists y. cbn [set_rc_accounts rc_accounts]. rewrite lookup_insert_eq. split; [done|lia].
Qed.

(** The end of [update_account_after_vest_change], on the account. *)
Lemma vest_change_settles fill a : shaken a → delegated_rc a ≤ effective a →
  ∀ new, get_maximum_rc false a = Ok new →
  ∀ drc, signed64 (new - last_max_rc a) = Ok drc →
  (new = last_max_rc a → account_ok a) ∧
  ∀ mana, signed64 (current_mana (rc_manabar a) + Z.max (if fill : bool then drc else 0) 0) = Ok mana →
  account_ok (set_rc_manabar (Manabar (if new <? mana then new else mana)
    (last_update_time (rc_manabar a))) (set_last_max_rc new a)).
Proof using.
  intros [S1 S2 S3 S4] Hle new Hnew drc [-> Hdrc]%signed64_inv.
  pose proof (get_maximum_range a new Hnew) as Hr. apply get_maximum_inv in Hnew as [_ ->].
  assert (max_rc a ≤ i64_max) as Hmax by lia.
  assert (0 ≤ max_rc a) as Hpos by (unfold max_rc; lia).
  assert (rc_parts a) as Hp by (split; try done; lia). split.
  - intros He. split; try done; lia.
  - intros mana [-> Hmana]%signed64_inv. set (a' := set_rc_manabar _ _).
    destruct (rc_parts_ext a a' eq_refl eq_refl eq_refl eq_refl Hp) as [Hp' Em].
    split; [done|by rewrite Em| |done]. rewrite Em.
    cbn [a' rc_manabar set_rc_manabar current_mana].
    destruct (Z.ltb_spec (max_rc a) (current_mana (rc_manabar a)
      + Z.max (if fill then max_rc a - last_max_rc a else 0) 0)); lia.
Qed.

Lemma update_account_after_vest_change_inv i a fill check s s' :
  rc_books i 0 s → accounts_ok_but i s → rc_accounts s !! i = Some a → shaken a →
  (∀ j, is_Some (rc_accounts s !! j) → sent (rc_delegations s) j ≤ i64_max) →
  (check = true ∨ delegated_rc a ≤ effective a) →
  update_account_after_vest_change env i fill check s = Ok s' →
  rc_ok s' ∧ ∀ j, identity s' j = identity s j.
Proof using Hnow.
  intros B A Ha Hsh T Hck H. unfold update_account_after_vest_change in H.
  apply bind_Ok in H as (s1 & H1 & H).
  assert (rc_books i 0 s1 ∧ accounts_ok_but i s1 ∧
    (∀ f t, f ≠ i → rc_delegations s1 !! (f, t) = rc_delegations s !! (f, t)) ∧
    sent (rc_delegations s1) i ≤ i64_max ∧ (∀ j, identity s1 j = identity s j) ∧
    ∃ y, rc_accounts s1 !! i = Some (set_delegated_rc y a) ∧ 0 ≤ y ≤ effective a)
    as (B1 & A1 & O1 & T1 & I1 & y & Ha1 & Hy).
  { destruct check.
    - apply (handle_delegation_overflow_inv i a s s1); try done. apply T. by rewrite Ha.
    - injection H1 as <-. destruct Hck as [|Hle]; [done|]. split_and!; try done.
      + apply T. by rewrite Ha.
      + exists (delegated_rc a). destruct Hsh. split; [by destruct a|lia]. }
  pose proof (total_same i s s1 T O1 I1 T1) as T1'.
  set (a1 := set_delegated_rc y a) in *.
  assert (shaken a1) as Hsh1.
  { destruct Hsh as [S1 S2 S3 S4]. split; try done.
    change (effective a1) with (effective a).
    cbn [a1 delegated_rc received_rc rc_adjustment set_delegated_rc]. lia. }
  unfold rc_get_account in H. rewrite Ha1 in H. cbn [from_option_or mbind result_bind] in H.
  apply bind_Ok in H as (new & Hnew & H). apply bind_Ok in H as (drc & Hdrc & H).
  destruct (vest_change_settles fill a1 Hsh1 ltac:(change (effective a1) with (effective a); cbn; lia)
    new Hnew drc Hdrc) as [Hsame Hset].
  destruct (Z.eqb_spec new (last_max_rc a1)) as [He|Hne].
  - injection H as <-. split; [|done]. split; [intros j; by apply (books_any i)|done|].
    intros j b Hb. destruct (decide (j = i)) as [->|Hj]; [|by apply (A1 j)].
    rewrite Ha1 in Hb. injection Hb as <-. by apply Hsame.
  - apply rc_modify_inv in H as (b & b' & Hb & Hf & ->). rewrite Ha1 in Hb. injection Hb as <-.
    apply bind_Ok in Hf as (mana & Hmana & [= <-]). specialize (Hset mana Hmana).
    split.
    + split.
      * intros j. apply (books_any i). by apply (books_same i 0 s1 B1 i a1).
      * intros j Hj. apply T1'. cbn [set_rc_accounts rc_accounts] in Hj.
        apply lookup_insert_is_Some' in Hj as [<-|Hj]; [by rewrite Ha1|done].
      * intros j c Hc. cbn [set_rc_accounts rc_accounts] in Hc.
        apply lookup_insert_Some in Hc as [[_ <-]|[Hj Hc]]; [done|]. by apply (A1 j).
    + intros j. rewrite (identity_set s1 i a1) by done. apply I1.
Qed.

(** A change of VESTS touches nothing of the resource credits, keeps the effective VESTS
    representable and non-negative, and may lower them only with the check. *)
Definition vest_change_ok (change : account_object → result account_object) (check : bool) : Prop :=
  ∀ a a', change a = Ok a' →
    name a' = name a ∧ delegated_rc a' = delegated_rc a ∧ received_rc a' = received_rc a ∧
    rc_adjustment a' = rc_adjustment a ∧ last_max_rc a' = last_max_rc a ∧
    rc_manabar a' = rc_manabar a ∧
    get_effective_vesting_shares true a' = Ok (effective a') ∧ 0 ≤ effective a' ≤ i64_max ∧
    (check = true ∨ effective a ≤ effective a').

Lemma around_vest_change_inv i change fill check s s' :
  rc_ok s → vest_change_ok change check → around_vest_change env i change fill check s = Ok s' →
  rc_ok s'.
Proof using Hnow.
  intros [B T A] Hch H. unfold around_vest_change in H.
  apply bind_Ok in H as (s1 & Hr & H). apply bind_Ok in H as (s2 & Hm & H).
  destruct (regenerate_rc_mana_inv env Hnow i i 0 s s1 (B i) (A i) Hr)
    as (a & a1 & Ha & Hok1 & D1 & R1 & N1 & (m & Em & _) & Es1 & B1).
  apply rc_modify_inv in Hm as (b & a2 & Hb & Hc & Es2).
  assert (b = a1) as ->. { rewrite Es1 in Hb. cbn [set_rc_accounts rc_accounts] in Hb.
    rewrite lookup_insert_eq in Hb. congruence. }
  destruct (Hch a1 a2 Hc) as (N2 & D2 & R2 & X2 & L2 & M2 & E2 & Q2 & K2).
  destruct Hok1 as [[P1 P2 P3 P4] Hl Hmn Ht].
  destruct (update_account_after_vest_change_inv i a2 fill check s2 s') as [Hok _]; try done.
  - rewrite Es2. by apply (books_same i 0 s1 B1 i a1).
  - intros j c Hj Hc'. rewrite Es2, Es1 in Hc'. cbn [set_rc_accounts rc_accounts] in Hc'.
    rewrite !lookup_insert_ne in Hc' by done. by apply (A j).
  - rewrite Es2. cbn [set_rc_accounts rc_accounts]. apply lookup_insert_eq.
  - split; rewrite ?M2, ?L2, ?D2, ?R2, ?X2, ?Hl; try done. lia.
  - intros j Hj. rewrite Es2, Es1 in *. cbn [set_rc_accounts rc_accounts rc_delegations] in *.
    apply T. apply lookup_insert_is_Some' in Hj as [<-|Hj]; [by rewrite Ha|].
    apply lookup_insert_is_Some' in Hj as [<-|Hj]; [by rewrite Ha|done].
  - destruct K2 as [->|Hle]; [by left|right]. lia.
Qed.

(** One round: [amount] of what [i] owes is removed. *)
Lemma expired_round_ok i e e' rest s s' :
  rc_ok s → rc_expired s = (i, e) :: rest → 0 ≤ e' ≤ e → removed i (e - e') s s' →
  rc_ok (set_rc_expired (if 0 <? e' then (i, e') :: rest else rest) s') ∧
  ∀ j, identity s' j = identity s j.
Proof using.
  intros [B T A] Hl He R. split; [|apply (removed_identity _ _ _ _ R)].
  pose proof (removed_books _ _ _ _ R 0 (B i)) as B1.
  destruct (books_expired _ _ _ (B i)) as [_ Hex].
  destruct (Hex i e) as [Hb Hi]; [rewrite Hl; apply elem_of_cons; by left|]. destruct Hi as [a Ha].
  assert (accounts_ok s') as A1.
  { intros j b Hb'. destruct (decide (j = i)) as [->|Hj].
    - rewrite (removed_from _ _ _ _ R) in Hb'. by apply (A i).
    - apply (removed_accounts _ _ _ _ R) with (j := j); [|done|done]. intros k c _. apply A. }
  pose proof (books_drop i (0 - (e - e')) e e' rest s' B1) as B2.
  rewrite (removed_expired _ _ _ _ R) in B2. specialize (B2 Hl ltac:(lia)).
  replace (0 - (e - e') + (e - e')) with 0 in B2 by lia.
  split; [intros j; by apply (books_any i)| |done]. cbn [set_rc_expired rc_accounts rc_delegations].
  apply (total_same i s s' T); [apply (removed_others _ _ _ _ R)|apply (removed_identity _ _ _ _ R)|].
  assert (rc_accounts s' !! i = Some a) as Hf by (by rewrite (removed_from _ _ _ _ R)).
  pose proof (books_sent _ _ _ B1 i a Hf) as H1. pose proof (books_sent _ _ _ (B i) i a Ha) as H0.
  rewrite decide_True in H0, H1 by done. rewrite (removed_expired _ _ _ _ R) in H1.
  specialize (T i ltac:(by rewrite Ha)). lia.
Qed.

Lemma expired_rounds_inv n limit s s' : rc_ok s → expired_rounds env n limit s = Ok s' → rc_ok s'.
Proof using Hnow.
  revert limit s. induction n as [|n IH]; intros limit s Hok H; cbn [expired_rounds] in H.
  { by injection H as <-. }
  destruct (rc_expired s) as [|[from e] rest] eqn:Hl; [by injection H as <-|].
  apply bind_Ok in H as ([[s1 ov] lim] & Hr & H). cbn beta iota in H.
  destruct (books_expired _ _ _ (ok_books s Hok from)) as [_ Hex].
  destruct (Hex from e) as [He _]; [rewrite Hl; apply elem_of_cons; by left|].
  rewrite i64_id in Hr by (unfold i64_min, i64_max in *; lia).
  destruct (remove_delegations_inv from e limit 0 s s1 ov lim (ok_books s Hok from)) as [R Hov];
    [intros j a _; apply (ok_accounts s Hok j)|lia|done|].
  destruct (expired_round_ok from e ov rest s s1 Hok Hl Hov R) as [Hok1 _].
  destruct (Z.ltb_spec 0 ov).
  - injection H as <-. by rewrite u64_id by (unfold u64_max, i64_max in *; lia).
  - destruct (lim =? 0); [by injection H as <-|]. by apply (IH lim (set_rc_expired rest s1)).
Qed.

Lemma handle_expired_delegations_inv s s' :
  rc_ok s → handle_expired_delegations env s = Ok s' → rc_ok s'.
Proof using Hnow.
  unfold handle_expired_delegations. intros Hok. destruct (negb _); [by intros [= <-]|].
  by apply expired_rounds_inv.
Qed.

End preservation.
