(* ===== verification/RcCharge.v ===== *)
(** * Charging transactions with resource credits

    What a transaction costs and who pays it (libraries/chain/rc/rc_utility.cpp: [compute_cost]
    of a transaction, [use_account_rcs], [finalize_transaction]; rc_objects.hpp:
    [rc_pool_object]; resource_user.cpp: [get_resource_user]).

    Arrays over the resource types are lists of five, in the order of [rc_resource_types].  The
    statistics for reports ([rc_stats_object]) and the copies of mana in [tx_info] that are only
    logged are left out.

    The payer signs the transaction ([resource_user_signs]), pays its cost and the surcharge for
    a flooded queue ([flood_charge_exact]), and keeps its account well-formed
    ([use_account_rcs_inv]). *)

From S2P Require Import Prelude Safe Asset OperationTypes Operations Transaction Manabar DelayedVotes.
From S2P Require Import Account Governance ResourceDynamics ResourceCost ResourceCount.
From S2P Require Import SignState RcDelegations RcBooks.
Open Scope Z_scope.

Definition HIVE_RC_BLOCKS_PER_REGEN : Z := HIVE_RC_REGEN_TIME / 3.

(** ** State *)

Record rc_resource_params : Set := RcResourceParams {
  resource_dynamics_params : rd_dynamics_params;
  price_curve_params : rc_price_curve_params
}.

Record rc_pool_object : Set := RcPool {
  pool_array : list Z;                   (* int64_t *)
  usage_in_window : list Z;              (* int64_t *)
  last_known_budget : list Z;            (* int64_t *)
  resource_weights : list Z;             (* uint64_t *)
  sum_of_resource_weights : Z            (* uint64_t *)
}.

(** The usage of a transaction as an array. *)
Definition usage_array (u : resource_count_type) : list Z :=
  [resource_history_bytes u; resource_new_accounts u; resource_market_bytes u;
   resource_state_bytes u; resource_execution_time u].

Inductive transaction_status : Set :=
| TX_STATUS_NONE | TX_STATUS_UNVERIFIED | TX_STATUS_PENDING
| TX_STATUS_BLOCK | TX_STATUS_P2P_BLOCK | TX_STATUS_GEN_BLOCK.

Definition is_validating_one_tx (st : transaction_status) : bool :=
  match st with TX_STATUS_UNVERIFIED => true | _ => false end.
Definition is_reapplying_one_tx (st : transaction_status) : bool :=
  match st with TX_STATUS_PENDING => true | _ => false end.
Definition is_producing_block (st : transaction_status) : bool :=
  match st with TX_STATUS_GEN_BLOCK => true | _ => false end.
Definition is_in_control (st : transaction_status) : bool :=
  is_validating_one_tx st || is_producing_block st.
Definition is_validating_block (st : transaction_status) : bool :=
  match st with TX_STATUS_P2P_BLOCK => true | _ => false end.
Definition is_replaying_block (st : transaction_status) : bool :=
  match st with TX_STATUS_BLOCK => true | _ => false end.

(** ** The cost of a transaction *)

Definition rc_regen_per_block (total_vests : Z) : Z := cdiv total_vests HIVE_RC_BLOCKS_PER_REGEN.

(** The cost of one resource; the usage is scaled to units on the way. *)
Definition cost_of_resource (rc_regen divisor : Z) (p : rc_resource_params)
    (pool weight usage : Z) : result (Z * Z) :=
  scaled ← signed64 (usage * i64 (resource_unit (resource_dynamics_params p)));
  q ← udiv (u128 (rc_regen * weight)) divisor;
  pool_regen_share ← uint128_to_int64 q;
  if 0 <? pool_regen_share then
    c ← compute_cost (price_curve_params p) pool scaled pool_regen_share;
    Ok (scaled, c)
  else Ok (scaled, 0).

Fixpoint costs (rc_regen divisor : Z) (params : list rc_resource_params)
    (pools weights usages : list Z) (total : Z) : result (list Z * list Z * Z) :=
  match params, pools, weights, usages with
  | p :: params, x :: pools, w :: weights, u :: usages =>
      '(scaled, c) ← cost_of_resource rc_regen divisor p x w u;
      total ← signed64 (total + c);
      '(us, cs, total) ← costs rc_regen divisor params pools weights usages total;
      Ok (scaled :: us, c :: cs, total)
  | _, _, _, _ => Ok ([], [], total)
  end.

(** [compute_cost( usage_info )]: the usage in units, the cost of each resource and the total. *)
Definition transaction_cost (total_vests : Z) (params : list rc_resource_params)
    (pool : rc_pool_object) (usage : list Z) : result (list Z * list Z * Z) :=
  let rc_regen := rc_regen_per_block total_vests in
  if 0 <? rc_regen then
    costs rc_regen (sum_of_resource_weights pool) params (pool_array pool) (resource_weights pool)
      usage 0
  else Ok (usage, (λ _, 0) <$> usage, 0).

(** ** The payer *)

Section payer.
Context `{Externals}.

(** The generic case of [get_resource_user_visitor]. *)
Definition resource_user_visitor (T : Type) (_ : base_operation T) (o : T) : account_name_type :=
  match get_required_active_authorities o [], get_required_owner_authorities o [],
        get_required_posting_authorities o [] with
  | n :: _, _, _ | [], n :: _, _ | [], [], n :: _ => n
  | [], [], [] => ""
  end.

Definition resource_user (op : operation) : account_name_type :=
  match op with
  | op_witness_set_properties o => witness_set_properties_owner o
  | op_recover_account o => recover_account_account_to_recover o
  | op_witness_block_approve o => witness_block_approve_witness o
  | _ => visit resource_user_visitor op
  end.

(** The first operation that has a user decides. *)
Definition get_resource_user (ops : list operation) : account_name_type :=
  default "" (head (filter (λ n, n ≠ ""%string) (resource_user <$> ops))).

End payer.

(** What the node knows of its queue and its witnesses. *)
Record flood_env : Type := FloodEnv {
  tx_status : transaction_status;
  pending_tx_size : Z;                   (* uint64_t *)
  maximum_block_size : Z;                (* uint32_t *)
  flood_level : Z;                       (* uint16_t *)
  flood_surcharge : Z;                   (* uint16_t *)
  is_elected_witness : account_name_type → bool
}.

(** The single operation of a transaction that concerns its witness. *)
Definition is_witness_operation (ops : list operation) : bool :=
  match ops with
  | [op_feed_publish _] | [op_witness_update _] | [op_witness_set_properties _] => true
  | _ => false
  end.

(** The surcharge while the queue is long, and whether the transaction is privileged. *)
Definition flood_charge (f : flood_env) (payer : account_name_type) (ops : list operation) (rc : Z) :
    result (Z * bool) :=
  if is_validating_one_tx (tx_status f) || is_reapplying_one_tx (tx_status f) then
    blocks_in_mempool ← udiv (pending_tx_size f) (maximum_block_size f);
    if flood_level f <? blocks_in_mempool then
      if is_witness_operation ops && is_elected_witness f payer then Ok (0, true)
      else
        let sc := u64 (u64 (blocks_in_mempool - flood_level f) * flood_surcharge f) in
        let sc := u128 (sc * u128 rc) in
        let sc := sc / HIVE_100_PERCENT in
        room ← signed64 (i64_max - rc);
        fc_assert (sc <=? u64 room) "sc <= std::numeric_limits<int64_t>::max() - rc" ;;
        Ok (i64 sc, false)
    else Ok (0, false)
  else Ok (0, false).

(** The lambda of [use_account_rcs] on the payer. *)
Definition charge_payer (env : rc_env) (f : flood_env) (ops : list operation) (rc : Z)
    (a : account_object) : result (account_object * bool) :=
  max_mana ← get_maximum_rc false a;
  m ← regenerate_mana true (ManabarParams max_mana HIVE_RC_REGEN_TIME) (rc_time env) (rc_manabar a);
  '(surcharge, privileged) ← flood_charge f (name a) ops rc;
  needed ← signed64 (rc + surcharge);
  (if is_in_control (tx_status f) || is_reapplying_one_tx (tx_status f)
   then fc_assert (has_mana needed m) "not_enough_rc_exception"
   else Ok tt) ;;
  Ok (set_rc_manabar (use_mana needed 0 m) a, privileged).

(** Without a payer a node in control throws and any other charges nobody. *)
Definition use_account_rcs (env : rc_env) (f : flood_env) (payer : account_name_type)
    (ops : list operation) (rc : Z) (s : rc_state) : result (rc_state * bool) :=
  if String.eqb payer "" then
    if is_in_control (tx_status f)
    then Throw (fc_exception "Tried to execute transaction with no resource user")
    else Ok (s, false)
  else
    i ← rc_account_id payer s;
    a ← rc_get_account i s;
    '(a, privileged) ← charge_payer env f ops rc a;
    Ok (set_rc_accounts (<[i := a]> (rc_accounts s)) s, privileged).

Record rc_block_info : Set := RcBlockInfo {
  block_usage : list Z;                  (* int64_t *)
  block_cost : list Z;                   (* int64_t *)
  block_tx_count : Z                     (* uint32_t *)
}.

(** [a[i] += b[i]] on arrays. *)
Fixpoint add_counts (xs ys : list Z) : result (list Z) :=
  match xs, ys with
  | x :: xs, y :: ys => z ← signed64 (x + y); zs ← add_counts xs ys; Ok (z :: zs)
  | _, _ => Ok []
  end.

Definition rc_block_info_add (usage cost : list Z) (b : rc_block_info) : result rc_block_info :=
  u ← add_counts (block_usage b) usage;
  c ← add_counts (block_cost b) cost;
  Ok (RcBlockInfo u c (u32 (block_tx_count b + 1))).

(** The payer is the one found by [reset_tx_info]; [rc_usage s] is what was collected while the
    transaction was applied.  The result has the cost and the privilege of the transaction. *)
Definition finalize_transaction `{Externals} (env : rc_env) (f : flood_env)
    (params : list rc_resource_params) (pool : rc_pool_object) (tx : signed_transaction)
    (tx_size : Z) (s : rc_state) (b : rc_block_info) : result (rc_state * rc_block_info * Z * bool) :=
  let ops := operations (trx tx) in
  usage ← count_resources (rc_time env) tx tx_size (rc_usage s);
  '(units, cost, total_cost) ← transaction_cost (rc_total_vesting_shares env) params pool
    (usage_array usage);
  '(s, privileged) ← use_account_rcs env f (get_resource_user ops) ops total_cost s;
  b ← (if is_validating_block (tx_status f) || is_replaying_block (tx_status f)
       then rc_block_info_add units cost b else Ok b);
  Ok (s, b, total_cost, privileged).

(** ** The payer is one of the signers *)

Section payer_spec.
Context `{Externals}.

(** The two operations whose payer is authenticated in another way: the account to recover by
    its recent owner authority, the witness by its signing key. *)
Definition other_payer (op : operation) (n : account_name_type) : Prop :=
  match op with
  | op_recover_account o => n = recover_account_account_to_recover o
  | op_witness_set_properties o => n = witness_set_properties_owner o
  | _ => False
  end.

Lemma generic_user_signs {T} (B : base_operation T) (o : T) r :
  resource_user_visitor T B o ≠ "" → required_auth_visitor no_requirement T B o = Ok r →
  signer r (resource_user_visitor T B o).
Proof.
  unfold resource_user_visitor, required_auth_visitor, no_requirement, signer.
  cbn [required_active required_owner required_posting required_witness other].
  intros Hn Hr. apply bind_Ok in Hr as (x & _ & [= <-]).
  cbn [required_active required_owner required_posting].
  repeat case_match; set_solver.
Qed.

Lemma resource_user_signs op r :
  resource_user op ≠ "" → visit (required_auth_visitor no_requirement) op = Ok r →
  signer r (resource_user op) ∨ other_payer op (resource_user op).
Proof.
  destruct op; cbn [resource_user visit other_payer]; intros Hn Hr;
    try (by left; apply generic_user_signs); try (by right).
  left. cbn in Hr. injection Hr as <-. unfold signer. cbn. set_solver.
Qed.

Lemma get_resource_user_from ops : get_resource_user ops ≠ "" →
  ∃ op, op ∈ ops ∧ get_resource_user ops = resource_user op ∧ resource_user op ≠ "".
Proof.
  unfold get_resource_user. destruct (filter _ _) as [|n l] eqn:Hf; [done|]. intros _. cbn.
  assert (n ∈ filter (λ n, n ≠ ""%string) (resource_user <$> ops)) as Hn by (rewrite Hf; left).
  apply list_elem_of_filter in Hn as [Hne Hn]. apply list_elem_of_fmap in Hn as (op & -> & Hop).
  by exists op.
Qed.

End payer_spec.

(** ** The payment *)

(** The surcharge fits in what is left of the range. *)
Lemma flood_charge_bound f n ops rc sc privileged :
  0 ≤ rc ≤ i64_max → 0 ≤ flood_surcharge f →
  flood_charge f n ops rc = Ok (sc, privileged) →
  0 ≤ sc ∧ rc + sc ≤ i64_max ∧ (privileged = true → sc = 0).
Proof.
  intros Hrc Hs. unfold flood_charge. case_match; [|intros [= <- <-]; split_and!; done || lia].
  intros (blocks & _ & Hf)%bind_Ok. case_match; [|injection Hf as <- <-; split_and!; done || lia].
  case_match; [injection Hf as <- <-; lia|].
  apply bind_Ok in Hf as (room & [-> Hroom]%signed64_inv & Hf).
  apply fc_assert_bind_Ok in Hf as [Hle [= <- <-]]. bool_to_prop.
  rewrite (u64_id (i64_max - rc)) in Hle by (limits; lia).
  match type of Hle with ?x / _ ≤ _ => set (sc := x / HIVE_100_PERCENT) in *;
    assert (0 ≤ sc) by (apply Z.div_pos; [apply Z.mod_pos_bound; limits; lia|done]) end.
  rewrite i64_id by (limits; lia). split_and!; [done|lia|done].
Qed.

(** The surcharge, when the queue is longer than the level: a percentage of the cost for each
    block in excess. *)
Lemma flood_charge_exact f n ops rc :
  is_validating_one_tx (tx_status f) = true → is_witness_operation ops = false →
  0 < maximum_block_size f → 0 ≤ pending_tx_size f < 2 ^ 48 →
  0 ≤ flood_level f < pending_tx_size f / maximum_block_size f →
  0 ≤ flood_surcharge f ≤ HIVE_100_PERCENT → 0 ≤ rc ≤ i64_max →
  let sc := (pending_tx_size f / maximum_block_size f - flood_level f) * flood_surcharge f * rc
            / HIVE_100_PERCENT in
  flood_charge f n ops rc
  = if sc <=? i64_max - rc then Ok (sc, false)
    else Throw (assert_exception "sc <= std::numeric_limits<int64_t>::max() - rc").
Proof.
  intros Hst Hw Hm Hp Hl Hs Hrc sc. unfold flood_charge. rewrite Hst, Hw. cbn [orb andb].
  rewrite udiv_Ok by lia. cbn [mbind result_bind]. rewrite (proj2 (Z.ltb_lt _ _)) by lia.
  assert (pending_tx_size f / maximum_block_size f ≤ pending_tx_size f).
  { apply Z.div_le_upper_bound; nia. }
  unfold HIVE_100_PERCENT in *. set (k := pending_tx_size f / maximum_block_size f) in *.
  assert (0 ≤ (k - flood_level f) * flood_surcharge f ≤ 2 ^ 48 * 10000) as Hk by nia.
  assert (0 ≤ (k - flood_level f) * flood_surcharge f * rc ≤ 2 ^ 48 * 10000 * i64_max) as Hk2 by nia.
  rewrite (u64_id (k - _)), (u64_id (_ * _)) by (limits; lia).
  rewrite (u128_id rc), u128_id by (limits; lia). fold sc.
  rewrite signed64_Ok by (limits; lia). cbn [mbind result_bind].
  assert (0 ≤ sc) by (apply Z.div_pos; nia).
  rewrite (u64_id (i64_max - rc)) by (limits; lia). unfold fc_assert.
  destruct (Z.leb_spec sc (i64_max - rc)); [|done]. cbn [mbind result_bind].
  by rewrite i64_id by (limits; lia).
Qed.

Lemma use_mana_floor n m : 0 ≤ current_mana m ≤ i64_max → 0 ≤ n ≤ i64_max →
  use_mana n 0 m = Manabar (Z.max 0 (current_mana m - n)) (last_update_time m).
Proof.
  intros Hc Hn. unfold use_mana. limits.
  rewrite signed_sat_sub_clamps by (lia || (unfold signed_min, signed_max; simpl; lia)).
  rewrite clamp_64. limits. f_equal. case_match; bool_to_prop; lia.
Qed.

(** The node refuses transactions that cannot be paid. *)
Definition enforces (f : flood_env) : bool :=
  is_in_control (tx_status f) || is_reapplying_one_tx (tx_status f).

(** The account after it was charged [c] of the regenerated mana [m]. *)
Definition charged (c : Z) (m : manabar) (a : account_object) : account_object :=
  set_rc_manabar (Manabar (Z.max 0 (current_mana m - c)) (last_update_time m)) a.

Section payment.
Context (env : rc_env) (Hnow : rc_time env ≤ u32_max) (f : flood_env).
Context (Hsur : 0 ≤ flood_surcharge f).

(** What the payer [a] has after it paid for a transaction of cost [rc]. *)
Record pays (ops : list operation) (rc : Z) (privileged : bool) (a a' : account_object) : Prop := {
  pays_ok : ∃ m surcharge,
    regenerate_mana true (ManabarParams (max_rc a) HIVE_RC_REGEN_TIME) (rc_time env) (rc_manabar a)
      = Ok m ∧
    flood_charge f (name a) ops rc = Ok (surcharge, privileged) ∧
    0 ≤ surcharge ∧ (enforces f = true → rc + surcharge ≤ current_mana m) ∧
    a' = charged (rc + surcharge) m a
}.

Lemma charge_payer_inv ops rc a a' privileged : account_ok a → 0 ≤ rc ≤ i64_max →
  charge_payer env f ops rc a = Ok (a', privileged) → pays ops rc privileged a a' ∧ account_ok a'.
Proof using Hnow Hsur.
  intros Ha Hrc. unfold charge_payer. rewrite (get_maximum_all a (account_parts a Ha)).
  cbn [mbind result_bind]. intros (m & Hm & ([sc pr] & Hf & H)%bind_Ok)%bind_Ok.
  destruct (regenerate_ok env Hnow a m Ha Hm) as (Hc & Hl & H0).
  destruct (flood_charge_bound f _ _ _ _ _ Hrc Hsur Hf) as (Hs0 & Hs & _).
  rewrite signed64_Ok in H by (limits; lia). cbn [mbind result_bind] in H.
  apply bind_Ok in H as ([] & Hh & [= <- <-]).
  destruct Ha as [Hp Hlast _ _]. pose proof Hp as [_ _ _ Hmax].
  rewrite use_mana_floor by lia. fold (charged (rc + sc) m a). split.
  - split. exists m, sc. split_and!; try done. unfold enforces. intros He. rewrite He in Hh.
    unfold fc_assert, has_mana in Hh. case_match; [|done]. bool_to_prop. lia.
  - destruct (rc_parts_ext a (charged (rc + sc) m a)) as [Hp' Hmx]; try done.
    split; [done|by rewrite Hmx|rewrite Hmx; cbn; lia|cbn; lia].
Qed.

Lemma use_account_rcs_inv n ops rc s s' privileged : rc_ok s → 0 ≤ rc ≤ i64_max →
  use_account_rcs env f n ops rc s = Ok (s', privileged) →
  rc_ok s' ∧
  (n = "" ∧ s' = s ∧ privileged = false ∧ is_in_control (tx_status f) = false ∨
   n ≠ "" ∧ ∃ i a a', rc_accounts s !! i = Some a ∧ name a = n ∧ pays ops rc privileged a a' ∧
     s' = set_rc_accounts (<[i := a']> (rc_accounts s)) s).
Proof using Hnow Hsur.
  intros Hok Hrc. unfold use_account_rcs.
  destruct (String.eqb_spec n "") as [->|Hne].
  { destruct (is_in_control (tx_status f)) eqn:Hctl; [done|]. intros [= <- <-]. by split; [|left]. }
  intros (i & (b & Hi & Hn)%from_option_or_Ok%rc_find_account_inv & H)%bind_Ok.
  apply bind_Ok in H as (a & Ha & ([a' pr] & Hch & [= <- <-])%bind_Ok).
  unfold rc_get_account in Ha. apply from_option_or_Ok in Ha. simplify_eq.
  destruct Hok as [B T A].
  destruct (charge_payer_inv _ _ _ _ _ (A i b Hi) Hrc Hch) as [Hpay Hok].
  split; [|right; split; [done|]; by exists i, b, a'].
  destruct Hpay as [(m & sc & _ & _ & _ & _ & ->)]. split.
  - intros j. by apply (books_same j 0 s (B j) i b).
  - intros j Hj. cbn [rc_delegations set_rc_accounts]. apply T.
    cbn [rc_accounts set_rc_accounts] in Hj. apply lookup_insert_is_Some' in Hj as [<-|Hj]; eauto.
  - intros j c Hj. cbn [rc_accounts set_rc_accounts] in Hj.
    apply lookup_insert_Some in Hj as [[_ <-]|[_ Hj]]; [done|]. by apply (A j).
Qed.

End payment.
