(* ===== verification/RcBlock.v ===== *)
(** * Resource pools at the end of a block

    [finalize_block] of libraries/chain/rc/rc_utility.cpp: the pools decay, are refilled and give
    what the block used; the usage in the window of the last day is kept in buckets of an hour;
    the weights that share out the regeneration are recalculated ([rc_pool_object],
    [rc_usage_bucket_object] of rc_objects.hpp).

    At the end of every block each pool is between zero and its size in balance, the usage in the
    window is the sum of the buckets, and the divisor of the weights is positive
    ([block_finalized]). *)

From S2P Require Import Prelude Safe Operations Asset OperationTypes ResourceDynamics ResourceCost.
From S2P Require Import ResourceCount RcCharge.
Open Scope Z_scope.

Definition HIVE_RC_BUCKET_TIME_LENGTH : Z := 60 * 60.
Definition HIVE_RC_WINDOW_BUCKET_COUNT : nat := 24.
Definition resource_new_accounts_index : nat := 1.

Record rc_usage_bucket_object : Set := RcBucket {
  bucket_timestamp : time_point_sec;
  bucket_usage : list Z                  (* int64_t *)
}.

(** ** The weights of the resources *)

(** The weight of the usage of one resource against its budget. *)
Definition resource_weight (usage budget : Z) : result Z :=
  scaled ← signed64 (usage * HIVE_100_PERCENT);
  if budget =? 0 then Throw undefined_behaviour
  else
    let w := u64 (cdiv scaled budget) in
    Ok (if w =? 0 then 1 else w).

(** The loop skips [resource_new_accounts], whose weight is the sum of the others. *)
Fixpoint weigh (i : nat) (usages : list Z) (params : list rc_resource_params) (sum : Z) :
    result (list Z * Z) :=
  match usages, params with
  | u :: usages, p :: params =>
      if decide (i = resource_new_accounts_index) then
        '(ws, sum) ← weigh (S i) usages params sum;
        Ok (0 :: ws, sum)
      else
        w ← resource_weight u (budget_per_time_unit (resource_dynamics_params p));
        '(ws, sum) ← weigh (S i) usages params (u64 (sum + w));
        Ok (w :: ws, sum)
  | _, _ => Ok ([], sum)
  end.

Definition recalculate_resource_weights (params : list rc_resource_params) (pool : rc_pool_object) :
    result rc_pool_object :=
  '(ws, sum) ← weigh 0 (usage_in_window pool) params 0;
  Ok (RcPool (pool_array pool) (usage_in_window pool) (last_known_budget pool)
    (<[resource_new_accounts_index := sum]> ws) sum).

(** ** The end of a block *)

(** The body of the loop: the pool and the usage in the window of one resource.  [old] is its
    usage in the bucket that is to be reset, if there is one. *)
Definition finalize_resource (i : nat) (subsidies : Z) (p : rd_dynamics_params) (old : option Z)
    (pool window usage : Z) : result (Z * Z) :=
  level ← signed64 (pool - usage);
  decay ← rd_compute_pool_decay (decay_params p) level 1;
  window ← match old with Some o => signed64 (window - o) | None => Ok window end;
  window ← signed64 (window + usage);
  kept ← signed64 (pool - decay);
  filled ← signed64 (kept + budget_per_time_unit p);
  new_pool ← signed64 (filled - usage);
  let new_pool := if decide (i = resource_new_accounts_index) then subsidies else new_pool in
  Ok (if new_pool <? 0 then 0 else new_pool, window).

Fixpoint finalize_resources (i : nat) (subsidies : Z) (params : list rc_resource_params)
    (olds : list (option Z)) (pools windows usages : list Z) : result (list (Z * Z)) :=
  match params, olds, pools, windows, usages with
  | p :: params, o :: olds, x :: pools, w :: windows, u :: usages =>
      r ← finalize_resource i subsidies (resource_dynamics_params p) o x w u;
      rs ← finalize_resources (S i) subsidies params olds pools windows usages;
      Ok (r :: rs)
  | _, _, _, _, _ => Ok []
  end.

(** The index of the buckets by timestamp. *)
Fixpoint insert_bucket (b : rc_usage_bucket_object) (l : list rc_usage_bucket_object) :
    list rc_usage_bucket_object :=
  match l with
  | [] => [b]
  | c :: l' => if bucket_timestamp b <? bucket_timestamp c then b :: l else c :: insert_bucket b l'
  end.

Definition empty_usage : list Z := replicate 5 0.

(** The buckets are in the order of their timestamps; the last one is active until its time is
    over, then the first one is reset and takes its place. *)
Definition finalize_block (now : time_point_sec) (subsidies : Z) (params : list rc_resource_params)
    (usage : list Z) (pool : rc_pool_object) (buckets : list rc_usage_bucket_object) :
    result (rc_pool_object * list rc_usage_bucket_object) :=
  newest ← from_option_or undefined_behaviour (last buckets);
  oldest ← from_option_or undefined_behaviour (head buckets);
  let reset_bucket := u32 (bucket_timestamp newest + HIVE_RC_BUCKET_TIME_LENGTH) <=? now in
  let old := if reset_bucket then Some <$> bucket_usage oldest else replicate 5 None in
  rs ← finalize_resources 0 subsidies params old (pool_array pool) (usage_in_window pool) usage;
  pool ← recalculate_resource_weights params
    (RcPool rs.*1 rs.*2 ((λ p, budget_per_time_unit (resource_dynamics_params p)) <$> params)
      (resource_weights pool) (sum_of_resource_weights pool));
  if reset_bucket then
    u ← add_counts empty_usage usage;
    Ok (pool, insert_bucket (RcBucket now u) (tail buckets))
  else
    u ← add_counts (bucket_usage newest) usage;
    Ok (pool, removelast buckets ++ [RcBucket (bucket_timestamp newest) u]).


(** ** Arrays *)

Lemma add_counts_Ok xs ys : length xs = length ys →
  (∀ j x y, xs !! j = Some x → ys !! j = Some y → i64_min ≤ x + y ≤ i64_max) →
  ∃ zs, add_counts xs ys = Ok zs ∧ length zs = length xs ∧
    ∀ j x y, xs !! j = Some x → ys !! j = Some y → zs !! j = Some (x + y).
Proof.
  revert ys. induction xs as [|x xs IH]; intros [|y ys] Hl Hb; try done; cbn [add_counts].
  { by exists []. }
  destruct (IH ys) as (zs & Hz & Hlz & Hj); [by injection Hl|by intros j; apply (Hb (S j))|].
  rewrite signed64_Ok by by apply (Hb 0%nat). cbn [mbind result_bind]. rewrite Hz.
  exists (x + y :: zs). split; [done|]. split; [cbn; by rewrite Hlz|].
  intros [|j] x' y' Hx Hy; cbn in *; [by simplify_eq|by apply Hj].
Qed.

(** ** One resource *)

(** The parameters are in balance, as [rd_setup_dynamics_params] makes them. *)
Definition resource_balanced (p : rc_resource_params) : Prop :=
  ∃ unit md u, balanced_user u ∧ resource_dynamics_params p = balanced_params unit md u.

(** The level [l] after decay and refill. *)
Definition settled (p : rd_dynamics_params) (l : Z) : Z :=
  let d := decay_per_time_unit (decay_params p) in
  l - (if l <? 0 then - (d * - l / 2 ^ 36) else d * l / 2 ^ 36) + budget_per_time_unit p.

Definition new_level (i : nat) (subsidies : Z) (p : rd_dynamics_params) (pool usage : Z) : Z :=
  Z.max 0 (if decide (i = resource_new_accounts_index) then subsidies else settled p (pool - usage)).

(** The most a pool can hold: the size in balance, and for the new accounts whatever the chain
    has subsidised. *)
Definition pool_limit (i : nat) (p : rc_resource_params) : Z :=
  if decide (i = resource_new_accounts_index) then 2 ^ 61 else pool_eq (resource_dynamics_params p).

Lemma pool_limit_bound i p : resource_balanced p → 0 ≤ pool_limit i p ≤ 2 ^ 61.
Proof.
  intros (unit & md & u & [Hb Hd] & Hp). unfold pool_limit. case_decide; [lia|]. rewrite Hp.
  pose proof (balanced_pool_bound _ _ Hb Hd). cbn [balanced_params pool_eq]. lia.
Qed.

(** Decay never outruns the level. *)
Lemma decayed_mono d p q : 0 ≤ d ≤ 2 ^ 36 → p ≤ q → p - d * p / 2 ^ 36 ≤ q - d * q / 2 ^ 36.
Proof.
  intros Hd Hle. pose proof (div_bracket (d * p) (2 ^ 36)). pose proof (div_bracket (d * q) (2 ^ 36)).
  nia.
Qed.

Lemma settled_decay p l : resource_balanced p → - 2 ^ 62 ≤ l ≤ 2 ^ 62 →
  rd_compute_pool_decay (decay_params (resource_dynamics_params p)) l 1
    = Ok (l + budget_per_time_unit (resource_dynamics_params p)
          - settled (resource_dynamics_params p) l) ∧
  1 ≤ budget_per_time_unit (resource_dynamics_params p) ≤ i32_max ∧
  Z.min 0 l ≤ settled (resource_dynamics_params p) l ≤ 2 ^ 62 + i32_max.
Proof.
  intros (unit & md & u & [Hb Hd] & Hp) Hl. rewrite Hp in *. unfold settled.
  cbn [balanced_params decay_params budget_per_time_unit pool_eq decay_per_time_unit] in *.
  change HIVE_RD_MIN_DECAY with 64 in *. set (d := user_decay u) in *.
  destruct (Z.ltb_spec l 0) as [Hneg|Hpos].
  - destruct (decay_exact d ltac:(lia) (- l) ltac:(limits; lia)) as [He Hle].
    unfold rd_compute_pool_decay in *. rewrite (proj2 (Z.ltb_lt l 0)) by lia.
    rewrite (proj2 (Z.ltb_ge (- l) 0)) in He by lia.
    rewrite signed64_Ok by (limits; lia). cbn [mbind result_bind]. rewrite He. cbn [mbind result_bind].
    rewrite signed64_Ok by (limits; lia). split_and!; try f_equal; lia.
  - destruct (decay_exact d ltac:(lia) l ltac:(limits; lia)) as [-> Hle].
    split_and!; try f_equal; lia.
Qed.

(** From below its size in balance a pool does not exceed it. *)
Lemma settled_bound p l : resource_balanced p → - 2 ^ 62 ≤ l ≤ pool_eq (resource_dynamics_params p) →
  settled (resource_dynamics_params p) l ≤ pool_eq (resource_dynamics_params p).
Proof.
  intros (unit & md & u & [Hb Hd] & Hp) Hl. rewrite Hp in *. unfold settled.
  cbn [balanced_params decay_params budget_per_time_unit pool_eq decay_per_time_unit] in *.
  pose proof (balanced_pool_bound _ _ Hb Hd) as Hq. pose proof (decay_at_eq _ _ Hb Hd) as Heq.
  change HIVE_RD_MIN_DECAY with 64 in *. set (eq := balanced_pool _ _) in *.
  set (d := user_decay u) in *. destruct (Z.ltb_spec l 0) as [Hneg|Hpos].
  - destruct (decay_exact d ltac:(lia) (- l) ltac:(limits; lia)) as [_ Hle].
    destruct (decay_exact d ltac:(lia) eq ltac:(limits; lia)) as [_ Hde]. lia.
  - pose proof (decayed_mono d l eq ltac:(limits; lia) ltac:(lia)). lia.
Qed.

(** What is asked of one resource before a block that uses [usage] of it. *)
Record resource_ready (i : nat) (p : rc_resource_params) (old : option Z) (pool window usage : Z) :
    Prop := {
  ready_params : resource_balanced p;
  ready_pool : 0 ≤ pool ≤ pool_limit i p;
  ready_usage : 0 ≤ usage;
  ready_old : 0 ≤ default 0 old ≤ window;
  ready_window : window + usage ≤ 2 ^ 48
}.

Lemma finalize_resource_exact i subsidies p old pool window usage :
  resource_ready i p old pool window usage →
  (i ≠ resource_new_accounts_index ∨ 0 ≤ subsidies ≤ 2 ^ 61) →
  finalize_resource i subsidies (resource_dynamics_params p) old pool window usage
  = Ok (new_level i subsidies (resource_dynamics_params p) pool usage,
        window - default 0 old + usage).
Proof.
  intros [Hp Hpool Hu Ho Hw] Hs. pose proof (pool_limit_bound i p Hp) as Hl.
  destruct (settled_decay p (pool - usage) Hp ltac:(lia)) as (Hd & Hb & Hst).
  unfold finalize_resource. rewrite signed64_Ok by (limits; lia). cbn [mbind result_bind].
  rewrite Hd. cbn [mbind result_bind].
  set (st := settled _ _) in *. set (b := budget_per_time_unit _) in *. limits.
  assert (match old with Some o => signed64 (window - o) | None => Ok window end
          = Ok (window - default 0 old)) as ->.
  { destruct old; cbn in *; [by rewrite signed64_Ok by (limits; lia)|f_equal; lia]. }
  cbn [mbind result_bind]. rewrite (signed64_Ok (window - _ + _)) by (limits; lia).
  cbn [mbind result_bind].
  rewrite (signed64_Ok (pool - _)) by (limits; lia). cbn [mbind result_bind].
  rewrite (signed64_Ok (pool - _ + _)) by (limits; lia). cbn [mbind result_bind].
  rewrite (signed64_Ok (_ - usage)) by (limits; lia). cbn [mbind result_bind].
  unfold new_level. do 2 f_equal. fold st. destruct (decide _); case_match; bool_to_prop; lia.
Qed.

Lemma new_level_bound i subsidies p old pool window usage :
  resource_ready i p old pool window usage → 0 ≤ subsidies ≤ 2 ^ 61 →
  0 ≤ new_level i subsidies (resource_dynamics_params p) pool usage ≤ pool_limit i p.
Proof.
  intros [Hp Hpool Hu Ho Hw] Hs. pose proof (pool_limit_bound i p Hp) as Hl.
  unfold new_level, pool_limit in *. case_decide; [lia|].
  pose proof (settled_bound p (pool - usage) Hp ltac:(lia)). lia.
Qed.

(** ** The loop over the resources *)

Section loops.
Context (subsidies : Z) (Hsub : 0 ≤ subsidies ≤ 2 ^ 61).

Lemma finalize_resources_exact i params olds pools windows usages :
  length olds = length params → length pools = length params →
  length windows = length params → length usages = length params →
  (∀ j p o x w u, params !! j = Some p → olds !! j = Some o → pools !! j = Some x →
     windows !! j = Some w → usages !! j = Some u → resource_ready (i + j) p o x w u) →
  ∃ rs, finalize_resources i subsidies params olds pools windows usages = Ok rs ∧
    length rs = length params ∧
    ∀ j p o x w u, params !! j = Some p → olds !! j = Some o → pools !! j = Some x →
      windows !! j = Some w → usages !! j = Some u →
      rs !! j = Some (new_level (i + j) subsidies (resource_dynamics_params p) x u,
                      w - default 0 o + u).
Proof using Hsub.
  revert i olds pools windows usages.
  induction params as [|p params IH]; intros i [|o olds] [|x pools] [|w windows] [|u usages];
    cbn [length]; intros H1 H2 H3 H4 Hr; try done.
  { by exists []. }
  cbn [finalize_resources].
  rewrite (finalize_resource_exact i subsidies p o x w u); [|rewrite <- (Nat.add_0_r i); by apply Hr|by right].
  cbn [mbind result_bind].
  destruct (IH (S i) olds pools windows usages) as (rs & -> & Hlen & Hrs); try lia.
  { intros j. rewrite Nat.add_succ_comm. apply (Hr (S j)). }
  cbn [mbind result_bind]. eexists. split; [done|]. split; [cbn; by rewrite Hlen|].
  intros [|j] p' o' x' w' u'; cbn; [intros; simplify_eq; by rewrite Nat.add_0_r|].
  rewrite <- Nat.add_succ_comm. apply Hrs.
Qed.

End loops.

(** ** The weights *)

(** The weight of a resource, in hundredths of a percent of its budget, at least one. *)
Definition exact_weight (i : nat) (p : rc_resource_params) (window : Z) : Z :=
  if decide (i = resource_new_accounts_index) then 0
  else Z.max 1 (window * 10000 / budget_per_time_unit (resource_dynamics_params p)).

Lemma balanced_budget p : resource_balanced p →
  1 ≤ budget_per_time_unit (resource_dynamics_params p) ≤ i32_max.
Proof. intros Hp. by destruct (settled_decay p 0 Hp) as (_ & Hb & _). Qed.

Lemma resource_weight_exact i p w : resource_balanced p → 0 ≤ w ≤ 2 ^ 48 →
  i ≠ resource_new_accounts_index →
  resource_weight w (budget_per_time_unit (resource_dynamics_params p)) = Ok (exact_weight i p w) ∧
  1 ≤ exact_weight i p w ≤ 10000 * 2 ^ 48.
Proof.
  intros Hb%balanced_budget Hw Hi. unfold resource_weight, exact_weight, HIVE_100_PERCENT, cdiv.
  rewrite decide_False by done. set (b := budget_per_time_unit _) in *.
  rewrite signed64_Ok by (limits; lia). cbn [mbind result_bind].
  rewrite (proj2 (Z.eqb_neq b 0)) by lia. rewrite Z.quot_div_nonneg by lia.
  assert (0 ≤ w * 10000 / b ≤ 10000 * 2 ^ 48).
  { split; [apply Z.div_pos; lia|]. apply Z.div_le_upper_bound; nia. }
  rewrite u64_id by (limits; lia). split; [|lia]. f_equal. case_match; bool_to_prop; lia.
Qed.

Lemma weigh_exact i windows params sum :
  length windows = length params → Forall resource_balanced params →
  Forall (λ w, 0 ≤ w ≤ 2 ^ 48) windows →
  0 ≤ sum → sum + Z.of_nat (length params) * (10000 * 2 ^ 48) ≤ u64_max →
  ∃ ws, weigh i windows params sum = Ok (ws, sum + sumZ ws) ∧ length ws = length params ∧
    Forall (λ w, 0 ≤ w) ws ∧ sumZ ws ≤ Z.of_nat (length params) * (10000 * 2 ^ 48) ∧
    ∀ j p w, params !! j = Some p → windows !! j = Some w → ws !! j = Some (exact_weight (i + j) p w).
Proof.
  revert i windows sum. induction params as [|p params IH]; intros i [|w windows] sum Hl Hp Hw Hs0 Hs;
    try done; cbn [weigh].
  { exists []. cbn. by rewrite Z.add_0_r. }
  cbn [length] in *. inversion_clear Hp as [|? ? Hp1 Hp2]. inversion_clear Hw as [|? ? Hw1 Hw2].
  assert (∃ x, (if decide (i = resource_new_accounts_index) then Ok 0
     else resource_weight w (budget_per_time_unit (resource_dynamics_params p))) = Ok x ∧
     x = exact_weight i p w ∧ 0 ≤ x ≤ 10000 * 2 ^ 48) as (x & Hx & Ex & Hxb).
  { destruct (decide _) as [->|Hi]; [exists 0; unfold exact_weight; rewrite decide_True by done; split_and!; done || lia|].
    destruct (resource_weight_exact i p w Hp1 Hw1 Hi) as [-> ?]. eexists. split_and!; [done..|lia|lia]. }
  destruct (IH (S i) windows (sum + x)) as (ws & Hws & Hlen & Hnn & Hsum & Hj);
    [by injection Hl|done|done|lia|lia|].
  exists (x :: ws). rewrite sumZ_cons. split; [|split; [cbn; by rewrite Hlen|split; [|split]]].
  - destruct (decide _) as [Hi|Hi].
    + injection Hx as <-. rewrite Z.add_0_r in Hws. rewrite Hws. cbn. do 2 f_equal; lia.
    + rewrite Hx. cbn [mbind result_bind]. rewrite u64_id by (limits; lia). rewrite Hws. cbn.
      do 2 f_equal; lia.
  - constructor; [lia|done].
  - lia.
  - intros [|j] p' w'; cbn; [intros; simplify_eq; by rewrite Nat.add_0_r|].
    rewrite <- Nat.add_succ_comm. apply Hj.
Qed.

(** What [recalculate_resource_weights] leaves. *)
Record weights_ok (params : list rc_resource_params) (pool : rc_pool_object) : Prop := {
  weights_divisor : 0 < sum_of_resource_weights pool ≤ u64_max;
  weights_exact : ∀ i p w, params !! i = Some p → usage_in_window pool !! i = Some w →
    resource_weights pool !! i = Some (if decide (i = resource_new_accounts_index)
      then sum_of_resource_weights pool else exact_weight i p w);
  weights_shares : ∀ i w, resource_weights pool !! i = Some w →
    0 ≤ w ≤ sum_of_resource_weights pool
}.

Lemma sumZ_lookup_le (l : list Z) i x : Forall (λ z, 0 ≤ z) l → l !! i = Some x → x ≤ sumZ l.
Proof.
  intros Hl Hx. rewrite <- (take_drop_middle l i x Hx) in *. rewrite sumZ_app, sumZ_cons.
  apply Forall_app in Hl as [H1 H2]. inversion_clear H2.
  pose proof (sumZ_nonneg _ H1). pose proof (sumZ_nonneg (drop (S i) l)). naive_solver lia.
Qed.

Lemma recalculated params pool :
  length params = 5%nat → length (usage_in_window pool) = 5%nat → Forall resource_balanced params →
  Forall (λ w, 0 ≤ w ≤ 2 ^ 48) (usage_in_window pool) →
  ∃ pool', recalculate_resource_weights params pool = Ok pool' ∧ weights_ok params pool' ∧
    pool_array pool' = pool_array pool ∧ usage_in_window pool' = usage_in_window pool ∧
    last_known_budget pool' = last_known_budget pool.
Proof.
  intros Hl Hlw Hp Hw. unfold recalculate_resource_weights.
  destruct (weigh_exact 0 (usage_in_window pool) params 0) as (ws & -> & Hlen & Hnn & Hsum & Hj);
    [congruence|done..|rewrite Hl; limits; lia|].
  cbn [mbind result_bind]. eexists. split; [done|]. split; [|done].
  destruct (lookup_lt_is_Some_2 params 0) as [p0 Hp0]; [lia|].
  destruct (lookup_lt_is_Some_2 (usage_in_window pool) 0) as [w0 Hw0]; [lia|].
  pose proof (Hj 0%nat p0 w0 Hp0 Hw0) as H0.
  assert (1 ≤ exact_weight (0 + 0) p0 w0) by (unfold exact_weight; rewrite decide_False by done; lia).
  pose proof (sumZ_lookup_le ws 0 _ Hnn H0).
  split; cbn [sum_of_resource_weights resource_weights usage_in_window].
  - rewrite Hl in Hsum. limits. lia.
  - intros i p w Hpi Hwi. destruct (decide (i = resource_new_accounts_index)) as [->|Hi].
    + by rewrite list_lookup_insert_eq by (unfold resource_new_accounts_index; lia).
    + rewrite list_lookup_insert_ne by done. by apply (Hj i).
  - intros i w Hwi. pose proof (sumZ_nonneg ws Hnn).
    apply list_lookup_insert_Some in Hwi as [(_ & <- & _)|[_ Hwi]]; [lia|].
    pose proof (sumZ_lookup_le ws i w Hnn Hwi).
    pose proof (proj1 (Forall_lookup _ _) Hnn i w Hwi). cbn in *. lia.
Qed.

(** ** The buckets *)

(** The usage of resource [i] in all buckets. *)
Definition column (i : nat) (buckets : list rc_usage_bucket_object) : Z :=
  sumZ ((λ b, default 0 (bucket_usage b !! i)) <$> buckets).

Definition bucket_ok (b : rc_usage_bucket_object) : Prop :=
  length (bucket_usage b) = 5%nat ∧ Forall (λ z, 0 ≤ z) (bucket_usage b) ∧ 0 ≤ bucket_timestamp b.

Definition older (b c : rc_usage_bucket_object) : Prop := bucket_timestamp b < bucket_timestamp c.

Lemma column_cons i b l : column i (b :: l) = default 0 (bucket_usage b !! i) + column i l.
Proof. unfold column. by rewrite fmap_cons, sumZ_cons. Qed.

Lemma column_snoc i l b : column i (l ++ [b]) = column i l + default 0 (bucket_usage b !! i).
Proof. unfold column. rewrite fmap_app, sumZ_app. cbn. lia. Qed.

Lemma bucket_usage_nonneg b i : bucket_ok b → 0 ≤ default 0 (bucket_usage b !! i).
Proof.
  intros (_ & Hb & _). destruct (bucket_usage b !! i) as [x|] eqn:Hx; [|done].
  by apply (proj1 (Forall_lookup _ _) Hb i x).
Qed.

Lemma column_nonneg i l : Forall bucket_ok l → 0 ≤ column i l.
Proof.
  induction 1 as [|b l Hb _ IH]; [done|]. rewrite column_cons.
  pose proof (bucket_usage_nonneg b i Hb). lia.
Qed.

(** The bucket that is reset is the newest. *)
Lemma insert_newest b l : Forall (λ c, older c b) l → insert_bucket b l = l ++ [b].
Proof.
  unfold older. induction 1 as [|c l Hc _ IH]; [done|]. cbn [insert_bucket].
  rewrite (proj2 (Z.ltb_ge _ _)) by lia. by rewrite IH.
Qed.

Lemma sorted_snoc l b : StronglySorted older l → Forall (λ c, older c b) l →
  StronglySorted older (l ++ [b]).
Proof.
  induction 1 as [|c l _ IH Hc]; intros Hb; [repeat constructor|]. inversion_clear Hb.
  cbn. constructor; [by apply IH|]. apply Forall_app. by repeat constructor.
Qed.

Lemma Forall_snoc_inv {A} (P : A → Prop) l x : Forall P (l ++ [x]) → Forall P l ∧ P x.
Proof. intros [Hl Hx]%Forall_app. by inversion_clear Hx. Qed.

Lemma sorted_snoc_inv l b : StronglySorted older (l ++ [b]) →
  StronglySorted older l ∧ Forall (λ c, older c b) l.
Proof.
  induction l as [|c l IH]; cbn; intros Hs; [by repeat constructor|].
  inversion_clear Hs as [|? ? Hs' Hc]. destruct (IH Hs') as [H1 H2].
  apply Forall_app in Hc as [Hc1 Hc2]. inversion_clear Hc2.
  split; [by constructor|]. by constructor.
Qed.

(** ** The state at the end of a block *)

Record chain_ok (params : list rc_resource_params) (now : Z) (pool : rc_pool_object)
    (buckets : list rc_usage_bucket_object) : Prop := {
  chain_params : length params = 5%nat ∧ Forall resource_balanced params;
  chain_pools : length (pool_array pool) = 5%nat ∧
    ∀ i p x, params !! i = Some p → pool_array pool !! i = Some x → 0 ≤ x ≤ pool_limit i p;
  chain_window : length (usage_in_window pool) = 5%nat ∧
    ∀ i w, usage_in_window pool !! i = Some w → w = column i buckets;
  chain_buckets : length buckets = HIVE_RC_WINDOW_BUCKET_COUNT ∧ Forall bucket_ok buckets;
  chain_times : StronglySorted older buckets ∧ Forall (λ b, bucket_timestamp b ≤ now) buckets
}.

(** What a block used, within what the window can count. *)
Record usage_ok (usage : list Z) (pool : rc_pool_object) : Prop := {
  usage_length : length usage = 5%nat;
  usage_range : ∀ i u w, usage !! i = Some u → usage_in_window pool !! i = Some w →
    0 ≤ u ∧ w + u ≤ 2 ^ 48
}.

Section block.
Context (params : list rc_resource_params) (pool : rc_pool_object).
Context (buckets : list rc_usage_bucket_object) (before subsidies : Z) (usage : list Z).
Context (Hok : chain_ok params before pool buckets) (Hsub : 0 ≤ subsidies ≤ 2 ^ 61).
Context (Hu : usage_ok usage pool).

(** The new levels, and the window when the usage of [olds] is dropped from the buckets and
    [kept] remains. *)
Record pool_after (kept : list rc_usage_bucket_object) (pool' : rc_pool_object) : Prop := {
  after_weights : weights_ok params pool';
  after_pools : length (pool_array pool') = 5%nat ∧
    ∀ i p x u, params !! i = Some p → pool_array pool !! i = Some x → usage !! i = Some u →
      pool_array pool' !! i = Some (new_level i subsidies (resource_dynamics_params p) x u) ∧
      0 ≤ new_level i subsidies (resource_dynamics_params p) x u ≤ pool_limit i p;
  after_window : length (usage_in_window pool') = 5%nat ∧
    ∀ i u, usage !! i = Some u → usage_in_window pool' !! i = Some (column i kept + u)
}.

Lemma row_lookup {A} (l : list A) i (u : Z) : length l = 5%nat → usage !! i = Some u →
  is_Some (l !! i).
Proof using Hu.
  intros Hl Hi%lookup_lt_Some. apply lookup_lt_is_Some_2. by rewrite Hl, <- (usage_length _ _ Hu).
Qed.

Lemma pool_part olds kept budgets rw sw :
  length olds = 5%nat → Forall bucket_ok kept →
  (∀ i o, olds !! i = Some o → column i buckets = default 0 o + column i kept ∧ 0 ≤ default 0 o) →
  ∃ rs pool', finalize_resources 0 subsidies params olds (pool_array pool) (usage_in_window pool) usage
      = Ok rs ∧
    recalculate_resource_weights params (RcPool rs.*1 rs.*2 budgets rw sw) = Ok pool' ∧
    pool_after kept pool'.
Proof using Hok Hsub Hu.
  destruct Hok as [[Hl Hp] [Hlp Hpool] [Hlw Hwin] _ _]. destruct Hu as [Hlu Hur].
  intros Hlo Hkept Hold.
  assert (∀ j p o x w u, params !! j = Some p → olds !! j = Some o → pool_array pool !! j = Some x →
    usage_in_window pool !! j = Some w → usage !! j = Some u → resource_ready (0 + j) p o x w u) as Hready.
  { intros j p o x w u H1 H2 H3 H4 H5. destruct (Hur j u w H5 H4). destruct (Hold j o H2).
    pose proof (Hwin j w H4). pose proof (column_nonneg j kept Hkept).
    split; try lia; [by apply (proj1 (Forall_lookup _ _) Hp j)|by apply Hpool]. }
  destruct (finalize_resources_exact subsidies Hsub 0 params olds (pool_array pool)
    (usage_in_window pool) usage) as (rs & Hrs & Hlen & Hj); [congruence..|done|].
  assert (∀ i u, usage !! i = Some u → ∃ p x, params !! i = Some p ∧ pool_array pool !! i = Some x ∧
    rs !! i = Some (new_level i subsidies (resource_dynamics_params p) x u, column i kept + u) ∧
    0 ≤ new_level i subsidies (resource_dynamics_params p) x u ≤ pool_limit i p ∧
    0 ≤ column i kept + u ≤ 2 ^ 48) as Hrow.
  { intros i u Hi. destruct (row_lookup params i u Hl Hi) as [p H1].
    destruct (row_lookup olds i u Hlo Hi) as [o H2].
    destruct (row_lookup _ i u Hlp Hi) as [x H3]. destruct (row_lookup _ i u Hlw Hi) as [w H4].
    exists p, x. split; [done|]. split; [done|]. destruct (Hur i u w Hi H4). destruct (Hold i o H2).
    pose proof (Hwin i w H4). pose proof (column_nonneg i kept Hkept). split; [|split; [|lia]].
    - rewrite (Hj i p o x w u H1 H2 H3 H4 Hi). do 2 f_equal. lia.
    - by apply (new_level_bound i subsidies p o x w u (Hready i p o x w u H1 H2 H3 H4 Hi)). }
  destruct (recalculated params (RcPool rs.*1 rs.*2 budgets rw sw)) as (pool' & Hre & Hwt & E1 & E2 & _);
    [done|cbn; rewrite length_fmap; congruence|done| |].
  { cbn. apply Forall_lookup. intros i w (r & -> & Hr)%list_lookup_fmap_Some.
    destruct (lookup_lt_is_Some_2 usage i) as [u Hi]; [apply lookup_lt_Some in Hr; lia|].
    destruct (Hrow i u Hi) as (p & x & _ & _ & Hr' & _ & Hb). by simplify_eq. }
  exists rs, pool'. split; [done|]. split; [done|]. cbn in E1, E2. split; [done|..].
  - rewrite E1, length_fmap. split; [congruence|]. intros i p x u H1 H2 Hi.
    destruct (Hrow i u Hi) as (p' & x' & H1' & H2' & Hr & Hb & _). simplify_eq.
    by rewrite list_lookup_fmap, Hr.
  - rewrite E2, length_fmap. split; [congruence|]. intros i u Hi.
    destruct (Hrow i u Hi) as (p' & x' & _ & _ & Hr & _). by rewrite list_lookup_fmap, Hr.
Qed.

(** The state with the active bucket [b] at the end of those that are kept. *)
Lemma chain_after now kept init pool' b :
  pool_after kept pool' → length init = 23%nat → Forall bucket_ok init → bucket_ok b →
  (∀ i u, usage !! i = Some u → column i (init ++ [b]) = column i kept + u) →
  StronglySorted older init → Forall (λ c, older c b) init → bucket_timestamp b ≤ now →
  chain_ok params now pool' (init ++ [b]).
Proof using Hok Hu.
  intros [_ [Hlp' Hp'] [Hlw' Hw']] Hli Hi Hb Hcol Hs Ho Hn.
  pose proof Hok as [[Hl Hp] [Hlp _] _ _ _]. split.
  - done.
  - split; [done|]. intros i p x Hpi Hx.
    destruct (lookup_lt_is_Some_2 usage i) as [u Hui].
    { rewrite (usage_length _ _ Hu). apply lookup_lt_Some in Hpi. lia. }
    destruct (row_lookup (pool_array pool) i u Hlp Hui) as [x0 Hx0].
    destruct (Hp' i p x0 u Hpi Hx0 Hui) as [E ?]. by simplify_eq.
  - split; [done|]. intros i w Hw.
    destruct (lookup_lt_is_Some_2 usage i) as [u Hui].
    { rewrite (usage_length _ _ Hu). apply lookup_lt_Some in Hw. lia. }
    rewrite (Hcol i u Hui). rewrite (Hw' i u Hui) in Hw. by simplify_eq.
  - rewrite length_app, Hli. split; [done|]. apply Forall_app. split; [done|]. by apply Forall_singleton.
  - split; [by apply sorted_snoc|]. apply Forall_app. split; [|by apply Forall_singleton].
    eapply Forall_impl; [done|]. unfold older. cbn. lia.
Qed.

Lemma usage_nonneg : Forall (λ z, 0 ≤ z) usage.
Proof using Hok Hu.
  apply Forall_lookup. intros i u Hi. destruct Hok as [_ _ [Hlw _] _ _].
  destruct (row_lookup _ i u Hlw Hi) as [w Hw]. by apply (usage_range _ _ Hu i u w).
Qed.

(** The usage of the block joins the array [xs] of a bucket. *)
Lemma bucket_filled xs : length xs = 5%nat → Forall (λ z, 0 ≤ z) xs →
  (∀ i x, xs !! i = Some x → x ≤ column i buckets) →
  ∃ zs, add_counts xs usage = Ok zs ∧ length zs = 5%nat ∧ Forall (λ z, 0 ≤ z) zs ∧
    ∀ i u, usage !! i = Some u → default 0 (zs !! i) = default 0 (xs !! i) + u.
Proof using Hok Hu.
  intros Hl Hx Hc. pose proof usage_nonneg as Hn. pose proof Hu as [Hlu Hur].
  pose proof Hok as [_ _ [Hlw Hwin] _ _].
  destruct (add_counts_Ok xs usage) as (zs & Hz & Hlz & Hj); [congruence| |].
  { intros j x y Hxj Hyj. pose proof (proj1 (Forall_lookup _ _) Hx j x Hxj) as H1. cbn in H1.
    destruct (row_lookup _ j y Hlw Hyj) as [w Hw]. pose proof (Hur j y w Hyj Hw) as H2.
    pose proof (Hc j x Hxj) as H3. rewrite <- (Hwin j w Hw) in H3. limits. lia. }
  exists zs. split; [done|]. split; [congruence|]. split.
  - apply Forall_lookup. intros j z Hzj.
    destruct (lookup_lt_is_Some_2 xs j) as [x Hxj]; [apply lookup_lt_Some in Hzj; lia|].
    destruct (lookup_lt_is_Some_2 usage j) as [y Hyj]; [apply lookup_lt_Some in Hxj; lia|].
    rewrite (Hj j x y Hxj Hyj) in Hzj. injection Hzj as <-.
    pose proof (proj1 (Forall_lookup _ _) Hx j x Hxj). pose proof (proj1 (Forall_lookup _ _) Hn j y Hyj).
    cbn in *. lia.
  - intros i u Hi. destruct (row_lookup xs i u Hl Hi) as [x Hxi].
    by rewrite (Hj i x u Hxi Hi), Hxi.
Qed.

End block.

(** The bucket of the current hour: the newest as it was, or the oldest, reset. *)
Lemma reset_branch params before now subsidies usage pool oldest rest budgets rw sw :
  chain_ok params before pool (oldest :: rest) → 0 ≤ subsidies ≤ 2 ^ 61 → usage_ok usage pool →
  0 ≤ now → Forall (λ b, bucket_timestamp b < now) (oldest :: rest) →
  ∃ rs pool' u, finalize_resources 0 subsidies params (Some <$> bucket_usage oldest)
      (pool_array pool) (usage_in_window pool) usage = Ok rs ∧
    recalculate_resource_weights params (RcPool rs.*1 rs.*2 budgets rw sw) = Ok pool' ∧
    add_counts empty_usage usage = Ok u ∧
    insert_bucket (RcBucket now u) rest = rest ++ [RcBucket now u] ∧
    pool_after params pool subsidies usage rest pool' ∧
    chain_ok params now pool' (rest ++ [RcBucket now u]).
Proof.
  intros Hok Hs Hu Hn Hlt. pose proof Hok as [_ _ _ [Hlb Hb] [Hsort _]].
  inversion_clear Hb as [|? ? Ho Hr]. inversion_clear Hsort as [|? ? Hsr _].
  inversion_clear Hlt as [|? ? _ Hlr]. pose proof Ho as (Hlo & Hoo & _).
  destruct (pool_part params pool (oldest :: rest) before subsidies usage Hok Hs Hu
    (Some <$> bucket_usage oldest) rest budgets rw sw) as (rs & pool' & Hrs & Hre & Hafter);
    [by rewrite length_fmap|done| |].
  { intros i o (x & -> & Hx)%list_lookup_fmap_Some. rewrite column_cons, Hx. split; [done|].
    by apply (proj1 (Forall_lookup _ _) Hoo i x). }
  destruct (bucket_filled params pool (oldest :: rest) before usage Hok Hu empty_usage)
    as (u & Hadd & Hlu & Hnu & Hcu); [done|by repeat constructor| |].
  { intros i x [-> _]%lookup_replicate. apply column_nonneg. by constructor. }
  exists rs, pool', u. split_and!; try done; [by apply insert_newest|].
  apply (chain_after params pool (oldest :: rest) before subsidies usage Hok Hu now rest); try done.
  - cbn in Hlb. by injection Hlb.
  - intros i v Hi. rewrite column_snoc. cbn [bucket_usage]. rewrite (Hcu i v Hi). f_equal.
    unfold empty_usage. destruct (replicate 5 0 !! i) eqn:E; [|done].
    by apply lookup_replicate in E as [-> _].
Qed.

Lemma same_branch params before now subsidies usage pool init newest budgets rw sw :
  chain_ok params before pool (init ++ [newest]) → 0 ≤ subsidies ≤ 2 ^ 61 → usage_ok usage pool →
  before ≤ now →
  ∃ rs pool' u, finalize_resources 0 subsidies params (replicate 5 None)
      (pool_array pool) (usage_in_window pool) usage = Ok rs ∧
    recalculate_resource_weights params (RcPool rs.*1 rs.*2 budgets rw sw) = Ok pool' ∧
    add_counts (bucket_usage newest) usage = Ok u ∧
    pool_after params pool subsidies usage (init ++ [newest]) pool' ∧
    chain_ok params now pool' (init ++ [RcBucket (bucket_timestamp newest) u]).
Proof.
  intros Hok Hs Hu Hn. pose proof Hok as [_ _ _ [Hlb Hb] [Hsort Htime]].
  pose proof (Forall_snoc_inv _ _ _ Hb) as [Hbi Hbn].
  apply sorted_snoc_inv in Hsort as [Hsi Hoi]. apply Forall_snoc_inv in Htime as [_ Ht].
  pose proof Hbn as (Hln & Hnn & Hn0).
  destruct (pool_part params pool _ before subsidies usage Hok Hs Hu
    (replicate 5 None) (init ++ [newest]) budgets rw sw) as (rs & pool' & Hrs & Hre & Hafter);
    [done|done| |].
  { intros i o [-> _]%lookup_replicate. cbn. lia. }
  destruct (bucket_filled params pool _ before usage Hok Hu (bucket_usage newest))
    as (u & Hadd & Hlu & Hnu & Hcu); [done..| |].
  { intros i x Hx. rewrite column_snoc, Hx. pose proof (column_nonneg i init Hbi). cbn. lia. }
  exists rs, pool', u. split_and!; try done.
  apply (chain_after params pool _ before subsidies usage Hok Hu now (init ++ [newest])); try done.
  - rewrite length_app in Hlb. cbn in Hlb. unfold HIVE_RC_WINDOW_BUCKET_COUNT in Hlb. lia.
  - intros i v Hi. rewrite !column_snoc. cbn [bucket_usage]. rewrite (Hcu i v Hi). lia.
  - cbn [bucket_timestamp]. lia.
Qed.

(** C27. The end of a block never fails on a well-formed state and leaves a well-formed one: every
    pool gives what was used, decays and is refilled, and lies between zero and its size in
    balance (the pool of new accounts is what the chain subsidises); the usage in the window is
    exactly the sum of the twenty-four buckets, whose times are distinct and in order, and the
    newest bucket is of the last hour; the weights are the usage against the budgets, and their
    divisor is positive and at least each of them, so that no price divides by zero. *)
Theorem block_finalized params before now subsidies usage pool buckets :
  chain_ok params before pool buckets → before ≤ now → now + HIVE_RC_BUCKET_TIME_LENGTH ≤ u32_max →
  0 ≤ subsidies ≤ 2 ^ 61 → usage_ok usage pool →
  ∃ pool' buckets', finalize_block now subsidies params usage pool buckets = Ok (pool', buckets') ∧
    chain_ok params now pool' buckets' ∧ weights_ok params pool' ∧
    (∀ i p x u, params !! i = Some p → pool_array pool !! i = Some x → usage !! i = Some u →
       pool_array pool' !! i = Some (new_level i subsidies (resource_dynamics_params p) x u)) ∧
    ∃ b, last buckets' = Some b ∧ now < bucket_timestamp b + HIVE_RC_BUCKET_TIME_LENGTH.
Proof.
  intros Hok Hle Hmax Hs Hu. pose proof Hok as [_ _ _ [Hlb Hb] [Hsort Htime]].
  assert (∃ init newest, buckets = init ++ [newest]) as (init & newest & E).
  { destruct buckets as [|b l]; [done|]. destruct (exists_last (l := b :: l)) as (i & x & ->); eauto. }
  assert (∃ oldest rest, buckets = oldest :: rest) as (oldest & rest & E').
  { destruct buckets; [done|]. eauto. }
  assert (bucket_ok newest ∧ bucket_timestamp newest ≤ before) as [(_ & _ & Hn0) Hnb].
  { rewrite E in Hb, Htime. apply Forall_snoc_inv in Hb as [_ Hb].
    by apply Forall_snoc_inv in Htime as [_ Ht]. }
  assert (last buckets = Some newest) as Hlast by (rewrite E; apply last_snoc).
  assert (head buckets = Some oldest) as Hhead by by rewrite E'.
  unfold finalize_block. rewrite Hlast, Hhead. cbn [from_option_or].
  cbn [mbind result_bind]. unfold HIVE_RC_BUCKET_TIME_LENGTH in *.
  rewrite u32_id by lia. destruct (Z.leb_spec (bucket_timestamp newest + 60 * 60) now) as [Hr|Hr].
  - destruct (reset_branch params before now subsidies usage pool oldest rest
      ((λ p, budget_per_time_unit (resource_dynamics_params p)) <$> params)
      (resource_weights pool) (sum_of_resource_weights pool))
      as (rs & pool' & u & -> & Hre & Hadd & Hins & [Hw [_ Hp] _] & Hok'); try done; [by rewrite <- E'|lia| |].
    { rewrite <- E'. rewrite E in Hsort |- *. apply sorted_snoc_inv in Hsort as [_ Ho].
      apply Forall_app. split; [|apply Forall_singleton; lia].
      eapply Forall_impl; [done|]. unfold older. cbn. lia. }
    cbn [mbind result_bind]. rewrite Hre. cbn [mbind result_bind]. rewrite Hadd. cbn [mbind result_bind].
    eexists _, _. split; [done|]. rewrite E'. cbn [tail]. rewrite Hins. split_and!; try done.
    + intros i p x v H1 H2 H3. by apply (Hp i p x v).
    + eexists. rewrite last_snoc. split; [done|]. cbn. lia.
  - destruct (same_branch params before now subsidies usage pool init newest
      ((λ p, budget_per_time_unit (resource_dynamics_params p)) <$> params)
      (resource_weights pool) (sum_of_resource_weights pool))
      as (rs & pool' & u & -> & Hre & Hadd & [Hw [_ Hp] _] & Hok'); try done; [by rewrite <- E|].
    cbn [mbind result_bind]. rewrite Hre. cbn [mbind result_bind]. rewrite Hadd. cbn [mbind result_bind].
    eexists _, _. split; [done|]. rewrite E, removelast_last. split_and!; try done.
    + intros i p x v H1 H2 H3. by apply (Hp i p x v).
    + eexists. rewrite last_snoc. split; [done|]. cbn. lia.
Qed.

(** *** A block after a quiet day *)

Definition quiet_params : list rc_resource_params :=
  replicate 5 (RcResourceParams (balanced_params 1 0 (RdUserParams 43403 75346404))
    (RcPriceCurveParams 12980003680912852012 257436 49)).
Definition quiet_pool : rc_pool_object :=
  RcPool (replicate 5 39000000) empty_usage empty_usage empty_usage 1.
Definition quiet_buckets : list rc_usage_bucket_object :=
  (λ k, RcBucket (k * 3600) empty_usage) <$> seqZ 1 24.

Lemma quiet_ok : chain_ok quiet_params (24 * 3600 + 1800) quiet_pool quiet_buckets.
Proof.
  assert (∀ b, b ∈ quiet_buckets → ∃ k, 1 ≤ k ≤ 24 ∧ b = RcBucket (k * 3600) empty_usage) as Hb.
  { intros b (k & -> & Hk%elem_of_seqZ)%list_elem_of_fmap. exists k. split; [lia|done]. }
  split.
  - split; [done|]. apply Forall_replicate. exists 1, 0, (RdUserParams 43403 75346404).
    split; [|done]. vm_compute. repeat split; discriminate.
  - split; [done|]. intros i p x [-> _]%lookup_replicate [-> _]%lookup_replicate.
    unfold pool_limit. case_decide; vm_compute; split; discriminate.
  - split; [done|]. intros i w [-> Hi]%lookup_replicate.
    symmetry. apply sumZ_zero. intros b (k & _ & ->)%Hb. cbn [bucket_usage]. unfold empty_usage.
    by rewrite lookup_replicate_2.
  - split; [done|]. apply Forall_forall. intros b (k & Hk & ->)%Hb.
    split; [done|]. split; [by apply Forall_replicate|cbn; lia].
  - split; [repeat constructor|]. apply Forall_forall. intros b (k & Hk & ->)%Hb. cbn. lia.
Qed.

Lemma block_finalized_witness :
  ∃ pool' buckets', finalize_block (25 * 3600) 1000 quiet_params [300; 0; 0; 2000; 5000] quiet_pool
      quiet_buckets = Ok (pool', buckets') ∧
    chain_ok quiet_params (25 * 3600) pool' buckets' ∧ 0 < sum_of_resource_weights pool'.
Proof.
  destruct (block_finalized quiet_params (24 * 3600 + 1800) (25 * 3600) 1000 [300; 0; 0; 2000; 5000]
    quiet_pool quiet_buckets) as (pool' & buckets' & H1 & H2 & H3 & _).
  - exact quiet_ok.
  - lia.
  - vm_compute. discriminate.
  - lia.
  - split; [reflexivity|]. intros i u w Hu Hw. apply lookup_replicate in Hw as [-> _].
    do 5 (destruct i as [|i]; [injection Hu as <-; lia|]). discriminate.
  - exists pool', buckets'. split; [exact H1|]. split; [exact H2|]. apply H3.
Defined.
