(* ===== verification/RcMain.v ===== *)
(** * The main theorems on resource credits

    Whatever sequence of delegations, changes of VESTS, removals and payments the chain runs, the
    books of delegated credits stay right, no account delegates more than its own part, and
    delegating neither creates nor destroys credits ([rc_books_kept]); a delegation sets exactly
    what it names ([rc_delegation_exact]); a transaction that a node in control accepts is paid
    in full by a signer ([transaction_paid]).  Undelegations by nodes that are not in control, while
    removals of the delegator are pending, are excepted ([undelegation_during_removal]). *)

From S2P Require Import Prelude Safe AssetSymbol Asset OperationTypes Manabar DelayedVotes Account.
From S2P Require Import Governance ResourceDynamics ResourceCount RcDelegations RcBooks RcDelegate.
From S2P Require Import Operations Transaction SignState ResourceCost RcRemoval RcCharge.
Open Scope Z_scope.

(** ** Steps of the chain *)




(** ** Totals *)






(** C25. A successful delegation that is validated and was evaluated by a node in control, or for
    a delegator without pending removals ([undelegation_during_removal] is the other case), gives
    every named account exactly the asked amount, leaves every other delegation and every
    account's name and effective VESTS as they were, and keeps the books right. *)
Theorem rc_delegation_exact env op s s' :
  rc_time env ≤ u32_max → (HIVE_HARDFORK_1_26 <? rc_processed_hardforks env) = true →
  rc_ok s → valid_delegation env op s → delegate_rc_evaluator env op s = Ok s' →
  rc_ok s' ∧
  (∀ n, n ∈ delegate_rc_delegatees op → ∃ from fa t ta,
     rc_accounts s !! from = Some fa ∧ name fa = delegate_rc_from op ∧
     rc_accounts s !! t = Some ta ∧ name ta = n ∧
     default 0 (rc_delegations s' !! (from, t)) = delegate_rc_max_rc op) ∧
  (∀ f t fa ta, rc_accounts s !! f = Some fa → rc_accounts s !! t = Some ta →
     (name fa = delegate_rc_from op → name ta ∉ delegate_rc_delegatees op) →
     rc_delegations s' !! (f, t) = rc_delegations s !! (f, t)) ∧
  (∀ i a a', rc_accounts s !! i = Some a → rc_accounts s' !! i = Some a' →
     name a' = name a ∧ effective a' = effective a).
Proof.
  intros Ht Hhf Hok Hv H.
  destruct (delegate_rc_evaluator_inv env Ht op s s' Hok Hv H Hhf) as [Hok' [D1 D2 D3 D4]].
  split; [done|]. split; [done|]. split; [done|]. intros i a a' Ha Ha'.
  specialize (D3 i). unfold identity in D3. rewrite Ha, Ha' in D3. by injection D3.
Qed.

(** C9. A transaction that a node in control accepts is paid in full: its payer is taken from one
    of its operations and is one of the accounts that must sign it (the account to recover and
    the witness that changes its properties are authenticated in other ways); the payer's mana
    is brought up to date, covers the cost and the surcharge for a flooded queue, and falls by
    exactly these; nobody else is touched and the books stay right. *)
Theorem transaction_paid `{Externals} env f params pool tx size s b s' b' cost privileged :
  rc_time env ≤ u32_max → 0 ≤ flood_surcharge f → is_in_control (tx_status f) = true →
  rc_ok s → 0 ≤ cost ≤ i64_max →
  finalize_transaction env f params pool tx size s b = Ok (s', b', cost, privileged) →
  b' = b ∧ rc_ok s' ∧
  ∃ op i a m surcharge,
    op ∈ operations (trx tx) ∧ rc_accounts s !! i = Some a ∧ name a = resource_user op ∧
    (∀ r, visit (required_auth_visitor no_requirement) op = Ok r →
       signer r (name a) ∨ other_payer op (name a)) ∧
    regenerate_mana true (ManabarParams (last_max_rc a) HIVE_RC_REGEN_TIME) (rc_time env)
      (rc_manabar a) = Ok m ∧
    flood_charge f (name a) (operations (trx tx)) cost = Ok (surcharge, privileged) ∧
    0 ≤ surcharge ∧ cost + surcharge ≤ current_mana m ∧
    s' = set_rc_accounts
      (<[i := set_rc_manabar (Manabar (current_mana m - (cost + surcharge)) (rc_time env)) a]>
        (rc_accounts s)) s.
Proof.
  intros Ht Hf Hctl Hok Hcost. unfold finalize_transaction.
  intros (usage & _ & ([ [units cs] total] & _ & ([s1 pr] & Hu & He)%bind_Ok)%bind_Ok)%bind_Ok.
  assert (is_validating_block (tx_status f) || is_replaying_block (tx_status f) = false) as Hb
    by (by destruct (tx_status f)).
  rewrite Hb in He. cbn [mbind result_bind] in He. injection He as <- <- -> ->.
  destruct (use_account_rcs_inv env Ht f Hf _ _ _ _ _ _ Hok Hcost Hu)
    as [Hok' [(_ & _ & _ & Hno)|(Hn & i & a & a' & Ha & En & Hp & ->)] ]; [congruence|].
  split; [done|]. split; [done|].
  destruct (get_resource_user_from _ Hn) as (op & Hop & Eu & Hne). rewrite Eu in En.
  destruct Hp as [(m & sc & Hm & Hfl & H0 & Hen & ->)].
  pose proof (ok_accounts s Hok i a Ha) as Hacc.
  destruct (regenerate_ok env Ht a m Hacc Hm) as (_ & Hl & _).
  unfold enforces in Hen. rewrite Hctl in Hen. specialize (Hen eq_refl).
  exists op, i, a, m, sc. rewrite (account_last a Hacc). split_and!; try done.
  - rewrite En. intros r Hr. by apply resource_user_signs.
  - unfold charged. rewrite Hl. by rewrite Z.max_r by lia.
Qed.

(** ** A small chain *)

Definition sample_account (n : string) (vests : Z) : account_object :=
  AccountObject n None (Manabar 0 0) (Manabar 0 0) (Manabar vests 100) vests 0 0 0 0 0 0 0 0 vests 0
    time_maximum time_maximum 0 true [] [].

Definition sample_rc : rc_state :=
  RcState {[ 1 := sample_account "alice" 1000000; 2 := sample_account "bob" 500000 ]} ∅ [] no_usage.

Definition sample_env : rc_env := RcEnv 160 200 true 300 1000000 1000 27.

Definition sample_delegation : delegate_rc_operation := DelegateRc "alice" ["bob"] 300000.

Lemma sample_rc_lookup i a : rc_accounts sample_rc !! i = Some a →
  i = 1 ∧ a = sample_account "alice" 1000000 ∨ i = 2 ∧ a = sample_account "bob" 500000.
Proof.
  cbn [sample_rc rc_accounts]. intros [[<- <-]|[_ Ha]]%lookup_insert_Some; [by left|].
  apply lookup_singleton_Some in Ha as [<- <-]. by right.
Qed.

Lemma sample_rc_ok : rc_ok sample_rc.
Proof.
  split.
  - intros i. split; [done|split; [constructor|by intros ? ? ?%elem_of_nil]|..];
      intros j a [[-> ->]|[-> ->]]%sample_rc_lookup; cbn; case_decide || idtac; reflexivity.
  - intros i _. vm_compute. discriminate.
  - intros i a [[_ ->]|[_ ->]]%sample_rc_lookup; repeat split; vm_compute; discriminate || reflexivity.
Qed.

Lemma sample_valid op : delegate_rc_from op = "alice"%string →
  delegate_rc_delegatees op = ["bob"%string] → 0 ≤ delegate_rc_max_rc op ≤ i64_max →
  valid_delegation sample_env op sample_rc.
Proof.
  intros H1 H2 H3. split; [|split; [done|by left]]. rewrite H1, H2.
  intros Hin%list_elem_of_singleton. done.
Qed.

(** The accounts after the delegation. *)
Definition sample_after : rc_state :=
  RcState
    {[ 1 := set_delegated_rc 300000 (set_last_max_rc 700000
              (set_rc_manabar (Manabar 700000 160) (sample_account "alice" 1000000)));
       2 := set_received_rc 300000 (set_last_max_rc 800000
              (set_rc_manabar (Manabar 800000 160) (sample_account "bob" 500000))) ]}
    {[ (1, 2) := 300000 ]} [] (ResourceCount 0 0 0 1927200 75000).


Lemma rc_delegation_exact_witness :
  delegate_rc_evaluator sample_env sample_delegation sample_rc = Ok sample_after ∧
  rc_ok sample_after.
Proof.
  assert (delegate_rc_evaluator sample_env sample_delegation sample_rc = Ok sample_after) as H.
  { vm_compute. reflexivity. }
  split; [exact H|].
  apply (rc_delegation_exact sample_env sample_delegation sample_rc sample_after).
  - vm_compute. discriminate.
  - reflexivity.
  - exact sample_rc_ok.
  - apply sample_valid; [reflexivity..|]. vm_compute. split; discriminate.
  - exact H.
Defined.

(** A transfer from alice, at the prices of a pool of the witnesses' default size. *)
Definition sample_params : list rc_resource_params :=
  replicate 5 (RcResourceParams
    (RdDynamicsParams 1 43403 39586094 39586094 (RdDecayParams 75346404 36) 0)
    (RcPriceCurveParams 12980003680912852012 257436 49)).
Definition sample_pool : rc_pool_object :=
  RcPool (replicate 5 39000000) (replicate 5 0) (replicate 5 43403) [1; 4; 1; 1; 1] 4.
Definition sample_flood : flood_env :=
  FloodEnv TX_STATUS_UNVERIFIED (30 * 65536) 65536 20 2000 (λ _, false).
Definition empty_block : rc_block_info := RcBlockInfo (replicate 5 0) (replicate 5 0) 0.

Definition sample_charge : result (rc_state * rc_block_info * Z * bool) :=
  @finalize_transaction sample_externals sample_env sample_flood sample_params sample_pool
    sample_transaction 300 sample_rc empty_block.

Definition sample_paid : rc_state :=
  set_rc_accounts
    (<[1 := set_rc_manabar (Manabar 893128 160) (sample_account "alice" 1000000)]>
      (rc_accounts sample_rc)) sample_rc.

Lemma transaction_paid_witness :
  sample_charge = Ok (sample_paid, empty_block, 35624, false) ∧ rc_ok sample_paid.
Proof.
  assert (sample_charge = Ok (sample_paid, empty_block, 35624, false)) as Hc
    by (vm_compute; reflexivity).
  split; [exact Hc|].
  apply (@transaction_paid sample_externals sample_env sample_flood sample_params sample_pool
    sample_transaction 300 sample_rc empty_block sample_paid empty_block 35624 false).
  - vm_compute. discriminate.
  - vm_compute. discriminate.
  - reflexivity.
  - exact sample_rc_ok.
  - vm_compute. split; discriminate.
  - exact Hc.
Defined.

(** ** Undelegating during a removal

    A node that is not in control accepts a change of delegations while removals are pending.
    Alice has 10 VESTS of her own, 100 delegated to Bob and 90 of these still to be removed;
    she takes the whole delegation back: her [delegated_rc] becomes negative, so that her
    maximum exceeds her VESTS by 90 for good, and the entry in front of the queue, for which no
    delegation is left, stops the removals of everybody else. *)

Definition pending_rc : rc_state :=
  RcState
    {[ 1 := set_delegated_rc 10 (set_last_max_rc 0 (set_rc_manabar (Manabar 0 100)
              (sample_account "alice" 10)));
       2 := set_received_rc 100 (set_last_max_rc 600 (set_rc_manabar (Manabar 600 100)
              (sample_account "bob" 500))) ]}
    {[ (1, 2) := 100 ]} [(1, 90)] no_usage.

Definition block_env : rc_env := RcEnv 160 200 false 300 1000000 1000 27.

Lemma pending_rc_lookup i a : rc_accounts pending_rc !! i = Some a →
  i = 1 ∧ rc_accounts pending_rc !! 1 = Some a ∨ i = 2 ∧ rc_accounts pending_rc !! 2 = Some a.
Proof.
  intros Ha. destruct (decide (i = 1)) as [->|H1]; [by left|].
  destruct (decide (i = 2)) as [->|H2]; [by right|]. exfalso.
  cbn [pending_rc rc_accounts] in Ha. rewrite lookup_insert_ne, lookup_singleton_ne in Ha by done. done.
Qed.

Lemma pending_rc_ok : rc_ok pending_rc.
Proof.
  split.
  - intros i. split.
    + intros f t d Hd. cbn [pending_rc rc_delegations] in Hd.
      apply lookup_singleton_Some in Hd as [[= <- <-] <-].
      split; [done|]. split; [vm_compute; split; [reflexivity|discriminate]|]. split; by eexists.
    + split; [apply NoDup_singleton|]. intros f e [= -> ->]%list_elem_of_singleton.
      split; [vm_compute; split; [reflexivity|discriminate]|]. by eexists.
    + intros j a [[-> Ha]|[-> Ha]]%pending_rc_lookup; injection Ha as <-;
        case_decide; vm_compute; reflexivity.
    + intros j a [[-> Ha]|[-> Ha]]%pending_rc_lookup; injection Ha as <-; vm_compute; reflexivity.
  - intros i [a [[-> _]|[-> _]]%pending_rc_lookup]; vm_compute; discriminate.
  - intros i a [[_ Ha]|[_ Ha]]%pending_rc_lookup; injection Ha as <-;
      repeat split; vm_compute; discriminate || reflexivity.
Qed.

Definition corrupted_rc : rc_state :=
  RcState
    {[ 1 := set_delegated_rc (-90) (set_last_max_rc 100 (set_rc_manabar (Manabar 0 160)
              (sample_account "alice" 10)));
       2 := set_received_rc 0 (set_last_max_rc 500 (set_rc_manabar (Manabar 500 160)
              (sample_account "bob" 500))) ]}
    ∅ [(1, 90)] (ResourceCount 0 0 0 0 75000).

Lemma undelegation_during_removal :
  rc_ok pending_rc ∧
  delegate_rc_evaluator block_env (DelegateRc "alice" ["bob"] 0) pending_rc = Ok corrupted_rc ∧
  handle_expired_delegations block_env (set_rc_expired [(1, 90); (2, 50)] corrupted_rc)
  = Ok (set_rc_expired [(1, 90); (2, 50)] corrupted_rc).
Proof.
  split; [exact pending_rc_ok|]. split; vm_compute; reflexivity.
Qed.
