(* ===== verification/RcExpired.v ===== *)
(** * The removal of expired delegations completes

    [handle_expired_delegations] removes at most [current_remove_threshold] delegations per
    block.  As long as no account regenerates more than 64 bits hold, it never fails, and after a
    bounded number of blocks nothing is left to remove ([expired_delegations_removed]). *)

From S2P Require Import Prelude Safe AssetSymbol Asset OperationTypes Manabar DelayedVotes Account.
From S2P Require Import Governance ResourceDynamics ResourceCount RcDelegations RcBooks RcDelegate.
From S2P Require Import RcRemoval RcMain.
Open Scope Z_scope.

(** Until [horizon], no account regenerates more than 64 bits hold: [regenerate_mana] would
    throw. *)
Definition regenerable (horizon : Z) (s : rc_state) : Prop := ∀ i a, rc_accounts s !! i = Some a →
  last_update_time (rc_manabar a) ≤ horizon ∧
  max_rc a * (horizon - last_update_time (rc_manabar a)) ≤ i64_max * HIVE_RC_REGEN_TIME.

Definition not_after (t : Z) (s : rc_state) : Prop := ∀ i a, rc_accounts s !! i = Some a →
  last_update_time (rc_manabar a) ≤ t.

Section removal.
Context (env : rc_env) (horizon : Z).
Context (Hnow : rc_time env ≤ horizon) (Hhor : horizon ≤ u32_max).

(** A delegatee always takes the loss. *)
Lemma rc_delegation_applied_Ok delta a :
  account_ok a → last_update_time (rc_manabar a) ≤ rc_time env →
  max_rc a * (horizon - last_update_time (rc_manabar a)) ≤ i64_max * HIVE_RC_REGEN_TIME →
  0 < delta ≤ received_rc a →
  ∃ a', rc_delegation_applied env (- delta) true a = Ok a' ∧ max_rc a' = max_rc a - delta ∧
    last_update_time (rc_manabar a') = rc_time env.
Proof using All.
  intros Ha Hl Hreg Hd. unfold rc_delegation_applied.
  rewrite (get_maximum_all a (account_parts a Ha)). cbn [mbind result_bind].
  pose proof (rc_typed_bar a Ha) as Hty. pose proof Ha as [[P1 P2 P3 P4] Hlast Hm Ht].
  pose proof (regenerate_mana_branches (ManabarParams (max_rc a) HIVE_RC_REGEN_TIME) true
    (rc_time env) (rc_manabar a) Hty) as Hb. cbn [max_mana] in Hb.
  specialize (Hb ltac:(lia) ltac:(lia)). cbn beta iota zeta in Hb.
  assert (regenerated (ManabarParams (max_rc a) HIVE_RC_REGEN_TIME)
    (rc_time env - last_update_time (rc_manabar a)) ≤ i64_max) as Hr.
  { unfold regenerated. cbn [max_mana regen_time].
    change HIVE_RC_REGEN_TIME with 432000 in *. apply Z.div_le_upper_bound; [lia|]. nia. }
  rewrite (proj2 (Z.ltb_ge i64_max _) Hr), andb_false_r in Hb. rewrite Hb. cbn [mbind result_bind].
  set (g := regenerated _ _) in *.
  assert (0 ≤ g) as Hg.
  { apply regenerated_nonneg; cbn [max_mana regen_time]; [lia|done|lia]. }
  cbn [current_mana]. unfold max_rc in *.
  rewrite !signed64_Ok by (limits; lia). cbn [mbind result_bind].
  rewrite share_add_in by (limits; lia). cbn [mbind result_bind].
  eexists. split; [reflexivity|]. split; [|reflexivity].
  change (effective (set_received_rc _ _)) with (effective a).
  cbn [delegated_rc received_rc rc_adjustment set_received_rc set_last_max_rc set_rc_manabar]. lia.
Qed.

Lemma regenerable_insert s t ta ta' m l u : regenerable horizon s → not_after (rc_time env) s →
  rc_accounts s !! t = Some ta → max_rc ta' ≤ max_rc ta → 0 ≤ max_rc ta' →
  last_update_time (rc_manabar ta) ≤ rc_time env →
  last_update_time (rc_manabar ta') = rc_time env →
  regenerable horizon (RcState (<[t := ta']> (rc_accounts s)) m l u) ∧
  not_after (rc_time env) (RcState (<[t := ta']> (rc_accounts s)) m l u).
Proof using Hnow.
  intros Hr Hn Ht Hmax H0 Hl Hl'. split; intros i a Ha; cbn [rc_accounts] in Ha;
    apply lookup_insert_Some in Ha as [[_ <-]|[_ Ha]]; [|by apply (Hr i)| |by apply (Hn i)].
  - rewrite Hl'. split; [done|]. destruct (Hr t ta Ht) as [_ Hb]. nia.
  - lia.
Qed.

(** One delegation loses [delta]. *)
Lemma removal_step i t d delta x s :
  rc_books i x s → accounts_ok_but i s → regenerable horizon s → not_after (rc_time env) s →
  rc_delegations s !! (i, t) = Some d → 0 < delta ≤ d →
  ∃ s', update_account_after_rc_delegation env t (- delta) true
      (set_rc_delegations (put_delegation i t (d - delta) (rc_delegations s)) s) = Ok s' ∧
    removed i delta s s' ∧
    rc_delegations s' = put_delegation i t (d - delta) (rc_delegations s) ∧
    regenerable horizon s' ∧ not_after (rc_time env) s'.
Proof using All.
  intros B A Hr Hn Hd Hdel. destruct (books_delegations _ _ _ B i t d Hd) as (Hne & Hdb & _ & [ta Ht]).
  assert (account_ok ta) as Hta by (by apply (A t); [congruence|]).
  pose proof (delegation_bound _ _ _ B i t) as [_ Hg]. unfold delegation in Hg. rewrite Hd in Hg.
  cbn [default from_option id] in Hg. pose proof (books_got _ _ _ B t ta Ht) as Hgot.
  destruct (rc_delegation_applied_Ok delta ta Hta) as (ta' & Hap & Hm & Hl);
    [by apply (Hn t)|by apply (Hr t)|lia|].
  eexists. split.
  - unfold update_account_after_rc_delegation, rc_modify_account, rc_get_account.
    cbn [set_rc_delegations rc_accounts]. rewrite Ht. cbn [from_option_or mbind result_bind].
    rewrite Hap. cbn [mbind result_bind]. reflexivity.
  - destruct (removed_step env ltac:(lia) i t d delta x s
      (RcState (<[t := ta']> (rc_accounts s)) (put_delegation i t (d - delta) (rc_delegations s))
        (rc_expired s) (rc_usage s)) B A Hd Hdel) as [R E].
    { unfold update_account_after_rc_delegation, rc_modify_account, rc_get_account.
      cbn [set_rc_delegations rc_accounts]. rewrite Ht. cbn [from_option_or mbind result_bind].
      by rewrite Hap. }
    split; [exact R|]. split; [exact E|]. destruct Hta as [[? ? ? ?] _ ? _].
    apply (regenerable_insert s t ta); try done; [lia| |by apply (Hn t)].
    unfold max_rc in *. lia.
Qed.

(** The number of delegations. *)
Definition count (s : rc_state) : Z := Z.of_nat (size (rc_delegations s)).

Lemma put_size i t d d' m : m !! (i, t) = Some d →
  Z.of_nat (size (put_delegation i t d' m))
  = Z.of_nat (size m) - (if d' =? 0 then 1 else 0).
Proof using.
  intros Hd. unfold put_delegation. destruct (d' =? 0).
  - rewrite map_size_delete, Hd. cbn [is_Some_proj].
    assert (size m ≠ 0%nat); [|lia]. intros He%map_size_empty_iff. by rewrite He, lookup_empty in Hd.
  - rewrite map_size_insert, Hd. cbn. lia.
Qed.

(** What is left of the limit tells how many delegations were removed. *)
Definition spent (limit limit' : Z) (s s' : rc_state) : Prop :=
  count s' ≤ count s ∧ (limit < 0 → limit' = limit) ∧
  (0 ≤ limit → 0 ≤ limit' ∧ limit' = limit - (count s - count s')).

Lemma spent_trans l1 l2 l3 s1 s2 s3 : spent l1 l2 s1 s2 → spent l2 l3 s2 s3 → spent l1 l3 s1 s3.
Proof using. unfold spent. lia. Qed.

Lemma removal_while i l overflow limit x s :
  rc_books i x s → accounts_ok_but i s → regenerable horizon s → not_after (rc_time env) s →
  NoDup l → (∀ t, t ∈ l → is_Some (rc_delegations s !! (i, t))) → 0 ≤ overflow ≤ i64_max →
  ∃ s' overflow' limit',
    remove_delegations_while env i l overflow limit s = Ok (s', overflow', limit') ∧
    removed i (overflow - overflow') s s' ∧ 0 ≤ overflow' ≤ overflow ∧
    regenerable horizon s' ∧ not_after (rc_time env) s' ∧ spent limit limit' s s' ∧
    (∀ t, t ∉ l → rc_delegations s' !! (i, t) = rc_delegations s !! (i, t)) ∧
    (overflow' = 0 ∨ limit' = 0 ∨ ∀ t, t ∈ l → rc_delegations s' !! (i, t) = None).
Proof using All.
  revert overflow limit x s.
  induction l as [|t l IH]; intros overflow limit x s B A Hr Hn Hnd Hl Ho; cbn [remove_delegations_while].
  { exists s, overflow, limit. rewrite Z.sub_diag. split_and!; try done; [apply removed_refl|lia|unfold spent; lia|].
    right; right. by intros t ?%elem_of_nil. }
  apply NoDup_cons in Hnd as [Ht Hnd].
  assert (removed i (overflow - overflow) s s ∧ spent limit limit s s) as [Hrefl Hsp].
  { rewrite Z.sub_diag. split; [apply removed_refl|unfold spent; lia]. }
  destruct (Z.leb_spec overflow 0) as [Hz|Hz].
  { exists s, overflow, limit. split_and!; try done; [lia|]. left. lia. }
  destruct (Hl t) as [d Hd]; [apply elem_of_cons; by left|].
  rewrite Hd. cbn [from_option_or mbind result_bind].
  destruct (books_delegations _ _ _ B i t d Hd) as (_ & Hdb & _).
  rewrite i64_id by (unfold i64_min, i64_max in *; lia). set (delta := Z.min overflow d) in *.
  rewrite (u64_id delta) by (unfold u64_max, i64_max in *; lia).
  destruct (removal_step i t d delta x s B A Hr Hn Hd ltac:(lia)) as (s1 & Hs1 & R1 & E1 & Hr1 & Hn1).
  pose proof (put_size i t d (d - delta) (rc_delegations s) Hd) as Hsz. rewrite <- E1 in Hsz.
  fold (count s) (count s1) in Hsz.
  assert (∀ lim, spent limit lim s s1 → ∃ s' overflow' limit',
    (s1 ← update_account_after_rc_delegation env t (- delta) true
        (set_rc_delegations (put_delegation i t (d - delta) (rc_delegations s)) s);
      remove_delegations_while env i l (overflow - delta) lim s1) = Ok (s', overflow', limit') ∧
    removed i (overflow - overflow') s s' ∧ 0 ≤ overflow' ≤ overflow ∧
    regenerable horizon s' ∧ not_after (rc_time env) s' ∧ spent limit limit' s s' ∧
    (∀ t', t' ∉ t :: l → rc_delegations s' !! (i, t') = rc_delegations s !! (i, t')) ∧
    (overflow' = 0 ∨ limit' = 0 ∨ ∀ t', t' ∈ t :: l → rc_delegations s' !! (i, t') = None)) as Hstep.
  { intros lim Hlim. rewrite Hs1. cbn [mbind result_bind].
    assert (∀ t', t' ≠ t → rc_delegations s1 !! (i, t') = rc_delegations s !! (i, t')) as Ho1.
    { intros t' Hne. rewrite E1, lookup_put, decide_False; [done|congruence]. }
    destruct (IH (overflow - delta) lim (x - delta) s1) as (s' & ov & lim' & -> & R2 & Hov & Hr2 & Hn2 & Sp & Ot & Hend); try done.
    - by apply (removed_books _ _ _ _ R1).
    - by apply (removed_accounts _ _ _ _ R1).
    - intros t' Ht'. rewrite Ho1 by congruence. apply Hl. apply elem_of_cons. by right.
    - lia.
    - exists s', ov, lim'. split_and!; try done; try lia.
      + replace (overflow - ov) with (delta + (overflow - delta - ov)) by lia.
        by apply (removed_trans i delta _ s s1 s').
      + by apply (spent_trans limit lim lim' s s1 s').
      + intros t' [Hne Hnl]%not_elem_of_cons. rewrite Ot by done. by apply Ho1.
      + destruct Hend as [He|[He|He]]; [by left|by right; left|].
        destruct (Z.eq_dec ov 0) as [|Hnz]; [by left|]. right; right.
        intros t' [->|Hin]%elem_of_cons; [|by apply He].
        rewrite Ot, E1, lookup_put, decide_True by done.
        by rewrite (proj2 (Z.eqb_eq (d - delta) 0)) by lia. }
  destruct (Z.ltb_spec delta d) as [Hlt|Hge].
  - rewrite (proj2 (Z.eqb_neq (d - delta) 0)) in Hsz by lia.
    destruct (Hstep limit) as (s' & ov & lim' & Hrun & Hrest); [unfold spent; lia|].
    exists s', ov, lim'. split; [|exact Hrest]. rewrite <- Hrun. unfold put_delegation.
    rewrite (proj2 (Z.eqb_neq (d - delta) 0)) by lia.
    by rewrite (u64_id (d - delta)) by (unfold u64_max, i64_max in *; lia).
  - rewrite (proj2 (Z.eqb_eq (d - delta) 0)) in Hsz by lia. unfold remove_guard_step.
    destruct (Z.ltb_spec 0 limit) as [Hp|Hp]; [|destruct (Z.eqb_spec limit 0) as [H0|H0]]; cbn [negb].
    + destruct (Hstep (limit - 1)) as (s' & ov & lim' & Hrun & Hrest); [unfold spent; lia|].
      exists s', ov, lim'. split; [|exact Hrest]. rewrite <- Hrun. unfold put_delegation.
      by rewrite (proj2 (Z.eqb_eq (d - delta) 0)) by lia.
    + exists s, overflow, limit. split_and!; try done; [lia|]. by right; left.
    + destruct (Hstep limit) as (s' & ov & lim' & Hrun & Hrest); [unfold spent; lia|].
      exists s', ov, lim'. split; [|exact Hrest]. rewrite <- Hrun. unfold put_delegation.
      by rewrite (proj2 (Z.eqb_eq (d - delta) 0)) by lia.
Qed.

(** One entry of the queue: it is cleared, or the limit is used up. *)
Lemma removal_of_entry i e rest limit s :
  rc_ok s → regenerable horizon s → not_after (rc_time env) s → rc_expired s = (i, e) :: rest →
  ∃ s' overflow limit',
    remove_delegations env e i limit s = Ok (s', overflow, limit') ∧
    0 ≤ overflow ≤ e ∧ removed i (e - overflow) s s' ∧
    regenerable horizon s' ∧ not_after (rc_time env) s' ∧ spent limit limit' s s' ∧
    (overflow = 0 ∨ limit' = 0).
Proof using All.
  intros Hok Hr Hn Hl. pose proof (ok_books s Hok i) as B.
  destruct (books_expired _ _ _ B) as [Hnd Hex].
  destruct (Hex i e) as [He [a Ha]]; [rewrite Hl; apply elem_of_cons; by left|].
  destruct (delegatees_spec i s) as [Hdn Hdl].
  assert (accounts_ok_but i s) as A by (intros j b _; apply (ok_accounts s Hok j)).
  destruct (removal_while i (delegatees_of i s) e limit 0 s B A Hr Hn Hdn)
    as (s' & ov & lim & Hrun & R & Hov & Hr' & Hn' & Sp & Ot & Hend); [intros t; apply Hdl|lia|].
  exists s', ov, lim. split_and!; try done; try lia.
  destruct Hend as [H0|[H0|Hall]]; [by left|by right|]. left.
  pose proof (removed_books _ _ _ _ R 0 B) as B'.
  assert (sent (rc_delegations s') i = 0) as Hz.
  { apply map_sum_zero. intros [f t] d Hd. cbn [fst]. case_decide as Hf; [|done]. subst f. exfalso.
    destruct (decide (t ∈ delegatees_of i s)) as [Hin|Hin].
    - rewrite (Hall t Hin) in Hd. done.
    - rewrite (Ot t Hin) in Hd. apply Hin, Hdl. by exists d. }
  assert (rc_accounts s' !! i = Some a) as Ha' by (by rewrite (removed_from _ _ _ _ R)).
  pose proof (books_sent _ _ _ B' i a Ha') as Hs. rewrite decide_True, Hz in Hs by done.
  rewrite (removed_expired _ _ _ _ R), (owed_elem _ i e Hnd) in Hs
    by (rewrite Hl; apply elem_of_cons; by left).
  destruct (ok_accounts s Hok i a Ha) as [[_ Hown _ _] _ _ _]. lia.
Qed.

Lemma regenerable_expired s l :
  regenerable horizon s → not_after (rc_time env) s →
  regenerable horizon (set_rc_expired l s) ∧ not_after (rc_time env) (set_rc_expired l s).
Proof using. done. Qed.

Lemma expired_rounds_run n limit s :
  rc_ok s → regenerable horizon s → not_after (rc_time env) s → (length (rc_expired s) ≤ n)%nat →
  ∃ s', expired_rounds env n limit s = Ok s' ∧ rc_ok s' ∧
    regenerable horizon s' ∧ not_after (rc_time env) s' ∧ count s' ≤ count s ∧
    (rc_expired s' = [] ∨ 0 ≤ limit ∧ count s' = count s - limit).
Proof using All.
  revert limit s. induction n as [|n IH]; intros limit s Hok Hr Hn Hlen; cbn [expired_rounds].
  { exists s. split_and!; try done. left.
    destruct (rc_expired s); [done|cbn in Hlen; lia]. }
  destruct (rc_expired s) as [|[i e] rest] eqn:Hl.
  { exists s. split_and!; try done. by left. }
  destruct (books_expired _ _ _ (ok_books s Hok i)) as [_ Hex].
  destruct (Hex i e) as [He _]; [rewrite Hl; apply elem_of_cons; by left|].
  rewrite i64_id by (unfold i64_min, i64_max in *; lia).
  destruct (removal_of_entry i e rest limit s Hok Hr Hn Hl)
    as (s1 & ov & lim & -> & Hov & R & Hr1 & Hn1 & Sp & Hend). cbn [mbind result_bind].
  destruct (expired_round_ok i e ov rest s s1 Hok Hl Hov R) as [Hok1 _].
  destruct (Z.ltb_spec 0 ov) as [Hp|Hp].
  - rewrite u64_id by (unfold u64_max, i64_max in *; lia). eexists. split; [done|].
    unfold spent, count in *. cbn [set_rc_expired rc_delegations] in *. split_and!; try done; [lia|].
    right. destruct Hend as [|Hz]; [lia|]. lia.
  - destruct (Z.eqb_spec lim 0) as [Hz|Hz].
    + eexists. split; [done|]. unfold spent, count in *. cbn [set_rc_expired rc_delegations] in *.
      split_and!; try done; [lia|]. right. lia.
    + destruct (IH lim (set_rc_expired rest s1) Hok1 Hr1 Hn1) as (s' & Hrun & Hok' & Hr' & Hn' & Hc & Hd);
        [cbn in *; lia|].
      exists s'. unfold spent, count in *. cbn [set_rc_expired rc_delegations] in *.
      split_and!; try done; [lia|]. destruct Hd as [Hd|Hd]; [by left|right]. lia.
Qed.

End removal.

(** ** Blocks *)

Definition handle_expired_blocks (envs : list rc_env) (s : rc_state) : result rc_state :=
  foldM (λ s env, handle_expired_delegations env s) s envs.

(** The times of consecutive blocks, up to the horizon. *)
Fixpoint timeline (horizon t : Z) (envs : list rc_env) : Prop :=
  match envs with
  | [] => True
  | env :: envs => t ≤ rc_time env ≤ horizon ∧ timeline horizon (rc_time env) envs
  end.

(** The blocks may remove more delegations than there are, or one of them all (a negative limit is
    no limit). *)
Definition enough_removals (envs : list rc_env) (s : rc_state) : Prop :=
  Exists (λ env, rc_remove_threshold env < 0) envs ∨ count s < sumZ (rc_remove_threshold <$> envs).

Lemma handle_expired_blocks_run horizon t envs s :
  horizon ≤ u32_max → rc_ok s → regenerable horizon s → not_after t s →
  timeline horizon t envs →
  Forall (λ env, (HIVE_HARDFORK_1_26 <? rc_processed_hardforks env) = true) envs →
  rc_expired s = [] ∨ enough_removals envs s →
  ∃ s', handle_expired_blocks envs s = Ok s' ∧ rc_ok s' ∧ rc_expired s' = [].
Proof.
  intros Hhor. revert t s. induction envs as [|env envs IH]; intros t s Hok Hr Hn Ht Hf Hc.
  { exists s. split_and!; try done. destruct Hc as [|[Hc|Hc]]; [done|by apply Exists_nil in Hc|].
    unfold count in Hc. cbn in Hc. lia. }
  destruct Ht as [Ht Hts]. apply Forall_cons in Hf as [Hhf Hf].
  assert (not_after (rc_time env) s) as Hn1 by (intros i a Ha; specialize (Hn i a Ha); lia).
  destruct (expired_rounds_run env horizon ltac:(lia) Hhor (length (rc_expired s))
    (rc_remove_threshold env) s Hok Hr Hn1) as (s1 & Hrun & Hok1 & Hr1 & Hn2 & Hcnt & Hd); [done|].
  assert (handle_expired_delegations env s = Ok s1) as H1.
  { unfold handle_expired_delegations. by rewrite Hhf. }
  unfold handle_expired_blocks. cbn [foldM]. rewrite H1. cbn [mbind result_bind].
  fold (handle_expired_blocks envs s1).
  apply (IH (rc_time env) s1); try done.
  destruct Hd as [Hd|[Hk0 Hd]]; [by left|]. destruct Hc as [He|[Hc|Hc]].
  - left. rewrite He in Hrun. cbn in Hrun. congruence.
  - right. left. apply Exists_cons in Hc as [Hc|Hc]; [lia|done].
  - right. right. rewrite fmap_cons, sumZ_cons in Hc. lia.
Qed.

(** C16. Expired delegations are removed.  From a state whose books are right, in which no account
    regenerates more than 64 bits hold before [horizon], and with nothing but
    [handle_expired_delegations] run on it: however the removals are cut off by the limits of the
    blocks, the calls never throw, and once the limits of the blocks add up to more than the number of
    delegations, or one block has no limit, the queue is empty and every account has delegated
    exactly what its delegations add up to. *)
Theorem expired_delegations_removed horizon t envs s :
  horizon ≤ u32_max → rc_ok s → regenerable horizon s → not_after t s →
  timeline horizon t envs →
  Forall (λ env, (HIVE_HARDFORK_1_26 <? rc_processed_hardforks env) = true) envs →
  enough_removals envs s →
  ∃ s', handle_expired_blocks envs s = Ok s' ∧ rc_ok s' ∧ rc_expired s' = [] ∧
    ∀ i a, rc_accounts s' !! i = Some a → delegated_rc a = sent (rc_delegations s') i.
Proof.
  intros Hhor Hok Hr Hn Ht Hf Hc.
  destruct (handle_expired_blocks_run horizon t envs s) as (s' & Hrun & Hok' & He); try done; [by right|].
  exists s'. split_and!; try done. intros i a Ha.
  pose proof (books_sent _ _ _ (ok_books s' Hok' i) i a Ha) as Hs.
  rewrite He, decide_True in Hs by done. change (owed [] i) with 0 in Hs. lia.
Qed.

Lemma expired_delegations_removed_witness :
  ∃ s', handle_expired_blocks [block_env] pending_rc = Ok s' ∧ rc_ok s' ∧ rc_expired s' = [].
Proof.
  destruct (expired_delegations_removed 160 100 [block_env] pending_rc)
    as (s' & H1 & H2 & H3 & _).
  - vm_compute. discriminate.
  - exact pending_rc_ok.
  - intros i a [[_ Ha]|[_ Ha]]%pending_rc_lookup; injection Ha as <-; vm_compute; split; discriminate.
  - intros i a [[_ Ha]|[_ Ha]]%pending_rc_lookup; injection Ha as <-; vm_compute; discriminate.
  - split; [|exact I]. vm_compute. split; discriminate.
  - apply Forall_singleton. reflexivity.
  - right. by vm_compute.
  - exists s'. split; [exact H1|]. split; [exact H2|exact H3].
Defined.
