(* ===== verification/WitnessSchedule.v ===== *)
(** * The schedule of witnesses

    The election of the witnesses of a round ([src/libraries/chain/witness_schedule.cpp],
    [witness_objects.hpp]): the most voted ones, miners while there was mining, and the others in
    turn by virtual time; the shuffle, the medians of their properties and the majority on
    versions and hardforks.

    The index of witnesses is the list of them by id; its other orders are the list sorted by
    their keys.  The schedule exists twice, for the current and for the next round; which of the
    two a reference means is a boolean ([true] for the next one).  Virtual operations and log
    messages are left out. *)

From S2P Require Import Prelude Safe AssetSymbol Asset Version OperationTypes Operations Account.
From S2P Require Import Governance ResourceDynamics ResourceCost ResourceCount RcDelegations RcCharge.
Open Scope Z_scope.

Definition HIVE_MAX_WITNESSES : Z := 21.
Definition HIVE_START_MINER_VOTING_BLOCK : Z := 24 * 60 * 60 / 3 * 30.
Definition HIVE_ACCOUNT_SUBSIDY_PRECISION : Z := HIVE_100_PERCENT.
Definition HIVE_WITNESS_SUBSIDY_BUDGET_PERCENT : Z := 125 * 100.
Definition HIVE_WITNESS_SUBSIDY_DECAY_PERCENT : Z := HIVE_MAX_WITNESSES * HIVE_100_PERCENT.
Definition HIVE_DECAY_BACKSTOP_PERCENT : Z := 90 * 100.
Definition HIVE_HARDFORK_0_5__54 : Z := 5.
Definition HIVE_HARDFORK_0_14__278 : Z := 14.
Definition HIVE_HARDFORK_0_20 : Z := 20.
Definition HIVE_HARDFORK_1_28_GLOBAL_WITNESS_PROPS : Z := 28.
Definition HIVE_HARDFORK_0_22_VERSION : version := make_version 0 22 0.
Definition HIVE_HARDFORK_0_23_VERSION : version := make_version 0 23 0.
Definition HIVE_HARDFORK_0_23_TIME : Z := 1584712800.

(** ** State *)

Inductive witness_schedule_type : Set := elected | timeshare | miner | none.

Record chain_properties : Set := ChainProperties {
  account_creation_fee : asset;
  props_maximum_block_size : Z;          (* uint32_t *)
  props_hbd_interest_rate : Z;           (* uint16_t *)
  account_subsidy_budget : Z;            (* int32_t *)
  account_subsidy_decay : Z              (* uint32_t *)
}.

(** A witness; its votes and its virtual time are those of [Governance]. *)
Record scheduled_witness : Set := ScheduledWitness {
  witness_id : Z;
  owner : account_name_type;
  pow_worker : Z;                        (* uint64_t *)
  signing_key : public_key_type;
  props : chain_properties;
  voting : witness_object;
  schedule : witness_schedule_type;
  running_version : version;
  hardfork_version_vote : version;
  hardfork_time_vote : time_point_sec;
  available_witness_account_subsidies : Z
}.

Record witness_schedule_object : Set := WitnessScheduleObject {
  current_virtual_time : Z;              (* uint128 *)
  next_shuffle_block_num : Z;            (* uint32_t *)
  current_shuffled_witnesses : list account_name_type;
  num_scheduled_witnesses : Z;           (* uint8_t *)
  elected_weight : Z;                    (* uint8_t *)
  timeshare_weight : Z;                  (* uint8_t *)
  miner_weight : Z;                      (* uint8_t *)
  witness_pay_normalization_factor : Z;  (* uint32_t *)
  median_props : chain_properties;
  majority_version : version;
  max_voted_witnesses : Z;               (* uint8_t *)
  max_miner_witnesses : Z;               (* uint8_t *)
  max_runner_witnesses : Z;              (* uint8_t *)
  hardfork_required_witnesses : Z;       (* uint8_t *)
  account_subsidy_rd : rd_dynamics_params;
  account_subsidy_witness_rd : rd_dynamics_params;
  min_witness_account_subsidy_decay : Z  (* int64_t *)
}.

Record hardfork_property_object : Set := HardforkProperties {
  current_hardfork_version : version;
  next_hardfork : version;
  next_hardfork_time : time_point_sec
}.

Record schedule_state : Set := ScheduleState {
  witness_index : list scheduled_witness;
  schedule_now : witness_schedule_object;
  schedule_next : witness_schedule_object;
  hardfork_properties : hardfork_property_object;
  schedule_hardforks : Z;
  schedule_block_num : Z;
  schedule_time : time_point_sec;
  num_pow_witnesses : Z;                 (* uint32_t *)
  dgpo_maximum_block_size : Z;
  dgpo_hbd_interest_rate : Z;
  new_accounts_params : rc_resource_params
}.

Definition hardfork_active (hardfork : Z) (s : schedule_state) : bool :=
  hardfork <? schedule_hardforks s.

Definition set_witness_index (ws : list scheduled_witness) (s : schedule_state) : schedule_state :=
  ScheduleState ws (schedule_now s) (schedule_next s) (hardfork_properties s) (schedule_hardforks s)
    (schedule_block_num s) (schedule_time s) (num_pow_witnesses s) (dgpo_maximum_block_size s)
    (dgpo_hbd_interest_rate s) (new_accounts_params s).
Definition set_num_pow_witnesses (n : Z) (s : schedule_state) : schedule_state :=
  ScheduleState (witness_index s) (schedule_now s) (schedule_next s) (hardfork_properties s)
    (schedule_hardforks s) (schedule_block_num s) (schedule_time s) n (dgpo_maximum_block_size s)
    (dgpo_hbd_interest_rate s) (new_accounts_params s).
Definition set_hardfork_properties (h : hardfork_property_object) (s : schedule_state) :
    schedule_state :=
  ScheduleState (witness_index s) (schedule_now s) (schedule_next s) h (schedule_hardforks s)
    (schedule_block_num s) (schedule_time s) (num_pow_witnesses s) (dgpo_maximum_block_size s)
    (dgpo_hbd_interest_rate s) (new_accounts_params s).
Definition set_new_accounts_params (p : rc_resource_params) (s : schedule_state) : schedule_state :=
  ScheduleState (witness_index s) (schedule_now s) (schedule_next s) (hardfork_properties s)
    (schedule_hardforks s) (schedule_block_num s) (schedule_time s) (num_pow_witnesses s)
    (dgpo_maximum_block_size s) (dgpo_hbd_interest_rate s) p.

(** The schedule that a reference means. *)
Definition get_schedule (next : bool) (s : schedule_state) : witness_schedule_object :=
  if next then schedule_next s else schedule_now s.
Definition set_schedule (next : bool) (o : witness_schedule_object) (s : schedule_state) :
    schedule_state :=
  ScheduleState (witness_index s) (if next then schedule_now s else o)
    (if next then o else schedule_next s) (hardfork_properties s) (schedule_hardforks s)
    (schedule_block_num s) (schedule_time s) (num_pow_witnesses s) (dgpo_maximum_block_size s)
    (dgpo_hbd_interest_rate s) (new_accounts_params s).

Definition set_current_virtual_time (t : Z) (o : witness_schedule_object) : witness_schedule_object :=
  WitnessScheduleObject t (next_shuffle_block_num o) (current_shuffled_witnesses o)
    (num_scheduled_witnesses o) (elected_weight o) (timeshare_weight o) (miner_weight o)
    (witness_pay_normalization_factor o) (median_props o) (majority_version o)
    (max_voted_witnesses o) (max_miner_witnesses o) (max_runner_witnesses o)
    (hardfork_required_witnesses o) (account_subsidy_rd o) (account_subsidy_witness_rd o)
    (min_witness_account_subsidy_decay o).

Definition set_witness_schedule_type (t : witness_schedule_type) (w : scheduled_witness) :
    scheduled_witness :=
  ScheduledWitness (witness_id w) (owner w) (pow_worker w) (signing_key w) (props w) (voting w) t
    (running_version w) (hardfork_version_vote w) (hardfork_time_vote w)
    (available_witness_account_subsidies w).
Definition set_pow_worker (n : Z) (w : scheduled_witness) : scheduled_witness :=
  ScheduledWitness (witness_id w) (owner w) n (signing_key w) (props w) (voting w) (schedule w)
    (running_version w) (hardfork_version_vote w) (hardfork_time_vote w)
    (available_witness_account_subsidies w).
Definition set_voting (v : witness_object) (w : scheduled_witness) : scheduled_witness :=
  ScheduledWitness (witness_id w) (owner w) (pow_worker w) (signing_key w) (props w) v (schedule w)
    (running_version w) (hardfork_version_vote w) (hardfork_time_vote w)
    (available_witness_account_subsidies w).

(** ** The index *)

(** The default key has only zero bytes. *)
Definition is_disabled (w : scheduled_witness) : bool := signing_key w =? 0.

(** [by_vote_name], [by_pow] and [by_schedule_time]. *)
Definition by_vote_name (a b : scheduled_witness) : Prop :=
  votes (voting b) < votes (voting a) ∨
  votes (voting a) = votes (voting b) ∧ String.ltb (owner b) (owner a) = false.
Definition by_pow (a b : scheduled_witness) : Prop :=
  pow_worker a < pow_worker b ∨ pow_worker a = pow_worker b ∧ witness_id a ≤ witness_id b.
Definition by_schedule_time (a b : scheduled_witness) : Prop :=
  virtual_scheduled_time (voting a) < virtual_scheduled_time (voting b) ∨
  virtual_scheduled_time (voting a) = virtual_scheduled_time (voting b) ∧ witness_id a ≤ witness_id b.

#[export] Instance by_vote_name_dec a b : Decision (by_vote_name a b).
Proof. unfold by_vote_name. apply _. Defined.
#[export] Instance by_pow_dec a b : Decision (by_pow a b).
Proof. unfold by_pow. apply _. Defined.
#[export] Instance by_schedule_time_dec a b : Decision (by_schedule_time a b).
Proof. unfold by_schedule_time. apply _. Defined.

Definition get_witness (n : account_name_type) (s : schedule_state) : result scheduled_witness :=
  from_option_or out_of_range_exception (list_find (λ w, owner w = n) (witness_index s) ≫= Some ∘ snd).

(** Modification of the witnesses whose id is in [ids]. *)
Definition modify_witnesses (ids : list Z) (f : scheduled_witness → scheduled_witness)
    (ws : list scheduled_witness) : list scheduled_witness :=
  (λ w, if decide (witness_id w ∈ ids) then f w else w) <$> ws.

(** ** Selection *)

Section selection.
(** Whether witnesses without a signing key are passed over. *)
Context (skip_disabled : bool).

Definition passed_over (w : scheduled_witness) : bool := skip_disabled && is_disabled w.

(** The loop over the witnesses by votes, with room for [n] more. *)
Fixpoint elect (n : nat) (l : list scheduled_witness) : list scheduled_witness :=
  match l, n with
  | [], _ | _, O => []
  | w :: l', S n' => if passed_over w then elect n l' else w :: elect n' l'
  end.

(** The loop over the queue of miners: those that are selected, and all that leave the queue. *)
Fixpoint mine (selected_voted : list Z) (n : nat) (l : list scheduled_witness) :
    list scheduled_witness * list scheduled_witness :=
  match l, n with
  | [], _ | _, O => ([], [])
  | w :: l', S n' =>
      if decide (witness_id w ∈ selected_voted) then
        let '(miners, processed) := mine selected_voted n l' in (miners, w :: processed)
      else if passed_over w then
        let '(miners, processed) := mine selected_voted n l' in (miners, w :: processed)
      else
        let '(miners, processed) := mine selected_voted n' l' in (w :: miners, w :: processed)
  end.

(** The loop over the witnesses by virtual time: those that are selected, all that are
    processed, and the virtual time that everyone advances to. *)
Fixpoint run (selected : list Z) (n : nat) (virtual_time : Z) (l : list scheduled_witness) :
    list scheduled_witness * list scheduled_witness * Z :=
  match l, n with
  | [], _ | _, O => ([], [], virtual_time)
  | w :: l', S n' =>
      let virtual_time := virtual_scheduled_time (voting w) in
      if passed_over w then
        let '(runners, processed, t) := run selected n virtual_time l' in (runners, w :: processed, t)
      else if decide (witness_id w ∈ selected) then
        let '(runners, processed, t) := run selected n virtual_time l' in (runners, w :: processed, t)
      else
        let '(runners, processed, t) := run selected n' virtual_time l' in
        (w :: runners, w :: processed, t)
  end.

End selection.

(** The time of a virtual lap. *)
Definition virtual_lap (w : scheduled_witness) : result Z :=
  speed ← signed64 (votes (voting w) + 1);
  udiv HIVE_VIRTUAL_SCHEDULE_LAP_LENGTH2 (u128 speed).

(** The loop over the processed witnesses; [true] when the virtual time overflows. *)
Fixpoint advance (now : Z) (processed ws : list scheduled_witness) :
    result (list scheduled_witness * bool) :=
  match processed with
  | [] => Ok (ws, false)
  | w :: processed =>
      lap ← virtual_lap w;
      let next := u128 (now + lap) in
      if next <? now then Ok (ws, true)
      else advance now processed (modify_witnesses [witness_id w]
             (λ o, set_voting (WitnessObject (votes (voting o)) now 0 next) o) ws)
  end.

Fixpoint reset_laps (now : Z) (ws : list scheduled_witness) : result (list scheduled_witness) :=
  match ws with
  | [] => Ok []
  | w :: ws =>
      lap ← virtual_lap w;
      ws ← reset_laps now ws;
      Ok (set_voting (WitnessObject (votes (voting w)) now 0 lap) w :: ws)
  end.

Definition reset_virtual_schedule_time (s : schedule_state) : result schedule_state :=
  let next := hardfork_active HIVE_HARDFORK_1_27_FIX_TIMESHARE_WITNESS_SCHEDULING s &&
              hardfork_active HIVE_HARDFORK_1_26 s in
  let s := set_schedule next (set_current_virtual_time 0 (get_schedule next s)) s in
  ws ← reset_laps (current_virtual_time (get_schedule next s)) (witness_index s);
  Ok (set_witness_index ws s).

(** ** Votes of the scheduled witnesses *)

(** [map[ k ] += 1] in a [flat_map]. *)
Fixpoint count_in {K} (ltb : K → K → bool) (k : K) (l : list (K * Z)) : list (K * Z) :=
  match l with
  | [] => [(k, 1)]
  | (k', n) :: l' =>
      if ltb k' k then (k', n) :: count_in ltb k l'
      else if ltb k k' then (k, 1) :: l
      else (k', u32 (n + 1)) :: l'
  end.

(** [std::greater< version >], and the order of pairs of a hardfork and a time. *)
Definition version_greater (a b : version) : bool := version_op greater a b.
Definition hardfork_vote_less (a b : version * time_point_sec) : bool :=
  version_op less a.1 b.1 || (negb (version_op less b.1 a.1) && (a.2 <? b.2)).

Definition version_vote (w : scheduled_witness) : version * time_point_sec :=
  (hardfork_version_vote w, hardfork_time_vote w).

(** The highest version that enough witnesses run at least. *)
Fixpoint majority_of_versions (required on_version : Z) (versions : list (version * Z)) :
    option version :=
  match versions with
  | [] => None
  | (v, n) :: versions =>
      let on_version := on_version + n in
      if required <=? on_version then Some v else majority_of_versions required on_version versions
  end.

(** The first vote with enough witnesses. *)
Definition majority_of_votes (required : Z) (l : list ((version * time_point_sec) * Z)) :
    option (version * time_point_sec) :=
  fst ∘ snd <$> list_find (λ p, (required <=? p.2) = true) l.

Definition agreed_hardfork (vote : option (version * time_point_sec)) (h : hardfork_property_object) :
    hardfork_property_object :=
  match vote with
  | Some (v, t) =>
      if version_op not_equal (next_hardfork h) v || negb (next_hardfork_time h =? t)
      then HardforkProperties (current_hardfork_version h) v t
      else h
  | None => HardforkProperties (current_hardfork_version h) (current_hardfork_version h)
              (next_hardfork_time h)
  end.

(** The witnesses of the schedule that ends. *)
Definition scheduled (next : bool) (s : schedule_state) : result (list scheduled_witness) :=
  let o := get_schedule next s in
  foldM (λ acc n, w ← get_witness n s; Ok (acc ++ [w])) []
    (take (Z.to_nat (num_scheduled_witnesses o)) (current_shuffled_witnesses o)).

(** The majority version and the hardfork properties. *)
Definition count_versions (next : bool) (s : schedule_state) :
    result (version * hardfork_property_object) :=
  let o := get_schedule next s in
  let h := hardfork_properties s in
  if hardfork_active HIVE_HARDFORK_0_5__54 s then
    active ← scheduled next s;
    let witness_versions := foldl (λ l w, count_in version_greater (running_version w) l) [] active in
    let hardfork_version_votes := foldl (λ l w, count_in hardfork_vote_less (version_vote w) l) [] active in
    if version_op equal (current_hardfork_version h) HIVE_HARDFORK_0_22_VERSION then
      Ok (majority_version o,
          if version_op not_equal (next_hardfork h) HIVE_HARDFORK_0_23_VERSION
          then HardforkProperties (current_hardfork_version h) HIVE_HARDFORK_0_23_VERSION
                 HIVE_HARDFORK_0_23_TIME
          else h)
    else
      let required := hardfork_required_witnesses o in
      Ok (default (majority_version o) (majority_of_versions required 0 witness_versions),
          agreed_hardfork (majority_of_votes required hardfork_version_votes) h)
  else Ok (majority_version o, h).

(** ** The shuffle *)

Definition xorshift_factor : Z := 2685821657736338717.

Definition shuffle_random (now_hi i : Z) : Z :=
  let k := u64 (now_hi + u64 (i * xorshift_factor)) in
  let k := Z.lxor k (Z.shiftr k 12) in
  let k := Z.lxor k (u64 (Z.shiftl k 25)) in
  let k := Z.lxor k (Z.shiftr k 27) in
  u64 (k * xorshift_factor).

(** [std::swap( l[i], l[j] )]. *)
Definition swap_entries (i j : nat) (l : list account_name_type) : result (list account_name_type) :=
  a ← from_option_or undefined_behaviour (l !! i);
  b ← from_option_or undefined_behaviour (l !! j);
  Ok (<[j := a]> (<[i := b]> l)).

Definition urem (a b : Z) : result Z :=
  if b =? 0 then Throw undefined_behaviour else Ok (a mod b).

Definition shuffle_step (now_hi n : Z) (l : list account_name_type) (i : Z) :
    result (list account_name_type) :=
  let jmax := u32 (n - i) in
  j ← urem (shuffle_random now_hi i) jmax;
  swap_entries (Z.to_nat i) (Z.to_nat (u32 (i + j))) l.

Definition shuffle (time : time_point_sec) (n : Z) (l : list account_name_type) :
    result (list account_name_type) :=
  foldM (shuffle_step (u64 (Z.shiftl time 32)) n) l (seqZ 0 n).

(** ** Medians *)

(** The element in the middle after sorting by a key; [std::sort] leaves the order of equal keys
    open, and the code reads the key of the element only. *)
Definition key_le {A} (key : A → Z) (a b : A) : Prop := key a ≤ key b.
#[export] Instance key_le_dec {A} (key : A → Z) a b : Decision (key_le key a b).
Proof. unfold key_le. apply _. Defined.

Definition median {A} (key : A → Z) (l : list A) : result A :=
  from_option_or undefined_behaviour (merge_sort (key_le key) l !! (length l / 2)%nat).

(** The budget and decay of the subsidies of one witness. *)
Definition witness_user_params (u : rd_user_params) : rd_user_params :=
  let w_budget := cdiv (user_budget u * HIVE_WITNESS_SUBSIDY_BUDGET_PERCENT) HIVE_100_PERCENT in
  let w_budget := Z.min w_budget i32_max in
  let w_decay := u64 (user_decay u * HIVE_WITNESS_SUBSIDY_DECAY_PERCENT) / HIVE_100_PERCENT in
  let w_decay := Z.min w_decay u32_max in
  RdUserParams (i32 w_budget) (u32 w_decay).

Definition set_min_decay (d : Z) (p : rd_dynamics_params) : rd_dynamics_params :=
  RdDynamicsParams (resource_unit p) (budget_per_time_unit p) (pool_eq p) (max_pool_size p)
    (decay_params p) d.

Definition set_medians (p : chain_properties) (rd witness_rd : rd_dynamics_params)
    (o : witness_schedule_object) : witness_schedule_object :=
  WitnessScheduleObject (current_virtual_time o) (next_shuffle_block_num o)
    (current_shuffled_witnesses o) (num_scheduled_witnesses o) (elected_weight o)
    (timeshare_weight o) (miner_weight o) (witness_pay_normalization_factor o) p
    (majority_version o) (max_voted_witnesses o) (max_miner_witnesses o) (max_runner_witnesses o)
    (hardfork_required_witnesses o) rd witness_rd (min_witness_account_subsidy_decay o).

Definition update_global_witness_properties (p : chain_properties) (s : schedule_state) :
    schedule_state :=
  ScheduleState (witness_index s) (schedule_now s) (schedule_next s) (hardfork_properties s)
    (schedule_hardforks s) (schedule_block_num s) (schedule_time s) (num_pow_witnesses s)
    (props_maximum_block_size p) (props_hbd_interest_rate p) (new_accounts_params s).

(** The subsidies of accounts for all witnesses and for each of them. *)
Definition subsidy_params (budget decay level : Z) (o : witness_schedule_object) :
    result (rd_dynamics_params * rd_dynamics_params) :=
  let system := RdSystemParams HIVE_ACCOUNT_SUBSIDY_PRECISION HIVE_RD_DECAY_DENOM_SHIFT in
  let user := RdUserParams budget decay in
  rd_validate_user_params user ;;
  rd ← rd_setup_dynamics_params user system (account_subsidy_rd o);
  witness_rd ← rd_setup_dynamics_params (witness_user_params user) system
    (account_subsidy_witness_rd o);
  median_decay ← rd_compute_pool_decay (decay_params witness_rd) level 1;
  let median_decay := Z.max median_decay 0 in
  min_decay ← uint128_to_int64 (u128 (median_decay * HIVE_DECAY_BACKSTOP_PERCENT) / HIVE_100_PERCENT);
  Ok (rd, set_min_decay min_decay witness_rd).

Definition update_median_witness_props (next : bool) (s : schedule_state) : result schedule_state :=
  active ← scheduled next s;
  fee ← median (λ w, amount (account_creation_fee (props w))) active;
  size ← median (λ w, props_maximum_block_size (props w)) active;
  rate ← median (λ w, props_hbd_interest_rate (props w)) active;
  budget ← median (λ w, account_subsidy_budget (props w)) active;
  decay ← median (λ w, account_subsidy_decay (props w)) active;
  level ← median available_witness_account_subsidies active;
  let p := ChainProperties (account_creation_fee (props fee)) (props_maximum_block_size (props size))
    (props_hbd_interest_rate (props rate)) (account_subsidy_budget (props budget))
    (account_subsidy_decay (props decay)) in
  '(rd, witness_rd) ← subsidy_params (account_subsidy_budget p) (account_subsidy_decay p)
    (available_witness_account_subsidies level) (get_schedule next s);
  let s := set_schedule next (set_medians p rd witness_rd (get_schedule next s)) s in
  Ok (if hardfork_active HIVE_HARDFORK_1_28_GLOBAL_WITNESS_PROPS s then s
      else update_global_witness_properties p s).

(** ** The update *)

(** The new schedule in place of the one that ends. *)
Definition install (active : list account_name_type) (num_elected num_miners virtual_time : Z)
    (majority : version) (s : schedule_state) (o : witness_schedule_object) :
    result witness_schedule_object :=
  let size := Z.of_nat (length active) in
  let n := Z.max (u8 size) 1 in
  let num_timeshare := size - num_miners - num_elected in
  let factor := u32 (elected_weight o * num_elected + miner_weight o * num_miners
                     + timeshare_weight o * num_timeshare) in
  shuffled ← shuffle (schedule_time s) n
    (active ++ replicate (Z.to_nat HIVE_MAX_WITNESSES - length active) ""%string);
  Ok (WitnessScheduleObject virtual_time (u32 (schedule_block_num s + n)) shuffled n
    (elected_weight o) (timeshare_weight o) (miner_weight o) factor (median_props o) majority
    (max_voted_witnesses o) (max_miner_witnesses o) (max_runner_witnesses o)
    (hardfork_required_witnesses o) (account_subsidy_rd o) (account_subsidy_witness_rd o)
    (min_witness_account_subsidy_decay o)).

(** The witnesses of a round, those that left the queue of miners, those whose virtual time is
    over, and the new virtual time. *)
Record selection : Set := Selection {
  sel_elected : list scheduled_witness;
  sel_miners : list scheduled_witness;
  sel_queue : list scheduled_witness;
  sel_runners : list scheduled_witness;
  sel_processed : list scheduled_witness;
  sel_time : Z
}.

Definition select_witnesses (skip_disabled : bool) (o : witness_schedule_object)
    (ws : list scheduled_witness) : selection :=
  let voted := elect skip_disabled (Z.to_nat (max_voted_witnesses o)) (merge_sort by_vote_name ws) in
  let ids := witness_id <$> voted in
  let '(miners, queue) := mine skip_disabled ids (Z.to_nat (max_miner_witnesses o))
    (filter (λ w, 0 < pow_worker w) (merge_sort by_pow ws)) in
  let ids := ids ++ (witness_id <$> miners) in
  let '(runners, processed, t) := run skip_disabled ids
    (Z.to_nat HIVE_MAX_WITNESSES - length ids) (current_virtual_time o)
    (merge_sort by_schedule_time ws) in
  Selection voted miners queue runners processed t.

Definition mark_selected (sel : selection) (ws : list scheduled_witness) : list scheduled_witness :=
  let ws := modify_witnesses (witness_id <$> sel_elected sel) (set_witness_schedule_type elected) ws in
  let ws := modify_witnesses (witness_id <$> sel_miners sel) (set_witness_schedule_type miner) ws in
  let ws := modify_witnesses (witness_id <$> sel_queue sel) (set_pow_worker 0) ws in
  modify_witnesses (witness_id <$> sel_runners sel) (set_witness_schedule_type timeshare) ws.

Definition update_witness_schedule4 (next : bool) (s : schedule_state) : result schedule_state :=
  let o := get_schedule next s in
  let sel := select_witnesses (hardfork_active HIVE_HARDFORK_0_14__278 s) o (witness_index s) in
  let s := set_num_pow_witnesses
    (u32 (num_pow_witnesses s - Z.of_nat (length (sel_queue sel))))
    (set_witness_index (mark_selected sel (witness_index s)) s) in
  '(ws, reset) ← advance (sel_time sel) (sel_processed sel) (witness_index s);
  let s := set_witness_index ws s in
  s ← (if reset : bool then reset_virtual_schedule_time s else Ok s);
  let virtual_time := if reset : bool then 0 else sel_time sel in
  let active := owner <$> sel_elected sel ++ sel_miners sel ++ sel_runners sel in
  fc_assert (Z.of_nat (length active) =?
      Z.min HIVE_MAX_WITNESSES (Z.of_nat (length (witness_index s))))
    "number of active witnesses does not equal expected_active_witnesses" ;;
  '(majority, h) ← count_versions next s;
  let s := set_hardfork_properties h s in
  o ← install active (Z.of_nat (length (sel_elected sel))) (Z.of_nat (length (sel_miners sel)))
    virtual_time majority s (get_schedule next s);
  update_median_witness_props next (set_schedule next o s).

(** [resource_credits::set_pool_params]; [find_msb] is that of Boost. *)
Definition set_pool_params (find_msb : Z → Z) (o : witness_schedule_object) (s : schedule_state) :
    result schedule_state :=
  if decide (resource_dynamics_params (new_accounts_params s) = account_subsidy_rd o) then Ok s
  else
    curve ← generate_rc_curve_params find_msb (account_subsidy_rd o) default_gen_params;
    Ok (set_new_accounts_params (RcResourceParams (account_subsidy_rd o) curve) s).

(** ** The schedule before hardfork 4 *)

(** The most voted witnesses that are not miners, and the one in turn. *)
Fixpoint take_voted (n : nat) (l : list scheduled_witness) : list scheduled_witness :=
  match l, n with
  | [], _ | _, O => []
  | w :: l', S n' => if negb (pow_worker w =? 0) then take_voted n l' else w :: take_voted n' l'
  end.

Definition legacy_voted (s : schedule_state) :
    result (list account_name_type * list scheduled_witness * Z) :=
  let voted := take_voted (Z.to_nat (HIVE_MAX_WITNESSES - 2)) (merge_sort by_vote_name (witness_index s)) in
  let ws := modify_witnesses (witness_id <$> voted)
    (λ o, set_voting (WitnessObject (votes (voting o)) (virtual_last_update (voting o))
            (virtual_position (voting o)) u128_max) o) (witness_index s) in
  match list_find (λ w, pow_worker w = 0) (merge_sort by_schedule_time ws) with
  | None => Ok (owner <$> voted, ws, 0)
  | Some (_, w) =>
      let t := virtual_scheduled_time (voting w) in
      speed ← signed64 (votes (voting w) + 1);
      lap ← udiv (if hardfork_active HIVE_HARDFORK_0_2 s then HIVE_VIRTUAL_SCHEDULE_LAP_LENGTH2
                  else HIVE_VIRTUAL_SCHEDULE_LAP_LENGTH) (u128 speed);
      Ok ((owner <$> voted) ++ [owner w],
          modify_witnesses [witness_id w]
            (λ o, set_voting (WitnessObject (votes (voting o)) (virtual_last_update (voting o)) 0
                    (u128 (t + lap))) o) ws,
          if t =? u128_max then 0 else t)
  end.

(** The miners that are added: all of them at first, then one in each round. *)
Fixpoint take_miners (one : bool) (count : Z) (l : list scheduled_witness) : list account_name_type :=
  match l with
  | [] => []
  | w :: l =>
      owner w :: if one || (HIVE_MAX_WITNESSES <=? count + 1) then [] else take_miners one (count + 1) l
  end.

Definition pow_queue (ws : list scheduled_witness) : list scheduled_witness :=
  filter (λ w, 1 ≤ pow_worker w) (merge_sort by_pow ws).

Definition legacy_schedule (s : schedule_state) : result schedule_state :=
  let voting_started := HIVE_START_MINER_VOTING_BLOCK <? schedule_block_num s in
  let by_votes := (num_pow_witnesses s =? 0) || voting_started in
  '(active, ws, t) ← (if by_votes then legacy_voted s else Ok ([], witness_index s, 0));
  let s := set_witness_index ws s in
  let s :=
    if HIVE_MAX_WITNESSES <? num_pow_witnesses s then
      match pow_queue (witness_index s) with
      | [] => s
      | w :: _ => set_num_pow_witnesses (u32 (num_pow_witnesses s - 1))
                    (set_witness_index (modify_witnesses [witness_id w] (set_pow_worker 0)
                       (witness_index s)) s)
      end
    else s in
  let active := active ++ take_miners voting_started (Z.of_nat (length active))
    (pow_queue (witness_index s)) in
  let o := schedule_now s in
  let n := Z.max (u8 (Z.of_nat (length active))) 1 in
  shuffled ← shuffle (schedule_time s) n
    (active ++ replicate (Z.to_nat HIVE_MAX_WITNESSES - length active) ""%string);
  let by_votes := (num_pow_witnesses s =? 0) || voting_started in
  let o := WitnessScheduleObject (if by_votes then t else current_virtual_time o)
    (u32 (schedule_block_num s + n)) shuffled n (elected_weight o) (timeshare_weight o)
    (miner_weight o) (witness_pay_normalization_factor o) (median_props o) (majority_version o)
    (max_voted_witnesses o) (max_miner_witnesses o) (max_runner_witnesses o)
    (hardfork_required_witnesses o) (account_subsidy_rd o) (account_subsidy_witness_rd o)
    (min_witness_account_subsidy_decay o) in
  update_median_witness_props false (set_schedule false o s).

Definition update_witness_schedule (find_msb : Z → Z) (s : schedule_state) : result schedule_state :=
  if schedule_block_num s mod HIVE_MAX_WITNESSES =? 0 then
    if hardfork_active HIVE_HARDFORK_0_4 s then
      s ← (if hardfork_active HIVE_HARDFORK_1_26 s then
             let s := set_schedule false (schedule_next s) s in
             let s := if hardfork_active HIVE_HARDFORK_1_28_GLOBAL_WITNESS_PROPS s
                      then update_global_witness_properties (median_props (schedule_now s)) s else s in
             update_witness_schedule4 true s
           else update_witness_schedule4 false s);
      if hardfork_active HIVE_HARDFORK_0_20 s
      then set_pool_params find_msb (schedule_now s) s else Ok s
    else legacy_schedule s
  else Ok s.
