(* ===== verification/WitnessSelection.v ===== *)
(** * Who is scheduled

    The loops of [WitnessSchedule] over the sorted indices: what they select, in which order, and
    that the shuffle permutes it. *)

From S2P Require Import Prelude Safe Account Governance OperationTypes WitnessSchedule.
Open Scope Z_scope.

(** ** The shuffle is a permutation *)

Lemma swap_permutation {A} (i j : nat) (a b : A) l :
  l !! i = Some a → l !! j = Some b → <[j := a]> (<[i := b]> l) ≡ₚ l.
Proof.
  intros Hi Hj. destruct (decide (i = j)) as [->|Hne].
  { simplify_eq. by rewrite !list_insert_id by (rewrite ?list_lookup_insert_eq; eauto using lookup_lt_Some). }
  assert (i < length l)%nat by by eapply lookup_lt_Some.
  assert (j < length l)%nat by by eapply lookup_lt_Some.
  apply Permutation_inj. rewrite !length_insert. split; [done|].
  exists (λ k, if decide (k = i) then j else if decide (k = j) then i else k). split.
  - intros x y. repeat case_decide; congruence.
  - intros k. destruct (decide (k = j)) as [->|Hkj].
    + rewrite list_lookup_insert_eq by (rewrite length_insert; lia). by rewrite decide_False.
    + rewrite list_lookup_insert_ne by done. destruct (decide (k = i)) as [->|Hki].
      * by rewrite list_lookup_insert_eq by lia.
      * by rewrite list_lookup_insert_ne.
Qed.

(** The first [n] entries are permuted, the others stay. *)
Record shuffled_from (n : nat) (l l' : list account_name_type) : Prop := {
  shuffled_front : take n l' ≡ₚ take n l;
  shuffled_back : drop n l' = drop n l
}.

Lemma shuffled_length n l l' : shuffled_from n l l' → length l' = length l.
Proof.
  intros [Hf Hb]. rewrite <- (take_drop n l), <- (take_drop n l'), !length_app, Hb.
  by rewrite (Permutation_length Hf).
Qed.

Lemma shuffle_step_exact h n l i :
  0 ≤ i < n → n ≤ 255 → n ≤ Z.of_nat (length l) →
  ∃ l', shuffle_step h n l i = Ok l' ∧ shuffled_from (Z.to_nat n) l l'.
Proof.
  intros Hi Hn Hl. unfold shuffle_step, urem. rewrite u32_id by (unfold u32_max; lia).
  rewrite (proj2 (Z.eqb_neq _ _)) by lia. cbn [mbind result_bind].
  set (k := shuffle_random h i mod (n - i)).
  assert (0 ≤ k < n - i) as Hk by (apply Z.mod_pos_bound; lia).
  rewrite u32_id by (unfold u32_max; lia). unfold swap_entries.
  destruct (lookup_lt_is_Some_2 l (Z.to_nat i)) as [a Ha]; [lia|].
  destruct (lookup_lt_is_Some_2 l (Z.to_nat (i + k))) as [b Hb]; [lia|].
  rewrite Ha, Hb. cbn. eexists. split; [done|]. split.
  - rewrite !take_insert_lt by lia. apply swap_permutation.
    + rewrite lookup_take_lt by lia. done.
    + rewrite lookup_take_lt by lia. done.
  - by rewrite !drop_insert_lt by lia.
Qed.

Lemma shuffle_exact t n l : 0 ≤ n ≤ 255 → n ≤ Z.of_nat (length l) →
  ∃ l', shuffle t n l = Ok l' ∧ shuffled_from (Z.to_nat n) l l'.
Proof.
  intros Hn Hl. unfold shuffle.
  assert (∀ js, Forall (λ i, 0 ≤ i < n) js → ∀ m, n ≤ Z.of_nat (length m) →
    ∃ l', foldM (shuffle_step (u64 (Z.shiftl t 32)) n) m js = Ok l' ∧ shuffled_from (Z.to_nat n) m l') as H.
  { induction 1 as [|i js Hi _ IH]; intros m Hm; cbn [foldM]; [by exists m|].
    destruct (shuffle_step_exact (u64 (Z.shiftl t 32)) n m i Hi ltac:(lia) Hm) as (m1 & -> & S1).
    cbn [mbind result_bind]. destruct (IH m1) as (m2 & H2 & S2); [by rewrite (shuffled_length _ _ _ S1)|].
    exists m2. split; [done|]. destruct S1 as [F1 B1], S2 as [F2 B2]. split; [by rewrite F2|congruence]. }
  apply H; [|done]. apply Forall_forall. intros i Hi%elem_of_seqZ. lia.
Qed.

(** ** The orders of the index *)

Lemma string_ltb_neg_trans a b c :
  String.ltb b a = false → String.ltb c b = false → String.ltb c a = false.
Proof.
  revert b c. unfold String.ltb.
  induction a as [|x a IH]; intros [|y b] [|z c]; cbn; try done.
  unfold Ascii.compare. intros H1 H2.
  destruct (N.compare_spec (Ascii.N_of_ascii y) (Ascii.N_of_ascii x)) as [Hyx|Hyx|Hyx]; try done;
    destruct (N.compare_spec (Ascii.N_of_ascii z) (Ascii.N_of_ascii y)) as [Hzy|Hzy|Hzy]; try done;
    destruct (N.compare_spec (Ascii.N_of_ascii z) (Ascii.N_of_ascii x)) as [Hzx|Hzx|Hzx];
    try done; try lia.
  by apply (IH b c).
Qed.

Lemma string_ltb_asym a b : String.ltb a b = true → String.ltb b a = false.
Proof.
  unfold String.ltb. rewrite (String.compare_antisym b a). by destruct (String.compare a b).
Qed.

#[export] Instance by_vote_name_total : Total by_vote_name.
Proof.
  intros a b. unfold by_vote_name.
  destruct (Z.lt_total (votes (voting a)) (votes (voting b))) as [?|[?|?]]; [by right; left| |by left; left].
  destruct (String.ltb (owner b) (owner a)) eqn:E; [|left; right; by split].
  right; right. split; [done|]. by apply string_ltb_asym.
Qed.
#[export] Instance by_vote_name_trans : Transitive by_vote_name.
Proof.
  intros a b c. unfold by_vote_name. intros [H1|[H1 H1']] [H2|[H2 H2']]; try (left; lia).
  right. split; [lia|]. by apply (string_ltb_neg_trans _ (owner b)).
Qed.
#[export] Instance by_pow_total : Total by_pow.
Proof. intros a b. unfold by_pow. lia. Qed.
#[export] Instance by_pow_trans : Transitive by_pow.
Proof. intros a b c. unfold by_pow. lia. Qed.
#[export] Instance by_schedule_time_total : Total by_schedule_time.
Proof. intros a b. unfold by_schedule_time. lia. Qed.
#[export] Instance by_schedule_time_trans : Transitive by_schedule_time.
Proof. intros a b c. unfold by_schedule_time. lia. Qed.

(** ** The loops *)

Section loops.
Context (sk : bool).

Definition enabled (w : scheduled_witness) : Prop := passed_over sk w = false.
#[export] Instance enabled_dec w : Decision (enabled w).
Proof. unfold enabled. apply _. Defined.

(** Able to be selected beside those with the ids [ids]. *)
Definition eligible (ids : list Z) (w : scheduled_witness) : Prop :=
  enabled w ∧ witness_id w ∉ ids.
#[export] Instance eligible_dec ids w : Decision (eligible ids w).
Proof. unfold eligible. apply _. Defined.

Lemma elect_exact n l : elect sk n l = take n (filter enabled l).
Proof.
  revert n. induction l as [|w l IH]; intros [|n]; cbn [elect]; try done.
  rewrite filter_cons. destruct (decide (enabled w)) as [E|E]; unfold enabled in E.
  - rewrite E. cbn. by rewrite IH.
  - destruct (passed_over sk w); [|done]. apply (IH (S n)).
Qed.

(** What a loop over [l] leaves: the processed front of [l], of which those that satisfy [P] are
    selected, up to [n]. *)
Record loop_result (P : scheduled_witness → Prop) `{∀ w, Decision (P w)} (n : nat)
    (l selected processed : list scheduled_witness) : Prop := {
  loop_front : ∃ rest, l = processed ++ rest ∧ (length selected = n ∨ rest = []);
  loop_selected : selected = filter P processed;
  loop_bound : (length selected ≤ n)%nat
}.

Lemma loop_selects P `{∀ w, Decision (P w)} n l selected processed :
  loop_result P n l selected processed → selected = take n (filter P l).
Proof.
  intros [(rest & -> & Hr) Hs Hb]. rewrite filter_app, <- Hs. destruct Hr as [<-| ->].
  - by rewrite take_app_length.
  - rewrite filter_nil, app_nil_r. by rewrite take_ge.
Qed.

(** One more step of a loop. *)
Lemma loop_step P `{∀ w, Decision (P w)} n l selected processed w :
  loop_result P n l selected processed →
  if decide (P w) then loop_result P (S n) (w :: l) (w :: selected) (w :: processed)
  else (0 < n)%nat → loop_result P n (w :: l) selected (w :: processed).
Proof.
  intros [(rest & -> & Hr) Hs Hb]. case_decide as Hw; [|intros Hn]; split.
  - exists rest. split; [done|]. cbn. destruct Hr as [->| ->]; auto.
  - rewrite filter_cons, decide_True by done. by rewrite Hs.
  - cbn. lia.
  - exists rest. split; [done|]. done.
  - by rewrite filter_cons, decide_False.
  - done.
Qed.

Lemma loop_empty P `{∀ w, Decision (P w)} n : loop_result P n [] [] [].
Proof. split; [exists []; auto|done|cbn; lia]. Qed.
Lemma loop_stop P `{∀ w, Decision (P w)} l : loop_result P 0 l [] [].
Proof. split; [exists l; auto|done|cbn; lia]. Qed.

Lemma mine_exact ids n l :
  loop_result (eligible ids) n l (mine sk ids n l).1 (mine sk ids n l).2.
Proof.
  revert n. induction l as [|w l IH]; intros [|n]; cbn [mine]; [apply loop_empty..|apply loop_stop|].
  pose proof (loop_step (eligible ids) _ _ _ _ w (IH (S n))) as H1.
  pose proof (loop_step (eligible ids) _ _ _ _ w (IH n)) as H2.
  destruct (mine sk ids (S n) l) as [m1 p1], (mine sk ids n l) as [m2 p2]. cbn [fst snd] in *.
  destruct (decide (witness_id w ∈ ids)) as [Hin|Hin].
  { rewrite decide_False in H1 by (by intros []). apply H1. lia. }
  destruct (passed_over sk w) eqn:Ep.
  { rewrite decide_False in H1 by (intros [He _]; unfold enabled in He; congruence). apply H1. lia. }
  by rewrite decide_True in H2 by done.
Qed.

Lemma run_exact ids n t l :
  loop_result (eligible ids) n l (run sk ids n t l).1.1 (run sk ids n t l).1.2.
Proof.
  revert n t. induction l as [|w l IH]; intros [|n] t; cbn [run]; [apply loop_empty..|apply loop_stop|].
  set (t' := virtual_scheduled_time (voting w)).
  pose proof (loop_step (eligible ids) _ _ _ _ w (IH (S n) t')) as H1.
  pose proof (loop_step (eligible ids) _ _ _ _ w (IH n t')) as H2.
  destruct (run sk ids (S n) t' l) as [ [m1 p1] t1], (run sk ids n t' l) as [ [m2 p2] t2].
  cbn [fst snd] in *. destruct (passed_over sk w) eqn:Ep.
  { rewrite decide_False in H1 by (intros [He _]; unfold enabled in He; congruence). apply H1. lia. }
  destruct (decide (witness_id w ∈ ids)) as [Hin|Hin].
  { rewrite decide_False in H1 by (by intros []). apply H1. lia. }
  by rewrite decide_True in H2 by done.
Qed.

(** The new virtual time is that of the last witness that was processed. *)
Lemma run_time ids n t l :
  (run sk ids n t l).2 = default t (virtual_scheduled_time ∘ voting <$> last (run sk ids n t l).1.2).
Proof.
  revert n t. induction l as [|w l IH]; intros [|n] t; cbn [run]; try done.
  set (t' := virtual_scheduled_time (voting w)).
  assert (∀ (p : list scheduled_witness), default t (virtual_scheduled_time ∘ voting <$> last (w :: p))
    = default t' (virtual_scheduled_time ∘ voting <$> last p)) as Hlast.
  { intros p. rewrite last_cons. by destruct (last p). }
  pose proof (IH (S n) t') as H1. pose proof (IH n t') as H2.
  destruct (run sk ids (S n) t' l) as [ [m1 p1] t1], (run sk ids n t' l) as [ [m2 p2] t2].
  cbn [fst snd] in *. repeat case_match; simplify_eq; cbn [fst snd]; by rewrite Hlast.
Qed.

End loops.

(** ** The selection of a round *)

Definition active_of (sel : selection) : list scheduled_witness :=
  sel_elected sel ++ sel_miners sel ++ sel_runners sel.

Abbreviation ids l := (witness_id <$> l).

Lemma sublist_ids l l' : l `sublist_of` l' → NoDup (ids l') → NoDup (ids l).
Proof. intros Hs Hn. eapply sublist_NoDup; [done|]. by apply (fmap_sublist witness_id). Qed.

Lemma sorted_ids R `{∀ a b, Decision (R a b)} l : NoDup (ids l) → NoDup (ids (merge_sort R l)).
Proof. by rewrite merge_sort_Permutation. Qed.

Lemma StronglySorted_filter {A} (R : relation A) (P : A → Prop) `{∀ x, Decision (P x)} l :
  StronglySorted R l → StronglySorted R (filter P l).
Proof.
  induction 1 as [|x l _ IH Hx]; [constructor|]. rewrite filter_cons. case_decide; [|done].
  constructor; [done|]. apply Forall_forall. intros y [_ Hy]%list_elem_of_filter.
  by eapply (proj1 (Forall_forall _ _)) in Hx.
Qed.

Lemma same_id ws v w : NoDup (ids ws) → v ∈ ws → w ∈ ws → witness_id v = witness_id w → v = w.
Proof.
  intros Hn (i & Hi)%list_elem_of_lookup (j & Hj)%list_elem_of_lookup E.
  assert (i = j) as ->; [|congruence].
  eapply (NoDup_lookup _ _ _ (witness_id v) Hn); rewrite list_lookup_fmap, ?Hi, ?Hj; cbn; congruence.
Qed.

Section selection_spec.
Context (sk : bool) (o : witness_schedule_object) (ws : list scheduled_witness).
Context (Hid : NoDup (ids ws)).
Context (Hroom : 0 ≤ max_voted_witnesses o ∧ 0 ≤ max_miner_witnesses o ∧
  max_voted_witnesses o + max_miner_witnesses o ≤ HIVE_MAX_WITNESSES).

Abbreviation sel := (select_witnesses sk o ws).
Abbreviation by_votes := (merge_sort by_vote_name ws).
Abbreviation by_time := (merge_sort by_schedule_time ws).
Abbreviation queue := (filter (λ w, 0 < pow_worker w) (merge_sort by_pow ws)).

Lemma selected_loops :
  sel_elected sel = take (Z.to_nat (max_voted_witnesses o)) (filter (enabled sk) by_votes) ∧
  loop_result (eligible sk (ids (sel_elected sel))) (Z.to_nat (max_miner_witnesses o)) queue
    (sel_miners sel) (sel_queue sel) ∧
  loop_result (eligible sk (ids (sel_elected sel) ++ ids (sel_miners sel)))
    (Z.to_nat HIVE_MAX_WITNESSES - length (ids (sel_elected sel) ++ ids (sel_miners sel)))
    by_time (sel_runners sel) (sel_processed sel) ∧
  sel_time sel = default (current_virtual_time o)
    (virtual_scheduled_time ∘ voting <$> last (sel_processed sel)).
Proof using.
  unfold select_witnesses. set (voted := elect sk _ _).
  pose proof (mine_exact sk (ids voted) (Z.to_nat (max_miner_witnesses o)) queue) as Hm.
  destruct (mine sk _ _ _) as [miners q]. cbn [fst snd] in Hm.
  set (all := ids voted ++ ids miners).
  pose proof (run_exact sk all (Z.to_nat HIVE_MAX_WITNESSES - length all) (current_virtual_time o)
    by_time) as Hr.
  pose proof (run_time sk all (Z.to_nat HIVE_MAX_WITNESSES - length all) (current_virtual_time o)
    by_time) as Ht.
  destruct (run sk _ _ _ _) as [ [runners processed] t]. cbn [fst snd] in Hr, Ht.
  cbn [sel_elected sel_miners sel_queue sel_runners sel_processed sel_time].
  split_and!; [apply elect_exact|done..].
Qed.

(** The parts of the selection come from the index, are enabled, and do not overlap. *)
Lemma selected_members :
  (∀ w, w ∈ active_of sel → w ∈ ws ∧ enabled sk w) ∧ NoDup (ids (active_of sel)) ∧
  sel_processed sel `sublist_of` by_time.
Proof using Hid.
  clear Hroom. destruct selected_loops as (He & [(r1 & Hq & _) Hm _] & [(r2 & Ht & _) Hr _] & _).
  assert (sel_processed sel `sublist_of` by_time) as Hp by (rewrite Ht; by apply sublist_inserts_r).
  assert (sel_queue sel `sublist_of` merge_sort by_pow ws) as Hqs.
  { eapply (transitivity (y := filter (λ w, 0 < pow_worker w) (merge_sort by_pow ws))); [rewrite Hq; by apply sublist_inserts_r|apply sublist_filter]. }
  assert (∀ l R (D : ∀ a b, Decision (R a b)), l `sublist_of` merge_sort R ws → ∀ w, w ∈ l → w ∈ ws) as Hin.
  { intros l R D Hs w Hw. rewrite <- (merge_sort_Permutation R ws). by eapply elem_of_sublist. }
  split; [|split; [|done]].
  - intros w Hw. unfold active_of in Hw. apply elem_of_app in Hw as [Hw|Hw].
    + rewrite He in Hw. apply elem_of_take in Hw as (i & Hw & _).
      apply list_elem_of_lookup_2, list_elem_of_filter in Hw as [Hen Hw].
      by rewrite merge_sort_Permutation in Hw.
    + apply elem_of_app in Hw as [Hw|Hw]; [rewrite Hm in Hw|rewrite Hr in Hw];
        apply list_elem_of_filter in Hw as [ [Hen _] Hw]; (split; [|done]);
        [by apply (Hin _ _ _ Hqs)|by apply (Hin _ _ _ Hp)].
  - unfold active_of. rewrite !fmap_app, !NoDup_app. split_and!.
    + rewrite He. eapply sublist_ids; [apply sublist_take|]. eapply sublist_ids; [apply sublist_filter|].
      by apply sorted_ids.
    + intros i Hi [Hj|Hj]%elem_of_app; apply list_elem_of_fmap in Hj as (w & -> & Hw);
        [rewrite Hm in Hw|rewrite Hr in Hw]; apply list_elem_of_filter in Hw as [ [_ Hno] _]; set_solver.
    + rewrite Hm. eapply sublist_ids; [apply sublist_filter|]. eapply sublist_ids; [done|]. by apply sorted_ids.
    + intros i Hi Hj. apply list_elem_of_fmap in Hj as (w & -> & Hw). rewrite Hr in Hw.
      apply list_elem_of_filter in Hw as [ [_ Hno] _]. set_solver.
    + rewrite Hr. eapply sublist_ids; [apply sublist_filter|]. eapply sublist_ids; [done|]. by apply sorted_ids.
Qed.

(** The number of active witnesses. *)
Lemma selected_length :
  length (active_of sel) = Nat.min 21 (length (filter (enabled sk) ws)).
Proof using Hid Hroom.
  destruct selected_members as (Hin & Hnd & _).
  destruct selected_loops as (He & [_ _ Hmb] & [(rest & Ht & Hrest) Hr Hrb] & _).
  assert (active_of sel ⊆+ filter (enabled sk) ws) as Hsub.
  { apply NoDup_submseteq; [by eapply NoDup_fmap_1|]. intros w Hw. apply list_elem_of_filter.
    destruct (Hin w Hw). done. }
  pose proof (submseteq_length _ _ Hsub) as Hle.
  assert (length (sel_elected sel) ≤ Z.to_nat (max_voted_witnesses o))%nat as Hlv.
  { rewrite He, length_take. lia. }
  assert (length (active_of sel) = length (sel_elected sel) + length (sel_miners sel) +
    length (sel_runners sel))%nat as Hlen by (unfold active_of; rewrite !length_app; lia).
  rewrite length_app, !length_fmap in Hrb, Hrest. unfold HIVE_MAX_WITNESSES in *.
  destruct Hrest as [Hfull| ->]; [lia|].
  assert (filter (enabled sk) ws ⊆+ active_of sel) as Hsup.
  { apply NoDup_submseteq; [apply NoDup_filter; by eapply NoDup_fmap_1|].
    intros w [Hen Hw]%list_elem_of_filter. unfold active_of.
    destruct (decide (witness_id w ∈ ids (sel_elected sel) ++ ids (sel_miners sel))) as [Hv|Hno].
    - rewrite <- fmap_app in Hv. apply list_elem_of_fmap in Hv as (v & E & Hv).
      assert (v ∈ ws) as Hvw by (apply Hin; unfold active_of; set_solver).
      rewrite (same_id ws w v Hid Hw Hvw E). set_solver.
    - rewrite (assoc (++)). apply elem_of_app. right. rewrite Hr. apply list_elem_of_filter.
      rewrite app_nil_r in Ht. rewrite <- Ht, merge_sort_Permutation. by split. }
  pose proof (submseteq_length _ _ Hsup). lia.
Qed.

(** The elected have at least the votes of everyone else that is enabled. *)
Lemma elected_top e w : e ∈ sel_elected sel → w ∈ ws → enabled sk w → w ∉ sel_elected sel →
  by_vote_name e w.
Proof using.
  destruct selected_loops as (He & _). intros Hein Hw Hen Hno. rewrite He in Hein, Hno.
  set (l := filter (enabled sk) by_votes) in *. set (n := Z.to_nat (max_voted_witnesses o)) in *.
  assert (StronglySorted by_vote_name l) as Hs.
  { apply StronglySorted_filter, StronglySorted_merge_sort; apply _. }
  assert (w ∈ l) as Hwl by (apply list_elem_of_filter; split; [done|by rewrite merge_sort_Permutation]).
  rewrite <- (take_drop n l) in Hs, Hwl. apply elem_of_app in Hwl as [|Hwd]; [done|].
  by eapply (StronglySorted_app_1_elem_of by_vote_name).
Qed.

(** Those that were processed precede the others in virtual time. *)
Lemma processed_first p w : p ∈ sel_processed sel → w ∈ ws → w ∉ sel_processed sel →
  by_schedule_time p w.
Proof using.
  destruct selected_loops as (_ & _ & [(rest & Ht & _) _ _] & _). intros Hp Hw Hno.
  assert (StronglySorted by_schedule_time by_time) as Hs by (apply StronglySorted_merge_sort; apply _).
  rewrite <- (merge_sort_Permutation by_schedule_time ws), Ht in Hw.
  apply elem_of_app in Hw as [|Hwr]; [done|]. rewrite Ht in Hs.
  by eapply (StronglySorted_app_1_elem_of by_schedule_time).
Qed.

Lemma processed_bound p : p ∈ sel_processed sel → virtual_scheduled_time (voting p) ≤ sel_time sel.
Proof using.
  destruct selected_loops as (_ & _ & [(rest & Ht & _) _ _] & Hlast). intros Hp.
  assert (StronglySorted by_schedule_time by_time) as Hs by (apply StronglySorted_merge_sort; apply _).
  rewrite Ht in Hs. apply StronglySorted_app_1_l in Hs.
  rewrite Hlast. destruct (last (sel_processed sel)) as [z|] eqn:Hz.
  2: { apply last_None in Hz. rewrite Hz in Hp. by apply elem_of_nil in Hp. }
  cbn. apply last_Some in Hz as (l & Hl). rewrite Hl in Hs, Hp.
  apply elem_of_app in Hp as [Hp|Hp]; [|by apply list_elem_of_singleton in Hp as ->].
  assert (by_schedule_time p z) as Hb; [|unfold by_schedule_time in Hb; lia].
  eapply (StronglySorted_app_1_elem_of by_schedule_time l [z]); [done..|]. by left.
Qed.

(** An enabled witness that is not selected waits for one that is due no later. *)
Lemma turn_of_another w : w ∈ ws → enabled sk w → w ∉ active_of sel →
  (length (active_of sel) = 21)%nat ∧
  ((length (sel_elected sel ++ sel_miners sel) < 21)%nat →
   ∃ r, r ∈ sel_runners sel ∧ r ∈ sel_processed sel ∧ by_schedule_time r w) ∧
  w ∉ sel_processed sel.
Proof using Hid Hroom.
  intros Hw Hen Hno. destruct selected_members as (Hin & _ & _).
  assert (∀ v, v ∈ active_of sel → witness_id v ≠ witness_id w) as Hids.
  { intros v Hv E. apply Hno. rewrite <- (same_id ws v w Hid); [done|by apply Hin|done..]. }
  assert (w ∉ sel_processed sel) as Hnp.
  { destruct selected_loops as (_ & _ & [_ Hr _] & _). intros Hp. apply Hno.
    unfold active_of. rewrite !elem_of_app. right; right. rewrite Hr. apply list_elem_of_filter.
    split; [|done]. split; [done|]. rewrite <- fmap_app. intros (v & E & Hv)%list_elem_of_fmap.
    apply (Hids v); [unfold active_of; set_solver|done]. }
  destruct selected_loops as (He & _ & [(rest & Ht & Hrest) Hr Hrb] & _).
  assert (rest ≠ []) as Hne.
  { intros ->. apply Hnp. rewrite <- (merge_sort_Permutation by_schedule_time ws), Ht in Hw.
    by rewrite app_nil_r in Hw. }
  destruct Hrest as [Hfull|]; [|done]. rewrite <- fmap_app, length_fmap in Hfull.
  assert (length (active_of sel) = length (sel_elected sel ++ sel_miners sel) +
    length (sel_runners sel))%nat as Hlen by (unfold active_of; rewrite !length_app; lia).
  pose proof selected_length. split; [unfold HIVE_MAX_WITNESSES in *; lia|]. split; [|done].
  intros Hlt. destruct (sel_runners sel) as [|r l] eqn:El; [unfold HIVE_MAX_WITNESSES in *; cbn in *; lia|].
  assert (r ∈ sel_processed sel) as Hrp.
  { assert (r ∈ r :: l) as Hrl by left. rewrite Hr in Hrl. by apply list_elem_of_filter in Hrl as [_ ?]. }
  exists r. split; [left|]. split; [done|]. by apply processed_first.
Qed.

End selection_spec.
