(* ===== verification/WitnessMedians.v ===== *)
(** * The medians of the witnesses' properties

    [update_median_witness_props] of [WitnessSchedule]: the value it takes of each property is a
    median, and the parameters of the account subsidies that it sets up from them are always
    valid ([medians_valid]). *)

From S2P Require Import Prelude Safe AssetSymbol Asset Version OperationTypes Operations Account.
From S2P Require Import Governance ResourceDynamics ResourceCost ResourceCount RcDelegations RcCharge.
From S2P Require Import Raw WitnessSchedule WitnessSelection.
Open Scope Z_scope.

(** ** Medians *)

Section median.
Context {A : Type} (key : A → Z).

#[export] Instance key_le_total : Total (key_le key).
Proof using. intros a b. unfold key_le. lia. Qed.
#[export] Instance key_le_trans : Transitive (key_le key).
Proof using. intros a b c. unfold key_le. lia. Qed.

(** No more than half of the values lie below it, and less than half above. *)
Definition is_median (l : list A) (m : Z) : Prop :=
  (2 * length (filter (λ x, (key x < m)%Z) l) ≤ length l)%nat ∧
  (2 * length (filter (λ x, (m < key x)%Z) l) < length l)%nat.

Lemma median_spec l : l ≠ [] → ∃ m, median key l = Ok m ∧ m ∈ l ∧ is_median l (key m).
Proof using.
  intros Hne. unfold median. set (s := merge_sort (key_le key) l).
  assert (s ≡ₚ l) as Hp by apply merge_sort_Permutation.
  assert (StronglySorted (key_le key) s) as Hs by (apply StronglySorted_merge_sort; apply _).
  assert (0 < length l)%nat as Hpos by (destruct l; cbn; [done|lia]).
  pose proof (Nat.div_lt (length l) 2 ltac:(lia) ltac:(lia)) as Hlt.
  pose proof (Nat.div_mod (length l) 2 ltac:(lia)) as Hdm.
  pose proof (Nat.mod_upper_bound (length l) 2 ltac:(lia)) as Hmu.
  set (k := (length l / 2)%nat) in *.
  destruct (lookup_lt_is_Some_2 s k) as [m Hm]; [by rewrite Hp|].
  rewrite Hm. exists m. split; [done|]. split; [rewrite <- Hp; by eapply list_elem_of_lookup_2|].
  assert (length s = length l) as Hl by by rewrite Hp.
  rewrite <- (take_drop_middle s k m Hm) in Hs, Hp.
  set (a := take k s) in *. set (b := drop (S k) s) in *.
  assert (length a = k) as Hla by (unfold a; rewrite length_take; lia).
  assert (length b = length l - S k)%nat as Hlb by (unfold b; rewrite length_drop; lia).
  assert (∀ x, x ∈ a → key x ≤ key m) as Ha.
  { intros x Hx. eapply (StronglySorted_app_1_elem_of (key_le key) a (m :: b)); [done..|]. left. }
  assert (∀ x, x ∈ b → key m ≤ key x) as Hb.
  { intros x Hx. apply StronglySorted_app_1_r in Hs. inversion_clear Hs as [|? ? _ Hf].
    by eapply (proj1 (Forall_forall _ _)) in Hf. }
  split.
  - rewrite <- Hp, filter_app, filter_cons_False by (cbn; lia).
    rewrite (filter_none _ b) by (intros x Hx%Hb; cbn; lia). rewrite app_nil_r.
    pose proof (filter_length_bound (λ x, key x < key m) a). rewrite length_app. cbn [length]. lia.
  - rewrite <- Hp, filter_app, filter_cons_False by (cbn; lia).
    rewrite (filter_none _ a) by (intros x Hx%Ha; cbn; lia). cbn [app].
    pose proof (filter_length_bound (λ x, key m < key x) b). rewrite length_app. cbn [length]. lia.
Qed.

End median.

(** ** The subsidies *)

(** The bounds that [validate] asks of the budget and the decay. *)
Definition valid_user (u : rd_user_params) : Prop :=
  HIVE_RD_MIN_BUDGET ≤ user_budget u ≤ HIVE_RD_MAX_BUDGET ∧
  HIVE_RD_MIN_DECAY ≤ user_decay u ≤ HIVE_RD_MAX_DECAY.

Lemma witness_user_balanced u : valid_user u →
  balanced_user u ∧ balanced_user (witness_user_params u).
Proof.
  unfold valid_user, balanced_user, witness_user_params.
  change HIVE_RD_MAX_BUDGET with 268435455. change HIVE_RD_MIN_DECAY with 64.
  change HIVE_RD_MIN_BUDGET with 1. change HIVE_RD_MAX_DECAY with 4294967295.
  change HIVE_WITNESS_SUBSIDY_BUDGET_PERCENT with 12500.
  change HIVE_WITNESS_SUBSIDY_DECAY_PERCENT with 210000. change HIVE_100_PERCENT with 10000.
  cbn [user_budget user_decay]. intros [Hb Hd]. unfold cdiv. rewrite Z.quot_div_nonneg by lia.
  pose proof (div_bracket (user_budget u * 12500) 10000 ltac:(lia)) as H1.
  rewrite u64_id by (limits; lia).
  pose proof (div_bracket (user_decay u * 210000) 10000 ltac:(lia)) as H2.
  set (x := user_budget u * 12500 / 10000) in *. set (y := user_decay u * 210000 / 10000) in *.
  rewrite i32_id, u32_id by (limits; lia). limits. lia.
Qed.

(** The subsidies of all witnesses and of each of them, in balance; the decay of a witness's pool
    has a floor of nine tenths of the decay at the median level. *)
Record subsidies_ok (u : rd_user_params) (level : Z) (rd witness_rd : rd_dynamics_params) : Prop := {
  subsidies_all : ∃ d, rd = balanced_params HIVE_ACCOUNT_SUBSIDY_PRECISION d u;
  subsidies_witness : ∃ d, 0 ≤ d ∧
    witness_rd = balanced_params HIVE_ACCOUNT_SUBSIDY_PRECISION d (witness_user_params u) ∧
    (level ≤ pool_eq witness_rd → d < budget_per_time_unit witness_rd)
}.

Lemma decay_negative d p : 0 ≤ d ≤ u32_max → - 2 ^ 62 ≤ p < 0 →
  ∃ x, rd_compute_pool_decay (RdDecayParams d HIVE_RD_DECAY_DENOM_SHIFT) p 1 = Ok x ∧ x ≤ 0.
Proof.
  intros Hd Hp. destruct (decay_exact d Hd (- p) ltac:(limits; lia)) as [He Hb].
  unfold rd_compute_pool_decay in *. rewrite (proj2 (Z.ltb_lt p 0)) by lia.
  rewrite (proj2 (Z.ltb_ge (- p) 0)) in He by lia.
  rewrite signed64_Ok by (limits; lia). cbn [mbind result_bind]. rewrite He. cbn [mbind result_bind].
  rewrite signed64_Ok by (limits; lia). eexists. split; [done|]. lia.
Qed.

Lemma subsidy_params_ok u level o : valid_user u → - 2 ^ 62 ≤ level ≤ 2 ^ 62 →
  ∃ rd witness_rd, subsidy_params (user_budget u) (user_decay u) level o = Ok (rd, witness_rd) ∧
    subsidies_ok u level rd witness_rd.
Proof.
  intros Hv Hl. destruct (witness_user_balanced u Hv) as [[Hb Hd] [Hwb Hwd] ].
  destruct u as [b d]. cbn [user_budget user_decay] in *. unfold subsidy_params.
  assert (rd_validate_user_params (RdUserParams b d) = Ok tt) as ->.
  { destruct Hv as [Hv1 Hv2]. unfold rd_validate_user_params. cbn [user_budget user_decay] in *.
    by rewrite !fc_assert_true by (apply Z.leb_le; lia). }
  cbn [mbind result_bind]. rewrite setup_exact by done. cbn [mbind result_bind].
  destruct (witness_user_params (RdUserParams b d)) as [wb wd] eqn:Ew.
  cbn [user_budget user_decay] in *. rewrite setup_exact by done. cbn [mbind result_bind].
  set (w := balanced_params _ (min_decay (account_subsidy_witness_rd o)) _).
  assert (HIVE_RD_MIN_DECAY = 64) as H64 by done. rewrite H64 in *.
  assert (∃ x, rd_compute_pool_decay (decay_params w) level 1 = Ok x ∧ x ≤ 2 ^ 62 ∧
    (level ≤ pool_eq w → x ≤ wb)) as (x & -> & Hx & Hxb).
  { cbn [w balanced_params decay_params pool_eq user_budget user_decay]. destruct (Z.lt_ge_cases level 0).
    - destruct (decay_negative wd level) as (x & -> & Hx); [lia..|]. exists x. split; [done|]. lia.
    - destruct (decay_exact wd ltac:(lia) level ltac:(limits; lia)) as [-> Hx]. eexists. split; [done|].
      split; [lia|]. intros Hle. rewrite <- (decay_at_eq wb wd) by (done || lia).
      apply Z.div_le_mono; nia. }
  cbn [mbind result_bind]. unfold uint128_to_int64.
  change HIVE_DECAY_BACKSTOP_PERCENT with 9000. change HIVE_100_PERCENT with 10000.
  rewrite u128_id by (limits; lia). set (y := Z.max x 0 * 9000 / 10000).
  pose proof (div_bracket (Z.max x 0 * 9000) 10000 ltac:(lia)) as Hy. fold y in Hy.
  rewrite fc_assert_true by (apply Z.leb_le; limits; lia). cbn [mbind result_bind].
  rewrite i64_id by (limits; lia). eexists _, _. split; [done|]. split; [by eexists|].
  exists y. split; [lia|]. rewrite Ew. split; [done|]. cbn. intros Hle.
  specialize (Hxb Hle). lia.
Qed.

(** ** The index and the schedule *)

Record witness_ok (w : scheduled_witness) : Prop := {
  witness_votes : 0 ≤ votes (voting w) < i64_max;
  witness_times : 0 ≤ virtual_scheduled_time (voting w) ≤ u128_max;
  witness_user : valid_user (RdUserParams (account_subsidy_budget (props w))
                   (account_subsidy_decay (props w)));
  witness_level : - 2 ^ 62 ≤ available_witness_account_subsidies w ≤ 2 ^ 62
}.

Record index_ok (ws : list scheduled_witness) : Prop := {
  index_ids : NoDup (witness_id <$> ws);
  index_owners : NoDup (owner <$> ws);
  index_witnesses : Forall witness_ok ws
}.

(** The scheduled names. *)
Definition scheduled_names (o : witness_schedule_object) : list account_name_type :=
  take (Z.to_nat (num_scheduled_witnesses o)) (current_shuffled_witnesses o).

(** A schedule of known witnesses. *)
Record schedule_known (ws : list scheduled_witness) (o : witness_schedule_object) : Prop := {
  known_size : 1 ≤ num_scheduled_witnesses o ≤ HIVE_MAX_WITNESSES;
  known_length : length (current_shuffled_witnesses o) = 21%nat;
  known_names : ∀ n, n ∈ scheduled_names o → n ∈ owner <$> ws
}.

Lemma get_witness_known n s : n ∈ owner <$> witness_index s →
  ∃ w, get_witness n s = Ok w ∧ w ∈ witness_index s ∧ owner w = n.
Proof.
  intros (w & -> & Hw)%list_elem_of_fmap. unfold get_witness.
  destruct (list_find_elem_of (λ v, owner v = owner w) (witness_index s) w Hw eq_refl) as [[i v] Hf].
  rewrite Hf. cbn. exists v. split; [done|]. apply list_find_Some in Hf as (Hi & Ho & _).
  split; [by eapply list_elem_of_lookup_2|done].
Qed.

Lemma scheduled_known next s : schedule_known (witness_index s) (get_schedule next s) →
  ∃ active, scheduled next s = Ok active ∧ owner <$> active = scheduled_names (get_schedule next s) ∧
    (∀ w, w ∈ active → w ∈ witness_index s) ∧ active ≠ [].
Proof.
  intros [Hn Hl Hk]. unfold scheduled. fold (scheduled_names (get_schedule next s)).
  assert (∀ ns acc, (∀ n, n ∈ ns → n ∈ owner <$> witness_index s) →
    (∀ w, w ∈ acc → w ∈ witness_index s) →
    ∃ active, foldM (λ acc n, w ← get_witness n s; Ok (acc ++ [w])) acc ns = Ok active ∧
      owner <$> active = (owner <$> acc) ++ ns ∧ ∀ w, w ∈ active → w ∈ witness_index s) as H.
  { induction ns as [|n ns IH]; intros acc Hns Hacc; cbn [foldM].
    - exists acc. by rewrite app_nil_r.
    - destruct (get_witness_known n s) as (w & -> & Hw & <-); [apply Hns; left|].
      cbn [mbind result_bind]. destruct (IH (acc ++ [w])) as (active & H1 & H2 & H3).
      + intros m Hm. apply Hns. by right.
      + intros v [Hv| ->%list_elem_of_singleton]%elem_of_app; [by apply Hacc|done].
      + exists active. split; [done|]. rewrite H2, fmap_app, <- (assoc (++)). done. }
  destruct (H (scheduled_names (get_schedule next s)) []) as (active & H1 & H2 & H3);
    [done|by intros w ?%elem_of_nil|].
  exists active. split_and!; [done..|]. intros ->. cbn in H2.
  assert (length (scheduled_names (get_schedule next s)) = 0%nat) as H0 by by rewrite <- H2.
  unfold scheduled_names in H0. rewrite length_take in H0. unfold HIVE_MAX_WITNESSES in *. lia.
Qed.

(** What the medians are taken of, and what they become. *)
Record medians_of (active : list scheduled_witness) (next : bool) (s s' : schedule_state) : Prop := {
  medians_fee : is_median (λ w, amount (account_creation_fee (props w))) active
      (amount (account_creation_fee (median_props (get_schedule next s')))) ∧
    ∃ w, w ∈ active ∧ account_creation_fee (median_props (get_schedule next s'))
      = account_creation_fee (props w);
  medians_size : is_median (λ w, props_maximum_block_size (props w)) active
    (props_maximum_block_size (median_props (get_schedule next s')));
  medians_rate : is_median (λ w, props_hbd_interest_rate (props w)) active
    (props_hbd_interest_rate (median_props (get_schedule next s')));
  medians_budget : is_median (λ w, account_subsidy_budget (props w)) active
    (account_subsidy_budget (median_props (get_schedule next s')));
  medians_decay : is_median (λ w, account_subsidy_decay (props w)) active
    (account_subsidy_decay (median_props (get_schedule next s')));
  medians_subsidies : ∃ level, is_median available_witness_account_subsidies active level ∧
    subsidies_ok (RdUserParams (account_subsidy_budget (median_props (get_schedule next s')))
        (account_subsidy_decay (median_props (get_schedule next s')))) level
      (account_subsidy_rd (get_schedule next s')) (account_subsidy_witness_rd (get_schedule next s'));
  medians_globals : dgpo_maximum_block_size s'
    = if hardfork_active HIVE_HARDFORK_1_28_GLOBAL_WITNESS_PROPS s then dgpo_maximum_block_size s
      else props_maximum_block_size (median_props (get_schedule next s'));
  medians_global_rate : dgpo_hbd_interest_rate s'
    = if hardfork_active HIVE_HARDFORK_1_28_GLOBAL_WITNESS_PROPS s then dgpo_hbd_interest_rate s
      else props_hbd_interest_rate (median_props (get_schedule next s'))
}.

Definition with_medians (next : bool) (p : chain_properties) (rd witness_rd : rd_dynamics_params)
    (s : schedule_state) : schedule_state :=
  let s' := set_schedule next (set_medians p rd witness_rd (get_schedule next s)) s in
  if hardfork_active HIVE_HARDFORK_1_28_GLOBAL_WITNESS_PROPS s then s'
  else update_global_witness_properties p s'.

Lemma with_medians_schedule next p rd witness_rd s :
  get_schedule next (with_medians next p rd witness_rd s)
  = set_medians p rd witness_rd (get_schedule next s) ∧
  witness_index (with_medians next p rd witness_rd s) = witness_index s.
Proof. unfold with_medians. by destruct next, (hardfork_active _ s). Qed.

Lemma update_medians_ok next s :
  index_ok (witness_index s) → schedule_known (witness_index s) (get_schedule next s) →
  ∃ active p rd witness_rd, scheduled next s = Ok active ∧
    owner <$> active = scheduled_names (get_schedule next s) ∧
    update_median_witness_props next s = Ok (with_medians next p rd witness_rd s) ∧
    medians_of active next s (with_medians next p rd witness_rd s).
Proof.
  intros [_ _ Hws] Hk. destruct (scheduled_known next s Hk) as (active & Hs & Hnames & Hin & Hne).
  assert (∀ w, w ∈ active → witness_ok w) as Hok.
  { intros w Hw. by apply (proj1 (Forall_forall _ _) Hws), Hin. }
  destruct (median_spec (λ w, amount (account_creation_fee (props w))) active Hne) as (fee & Hf & Hfin & Hfm).
  destruct (median_spec (λ w, props_maximum_block_size (props w)) active Hne) as (sz & Hz & _ & Hzm).
  destruct (median_spec (λ w, props_hbd_interest_rate (props w)) active Hne) as (rate & Hr & _ & Hrm).
  destruct (median_spec (λ w, account_subsidy_budget (props w)) active Hne) as (bud & Hb & Hbin & Hbm).
  destruct (median_spec (λ w, account_subsidy_decay (props w)) active Hne) as (dec & Hd & Hdin & Hdm).
  destruct (median_spec available_witness_account_subsidies active Hne) as (lev & Hl & Hlin & Hlm).
  set (p := ChainProperties (account_creation_fee (props fee)) (props_maximum_block_size (props sz))
    (props_hbd_interest_rate (props rate)) (account_subsidy_budget (props bud))
    (account_subsidy_decay (props dec))).
  destruct (subsidy_params_ok (RdUserParams (account_subsidy_budget p) (account_subsidy_decay p))
    (available_witness_account_subsidies lev) (get_schedule next s)) as (rd & wrd & Hp & Hsub).
  { pose proof (witness_user bud (Hok bud Hbin)) as [Hv1 _].
    by pose proof (witness_user dec (Hok dec Hdin)) as [_ Hv2]. }
  { apply (witness_level lev (Hok lev Hlin)). }
  cbn [user_budget user_decay] in Hp.
  exists active, p, rd, wrd. split; [done|]. split; [done|].
  destruct (with_medians_schedule next p rd wrd s) as [Hg _]. split.
  - unfold update_median_witness_props.
    rewrite Hs. cbn [mbind result_bind]. rewrite Hf. cbn [mbind result_bind]. rewrite Hz.
    cbn [mbind result_bind]. rewrite Hr. cbn [mbind result_bind]. rewrite Hb.
    cbn [mbind result_bind]. rewrite Hd. cbn [mbind result_bind]. rewrite Hl.
    cbn [mbind result_bind]. fold p. rewrite Hp. cbn [mbind result_bind]. reflexivity.
  - split; rewrite ?Hg; cbn [set_medians median_props account_subsidy_rd account_subsidy_witness_rd]; try done.
    + split; [done|]. by exists fee.
    + exists (available_witness_account_subsidies lev). by split.
    + unfold with_medians. by destruct next, (hardfork_active _ s).
    + unfold with_medians. by destruct next, (hardfork_active _ s).
Qed.
