(* ===== verification/WitnessVotes.v ===== *)
(** * The majority on versions and hardforks

    The counting of versions and hardfork votes in [WitnessSchedule.count_versions]: the flat maps
    hold how often every value occurs, so that a hardfork is set exactly when enough of the
    scheduled witnesses ask for it ([hardfork_majority]). *)

From S2P Require Import Prelude Safe Version OperationTypes Raw Account Governance.
From S2P Require Import WitnessSchedule WitnessSelection WitnessMedians.
Open Scope Z_scope.

(** ** Counting in a flat map *)

Section tally.
Context {K : Type} `{EqDecision K} (ltb : K → K → bool).
Context `{!StrictOrderb ltb} (Htri : ∀ a b, ltb a b = false → ltb b a = false → a = b).

Definition tally (xs : list K) : list (K * Z) := foldl (λ l x, count_in ltb x l) [] xs.

(** How often [P] holds. *)
Definition occurrences (P : K → Prop) `{∀ k, Decision (P k)} (xs : list K) : Z :=
  Z.of_nat (length (filter P xs)).

(** The sum of the counts of the keys in [P]. *)
Definition counted (P : K → Prop) `{∀ k, Decision (P k)} (l : list (K * Z)) : Z :=
  sumZ ((λ p, if decide (P p.1) then p.2 else 0) <$> l).

Definition increasing_keys : list (K * Z) → Prop := StronglySorted (λ p q, ltb p.1 q.1 = true).

Lemma tally_snoc xs x : tally (xs ++ [x]) = count_in ltb x (tally xs).
Proof using. unfold tally. by rewrite foldl_app. Qed.

Lemma count_in_keys x l p : p ∈ count_in ltb x l → p.1 = x ∨ ∃ n, (p.1, n) ∈ l.
Proof using.
  induction l as [|[k n] l IH]; cbn; [intros ->%list_elem_of_singleton; by left|].
  intros Hp. destruct (ltb k x); [|destruct (ltb x k)].
  - apply elem_of_cons in Hp as [->|Hp]; [right; exists n; left|].
    destruct (IH Hp) as [|[m Hm] ]; [by left|]. right. exists m. by right.
  - apply elem_of_cons in Hp as [->|Hp]; [by left|]. right. exists p.2. by destruct p.
  - apply elem_of_cons in Hp as [->|Hp]; [right; exists n; left|]. right. exists p.2. right. by destruct p.
Qed.

Lemma count_in_sorted x l : increasing_keys l → increasing_keys (count_in ltb x l).
Proof using StrictOrderb0.
  unfold increasing_keys. induction 1 as [|[k n] l Hs IH Hf]; cbn; [repeat constructor|].
  destruct (ltb k x) eqn:E1; [|destruct (ltb x k) eqn:E2].
  - constructor; [done|]. apply Forall_forall. intros p [Hp|[m Hm] ]%count_in_keys; [by rewrite Hp|].
    exact (proj1 (Forall_forall _ _) Hf _ Hm).
  - constructor; [by constructor|]. constructor; [done|]. eapply Forall_impl; [exact Hf|].
    cbn. intros p Hp. by eapply ltb_trans.
  - by constructor.
Qed.

Lemma counted_cons P `{∀ k, Decision (P k)} k n l :
  counted P ((k, n) :: l) = (if decide (P k) then n else 0) + counted P l.
Proof using. unfold counted. by rewrite fmap_cons, sumZ_cons. Qed.

Lemma counted_in P `{∀ k, Decision (P k)} x l :
  Forall (λ p, 0 ≤ p.2 < u32_max) l →
  counted P (count_in ltb x l) = counted P l + if decide (P x) then 1 else 0.
Proof using Htri.
  induction 1 as [|[k n] l Hn _ IH]; cbn [count_in]; [rewrite counted_cons; cbn; lia|].
  cbn in Hn. destruct (ltb k x) eqn:E1; [|destruct (ltb x k) eqn:E2]; rewrite !counted_cons.
  - rewrite IH. lia.
  - lia.
  - rewrite (Htri k x E1 E2), u32_id by lia. case_decide; lia.
Qed.

(** The map of the counts of [xs]. *)
Lemma tally_spec xs : Z.of_nat (length xs) < u32_max →
  increasing_keys (tally xs) ∧ Forall (λ p, 0 < p.2 ≤ Z.of_nat (length xs) ∧ p.1 ∈ xs) (tally xs) ∧
  ∀ P `{∀ k, Decision (P k)}, counted P (tally xs) = occurrences P xs.
Proof using StrictOrderb0 Htri.
  induction xs as [|x xs IH] using rev_ind; intros Hlen.
  { split_and!; [constructor..|done]. }
  rewrite length_app in *. cbn [length] in *. destruct IH as (H1 & H2 & H3); [lia|].
  rewrite tally_snoc. split_and!.
  - by apply count_in_sorted.
  - clear H1 H3. revert H2. generalize (tally xs). intros l Hl.
    induction Hl as [|[k n] l [Hn Hk] Hl IHl]; cbn; [repeat constructor; [cbn; lia..|set_solver]|].
    cbn in Hn, Hk.
    assert (Forall (λ p : K * Z, 0 < p.2 ≤ Z.of_nat (length xs + 1) ∧ p.1 ∈ xs ++ [x]) l).
    { eapply Forall_impl; [exact Hl|]. cbn. intros p [? ?]. split; [lia|set_solver]. }
    destruct (ltb k x); [|destruct (ltb x k)]; repeat (apply Forall_cons; split); cbn;
      rewrite ?u32_id by lia; try done; try (split; [lia|set_solver]).
  - intros P HP. rewrite counted_in.
    + rewrite H3. unfold occurrences. rewrite filter_app, length_app, filter_cons, filter_nil.
      case_decide; cbn; lia.
    + eapply Forall_impl; [exact H2|]. cbn. lia.
Qed.

Lemma counted_none P `{∀ k, Decision (P k)} l : (∀ p, p ∈ l → ¬ P p.1) → counted P l = 0.
Proof using.
  intros Hn. apply sumZ_zero. intros p Hp. by rewrite decide_False by by apply Hn.
Qed.

(** A key occurs once. *)
Lemma counted_key l k n : increasing_keys l → (k, n) ∈ l → counted (λ x, x = k) l = n.
Proof using StrictOrderb0.
  intros Hs Hin. apply list_elem_of_split in Hin as (l1 & l2 & ->).
  unfold counted. rewrite fmap_app, sumZ_app, fmap_cons, sumZ_cons.
  cbn [fst snd]. rewrite decide_True by done.
  fold (counted (λ x, x = k) l1) (counted (λ x, x = k) l2). rewrite !counted_none; [lia|..].
  - intros p Hp E. apply StronglySorted_app_1_r in Hs. inversion_clear Hs as [|? ? _ Hf].
    pose proof (proj1 (Forall_forall _ _) Hf p Hp) as Hlt. cbn in Hlt.
    by rewrite E, ltb_irrefl in Hlt.
  - intros p Hp E. pose proof (StronglySorted_app_1_elem_of _ l1 _ p (k, n) Hs Hp ltac:(left)) as Hlt.
    cbn in Hlt. by rewrite E, ltb_irrefl in Hlt.
Qed.

End tally.

(** The first entry with enough votes: there is one exactly when some value occurs often enough. *)
Lemma majority_votes_exact {K} `{EqDecision K} ltb `{!StrictOrderb ltb} required (xs : list K) :
  (∀ a b, ltb a b = false → ltb b a = false → a = b) →
  Z.of_nat (length xs) < u32_max → xs ≠ [] →
  match snd <$> list_find (λ p, (required <=? p.2) = true) (tally ltb xs) with
  | Some p => p.1 ∈ xs ∧ required ≤ occurrences (λ x, x = p.1) xs
  | None => ∀ k, occurrences (λ x, x = k) xs < required
  end.
Proof.
  intros Htri Hlen Hne. destruct (tally_spec ltb Htri xs Hlen) as (Hs & Hf & Hc).
  destruct (list_find _ _) as [[i [k n]]|] eqn:E; cbn.
  - apply list_find_Some in E as (Hi & Hn & _). cbn in Hn. bool_to_prop.
    apply list_elem_of_lookup_2 in Hi. split; [apply (proj1 (Forall_forall _ _) Hf _ Hi)|].
    by rewrite <- Hc, (counted_key ltb _ k n Hs Hi).
  - intros k. rewrite <- Hc. apply list_find_None in E.
    destruct (decide (k ∈ (tally ltb xs).*1)) as [Hin|Hno].
    + apply list_elem_of_fmap in Hin as ([k' n] & -> & Hin). cbn [fst].
      rewrite (counted_key ltb _ k' n Hs Hin).
      pose proof (proj1 (Forall_forall _ _) E _ Hin) as Hlt. cbn in Hlt. bool_to_prop. lia.
    + rewrite counted_none by (intros p Hp <-; apply Hno; by apply list_elem_of_fmap_2).
      specialize (Hc (λ _, True) _). unfold occurrences in Hc. rewrite filter_all in Hc by (by apply Forall_true).
      destruct (tally ltb xs) as [|[k' n] l]; [by destruct xs|].
      apply Forall_cons_1 in E as [E _], Hf as [[Hn _] _]. cbn in E, Hn. bool_to_prop. lia.
Qed.

(** ** The highest version that enough witnesses run *)

Definition gtb (a b : Z) : bool := b <? a.
#[export] Instance gtb_strict : StrictOrderb gtb.
Proof. split; unfold gtb; intros; bool_to_prop; rewrite ?Z.ltb_lt, ?Z.ltb_ge in *; lia. Qed.
Lemma gtb_tri a b : gtb a b = false → gtb b a = false → a = b.
Proof. unfold gtb. intros. bool_to_prop. lia. Qed.

(** The walk stops at the first version down to which enough are counted. *)
Lemma majority_versions_walk required acc l : Forall (λ p, 0 < p.2) l →
  match majority_of_versions required acc l with
  | Some v => ∃ l1 n l2, l = l1 ++ (v, n) :: l2 ∧ required ≤ acc + sumZ l1.*2 + n ∧
      (l1 = [] ∨ acc + sumZ l1.*2 < required)
  | None => l = [] ∨ acc + sumZ l.*2 < required
  end.
Proof.
  intros Hl. revert acc. induction Hl as [|[v n] l Hn Hl IH]; intros acc; cbn [majority_of_versions].
  { by left. }
  cbn in Hn. destruct (Z.leb_spec required (acc + n)) as [Hle|Hlt].
  { exists [], n, l. cbn. split; [done|]. split; [lia|by left]. }
  specialize (IH (acc + n)). destruct (majority_of_versions required (acc + n) l) as [w|].
  - destruct IH as (l1 & m & l2 & -> & H1 & H2). exists ((v, n) :: l1), m, l2. cbn.
    split; [done|]. fold (sumZ l1.*2). split; [lia|]. right. destruct H2 as [->|H2]; cbn in *; lia.
  - right. cbn. fold (sumZ l.*2). destruct IH as [->|IH]; cbn in *; lia.
Qed.

Lemma counted_all P `{∀ k : Z, Decision (P k)} l : (∀ p, p ∈ l → P p.1) → counted P l = sumZ l.*2.
Proof.
  intros H1. unfold counted. f_equal. apply list_fmap_ext. intros i p Hp.
  rewrite decide_True; [done|]. apply H1. by eapply list_elem_of_lookup_2.
Qed.

Lemma counted_app P `{∀ k : Z, Decision (P k)} l1 l2 : counted P (l1 ++ l2) = counted P l1 + counted P l2.
Proof. unfold counted. by rewrite fmap_app, sumZ_app. Qed.

Lemma majority_versions_exact required old xs : Z.of_nat (length xs) < u32_max →
  let v := default old (majority_of_versions required 0 (tally gtb xs)) in
  (v ∈ xs ∧ required ≤ occurrences (λ x, v ≤ x) xs ∧
   ∀ w, w ∈ xs → v < w → occurrences (λ x, w ≤ x) xs < required) ∨
  (v = old ∧ ∀ w, w ∈ xs → occurrences (λ x, w ≤ x) xs < required).
Proof.
  intros Hlen. destruct (tally_spec gtb gtb_tri xs Hlen) as (Hs & Hf & Hc).
  pose proof (majority_versions_walk required 0 (tally gtb xs)) as Hw.
  assert (Forall (λ p : Z * Z, 0 < p.2) (tally gtb xs)) as Hpos.
  { eapply Forall_impl; [exact Hf|]. cbn. intros p [? _]. lia. }
  assert (∀ l w, Forall (λ p : Z * Z, 0 < p.2) l → counted (λ x, w ≤ x) l ≤ sumZ l.*2) as Hle.
  { intros l w. induction 1 as [|[k n] l Hn _ IH]; [done|]. rewrite counted_cons. cbn in *.
    fold (sumZ l.*2). case_decide; lia. }
  assert (∀ w, w ∈ xs → 1 ≤ occurrences (λ x, w ≤ x) xs) as Hsome.
  { intros w Hwin. unfold occurrences. assert (w ∈ filter (λ x, w ≤ x) xs) as Hin by (by apply list_elem_of_filter).
    destruct (filter _ _); [by apply elem_of_nil in Hin|cbn; lia]. }
  specialize (Hw Hpos). destruct (majority_of_versions required 0 (tally gtb xs)) as [v|]; cbn [default from_option id].
  - left. destruct Hw as (l1 & n & l2 & Hl & H1 & H2). unfold version in *. rewrite Hl in *.
    assert (∀ p, p ∈ l1 → v < p.1) as Hgt.
    { intros p Hp. pose proof (StronglySorted_app_1_elem_of _ l1 _ p (v, n) Hs Hp ltac:(left)) as Hlt.
      unfold gtb in Hlt. cbn in Hlt. bool_to_prop. lia. }
    assert (∀ p, p ∈ l2 → p.1 < v) as Hlt.
    { intros p Hp. apply StronglySorted_app_1_r in Hs. inversion_clear Hs as [|? ? _ Hfa].
      pose proof (proj1 (Forall_forall _ _) Hfa p Hp) as Hlt. unfold gtb in Hlt. cbn in Hlt.
      bool_to_prop. lia. }
    apply Forall_app in Hpos as [Hp1 _]. apply Forall_app in Hf as [_ Hf]. inversion_clear Hf as [|? ? [Hn Hv] _].
    cbn in Hn, Hv. split; [done|]. split.
    + rewrite <- Hc, counted_app, counted_cons, decide_True by (cbv beta; lia).
      rewrite (counted_all (λ x, v ≤ x) l1) by (intros p Hp; apply Hgt in Hp; lia).
      rewrite (counted_none (λ x, v ≤ x) l2) by (intros p Hp; apply Hlt in Hp; lia). lia.
    + intros w Hwin Hvw. pose proof (Hsome w Hwin) as H3. rewrite <- Hc in H3 |- *.
      rewrite counted_app, counted_cons, decide_False in H3 |- * by (cbv beta; lia).
      rewrite (counted_none (λ x, w ≤ x) l2) in H3 |- * by (intros p Hp; apply Hlt in Hp; lia). pose proof (Hle l1 w Hp1).
      destruct H2 as [->|H2]; [unfold counted in H3; cbn in H3; lia|lia].
  - right. unfold version in *. split; [done|]. intros w Hwin. pose proof (Hsome w Hwin) as H3. rewrite <- Hc in H3 |- *.
    pose proof (Hle (tally gtb xs) w Hpos). destruct Hw as [Hw|Hw]; [|lia].
    rewrite Hw in H3. unfold counted in H3. cbn in H3. lia.
Qed.

(** ** Versions that compare as numbers *)

(** Where a version of major number 0 meets one of major number 1, its hardfork number and
    revision are smaller. *)
Definition eras_ordered (l : list version) : Prop :=
  Forall (λ v, 0 ≤ v ≤ u32_max) l ∧
  ∀ a b, a ∈ l → b ∈ l → major_v a = 0 → major_v b = 1 → a < Z.land b 16777215.

Lemma major_0 v : 0 ≤ v ≤ u32_max → major_v v = 0 → v < 2 ^ 24.
Proof.
  intros Hv Hm. unfold major_v in Hm. change 4278190080 with (2 ^ 32 - 2 ^ 24) in Hm.
  rewrite bit_field in Hm by lia. change (32 - 24) with 8 in Hm.
  rewrite Z.mod_small in Hm by (split; [apply Z.div_pos; lia|apply Z.div_lt_upper_bound; limits; lia]).
  pose proof (div_bracket v (2 ^ 24)). lia.
Qed.

Lemma ordered_op l a b : eras_ordered l → a ∈ l → b ∈ l →
  version_op less a b = (a <? b) ∧ version_op greater a b = gtb a b ∧
  version_op not_equal a b = negb (a =? b).
Proof.
  intros [Hr Ho] Ha Hb. pose proof (proj1 (Forall_forall _ _) Hr a Ha) as Ra.
  pose proof (proj1 (Forall_forall _ _) Hr b Hb) as Rb. cbv beta in Ra, Rb.
  unfold version_op, version_operator, adjusted, id. fold (major_v b).
  destruct ((major_v a =? 0) && (major_v b =? 1)) eqn:E1.
  - bool_to_prop. destruct E1 as [E1 E2]. pose proof (Ho a b Ha Hb E1 E2) as Hlt.
    assert (Z.land b 16777215 ≤ b).
    { change 16777215 with (2 ^ 24 - 1). rewrite land_mask by lia. apply Z.mod_le; lia. }
    unfold gtb. repeat split; apply eq_true_iff_eq;
      rewrite ?negb_true_iff, ?Z.ltb_lt, ?Z.eqb_neq; lia.
  - destruct ((major_v a =? 1) && (major_v b =? 0)) eqn:E2; [|done].
    bool_to_prop. destruct E2 as [_ E2]. pose proof (major_0 b Rb E2).
    change 33554431 with (2 ^ 25 - 1). rewrite land_mask, Z.mod_small by lia. done.
Qed.

Lemma count_in_ext {K} (f g : K → K → bool) x l :
  (∀ p, p ∈ l → f p.1 x = g p.1 x ∧ f x p.1 = g x p.1) → count_in f x l = count_in g x l.
Proof.
  induction l as [|[k n] l IH]; intros H; [done|]. cbn.
  destruct (H (k, n) ltac:(left)) as [H1 H2]. cbn in H1, H2. rewrite H1, H2, IH; [done|].
  intros p Hp. apply H. by right.
Qed.

Lemma tally_keys {K} (f : K → K → bool) xs p : p ∈ tally f xs → p.1 ∈ xs.
Proof.
  revert p. induction xs as [|x xs IH] using rev_ind; intros p; [by intros ?%elem_of_nil|].
  rewrite tally_snoc. intros [->|[n Hn%IH] ]%count_in_keys; set_solver.
Qed.

Lemma tally_ext {K} (f g : K → K → bool) xs :
  (∀ a b, a ∈ xs → b ∈ xs → f a b = g a b) → tally f xs = tally g xs.
Proof.
  induction xs as [|x xs IH] using rev_ind; intros H; [done|].
  rewrite !tally_snoc, IH by (intros a b Ha Hb; apply H; set_solver).
  apply count_in_ext. intros p Hp%tally_keys. split; apply H; set_solver.
Qed.

(** The order of pairs as numbers. *)
Definition lexb (a b : Z * Z) : bool := (a.1 <? b.1) || ((a.1 =? b.1) && (a.2 <? b.2)).
#[export] Instance lexb_strict : StrictOrderb lexb.
Proof.
  split; unfold lexb; intros *; rewrite ?orb_true_iff, ?orb_false_iff, ?andb_true_iff, ?andb_false_iff,
    ?Z.ltb_lt, ?Z.ltb_ge, ?Z.eqb_eq; lia.
Qed.
Lemma lexb_tri a b : lexb a b = false → lexb b a = false → a = b.
Proof.
  destruct a as [a1 a2], b as [b1 b2]. unfold lexb. cbn.
  rewrite !orb_false_iff, !andb_false_iff, !Z.ltb_ge, !Z.eqb_neq. intros. f_equal; lia.
Qed.

(** ** The majority *)

(** How many ask for a hardfork, and how many run at least a version. *)
Definition votes_for (active : list scheduled_witness) (vote : version * time_point_sec) : Z :=
  occurrences (λ x, x = vote) (version_vote <$> active).
Definition running_at_least (active : list scheduled_witness) (v : version) : Z :=
  occurrences (λ x, v ≤ x) (running_version <$> active).

(** What the votes of the scheduled witnesses decide. *)
Record majority_ok (active : list scheduled_witness) (o : witness_schedule_object)
    (h h' : hardfork_property_object) (v : version) : Prop := {
  majority_current : current_hardfork_version h' = current_hardfork_version h;
  majority_hardfork :
    hardfork_required_witnesses o ≤ votes_for active (next_hardfork h', next_hardfork_time h') ∨
    (∀ vote, votes_for active vote < hardfork_required_witnesses o) ∧
    next_hardfork h' = current_hardfork_version h ∧ next_hardfork_time h' = next_hardfork_time h;
  majority_running :
    v ∈ running_version <$> active ∧ hardfork_required_witnesses o ≤ running_at_least active v ∧
      (∀ w, w ∈ running_version <$> active → v < w →
         running_at_least active w < hardfork_required_witnesses o) ∨
    v = majority_version o ∧ (∀ w, w ∈ running_version <$> active →
      running_at_least active w < hardfork_required_witnesses o)
}.

Lemma scheduled_length next s active : scheduled next s = Ok active →
  Z.of_nat (length active) ≤ Z.of_nat (length (current_shuffled_witnesses (get_schedule next s))).
Proof.
  unfold scheduled. set (ns := take _ _). intros H.
  assert (∀ ns acc, foldM (λ acc n, w ← get_witness n s; Ok (acc ++ [w])) acc ns = Ok active →
    length active = length acc + length ns)%nat as Hf.
  { induction ns0 as [|n l IH]; intros acc; cbn [foldM]; [intros [= ->]; cbn; lia|].
    intros (acc' & (w & _ & [= <-])%bind_Ok & Hr)%bind_Ok. apply IH in Hr.
    rewrite length_app in Hr. cbn in *. lia. }
  apply Hf in H. cbn in H. rewrite H. unfold ns. rewrite length_take. lia.
Qed.

(** What the count makes of the hardfork properties, hardfork by hardfork. *)
Definition versions_counted (active : list scheduled_witness) (next : bool) (s : schedule_state)
    (v : version) (h' : hardfork_property_object) : Prop :=
  let o := get_schedule next s in
  let h := hardfork_properties s in
  if hardfork_active HIVE_HARDFORK_0_5__54 s then
    if version_op equal (current_hardfork_version h) HIVE_HARDFORK_0_22_VERSION then
      v = majority_version o ∧
      (h' = h ∧ version_op equal (next_hardfork h) HIVE_HARDFORK_0_23_VERSION = true ∨
       h' = HardforkProperties (current_hardfork_version h) HIVE_HARDFORK_0_23_VERSION
              HIVE_HARDFORK_0_23_TIME)
    else majority_ok active o h h' v
  else v = majority_version o ∧ h' = h.

Lemma version_tallies active h :
  eras_ordered (running_version <$> active) →
  eras_ordered (next_hardfork h :: (hardfork_version_vote <$> active)) →
  foldl (λ l w, count_in version_greater (running_version w) l) [] active
    = tally gtb (running_version <$> active) ∧
  foldl (λ l w, count_in hardfork_vote_less (version_vote w) l) [] active
    = tally lexb (version_vote <$> active).
Proof.
  intros Hu1 Hu2. split.
  { rewrite <- (tally_ext version_greater).
    - unfold tally. by rewrite foldl_fmap.
    - intros a b Ha Hb. unfold version_greater. by apply (ordered_op _ a b Hu1). }
  assert (∀ w, w ∈ active → hardfork_version_vote w ∈ next_hardfork h :: (hardfork_version_vote <$> active)) as Hin.
  { intros w Hw. right. by apply list_elem_of_fmap_2. }
  rewrite <- (tally_ext hardfork_vote_less).
  - unfold tally. by rewrite foldl_fmap.
  - intros a b (wa & -> & Ha%Hin)%list_elem_of_fmap (wb & -> & Hb%Hin)%list_elem_of_fmap.
    unfold hardfork_vote_less, lexb, version_vote. cbn [fst snd].
    destruct (ordered_op _ _ _ Hu2 Ha Hb) as (-> & _). destruct (ordered_op _ _ _ Hu2 Hb Ha) as (-> & _).
    destruct (Z.ltb_spec (hardfork_version_vote wa) (hardfork_version_vote wb)),
      (Z.ltb_spec (hardfork_version_vote wb) (hardfork_version_vote wa)),
      (Z.eqb_spec (hardfork_version_vote wa) (hardfork_version_vote wb)); done || lia.
Qed.

Lemma majority_exact active o h :
  Z.of_nat (length active) < u32_max → active ≠ [] →
  eras_ordered (next_hardfork h :: (hardfork_version_vote <$> active)) →
  let required := hardfork_required_witnesses o in
  majority_ok active o h
    (agreed_hardfork (majority_of_votes required (tally lexb (version_vote <$> active))) h)
    (default (majority_version o)
       (majority_of_versions required 0 (tally gtb (running_version <$> active)))).
Proof.
  intros Hlen Hne Hu2 required. split.
  - destruct (majority_of_votes _ _) as [[v t]|]; cbn; [|done]. by case_match.
  - pose proof (majority_votes_exact lexb required (version_vote <$> active) lexb_tri) as Hm.
    rewrite length_fmap in Hm. specialize (Hm Hlen ltac:(by intros ?%fmap_nil_inv)).
    unfold majority_of_votes. rewrite option_fmap_compose.
    destruct (snd <$> _) as [[[v t] n]|]; cbn [agreed_hardfork fmap option_fmap option_map fst] in *;
      [left|right; done].
    destruct Hm as [Hin Hm].
    assert (v ∈ next_hardfork h :: (hardfork_version_vote <$> active)) as Hv.
    { right. apply list_elem_of_fmap in Hin as (w & Ew & Hw). apply list_elem_of_fmap. exists w.
      by injection Ew. }
    destruct (ordered_op _ (next_hardfork h) v Hu2 ltac:(left) Hv) as (_ & _ & ->).
    destruct (Z.eqb_spec (next_hardfork h) v) as [E|]; [|done].
    destruct (Z.eqb_spec (next_hardfork_time h) t) as [E'|]; [|done]. cbn [negb orb]. by rewrite E, E'.
  - apply majority_versions_exact. by rewrite length_fmap.
Qed.

Lemma count_versions_ok next s active :
  schedule_known (witness_index s) (get_schedule next s) → scheduled next s = Ok active →
  eras_ordered (running_version <$> active) →
  eras_ordered (next_hardfork (hardfork_properties s) :: (hardfork_version_vote <$> active)) →
  ∃ v h, count_versions next s = Ok (v, h) ∧ versions_counted active next s v h.
Proof.
  intros Hk Hs Hu1 Hu2. unfold count_versions, versions_counted.
  destruct (hardfork_active _ s); [|by eexists _, _]. rewrite Hs. cbn [mbind result_bind].
  destruct (version_op equal (current_hardfork_version _) _).
  - eexists _, _. split; [done|]. split; [done|]. unfold version_op, version_operator. cbn.
    destruct (_ =? _); [by left|by right].
  - destruct (version_tallies active (hardfork_properties s) Hu1 Hu2) as [-> ->].
    eexists _, _. split; [done|]. apply majority_exact; [| |done].
    + pose proof (scheduled_length next s active Hs). rewrite (known_length _ _ Hk) in *. limits. lia.
    + destruct (scheduled_known next s Hk) as (active' & Hs' & _ & _ & Hne). congruence.
Qed.
