(* ===== verification/WitnessRound.v ===== *)
(** * One round of the schedule

    [update_witness_schedule4] as a whole: its effect on the index of witnesses, and the schedule
    it installs. *)

From S2P Require Import Prelude Safe AssetSymbol Asset Version OperationTypes Raw Account Governance.
From S2P Require Import WitnessSchedule WitnessSelection WitnessMedians WitnessVotes.
Open Scope Z_scope.

(** ** Changes of the index *)

(** What a round never changes of a witness. *)
Definition identity_of (w : scheduled_witness) :=
  (witness_id w, owner w, signing_key w, props w, votes (voting w), available_witness_account_subsidies w,
   (running_version w, hardfork_version_vote w, hardfork_time_vote w)).

Definition same_identity : relation (list scheduled_witness) :=
  Forall2 (λ w w', identity_of w' = identity_of w).

#[export] Instance same_identity_refl : Reflexive same_identity.
Proof. intros ws. apply Forall_Forall2_diag. by apply Forall_true. Qed.
#[export] Instance same_identity_trans : Transitive same_identity.
Proof.
  assert (Transitive (λ w w', identity_of w' = identity_of w)) by (intros ? ? ?; congruence).
  unfold same_identity. apply _.
Qed.

(** Fields that are part of the identity are the same lists. *)
Lemma identity_fmap {B} (f : scheduled_witness → B) ws ws' :
  (∀ w w', identity_of w' = identity_of w → f w' = f w) → same_identity ws ws' → f <$> ws' = f <$> ws.
Proof. intros Hf. induction 1 as [|w w' l l' H _ IH]; [done|]. cbn. rewrite (Hf w w' H). by f_equal. Qed.

Lemma modify_identity ids f ws :
  (∀ w, identity_of (f w) = identity_of w) → same_identity ws (modify_witnesses ids f ws).
Proof.
  intros Hf. induction ws as [|w ws IH]; [constructor|]. constructor; [|exact IH].
  cbn. by destruct (decide (witness_id w ∈ ids)).
Qed.

Lemma mark_identity sel ws : same_identity ws (mark_selected sel ws).
Proof.
  unfold mark_selected. etrans; [|by apply modify_identity]. etrans; [|by apply modify_identity].
  etrans; by apply modify_identity.
Qed.

Lemma modify_lookup ids f ws i :
  modify_witnesses ids f ws !! i = (λ w, if decide (witness_id w ∈ ids) then f w else w) <$> ws !! i.
Proof. apply list_lookup_fmap. Qed.

(** Its place in the schedule and in the queue of miners. *)
Definition role_of (w : scheduled_witness) : witness_schedule_type * Z := (schedule w, pow_worker w).

Lemma modify_role ids f ws : (∀ w, role_of (f w) = role_of w) →
  role_of <$> modify_witnesses ids f ws = role_of <$> ws.
Proof.
  intros Hf. unfold modify_witnesses. rewrite <- list_fmap_compose. apply list_fmap_ext.
  intros i w _. unfold compose. by case_decide.
Qed.

(** The roles that a selection gives. *)
Definition role_after (sel : selection) (w : scheduled_witness) : witness_schedule_type * Z :=
  (if decide (witness_id w ∈ witness_id <$> sel_runners sel) then timeshare
   else if decide (witness_id w ∈ witness_id <$> sel_miners sel) then miner
   else if decide (witness_id w ∈ witness_id <$> sel_elected sel) then elected else schedule w,
   if decide (witness_id w ∈ witness_id <$> sel_queue sel) then 0 else pow_worker w).

Lemma mark_roles sel ws : role_of <$> mark_selected sel ws = role_after sel <$> ws.
Proof.
  unfold mark_selected, modify_witnesses. rewrite <- !list_fmap_compose. apply list_fmap_ext.
  intros i w _. unfold compose, role_after.
  by destruct (decide (witness_id w ∈ witness_id <$> sel_elected sel)); cbn;
    destruct (decide (witness_id w ∈ witness_id <$> sel_miners sel)); cbn;
    destruct (decide (witness_id w ∈ witness_id <$> sel_queue sel)); cbn;
    destruct (decide (witness_id w ∈ witness_id <$> sel_runners sel)).
Qed.

Lemma mark_lookup sel ws i w : ws !! i = Some w →
  ∃ w', mark_selected sel ws !! i = Some w' ∧ voting w' = voting w ∧ identity_of w' = identity_of w.
Proof.
  intros Hi. unfold mark_selected. rewrite !modify_lookup, Hi. cbn. eexists. split; [done|].
  by repeat case_decide.
Qed.

(** A change of one witness, and then of others, is one change. *)
Lemma modify_compose i ids f g ws :
  (∀ w, w ∈ ws → i = witness_id w → f w = g w) → (∀ w, witness_id (g w) = witness_id w ∧ g (g w) = g w) →
  modify_witnesses ids g (modify_witnesses [i] f ws) = modify_witnesses (i :: ids) g ws.
Proof.
  intros Hf Hg. unfold modify_witnesses. rewrite <- list_fmap_compose. apply list_fmap_ext.
  intros j w Hj%list_elem_of_lookup_2. unfold compose. destruct (decide (witness_id w ∈ [i])) as [E|E].
  - apply list_elem_of_singleton in E. rewrite (decide_True (P := witness_id w ∈ i :: ids)) by (rewrite E; left).
    rewrite Hf by done. destruct (Hg w) as [-> Hgg]. by case_decide.
  - rewrite list_elem_of_singleton in E. destruct (decide (witness_id w ∈ ids)) as [E'|E'].
    + by rewrite decide_True by by right.
    + by rewrite decide_False by by intros [|]%elem_of_cons.
Qed.

(** ** Virtual time *)

(** The exact time of a lap. *)
Definition lap_of (w : scheduled_witness) : Z := u128_max / (votes (voting w) + 1).

Lemma lap_bound w : witness_ok w → 1 ≤ lap_of w ≤ u128_max.
Proof.
  intros [Hv _ _ _]. unfold lap_of. limits.
  split; [apply Z.div_le_lower_bound; lia|apply Z.div_le_upper_bound; lia].
Qed.

Lemma virtual_lap_exact w : 0 ≤ votes (voting w) < i64_max → virtual_lap w = Ok (lap_of w).
Proof.
  intros Hv. unfold virtual_lap, lap_of, HIVE_VIRTUAL_SCHEDULE_LAP_LENGTH2.
  rewrite signed64_Ok by (limits; lia). cbn [mbind result_bind].
  rewrite u128_id by (limits; lia). by rewrite udiv_Ok by lia.
Qed.

(** The time at which [w] starts its next lap, when the virtual time is [t]. *)
Definition next_lap (t : Z) (w : scheduled_witness) : witness_object :=
  WitnessObject (votes (voting w)) t 0 (t + lap_of w).

Lemma identity_ok w w' : identity_of w' = identity_of w →
  0 ≤ virtual_scheduled_time (voting w') ≤ u128_max → witness_ok w → witness_ok w'.
Proof.
  intros E Ht [H1 _ H3 H4]. injection E as E1 E2 E3 E4 E5 E6 _. split; [by rewrite E5|done|by rewrite E4|by rewrite E6].
Qed.

Section advance.
Context (t : Z) (Ht : 0 ≤ t ≤ u128_max).

(** Advancing the witnesses [processed] either changes their laps or meets an overflow. *)
Lemma advance_exact processed ws :
  Forall witness_ok processed →
  (∀ p w, p ∈ processed → w ∈ ws → witness_id p = witness_id w → votes (voting p) = votes (voting w)) →
  if decide (Forall (λ p, t + lap_of p ≤ u128_max) processed)
  then advance t processed ws = Ok (modify_witnesses (witness_id <$> processed)
         (λ w, set_voting (next_lap t w) w) ws, false)
  else ∃ ws', advance t processed ws = Ok (ws', true) ∧ same_identity ws ws' ∧ role_of <$> ws' = role_of <$> ws.
Proof using Ht.
  intros Hok. revert ws. induction Hok as [|p processed Hp _ IH]; intros ws Hv; cbn [advance].
  { rewrite decide_True by constructor. do 2 f_equal. unfold modify_witnesses.
    rewrite <- (list_fmap_id ws) at 1. apply list_fmap_ext. intros i w _. cbn.
    by rewrite decide_False by apply not_elem_of_nil. }
  rewrite virtual_lap_exact by apply Hp. cbn [mbind result_bind].
  pose proof (lap_bound p Hp) as Hl. destruct (Z.le_gt_cases (t + lap_of p) u128_max) as [Hle|Hgt].
  - rewrite u128_id by lia. rewrite (proj2 (Z.ltb_ge _ _)) by lia.
    set (f := λ o, set_voting (WitnessObject (votes (voting o)) t 0 (t + lap_of p)) o).
    specialize (IH (modify_witnesses [witness_id p] f ws)).
    assert (∀ q w, q ∈ processed → w ∈ modify_witnesses [witness_id p] f ws →
      witness_id q = witness_id w → votes (voting q) = votes (voting w)) as Hv'.
    { intros q w Hq (v & -> & Hvin)%list_elem_of_fmap. specialize (Hv q v ltac:(by right) Hvin).
      destruct (decide (witness_id v ∈ [witness_id p])); exact Hv. }
    specialize (IH Hv'). destruct (decide (Forall (λ p, t + lap_of p ≤ u128_max) processed)) as [Hall|Hno].
    + rewrite decide_True by (by constructor). rewrite IH. do 2 f_equal. apply modify_compose; [|done].
      intros w Hw E. unfold f, next_lap, lap_of. by rewrite (Hv p w ltac:(left) Hw E).
    + rewrite decide_False by (intros Hall; by inversion_clear Hall).
      destruct IH as (ws' & -> & Hs & Hr). exists ws'. split; [done|]. split.
      * etrans; [|exact Hs]. by apply modify_identity.
      * rewrite Hr. by apply modify_role.
  - assert (u128 (t + lap_of p) < t) as Hw.
    { unfold u128, wrapu. replace (t + lap_of p) with (t + lap_of p - 2 ^ 128 + 1 * 2 ^ 128) by lia.
      rewrite Z.mod_add, Z.mod_small by (limits; lia). limits. lia. }
    rewrite (proj2 (Z.ltb_lt _ _)) by done. rewrite decide_False by (intros Hall; inversion_clear Hall; lia).
    by exists ws.
Qed.

End advance.

Lemma reset_laps_exact ws : Forall (λ w, 0 ≤ votes (voting w) < i64_max) ws →
  reset_laps 0 ws = Ok ((λ w, set_voting (next_lap 0 w) w) <$> ws).
Proof.
  induction 1 as [|w ws Hw _ IH]; cbn [reset_laps]; [done|].
  rewrite virtual_lap_exact by done. cbn [mbind result_bind]. by rewrite IH.
Qed.

Lemma reset_exact s : Forall (λ w, 0 ≤ votes (voting w) < i64_max) (witness_index s) →
  ∃ next, reset_virtual_schedule_time s
    = Ok (set_witness_index ((λ w, set_voting (next_lap 0 w) w) <$> witness_index s)
        (set_schedule next (set_current_virtual_time 0 (get_schedule next s)) s)).
Proof.
  intros Hws. unfold reset_virtual_schedule_time. set (next := _ && _). exists next.
  replace (current_virtual_time _) with 0 by by destruct next.
  rewrite reset_laps_exact by done. done.
Qed.

(** The virtual times after a round: those whose turn it was start another lap, or, when the
    virtual time would overflow, everyone starts over from zero. *)
Inductive laps (sel : selection) (ws ws' : list scheduled_witness) (t : Z) : Prop :=
| laps_advanced :
    Forall (λ p, sel_time sel + lap_of p ≤ u128_max) (sel_processed sel) → t = sel_time sel →
    (∀ i w w', ws !! i = Some w → ws' !! i = Some w' →
       voting w' = if decide (witness_id w ∈ witness_id <$> sel_processed sel)
                   then next_lap (sel_time sel) w else voting w) → laps sel ws ws' t
| laps_restarted p :
    p ∈ sel_processed sel → u128_max < sel_time sel + lap_of p → t = 0 →
    (∀ i w w', ws !! i = Some w → ws' !! i = Some w' → voting w' = next_lap 0 w) → laps sel ws ws' t.

(** ** Invariants under a change that keeps the identities *)

Lemma identity_lookup ws ws' i w : same_identity ws ws' → ws !! i = Some w →
  ∃ w', ws' !! i = Some w' ∧ identity_of w' = identity_of w.
Proof. intros H Hi. by destruct (Forall2_lookup_l _ _ _ _ _ H Hi) as (w' & ? & ?); exists w'. Qed.

Lemma identity_index ws ws' : same_identity ws ws' →
  (∀ w, w ∈ ws' → 0 ≤ virtual_scheduled_time (voting w) ≤ u128_max) → index_ok ws → index_ok ws'.
Proof.
  intros H Ht [Hid Hown Hok].
  assert (∀ w w' : scheduled_witness, identity_of w' = identity_of w →
    witness_id w' = witness_id w ∧ owner w' = owner w) as Hf by (intros w w' E; by injection E).
  split.
  - by rewrite (identity_fmap witness_id ws ws') by (intros; by apply Hf || done).
  - by rewrite (identity_fmap owner ws ws') by (intros; by apply Hf || done).
  - apply Forall_forall. intros w' (i & Hi)%list_elem_of_lookup.
    destruct (Forall2_lookup_r _ _ _ _ _ H Hi) as (w & Hw & E).
    apply (identity_ok w); [done|by apply Ht; eapply list_elem_of_lookup_2|].
    by eapply (proj1 (Forall_lookup _ _) Hok).
Qed.

Lemma identity_owners ws ws' : same_identity ws ws' → owner <$> ws' = owner <$> ws.
Proof. apply identity_fmap. intros w w' E. by injection E. Qed.

Lemma identity_get n s s' : same_identity (witness_index s) (witness_index s') →
  n ∈ owner <$> witness_index s →
  ∃ w w', get_witness n s = Ok w ∧ get_witness n s' = Ok w' ∧ identity_of w' = identity_of w.
Proof.
  intros H Hn. destruct (get_witness_known n s Hn) as (w & Hg & _). unfold get_witness in *.
  exists w. revert Hg. clear Hn. induction H as [|v v' l l' E _ IH]; cbn; [done|].
  assert (owner v' = owner v) as Ho by by injection E.
  rewrite Ho. destruct (decide (owner v = n)); cbn.
  - intros [= <-]. by exists v'.
  - intros Hg. destruct (list_find (λ w, owner w = n) l) as [[i u]|]; [|done]. cbn in *.
    destruct (IH Hg) as (w' & _ & Hg' & E'). exists w'.
    by destruct (list_find (λ w, owner w = n) l') as [[]|].
Qed.

Lemma scheduled_identity next s s' :
  same_identity (witness_index s) (witness_index s') →
  scheduled_names (get_schedule next s') = scheduled_names (get_schedule next s) →
  schedule_known (witness_index s) (get_schedule next s) →
  ∃ a a', scheduled next s = Ok a ∧ scheduled next s' = Ok a' ∧ same_identity a a'.
Proof.
  intros H En [_ _ Hk]. unfold scheduled. fold (scheduled_names (get_schedule next s)).
  fold (scheduled_names (get_schedule next s')). rewrite En. clear En. revert Hk.
  generalize (scheduled_names (get_schedule next s)). intros ns Hns.
  assert (∀ acc acc', same_identity acc acc' → ∃ a a',
    foldM (λ acc n, w ← get_witness n s; Ok (acc ++ [w])) acc ns = Ok a ∧
    foldM (λ acc n, w ← get_witness n s'; Ok (acc ++ [w])) acc' ns = Ok a' ∧ same_identity a a') as Hf;
    [|by apply Hf].
  induction ns as [|n ns IH]; intros acc acc' Hacc; cbn [foldM]; [by exists acc, acc'|].
  destruct (identity_get n s s' H) as (w & w' & Hw & Hw' & E); [apply Hns; left|].
  rewrite Hw, Hw'. cbn [mbind result_bind]. apply IH; [intros m Hm; apply Hns; by right|].
  apply Forall2_app; [done|]. by constructor.
Qed.

(** The count of versions does not see what a round changes. *)
Lemma count_versions_identity next s s' :
  same_identity (witness_index s) (witness_index s') →
  hardfork_properties s' = hardfork_properties s → schedule_hardforks s' = schedule_hardforks s →
  (∃ t, get_schedule next s' = set_current_virtual_time t (get_schedule next s)) →
  schedule_known (witness_index s) (get_schedule next s) →
  ∃ r, count_versions next s = Ok r ∧ count_versions next s' = Ok r.
Proof.
  intros H Eh Ehf [t Eo] Hk.
  destruct (scheduled_identity next s s' H) as (a & a' & Ha & Ha' & E); [by rewrite Eo|done|].
  unfold count_versions, hardfork_active. rewrite Eh, Ehf, Ha, Ha', Eo.
  cbn [mbind result_bind set_current_virtual_time majority_version hardfork_required_witnesses].
  assert (∀ {B} (f : B → scheduled_witness → B), (∀ b w w', identity_of w' = identity_of w → f b w' = f b w) →
    ∀ b, foldl f b a' = foldl f b a) as Hf.
  { intros B f Hf. clear Ha Ha'. induction E as [|w w' l l' Hw _ IH]; intros b; [done|].
    cbn. rewrite (Hf b w w' Hw). apply IH. }
  rewrite !Hf by (intros b w w' Ew; unfold version_vote; injection Ew as _ _ _ _ _ _ E1 E2 E3; congruence).
  destruct (_ <? _); [|by eexists]. destruct (version_op equal _ _); by eexists.
Qed.

(** ** The schedule that is installed *)

Record installed (active : list account_name_type) (num_elected num_miners virtual_time : Z)
    (majority : version) (s : schedule_state) (o o' : witness_schedule_object) : Prop := {
  installed_names : scheduled_names o' ≡ₚ active;
  installed_length : length (current_shuffled_witnesses o') = 21%nat;
  installed_size : num_scheduled_witnesses o' = Z.of_nat (length active);
  installed_time : current_virtual_time o' = virtual_time;
  installed_block : next_shuffle_block_num o' = u32 (schedule_block_num s + Z.of_nat (length active));
  installed_factor : witness_pay_normalization_factor o'
    = u32 (elected_weight o * num_elected + miner_weight o * num_miners
           + timeshare_weight o * (Z.of_nat (length active) - num_miners - num_elected));
  installed_majority : majority_version o' = majority;
  installed_limits : max_voted_witnesses o' = max_voted_witnesses o ∧
    max_miner_witnesses o' = max_miner_witnesses o ∧
    hardfork_required_witnesses o' = hardfork_required_witnesses o
}.

Lemma install_exact active e m t v s o :
  (1 ≤ length active ≤ 21)%nat →
  ∃ o', install active e m t v s o = Ok o' ∧ installed active e m t v s o o'.
Proof.
  intros Hlen. unfold install, HIVE_MAX_WITNESSES. rewrite u8_id, Z.max_l by (limits; lia).
  set (l := active ++ _). assert (length l = 21%nat) as Hl.
  { unfold l. rewrite length_app, length_replicate. lia. }
  destruct (shuffle_exact (schedule_time s) (Z.of_nat (length active)) l) as (l' & Hs & Hl'); [lia..|].
  rewrite Hs. cbn [mbind result_bind]. eexists. split; [done|]. split; try done.
  - unfold scheduled_names. cbn [num_scheduled_witnesses current_shuffled_witnesses].
    rewrite Nat2Z.id. destruct Hl' as [Hf _]. rewrite Nat2Z.id in Hf. rewrite Hf.
    unfold l. by rewrite take_app_length.
  - cbn. by rewrite (shuffled_length _ _ _ Hl').
Qed.

(** ** The round *)

(** What a round relies on, and leaves to the next one. *)
Record round_ready (next : bool) (s : schedule_state) : Prop := {
  ready_index : index_ok (witness_index s);
  ready_known : schedule_known (witness_index s) (get_schedule next s);
  ready_room : 0 ≤ max_voted_witnesses (get_schedule next s) ∧ 0 ≤ max_miner_witnesses (get_schedule next s) ∧
    max_voted_witnesses (get_schedule next s) + max_miner_witnesses (get_schedule next s) ≤ HIVE_MAX_WITNESSES;
  ready_time : 0 ≤ current_virtual_time (get_schedule next s) ≤ u128_max
}.

(** The last part of a round, once the witnesses are selected and their times advanced. *)
Definition finish_round (next : bool) (active : list account_name_type) (e m t : Z)
    (s : schedule_state) : result schedule_state :=
  '(majority, h) ← count_versions next s;
  let s := set_hardfork_properties h s in
  o ← install active e m t majority s (get_schedule next s);
  update_median_witness_props next (set_schedule next o s).

Record finished (next : bool) (active : list account_name_type) (e m t : Z)
    (s s' : schedule_state) : Prop := {
  finished_index : witness_index s' = witness_index s;
  finished_versions : count_versions next s
    = Ok (majority_version (get_schedule next s'), hardfork_properties s');
  finished_schedule : installed active e m t (majority_version (get_schedule next s')) s
    (get_schedule next s) (get_schedule next s');
  finished_medians : ∃ ws, (∀ w, w ∈ ws → w ∈ witness_index s') ∧
    owner <$> ws = scheduled_names (get_schedule next s') ∧ medians_of ws next s s'
}.

Lemma with_medians_fields next p rd witness_rd s :
  hardfork_properties (with_medians next p rd witness_rd s) = hardfork_properties s.
Proof. unfold with_medians. by destruct next, (hardfork_active _ s). Qed.

Lemma installed_medians active e m t v s o o' p rd witness_rd :
  installed active e m t v s o o' → installed active e m t v s o (set_medians p rd witness_rd o').
Proof. intros []. by split. Qed.

Lemma finish_exact next active e m t s r :
  index_ok (witness_index s) → count_versions next s = Ok r →
  (1 ≤ length active ≤ 21)%nat → (∀ n, n ∈ active → n ∈ owner <$> witness_index s) →
  ∃ s', finish_round next active e m t s = Ok s' ∧ finished next active e m t s s'.
Proof.
  intros Hix Hc Hlen Hin. unfold finish_round. rewrite Hc. destruct r as [v h]. cbn [mbind result_bind].
  set (s1 := set_hardfork_properties h s).
  destruct (install_exact active e m t v s1 (get_schedule next s1) Hlen) as (o' & Ho & Hi).
  rewrite Ho. cbn [mbind result_bind]. set (s2 := set_schedule next o' s1).
  assert (get_schedule next s2 = o') as Eg by by destruct next.
  assert (get_schedule next s1 = get_schedule next s) as Eg1 by by destruct next.
  assert (schedule_known (witness_index s2) (get_schedule next s2)) as Hk.
  { rewrite Eg. destruct Hi as [Hn Hl Hz]. split; [rewrite Hz; unfold HIVE_MAX_WITNESSES; lia|done|].
    intros n. rewrite Hn. apply Hin. }
  destruct (update_medians_ok next s2) as (ws & p & rd & wrd & Hs & Hn & Hu & Hm); [done..|].
  destruct (scheduled_known next s2 Hk) as (ws' & Hs' & _ & Hws & _).
  rewrite Hs in Hs'. injection Hs' as <-.
  destruct (with_medians_schedule next p rd wrd s2) as [Hgs Hgi].
  exists (with_medians next p rd wrd s2). split; [done|]. split.
  - by rewrite Hgi.
  - rewrite with_medians_fields, Hgs, Eg. cbn [set_medians majority_version].
    rewrite (installed_majority _ _ _ _ _ _ _ _ Hi), Hc. done.
  - rewrite Hgs, Eg. apply installed_medians. rewrite <- Eg1. destruct Hi. by split.
  - exists ws. rewrite Hgi, Hn, Hgs, Eg. split; [exact Hws|]. split; [done|].
    destruct Hm as [H1 H2 H3 H4 H5 H6 H7 H8]. by split.
Qed.
