(* ===== verification/WitnessMain.v ===== *)
(** * The schedule of witnesses, as a whole

    What [update_witness_schedule4] does to the database ([schedule_round]), what it takes from the
    properties of the scheduled witnesses ([medians_valid]) and from their votes for versions
    ([hardfork_majority]). *)

From S2P Require Import Prelude Safe AssetSymbol Asset Version OperationTypes Operations Raw Account Governance.
From S2P Require Import ResourceDynamics ResourceCost ResourceCount RcDelegations RcCharge.
From S2P Require Import WitnessSchedule WitnessSelection WitnessMedians WitnessVotes WitnessRound.
Open Scope Z_scope.

(** ** The times after a round *)

Section times.
Context (next : bool) (s : schedule_state) (Hready : round_ready next s).

Abbreviation ws := (witness_index s).
Abbreviation sel := (select_witnesses (hardfork_active HIVE_HARDFORK_0_14__278 s) (get_schedule next s) ws).
Abbreviation marked := (set_num_pow_witnesses (u32 (num_pow_witnesses s - Z.of_nat (length (sel_queue sel))))
  (set_witness_index (mark_selected sel ws) s)).

Lemma processed_members p : p ∈ sel_processed sel → p ∈ ws.
Proof using Hready.
  destruct (selected_members (hardfork_active HIVE_HARDFORK_0_14__278 s) (get_schedule next s) ws)
    as (_ & _ & Hsub); [apply Hready|].
  intros Hp. rewrite <- (merge_sort_Permutation by_schedule_time ws). by eapply elem_of_sublist.
Qed.

Lemma selected_time : 0 ≤ sel_time sel ≤ u128_max.
Proof using Hready.
  destruct (selected_loops (hardfork_active HIVE_HARDFORK_0_14__278 s) (get_schedule next s) ws)
    as (_ & _ & _ & ->).
  destruct (last (sel_processed sel)) as [p|] eqn:Hl; cbn; [|apply Hready].
  apply last_Some_elem_of, processed_members in Hl.
  pose proof (index_witnesses _ (ready_index _ _ Hready)) as Hws.
  apply (witness_times p). by eapply (proj1 (Forall_forall _ _)) in Hws.
Qed.

Lemma marked_votes p w : p ∈ sel_processed sel → w ∈ mark_selected sel ws →
  witness_id p = witness_id w → votes (voting p) = votes (voting w).
Proof using Hready.
  intros Hp%processed_members (i & Hi)%list_elem_of_lookup E.
  destruct (Forall2_lookup_r _ _ _ _ _ (mark_identity sel ws) Hi) as (v & Hv & Ev).
  assert (p = v) as ->; [|by injection Ev].
  apply (same_id ws); [apply Hready|done|by eapply list_elem_of_lookup_2|].
  rewrite E. by injection Ev.
Qed.

(** What holds of the database [s1] between the selection and the last part of the round. *)
Record advanced (reset : bool) (s1 : schedule_state) : Prop := {
  advanced_identity : same_identity ws (witness_index s1);
  advanced_roles : role_of <$> witness_index s1 = role_after sel <$> ws;
  advanced_laps : laps sel ws (witness_index s1) (if reset then 0 else sel_time sel);
  advanced_times : ∀ w, w ∈ witness_index s1 → 0 ≤ virtual_scheduled_time (voting w) ≤ u128_max;
  advanced_rest : hardfork_properties s1 = hardfork_properties s ∧
    schedule_hardforks s1 = schedule_hardforks s ∧ schedule_block_num s1 = schedule_block_num s ∧
    dgpo_maximum_block_size s1 = dgpo_maximum_block_size s ∧
    dgpo_hbd_interest_rate s1 = dgpo_hbd_interest_rate s;
  advanced_schedule : ∃ t, get_schedule next s1 = set_current_virtual_time t (get_schedule next s)
}.

Lemma ready_witness i w : ws !! i = Some w → witness_ok w.
Proof using Hready. intros Hi. by eapply (proj1 (Forall_lookup _ _) (index_witnesses _ (ready_index _ _ Hready))). Qed.

Lemma schedule_same (s1 : schedule_state) : schedule_now s1 = schedule_now s → schedule_next s1 = schedule_next s →
  ∃ t, get_schedule next s1 = set_current_virtual_time t (get_schedule next s).
Proof using.
  clear Hready. intros E1 E2. exists (current_virtual_time (get_schedule next s)). unfold get_schedule.
  rewrite E1, E2. destruct next; [by destruct (schedule_next s)|by destruct (schedule_now s)].
Qed.

(** Without an overflow. *)
Lemma advanced_on : Forall (λ p, sel_time sel + lap_of p ≤ u128_max) (sel_processed sel) →
  advanced false (set_witness_index (modify_witnesses (witness_id <$> sel_processed sel)
    (λ w, set_voting (next_lap (sel_time sel) w) w) (mark_selected sel ws)) marked).
Proof using Hready.
  intros Hall. set (f := λ w, set_voting (next_lap (sel_time sel) w) w).
  assert (∀ i w w', ws !! i = Some w →
    modify_witnesses (witness_id <$> sel_processed sel) f (mark_selected sel ws) !! i = Some w' →
    voting w' = if decide (witness_id w ∈ witness_id <$> sel_processed sel)
                then next_lap (sel_time sel) w else voting w) as Hlaps.
  { intros i w w' Hw. destruct (mark_lookup sel ws i w Hw) as (m & Hm & Ev & Ei).
    rewrite modify_lookup, Hm. cbn. injection Ei as E1 _ _ _ E5 _. rewrite E1.
    intros [= <-]. case_decide; [|done]. cbn. unfold next_lap, lap_of. by rewrite E5. }
  split; cbn [set_witness_index witness_index].
  - etrans; [apply mark_identity|by apply modify_identity].
  - rewrite modify_role by done. apply mark_roles.
  - by apply laps_advanced.
  - intros w' (i & Hi)%list_elem_of_lookup.
    destruct (lookup_lt_is_Some_2 ws i) as [w Hw].
    { apply lookup_lt_Some in Hi. unfold modify_witnesses in Hi. rewrite length_fmap in Hi.
      by rewrite <- (Forall2_length _ _ _ (mark_identity sel ws)) in Hi. }
    rewrite (Hlaps i w w' Hw Hi). pose proof (ready_witness i w Hw) as Hok.
    case_decide as Hp; [|by apply Hok]. apply list_elem_of_fmap in Hp as (p & Ep & Hp).
    assert (w = p) as ->.
    { apply (same_id ws); [apply Hready|by eapply list_elem_of_lookup_2|by apply processed_members|done]. }
    pose proof (proj1 (Forall_forall _ _) Hall p Hp) as Hle. cbv beta in Hle.
    pose proof (lap_bound p Hok). pose proof selected_time. cbn. lia.
  - done.
  - by apply schedule_same.
Qed.

(** With one. *)
Lemma advanced_over p ws1 nx : p ∈ sel_processed sel → u128_max < sel_time sel + lap_of p →
  same_identity (mark_selected sel ws) ws1 → role_of <$> ws1 = role_of <$> mark_selected sel ws →
  let s1 := set_witness_index ws1 marked in
  advanced true (set_witness_index ((λ w, set_voting (next_lap 0 w) w) <$> ws1)
    (set_schedule nx (set_current_virtual_time 0 (get_schedule nx s1)) s1)).
Proof using Hready.
  intros Hp Hgt Hid Hrole s1.
  assert (same_identity ws ws1) as Hid1 by (etrans; [apply mark_identity|done]).
  assert (∀ i w w', ws !! i = Some w → ((λ w, set_voting (next_lap 0 w) w) <$> ws1) !! i = Some w' →
    voting w' = next_lap 0 w) as Hlaps.
  { intros i w w' Hw. destruct (identity_lookup _ _ _ _ Hid1 Hw) as (m & Hm & Ei).
    rewrite list_lookup_fmap, Hm. intros [= <-]. cbn. unfold next_lap, lap_of.
    injection Ei as _ _ _ _ E5 _. by rewrite E5. }
  split; cbn [set_witness_index witness_index].
  - etrans; [exact Hid1|]. clear. induction ws1; constructor; done.
  - rewrite <- mark_roles, <- Hrole, <- list_fmap_compose. done.
  - by eapply laps_restarted.
  - intros w' (i & Hi)%list_elem_of_lookup.
    destruct (lookup_lt_is_Some_2 ws i) as [w Hw].
    { apply lookup_lt_Some in Hi. rewrite length_fmap in Hi.
      by rewrite <- (Forall2_length _ _ _ Hid1) in Hi. }
    rewrite (Hlaps i w w' Hw Hi). pose proof (lap_bound w (ready_witness i w Hw)). cbn. lia.
  - done.
  - destruct (decide (nx = next)) as [->|Hne].
    + exists 0. by destruct next.
    + destruct (schedule_same s1) as [t Ht]; [done..|]. exists t. rewrite <- Ht.
      by destruct next, nx.
Qed.

Lemma advance_ok : ∃ ws1 reset s1,
  advance (sel_time sel) (sel_processed sel) (mark_selected sel ws) = Ok (ws1, reset) ∧
  (if reset : bool then reset_virtual_schedule_time (set_witness_index ws1 marked)
   else Ok (set_witness_index ws1 marked)) = Ok s1 ∧ advanced reset s1.
Proof using Hready.
  pose proof (advance_exact (sel_time sel) selected_time (sel_processed sel) (mark_selected sel ws)) as Ha.
  assert (∀ p, p ∈ ws → witness_ok p) as Hok.
  { intros p. apply (proj1 (Forall_forall _ _) (index_witnesses _ (ready_index _ _ Hready))). }
  assert (Forall witness_ok (sel_processed sel)) as Hpr.
  { apply Forall_forall. intros p Hp. by apply Hok, processed_members. }
  specialize (Ha Hpr marked_votes). case_decide as Hall.
  { rewrite Ha. eexists _, false, _. split; [done|]. split; [done|]. by apply advanced_on. }
  destruct Ha as (ws1 & Ha & Hid & Hrole).
  apply not_Forall_Exists, Exists_exists in Hall as (p & Hp & Hgt); [|apply _]. cbv beta in Hgt.
  destruct (reset_exact (set_witness_index ws1 marked)) as [nx Hr].
  { cbn. apply Forall_forall. intros w' (i & Hi)%list_elem_of_lookup.
    assert (same_identity ws ws1) as Hid1 by (etrans; [apply mark_identity|done]).
    destruct (Forall2_lookup_r _ _ _ _ _ Hid1 Hi) as (w & Hw & E). injection E as _ _ _ _ -> _.
    by apply Hok, list_elem_of_lookup_2 with i. }
  rewrite Ha. eexists ws1, true, _. split; [done|]. split; [exact Hr|].
  apply (advanced_over p); [done|cbn in *; lia|done..].
Qed.

End times.

(** ** The round *)

(** The witnesses of a round: all of them enabled, each one once, as many as there can be; the
    elected are those with the most votes, and those whose turn is over had the earliest times. *)
Record fairly_selected (skip : bool) (o : witness_schedule_object) (ws : list scheduled_witness)
    (sel : selection) : Prop := {
  fair_members : ∀ w, w ∈ active_of sel → w ∈ ws ∧ enabled skip w;
  fair_once : NoDup (witness_id <$> active_of sel);
  fair_number : length (active_of sel) = Nat.min 21 (length (filter (enabled skip) ws));
  fair_elected_number : length (sel_elected sel)
    = Nat.min (Z.to_nat (max_voted_witnesses o)) (length (filter (enabled skip) ws));
  fair_elected : ∀ e w, e ∈ sel_elected sel → w ∈ ws → enabled skip w → w ∉ sel_elected sel →
    by_vote_name e w;
  fair_runners : ∀ r, r ∈ sel_runners sel → r ∈ sel_processed sel;
  fair_turns : ∀ p w, p ∈ sel_processed sel → w ∈ ws → w ∉ sel_processed sel → by_schedule_time p w;
  fair_left_out : ∀ w, w ∈ ws → enabled skip w → w ∉ active_of sel → w ∉ sel_processed sel
}.

Lemma selection_fair next s : round_ready next s →
  fairly_selected (hardfork_active HIVE_HARDFORK_0_14__278 s) (get_schedule next s) (witness_index s)
    (select_witnesses (hardfork_active HIVE_HARDFORK_0_14__278 s) (get_schedule next s) (witness_index s)).
Proof.
  intros [[Hid _ _] _ Hroom _]. set (sk := hardfork_active _ _). set (o := get_schedule next s) in *.
  set (ws := witness_index s) in *.
  destruct (selected_members sk o ws Hid) as (H1 & H2 & _).
  destruct (selected_loops sk o ws) as (He & _ & [_ Hr _] & _).
  split; [exact H1|exact H2|by apply selected_length|..].
  - rewrite He, length_take. f_equal.
    by rewrite (merge_sort_Permutation by_vote_name ws).
  - apply elected_top.
  - intros r. rewrite Hr. by intros [_ ?]%list_elem_of_filter.
  - apply processed_first.
  - intros w Hw Hen Hno. by apply (turn_of_another sk o ws Hid Hroom w).
Qed.

(** A round, from [s] to [s']. *)
Record round (next : bool) (s s' : schedule_state) (sel : selection) : Prop := {
  round_identity : same_identity (witness_index s) (witness_index s');
  round_roles : role_of <$> witness_index s' = role_after sel <$> witness_index s;
  round_laps : laps sel (witness_index s) (witness_index s') (current_virtual_time (get_schedule next s'));
  round_versions : count_versions next s
    = Ok (majority_version (get_schedule next s'), hardfork_properties s');
  round_schedule : installed (owner <$> active_of sel) (Z.of_nat (length (sel_elected sel)))
    (Z.of_nat (length (sel_miners sel))) (current_virtual_time (get_schedule next s'))
    (majority_version (get_schedule next s')) s (get_schedule next s) (get_schedule next s');
  round_medians : ∃ ws, (∀ w, w ∈ ws → w ∈ witness_index s') ∧
    owner <$> ws = scheduled_names (get_schedule next s') ∧ medians_of ws next s s';
  round_again : round_ready next s'
}.

Lemma finished_round next s s1 s' reset :
  let sel := select_witnesses (hardfork_active HIVE_HARDFORK_0_14__278 s) (get_schedule next s) (witness_index s) in
  round_ready next s → advanced next s reset s1 →
  (1 ≤ length (owner <$> active_of sel))%nat →
  finished next (owner <$> active_of sel) (Z.of_nat (length (sel_elected sel)))
    (Z.of_nat (length (sel_miners sel))) (if reset then 0 else sel_time sel) s1 s' →
  round next s s' sel.
Proof.
  intros sel Hr [Hid Hro Hla Hti (Hh & Hhf & Hb & Hd & Hrt) [t Ht]] Hlen [Hi Hv Ho Hm].
  pose proof (selection_fair next s Hr) as Hfair. fold sel in Hfair.
  destruct Hr as [Hix Hk Hroom Htime].
  destruct (count_versions_identity next s s1 Hid Hh Hhf (ex_intro _ t Ht) Hk) as (r & Hr & Hr').
  assert (r = (majority_version (get_schedule next s'), hardfork_properties s')) as -> by congruence.
  assert (installed (owner <$> active_of sel) (Z.of_nat (length (sel_elected sel)))
    (Z.of_nat (length (sel_miners sel))) (if reset then 0 else sel_time sel)
    (majority_version (get_schedule next s')) s (get_schedule next s) (get_schedule next s')) as Ho'.
  { rewrite Ht in Ho. destruct Ho. split; rewrite <- ?Hb; done. }
  pose proof (installed_time _ _ _ _ _ _ _ _ Ho') as Et.
  split; rewrite ?Hi, ?Et; try done.
  - destruct Hm as (ws & H1 & H2 & [M1 M2 M3 M4 M5 M6 M7 M8]). exists ws. rewrite Hi in H1.
    split; [done|]. split; [done|]. split; try done; unfold hardfork_active in *;
      [by rewrite M7, Hhf, Hd|by rewrite M8, Hhf, Hrt].
  - assert (index_ok (witness_index s')) as Hix' by (rewrite Hi; by apply (identity_index (witness_index s))).
    destruct Ho' as [On Ol Os _ _ _ _ (Ov & Om & _)]. split; [done|..].
    + split; [|done|].
      * rewrite Os, length_fmap. rewrite length_fmap in Hlen. rewrite (fair_number _ _ _ _ Hfair) in *.
        unfold HIVE_MAX_WITNESSES. lia.
      * intros n. rewrite On, Hi, (identity_owners (witness_index s) (witness_index s1) Hid).
        intros (w & -> & Hw)%list_elem_of_fmap. apply list_elem_of_fmap. exists w. split; [done|].
        by apply Hfair.
    + by rewrite Ov, Om.
    + rewrite Et. destruct reset; [limits; lia|]. by apply selected_time.
Qed.

(** The parts of a round in sequence. *)
Lemma update4_parts next s : round_ready next s →
  let sel := select_witnesses (hardfork_active HIVE_HARDFORK_0_14__278 s) (get_schedule next s) (witness_index s) in
  ∃ reset s1, advanced next s reset s1 ∧
    update_witness_schedule4 next s = (fc_assert (Z.of_nat (length (active_of sel)) =?
        Z.min HIVE_MAX_WITNESSES (Z.of_nat (length (witness_index s))))
      "number of active witnesses does not equal expected_active_witnesses" ;;
      finish_round next (owner <$> active_of sel) (Z.of_nat (length (sel_elected sel)))
        (Z.of_nat (length (sel_miners sel))) (if reset then 0 else sel_time sel) s1).
Proof.
  intros Hr sel. destruct (advance_ok next s Hr) as (ws1 & reset & s1 & Ha & Hreset & Hadv).
  fold sel in Ha, Hreset. exists reset, s1. split; [done|]. unfold update_witness_schedule4. fold sel.
  cbn [set_num_pow_witnesses set_witness_index witness_index]. rewrite Ha. cbn [mbind result_bind].
  unfold set_num_pow_witnesses in Hreset |- *. cbn [set_witness_index witness_index] in Hreset |- *.
  rewrite Hreset. cbn [mbind result_bind].
  rewrite <- (Forall2_length _ _ _ (advanced_identity _ _ _ _ Hadv)), length_fmap. done.
Qed.

Lemma ready_nonempty next s : round_ready next s → (1 ≤ length (witness_index s))%nat.
Proof.
  intros [_ Hk _ _]. destruct (scheduled_known next s Hk) as (active & _ & _ & Hin & Hne).
  destruct active as [|w active]; [done|]. specialize (Hin w ltac:(left)).
  destruct (witness_index s); [by apply elem_of_nil in Hin|cbn; lia].
Qed.

Lemma round_exact next s : round_ready next s →
  let skip := hardfork_active HIVE_HARDFORK_0_14__278 s in
  let sel := select_witnesses skip (get_schedule next s) (witness_index s) in
  fairly_selected skip (get_schedule next s) (witness_index s) sel ∧
  if decide (Nat.min 21 (length (filter (enabled skip) (witness_index s)))
             = Nat.min 21 (length (witness_index s)))
  then ∃ s', update_witness_schedule4 next s = Ok s' ∧ round next s s' sel
  else update_witness_schedule4 next s
    = Throw (assert_exception "number of active witnesses does not equal expected_active_witnesses").
Proof.
  intros Hr skip sel. pose proof (selection_fair next s Hr) as Hfair. fold skip sel in Hfair.
  pose proof (ready_nonempty next s Hr) as Hne. pose proof (fair_number _ _ _ _ Hfair) as Hlen.
  split; [done|]. destruct (update4_parts next s Hr) as (reset & s1 & Hadv & ->). fold skip sel.
  rewrite Hlen. case_decide as Hfull.
  - rewrite fc_assert_true by (apply Z.eqb_eq; unfold HIVE_MAX_WITNESSES; lia).
    pose proof (identity_owners _ _ (advanced_identity _ _ _ _ Hadv)) as Hown.
    destruct (count_versions_identity next s s1) as (r & _ & Hc); [apply Hadv..|apply Hr|].
    destruct (finish_exact next (owner <$> active_of sel) (Z.of_nat (length (sel_elected sel)))
      (Z.of_nat (length (sel_miners sel))) (if reset then 0 else sel_time sel) s1 r) as (s' & Hs' & Hf).
    + apply (identity_index (witness_index s)); [apply Hadv..|apply Hr].
    + done.
    + rewrite length_fmap. lia.
    + intros n (w & -> & Hw)%list_elem_of_fmap. rewrite Hown. apply list_elem_of_fmap.
      exists w. split; [done|]. by apply Hfair.
    + exists s'. split; [done|]. eapply (finished_round next s s1 s' reset); [done..| |done].
      fold skip sel. rewrite length_fmap. lia.
  - unfold fc_assert. rewrite (proj2 (Z.eqb_neq _ _)) by (unfold HIVE_MAX_WITNESSES; lia). done.
Qed.

(** C12. A round of the schedule ([update_witness_schedule4]) selects fairly: enabled witnesses only,
    each one once, as many as there are up to 21, the elected with the most votes, and the others
    in the order of their virtual times.  When that fills the schedule, the round succeeds, the
    schedule is a shuffle of the selected witnesses, the times of those whose turn is over move on
    by a lap (everyone starts over when the virtual time overflows), nothing else of the witnesses
    changes, and the database is ready for the next round.  Otherwise, with fewer than 21
    enabled witnesses and some disabled ones, the round is refused. *)
Theorem schedule_round next s : round_ready next s →
  let skip := hardfork_active HIVE_HARDFORK_0_14__278 s in
  let sel := select_witnesses skip (get_schedule next s) (witness_index s) in
  fairly_selected skip (get_schedule next s) (witness_index s) sel ∧
  if decide (Nat.min 21 (length (filter (enabled skip) (witness_index s)))
             = Nat.min 21 (length (witness_index s)))
  then ∃ s', update_witness_schedule4 next s = Ok s' ∧ round next s s' sel
  else update_witness_schedule4 next s
    = Throw (assert_exception "number of active witnesses does not equal expected_active_witnesses").
Proof. apply round_exact. Qed.

(** ** Medians and majorities *)

(** C8. For witnesses whose properties have been validated, [update_median_witness_props] succeeds;
    each property of the schedule becomes a median of the values of the scheduled witnesses, the
    parameters of the account subsidies are set up from the medians, valid for both pools, and the
    global maximum block size and interest rate become those medians before hardfork 28 and stay
    as they are from it on. *)
Theorem medians_valid next s :
  index_ok (witness_index s) → schedule_known (witness_index s) (get_schedule next s) →
  ∃ active s', scheduled next s = Ok active ∧ owner <$> active = scheduled_names (get_schedule next s) ∧
    update_median_witness_props next s = Ok s' ∧ medians_of active next s s' ∧
    witness_index s' = witness_index s ∧
    scheduled_names (get_schedule next s') = scheduled_names (get_schedule next s).
Proof.
  intros Hix Hk. destruct (update_medians_ok next s Hix Hk) as (active & p & rd & wrd & Hs & Hn & Hu & Hm).
  destruct (with_medians_schedule next p rd wrd s) as [Hg Hi].
  exists active, (with_medians next p rd wrd s). by rewrite Hg, Hi.
Qed.

(** C18. What the versions and votes of the scheduled witnesses decide, from hardfork 5 on and with a
    current hardfork other than 22: a new hardfork is set only with the required number of votes for
    that hardfork and that time, and without such a majority the pending one is withdrawn; the
    majority version is the newest that the required number of witnesses run, or stays as it was when
    there is none.  Before hardfork 5 nothing changes; at hardfork 22 the votes are ignored, and
    hardfork 23 is pending afterwards.  The versions compared are such that one of major number 0 is
    below every one of major number 1 also without the major numbers. *)
Theorem hardfork_majority next s active :
  schedule_known (witness_index s) (get_schedule next s) → scheduled next s = Ok active →
  eras_ordered (running_version <$> active) →
  eras_ordered (next_hardfork (hardfork_properties s) :: (hardfork_version_vote <$> active)) →
  ∃ v h, count_versions next s = Ok (v, h) ∧ versions_counted active next s v h.
Proof. apply count_versions_ok. Qed.

(** ** A sample *)

Definition sample_witness (i : Z) (name : account_name_type) (v : Z) (fee : Z) : scheduled_witness :=
  ScheduledWitness i name 0 1
    (ChainProperties (Asset fee HIVE_SYMBOL) 65536 1000 797 347321) (WitnessObject v 0 0 (100 * i))
    timeshare (make_version 1 27 0) (make_version 1 28 0) 1700000000 0.

Definition sample_witnesses : list scheduled_witness :=
  [sample_witness 1 "alice" 500 3000; sample_witness 2 "bob" 900 1000; sample_witness 3 "carol" 100 2000].
Definition sample_active : list scheduled_witness :=
  [sample_witness 2 "bob" 900 1000; sample_witness 1 "alice" 500 3000; sample_witness 3 "carol" 100 2000].

Definition sample_rd : rd_dynamics_params := RdDynamicsParams 1 0 0 0 (RdDecayParams 0 0) 0.

Definition sample_schedule : witness_schedule_object :=
  WitnessScheduleObject 50 100 ("bob"%string :: "alice"%string :: "carol"%string :: replicate 18 ""%string)
    3 1 5 1 0 (ChainProperties (Asset 0 HIVE_SYMBOL) 65536 0 797 347321) (make_version 1 26 0) 20 0 1 2
    sample_rd sample_rd 0.

Definition sample_state : schedule_state :=
  ScheduleState sample_witnesses sample_schedule sample_schedule
    (HardforkProperties (make_version 1 27 0) (make_version 1 27 0) 0) 28 100 1699999999 0 65536 0
    (RcResourceParams sample_rd (RcPriceCurveParams 0 0 0)).

Lemma sample_ready : round_ready false sample_state.
Proof.
  split; [split|split|..]; try (vm_compute; intuition congruence).
  - apply (bool_decide_unpack _). by vm_compute.
  - apply (bool_decide_unpack _). by vm_compute.
  - repeat constructor; vm_compute; intuition congruence.
  - apply Forall_forall, (bool_decide_unpack _). by vm_compute.
Qed.

Definition eras_check (l : list version) : bool :=
  forallb (λ v, (0 <=? v) && (v <=? u32_max)) l &&
  forallb (λ a, forallb (λ b,
    negb ((major_v a =? 0) && (major_v b =? 1)) || (a <? Z.land b 16777215)) l) l.

Lemma eras_check_spec l : eras_check l = true → eras_ordered l.
Proof.
  unfold eras_check. rewrite andb_true_iff, !forallb_forall. intros [Hr Ho]. split.
  - apply Forall_forall. intros v Hv%list_elem_of_In%Hr. bool_to_prop. lia.
  - intros a b Ha%list_elem_of_In Hb%list_elem_of_In E1 E2. specialize (Ho a Ha).
    rewrite forallb_forall in Ho. specialize (Ho b Hb). rewrite E1, E2 in Ho. cbn in Ho.
    by apply Z.ltb_lt.
Qed.

Lemma schedule_round_witness : ∃ s', update_witness_schedule4 false sample_state = Ok s' ∧
  round_ready false s' ∧ num_scheduled_witnesses (get_schedule false s') = 3.
Proof.
  destruct (schedule_round false sample_state sample_ready) as [_ H].
  rewrite decide_True in H by by vm_compute. destruct H as (s' & Hs & Hr). exists s'.
  split; [done|]. split; [apply Hr|]. rewrite (installed_size _ _ _ _ _ _ _ _ (round_schedule _ _ _ _ Hr)).
  by vm_compute.
Defined.

Lemma medians_valid_witness : ∃ s', update_median_witness_props false sample_state = Ok s' ∧
  is_median (λ w, amount (account_creation_fee (props w))) sample_active
    (amount (account_creation_fee (median_props (get_schedule false s')))).
Proof.
  destruct (medians_valid false sample_state (ready_index _ _ sample_ready) (ready_known _ _ sample_ready))
    as (active & s' & Ha & _ & Hu & Hm & _).
  exists s'. split; [done|]. destruct Hm as [[Hf _] _ _ _ _ _ _ _]. vm_compute in Ha. injection Ha as <-.
  exact Hf.
Defined.

Lemma hardfork_majority_witness : ∃ v h, count_versions false sample_state = Ok (v, h) ∧
  next_hardfork h = make_version 1 28 0.
Proof.
  destruct (hardfork_majority false sample_state sample_active)
    as (v & h & Hc & _).
  - apply sample_ready.
  - by vm_compute.
  - by apply eras_check_spec; vm_compute.
  - by apply eras_check_spec; vm_compute.
  - exists v, h. split; [done|]. vm_compute in Hc. by injection Hc as _ <-.
Defined.
