(* ===== verification/WitnessTurns.v ===== *)
(** * Every enabled witness gets its turn

    The virtual times of [update_witness_schedule4] are a stride scheduler: an enabled witness that
    is not elected is scheduled after a number of rounds that its time and the laps of the others
    bound ([turn_comes]). *)

From S2P Require Import Prelude Safe AssetSymbol Asset Version OperationTypes Operations Raw Account Governance.
From S2P Require Import ResourceDynamics ResourceCost ResourceCount RcDelegations RcCharge.
From S2P Require Import WitnessSchedule WitnessSelection WitnessMedians WitnessVotes WitnessRound WitnessMain.
From stdpp Require Import pretty.
Open Scope Z_scope.

Abbreviation time_of w := (virtual_scheduled_time (voting w)).

(** ** A bound on the turns of the others *)

(** How many turns [u] can have until the time [t]. *)
Definition turns_of (t : Z) (u : scheduled_witness) : Z :=
  if time_of u <=? t then (t - time_of u) / lap_of u + 1 else 0.

(** How many turns come before the time [t], including that of the witness itself. *)
Definition turns (t : Z) (ws : list scheduled_witness) : Z := sumZ (turns_of t <$> ws).

Lemma turns_of_nonneg t u : witness_ok u → 0 ≤ turns_of t u.
Proof.
  intros Hu. unfold turns_of. pose proof (lap_bound u Hu). destruct (Z.leb_spec (time_of u) t); [|lia].
  pose proof (Z.div_pos (t - time_of u) (lap_of u) ltac:(lia) ltac:(lia)). lia.
Qed.

(** A later time leaves no more turns, and a lap later one less. *)
Lemma turns_of_later t u u' : witness_ok u → lap_of u' = lap_of u → time_of u ≤ time_of u' →
  turns_of t u' ≤ turns_of t u.
Proof.
  intros Hu El Ht. unfold turns_of. rewrite El. pose proof (lap_bound u Hu).
  destruct (Z.leb_spec (time_of u') t), (Z.leb_spec (time_of u) t); try lia.
  - pose proof (Z.div_le_mono (t - time_of u') (t - time_of u) (lap_of u) ltac:(lia) ltac:(lia)). lia.
  - pose proof (Z.div_pos (t - time_of u) (lap_of u) ltac:(lia) ltac:(lia)). lia.
Qed.

Lemma turns_of_lap t u u' : witness_ok u → lap_of u' = lap_of u → time_of u ≤ t →
  time_of u + lap_of u ≤ time_of u' → turns_of t u' + 1 ≤ turns_of t u.
Proof.
  intros Hu El Hle Ht. unfold turns_of. rewrite El. pose proof (lap_bound u Hu).
  rewrite (proj2 (Z.leb_le (time_of u) t)) by done.
  pose proof (Z.div_pos (t - time_of u) (lap_of u) ltac:(lia) ltac:(lia)).
  destruct (Z.leb_spec (time_of u') t); [|lia].
  pose proof (Z.div_le_mono (t - time_of u') (t - time_of u + -1 * lap_of u) (lap_of u) ltac:(lia) ltac:(lia)) as Hd.
  rewrite Z.div_add in Hd by lia. lia.
Qed.

Lemma turns_step t ws ws' j u u' :
  Forall2 (λ v v', turns_of t v' ≤ turns_of t v) ws ws' →
  ws !! j = Some u → ws' !! j = Some u' → turns_of t u' + 1 ≤ turns_of t u →
  turns t ws' + 1 ≤ turns t ws.
Proof.
  intros H. unfold turns.
  assert (∀ l l', Forall2 (λ v v', turns_of t v' ≤ turns_of t v) l l' →
    sumZ (turns_of t <$> l') ≤ sumZ (turns_of t <$> l)) as Hle.
  { induction 1 as [|v v' l l' Hv _ IH]; [done|]. rewrite !fmap_cons, !sumZ_cons. lia. }
  revert j. induction H as [|v v' l l' Hv Hl IH]; intros [|j]; try done;
    rewrite !fmap_cons, !sumZ_cons.
  - intros [= ->] [= ->] Hs. specialize (Hle _ _ Hl). lia.
  - intros Hu Hu' Hs. specialize (IH j Hu Hu' Hs). lia.
Qed.

Lemma turns_own t ws i w : Forall witness_ok ws → ws !! i = Some w → time_of w ≤ t → 1 ≤ turns t ws.
Proof.
  intros Hok Hi Ht. apply list_elem_of_lookup_2 in Hi. unfold turns. induction Hok as [|u ws Hu Hws IH].
  { by apply elem_of_nil in Hi. }
  pose proof (turns_of_nonneg t u Hu) as H0.
  assert (0 ≤ sumZ (turns_of t <$> ws)) as H1.
  { apply sumZ_nonneg, Forall_fmap. eapply Forall_impl; [exact Hws|]. intros v. apply turns_of_nonneg. }
  rewrite fmap_cons, sumZ_cons. apply elem_of_cons in Hi as [->|Hi]; [|specialize (IH Hi); lia].
  unfold turns_of at 1. rewrite (proj2 (Z.leb_le _ _)) by done. pose proof (lap_bound u Hu).
  pose proof (Z.div_pos (t - time_of u) (lap_of u) ltac:(lia) ltac:(lia)). lia.
Qed.

(** ** A round without the witness *)

(** No witness whose time comes before [t] makes the virtual time overflow. *)
Definition no_overflow (t : Z) (ws : list scheduled_witness) : Prop :=
  ∀ u, u ∈ ws → time_of u ≤ t → t + lap_of u ≤ u128_max.

(** There is room for one witness by time. *)
Definition time_share (o : witness_schedule_object) : Prop :=
  0 ≤ max_voted_witnesses o ∧ 0 ≤ max_miner_witnesses o ∧
  max_voted_witnesses o + max_miner_witnesses o < HIVE_MAX_WITNESSES.

Section step.
Context (next : bool) (s s' : schedule_state) (Hready : round_ready next s).
Context (Hshare : time_share (get_schedule next s)) (Hu : update_witness_schedule4 next s = Ok s').

Abbreviation sk := (hardfork_active HIVE_HARDFORK_0_14__278 s).
Abbreviation sel := (select_witnesses sk (get_schedule next s) (witness_index s)).

Lemma round_of : fairly_selected sk (get_schedule next s) (witness_index s) sel ∧ round next s s' sel.
Proof using Hready Hu.
  destruct (round_exact next s Hready) as [Hf Hr]. split; [done|].
  case_decide; [|congruence]. destruct Hr as (s1 & Hs1 & Hr). by assert (s' = s1) as -> by congruence.
Qed.

Lemma share_left : (length (sel_elected sel ++ sel_miners sel) < 21)%nat.
Proof using Hshare.
  destruct (selected_loops sk (get_schedule next s) (witness_index s)) as (He & [_ _ Hm] & _ & _).
  rewrite length_app, He, length_take. destruct Hshare as (H1 & H2 & H3). unfold HIVE_MAX_WITNESSES in H3.
  cbn zeta in *. lia.
Qed.

Lemma earlier a b : by_schedule_time a b → time_of a ≤ time_of b.
Proof using. unfold by_schedule_time. lia. Qed.

Context (i : nat) (w : scheduled_witness) (Hi : witness_index s !! i = Some w) (Hkey : signing_key w ≠ 0).
Context (Hout : owner w ∉ scheduled_names (get_schedule next s')).

Lemma key_enabled : enabled sk w.
Proof using Hkey. unfold enabled, passed_over, is_disabled. rewrite (proj2 (Z.eqb_neq _ _)) by done. by rewrite andb_false_r. Qed.

(** Another one has its turn, before [w]. *)
Lemma other_turn : ∃ r, r ∈ witness_index s ∧ r ∈ sel_processed sel ∧ time_of r ≤ sel_time sel ≤ time_of w ∧
  w ∉ sel_processed sel.
Proof using Hready Hshare Hu Hi Hkey Hout.
  destruct round_of as [Hf Hr]. assert (w ∈ witness_index s) as Hw by by eapply list_elem_of_lookup_2.
  assert (w ∉ active_of sel) as Hno.
  { intros Ha. apply Hout. rewrite (installed_names _ _ _ _ _ _ _ _ (round_schedule _ _ _ _ Hr)).
    apply list_elem_of_fmap. by exists w. }
  destruct (turn_of_another sk (get_schedule next s) (witness_index s) (index_ids _ (ready_index _ _ Hready))
    (ready_room _ _ Hready) w Hw key_enabled Hno) as (_ & Hrun & Hnp).
  destruct (Hrun share_left) as (r & Hrr & Hrp & Hrw). exists r.
  split; [by apply (processed_members next s Hready)|]. split; [done|]. split; [|done].
  split; [by apply processed_bound|].
  destruct (selected_loops sk (get_schedule next s) (witness_index s)) as (_ & _ & _ & ->).
  destruct (last (sel_processed sel)) as [p|] eqn:Hl; cbn.
  - apply last_Some_elem_of in Hl. by apply earlier, (fair_turns _ _ _ _ Hf).
  - apply last_None in Hl. rewrite Hl in Hrp. by apply elem_of_nil in Hrp.
Qed.

(** The times go on. *)
Lemma step_times : no_overflow (time_of w) (witness_index s) →
  Forall2 (λ u u', identity_of u' = identity_of u ∧
    voting u' = if decide (witness_id u ∈ witness_id <$> sel_processed sel)
                then next_lap (sel_time sel) u else voting u) (witness_index s) (witness_index s').
Proof using Hready Hshare Hu Hi Hkey Hout.
  intros Hno. destruct round_of as [Hf [Hid _ Hl _ _ _ _]]. destruct other_turn as (_ & _ & _ & [_ Ht] & Hw).
  apply Forall2_same_length_lookup_2; [by eapply Forall2_length|]. intros j u u' Hj Hj'.
  split; [by apply (Forall2_lookup_lr _ _ _ _ _ _ Hid Hj Hj')|].
  destruct Hl as [_ _ Hv|p Hp Hgt _ _]; [by eapply Hv|].
  assert (time_of p ≤ time_of w) as Hpw.
  { apply earlier, (fair_turns _ _ _ _ Hf); [done| |done]. by eapply list_elem_of_lookup_2. }
  specialize (Hno p (processed_members next s Hready p Hp) Hpw). lia.
Qed.

(** What is processed had a time that is over. *)
Lemma step_later j u u' : no_overflow (time_of w) (witness_index s) →
  witness_index s !! j = Some u → witness_index s' !! j = Some u' →
  witness_ok u ∧ lap_of u' = lap_of u ∧ time_of u ≤ time_of u' ∧
  (u ∈ sel_processed sel → time_of u + lap_of u ≤ time_of u').
Proof using Hready Hshare Hu Hi Hkey Hout.
  intros Hno Hj Hj'. destruct (Forall2_lookup_lr _ _ _ _ _ _ (step_times Hno) Hj Hj') as [E Ev].
  pose proof (ready_witness next s Hready j u Hj) as Hok. pose proof (lap_bound u Hok) as Hlap.
  assert (lap_of u' = lap_of u) as El.
  { unfold lap_of. injection E as _ _ _ _ -> _. done. }
  split; [done|]. split; [done|]. rewrite Ev. case_decide as Hp.
  - apply list_elem_of_fmap in Hp as (p & Ep & Hp). assert (u = p) as ->.
    { apply (same_id (witness_index s)); [apply Hready|by eapply list_elem_of_lookup_2| |done].
      by apply (processed_members next s Hready). }
    pose proof (processed_bound sk (get_schedule next s) (witness_index s) p Hp). cbn. lia.
  - split; [lia|]. intros Hp'. destruct Hp. by apply list_elem_of_fmap_2.
Qed.

Lemma step_turns : no_overflow (time_of w) (witness_index s) →
  no_overflow (time_of w) (witness_index s') ∧
  turns (time_of w) (witness_index s') + 1 ≤ turns (time_of w) (witness_index s) ∧
  ∃ w', witness_index s' !! i = Some w' ∧ identity_of w' = identity_of w ∧ time_of w' = time_of w.
Proof using Hready Hshare Hu Hi Hkey Hout.
  intros Hno. pose proof (step_times Hno) as Hs. split; [|split].
  - intros u' (j & Hj')%list_elem_of_lookup Hle.
    destruct (Forall2_lookup_r _ _ _ _ _ Hs Hj') as (u & Hj & _).
    destruct (step_later j u u' Hno Hj Hj') as (_ & -> & Ht & _).
    apply Hno; [by eapply list_elem_of_lookup_2|lia].
  - destruct other_turn as (r & (j & Hj)%list_elem_of_lookup & Hrp & Hrt & _).
    destruct (Forall2_lookup_l _ _ _ _ _ Hs Hj) as (r' & Hj' & _).
    destruct (step_later j r r' Hno Hj Hj') as (Hok & El & _ & Hlap).
    eapply (turns_step _ _ _ j r r'); [|done..|apply turns_of_lap; [done..|lia|by apply Hlap]].
    apply Forall2_same_length_lookup_2; [by eapply Forall2_length|]. intros k u u' Hk Hk'.
    destruct (step_later k u u' Hno Hk Hk') as (Hu1 & Hu2 & Hu3 & _). by apply turns_of_later.
  - destruct (Forall2_lookup_l _ _ _ _ _ Hs Hi) as (w' & Hi' & E & Ev). exists w'.
    split; [done|]. split; [done|]. rewrite Ev. case_decide as Hp; [|done].
    apply list_elem_of_fmap in Hp as (p & Ep & Hp). destruct other_turn as (_ & _ & _ & _ & []).
    assert (w = p) as ->; [|done].
    apply (same_id (witness_index s)); [apply Hready|by eapply list_elem_of_lookup_2| |done].
    by apply (processed_members next s Hready).
Qed.

End step.

(** ** Rounds *)

(** Between two rounds the database may change, as long as the votes, the times and the keys of the
    witnesses stay. *)
Definition kept (u : scheduled_witness) := (witness_id u, owner u, signing_key u, voting u).

Record undisturbed (next : bool) (s e : schedule_state) : Prop := {
  undisturbed_witnesses : kept <$> witness_index e = kept <$> witness_index s;
  undisturbed_ready : round_ready next e;
  undisturbed_share : time_share (get_schedule next e)
}.

(** A sequence of rounds, with the names that each one schedules. *)
Inductive rounds (next : bool) : schedule_state → list (list account_name_type) → schedule_state → Prop :=
| rounds_none s : rounds next s [] s
| rounds_one s e s' schedules s'' :
    undisturbed next s e → update_witness_schedule4 next e = Ok s' → rounds next s' schedules s'' →
    rounds next s (scheduled_names (get_schedule next s') :: schedules) s''.

Lemma kept_lookup (ws ws' : list scheduled_witness) (i : nat) w : kept <$> ws' = kept <$> ws → ws !! i = Some w →
  ∃ w', ws' !! i = Some w' ∧ kept w' = kept w.
Proof.
  intros E Hi. assert ((kept <$> ws') !! i = Some (kept w)) as H by (rewrite E, list_lookup_fmap, Hi; done).
  rewrite list_lookup_fmap in H. destruct (ws' !! i) as [w'|]; [|done]. exists w'. split; [done|].
  cbn in H. congruence.
Qed.

Lemma kept_turns t ws ws' : kept <$> ws' = kept <$> ws → turns t ws' = turns t ws.
Proof.
  revert ws'. induction ws as [|u ws IH]; intros [|u' ws']; try done. rewrite !fmap_cons.
  intros [= _ _ _ Ev E]. unfold turns in *. rewrite !fmap_cons, !sumZ_cons, (IH ws' E).
  f_equal. unfold turns_of, lap_of. by rewrite Ev.
Qed.

Lemma kept_no_overflow t ws ws' : kept <$> ws' = kept <$> ws → no_overflow t ws → no_overflow t ws'.
Proof.
  intros E Hno u (i & Hi)%list_elem_of_lookup.
  destruct (kept_lookup ws' ws i u (eq_sym E) Hi) as (v & Hv & [= _ _ _ Ev]).
  specialize (Hno v ltac:(by eapply list_elem_of_lookup_2)). unfold lap_of in *. by rewrite Ev in Hno.
Qed.

(** While the witness is left out, every round uses up a turn of another. *)
Lemma rounds_without next s schedules s' t n :
  rounds next s schedules s' → (∀ names, names ∈ schedules → n ∉ names) →
  schedules ≠ [] →
  (∃ i w, witness_index s !! i = Some w ∧ owner w = n ∧ signing_key w ≠ 0 ∧ time_of w = t) →
  no_overflow t (witness_index s) →
  Z.of_nat (length schedules) + 1 ≤ turns t (witness_index s).
Proof.
  intros Hr Hout Hne. induction Hr as [s|s e s1 schedules s2 [Hk Hready Hshare] Hu Hr IH]; [done|].
  intros (i & w & Hi & <- & Hkey & <-) Hno.
  destruct (kept_lookup _ _ _ _ Hk Hi) as (v & Hv & [= _ Eo Ek Ev]). rewrite <- Ek in Hkey.
  apply (kept_no_overflow _ _ _ Hk) in Hno. rewrite <- (kept_turns _ _ _ Hk).
  rewrite <- Ev in Hno |- *. rewrite <- Eo in Hout.
  destruct (step_turns next e s1 Hready Hshare Hu i v Hv Hkey) as (Hno' & Hlt & v' & Hv' & E & Et);
    [apply Hout; left|done|]. cbn [length].
  destruct schedules as [|names schedules].
  { destruct (round_of next e s1 Hready Hu) as [_ Hro].
    pose proof (turns_own (time_of v) (witness_index s1) i v'
      (index_witnesses _ (ready_index _ _ (round_again _ _ _ _ Hro))) Hv' ltac:(lia)). cbn. lia. }
  injection E as _ E2 E3 _. assert (Z.of_nat (length (names :: schedules)) + 1 ≤ turns (time_of v) (witness_index s1)).
  { rewrite <- Eo, <- Ev in IH. apply IH; [|done| |done].
    - intros ns Hns. apply Hout. by right.
    - exists i, v'. by rewrite E3. }
  lia.
Qed.

(** C24. A witness with a signing key is scheduled after at most as many rounds as [turns] says: one for
    itself and, for each of the others, those that fit between its virtual time and that of the
    witness, as long as votes, times and keys are not changed between the rounds and no
    overflow restarts the virtual time before. *)
Theorem turn_comes next s schedules s' i w :
  witness_index s !! i = Some w → signing_key w ≠ 0 → no_overflow (time_of w) (witness_index s) →
  rounds next s schedules s' → schedules ≠ [] →
  turns (time_of w) (witness_index s) ≤ Z.of_nat (length schedules) →
  ∃ names, names ∈ schedules ∧ owner w ∈ names.
Proof.
  intros Hi Hkey Hno Hr Hne Hlen.
  destruct (decide (Exists (λ names, owner w ∈ names) schedules)) as [Hex|Hex].
  { by apply Exists_exists in Hex. }
  assert (Z.of_nat (length schedules) + 1 ≤ turns (time_of w) (witness_index s)); [|lia].
  apply (rounds_without next s schedules s' (time_of w) (owner w)); [done| |done| |done].
  - intros names Hn Hw. apply Hex, Exists_exists. by exists names.
  - by exists i, w.
Qed.

(** ** A sample *)

(** Twenty elected witnesses, and three that share the last place. *)
Definition shared_witness (i v t : Z) : scheduled_witness :=
  ScheduledWitness i (pretty (Z.to_N i)) 0 1
    (ChainProperties (Asset 3000 HIVE_SYMBOL) 65536 1000 797 347321) (WitnessObject v 0 0 t)
    timeshare (make_version 1 27 0) (make_version 1 27 0) 0 0.

Definition shared_witnesses : list scheduled_witness :=
  ((λ i, shared_witness (Z.of_nat i) 1000 (1000 + Z.of_nat i)) <$> seq 1 20) ++
  [shared_witness 21 7 1; shared_witness 22 9 2; shared_witness 23 5 3].

Definition shared_state : schedule_state :=
  let o := WitnessScheduleObject 0 100 (owner <$> take 21 shared_witnesses)
    21 1 5 1 0 (ChainProperties (Asset 0 HIVE_SYMBOL) 65536 0 797 347321) (make_version 1 26 0) 20 0 1 17
    sample_rd sample_rd 0 in
  ScheduleState shared_witnesses o o
    (HardforkProperties (make_version 1 27 0) (make_version 1 27 0) 0) 28 100 1699999999 0 65536 0
    (RcResourceParams sample_rd (RcPriceCurveParams 0 0 0)).

(** With the keys of all witnesses set, rounds go on without end. *)
Lemma rounds_exist next n s :
  round_ready next s → time_share (get_schedule next s) → Forall (λ k, k ≠ 0) (signing_key <$> witness_index s) →
  ∃ schedules s', rounds next s schedules s' ∧ length schedules = n.
Proof.
  revert s. induction n as [|n IH]; intros s Hr Hs Hk; [by exists [], s; split; [constructor|]|].
  destruct (round_exact next s Hr) as [_ Hround]. rewrite decide_True in Hround.
  - destruct Hround as (s1 & Hu & [Hid _ _ _ [_ _ _ _ _ _ _ (Hv & Hm & _)] _ Hr1]).
    destruct (IH s1) as (schedules & s2 & Hrs & Hlen); [done|..].
    + unfold time_share. by rewrite Hv, Hm.
    + rewrite (identity_fmap signing_key (witness_index s)); [done| |done]. intros w w' E. by injection E.
    + eexists _, s2. split; [by eapply rounds_one|]. cbn. by rewrite Hlen.
  - do 2 f_equal. apply filter_all, Forall_forall. intros w Hw. apply key_enabled.
    rewrite Forall_fmap in Hk. by eapply (proj1 (Forall_forall _ _)) in Hk.
Qed.

Lemma shared_ready : round_ready false shared_state.
Proof.
  split; [split|split|..]; try (vm_compute; intuition congruence).
  - apply (bool_decide_unpack _). by vm_compute.
  - apply (bool_decide_unpack _). by vm_compute.
  - repeat constructor; vm_compute; intuition congruence.
  - apply Forall_forall, (bool_decide_unpack _). by vm_compute.
Qed.

Lemma turn_comes_witness : ∃ schedules s', rounds false shared_state schedules s' ∧ length schedules = 3%nat ∧
  ∃ names, names ∈ schedules ∧ "23"%string ∈ names.
Proof.
  destruct (rounds_exist false 3 shared_state) as (schedules & s' & Hr & Hlen).
  - apply shared_ready.
  - by vm_compute.
  - apply (bool_decide_unpack _). by vm_compute.
  - exists schedules, s'. split; [done|]. split; [done|].
    apply (turn_comes false shared_state schedules s' 22 (shared_witness 23 5 3)).
    + done.
    + done.
    + refine (proj1 (Forall_forall (λ u, time_of u ≤ 3 → 3 + lap_of u ≤ u128_max) _) _).
      apply (bool_decide_unpack _). by vm_compute.
    + done.
    + intros ->. done.
    + rewrite Hlen. by vm_compute.
Defined.
