(* ===== verification/Irreversibility.v ===== *)
(** * Irreversible blocks

    [src/libraries/chain/sync_block_writer.cpp], [find_new_last_irreversible_block]: the block that
    enough of the scheduled witnesses have voted for, by building on it or by a fast confirmation;
    and the functions of [src/libraries/chain/database.cpp] that record the confirmations and move
    the last irreversible block on. *)

From S2P Require Import Prelude Safe AssetSymbol Asset Version OperationTypes Operations Account Governance.
From S2P Require Import ForkDatabase ResourceDynamics ResourceCost ResourceCount RcDelegations RcCharge WitnessSchedule.
Open Scope Z_scope.

(** [HIVE_IRREVERSIBLE_THRESHOLD]. *)
Definition HIVE_IRREVERSIBLE_THRESHOLD : Z := 75 * 100.

#[export] Instance block_id_countable : Countable block_id_type.
Proof.
  apply (inj_countable' (λ i, (id_word0 i, id_rest i)) (λ p, BlockId p.1 p.2)). by intros [].
Defined.

(** ** Votes *)

(** The block a witness votes for: the newer of the last that it confirmed and the last that it
    produced. *)
Definition best_vote (fast last : gmap account_name_type block_id_type) (owner : account_name_type) :
    option block_id_type :=
  match fast !! owner, last !! owner with
  | Some f, Some l => Some (if num_from_id l <? num_from_id f then f else l)
  | Some f, None => Some f
  | None, l => l
  end.

Definition count_approval (m : gmap block_id_type Z) (vote : option block_id_type) : gmap block_id_type Z :=
  match vote with Some id => <[ id := u32 (default 0 (m !! id) + 1) ]> m | None => m end.

(** [number_of_approvals_by_block_id]. *)
Definition number_of_approvals (fast last : gmap account_name_type block_id_type)
    (owners : list account_name_type) : gmap block_id_type Z :=
  foldl (λ m w, count_approval m (best_vote fast last w)) ∅ owners.

(** ** The search *)

(** The candidate, and the head of the fork on which it was found. *)
Record lib_candidate : Set := LibCandidate { new_head : Z; new_lib : Z }.

Section search.
Context (x : fork_database) (approvals : gmap block_id_type Z) (required old_lib : Z).

(** The condition of the walk: above the last irreversible block, and not below the candidate. *)
Definition considered (best : option lib_candidate) (b : Z) : bool :=
  (old_lib <? item_num x b) &&
  match best with
  | None => true
  | Some c => (b =? new_lib c) || (item_num x (new_lib c) <? item_num x b)
  end.

(** The walk backwards over the blocks of a fork. *)
Fixpoint walk_fork (fuel : nat) (best : option lib_candidate) (h count : Z) (this : option Z) :
    option lib_candidate :=
  match this, fuel with
  | None, _ | _, O => best
  | Some b, S fuel =>
      if considered best b then
        let count := u32 (count + default 0 (approvals !! item_id x b)) in
        if required <=? count then
          match best with
          | None => Some (LibCandidate h b)
          | Some c => if item_num x (new_head c) <? item_num x h then Some (LibCandidate h b) else best
          end
        else walk_fork fuel best h count (lock_prev x b)
      else best
  end.

(** The number of the head is enough fuel: the numbers of the blocks fall by one. *)
Definition search_forks (heads : list Z) : option lib_candidate :=
  foldl (λ best h, walk_fork (S (climb_fuel x h)) best h 0 (Some h)) None heads.

End search.

Record new_last_irreversible_block_t : Set := NewLastIrreversibleBlock {
  new_last_irreversible_block_num : Z;
  found_on_another_fork : bool;
  new_head_block : Z
}.

(** [order] is the order in which the hashed container of the fork database lists its items. *)
Definition find_new_last_irreversible_block (order : list Z → list Z) (x : fork_database)
    (owners : list account_name_type) (fast : gmap account_name_type block_id_type)
    (required old_lib : Z) : result (option new_last_irreversible_block_t) :=
  let approvals := number_of_approvals fast (get_last_block_generated_by_each_witness x) owners in
  match search_forks x approvals required old_lib (order (fetch_heads x)) with
  | None => Ok None
  | Some c =>
      main ← fetch_block_on_main_branch_by_number x (item_num x (new_lib c));
      Ok (Some (NewLastIrreversibleBlock (item_num x (new_lib c))
        (negb (bool_decide (main = Some (new_lib c)))) (new_head c)))
  end.

(** ** The database *)

(** The part of the database that irreversibility reads and writes; [last_confirmed] is the field
    [last_confirmed_block_num] of the witnesses. *)
Record lib_state : Set := LibState {
  lib_schedule : schedule_state;
  last_confirmed : gmap account_name_type Z;
  head_num : Z;                                            (* uint32_t *)
  last_irreversible : Z;                                   (* uint32_t *)
  last_fast_approved_block_by_witness : gmap account_name_type block_id_type;
  lib_forks : fork_database
}.

Definition set_last_irreversible (n : Z) (s : lib_state) : lib_state :=
  LibState (lib_schedule s) (last_confirmed s) (head_num s) n (last_fast_approved_block_by_witness s)
    (lib_forks s).
Definition set_fast_approved (m : gmap account_name_type block_id_type) (s : lib_state) : lib_state :=
  LibState (lib_schedule s) (last_confirmed s) (head_num s) (last_irreversible s) m (lib_forks s).

Definition set_last_irreversible_block_num (block_num : Z) (s : lib_state) : result lib_state :=
  fc_assert (last_irreversible s <=? block_num) "Irreversible block can only move forward" ;;
  Ok (set_last_irreversible block_num s).

(** [get_witness_schedule_object_for_irreversibility] and the witnesses that it names. *)
Definition lib_witnesses (s : lib_state) : result (list scheduled_witness) :=
  scheduled (hardfork_active HIVE_HARDFORK_1_26 (lib_schedule s)) (lib_schedule s).

Definition lib_offset (size : Z) : Z :=
  (HIVE_100_PERCENT - HIVE_IRREVERSIBLE_THRESHOLD) * size / HIVE_100_PERCENT.

(** The last block that enough witnesses have produced after, by [std::nth_element]. *)
Definition confirmed_by_production (witnesses : list scheduled_witness) (s : lib_state) : result Z :=
  let nums := (λ w, default 0 (last_confirmed s !! owner w)) <$> witnesses in
  n ← from_option_or undefined_behaviour
    (merge_sort Z.le nums !! Z.to_nat (lib_offset (Z.of_nat (length witnesses))));
  Ok (u32 n).

Definition advance_to (block_num : Z) (s : lib_state) : result lib_state :=
  if last_irreversible s <? block_num then set_last_irreversible_block_num block_num s else Ok s.

(** The confirmations of blocks that are irreversible are dropped. *)
Definition drop_confirmations (s : lib_state) : lib_state :=
  set_fast_approved (filter (λ p, last_irreversible s < num_from_id p.2)
    (last_fast_approved_block_by_witness s)) s.

Definition settle_irreversible (n : Z) (s : lib_state) : result lib_state :=
  s ← set_last_irreversible_block_num (Z.min n (head_num s)) s;
  Ok (drop_confirmations s).

(** What the caller does to switch forks: the answer, if it gives one, and the new database. *)
Definition switch_forks_t : Type := Z → Z → lib_state → result (option Z * lib_state).

Definition update_last_irreversible_block (order : list Z → list Z) (skip_block_log : bool)
    (sf : option switch_forks_t) (s : lib_state) : result (Z * lib_state) :=
  let old := last_irreversible s in
  if head_num s <? HIVE_START_MINER_VOTING_BLOCK then
    s ← (if HIVE_MAX_WITNESSES <? head_num s then advance_to (u32 (head_num s - HIVE_MAX_WITNESSES)) s
         else Ok s);
    Ok (old, s)
  else if old =? head_num s then Ok (old, s)
  else
    witnesses ← lib_witnesses s;
    if skip_block_log then
      n ← confirmed_by_production witnesses s;
      s ← advance_to n s;
      Ok (old, s)
    else
      let owners := owner <$> witnesses in
      let required := u32 (Z.of_nat (length (remove_dups owners)) - lib_offset (Z.of_nat (length witnesses))) in
      found ← find_new_last_irreversible_block order (lib_forks s) owners
        (last_fast_approved_block_by_witness s) required old;
      match found with
      | None => Ok (old, s)
      | Some r =>
          if found_on_another_fork r then
            if item_num (lib_forks s) (new_head_block r) <? head_num s then Ok (old, s)
            else match sf with
            | None => Ok (old, s)
            | Some switch =>
                '(answer, s) ← switch (new_head_block r) old s;
                match answer with
                | Some n => Ok (n, s)
                | None => s ← settle_irreversible (new_last_irreversible_block_num r) s; Ok (old, s)
                end
            end
          else s ← settle_irreversible (new_last_irreversible_block_num r) s; Ok (old, s)
      end.

(** The last part of [process_fast_confirm_transaction], after the transaction is validated and
    before what became irreversible is stored. *)
Definition process_fast_confirm (order : list Z → list Z) (skip_block_log : bool)
    (sf : option switch_forks_t) (w : account_name_type) (block_id : block_id_type) (s : lib_state) :
    result lib_state :=
  witnesses ← lib_witnesses s;
  let fast := last_fast_approved_block_by_witness s in
  let newer := match fast !! w with
               | Some id => negb (num_from_id block_id <=? num_from_id id)
               | None => true
               end in
  if bool_decide (w ∈ (owner <$> witnesses : list account_name_type)) && newer then
    '(_, s) ← update_last_irreversible_block order skip_block_log sf
      (set_fast_approved (<[ w := block_id ]> fast) s);
    Ok s
  else Ok s.
