(* ===== verification/IrreversibleMain.v ===== *)
(** * What becomes irreversible

    The search of [Irreversibility] finds exactly the blocks that enough scheduled witnesses have
    voted for ([new_irreversible_exact]), two such blocks are never on different forks
    when enough is more than half ([irreversible_blocks_agree]), and the last irreversible block only moves forward
    ([irreversible_forward]). *)

From S2P Require Import Prelude Safe AssetSymbol Asset Version OperationTypes Operations Account Governance.
From S2P Require Import ForkDatabase ResourceDynamics ResourceCost ResourceCount RcDelegations RcCharge WitnessSchedule WitnessMedians WitnessRound WitnessMain Irreversibility.
Open Scope Z_scope.

(** ** Paths *)

Lemma path_trans x p l q l' r : path x p l q → path x q l' r → path x p (l ++ l') r.
Proof. induction 1; [done|]. intros. cbn. econstructor; eauto. Qed.

(** Of two blocks below another one, one is below the other. *)
Lemma path_split x p l q l' r : path x p l q → path x p l' r →
  (∃ k, path x q k r ∧ l' = l ++ k) ∨ (∃ k, path x r (r :: k) q ∧ l = l' ++ r :: k).
Proof.
  intros H. revert l' r. induction H as [p|p p' l q Hp H IH]; intros l' r H'; [by left; exists l'|].
  destruct H' as [p|p p'' l' r Hp' H'].
  - right. exists l. split; [by econstructor|done].
  - assert (p'' = p') as -> by congruence. destruct (IH l' r H') as [(k & Hk & ->)|(k & Hk & ->)].
    + left. by exists k.
    + right. by exists k.
Qed.

Lemma path_owned x p l q : owned x p → path x p l q → owned x q ∧ ∀ r, r ∈ l → owned x r.
Proof.
  intros Hp H. induction H as [p|p p' l q Hpp' H IH]; [split; [done|by intros r ?%elem_of_nil]|].
  destruct IH as [Hq Hl]; [by eapply lock_prev_owned|]. split; [done|].
  intros r [->|Hr]%elem_of_cons; [done|by apply Hl].
Qed.

(** ** Votes along a fork *)

Section search_spec.
Context (x : fork_database) (Hinv : fork_inv [] x).
Context (approvals : gmap block_id_type Z) (required old_lib : Z).

Definition votes_on (l : list Z) : Z := sumZ ((λ p, default 0 (approvals !! item_id x p)) <$> l).

(** The votes for [b] and for what was built on it, on the fork of [h], are enough. *)
Definition confirmed (h b : Z) : Prop := ∃ l, path x h l b ∧ required ≤ votes_on (l ++ [b]).

Context (Hpos : ∀ id, 0 ≤ default 0 (approvals !! id)).
Context (Hsmall : ∀ h l b, path x h l b → votes_on (l ++ [b]) ≤ u32_max).
Context (Hold : 0 ≤ old_lib) (Hreq : 0 < required).

Lemma votes_on_app l k : votes_on (l ++ k) = votes_on l + votes_on k.
Proof using. unfold votes_on. by rewrite fmap_app, sumZ_app. Qed.
Lemma votes_on_nonneg l : 0 ≤ votes_on l.
Proof using Hpos. unfold votes_on. apply sumZ_nonneg, Forall_fmap, Forall_true. intros p. apply Hpos. Qed.

(** What a walk leaves: the candidate that there was, or a better one on this fork. *)
Inductive walk_result (best : option lib_candidate) (h : Z) : option lib_candidate → Prop :=
| walk_same :
    (∀ b, confirmed h b → item_num x b ≤ old_lib ∨ ∃ c, best = Some c ∧
       (item_num x b ≤ item_num x (new_lib c) ∨ item_num x h ≤ item_num x (new_head c))) →
    walk_result best h best
| walk_new b :
    confirmed h b → old_lib < item_num x b → (∀ b', confirmed h b' → item_num x b' ≤ item_num x b) →
    (∀ c, best = Some c → item_num x (new_head c) < item_num x h ∧ item_num x (new_lib c) ≤ item_num x b) →
    walk_result best h (Some (LibCandidate h b)).

(** With too few votes above [b], what is confirmed lies at [b] or below. *)
Lemma confirmed_below h l b b' : path x h l b → votes_on l < required → confirmed h b' →
  ∃ k, path x b k b' ∧ required ≤ votes_on ((l ++ k) ++ [b']).
Proof using Hpos.
  intros Hp Hlt (l' & Hp' & Hv). destruct (path_split x h l b l' b' Hp Hp') as [(k & Hk & ->)|(k & Hk & ->)].
  - by exists k.
  - pose proof (votes_on_nonneg k). rewrite cons_middle, app_assoc, votes_on_app in Hlt. lia.
Qed.

Lemma below_num b k b' : path x b k b' → item_num x b' ≤ item_num x b.
Proof using Hinv. intros Hp. rewrite (path_num [] x b k b' Hinv Hp). lia. Qed.

Lemma walk_fork_exact best h n l b :
  path x h l b → item_num x b < Z.of_nat n → votes_on l < required →
  walk_result best h (walk_fork x approvals required old_lib n best h (votes_on l) (Some b)).
Proof using Hinv Hpos Hsmall Hold.
  revert l b. induction n as [|n IH]; intros l b Hp Hn Hlt.
  { pose proof (item_num_range x b). lia. }
  cbn [walk_fork]. destruct (considered x old_lib best b) eqn:Hc.
  - pose proof (Hsmall h l b Hp) as Hs. pose proof (votes_on_nonneg (l ++ [b])) as Hs0.
    assert (votes_on (l ++ [b]) = votes_on l + default 0 (approvals !! item_id x b)) as Ev.
    { rewrite votes_on_app. unfold votes_on at 2. cbn. lia. }
    rewrite <- Ev, u32_id by lia. unfold considered in Hc. apply andb_prop in Hc as [Hc1 Hc2].
    apply Z.ltb_lt in Hc1. destruct (Z.leb_spec required (votes_on (l ++ [b]))) as [Hle|Hgt].
    + assert (∀ b', confirmed h b' → item_num x b' ≤ item_num x b) as Hmax.
      { intros b' Hb'. destruct (confirmed_below h l b b' Hp Hlt Hb') as (k & Hk & _). by eapply below_num. }
      assert (confirmed h b) as Hcb by by exists l.
      destruct best as [c|]; [|by apply walk_new].
      destruct (Z.ltb_spec (item_num x (new_head c)) (item_num x h)).
      * apply walk_new; [done..|]. intros c' [= <-]. split; [done|].
        apply orb_true_iff in Hc2 as [->%Z.eqb_eq|?%Z.ltb_lt]; lia.
      * apply walk_same. intros b' _. right. exists c. auto.
    + destruct (lock_prev x b) as [q|] eqn:Hq.
      * assert (path x h (l ++ [b]) q) as Hp' by (eapply path_trans; [done|]; by repeat econstructor).
        apply IH; [done| |done]. destruct (lock_prev_inv [] x b q Hinv Hq). lia.
      * destruct n; apply walk_same; intros b' Hb';
          destruct (confirmed_below h l b b' Hp Hlt Hb') as (k & Hk & Hv);
          inversion Hk; subst; try congruence; rewrite app_nil_r in Hv; lia.
  - apply walk_same. intros b' Hb'. destruct (confirmed_below h l b b' Hp Hlt Hb') as (k & Hk & _).
    apply below_num in Hk. unfold considered in Hc. destruct (Z.ltb_spec old_lib (item_num x b)); [|left; lia].
    destruct best as [c|]; [|done]. cbn in Hc. apply orb_false_iff in Hc as [_ ?%Z.ltb_ge].
    right. exists c. split; [done|]. left. lia.
Qed.

(** What the search has found after the forks of [heads]. *)
Definition search_result (heads : list Z) (r : option lib_candidate) : Prop :=
  match r with
  | None => ∀ h b, h ∈ heads → confirmed h b → item_num x b ≤ old_lib
  | Some (LibCandidate h b) => h ∈ heads ∧ confirmed h b ∧ old_lib < item_num x b ∧
      (∀ b', confirmed h b' → item_num x b' ≤ item_num x b) ∧
      (∀ h' b', h' ∈ heads → confirmed h' b' →
         item_num x b' ≤ item_num x b ∨ item_num x h' ≤ item_num x h)
  end.

Lemma search_forks_exact heads :
  search_result heads (search_forks x approvals required old_lib heads).
Proof using Hinv Hpos Hsmall Hold Hreq.
  induction heads as [|h heads IH] using rev_ind; [by intros h b ?%elem_of_nil|].
  unfold search_forks in *. rewrite foldl_snoc. set (best := foldl _ _ _) in *.
  assert (walk_result best h (walk_fork x approvals required old_lib (S (climb_fuel x h)) best h 0 (Some h))) as Hw.
  { apply (walk_fork_exact best h _ [] h); [constructor| |done]. unfold climb_fuel.
    pose proof (item_num_range x h). lia. }
  destruct Hw as [Hsame|b Hc Hgt Hmax Hbest].
  - destruct best as [[h0 b0]|]; cbn in *.
    + destruct IH as (H1 & H2 & H3 & H4 & H5). split_and!; [apply elem_of_app; by left|done..|].
      intros h' b' [Hh'| ->%list_elem_of_singleton]%elem_of_app Hb'; [by eapply H5|].
      destruct (Hsame b' Hb') as [|(c & [= <-] & Hd)]; [left; lia|]. cbn in Hd. done.
    + intros h' b' [Hh'| ->%list_elem_of_singleton]%elem_of_app Hb'; [by eapply IH|].
      destruct (Hsame b' Hb') as [|(c & [=] & _)]; done.
  - cbn. split_and!; [apply elem_of_app; right; left|done..|].
    intros h' b' [Hh'| ->%list_elem_of_singleton]%elem_of_app Hb'; [|left; by apply Hmax].
    destruct best as [[h0 b0]|].
    + destruct IH as (_ & _ & _ & _ & H5). destruct (Hbest _ eq_refl) as [Hh Hb]. cbn in *.
      destruct (H5 h' b' Hh' Hb'); lia.
    + pose proof (IH h' b' Hh' Hb'). lia.
Qed.

End search_spec.

(** ** Votes as witnesses *)

Section votes.
Context (x : fork_database) (fast : gmap account_name_type block_id_type).
Abbreviation last := (get_last_block_generated_by_each_witness x).

(** The witnesses of [owners] that vote for a block of [l]. *)
Definition supporters (owners : list account_name_type) (l : list Z) : list account_name_type :=
  filter (λ w, best_vote fast last w ∈ Some <$> (item_id x <$> l)) owners.

(** Enough of them vote for [b] or for what was built on it on the fork of [h]. *)
Definition has_quorum (owners : list account_name_type) (required h b : Z) : Prop :=
  ∃ l, path x h l b ∧ required ≤ Z.of_nat (length (supporters owners (l ++ [b]))).

Lemma approvals_exact owners id : Z.of_nat (length owners) ≤ u32_max →
  default 0 (number_of_approvals fast last owners !! id)
  = Z.of_nat (length (filter (λ w, best_vote fast last w = Some id) owners)).
Proof using.
  unfold number_of_approvals. induction owners as [|w owners IH] using rev_ind; intros Hlen; [done|].
  rewrite length_app in Hlen. cbn in Hlen. rewrite foldl_snoc, filter_app, length_app.
  specialize (IH ltac:(lia)).
  pose proof (filter_length_bound (λ w, best_vote fast last w = Some id) owners) as Hle.
  set (m := foldl _ _ _) in *. unfold count_approval. destruct (best_vote fast last w) as [v|] eqn:Ev.
  - destruct (decide (v = id)) as [->|Hne].
    + rewrite lookup_insert_eq, filter_cons_True, IH by done. cbn. rewrite u32_id by lia. lia.
    + rewrite lookup_insert_ne, filter_cons_False by congruence. cbn. lia.
  - rewrite filter_cons_False by congruence. cbn. lia.
Qed.

Lemma filter_or_length {A} (P Q R : A → Prop) `{∀ a, Decision (P a)} `{∀ a, Decision (Q a)}
    `{∀ a, Decision (R a)} l : (∀ a, R a ↔ P a ∨ Q a) → (∀ a, P a → ¬ Q a) →
  length (filter R l) = (length (filter P l) + length (filter Q l))%nat.
Proof using.
  intros HR HPQ. induction l as [|a l IH]; [done|]. rewrite !filter_cons.
  specialize (HR a). specialize (HPQ a). repeat case_decide; cbn; naive_solver lia.
Qed.

Lemma votes_on_supporters owners l : Z.of_nat (length owners) ≤ u32_max → NoDup (item_id x <$> l) →
  votes_on x (number_of_approvals fast last owners) l = Z.of_nat (length (supporters owners l)).
Proof using.
  intros Hlen. induction l as [|p l IH]; intros Hnd.
  - unfold supporters. cbn. rewrite filter_none; [done|]. intros w _ ?%elem_of_nil. done.
  - rewrite fmap_cons in Hnd. apply NoDup_cons in Hnd as [Hp Hnd].
    change (p :: l) with ([p] ++ l). rewrite votes_on_app, (IH Hnd). unfold votes_on. cbn [fmap list_fmap].
    rewrite sumZ_cons, approvals_exact by done. cbn [sumZ foldr]. unfold supporters.
    assert (length (filter (λ w, best_vote fast last w ∈ Some <$> (item_id x <$> p :: l)) owners)
      = (length (filter (λ w, best_vote fast last w = Some (item_id x p)) owners) +
         length (filter (λ w, best_vote fast last w ∈ Some <$> (item_id x <$> l)) owners))%nat) as Hor.
    2: { cbn [app] in *. rewrite Hor. lia. }
    apply filter_or_length.
    + intros w. cbn. by rewrite elem_of_cons.
    + intros w -> (id & [= <-] & Hid)%list_elem_of_fmap. done.
Qed.

End votes.

(** The numbers fall along a path, so its blocks have different ids. *)
Lemma path_below x p l q : fork_inv [] x → path x p l q → ∀ r, r ∈ l ++ [q] → item_num x r ≤ item_num x p.
Proof.
  intros Hinv. induction 1 as [p|p p' l q Hp H IH]; intros r.
  - by intros ->%list_elem_of_singleton.
  - destruct (lock_prev_inv [] x p p' Hinv Hp). intros [->|Hr]%elem_of_cons; [lia|]. specialize (IH r Hr). lia.
Qed.

Lemma path_ids x p l q : fork_inv [] x → path x p l q → NoDup (item_id x <$> (l ++ [q])).
Proof.
  intros Hinv. induction 1 as [p|p p' l q Hp H IH]; [apply NoDup_singleton|]. cbn. constructor; [|done].
  intros (r & E & Hr)%list_elem_of_fmap. pose proof (path_below x p' l q Hinv H r Hr).
  destruct (lock_prev_inv [] x p p' Hinv Hp). rewrite !item_num_id in *. rewrite E in *. lia.
Qed.

Lemma path_suffix x p l q r : path x p l q → r ∈ l ++ [q] → ∃ k, path x r k q.
Proof.
  induction 1 as [p|p p' l q Hp H IH].
  - intros ->%list_elem_of_singleton. exists []. constructor.
  - intros [->|Hr]%elem_of_cons; [|by apply IH]. exists (p :: l). by econstructor.
Qed.

(** ** The search as a whole *)

Section find.
Context (x : fork_database) (Hinv : fork_inv [] x).
Context (fast : gmap account_name_type block_id_type) (owners : list account_name_type).
Context (Hlen : Z.of_nat (length owners) ≤ u32_max).

Abbreviation approvals := (number_of_approvals fast (get_last_block_generated_by_each_witness x) owners).

Lemma approvals_pos id : 0 ≤ default 0 (approvals !! id).
Proof using Hlen. rewrite approvals_exact by done. lia. Qed.

Lemma branch_votes h l b : path x h l b →
  votes_on x approvals (l ++ [b]) = Z.of_nat (length (supporters x fast owners (l ++ [b]))).
Proof using Hinv Hlen. intros Hp. apply votes_on_supporters; [done|]. by eapply path_ids. Qed.

Lemma branch_votes_small h l b : path x h l b → votes_on x approvals (l ++ [b]) ≤ u32_max.
Proof using Hinv Hlen.
  intros Hp. rewrite (branch_votes h l b Hp).
  pose proof (filter_length_bound (λ w, best_vote fast (get_last_block_generated_by_each_witness x) w
    ∈ Some <$> (item_id x <$> (l ++ [b]))) owners). unfold supporters. lia.
Qed.

Lemma confirmed_quorum required h b :
  confirmed x approvals required h b ↔ has_quorum x fast owners required h b.
Proof using Hinv Hlen.
  split; intros (l & Hp & Hv); exists l; (split; [done|]); rewrite (branch_votes h l b Hp) in *; done.
Qed.

(** The block [lib] that the search reports as [r]. *)
Record lib_found (required old_lib lib : Z) (r : new_last_irreversible_block_t) : Prop := {
  found_num : new_last_irreversible_block_num r = item_num x lib;
  found_new : old_lib < item_num x lib;
  found_head : new_head_block r ∈ fetch_heads x;
  found_quorum : has_quorum x fast owners required (new_head_block r) lib;
  found_highest b : has_quorum x fast owners required (new_head_block r) b → item_num x b ≤ item_num x lib;
  found_longest h b : h ∈ fetch_heads x → has_quorum x fast owners required h b →
    item_num x b ≤ item_num x lib ∨ item_num x h ≤ item_num x (new_head_block r);
  found_main : found_on_another_fork r = false →
    fetch_block_on_main_branch_by_number x (item_num x lib) = Ok (Some lib);
  found_other h l : _head x = Some h → path x h l lib → lib ∈ _index x → found_on_another_fork r = false
}.

Lemma main_branch_total num : ∃ m, fetch_block_on_main_branch_by_number x num = Ok m.
Proof using.
  unfold fetch_block_on_main_branch_by_number, walk_main_branch_to_num.
  destruct (_head x) as [h|]; [|by eexists]. destruct (_ <? _); [by eexists|].
  destruct (fetch_block_by_number x num) as [|p [|q l]]; by eexists.
Qed.

Lemma find_exact order required old_lib :
  (∀ l, order l ≡ₚ l) → 0 ≤ old_lib → 0 < required →
  ∃ r, find_new_last_irreversible_block order x owners fast required old_lib = Ok r ∧
  match r with
  | None => ∀ h b, h ∈ fetch_heads x → has_quorum x fast owners required h b → item_num x b ≤ old_lib
  | Some r => ∃ lib, lib_found required old_lib lib r
  end.
Proof using Hinv Hlen.
  intros Hord Hold Hreq. unfold find_new_last_irreversible_block.
  pose proof (search_forks_exact x Hinv approvals required old_lib approvals_pos branch_votes_small Hold Hreq
    (order (fetch_heads x))) as Hs.
  destruct (search_forks _ _ _ _ _) as [[h b]|]; cbn in Hs.
  - destruct Hs as (H1 & H2 & H3 & H4 & H5). rewrite (Hord (fetch_heads x)) in H1.
    cbn [new_lib new_head]. destruct (main_branch_total (item_num x b)) as [m Hm]. rewrite Hm.
    cbn [mbind result_bind]. eexists. split; [done|]. exists b. split; cbn; try done.
    + by apply confirmed_quorum.
    + intros b' Hb'%confirmed_quorum. by apply H4.
    + intros h' b' Hh' Hb'%confirmed_quorum. apply H5; [by rewrite (Hord (fetch_heads x))|done].
    + intros E. apply negb_false_iff, bool_decide_eq_true in E. by rewrite Hm, E.
    + intros h0 l Hh Hp Hb. apply negb_false_iff, bool_decide_eq_true.
      assert (fetch_block_on_main_branch_by_number x (item_num x b) = Ok (Some b)) as E; [|congruence].
      unfold fetch_block_on_main_branch_by_number. rewrite Hh.
      rewrite (proj2 (Z.ltb_ge _ _)) by (rewrite (path_num [] x h0 l b Hinv Hp); lia).
      etrans; [|by apply (shortcut_path [] x h0 l b)].
      by destruct (fetch_block_by_number _ _) as [|? [|]].
  - exists None. split; [done|]. intros h b Hh Hb%confirmed_quorum.
    apply (Hs h); [by rewrite (Hord (fetch_heads x))|done].
Qed.

End find.

(** A vote is the newest block that the witness confirmed or produced. *)
Definition votes_newest (fast last : gmap account_name_type block_id_type) (w : account_name_type)
    (vote : option block_id_type) : Prop :=
  match vote with
  | None => fast !! w = None ∧ last !! w = None
  | Some id => (fast !! w = Some id ∨ last !! w = Some id) ∧
      ∀ id', fast !! w = Some id' ∨ last !! w = Some id' → num_from_id id' ≤ num_from_id id
  end.

Lemma best_vote_newest fast last w : votes_newest fast last w (best_vote fast last w).
Proof.
  unfold best_vote, votes_newest. destruct (fast !! w) as [f|], (last !! w) as [l|]; try done.
  - destruct (Z.ltb_spec (num_from_id l) (num_from_id f)); (split; [auto|]); intros id' [[= <-]|[= <-]]; lia.
  - split; [auto|]. by intros id' [[= <-]|].
  - split; [auto|]. by intros id' [|[= <-]].
Qed.

(** C2. The search for a new last irreversible block always answers.  It reports none only when no
    block above the old one has the votes of enough scheduled witnesses on any fork, a vote being
    the newest block that a witness confirmed or produced and counting for all blocks below it.
    The block it reports has them, is the highest such block of its fork, and is lower than
    one of another fork only when that fork is no longer than its own. *)
Theorem new_irreversible_exact order x fast owners required old_lib :
  (∀ l, order l ≡ₚ l) → fork_inv [] x → Z.of_nat (length owners) ≤ u32_max →
  0 ≤ old_lib → 0 < required →
  (∀ w, votes_newest fast (get_last_block_generated_by_each_witness x) w
     (best_vote fast (get_last_block_generated_by_each_witness x) w)) ∧
  ∃ r, find_new_last_irreversible_block order x owners fast required old_lib = Ok r ∧
  match r with
  | None => ∀ h b, h ∈ fetch_heads x → has_quorum x fast owners required h b → item_num x b ≤ old_lib
  | Some r => ∃ lib, lib_found x fast owners required old_lib lib r
  end.
Proof. intros Hord Hinv Hlen Hold Hreq. split; [intros w; apply best_vote_newest|by apply find_exact]. Qed.

(** ** Agreement *)

Lemma filter_meet {A} (P Q : A → Prop) `{∀ a, Decision (P a)} `{∀ a, Decision (Q a)} (l : list A) :
  (length l < length (filter P l) + length (filter Q l))%nat → ∃ a, a ∈ l ∧ P a ∧ Q a.
Proof.
  induction l as [|a l IH]; cbn [length]; [rewrite !filter_nil; cbn; lia|].
  rewrite !filter_cons. repeat case_decide; cbn [length]; intros Hl.
  - exists a. split; [left|done].
  - destruct IH as (b & Hb & Hpq); [lia|]. exists b. split; [by right|done].
  - destruct IH as (b & Hb & Hpq); [lia|]. exists b. split; [by right|done].
  - destruct IH as (b & Hb & Hpq); [lia|]. exists b. split; [by right|done].
Qed.

(** A block id, the hash of a header, determines the id of the previous block in it. *)
Definition ids_name_parents (x : fork_database) : Prop :=
  ∀ p q, owned x p → owned x q → item_id x p = item_id x q → item_previous x p = item_previous x q.

(** Of two blocks, named by their ids, one is the other or an ancestor of it. *)
Definition same_chain (x : fork_database) (b1 b2 : Z) : Prop :=
  (∃ q l, item_id x q = item_id x b1 ∧ path x q l b2) ∨
  (∃ q l, item_id x q = item_id x b2 ∧ path x q l b1).

Lemma same_chain_num x b1 b2 : fork_inv [] x → same_chain x b1 b2 →
  item_num x b1 = item_num x b2 → item_id x b1 = item_id x b2.
Proof.
  intros Hinv [(q & l & E & Hp)|(q & l & E & Hp)] En;
    pose proof (path_num [] x _ _ _ Hinv Hp) as Hn; rewrite (item_num_id x q), E, <- item_num_id in Hn;
    (assert (l = []) as -> by (destruct l; [done|cbn in Hn; lia])); inversion Hp; subst; congruence.
Qed.

(** What lies below two items of the same block. *)
Lemma paths_same_chain x p1 l1 b1 p2 l2 b2 :
  fork_inv [] x → ids_name_parents x → owned x p1 → owned x p2 → item_id x p1 = item_id x p2 →
  path x p1 l1 b1 → path x p2 l2 b2 → same_chain x b1 b2.
Proof.
  intros Hinv Hid Ho1 Ho2 E H. revert p2 l2 Ho2 E. induction H as [p1|p1 p1' l1 b1 Hp1 H IH]; intros p2 l2 Ho2 E H2.
  { left. exists p2, l2. by rewrite E. }
  destruct H2 as [p2|p2 p2' l2 b2 Hp2 H2].
  { right. exists p1, (p1 :: l1). split; [done|]. by econstructor. }
  apply (IH ltac:(by eapply lock_prev_owned) p2' l2); [by eapply lock_prev_owned| |done].
  destruct (lock_prev_inv [] x p1 p1' Hinv Hp1) as [<- _], (lock_prev_inv [] x p2 p2' Hinv Hp2) as [<- _].
  by apply Hid.
Qed.

Lemma supporter_block x fast (l : list Z) w :
  best_vote fast (get_last_block_generated_by_each_witness x) w ∈ Some <$> (item_id x <$> l) →
  ∃ p, p ∈ l ∧ best_vote fast (get_last_block_generated_by_each_witness x) w = Some (item_id x p).
Proof. intros (id & -> & (p & -> & Hp)%list_elem_of_fmap)%list_elem_of_fmap. by exists p. Qed.

Lemma quorums_agree x fast owners required h1 b1 h2 b2 :
  fork_inv [] x → ids_name_parents x → Z.of_nat (length owners) < 2 * required →
  owned x h1 → owned x h2 →
  has_quorum x fast owners required h1 b1 → has_quorum x fast owners required h2 b2 →
  same_chain x b1 b2.
Proof.
  intros Hinv Hid Hmaj Ho1 Ho2 (l1 & Hp1 & Hv1) (l2 & Hp2 & Hv2). unfold supporters in *.
  destruct (filter_meet
    (λ w, best_vote fast (get_last_block_generated_by_each_witness x) w ∈ Some <$> (item_id x <$> (l1 ++ [b1])))
    (λ w, best_vote fast (get_last_block_generated_by_each_witness x) w ∈ Some <$> (item_id x <$> (l2 ++ [b2])))
    owners) as (w & _ & H1 & H2); [lia|].
  destruct (supporter_block x fast (l1 ++ [b1]) w H1) as (p1 & Hin1 & E1).
  destruct (supporter_block x fast (l2 ++ [b2]) w H2) as (p2 & Hin2 & E2).
  assert (∀ h l b p, owned x h → path x h l b → p ∈ l ++ [b] → owned x p) as Hown.
  { intros h l b p Ho Hp [Hl| ->%list_elem_of_singleton]%elem_of_app;
      destruct (path_owned x h l b Ho Hp) as [Hb Hr]; [by apply Hr|done]. }
  destruct (path_suffix x h1 l1 b1 p1 Hp1 Hin1) as [k1 Hk1].
  destruct (path_suffix x h2 l2 b2 p2 Hp2 Hin2) as [k2 Hk2].
  apply (paths_same_chain x p1 k1 b1 p2 k2 b2); [done|done| | |congruence|done|done].
  - by apply (Hown h1 l1 b1).
  - by apply (Hown h2 l2 b2).
Qed.

(** C4. When enough is more than half of the scheduled witnesses, and a block id determines the id of
    the previous block: the reported block, which is the block of the reported number on the fork
    of the reported head, and on the main branch unless the search says otherwise, lies on one
    chain with every block that has the votes of enough witnesses on any fork.  Such a block of the
    same height is the reported block; a higher one descends from it, a lower one is its ancestor. *)
Theorem irreversible_blocks_agree order x fast owners required old_lib r :
  (∀ l, order l ≡ₚ l) → fork_inv [] x → ids_name_parents x → Z.of_nat (length owners) ≤ u32_max →
  0 ≤ old_lib → 0 < required → Z.of_nat (length owners) < 2 * required →
  find_new_last_irreversible_block order x owners fast required old_lib = Ok (Some r) →
  ∃ lib, (∃ l, path x (new_head_block r) l lib) ∧ item_num x lib = new_last_irreversible_block_num r ∧
    has_quorum x fast owners required (new_head_block r) lib ∧
    (found_on_another_fork r = false →
       fetch_block_on_main_branch_by_number x (new_last_irreversible_block_num r) = Ok (Some lib)) ∧
    ∀ h b, h ∈ fetch_heads x → has_quorum x fast owners required h b →
      same_chain x lib b ∧ (item_num x lib = item_num x b → item_id x lib = item_id x b).
Proof.
  intros Hord Hinv Hid Hlen Hold Hreq Hmaj Hf.
  destruct (find_exact x Hinv fast owners Hlen order required old_lib Hord Hold Hreq) as (r' & Hr' & Hspec).
  rewrite Hf in Hr'. injection Hr' as <-. destruct Hspec as [lib [Hn _ Hhead Hq _ _ Hmain _]]. exists lib.
  split; [destruct Hq as (l & Hl & _); by exists l|]. split; [done|]. split; [done|].
  split; [by rewrite Hn|]. intros h b Hh Hb.
  assert (∀ p, p ∈ fetch_heads x → owned x p) as Ho by (intros p [_ Hp]%list_elem_of_filter; by left).
  assert (same_chain x lib b) as Hc
    by (apply (quorums_agree x fast owners required (new_head_block r) lib h b); auto).
  split; [done|]. by apply same_chain_num.
Qed.

(** ** The last irreversible block *)

(** More than half of the scheduled witnesses are asked for. *)
Definition required_of (n : Z) : Z := n - lib_offset n.

Lemma required_majority n : 1 ≤ n → 0 < required_of n ≤ n ∧ n < 2 * required_of n ∧ 3 * n ≤ 4 * required_of n.
Proof.
  intros Hn. unfold required_of, lib_offset. change HIVE_100_PERCENT with 10000.
  change HIVE_IRREVERSIBLE_THRESHOLD with 7500.
  pose proof (div_bracket ((10000 - 7500) * n) 10000 ltac:(lia)). lia.
Qed.

Record lib_ready (s : lib_state) : Prop := {
  lib_range : 0 ≤ last_irreversible s ≤ head_num s;
  lib_head_range : head_num s ≤ u32_max;
  lib_forks_ok : fork_inv [] (lib_forks s);
  lib_known : schedule_known (witness_index (lib_schedule s))
    (get_schedule (hardfork_active HIVE_HARDFORK_1_26 (lib_schedule s)) (lib_schedule s));
  lib_names : NoDup (scheduled_names
    (get_schedule (hardfork_active HIVE_HARDFORK_1_26 (lib_schedule s)) (lib_schedule s)));
  lib_confirmed n : 0 ≤ default 0 (last_confirmed s !! n) ≤ head_num s
}.

Abbreviation lib_schedule_names s := (scheduled_names
  (get_schedule (hardfork_active HIVE_HARDFORK_1_26 (lib_schedule s)) (lib_schedule s))).

(** The last irreversible block moves from [s] to [s'], and nothing else but confirmations of
    irreversible blocks changes. *)
Record lib_moved (s s' : lib_state) : Prop := {
  moved_forward : last_irreversible s ≤ last_irreversible s' ≤ head_num s;
  moved_rest : s' = set_fast_approved (last_fast_approved_block_by_witness s')
    (set_last_irreversible (last_irreversible s') s);
  moved_confirmations n id : last_fast_approved_block_by_witness s' !! n = Some id →
    last_fast_approved_block_by_witness s !! n = Some id;
  moved_relevant n id : last_fast_approved_block_by_witness s !! n = Some id →
    last_irreversible s' < num_from_id id → last_fast_approved_block_by_witness s' !! n = Some id
}.

Lemma advance_to_ok n s : lib_ready s → n ≤ head_num s → ∃ s', advance_to n s = Ok s' ∧ lib_moved s s' ∧
  last_irreversible s' = Z.max (last_irreversible s) n.
Proof.
  intros [Hr _ _ _ _ _] Hn. unfold advance_to, set_last_irreversible_block_num.
  destruct (Z.ltb_spec (last_irreversible s) n) as [Hlt|Hge].
  - rewrite fc_assert_true by (apply Z.leb_le; lia). eexists. split; [done|]. split; [|cbn; lia].
    split; cbn; [lia|done..].
  - exists s. split; [done|]. split; [|lia]. split; [lia|by destruct s|done..].
Qed.

Lemma settle_irreversible_ok n s : lib_ready s → last_irreversible s ≤ n → ∃ s', settle_irreversible n s = Ok s' ∧ lib_moved s s' ∧
  last_irreversible s' = Z.min n (head_num s) ∧
  ∀ w id, last_fast_approved_block_by_witness s' !! w = Some id → last_irreversible s' < num_from_id id.
Proof.
  intros [Hr _ _ _ _ _] Hn. unfold settle_irreversible, set_last_irreversible_block_num.
  rewrite fc_assert_true by (apply Z.leb_le; lia). cbn [mbind result_bind]. eexists. split; [done|].
  unfold drop_confirmations. cbn. split; [|split; [done|]].
  - split; cbn; [lia|done|..].
    + intros w id (H & _)%map_lookup_filter_Some. done.
    + intros w id H Hlt. apply map_lookup_filter_Some. done.
  - intros w id (_ & H)%map_lookup_filter_Some. done.
Qed.

Lemma ready_witnesses s : lib_ready s → ∃ ws, lib_witnesses s = Ok ws ∧ owner <$> ws = lib_schedule_names s ∧
  (1 ≤ length ws ≤ 21)%nat.
Proof.
  intros [_ _ _ Hk _ _]. unfold lib_witnesses.
  destruct (scheduled_known _ _ Hk) as (ws & Hws & Hn & _ & Hne). exists ws. split; [done|]. split; [done|].
  destruct Hk as [_ Hl _]. assert (length ws = length (lib_schedule_names s)) as E by by rewrite <- Hn, length_fmap.
  unfold scheduled_names in E. rewrite length_take in E. destruct ws; [done|]. cbn in *. lia.
Qed.

(** How many of the scheduled witnesses have produced the block [n] or a later one. *)
Definition produced_up_to (s : lib_state) (names : list account_name_type) (n : Z) : Z :=
  Z.of_nat (length (filter (λ w, n ≤ default 0 (last_confirmed s !! w)) names)).

(** The entry at an index of the sorted list, by counting. *)
Lemma sorted_rank (l : list Z) i n : merge_sort Z.le l !! i = Some n →
  (length l - i ≤ length (filter (λ z, (n ≤ z)%Z) l))%nat ∧
  ∀ m, (length l - i ≤ length (filter (λ z, (m ≤ z)%Z) l))%nat → (m ≤ n)%Z.
Proof.
  intros Hi. set (k := merge_sort Z.le l) in *.
  assert (k ≡ₚ l) as Hp by apply merge_sort_Permutation.
  assert (StronglySorted Z.le k) as Hs by (apply StronglySorted_merge_sort; apply _).
  rewrite <- (Permutation_length Hp).
  assert (∀ m : Z, length (filter (λ z, (m ≤ z)%Z) l) = length (filter (λ z, (m ≤ z)%Z) k)) as Ef
    by (intros m; by rewrite Hp).
  pose proof (lookup_lt_Some _ _ _ Hi) as Hlt. rewrite (Ef n). setoid_rewrite Ef. clear Ef Hp.
  apply take_drop_middle in Hi. rewrite <- Hi in Hs |- *.
  assert (length (take i k) = i) as Hti by (rewrite length_take; lia).
  rewrite length_app. cbn [length]. rewrite Hti. split.
  - rewrite filter_app, length_app, (filter_all _ (n :: drop (S i) k)); [cbn [length]; lia|].
    constructor; [done|]. apply StronglySorted_app_1_r in Hs. by inversion_clear Hs.
  - intros m Hm. destruct (Z.le_gt_cases m n) as [|Hgt]; [done|]. exfalso.
    rewrite filter_app, length_app, filter_none in Hm.
    + rewrite filter_cons_False in Hm by lia.
      pose proof (filter_length_bound (λ z, (m ≤ z)%Z) (drop (S i) k)). cbn [length] in Hm. lia.
    + intros z Hz. pose proof (StronglySorted_app_1_elem_of _ _ _ z n Hs Hz ltac:(left)). lia.
Qed.

Lemma production_ok ws s : lib_ready s → (1 ≤ length ws)%nat →
  ∃ n, confirmed_by_production ws s = Ok n ∧ n ≤ head_num s ∧
    required_of (Z.of_nat (length ws)) ≤ produced_up_to s (owner <$> ws) n ∧
    ∀ m, required_of (Z.of_nat (length ws)) ≤ produced_up_to s (owner <$> ws) m → m ≤ n.
Proof.
  intros Hr Hlen. unfold confirmed_by_production. set (nums := (λ w, default 0 (last_confirmed s !! owner w)) <$> ws).
  pose proof (required_majority (Z.of_nat (length ws)) ltac:(lia)) as (Hm & _). unfold required_of in Hm.
  assert (0 ≤ lib_offset (Z.of_nat (length ws))) as H0.
  { unfold lib_offset. apply Z.div_pos; [|done]. change HIVE_IRREVERSIBLE_THRESHOLD with 7500.
    change HIVE_100_PERCENT with 10000. lia. }
  assert (length (merge_sort Z.le nums) = length ws) as El.
  { rewrite merge_sort_Permutation. unfold nums. apply length_fmap. }
  destruct (lookup_lt_is_Some_2 (merge_sort Z.le nums) (Z.to_nat (lib_offset (Z.of_nat (length ws))))) as [n Hn];
    [lia|]. rewrite Hn. cbn [from_option_or mbind result_bind].
  assert (∀ m, produced_up_to s (owner <$> ws) m = Z.of_nat (length (filter (λ z, m ≤ z) nums))) as Hcount.
  { intros m. unfold produced_up_to, nums. f_equal. clear. induction ws as [|w ws IH]; [done|].
    rewrite !fmap_cons, !filter_cons. case_decide; cbn [length]; by rewrite IH. }
  destruct (sorted_rank nums _ n Hn) as [Hge Hmax].
  assert (length nums = length ws) as Enums by apply length_fmap. rewrite Enums in Hge, Hmax.
  apply list_elem_of_lookup_2 in Hn. rewrite merge_sort_Permutation in Hn.
  apply list_elem_of_fmap in Hn as (w & Ew & _).
  pose proof (lib_confirmed s Hr (owner w)). pose proof (lib_head_range s Hr).
  eexists. split; [done|]. rewrite u32_id by lia. unfold required_of. split; [lia|]. split.
  - rewrite Hcount. lia.
  - intros m Hm'. rewrite Hcount in Hm'. apply Hmax. lia.
Qed.

Lemma unmoved s : lib_ready s → lib_moved s s.
Proof. intros [Hr _ _ _ _ _]. split; [lia|by destruct s|done..]. Qed.

Lemma remove_dups_length {A} `{EqDecision A} (l : list A) : NoDup l → length (remove_dups l) = length l.
Proof.
  intros Hl. apply Permutation_length, NoDup_Permutation; [apply NoDup_remove_dups|done|].
  intros a. apply elem_of_remove_dups.
Qed.

(** The search with the witnesses of the schedule. *)
Lemma schedule_search order s ws : (∀ l, order l ≡ₚ l) → lib_ready s →
  owner <$> ws = lib_schedule_names s → (1 ≤ length ws ≤ 21)%nat →
  let required := u32 (Z.of_nat (length (remove_dups (owner <$> ws))) - lib_offset (Z.of_nat (length ws))) in
  required = required_of (Z.of_nat (length (lib_schedule_names s))) ∧
  ∃ r, find_new_last_irreversible_block order (lib_forks s) (owner <$> ws)
      (last_fast_approved_block_by_witness s) required (last_irreversible s) = Ok r ∧
    ∀ r', r = Some r' → ∃ lib, lib_found (lib_forks s) (last_fast_approved_block_by_witness s)
      (lib_schedule_names s) required (last_irreversible s) lib r'.
Proof.
  intros Hord [Hr Hh Hinv _ Hnd _] Hn Hlen required.
  assert (length ws = length (lib_schedule_names s)) as E by by rewrite <- Hn, length_fmap.
  pose proof (required_majority (Z.of_nat (length ws)) ltac:(lia)) as (Hm & _). unfold required_of in Hm.
  assert (required = required_of (Z.of_nat (length (lib_schedule_names s)))) as Ereq.
  { unfold required, required_of. rewrite Hn, remove_dups_length, <- E by done. apply u32_id. limits. lia. }
  split; [done|]. rewrite Hn, Ereq. unfold required_of. rewrite <- E.
  destruct (find_exact (lib_forks s) Hinv (last_fast_approved_block_by_witness s) (lib_schedule_names s))
    with (order := order) (required := Z.of_nat (length ws) - lib_offset (Z.of_nat (length ws)))
    (old_lib := last_irreversible s) as (r & Hr' & Hspec); [limits; lia|done|lia|lia|].
  exists r. split; [done|]. intros r' ->. exact Hspec.
Qed.

(** What the update makes of the last irreversible block, on each of its paths. *)
Record lib_decided (order : list Z → list Z) (skip_block_log : bool) (s s' : lib_state) : Prop := {
  decided_early : head_num s < HIVE_START_MINER_VOTING_BLOCK →
    last_irreversible s' = Z.max (last_irreversible s) (head_num s - HIVE_MAX_WITNESSES);
  decided_produced : skip_block_log = true → HIVE_START_MINER_VOTING_BLOCK ≤ head_num s →
    ∃ n, last_irreversible s' = Z.max (last_irreversible s) n ∧
      required_of (Z.of_nat (length (lib_schedule_names s))) ≤ produced_up_to s (lib_schedule_names s) n ∧
      ∀ m, required_of (Z.of_nat (length (lib_schedule_names s))) ≤ produced_up_to s (lib_schedule_names s) m →
        m ≤ n;
  decided_voted : skip_block_log = false → HIVE_START_MINER_VOTING_BLOCK ≤ head_num s →
    ∃ r, find_new_last_irreversible_block order (lib_forks s) (lib_schedule_names s)
        (last_fast_approved_block_by_witness s) (required_of (Z.of_nat (length (lib_schedule_names s))))
        (last_irreversible s) = Ok r ∧
      last_irreversible s' = match r with
        | Some r => if found_on_another_fork r then last_irreversible s
                    else Z.min (new_last_irreversible_block_num r) (head_num s)
        | None => last_irreversible s
        end;
  decided_quorum : skip_block_log = false → HIVE_START_MINER_VOTING_BLOCK ≤ head_num s →
    last_irreversible s < last_irreversible s' →
    ∃ h b, has_quorum (lib_forks s) (last_fast_approved_block_by_witness s) (lib_schedule_names s)
        (required_of (Z.of_nat (length (lib_schedule_names s)))) h b ∧
      fetch_block_on_main_branch_by_number (lib_forks s) (item_num (lib_forks s) b) = Ok (Some b) ∧
      last_irreversible s' = Z.min (item_num (lib_forks s) b) (head_num s) ∧
      ∀ w id, last_fast_approved_block_by_witness s' !! w = Some id → last_irreversible s' < num_from_id id
}.

(** Before voting begins. *)
Lemma update_lib_early order skip_block_log s : lib_ready s → head_num s < HIVE_START_MINER_VOTING_BLOCK →
  ∃ s', update_last_irreversible_block order skip_block_log None s = Ok (last_irreversible s, s') ∧
    lib_moved s s' ∧ lib_decided order skip_block_log s s'.
Proof.
  intros Hr Hstart. pose proof (unmoved s Hr) as Hu. pose proof (lib_range s Hr) as Hrange.
  pose proof (lib_head_range s Hr) as Hhr. unfold update_last_irreversible_block.
  rewrite (proj2 (Z.ltb_lt _ _) Hstart).
  destruct (Z.ltb_spec HIVE_MAX_WITNESSES (head_num s)) as [Hw|Hw].
  - assert (u32 (head_num s - HIVE_MAX_WITNESSES) = head_num s - HIVE_MAX_WITNESSES) as Eu
      by (unfold HIVE_MAX_WITNESSES in *; apply u32_id; lia). rewrite Eu.
    destruct (advance_to_ok (head_num s - HIVE_MAX_WITNESSES) s Hr) as (s' & -> & Hm & El);
      [unfold HIVE_MAX_WITNESSES in *; lia|].
    exists s'. split; [done|]. split; [done|]. split; [done|intros; lia..].
  - exists s. split; [done|]. split; [done|]. split; [|intros; lia..].
    intros _. unfold HIVE_MAX_WITNESSES in *. lia.
Qed.

(** By the blocks that the witnesses produced. *)
Lemma update_lib_produced order s : lib_ready s → HIVE_START_MINER_VOTING_BLOCK ≤ head_num s →
  ∃ s', update_last_irreversible_block order true None s = Ok (last_irreversible s, s') ∧
    lib_moved s s' ∧ lib_decided order true s s'.
Proof.
  intros Hr Hstart. pose proof (unmoved s Hr) as Hu. unfold update_last_irreversible_block.
  rewrite (proj2 (Z.ltb_ge _ _) Hstart).
  destruct (ready_witnesses s Hr) as (ws & -> & Hn & Hlen). cbn [mbind result_bind].
  destruct (production_ok ws s Hr ltac:(lia)) as (n & -> & Hle & Hge & Hmax). cbn [mbind result_bind].
  assert (length ws = length (lib_schedule_names s)) as E by by rewrite <- Hn, length_fmap.
  rewrite Hn, E in Hge, Hmax.
  destruct (Z.eqb_spec (last_irreversible s) (head_num s)) as [Heq|Hne].
  - exists s. split; [done|]. split; [done|]. split; [intros; lia| |done..].
    intros _ _. exists n. split; [lia|done].
  - destruct (advance_to_ok n s Hr Hle) as (s' & -> & Hm & El). exists s'.
    split; [done|]. split; [done|]. split; [intros; lia| |done..]. intros _ _. by exists n.
Qed.

(** By votes. *)
Lemma update_lib_voted order s : (∀ l, order l ≡ₚ l) → lib_ready s → HIVE_START_MINER_VOTING_BLOCK ≤ head_num s →
  ∃ s', update_last_irreversible_block order false None s = Ok (last_irreversible s, s') ∧
    lib_moved s s' ∧ lib_decided order false s s'.
Proof.
  intros Hord Hr Hstart. pose proof (unmoved s Hr) as Hu. unfold update_last_irreversible_block.
  rewrite (proj2 (Z.ltb_ge _ _) Hstart).
  destruct (ready_witnesses s Hr) as (ws & -> & Hn & Hlen). cbn [mbind result_bind].
  destruct (schedule_search order s ws Hord Hr Hn Hlen) as (Ereq & r & Hf & Hspec).
  pose proof Hf as Hf'. rewrite Ereq, Hn in Hf'.
  destruct (Z.eqb_spec (last_irreversible s) (head_num s)) as [Heq|Hne].
  { exists s. split; [done|]. split; [done|]. split; [intros; lia|done| |intros; lia].
    intros _ _. exists r. split; [done|]. destruct r as [r|]; [|done].
    destruct (Hspec r eq_refl) as [lib [Fn Fnew _ _ _ _ _ _]]. destruct (found_on_another_fork r); lia. }
  cbn zeta. rewrite Hf. cbn [mbind result_bind].
  destruct r as [r|].
  2: { exists s. split; [done|]. split; [done|]. split; [intros; lia|done| |intros; lia]. intros _ _. by exists None. }
  destruct (Hspec r eq_refl) as [lib [Fn Fnew _ Fq _ _ Fm _]].
  destruct (found_on_another_fork r) eqn:Efork.
  { exists s. split; [by destruct (_ <? _)|]. split; [done|]. split; [intros; lia|done| |intros; lia].
    intros _ _. exists (Some r). by rewrite Efork. }
  destruct (settle_irreversible_ok (new_last_irreversible_block_num r) s Hr) as (s' & -> & Hm & El & Hc); [lia|].
  exists s'. split; [done|]. split; [done|]. split; [intros; lia|done|..].
  - intros _ _. exists (Some r). by rewrite Efork.
  - intros _ _ _. exists (new_head_block r), lib. rewrite <- Ereq. rewrite Fn in El. auto.
Qed.

(** C22. At the end of a block the update of the last irreversible block always succeeds: the block
    only moves forward and never beyond the head, so that the assertion of
    [set_last_irreversible_block_num] holds, and only confirmations of irreversible blocks are
    forgotten.  Before voting begins it follows the head at a distance of 21 blocks.  Once voting has
    begun and without a fork database, it moves to the highest block that three quarters of the
    scheduled witnesses, rounded up, have produced or built after.  With the fork database it moves
    exactly to the block that the search reports, up to the head, and not at all when the search finds
    none or one of another fork; it moves only to a block of the main branch for which three
    quarters of the scheduled witnesses, rounded up, have voted. *)
Theorem irreversible_forward order skip_block_log s :
  (∀ l, order l ≡ₚ l) → lib_ready s →
  ∃ s', update_last_irreversible_block order skip_block_log None s = Ok (last_irreversible s, s') ∧
    lib_moved s s' ∧ lib_decided order skip_block_log s s'.
Proof.
  intros Hord Hr. destruct (Z.lt_ge_cases (head_num s) HIVE_START_MINER_VOTING_BLOCK).
  - by apply update_lib_early.
  - destruct skip_block_log; [by apply update_lib_produced|by apply update_lib_voted].
Qed.

(** ** A sample *)

(** Block 900000, then 900001 and 900002 on one side and another 900001 on the other. *)
Definition lib_b1 : signed_block_header := BlockHeader (construct_block_id 7 899999) 0 "initminer" 11.
Definition lib_b2 : signed_block_header := sample_block 12 lib_b1.
Definition lib_b3 : signed_block_header := sample_block 13 lib_b2.
Definition lib_b2' : signed_block_header := sample_block 22 lib_b1.
Definition sample_lib_forks : fork_database :=
  (push_block head lib_b2' (push_block head lib_b3 (push_block head lib_b2
     (start_block lib_b1 empty_fork_database)).1).1).1.

Lemma sample_lib_inv : fork_inv [] sample_lib_forks.
Proof.
  unfold sample_lib_forks. do 3 (apply push_block_inv; [apply head_some|apply head_none|]).
  apply start_block_inv.
Qed.

Lemma sample_lib_ids : ids_name_parents sample_lib_forks.
Proof.
  assert (∀ p, owned sample_lib_forks p → p ∈ _index sample_lib_forks) as Ho.
  { assert (_index sample_lib_forks = [0; 1; 2; 3]) as E1 by by vm_compute.
    assert (_unlinked_index sample_lib_forks = []) as E2 by by vm_compute.
    assert (_head sample_lib_forks = Some 2) as E3 by by vm_compute.
    intros p. unfold owned. rewrite E1, E2, E3. clear.
    intros [Hp|[Hp|[= <-]]]; [done|by apply elem_of_nil in Hp|right; right; left]. }
  intros p q Hp%Ho Hq%Ho E.
  by rewrite (unique_id _ p q (inv_unique _ _ sample_lib_inv) Hp Hq E).
Qed.

(** One confirms 900002, one 900001, and one the block of the other fork. *)
Definition sample_fast : gmap account_name_type block_id_type :=
  list_to_map [("alice"%string, get_block_id lib_b3); ("bob"%string, get_block_id lib_b2);
               ("carol"%string, get_block_id lib_b2')].
Definition sample_owners : list account_name_type := ["alice"%string; "bob"%string; "carol"%string].

Lemma sample_quorum : has_quorum sample_lib_forks sample_fast sample_owners 2 2 1.
Proof. exists [2]. split; [|by vm_compute]. apply (path_cons _ 2 1); [by vm_compute|constructor]. Qed.

Lemma new_irreversible_exact_witness : ∃ r lib,
  find_new_last_irreversible_block reverse sample_lib_forks sample_owners sample_fast 2 900000 = Ok (Some r) ∧
  lib_found sample_lib_forks sample_fast sample_owners 2 900000 lib r ∧
  new_last_irreversible_block_num r = 900001 ∧ found_on_another_fork r = false.
Proof.
  destruct (new_irreversible_exact reverse sample_lib_forks sample_fast sample_owners 2 900000)
    as (_ & r & Hr & Hspec).
  - apply reverse_Permutation.
  - apply sample_lib_inv.
  - by vm_compute.
  - lia.
  - lia.
  - destruct r as [r|].
    + destruct Hspec as [lib Hlib]. exists r, lib. split; [done|]. split; [done|].
      vm_compute in Hr. by injection Hr as <-.
    + exfalso. by vm_compute in Hr.
Defined.

Lemma irreversible_blocks_agree_witness : ∃ lib, item_num sample_lib_forks lib = 900001 ∧
  same_chain sample_lib_forks lib 1.
Proof.
  destruct (irreversible_blocks_agree reverse sample_lib_forks sample_fast sample_owners 2 900000
    (NewLastIrreversibleBlock 900001 false 2)) as (lib & _ & Hn & _ & _ & Hall).
  - apply reverse_Permutation.
  - apply sample_lib_inv.
  - apply sample_lib_ids.
  - by vm_compute.
  - lia.
  - lia.
  - by vm_compute.
  - by vm_compute.
  - exists lib. split; [exact Hn|]. apply (Hall 2 1).
    + apply (bool_decide_unpack _). by vm_compute.
    + apply sample_quorum.
Defined.

(** All three vote for 900001 or for what was built on it. *)
Definition sample_lib_state : lib_state :=
  LibState sample_state ∅ 900002 900000 (<["carol"%string := get_block_id lib_b3]> sample_fast) sample_lib_forks.

Lemma irreversible_forward_witness : ∃ s',
  update_last_irreversible_block reverse false None sample_lib_state = Ok (900000, s') ∧
  lib_moved sample_lib_state s' ∧ last_irreversible s' = 900001.
Proof.
  destruct (irreversible_forward reverse false sample_lib_state) as (s' & Hs & Hm & _).
  - apply reverse_Permutation.
  - split.
    + by vm_compute.
    + by vm_compute.
    + exact sample_lib_inv.
    + exact (ready_known _ _ sample_ready).
    + apply (bool_decide_unpack _). by vm_compute.
    + intros n. by vm_compute.
  - exists s'. split; [done|]. split; [done|]. vm_compute in Hs. by injection Hs as <-.
Defined.
