(* ===== verification/BlockSlots.v ===== *)
(** * Slots of blocks

    [src/libraries/chain/database.cpp]: the slots in time at which blocks are produced, whose turn
    each of them is, and what applying a block records of the slots that were filled and missed
    ([get_scheduled_witness], [get_slot_time], [get_slot_at_time], [validate_block_header],
    [update_global_dynamic_data], [update_signing_witness]). *)

From S2P Require Import Prelude Safe AssetSymbol Asset Version OperationTypes Operations DelayedVotes Account Governance.
From S2P Require Import ForkDatabase ResourceDynamics ResourceCost ResourceCount RcDelegations RcCharge WitnessSchedule.
Open Scope Z_scope.

Definition HIVE_BLOCK_INTERVAL : Z := 3.
Definition HIVE_WITNESS_SHUTDOWN_THRESHOLD : Z := 24 * 60 * 60 / HIVE_BLOCK_INTERVAL.
Definition HIVE_MAX_UNDO_HISTORY : Z := 10000.

(** ** State *)

(** What a witness has produced and missed. *)
Record witness_record : Set := WitnessRecord {
  total_missed : Z;                      (* uint32_t *)
  last_aslot : Z;                        (* uint64_t *)
  last_confirmed_block_num : Z           (* uint64_t *)
}.

(** The slots of the dynamic global properties, with the schedule and the records of the witnesses. *)
Record slot_state : Set := SlotState {
  slot_schedule : schedule_state;
  witness_records : gmap account_name_type witness_record;
  dgp_time : time_point_sec;             (* uint32_t *)
  dgp_head_block_number : Z;             (* uint32_t *)
  dgp_head_block_id : block_id_type;
  current_aslot : Z;                     (* uint64_t *)
  recent_slots_filled : Z;               (* uint128_t *)
  participation_count : Z                (* uint8_t *)
}.

Definition set_slot_schedule (c : schedule_state) (s : slot_state) : slot_state :=
  SlotState c (witness_records s) (dgp_time s) (dgp_head_block_number s) (dgp_head_block_id s)
    (current_aslot s) (recent_slots_filled s) (participation_count s).
Definition set_witness_records (m : gmap account_name_type witness_record) (s : slot_state) : slot_state :=
  SlotState (slot_schedule s) m (dgp_time s) (dgp_head_block_number s) (dgp_head_block_id s)
    (current_aslot s) (recent_slots_filled s) (participation_count s).
Definition set_slots (slots count : Z) (s : slot_state) : slot_state :=
  SlotState (slot_schedule s) (witness_records s) (dgp_time s) (dgp_head_block_number s)
    (dgp_head_block_id s) (current_aslot s) slots count.

Definition record_of (n : account_name_type) (s : slot_state) : witness_record :=
  default (WitnessRecord 0 0 0) (witness_records s !! n).
Definition set_record (n : account_name_type) (r : witness_record) (s : slot_state) : slot_state :=
  set_witness_records (<[ n := r ]> (witness_records s)) s.

(** ** Slots *)

Definition get_scheduled_witness (slot_num : Z) (s : slot_state) : result account_name_type :=
  let wso := schedule_now (slot_schedule s) in
  i ← urem (u64 (current_aslot s + slot_num)) (num_scheduled_witnesses wso);
  from_option_or undefined_behaviour (current_shuffled_witnesses wso !! Z.to_nat i).

Definition get_slot_time (slot_num : Z) (s : slot_state) : time_point_sec :=
  if slot_num =? 0 then 0
  else if dgp_head_block_number s =? 0 then time_add (dgp_time s) (u32 (slot_num * HIVE_BLOCK_INTERVAL))
  else time_add (u32 (dgp_time s / HIVE_BLOCK_INTERVAL * HIVE_BLOCK_INTERVAL))
         (u32 (slot_num * HIVE_BLOCK_INTERVAL)).

Definition get_slot_at_time (when : time_point_sec) (s : slot_state) : Z :=
  let first_slot_time := get_slot_time 1 s in
  if when <? first_slot_time then 0
  else u32 ((when - first_slot_time) / HIVE_BLOCK_INTERVAL + 1).

(** ** Headers *)

(** [signing_key] is the key recovered from the signature of the block; the flags are
    [skip_witness_signature] and [skip_witness_schedule_check]. *)
Definition validate_block_header (skip_signature skip_schedule : bool) (b : signed_block_header)
    (signing_key_of_block : public_key_type) (s : slot_state) : result scheduled_witness :=
  fc_assert (bool_decide (dgp_head_block_id s = previous b)) "head_block_id() == next_block_header.previous" ;;
  fc_assert (dgp_time s <? timestamp b) "head_block_time() < next_block_header.timestamp" ;;
  w ← get_witness (witness b) (slot_schedule s);
  fc_assert (skip_signature || (signing_key w =? signing_key_of_block))
    "witness.signing_key == full_block->get_signing_key()" ;;
  if skip_schedule then Ok w
  else
    let slot_num := get_slot_at_time (timestamp b) s in
    fc_assert (0 <? slot_num) "slot_num > 0" ;;
    scheduled_witness ← get_scheduled_witness slot_num s;
    fc_assert (bool_decide (owner w = scheduled_witness)) "Witness produced block at wrong time" ;;
    Ok w.

(** ** The records of a block *)

Definition set_signing_key (k : public_key_type) (w : scheduled_witness) : scheduled_witness :=
  ScheduledWitness (witness_id w) (owner w) (pow_worker w) k (props w) (voting w) (schedule w)
    (running_version w) (hardfork_version_vote w) (hardfork_time_vote w)
    (available_witness_account_subsidies w).

Definition shut_down (w : scheduled_witness) (s : slot_state) : slot_state :=
  let c := slot_schedule s in
  set_slot_schedule (set_witness_index (modify_witnesses [witness_id w] (set_signing_key 0) (witness_index c)) c) s.

(** The witness [w] has missed a slot. *)
Definition miss (w : scheduled_witness) (s : slot_state) : slot_state :=
  let r := record_of (owner w) s in
  let s := set_record (owner w)
    (WitnessRecord (u32 (total_missed r + 1)) (last_aslot r) (last_confirmed_block_num r)) s in
  let c := slot_schedule s in
  if hardfork_active HIVE_HARDFORK_0_14__278 c && negb (hardfork_active HIVE_HARDFORK_0_20 c) &&
     (HIVE_WITNESS_SHUTDOWN_THRESHOLD <? u64 (dgp_head_block_number s - last_confirmed_block_num r))
  then shut_down w s else s.

(** The loop over the missed slots, from the slot [i + 1] on. *)
Fixpoint miss_slots (n : nat) (i : Z) (producer : account_name_type) (s : slot_state) : result slot_state :=
  match n with
  | O => Ok s
  | S n =>
      name ← get_scheduled_witness (u32 (i + 1)) s;
      w ← get_witness name (slot_schedule s);
      miss_slots n (i + 1) producer (if decide (owner w = producer) then s else miss w s)
  end.

(** The loop over the slots up to the block: the first bit shifted in is 1. *)
Fixpoint shift_slots (n : nat) (first : bool) (slots count : Z) : Z * Z :=
  match n with
  | O => (slots, count)
  | S n =>
      let count := u8 (count - (if Z.testbit slots 127 then 1 else 0)) in
      let slots := u128 (u128 (Z.shiftl slots 1) + (if first then 1 else 0)) in
      shift_slots n false slots (u8 (count + (if first then 1 else 0)))
  end.

(** [lib] is the last irreversible block and [skip_undo] the flag [skip_undo_history_check]. *)
Definition update_global_dynamic_data (skip_undo : bool) (lib : Z) (b : signed_block_header)
    (s : slot_state) : result slot_state :=
  let missed_blocks := u32 (get_slot_at_time (timestamp b) s - 1) in
  s ← (if dgp_head_block_number s =? 0 then Ok s
       else miss_slots (Z.to_nat missed_blocks) 0 (witness b) s);
  let '(slots, count) := shift_slots (Z.to_nat (u32 (missed_blocks + 1))) true (recent_slots_filled s)
    (participation_count s) in
  let s := SlotState (slot_schedule s) (witness_records s) (timestamp b) (block_num b) (get_block_id b)
    (u64 (current_aslot s + u32 (missed_blocks + 1))) slots count in
  if skip_undo || (u32 (dgp_head_block_number s - lib) <? HIVE_MAX_UNDO_HISTORY) then Ok s
  else Throw (fc_exception "undo_database_exception").

(** It runs after the update above, so that the time of the block is that of the head. *)
Definition update_signing_witness (w : account_name_type) (b : signed_block_header) (s : slot_state) : slot_state :=
  let r := record_of w s in
  set_record w (WitnessRecord (total_missed r)
    (u64 (current_aslot s + get_slot_at_time (timestamp b) s)) (block_num b)) s.
