(* ===== verification/SlotsMain.v ===== *)
(** * Slots, turns and participation

    The slots of [BlockSlots] follow the clock, whose turn a moment is does not depend on the blocks
    that were produced before it ([slot_turns]), and applying a block accounts for every slot since
    the last one ([slots_accounted]). *)

From S2P Require Import Prelude Safe AssetSymbol Asset Version OperationTypes Operations DelayedVotes Account Governance.
From S2P Require Import ForkDatabase ResourceDynamics ResourceCost ResourceCount RcDelegations RcCharge.
From S2P Require Import WitnessSchedule WitnessSelection WitnessMedians WitnessRound WitnessMain BlockSlots.
Open Scope Z_scope.

(** ** Slots and the clock *)

(** The clock is within its range, and the first slot is aligned. *)
Record clock_ok (s : slot_state) : Prop := {
  clock_range : 0 ≤ dgp_time s ∧ dgp_time s + HIVE_BLOCK_INTERVAL ≤ u32_max;
  clock_head : 0 ≤ dgp_head_block_number s;
  clock_aligned : dgp_head_block_number s = 0 → dgp_time s mod HIVE_BLOCK_INTERVAL = 0
}.

Section clock.
Context (s : slot_state) (Hclock : clock_ok s).

Lemma clock_mod : dgp_time s = 3 * (dgp_time s / 3) + dgp_time s mod 3 ∧ 0 ≤ dgp_time s mod 3 < 3.
Proof using. split; [apply Z.div_mod; lia|apply Z.mod_pos_bound; lia]. Qed.

(** The time of a slot, while it can be represented. *)
Lemma slot_time_exact k : 0 < k → 3 * (dgp_time s / 3 + k) ≤ u32_max →
  get_slot_time k s = 3 * (dgp_time s / 3 + k).
Proof using Hclock.
  destruct Hclock as [[Ht _] Hh Ha]. intros Hk Hm. pose proof clock_mod as [Hd Hr].
  unfold get_slot_time, time_add, HIVE_BLOCK_INTERVAL in *. rewrite (proj2 (Z.eqb_neq _ _)) by lia.
  rewrite (u32_id (k * 3)) by lia. destruct (Z.eqb_spec (dgp_head_block_number s) 0) as [E|_].
  - specialize (Ha E). rewrite u32_id; lia.
  - rewrite (u32_id (dgp_time s / 3 * 3)), u32_id; lia.
Qed.

(** The slot of a moment. *)
Lemma slot_at_exact t : 0 ≤ t ≤ u32_max → get_slot_at_time t s = Z.max 0 (t / 3 - dgp_time s / 3).
Proof using Hclock.
  intros Ht. pose proof clock_mod as [Hd Hr]. pose proof (clock_range s Hclock) as Hc.
  unfold get_slot_at_time, HIVE_BLOCK_INTERVAL in *. rewrite slot_time_exact by lia.
  pose proof (div_bracket t 3 ltac:(lia)) as Hb. destruct (Z.ltb_spec t (3 * (dgp_time s / 3 + 1))) as [Hlt|Hge].
  - lia.
  - replace (t - 3 * (dgp_time s / 3 + 1)) with (t + - (dgp_time s / 3 + 1) * 3) by lia.
    rewrite Z.div_add by lia. rewrite u32_id; [lia|]. lia.
Qed.

End clock.

(** ** Missed slots *)

Lemma miss_slots_schedule n i p s s' : miss_slots n i p s = Ok s' →
  schedule_now (slot_schedule s') = schedule_now (slot_schedule s) ∧
  s' = SlotState (slot_schedule s') (witness_records s') (dgp_time s) (dgp_head_block_number s)
    (dgp_head_block_id s) (current_aslot s) (recent_slots_filled s) (participation_count s).
Proof.
  revert i s. induction n as [|n IH]; intros i s; cbn [miss_slots]; [intros [= ->]; by destruct s'|].
  intros (name & _ & (w & _ & H)%bind_Ok)%bind_Ok. apply IH in H as [H1 H2]. revert H1 H2.
  case_decide; [done|]. unfold miss, shut_down. by destruct (_ && _).
Qed.

(** Who is scheduled depends on the slots and the current schedule only. *)
Lemma scheduled_witness_ext k k' s s' :
  schedule_now (slot_schedule s') = schedule_now (slot_schedule s) →
  u64 (current_aslot s' + k') = u64 (current_aslot s + k) →
  get_scheduled_witness k' s' = get_scheduled_witness k s.
Proof. intros E1 E2. unfold get_scheduled_witness. by rewrite E1, E2. Qed.

Lemma u64_add_l a b : u64 (u64 a + b) = u64 (a + b).
Proof. unfold u64, wrapu. apply Zplus_mod_idemp_l. Qed.

(** A block in a slot of its own. *)
Record block_ok (b : signed_block_header) (s : slot_state) : Prop := {
  block_time : 0 ≤ timestamp b ∧ timestamp b + HIVE_BLOCK_INTERVAL ≤ u32_max;
  block_number : 0 < block_num b;
  block_slot : 0 < get_slot_at_time (timestamp b) s
}.

Lemma slot_range t s : 0 ≤ get_slot_at_time t s ≤ u32_max.
Proof.
  unfold get_slot_at_time. destruct (_ <? _); [limits; lia|].
  unfold u32, u32_max.
  pose proof (wrapu_bound 32 ((t - get_slot_time 1 s) / HIVE_BLOCK_INTERVAL + 1) ltac:(lia)). lia.
Qed.

(** The number of slots of a block, without wrap-around. *)
Lemma block_slots b s : block_ok b s →
  u32 (u32 (get_slot_at_time (timestamp b) s - 1) + 1) = get_slot_at_time (timestamp b) s.
Proof.
  intros [_ _ Hs]. pose proof (slot_range (timestamp b) s).
  rewrite (u32_id (get_slot_at_time (timestamp b) s - 1)), u32_id; lia.
Qed.

(** What the update leaves besides the records of witnesses and the bits of slots. *)
Lemma update_fields skip_undo lib b s s' : block_ok b s →
  update_global_dynamic_data skip_undo lib b s = Ok s' →
  schedule_now (slot_schedule s') = schedule_now (slot_schedule s) ∧
  dgp_time s' = timestamp b ∧ dgp_head_block_number s' = block_num b ∧ dgp_head_block_id s' = get_block_id b ∧
  current_aslot s' = u64 (current_aslot s + get_slot_at_time (timestamp b) s).
Proof.
  intros Hb. unfold update_global_dynamic_data. intros (s1 & H1 & H2)%bind_Ok.
  rewrite (block_slots b s Hb) in H2. destruct (shift_slots _ _ _ _) as [slots count].
  destruct (_ || _); [|done]. injection H2 as <-. cbn.
  assert (schedule_now (slot_schedule s1) = schedule_now (slot_schedule s) ∧
          current_aslot s1 = current_aslot s) as [-> ->]; [|done].
  destruct (_ =? 0); [by injection H1 as ->|]. apply miss_slots_schedule in H1 as [E1 E2].
  split; [done|]. by rewrite E2.
Qed.

(** C3. The slots follow the clock: the slot of a moment is the number of intervals since that of the
    head block, and is the one between whose time and the next the moment lies.  Applying a block
    moves the count of slots on by as many intervals, so that whose turn a later moment is does not
    depend on which slots were filled before it. *)
Theorem slot_turns s : clock_ok s →
  (∀ t, 0 ≤ t ≤ u32_max →
     get_slot_at_time t s = Z.max 0 (t / HIVE_BLOCK_INTERVAL - dgp_time s / HIVE_BLOCK_INTERVAL)) ∧
  (∀ t k, 0 ≤ t ≤ u32_max → 0 < k →
     HIVE_BLOCK_INTERVAL * (dgp_time s / HIVE_BLOCK_INTERVAL + k + 1) ≤ u32_max →
     get_slot_at_time t s = k ↔ get_slot_time k s ≤ t < get_slot_time (k + 1) s) ∧
  (∀ skip_undo lib b s' t, block_ok b s → update_global_dynamic_data skip_undo lib b s = Ok s' →
     timestamp b ≤ t ≤ u32_max →
     get_scheduled_witness (get_slot_at_time t s') s' = get_scheduled_witness (get_slot_at_time t s) s).
Proof.
  intros Hc. unfold HIVE_BLOCK_INTERVAL. split_and!.
  - intros t Ht. by apply slot_at_exact.
  - intros t k Ht Hk Hm. rewrite slot_at_exact, !slot_time_exact by (done || lia).
    pose proof (div_bracket t 3 ltac:(lia)). lia.
  - intros skip lib b s' t Hb Hu Ht. destruct (update_fields skip lib b s s' Hb Hu) as (E1 & E2 & E3 & _ & E5).
    destruct Hb as [Hbt Hbn Hbs]. unfold HIVE_BLOCK_INTERVAL in *.
    apply scheduled_witness_ext; [done|]. rewrite E5, u64_add_l. f_equal.
    assert (clock_ok s') as Hc' by (split; rewrite ?E2, ?E3; unfold HIVE_BLOCK_INTERVAL; lia).
    rewrite (slot_at_exact s Hc (timestamp b)) in * by lia.
    rewrite (slot_at_exact s' Hc'), (slot_at_exact s Hc), E2 by lia.
    pose proof (Z.div_le_mono (timestamp b) t 3 ltac:(lia) ltac:(lia)). lia.
Qed.

(** ** Participation *)

(** How many of the last 128 slots were filled. *)
Definition popcount (z : Z) : Z := sumZ ((λ i, Z.b2z (Z.testbit z i)) <$> seqZ 0 128).

Lemma b2z_range b : 0 ≤ Z.b2z b ≤ 1.
Proof. destruct b; cbn; lia. Qed.

Lemma popcount_range z : 0 ≤ popcount z ≤ 128.
Proof.
  unfold popcount. assert (∀ l : list Z, 0 ≤ sumZ ((λ i, Z.b2z (Z.testbit z i)) <$> l) ≤ Z.of_nat (length l)) as H.
  { induction l as [|i l IH]; [done|]. rewrite fmap_cons, sumZ_cons. cbn [length].
    pose proof (b2z_range (Z.testbit z i)). lia. }
  specialize (H (seqZ 0 128)). rewrite length_seqZ in H. lia.
Qed.

(** The bits after a shift. *)
Lemma shift_bit z b i : 0 ≤ i < 127 → Z.testbit (u128 (z * 2 + Z.b2z b)) (i + 1) = Z.testbit z i.
Proof.
  intros Hi. unfold u128, wrapu. rewrite Z.mod_pow2_bits_low by lia. replace (z * 2) with (2 * z) by lia.
  rewrite Z.add_1_r. by rewrite Z.testbit_succ_r by lia.
Qed.

Lemma shift_bit_0 z b : Z.testbit (u128 (z * 2 + Z.b2z b)) 0 = b.
Proof.
  unfold u128, wrapu. rewrite Z.mod_pow2_bits_low by lia. replace (z * 2) with (2 * z) by lia.
  apply Z.testbit_0_r.
Qed.

Lemma popcount_top z : popcount z = sumZ ((λ i, Z.b2z (Z.testbit z i)) <$> seqZ 0 127) + Z.b2z (Z.testbit z 127).
Proof.
  unfold popcount. change (seqZ 0 128) with (seqZ 0 127 ++ [127]). rewrite fmap_app, sumZ_app.
  unfold sumZ at 2. cbn [fmap list_fmap foldr]. lia.
Qed.

Lemma popcount_shift z b :
  popcount (u128 (z * 2 + Z.b2z b)) = popcount z - Z.b2z (Z.testbit z 127) + Z.b2z b.
Proof.
  rewrite (popcount_top z). unfold popcount. change (seqZ 0 128) with (0 :: (Z.add 1 <$> seqZ 0 127)).
  rewrite fmap_cons, sumZ_cons, shift_bit_0, <- list_fmap_compose.
  rewrite (sumZ_ext (_ ∘ _) (λ i, Z.b2z (Z.testbit z i))); [lia|].
  intros i Hi%elem_of_seqZ. unfold compose. f_equal. rewrite (Z.add_comm 1 i). apply shift_bit. lia.
Qed.

(** One round of the loop shifts a bit in, and the count follows. *)
Lemma shift_slots_step n b z : 0 ≤ z ≤ u128_max →
  shift_slots (S n) b z (popcount z)
  = shift_slots n false (u128 (z * 2 + Z.b2z b)) (popcount (u128 (z * 2 + Z.b2z b))).
Proof.
  intros Hz. cbn [shift_slots]. rewrite popcount_shift. fold (Z.b2z b). fold (Z.b2z (Z.testbit z 127)).
  pose proof (popcount_range z) as Hp. pose proof (b2z_range b). pose proof (b2z_range (Z.testbit z 127)).
  assert (Z.b2z (Z.testbit z 127) ≤ popcount z) as Htop.
  { rewrite popcount_top. assert (0 ≤ sumZ ((λ i, Z.b2z (Z.testbit z i)) <$> seqZ 0 127)); [|lia].
    apply sumZ_nonneg, Forall_fmap, Forall_true. intros i. apply b2z_range. }
  rewrite (u8_id (popcount z - _)), u8_id by (limits; lia). f_equal.
  rewrite Z.shiftl_mul_pow2 by lia. unfold u128, wrapu. by rewrite Zplus_mod_idemp_l.
Qed.

Lemma shift_slots_empty n z : 0 ≤ z ≤ u128_max →
  shift_slots n false z (popcount z) = (u128 (z * 2 ^ Z.of_nat n), popcount (u128 (z * 2 ^ Z.of_nat n))).
Proof.
  revert z. induction n as [|n IH]; intros z Hz.
  - cbn [shift_slots]. replace (z * 2 ^ Z.of_nat 0) with z by (cbn; lia). by rewrite u128_id by lia.
  - rewrite shift_slots_step by done. cbn [Z.b2z]. rewrite Z.add_0_r.
    rewrite IH by (pose proof (wrapu_bound 128 (z * 2) ltac:(lia)); unfold u128; limits; lia).
    assert (u128 (u128 (z * 2) * 2 ^ Z.of_nat n) = u128 (z * 2 ^ Z.of_nat (S n))) as ->; [|done].
    unfold u128, wrapu. rewrite Zmult_mod_idemp_l. f_equal.
    rewrite Nat2Z.inj_succ, Z.pow_succ_r by lia. lia.
Qed.

(** The slots of a block that was preceded by [n] missed ones. *)
Lemma shift_slots_block n z : 0 ≤ z ≤ u128_max →
  shift_slots (S n) true z (popcount z)
  = (u128 ((z * 2 + 1) * 2 ^ Z.of_nat n), popcount (u128 ((z * 2 + 1) * 2 ^ Z.of_nat n))).
Proof.
  intros Hz. rewrite shift_slots_step by done. cbn [Z.b2z].
  rewrite shift_slots_empty by (pose proof (wrapu_bound 128 (z * 2 + 1) ltac:(lia)); unfold u128; limits; lia).
  assert (u128 (u128 (z * 2 + 1) * 2 ^ Z.of_nat n) = u128 ((z * 2 + 1) * 2 ^ Z.of_nat n)) as ->; [|done].
  unfold u128, wrapu. by rewrite Zmult_mod_idemp_l.
Qed.

(** ** Missed slots *)

Abbreviation known s := (schedule_known (witness_index (slot_schedule s)) (schedule_now (slot_schedule s))).

Lemma turn_known k s : known s → ∃ n, get_scheduled_witness k s = Ok n ∧
  n ∈ scheduled_names (schedule_now (slot_schedule s)).
Proof.
  intros [Hn Hl _]. unfold get_scheduled_witness, urem. set (o := schedule_now _) in *.
  rewrite (proj2 (Z.eqb_neq _ _)) by lia. cbn [mbind result_bind].
  set (i := u64 (current_aslot s + k) mod num_scheduled_witnesses o).
  assert (0 ≤ i < num_scheduled_witnesses o) as Hi by (apply Z.mod_pos_bound; lia).
  unfold HIVE_MAX_WITNESSES in Hn.
  destruct (lookup_lt_is_Some_2 (current_shuffled_witnesses o) (Z.to_nat i)) as [n Hlk]; [lia|].
  exists n. rewrite Hlk. split; [done|]. unfold scheduled_names. apply elem_of_take. exists (Z.to_nat i).
  split; [done|lia].
Qed.

Lemma turn_witness k s : known s → ∃ w, get_scheduled_witness k s = Ok (owner w) ∧
  get_witness (owner w) (slot_schedule s) = Ok w.
Proof.
  intros Hk. destruct (turn_known k s Hk) as (n & Hn & Hin). destruct Hk as [_ _ Hnames].
  destruct (get_witness_known n (slot_schedule s) (Hnames n Hin)) as (w & Hw & _ & <-). by exists w.
Qed.

(** How many of the [n] slots after the slot [i] were the turn of [m], who did not produce the block. *)
Definition missed_by (producer : account_name_type) (s : slot_state) (i n : Z) (m : account_name_type) : Z :=
  if decide (m = producer) then 0
  else Z.of_nat (length (filter (λ k, get_scheduled_witness k s = Ok m) (seqZ (i + 1) n))).

Definition add_missed (n : Z) (r : witness_record) : witness_record :=
  WitnessRecord (u32 (total_missed r + n)) (last_aslot r) (last_confirmed_block_num r).

Definition records_ok (s : slot_state) : Prop := ∀ m, 0 ≤ total_missed (record_of m s) ≤ u32_max.

Lemma add_missed_0 m s : records_ok s → add_missed 0 (record_of m s) = record_of m s.
Proof.
  intros Hr. specialize (Hr m). unfold add_missed. rewrite Z.add_0_r, u32_id by lia. by destruct (record_of m s).
Qed.

Lemma add_missed_add a b r : add_missed a (add_missed b r) = add_missed (b + a) r.
Proof. unfold add_missed, u32, wrapu. cbn. by rewrite Zplus_mod_idemp_l, Z.add_assoc. Qed.

Lemma modify_owners ids k ws : owner <$> modify_witnesses ids (set_signing_key k) ws = owner <$> ws.
Proof.
  unfold modify_witnesses. rewrite <- list_fmap_compose. apply list_fmap_ext. intros i w _.
  unfold compose. by case_decide.
Qed.

Lemma miss_exact w s : known s →
  known (miss w s) ∧ schedule_now (slot_schedule (miss w s)) = schedule_now (slot_schedule s) ∧
  current_aslot (miss w s) = current_aslot s ∧
  (∀ m, record_of m (miss w s) = if decide (m = owner w) then add_missed 1 (record_of m s) else record_of m s) ∧
  (hardfork_active HIVE_HARDFORK_0_20 (slot_schedule s) = true → slot_schedule (miss w s) = slot_schedule s).
Proof.
  intros [H1 H2 H3]. unfold miss. set (s1 := set_record _ _ s).
  assert (∀ m, record_of m s1 = if decide (m = owner w) then add_missed 1 (record_of m s) else record_of m s) as Hrec.
  { intros m. unfold s1, record_of, set_record. cbn. case_decide as E.
    - subst m. by rewrite lookup_insert_eq.
    - by rewrite lookup_insert_ne by congruence. }
  destruct (_ && _) eqn:Hdown.
  - split_and!; [split; [done..|]|done|done|done|].
    + intros n Hn. cbn. rewrite modify_owners. by apply H3.
    + intros H20. cbn in Hdown. rewrite H20 in Hdown. cbn in Hdown. rewrite andb_false_r in Hdown. done.
  - split_and!; [by split|done..].
Qed.

Lemma missed_by_step p s i n m w : 0 ≤ n → get_scheduled_witness (i + 1) s = Ok (owner w) →
  missed_by p s i (Z.succ n) m = (if decide (owner w = p) then 0 else if decide (m = owner w) then 1 else 0)
    + missed_by p s (i + 1) n m.
Proof.
  intros Hn Hw. unfold missed_by. rewrite seqZ_cons by lia. rewrite Z.pred_succ, filter_cons, Hw.
  replace (Z.succ (i + 1)) with (i + 1 + 1) by lia.
  destruct (decide (m = p)) as [Hp|Hp]; [by repeat case_decide; try congruence|].
  destruct (decide (Ok (owner w) = Ok m)) as [E|E]; repeat case_decide; try congruence; cbn [length]; lia.
Qed.

Lemma missed_by_ext p s s' i n m : schedule_now (slot_schedule s') = schedule_now (slot_schedule s) →
  current_aslot s' = current_aslot s → missed_by p s' i n m = missed_by p s i n m.
Proof.
  intros E1 E2. unfold missed_by. case_decide; [done|]. do 2 f_equal.
  apply list_filter_iff. intros k. by rewrite (scheduled_witness_ext k k s s') by (rewrite ?E2; done).
Qed.

Lemma miss_slots_exact n i p s : known s → records_ok s → 0 ≤ i → i + Z.of_nat n ≤ u32_max →
  ∃ s', miss_slots n i p s = Ok s' ∧
    (∀ m, record_of m s' = add_missed (missed_by p s i (Z.of_nat n) m) (record_of m s)) ∧
    (hardfork_active HIVE_HARDFORK_0_20 (slot_schedule s) = true → slot_schedule s' = slot_schedule s).
Proof.
  revert i s. induction n as [|n IH]; intros i s Hk Hr Hi Hn; cbn [miss_slots].
  { exists s. split; [done|]. split; [|done]. intros m.
    assert (missed_by p s i (Z.of_nat 0) m = 0) as -> by (unfold missed_by; by case_decide).
    by rewrite add_missed_0. }
  rewrite u32_id by lia. destruct (turn_witness (i + 1) s Hk) as (w & Ht & Hw).
  rewrite Ht. cbn [mbind result_bind]. rewrite Hw. cbn [mbind result_bind].
  set (s1 := if decide (owner w = p) then s else miss w s).
  destruct (miss_exact w s Hk) as (Hk1 & E1 & E2 & Hrec & H20).
  assert (∀ m, record_of m s1 = add_missed (if decide (owner w = p) then 0
    else if decide (m = owner w) then 1 else 0) (record_of m s)) as Hrec1.
  { intros m. unfold s1. destruct (decide (owner w = p)); [by rewrite add_missed_0|].
    rewrite Hrec. case_decide; [done|by rewrite add_missed_0]. }
  assert (known s1 ∧ schedule_now (slot_schedule s1) = schedule_now (slot_schedule s) ∧
    current_aslot s1 = current_aslot s ∧
    (hardfork_active HIVE_HARDFORK_0_20 (slot_schedule s) = true → slot_schedule s1 = slot_schedule s))
    as (Hks & Es1 & Es2 & Hs20) by (unfold s1; case_decide; done).
  destruct (IH (i + 1) s1) as (s' & Hs' & Hrec' & H20'); [done| |lia|lia|].
  { intros m. rewrite Hrec1. cbn. pose proof (wrapu_bound 32 (total_missed (record_of m s) +
      (if decide (owner w = p) then 0 else if decide (m = owner w) then 1 else 0)) ltac:(lia)).
    unfold u32, u32_max. lia. }
  exists s'. split; [done|]. split.
  - intros m. rewrite Hrec', Hrec1, add_missed_add, (missed_by_ext p s s1) by done.
    by rewrite Nat2Z.inj_succ, (missed_by_step p s i (Z.of_nat n) m w) by (done || lia).
  - intros H. rewrite H20'; [by apply Hs20|]. by rewrite Hs20.
Qed.

(** What applying a block leaves of the slots since the last one. *)
Record slots_filled (b : signed_block_header) (s s' : slot_state) : Prop := {
  filled_head : dgp_time s' = timestamp b ∧ dgp_head_block_number s' = block_num b ∧
    dgp_head_block_id s' = get_block_id b;
  filled_aslot : current_aslot s' = u64 (current_aslot s + get_slot_at_time (timestamp b) s);
  filled_slots : recent_slots_filled s'
    = u128 ((recent_slots_filled s * 2 + 1) * 2 ^ (get_slot_at_time (timestamp b) s - 1));
  filled_count : participation_count s' = popcount (recent_slots_filled s');
  filled_missed m : record_of m s' = add_missed (if decide (dgp_head_block_number s = 0) then 0
      else missed_by (witness b) s 0 (get_slot_at_time (timestamp b) s - 1) m) (record_of m s);
  filled_schedule : hardfork_active HIVE_HARDFORK_0_20 (slot_schedule s) = true →
    slot_schedule s' = slot_schedule s
}.

(** C31. Applying a block that lies in a slot of its own, in a state whose scheduled witnesses exist
    and whose participation is the number of ones of its record, accounts for every slot since the head:
    it fails only when the undo history is too short; the count of slots moves on by the slot of the
    block; the 128-bit record of slots is shifted by a one for the block and then by a zero for each
    slot that was missed before it, and the participation stays the number of its ones; and every
    witness but the producer is charged one missed block, in 32 bits, for each of its turns in
    between, nobody before the first block. *)
Theorem slots_accounted skip_undo lib b s :
  known s → records_ok s → block_ok b s → 0 ≤ recent_slots_filled s ≤ u128_max →
  participation_count s = popcount (recent_slots_filled s) →
  if skip_undo || (u32 (block_num b - lib) <? HIVE_MAX_UNDO_HISTORY)
  then ∃ s', update_global_dynamic_data skip_undo lib b s = Ok s' ∧ slots_filled b s s' ∧
    0 ≤ participation_count s' ≤ 128
  else update_global_dynamic_data skip_undo lib b s = Throw (fc_exception "undo_database_exception").
Proof.
  intros Hk Hr Hb Hz Hc. pose proof (block_slots b s Hb) as Hbs. destruct Hb as [_ _ Hslot].
  pose proof (slot_range (timestamp b) s) as Hsr. unfold update_global_dynamic_data. rewrite Hbs.
  set (k := get_slot_at_time (timestamp b) s) in *. rewrite (u32_id (k - 1)) by lia.
  assert (∃ s1, (if dgp_head_block_number s =? 0 then Ok s
      else miss_slots (Z.to_nat (k - 1)) 0 (witness b) s) = Ok s1 ∧
    (∀ m, record_of m s1 = add_missed (if decide (dgp_head_block_number s = 0) then 0
        else missed_by (witness b) s 0 (k - 1) m) (record_of m s)) ∧
    (hardfork_active HIVE_HARDFORK_0_20 (slot_schedule s) = true → slot_schedule s1 = slot_schedule s) ∧
    current_aslot s1 = current_aslot s ∧ recent_slots_filled s1 = recent_slots_filled s ∧
    participation_count s1 = participation_count s) as (s1 & -> & Hrec & H20 & E1 & E2 & E3).
  { destruct (Z.eqb_spec (dgp_head_block_number s) 0) as [E|E].
    - exists s. split_and!; try done. intros m. by rewrite decide_True, add_missed_0.
    - destruct (miss_slots_exact (Z.to_nat (k - 1)) 0 (witness b) s) as (s1 & Hs1 & Hrec & H20); [done..|lia|].
      exists s1. split; [done|]. destruct (miss_slots_schedule _ _ _ _ _ Hs1) as [_ E'].
      rewrite Z2Nat.id in Hrec by lia. split_and!; [|done|by rewrite E'..].
      intros m. by rewrite decide_False. }
  cbn [mbind result_bind]. rewrite E2, E3, Hc. replace (Z.to_nat k) with (S (Z.to_nat (k - 1))) by lia.
  rewrite shift_slots_block by done. rewrite Z2Nat.id by lia.
  cbn [dgp_head_block_number]. destruct (_ || _); [|done]. eexists. split; [done|].
  split; [|apply popcount_range]. split; cbn; try done. by rewrite E1.
Qed.

(** The one of the block goes in before the zeros of the slots missed before it, so that after 128
    missed slots it is lost: a block was just produced, and the participation is zero. *)
Lemma participation_lost b s s' : slots_filled b s s' → 128 < get_slot_at_time (timestamp b) s →
  recent_slots_filled s' = 0 ∧ participation_count s' = 0.
Proof.
  intros H Hk. rewrite (filled_count _ _ _ H), (filled_slots _ _ _ H).
  set (k := get_slot_at_time _ _) in *.
  assert (u128 ((recent_slots_filled s * 2 + 1) * 2 ^ (k - 1)) = 0) as ->; [|done].
  replace (k - 1) with (k - 129 + 128) by lia. rewrite Z.pow_add_r, Z.mul_assoc by lia.
  unfold u128, wrapu. apply Z.mod_mul. lia.
Qed.

(** ** Headers *)

(** An accepted header is signed by the witness whose turn it is, in a slot after the head. *)
Lemma validated_header b key s w : validate_block_header false false b key s = Ok w →
  dgp_head_block_id s = previous b ∧ dgp_time s < timestamp b ∧ signing_key w = key ∧
  0 < get_slot_at_time (timestamp b) s ∧ get_scheduled_witness (get_slot_at_time (timestamp b) s) s = Ok (owner w).
Proof.
  unfold validate_block_header. intros [H1 [H2 (v & _ & [H3 H]%fc_assert_bind_Ok)%bind_Ok]%fc_assert_bind_Ok]%fc_assert_bind_Ok.
  apply fc_assert_bind_Ok in H as [H4 (n & Hn & [H5 [= <-]]%fc_assert_bind_Ok)%bind_Ok].
  apply bool_decide_eq_true in H1, H5. apply Z.ltb_lt in H2, H4. apply Z.eqb_eq in H3. by subst n.
Qed.

(** The record of the producer gets the slot of the block: its time is already that of the head. *)
Lemma signing_witness_exact w b s : clock_ok s → timestamp b = dgp_time s → 0 ≤ current_aslot s ≤ u64_max →
  last_aslot (record_of w (update_signing_witness w b s)) = current_aslot s ∧
  last_confirmed_block_num (record_of w (update_signing_witness w b s)) = block_num b.
Proof.
  intros Hc Et Ha.
  assert (record_of w (update_signing_witness w b s) = WitnessRecord (total_missed (record_of w s))
    (u64 (current_aslot s + get_slot_at_time (timestamp b) s)) (block_num b)) as ->.
  { unfold record_of at 1. cbn. by rewrite lookup_insert_eq. }
  split; [cbn|done].
  destruct (clock_range s Hc). unfold HIVE_BLOCK_INTERVAL in *.
  rewrite slot_at_exact, Et by (done || lia). rewrite u64_id; lia.
Qed.

(** ** A sample *)

(** Two slots are missed before the block 101. *)
Definition sample_slots : slot_state :=
  SlotState sample_state ∅ 1700000001 100 (construct_block_id 7 100) 200 u128_max 128.
Definition sample_slot_block : signed_block_header :=
  BlockHeader (construct_block_id 7 100) 1700000010 "carol" 11.

Lemma sample_clock : clock_ok sample_slots.
Proof. split; vm_compute; intuition congruence. Qed.

Lemma sample_slot_block_ok : block_ok sample_slot_block sample_slots.
Proof. split; vm_compute; intuition congruence. Qed.

Lemma slot_turns_witness :
  get_slot_time 3 sample_slots ≤ 1700000010 < get_slot_time 4 sample_slots ∧
  ∃ s', update_global_dynamic_data false 50 sample_slot_block sample_slots = Ok s' ∧
    get_scheduled_witness (get_slot_at_time 1700000022 s') s'
    = get_scheduled_witness (get_slot_at_time 1700000022 sample_slots) sample_slots.
Proof.
  destruct (slot_turns sample_slots sample_clock) as (_ & H2 & H3). split.
  - apply (H2 1700000010 3); by vm_compute.
  - destruct (update_global_dynamic_data false 50 sample_slot_block sample_slots) as [s'|e] eqn:E.
    + exists s'. split; [done|]. by apply (H3 false 50 sample_slot_block s' 1700000022 sample_slot_block_ok E).
    + exfalso. by vm_compute in E.
Defined.

Lemma slots_accounted_witness : ∃ s',
  update_global_dynamic_data false 50 sample_slot_block sample_slots = Ok s' ∧
  slots_filled sample_slot_block sample_slots s' ∧ participation_count s' = 126.
Proof.
  destruct (slots_accounted false 50 sample_slot_block sample_slots) as (s' & Hs & Hf & _).
  - exact (ready_known _ _ sample_ready).
  - intros m. by vm_compute.
  - exact sample_slot_block_ok.
  - by vm_compute.
  - by vm_compute.
  - exists s'. split; [exact Hs|]. split; [exact Hf|]. rewrite (filled_count _ _ _ Hf), (filled_slots _ _ _ Hf).
    by vm_compute.
Defined.
